(* ===== verification/_CoqProject ===== *)
-Q . S2P
Prelude.v
CString.v
UrlCodec.v
UrlParams.v
Cypher.v
UrlHelper.v
RijndaelTables.v
Rijndael.v
RijndaelProofs.v
SohuPrice.v
Executor.v
Escape.v
Hash.v
Scenario.v
IpManager.v
SizeMap.v
TypeTable.v
Template.v
LogPusher.v
LogThreads.v
Double.v
MttyTime.v
PriceDecode.v
Pricing.v
Http.v
QueryTask.v
ClickTask.v
CookieMapping.v
TraceTask.v
BidUrl.v
Md5.v
TanxDevice.v
Acbm.v
UserClient.v
AdSelect.v
AdClient.v
ShowTask.v
BidBase.v
BidReport.v
ToolTask.v
BidTask.v
BidAnswer.v
BaiduBid.v
TanxBid.v
MaxBid.v
SohuBid.v
GdtBid.v
