(* ===== verification/Prelude.v ===== *)
(** * Verification of the ad service (src/src/adservice/adservice)

    The repository is an nginx with a module that serves online advertising.  An exchange
    sends a bid request; the service identifies the user, selects an ad, and answers with html
    whose urls lead back to it.  When the browser loads the ad, the show url is requested (an
    impression), when the user follows it, the click url; both carry the ad in their parameters,
    and the impression carries the price of the auction, encrypted by the exchange.  Every request
    becomes a log record, from which the advertiser is billed.

    ** The parts and their files

    Paths are relative to src/src/adservice/adservice/service/.

    - Prelude: the type [outcome], bytes and integers of a width, tactics, hints, generic lemmas.
    - CString: the C and C++ string functions the sources call.
    - UrlCodec, UrlParams, UrlHelper: utility/url.cpp and url.h.  Percent encoding; parameter and
      cookie parsing; [URLHelper], its plain form and its cipher form (the parameters of a table as
      variable length numbers and strings with a check word, base64 and percent encoded).
    - Cypher: utility/cypher.cpp.  Hexadecimal text, cookie ids, the wrappers of Crypto++.
    - RijndaelTables, Rijndael, RijndaelProofs, SohuPrice: protocol/sohu/sohu_price.cpp.  The block
      cipher [CRijndael], its modes and the price decoder on it.
    - PriceDecode: the price decoders of baidu, guangyin, tanx, 360, kupai, youku, tencent_gdt and
      netease under protocol/.
    - Double: the [double] arithmetic the prices use.
    - Pricing, QueryTask: core/logic/abstract_query_task.cpp.  Which decoder reads a price, cost,
      bid price and fees; the request from its query string to its log record.
    - ClickTask: core/logic/click_query_task.cpp, core/model/source_id.cpp.
    - TraceTask: core/logic/trace_task.cpp.  ShowTask: core/logic/show_query_task.cpp.
      ToolTask: core/logic/tool_query_task.cpp.
    - CookieMapping: core/core_cm_manager.cpp, core/model/user.cpp and idseq.cpp,
      core/logic/mapping_query_task.cpp, and the mapping of
      protocol/base/abstract_bidding_handler.cpp.
    - BidUrl: the urls and snippets of protocol/base/abstract_bidding_handler.cpp.  BidBase: the
      state its handlers share, the ad of a bid and its log item.
    - BidTask: core/logic/bid_query_task.cpp.  The route from a path to the handler of its exchange
      and the auction over the places of a request; the handlers are the interface
      [BiddingHandler].  BidAnswer: what the answer to a request is, for every handler that keeps
      the promises of [HandlerAnswers].  BaiduBid, TanxBid, MaxBid, SohuBid, GdtBid: the
      handlers of protocol/baidu/baidu_bidding_handler.cpp, protocol/tanx/tanx_bidding_handler.cpp,
      protocol/360/360max_bidding_handler.cpp, protocol/sohu/sohu_bidding_handler.cpp and
      protocol/tencent_gdt/gdt_bidding_handler.cpp, instances of both.  BidReport: what these handlers
      write alike.  TanxDevice: protocol/tanx/tanx_device_id.cpp, the device ids that Tanx encrypts.
    - AdSelect, AdClient: core/adselectv2/.  What the ad selection is asked, and its client.
    - UserClient: utility/userclient.cpp and libutil/AdUaParser.h, what a user agent tells; Acbm:
      libutil/AdAcbm.cpp, the pattern matcher it uses.  Md5: libutil/AdMd5.cpp.
    - Http: utility/http.h and http.cpp.  MttyTime: utility/mttytime.cpp and mttytime.h.
    - Executor: core/core_executor.cpp and core_executor.h, the thread pool.
    - LogPusher, LogThreads: core/logpusher/, where log records go: the functions as one thread runs
      them, and their steps under concurrent threads.
    - Escape, Hash: utility/escape.cpp, utility/hash.cpp.
    - Scenario, IpManager: utility/utility.h, core/core_scenario_manager.cpp,
      core/core_ip_manager.cpp, what is known of an address.
    - SizeMap, TypeTable, Template: core/core_ad_sizemap.cpp, core/core_typetable.cpp,
      utility/template_engine.cpp.

    ** How code becomes definitions

    A function of the sources is a function here, with its name where possible.  It returns an
    [outcome]: [Val] with its result, [Exc] with the exception it throws, or [Undef] when the C++
    standard gives the run no meaning: a read or write outside an array, a signed overflow, a
    null pointer.  So a theorem whose conclusion is [Val] also says that the run stays within its
    bounds.  Integers are [Z], with the wrap-around of unsigned types written out and signed
    arithmetic checked where it can leave its type.  A buffer the caller supplies is a list of its
    length; a [std::string] is a list of bytes.  An object is a record, a method that changes it
    returns the new record, and the tasks thread the request state through a monad in which an
    exception keeps the changes made before it, as references do in the code.  The singletons
    ([getInstance]) are a state of their own.  Maps are [gmap]s; where the order of traversal of
    an [unordered_map] shows, it is a parameter.

    Concurrency is a step relation.  In Executor a step is what one thread does between two
    points where another can interfere; condition variables may wake without a signal.  In
    LogThreads the functions of the logger are taken apart in the same way, down to the lookup, the lock,
    the compare-and-swap and the creation of the monitor thread; a logger lives as long as a shared
    pointer to it, and a lookup during an insertion is undefined.  The tasks use the functions of
    LogPusher, which are these steps without an interruption (lemmas [push_alone] and
    [getLogger_alone] of LogThreads).  In CookieMapping the requests sent to the database wait in a
    list, and each may be delivered or lost.

    ** What is a parameter

    Code that is not in the repository is an interface: a class with the operations the sources
    call, and where a theorem needs them a class of laws with their documented behaviour.
    Constants of mtty/constants.h: [UrlNames] (the parameter names are different), [AdxConst],
    [TaskConst], [IpConst], [ScenarioConst], [LogConst], [CmConst], [UrlLiterals], [Snippets],
    [ShowConst], [UaConst], [BrowserConst], [BidConst], [NetConst].
    Crypto++, OpenSSL and Boost: [Base64], [CryptoPP], [Aes], [OpenSSL], [BoostBase64], [Regex],
    [Archive].  Mtty's libraries: [UserIds], [Avro], [RecordStore] (aerospike), [MtCommon],
    [SelectWire].  ZeroMQ: [ZmqReq], with the rules of a request socket as [ZmqReqLaws].  The JSON of
    cppcms: [Json].  The generated messages: [BaiduProto], [TanxProto],
    [MaxProto], [SohuProto], [GdtProto].  What memory holds
    where the code reads it uninitialised or past an end: [Memory], [IpMemory], [PriceMemory],
    [CondMemory].  The
    order of hash maps: [MapOrder], [DeviceOrder].  What a service answers in a given run (kafka,
    aerospike, the clock, files, rows of a database) is an argument.  Every theorem with such a law
    has a witness in which the interface is a concrete one.  Local time has one offset to UTC, an
    argument.

    ** What the theorems show

    - A url the service prints in cipher form is read back, by [URLHelper] and by the tasks
      (UrlHelper, QueryTask); an ad that was won reaches the log of its impression with its ids, and
      the advertiser is billed the price the exchange signed within the fee rate of the bid
      (BidUrl).  Cost and billing are booked once, with their amounts (Pricing); each decoder accepts exactly the messages with the
      right signature (PriceDecode); Rijndael decrypts what it encrypted for every key and block
      size and mode (SohuPrice).
    - A bid request reaches the handler of its exchange; each of its places is asked for once, with the area,
      hour and scenario of its address, and logged, and no solution is bid twice if the selection respects
      the bans (BidTask).  The answer to Baidu holds exactly the ads that were found, for
      their slots and at least at their floors (BaiduBid); those to Tanx, 360, Sohu and Tencent hold the ad
      that was found for the first place, or none (TanxBid, MaxBid, SohuBid, GdtBid).  Each ad is logged with the ad its
      impression will be logged with; the price reaches the impression everywhere but on Sohu, where it
      never does (SohuBid).  The ids of a device that Tanx has encrypted are read back,
      and its user is found by them (TanxBid); the price that is sent to 360 is the bid, without
      wrapping, less than a cent below the floor of the slot at most (MaxBid).  The parameters of a bid on
      Tencent come back when they fit the 200 bytes that are passed on (GdtBid).  The selection is told every
      value of a condition under its name, the hour of the week among them (AdClient, MttyTime); the
      client is blocked for ever exactly after a failed receive on an open socket (AdClient).
    - A click is redirected to its landing page, which is expanded exactly when the page and its expansion
      fit their arrays, and stored for the tracking module (ClickTask), whose
      report finds it again (TraceTask); an impression answers with the creative the ad stands for,
      whose click leads to its landing page, and an ad on an own place is booked once (ShowTask).
    - The tools are closed to requests without the password and decipher what they ciphered
      (ToolTask).
    - A user found by a lookup stays the same user, a new one is found by each of his devices, and
      a browser mapped by the mapping module is found by the next bid (CookieMapping).
    - The thread pool keeps its queue first in first out, runs a task at most once and does not
      lose a wakeup while it runs; its stop can wait for ever (Executor).  The log pusher has at
      most one monitor thread under any interleaving; every record is accepted, queued, in the hands of a
      thread, or given up for one of four reasons that are named (LogThreads).
    - The pattern matcher finds every occurrence of every pattern (Acbm), so exactly the browsers a
      user agent names are reported (UserClient); the digest is that of RFC 1321, which is specified
      apart from the code (Md5).
    - The area, scenario, size and category lookups return what a scan of their table would
      (IpManager, Scenario, SizeMap, TypeTable).
    - The encoders and parsers stay within their buffers, exactly on the inputs named, and their
      round trips hold (UrlCodec, UrlParams, Cypher, Escape, Template).

    ** Fuel and bounds

    Loops are structural recursions on the input wherever the code consumes it.  Loops that do
    not are given fuel: the number of bytes of the text for [url_replace_all], whose theorem says
    that this is enough exactly when the loop ends; the length of the buffer for the number
    readers, which consume at least a byte each round; the number of entries for the binary
    searches, which halve an interval of that length; the number of waiting requests in
    CookieMapping, where the theorem includes that delivery ends.  Running out of fuel is never a
    [Val], so a theorem that concludes [Val] shows the fuel is enough.

    ** Not modelled

    nginx itself and the protocol buffers are vendored and generated code.  Of the bidding handlers
    those of Baidu, Tanx, 360, Sohu and Tencent are modelled; those of the other exchanges (2345,
    guangyin, inmobi, kupai, liebao, netease, yidian and youku) repeat their scheme over
    messages of their own and are left out; of them only the price decoders are modelled.  The
    wrappers of zlib, of the JSON library and of the random device, start-up, logging to files, and the command line tools are input and output; the rest of libutil wraps system
    calls and is not used by the service. *)
From Stdlib Require Export ZArith Lia Ascii String Btauto.
From stdpp Require Export base list gmap strings sorting.

#[global] Open Scope Z_scope.

(** ** Bytes and string literals

    A C [char] buffer or a [std::string] is a list of bytes; a byte is an
    integer in [0, 256).  [schar] is the value the byte has when it is read
    through a (signed, as on x86-64) [char]. *)

Abbreviation bytes := (list Z).

Definition ch (a : ascii) : Z := Z.of_N (N_of_ascii a).
Arguments ch _%_char : simpl never.

Definition str (s : string) : bytes := map ch (list_ascii_of_string s).
Arguments str _%_string.

Definition is_byte (b : Z) : Prop := 0 <= b < 256.
Definition is_ascii (b : Z) : Prop := 0 <= b < 128.

Definition schar (b : Z) : Z := if b <? 128 then b else b - 256.

#[global] Instance is_byte_dec b : Decision (is_byte b).
Proof. unfold is_byte. apply _. Defined.
#[global] Instance is_ascii_dec b : Decision (is_ascii b).
Proof. unfold is_ascii. apply _. Defined.

(** ** Machine integers

    [uwrap w] is the conversion to a [w]-bit unsigned type and [swrap w] the
    (two's complement) conversion to a [w]-bit signed one. *)

Definition uwrap (w : Z) (z : Z) : Z := z mod 2 ^ w.
Definition swrap (w : Z) (z : Z) : Z := (z + 2 ^ (w - 1)) mod 2 ^ w - 2 ^ (w - 1).

Abbreviation u8 := (uwrap 8).
Abbreviation u16 := (uwrap 16).
Abbreviation u32 := (uwrap 32).
Abbreviation u64 := (uwrap 64).
Abbreviation s8 := (swrap 8).
Abbreviation s16 := (swrap 16).
Abbreviation s32 := (swrap 32).
Abbreviation s64 := (swrap 64).

Lemma uwrap_range w z : 0 <= w -> 0 <= uwrap w z < 2 ^ w.
Proof. intros. unfold uwrap. apply Z.mod_pos_bound. lia. Qed.

Lemma uwrap_small w z : 0 <= z < 2 ^ w -> uwrap w z = z.
Proof. intros. unfold uwrap. by apply Z.mod_small. Qed.

Lemma swrap_range w z : 0 < w -> - 2 ^ (w - 1) <= swrap w z < 2 ^ (w - 1).
Proof.
  intros. unfold swrap.
  assert (2 ^ w = 2 * 2 ^ (w - 1)) as E by (rewrite <- Z.pow_succ_r by lia; f_equal; lia).
  pose proof (Z.mod_pos_bound (z + 2 ^ (w - 1)) (2 ^ w)). lia.
Qed.

Lemma swrap_small w z : 0 < w -> - 2 ^ (w - 1) <= z < 2 ^ (w - 1) -> swrap w z = z.
Proof.
  intros. unfold swrap.
  assert (2 ^ w = 2 * 2 ^ (w - 1)) as E by (rewrite <- Z.pow_succ_r by lia; f_equal; lia).
  rewrite Z.mod_small; lia.
Qed.

(** Congruence modulo the width: conversions in the middle of a sum are absorbed. *)
Lemma swrap_mod w z : 0 < w -> swrap w z mod 2 ^ w = z mod 2 ^ w.
Proof.
  intros. unfold swrap. rewrite Zminus_mod_idemp_l. f_equal. lia.
Qed.

Lemma uwrap_swrap w z : 0 < w -> uwrap w (swrap w z) = uwrap w z.
Proof. intros. unfold uwrap. by apply swrap_mod. Qed.

Lemma uwrap_add w x y x' y' :
  uwrap w x = uwrap w x' -> uwrap w y = uwrap w y' -> uwrap w (x + y) = uwrap w (x' + y').
Proof. unfold uwrap. intros Hx Hy. by rewrite Zplus_mod, Hx, Hy, <- Zplus_mod. Qed.

Lemma uwrap_mul w x y x' y' :
  uwrap w x = uwrap w x' -> uwrap w y = uwrap w y' -> uwrap w (x * y) = uwrap w (x' * y').
Proof. unfold uwrap. intros Hx Hy. by rewrite Zmult_mod, Hx, Hy, <- Zmult_mod. Qed.

Lemma uwrap_idem w z : uwrap w (uwrap w z) = uwrap w z.
Proof. unfold uwrap. apply Zmod_mod. Qed.

Lemma swrap_uwrap_eq w x y : uwrap w x = uwrap w y -> swrap w x = swrap w y.
Proof.
  unfold uwrap, swrap. intros E. f_equal.
  by rewrite Zplus_mod, E, <- Zplus_mod.
Qed.

Lemma lor_add x y n : 0 <= n -> 0 <= y < 2 ^ n -> Z.lor (x * 2 ^ n) y = x * 2 ^ n + y.
Proof.
  intros Hn Hy. rewrite <- Z.add_lor_land. replace (Z.land (x * 2 ^ n) y) with 0; [lia|].
  symmetry. apply Z.bits_inj'. intros i Hi. rewrite Z.land_spec, Z.bits_0.
  destruct (Z.lt_ge_cases i n).
  - rewrite Z.mul_pow2_bits_low by lia. done.
  - rewrite <- (Z.mod_small y (2 ^ n)) by lia. rewrite Z.mod_pow2_bits_high by lia. apply andb_false_r.
Qed.

Lemma schar_ascii b : is_ascii b -> schar b = b.
Proof. unfold is_ascii, schar. intros. destruct (Z.ltb_spec b 128); lia. Qed.

Lemma is_ascii_byte b : is_ascii b -> is_byte b.
Proof. unfold is_ascii, is_byte. lia. Qed.

(** ** Outcomes

    The result of running a piece of C++: a value, an exception in flight, or
    undefined behaviour (an access outside the object it should address). *)

Inductive exn : Type :=
| InvalidArgument              (* std::invalid_argument *)
| OutOfRange                   (* std::out_of_range *)
| LengthError                  (* std::length_error *)
| PriceDecodeException         (* PriceDecodeException of the price decoders *)
| URLException (msg : string)  (* adservice::utility::url::URLException *)
| MtException (msg : string)   (* MtException, common/types.h *)
| RuntimeError (msg : string)  (* std::runtime_error *)
| BadCast                      (* cppcms::json::bad_value_cast, boost::bad_lexical_cast *)
| CharPtr (msg : string).      (* throw of a const char literal *)

(** What a [catch (std::exception &)] clause catches. *)
Definition is_std_exception (e : exn) : bool :=
  match e with CharPtr _ => false | _ => true end.

#[global] Instance exn_eq_dec : EqDecision exn.
Proof. solve_decision. Defined.

Inductive outcome (A : Type) : Type :=
| Val (a : A)
| Exc (e : exn)
| Undef.
Arguments Val {A} _.
Arguments Exc {A} _.
Arguments Undef {A}.

#[global] Instance outcome_eq_dec {A} `{EqDecision A} : EqDecision (outcome A).
Proof. solve_decision. Defined.

#[global] Instance outcome_ret : MRet outcome := @Val.
#[global] Instance outcome_bind : MBind outcome :=
  fun A B f m => match m with Val a => f a | Exc e => Exc e | Undef => Undef end.

(** [try_std m h]: [try { m } catch (std::exception &) { h }]. *)
Definition try_std {A} (m : outcome A) (h : exn -> outcome A) : outcome A :=
  match m with
  | Exc e => if is_std_exception e then h e else Exc e
  | _ => m
  end.

(** [try_all m h]: [try { m } catch (...) { h }]. *)
Definition try_all {A} (m : outcome A) (h : outcome A) : outcome A :=
  match m with Exc _ => h | _ => m end.

Definition defined {A} (m : outcome A) : Prop := m <> Undef.

Lemma bind_Val_iff {A B} (m : outcome A) (f : A -> outcome B) b :
  m ≫= f = Val b <-> exists a, m = Val a /\ f a = Val b.
Proof. destruct m; naive_solver. Qed.

Lemma bind_Exc_iff {A B} (m : outcome A) (f : A -> outcome B) e :
  m ≫= f = Exc e <-> m = Exc e \/ exists a, m = Val a /\ f a = Exc e.
Proof. destruct m; naive_solver. Qed.

Lemma bind_defined {A B} (m : outcome A) (f : A -> outcome B) :
  defined m -> (forall a, m = Val a -> defined (f a)) -> defined (m ≫= f).
Proof. unfold defined. destruct m; naive_solver. Qed.

Lemma bind_assoc {A B C} (m : outcome A) (f : A -> outcome B) (g : B -> outcome C) :
  (m ≫= f) ≫= g = m ≫= (fun a => f a ≫= g).
Proof. by destruct m. Qed.

(** [guard P]: the access whose precondition is [P]; undefined without it. *)
Definition check (b : bool) : outcome unit := if b then Val tt else Undef.

Lemma check_Val b u : check b = Val u <-> b = true.
Proof. destruct b, u; naive_solver. Qed.

(** Array and buffer reads and writes at an integer index. *)
Definition rd {A} (l : list A) (i : Z) : outcome A :=
  if i <? 0 then Undef else match l !! Z.to_nat i with Some x => Val x | None => Undef end.

Definition wr {A} (l : list A) (i : Z) (x : A) : outcome (list A) :=
  if (0 <=? i) && (i <? Z.of_nat (length l)) then Val (<[Z.to_nat i := x]> l) else Undef.

Lemma rd_nat {A} (l : list A) (i : nat) :
  rd l (Z.of_nat i) = match l !! i with Some x => Val x | None => Undef end.
Proof. unfold rd. destruct (Z.ltb_spec (Z.of_nat i) 0); [lia|]. by rewrite Nat2Z.id. Qed.

Lemma rd_nth {A} (l : list A) i d :
  0 <= i < Z.of_nat (length l) -> rd l i = Val (nth (Z.to_nat i) l d).
Proof.
  intros. unfold rd. destruct (Z.ltb_spec i 0); [lia|].
  destruct (nth_lookup_or_length l (Z.to_nat i) d) as [->|]; [done|lia].
Qed.

Lemma rd_Some {A} (l : list A) i x : 0 <= i -> l !! Z.to_nat i = Some x -> rd l i = Val x.
Proof. intros Hi E. unfold rd. destruct (Z.ltb_spec i 0); [lia|]. by rewrite E. Qed.

Lemma rd_no_exc {A : Type} (l : list A) i e : rd l i <> Exc e.
Proof. unfold rd. destruct (i <? 0); [done|]. by destruct (l !! _). Qed.

Lemma rd_Val_iff {A} (l : list A) i x : rd l i = Val x <-> 0 <= i /\ l !! Z.to_nat i = Some x.
Proof.
  unfold rd. destruct (Z.ltb_spec i 0); [split; [done|lia]|].
  destruct (l !! Z.to_nat i); naive_solver.
Qed.

Lemma wr_in {A} (l : list A) i x :
  0 <= i < Z.of_nat (length l) -> wr l i x = Val (<[Z.to_nat i := x]> l).
Proof.
  intros. unfold wr.
  destruct (Z.leb_spec 0 i), (Z.ltb_spec i (Z.of_nat (length l))); by try lia.
Qed.

(** [lia] with division and remainder by constants. *)
Ltac dlia := Z.to_euclidean_division_equations; lia.

(** ** Loops and sequential writes *)

(** [for (k = i; k < i + n; k++) s = f k s]. *)
Fixpoint forN {S} (n : nat) (i : Z) (f : Z -> S -> outcome S) (s : S) : outcome S :=
  match n with
  | O => Val s
  | Datatypes.S n => s ← f i s; forN n (i + 1) f s
  end.

Lemma forN_spec {S} (I : Z -> S -> Prop) n i f s :
  I i s ->
  (forall k s, i <= k < i + Z.of_nat n -> I k s -> exists s', f k s = Val s' /\ I (k + 1) s') ->
  exists s', forN n i f s = Val s' /\ I (i + Z.of_nat n) s'.
Proof.
  revert i s. induction n as [|n IH]; intros i s Hi Hstep.
  - exists s. split; [done|]. by rewrite Z.add_0_r.
  - destruct (Hstep i s) as (s' & E & Hi'); [lia|done|]. cbn [forN]. rewrite E. cbn [mbind outcome_bind].
    destruct (IH (i + 1) s' Hi') as (s'' & E' & Hi'').
    { intros k s0 Hk. apply Hstep. lia. }
    exists s''. split; [done|]. by replace (i + Z.of_nat (Datatypes.S n)) with (i + 1 + Z.of_nat n) by lia.
Qed.

(** [over w buf]: the buffer after [w] was written over its first bytes. *)
Definition over {A} (w buf : list A) : list A := w ++ drop (length w) buf.

Lemma over_nil {A} (buf : list A) : over [] buf = buf.
Proof. unfold over. simpl. apply drop_0. Qed.

Lemma length_over {A} (w buf : list A) : (length w <= length buf)%nat -> length (over w buf) = length buf.
Proof. intros. unfold over. rewrite length_app, length_drop. lia. Qed.

Lemma over_full {A} (w buf : list A) : length w = length buf -> over w buf = w.
Proof. intros E. unfold over. rewrite drop_ge by lia. apply app_nil_r. Qed.

Lemma wr_over {A} (w buf : list A) i x :
  i = Z.of_nat (length w) -> (length w < length buf)%nat ->
  wr (over w buf) i x = Val (over (w ++ [x]) buf).
Proof.
  intros -> H. rewrite wr_in by (rewrite length_over; lia). f_equal. rewrite Nat2Z.id.
  unfold over. rewrite length_app. simpl. rewrite <- app_assoc.
  destruct (drop (length w) buf) as [|y r] eqn:E.
  { apply (f_equal length) in E. rewrite length_drop in E. simpl in E. lia. }
  rewrite insert_app_r_alt by lia. rewrite Nat.sub_diag. simpl. do 2 f_equal.
  replace (length w + 1)%nat with (1 + length w)%nat by lia.
  rewrite Nat.add_comm, <- drop_drop, E. done.
Qed.

Lemma rd_over_last {A} (w buf : list A) i x : i = Z.of_nat (length w) -> rd (over (w ++ [x]) buf) i = Val x.
Proof.
  intros ->. rewrite rd_nat. unfold over. rewrite <- app_assoc, lookup_app_r by lia.
  by rewrite Nat.sub_diag.
Qed.

Lemma wr_over_last {A} (w buf : list A) i x y :
  i = Z.of_nat (length w) -> wr (over (w ++ [x]) buf) i y = Val (over (w ++ [y]) buf).
Proof.
  intros ->. rewrite wr_in by (unfold over; rewrite !length_app; simpl; lia). f_equal.
  rewrite Nat2Z.id. unfold over. rewrite !length_app. simpl. rewrite <- !app_assoc.
  rewrite insert_app_r_alt by lia. by rewrite Nat.sub_diag.
Qed.

(** ** Maps *)

(** [m.insert({k, v})] on a [std::map]: an existing entry is kept. *)
Definition insert_new `{Countable K} {A} (k : K) (v : A) (m : gmap K A) : gmap K A :=
  match m !! k with Some _ => m | None => <[k := v]> m end.

Lemma insert_new_lookup `{Countable K} {A} (k : K) (v : A) (m : gmap K A) k' :
  insert_new k v m !! k' = if decide (k = k') then Some (default v (m !! k)) else m !! k'.
Proof.
  unfold insert_new. case_decide as Hk; subst.
  - destruct (m !! k') eqn:E; [by rewrite E|by rewrite lookup_insert_eq].
  - destruct (m !! k); [done|by rewrite lookup_insert_ne].
Qed.

(** ** Sorted arrays *)

Definition sorted (a : list Z) : Prop :=
  forall i j x y, a !! i = Some x -> a !! j = Some y -> (i <= j)%nat -> x <= y.

Lemma Sorted_sorted (a : list Z) : Sorted Z.le a -> sorted a.
Proof.
  intros H. apply Sorted_StronglySorted in H; [|intros x y z; lia].
  induction H as [|x a _ IH Hx]; [intros i j x y E; done|].
  intros [|i] [|j] u v Eu Ev Hij; simpl in *; simplify_eq; [lia| |lia|].
  - rewrite Forall_lookup in Hx. by eapply Hx.
  - eapply (IH i j); [done|done|lia].
Qed.

Lemma sorted_adjacent a :
  (forall i x y, a !! i = Some x -> a !! S i = Some y -> x <= y) -> sorted a.
Proof.
  intros H i j x y Ex Ey Hij. revert y Ey. induction Hij as [|j Hij IH]; intros y Ey; [simplify_eq; lia|].
  destruct (lookup_lt_is_Some_2 a j) as [z Ez]; [apply lookup_lt_Some in Ey; lia|].
  specialize (IH z Ez). specialize (H j z y Ez Ey). lia.
Qed.

(** ** Automation *)

Create HintDb adsrv.
#[export] Hint Resolve is_ascii_byte schar_ascii uwrap_small swrap_small : adsrv.

(** Invert a successful run of a sequence of outcome steps. *)
Ltac run_inv :=
  repeat match goal with
  | H : (_ ≫= _) = Val _ |- _ => apply bind_Val_iff in H; destruct H as (? & ? & H)
  | H : Val _ = Val _ |- _ => injection H as H; subst
  | H : Exc _ = Val _ |- _ => discriminate H
  | H : Undef = Val _ |- _ => discriminate H
  | H : mret _ = Val _ |- _ => injection H as H; subst
  | H : check _ = Val _ |- _ => apply check_Val in H
  | H : rd _ _ = Val _ |- _ => apply rd_Val_iff in H; destruct H
  end.

(** A decidable closed goal, by evaluating its decision procedure. *)
Ltac by_decide :=
  match goal with
  | |- ?P => let E := fresh in
             assert (bool_decide P = true) as E by (vm_compute; reflexivity);
             apply bool_decide_eq_true in E; exact E
  end.

(** Concatenations nested to the right. *)
Ltac app_norm := cbn [app]; repeat (rewrite <- app_assoc; cbn [app]).

(** Case on the boolean integer comparisons of the goal. *)
Ltac zcase :=
  repeat match goal with
  | |- context [?x =? ?y] => destruct (Z.eqb_spec x y)
  | |- context [?x <? ?y] => destruct (Z.ltb_spec x y)
  | |- context [?x <=? ?y] => destruct (Z.leb_spec x y)
  end.

(** A decidable property of the bytes, by evaluation at each of them. *)
Definition all_below (n : nat) (P : Z -> bool) : bool := forallb (fun k => P (Z.of_nat k)) (seq 0 n).

Lemma all_below_spec n P :
  all_below n P = true -> forall z, 0 <= z < Z.of_nat n -> P z = true.
Proof.
  unfold all_below. rewrite forallb_forall. intros H z Hz.
  rewrite <- (Z2Nat.id z) by lia. apply H. apply in_seq. lia.
Qed.

(** [by_bytes P] proves [forall z in the byte range, P z] once [P] is a
    boolean predicate that holds of each. *)
Ltac by_table n P :=
  let H := fresh in
  pose proof (all_below_spec n P ltac:(vm_compute; reflexivity)) as H; cbv beta in H.
