(* ===== verification/CString.v ===== *)
(** * CString: the C and C++ string functions the service calls

    [c_str], the number parsers and printers of the standard library
    ([std::stol], [std::stoi], [atoi], [std::to_string], streams with
    [std::hex]), [std::string::find] and [replace], [boost::split].  They are the
    vocabulary the other components are written in. *)
From S2P Require Import Prelude.

(** ** C strings *)

(** What a [const char *] into the buffer denotes: the bytes before the first NUL. *)
Fixpoint c_str (s : bytes) : bytes :=
  match s with
  | [] => []
  | b :: s' => if b =? 0 then [] else b :: c_str s'
  end.

Definition no_nul (s : bytes) : Prop := Forall (fun b => b <> 0) s.

Lemma c_str_no_nul s : no_nul (c_str s).
Proof. induction s; simpl; [constructor|]. destruct (Z.eqb_spec a 0); by constructor. Qed.

Lemma c_str_id s : no_nul s -> c_str s = s.
Proof. induction 1; simpl; [done|]. destruct (Z.eqb_spec x 0); congruence. Qed.

(** [s.c_str()[i]]: the terminator is readable, nothing after it is. *)
Definition cat (s : bytes) (i : Z) : outcome Z := rd (s ++ [0]) i.

(** The string of the bytes in [i, j). *)
Definition slice (s : bytes) (i j : nat) : bytes := take (j - i) (drop i s).

Lemma slice_nil s i : slice s i i = [].
Proof. unfold slice. by rewrite Nat.sub_diag. Qed.

Lemma slice_app_mid (a b c : bytes) i j :
  i = length a -> j = (length a + length b)%nat -> slice (a ++ b ++ c) i j = b.
Proof.
  intros -> ->. unfold slice. rewrite drop_app_length.
  replace (length a + length b - length a)%nat with (length b) by lia. by rewrite take_app_length.
Qed.

(** ** Numbers in base [b], most significant digit first *)

Fixpoint digits_loop (b : Z) (fuel : nat) (n : Z) (acc : list Z) : list Z :=
  match fuel with
  | O => acc
  | S fuel => if n =? 0 then acc else digits_loop b fuel (n / b) (n mod b :: acc)
  end.

Definition digits (b n : Z) : list Z :=
  if n =? 0 then [0] else digits_loop b (S (Z.to_nat (Z.log2 n))) n [].

Definition value (b : Z) (ds : list Z) : Z := foldl (fun a d => a * b + d) 0 ds.

Lemma value_app b ds ds' :
  value b (ds ++ ds') = value b ds * b ^ Z.of_nat (length ds') + value b ds'.
Proof.
  unfold value. rewrite foldl_app. generalize (foldl (fun a d => a * b + d) 0 ds) as v.
  assert (forall v, foldl (fun a d => a * b + d) v ds'
     = v * b ^ Z.of_nat (length ds') + foldl (fun a d => a * b + d) 0 ds') as E; [|intros; apply E].
  induction ds' as [|d ds' IH]; intros v; cbn [foldl length]; [lia|].
  rewrite (IH (v * b + d)), (IH (0 * b + d)), Nat2Z.inj_succ, Z.pow_succ_r by lia. lia.
Qed.

Lemma value_cons b d ds : value b (d :: ds) = d * b ^ Z.of_nat (length ds) + value b ds.
Proof. change (d :: ds) with ([d] ++ ds). rewrite value_app. unfold value at 1. simpl. lia. Qed.

Lemma digits_loop_spec b fuel n acc :
  2 <= b -> 0 <= n < 2 ^ Z.of_nat fuel ->
  value b (digits_loop b fuel n acc) = n * b ^ Z.of_nat (length acc) + value b acc.
Proof.
  intros Hb. revert n acc. induction fuel as [|fuel IH]; intros n acc Hn.
  { change (2 ^ Z.of_nat 0) with 1 in Hn. simpl. replace n with 0 by lia. lia. }
  cbn [digits_loop]. destruct (Z.eqb_spec n 0) as [->|Hnz]; [lia|].
  rewrite Nat2Z.inj_succ, Z.pow_succ_r in Hn by lia.
  rewrite IH.
  - rewrite value_cons. cbn [length]. rewrite Nat2Z.inj_succ, Z.pow_succ_r by lia.
    rewrite (Z.div_mod n b) at 3 by lia. ring.
  - split; [apply Z.div_pos; lia|].
    apply Z.div_lt_upper_bound; [lia|]. nia.
Qed.

Lemma log2_fuel n : 0 < n -> 0 <= n < 2 ^ Z.of_nat (S (Z.to_nat (Z.log2 n))).
Proof.
  intros. pose proof (Z.log2_spec n). pose proof (Z.log2_nonneg n).
  rewrite Nat2Z.inj_succ, Z2Nat.id by lia. lia.
Qed.

Lemma value_digits b n : 2 <= b -> 0 <= n -> value b (digits b n) = n.
Proof.
  intros. unfold digits. destruct (Z.eqb_spec n 0) as [->|]; [done|].
  rewrite digits_loop_spec by (try apply log2_fuel; lia). simpl. change (value b []) with 0. lia.
Qed.

Lemma digits_loop_range b fuel n acc :
  2 <= b -> 0 <= n -> Forall (fun d => 0 <= d < b) acc ->
  Forall (fun d => 0 <= d < b) (digits_loop b fuel n acc).
Proof.
  intros Hb. revert n acc. induction fuel as [|fuel IH]; intros n acc Hn Ha; simpl; [done|].
  destruct (Z.eqb_spec n 0); [done|]. apply IH.
  - apply Z.div_pos; lia.
  - constructor; [apply Z.mod_pos_bound; lia|done].
Qed.

Lemma digits_range b n : 2 <= b -> 0 <= n -> Forall (fun d => 0 <= d < b) (digits b n).
Proof.
  intros. unfold digits. destruct (n =? 0).
  - repeat constructor; lia.
  - by apply digits_loop_range.
Qed.

Lemma digits_loop_ne b fuel n acc : acc <> [] -> digits_loop b fuel n acc <> [].
Proof. revert n acc. induction fuel; intros; simpl; [done|]. destruct (n =? 0); [done|]. by apply IHfuel. Qed.

Lemma digits_ne b n : digits b n <> [].
Proof.
  unfold digits. destruct (n =? 0) eqn:E; [done|]. cbn [digits_loop]. rewrite E.
  by apply digits_loop_ne.
Qed.

(** ** Decimal and hexadecimal text *)

Definition dec_char (d : Z) : Z := 48 + d.
Definition hex_char (d : Z) : Z := if d <? 10 then 48 + d else 87 + d.

Definition to_string (n : Z) : bytes :=
  if n <? 0 then 45 :: map dec_char (digits 10 (- n)) else map dec_char (digits 10 n).

(** [ss << std::hex << n] for an unsigned [n]. *)
Definition hex_string (n : Z) : bytes := map hex_char (digits 16 n).

(** [std::setw(w) << std::setfill('0')] around a string. *)
Definition zfill (w : nat) (s : bytes) : bytes := replicate (w - length s) 48 ++ s.

Definition is_digit (c : Z) : bool := (48 <=? c) && (c <=? 57).
Definition is_space (c : Z) : bool := (c =? 32) || ((9 <=? c) && (c <=? 13)).

Fixpoint skip_while (p : Z -> bool) (s : bytes) : bytes :=
  match s with [] => [] | c :: s' => if p c then skip_while p s' else s end.
Fixpoint take_while (p : Z -> bool) (s : bytes) : bytes :=
  match s with [] => [] | c :: s' => if p c then c :: take_while p s' else [] end.

(** The sign and the digits [strtol] finds at the head of the text. *)
Definition scan_int (s : bytes) : bool * bytes :=
  match skip_while is_space s with
  | [] => (false, [])
  | c :: s' => if c =? 45 then (true, take_while is_digit s')
               else if c =? 43 then (false, take_while is_digit s')
               else (false, take_while is_digit (c :: s'))
  end.

Definition signed_value (neg : bool) (ds : bytes) : Z :=
  let v := value 10 (map (fun c => c - 48) ds) in if neg then - v else v.

Definition LONG_MIN := - 2 ^ 63.
Definition LONG_MAX := 2 ^ 63 - 1.
Definition INT_MIN := - 2 ^ 31.
Definition INT_MAX := 2 ^ 31 - 1.

(** [std::stol] and [std::stoi]: an exception when there is no number, or it
    does not fit the type. *)
Definition sto (lo hi : Z) (s : bytes) : outcome Z :=
  let '(neg, ds) := scan_int (c_str s) in
  match ds with
  | [] => Exc InvalidArgument
  | _ => let v := signed_value neg ds in
         if (lo <=? v) && (v <=? hi) then Val v else Exc OutOfRange
  end.
Definition stol := sto LONG_MIN LONG_MAX.
Definition stoi := sto INT_MIN INT_MAX.

(** [strtol] saturates; [atoi] truncates its result to an [int]. *)
Definition strtol (s : bytes) : Z :=
  let '(neg, ds) := scan_int (c_str s) in
  Z.max LONG_MIN (Z.min LONG_MAX (signed_value neg ds)).
Definition atoi (s : bytes) : Z := s32 (strtol s).

Lemma take_while_all p s : Forall (fun c => p c = true) s -> take_while p s = s.
Proof. induction 1 as [|c s E _ IH]; simpl; [done|]. by rewrite E, IH. Qed.

Lemma take_while_app p s t :
  Forall (fun c => p c = true) s -> take_while p (s ++ t) = s ++ take_while p t.
Proof. induction 1 as [|c s E _ IH]; simpl; [done|]. by rewrite E, IH. Qed.

Lemma take_skip_while p s : take_while p s ++ skip_while p s = s.
Proof. induction s as [|c s IH]; simpl; [done|]. destruct (p c); [|done]. simpl. by rewrite IH. Qed.

Lemma take_while_Forall p s : Forall (fun c => p c = true) (take_while p s).
Proof. induction s as [|c s IH]; simpl; [constructor|]. destruct (p c) eqn:E; by constructor. Qed.

Lemma skip_while_head p s c t : skip_while p s = c :: t -> p c = false.
Proof. induction s as [|x s IH]; simpl; [done|]. destruct (p x) eqn:E; [done|]. congruence. Qed.

Lemma dec_chars_digit ds :
  Forall (fun d => 0 <= d < 10) ds -> Forall (fun c => is_digit c = true) (map dec_char ds).
Proof.
  induction 1; simpl; constructor; [|done]. unfold is_digit, dec_char. lia.
Qed.

Lemma dec_chars_inv ds : map (fun c => c - 48) (map dec_char ds) = ds.
Proof. rewrite map_map. rewrite <- (map_id ds) at 2. apply map_ext. intros. unfold dec_char. lia. Qed.

Lemma to_string_nonneg n : 0 <= n -> to_string n = map dec_char (digits 10 n).
Proof. intros. unfold to_string. destruct (Z.ltb_spec n 0); [lia|done]. Qed.

(** A run of digits is scanned whole, whatever follows it. *)
Lemma scan_int_digits ds t :
  Forall (fun d => 0 <= d < 10) ds -> ds <> [] ->
  take_while is_digit t = [] ->
  scan_int (map dec_char ds ++ t) = (false, map dec_char ds).
Proof.
  intros Hd Hne Ht. destruct ds as [|d ds]; [done|].
  pose proof (Forall_inv Hd) as Hd0. simpl in Hd0.
  unfold scan_int. cbn [map app skip_while].
  assert (is_space (dec_char d) = false) as -> by (unfold is_space, dec_char; lia).
  change (dec_char d :: (map dec_char ds ++ t)) with (map dec_char (d :: ds) ++ t).
  assert (take_while is_digit (map dec_char (d :: ds) ++ t) = map dec_char (d :: ds)) as E.
  { rewrite take_while_app, Ht, app_nil_r; [done|]. by apply dec_chars_digit. }
  cbn [map app] in E |- *.
  destruct (Z.eqb_spec (dec_char d) 45) as [E1|_]; [unfold dec_char in E1; lia|].
  destruct (Z.eqb_spec (dec_char d) 43) as [E1|_]; [unfold dec_char in E1; lia|].
  by rewrite E.
Qed.

Lemma scan_int_neg_digits ds t :
  Forall (fun d => 0 <= d < 10) ds -> take_while is_digit t = [] ->
  scan_int (45 :: map dec_char ds ++ t) = (true, map dec_char ds).
Proof.
  intros Hd Ht. unfold scan_int. cbn [skip_while]. change (is_space 45) with false.
  f_equal. rewrite take_while_app, Ht, app_nil_r; [done|]. by apply dec_chars_digit.
Qed.

Lemma dec_chars_no_nul ds : Forall (fun d => 0 <= d < 10) ds -> no_nul (map dec_char ds).
Proof. induction 1; simpl; constructor; [unfold dec_char; lia|done]. Qed.

Lemma c_str_app_no_nul a t : no_nul a -> c_str (a ++ t) = a ++ c_str t.
Proof. induction 1 as [|x a Hx Ha IH]; simpl; [done|]. apply Z.eqb_neq in Hx as ->. by rewrite IH. Qed.

(** Parsing what [to_string] printed, up to the first byte that is not a digit, gives the number back. *)
Lemma sto_number lo hi n t :
  lo <= n <= hi -> take_while is_digit t = [] -> sto lo hi (to_string n ++ t) = Val n.
Proof.
  intros Hn Ht. unfold sto, to_string.
  assert (0 <= Z.abs n) as Ha by lia.
  pose proof (digits_range 10 _ ltac:(lia) Ha) as Hr.
  pose proof (value_digits 10 _ ltac:(lia) Ha) as Hv.
  pose proof (digits_ne 10 (Z.abs n)) as Hne.
  assert (take_while is_digit (c_str t) = []) as Ht'.
  { destruct t as [|c t]; [done|]. simpl in *. destruct (is_digit c) eqn:E; [done|].
    destruct (c =? 0); [done|]. simpl. by rewrite E. }
  assert (forall neg : bool, n = (if neg then - Z.abs n else Z.abs n) ->
    match map dec_char (digits 10 (Z.abs n)) with
    | [] => Exc InvalidArgument
    | _ => let v := signed_value neg (map dec_char (digits 10 (Z.abs n))) in
           if (lo <=? v) && (v <=? hi) then Val v else Exc OutOfRange
    end = Val n) as G.
  { intros neg En. unfold signed_value. rewrite dec_chars_inv, Hv, <- En.
    destruct (map dec_char (digits 10 (Z.abs n))) eqn:Em; [by destruct (digits 10 (Z.abs n))|].
    cbv zeta. zcase; simpl; try lia; done. }
  destruct (Z.ltb_spec n 0).
  - replace (- n) with (Z.abs n) by lia. cbn [app c_str]. change (45 =? 0) with false. cbv iota.
    rewrite c_str_app_no_nul by by apply dec_chars_no_nul.
    rewrite scan_int_neg_digits by done. apply (G true). lia.
  - replace n with (Z.abs n) at 1 by lia. rewrite c_str_app_no_nul by by apply dec_chars_no_nul.
    rewrite scan_int_digits by done. apply (G false). lia.
Qed.

Lemma sto_to_string lo hi n : lo <= n <= hi -> sto lo hi (to_string n) = Val n.
Proof. intros. rewrite <- (app_nil_r (to_string n)). by apply sto_number. Qed.

Lemma to_string_ne n : to_string n <> [].
Proof.
  unfold to_string. destruct (n <? 0); [done|]. pose proof (digits_ne 10 n). by destruct (digits 10 n).
Qed.

(** A character that is neither a digit nor the sign is not in a printed number. *)
Lemma to_string_none n d : is_digit d = false -> d <> 45 -> Forall (fun c => (c =? d) = false) (to_string n).
Proof.
  intros Hd Hn. unfold to_string.
  assert (forall m, 0 <= m -> Forall (fun c => (c =? d) = false) (map dec_char (digits 10 m))) as Hm.
  { intros m Hm. eapply Forall_impl; [apply dec_chars_digit, digits_range; lia|]. simpl. intros c Hc.
    apply Z.eqb_neq. intros ->. congruence. }
  destruct (Z.ltb_spec n 0); [constructor; [by apply Z.eqb_neq|]|]; apply Hm; lia.
Qed.

Lemma length_digits_loop fuel n acc k :
  0 <= n < 10 ^ Z.of_nat k -> (length (digits_loop 10 fuel n acc) <= k + length acc)%nat.
Proof.
  revert n acc k. induction fuel as [|fuel IH]; intros n acc k Hn; cbn [digits_loop]; [lia|].
  destruct (Z.eqb_spec n 0); [lia|]. destruct k as [|k]; [simpl in Hn; lia|].
  rewrite Nat2Z.inj_succ, Z.pow_succ_r in Hn by lia.
  specialize (IH (n / 10) (n mod 10 :: acc) k ltac:(dlia)). simpl in *. lia.
Qed.

Lemma length_to_string_pow n k : (0 < k)%nat -> 0 <= n < 10 ^ Z.of_nat k -> (length (to_string n) <= k)%nat.
Proof.
  intros Hk Hn. rewrite to_string_nonneg, length_map by lia. unfold digits.
  destruct (n =? 0); [simpl; lia|]. pose proof (length_digits_loop (S (Z.to_nat (Z.log2 n))) n [] k Hn) as H.
  cbn [length] in H. rewrite Nat.add_0_r in H. exact H.
Qed.

Lemma to_string_no_nul n : 0 <= n -> no_nul (to_string n).
Proof. intros. rewrite to_string_nonneg by done. apply dec_chars_no_nul, digits_range; lia. Qed.

(** [atoi] reads a printed number up to the first byte that is not a digit. *)
Lemma atoi_number n t :
  0 <= n < 2 ^ 31 -> take_while is_digit t = [] -> atoi (to_string n ++ t) = n.
Proof.
  intros Hn Ht. unfold atoi, strtol. rewrite c_str_app_no_nul by (apply to_string_no_nul; lia).
  rewrite to_string_nonneg by lia. rewrite scan_int_digits.
  - unfold signed_value. rewrite dec_chars_inv, value_digits by lia.
    unfold LONG_MIN, LONG_MAX. rewrite swrap_small; lia.
  - apply digits_range; lia.
  - apply digits_ne.
  - destruct t as [|c t]; [done|]. simpl in *. destruct (is_digit c) eqn:E; [done|].
    destruct (c =? 0); [done|]. simpl. by rewrite E.
Qed.

(** ** Searching, replacing, splitting *)

Fixpoint starts_with (pat s : bytes) : bool :=
  match pat, s with
  | [], _ => true
  | p :: pat', c :: s' => (p =? c) && starts_with pat' s'
  | _, [] => false
  end.

Fixpoint find_at (pat s : bytes) (i : nat) : option nat :=
  if starts_with pat s then Some i
  else match s with [] => None | _ :: s' => find_at pat s' (S i) end.

(** [s.find(pat, pos)]; [None] is [npos]. *)
Definition find (s pat : bytes) (pos : nat) : option nat :=
  if (pos <=? length s)%nat then find_at pat (drop pos s) pos else None.

(** [s.find(pat) != npos], and equally [s.rfind(pat) != npos]. *)
Definition contains (s pat : bytes) : bool :=
  match find s pat 0 with Some _ => true | None => false end.

(** [s.replace(pos, len, to)]. *)
Definition replace (s : bytes) (pos len : nat) (to : bytes) : bytes :=
  take pos s ++ to ++ drop (pos + len) s.

(** [boost::split] with [token_compress_off]. *)
Fixpoint split_on (p : Z -> bool) (s : bytes) : list bytes :=
  match s with
  | [] => [[]]
  | c :: s' =>
    if p c then [] :: split_on p s'
    else match split_on p s' with t :: ts => (c :: t) :: ts | [] => [[c]] end
  end.

(** [fgets(buffer, 256, file)] until it returns NULL. *)
Fixpoint fgets_all (fuel : nat) (s : bytes) : list bytes :=
  match fuel, s with
  | S fuel, _ :: _ =>
    let k := Nat.min 255 (S (length (take_while (fun c => negb (c =? 10)) s))) in
    take k s :: fgets_all fuel (drop k s)
  | _, _ => []
  end.

Lemma starts_with_spec pat s : starts_with pat s = true <-> exists t, s = pat ++ t.
Proof.
  revert s. induction pat as [|p pat IH]; intros s; simpl; [naive_solver|].
  destruct s as [|c s]; [naive_solver|].
  rewrite andb_true_iff, IH, Z.eqb_eq. naive_solver.
Qed.

Lemma find_at_Some pat s i j :
  find_at pat s i = Some j ->
  exists a t, s = a ++ pat ++ t /\ j = (i + length a)%nat
    /\ forall a' t', s = a' ++ pat ++ t' -> (length a <= length a')%nat.
Proof.
  revert i. induction s as [|c s IH]; intros i; simpl.
  - destruct (starts_with pat []) eqn:E; [|done]. intros [= <-].
    apply starts_with_spec in E as [t E]. exists [], t. rewrite Nat.add_0_r.
    split_and!; [done..|]. simpl. lia.
  - destruct (starts_with pat (c :: s)) eqn:E.
    + intros [= <-]. apply starts_with_spec in E as [t E]. exists [], t. rewrite Nat.add_0_r.
      split_and!; [done..|]. simpl. lia.
    + intros (a & t & -> & -> & Hmin)%IH. exists (c :: a), t. split_and!; [done|simpl; lia|].
      intros [|c' a'] t' E'; simpl in *.
      * apply not_true_iff_false in E. destruct E. apply starts_with_spec. by exists t'.
      * injection E' as -> E'. apply Hmin in E'. lia.
Qed.

Lemma find_at_None pat s i a t : find_at pat s i = None -> s <> a ++ pat ++ t.
Proof.
  revert i a. induction s as [|c s IH]; intros i a; simpl;
    destruct (starts_with pat _) eqn:E; try done; intros Hn E'.
  - apply not_true_iff_false in E. destruct E. apply starts_with_spec.
    destruct a as [|]; [|done]. by exists t.
  - destruct a as [|c' a].
    + apply not_true_iff_false in E. destruct E. apply starts_with_spec. by exists t.
    + injection E' as -> E'. by eapply IH.
Qed.

Lemma contains_spec s pat : contains s pat = true <-> exists a t, s = a ++ pat ++ t.
Proof.
  unfold contains, find. simpl. rewrite drop_0.
  destruct (find_at pat s 0) as [j|] eqn:E; split; try done.
  - intros _. apply find_at_Some in E as (a & t & -> & _). by repeat eexists.
  - intros (a & t & E'). by apply (find_at_None _ _ _ a t) in E.
Qed.

Lemma split_on_ne p s : split_on p s <> [].
Proof. destruct s as [|c s]; simpl; [done|]. destruct (p c); [done|]. by destruct (split_on p s). Qed.

Lemma split_on_app p s t :
  Forall (fun c => p c = false) s ->
  split_on p (s ++ t) = match split_on p t with x :: ts => (s ++ x) :: ts | [] => [s] end.
Proof.
  induction 1 as [|c s E _ IH]; simpl.
  - pose proof (split_on_ne p t). by destruct (split_on p t).
  - rewrite E, IH. by destruct (split_on p t).
Qed.

Lemma split_on_none p s : Forall (fun c => p c = false) s -> split_on p s = [s].
Proof. intros H. rewrite <- (app_nil_r s) at 1. rewrite split_on_app by done. simpl. by rewrite app_nil_r. Qed.

Lemma split_on_delim p s d t :
  Forall (fun c => p c = false) s -> p d = true -> split_on p (s ++ d :: t) = s :: split_on p t.
Proof. intros Hs Hd. rewrite split_on_app by done. simpl. rewrite Hd. by rewrite app_nil_r. Qed.
