(* ===== verification/UrlCodec.v ===== *)
(** * UrlCodec: percent encoding (utility/url.cpp)

    [urlEncode] and [urlDecode] are the stream based routines, [urlEncode_f] and
    [urlDecode_f] the table based ones that write to a caller supplied buffer.  A
    table lookup at a negative index (a byte above 127 read through a signed
    [char]), a read past the terminator and a write past the buffer are
    [Undef]. *)
From S2P Require Import Prelude CString.

(** ** The stream based routines *)

Definition unreserved (t : Z) : bool :=
  (t =? ch "-") || ((ch "0" <=? t) && (t <=? ch "9")) || ((ch "A" <=? t) && (t <=? ch "Z"))
  || (t =? ch "_") || ((ch "a" <=? t) && (t <=? ch "z")) || (t =? ch "~").

(** [(int)in[i]] sign extends, and [std::hex] prints the [int] as unsigned. *)
Definition urlEncode_char (b : Z) : bytes :=
  let t := schar b in
  if unreserved t then [b] else ch "%" :: zfill 2 (hex_string (u32 t)).

Definition urlEncode (input : bytes) : bytes := flat_map urlEncode_char input.

(** The digit arithmetic of [urlDecode], on a [char]. *)
Definition hexval (b : Z) : Z :=
  let c := schar b in
  if ch "a" <=? c then s8 (c - ch "a" + 10)
  else if ch "A" <=? c then s8 (c - ch "A" + 10)
  else s8 (c - ch "0").

Definition pair_byte (x y : Z) : Z := u8 (s8 (s8 (Z.shiftl x 4) + y)).

(** [in[i + 1]] may be the terminator; [in[i + 2]] is past it when nothing
    follows the percent sign. *)
Fixpoint urlDecode (input : bytes) : outcome bytes :=
  match input with
  | [] => Val []
  | c :: rest =>
    if c =? ch "%" then
      match rest with
      | [] => Undef
      | [a] => Val [pair_byte (hexval a) (hexval 0)]
      | a :: b :: rest' =>
        out ← urlDecode rest'; Val (pair_byte (hexval a) (hexval b) :: out)
      end
    else out ← urlDecode rest; Val (c :: out)
  end.

(** ** The table based routines *)

(** UrlDecodeTable::map *)
Definition decode_map : list Z :=
  map (fun k => let i := Z.of_nat k in
        if ch "a" <=? i then s8 (i - ch "a" + 10)
        else if ch "A" <=? i then s8 (i - ch "A" + 10)
        else s8 (i - ch "0")) (seq 0 128).

(** UrlEncodeTable::entry and UrlEncodeTable::map (left uninitialised at the
    entries that are [true], where it is never read). *)
Definition encode_entry : list bool :=
  map (fun k => let i := Z.of_nat k in
        ((ch "0" <=? i) && (i <=? ch "9")) || ((ch "A" <=? i) && (i <=? ch "Z"))
        || ((ch "a" <=? i) && (i <=? ch "z")) || (i =? ch "-") || (i =? ch "_") || (i =? ch "~"))
      (seq 0 128).

Definition codetable : bytes := str "0123456789ABCDEF".

Definition encode_map : list (option (Z * Z)) :=
  map (fun k => let i := Z.of_nat k in
        if nth k encode_entry false then None
        else Some (nth (Z.to_nat (Z.land (Z.shiftr i 4) 15)) codetable 0,
                   nth (Z.to_nat (Z.land i 15)) codetable 0)) (seq 0 128).

(** [memset(buffer, 0, len + 1)] bounds the buffer; [buffer[j] += x] then adds to zero. *)
Fixpoint urlDecode_f_loop (inp : bytes) : outcome bytes :=
  match inp with
  | [] => Val []
  | c :: rest =>
    if c =? ch "%" then
      match rest with
      | [] => Undef
      | [a] => x ← rd decode_map (schar a); y ← rd decode_map 0;
               Val [u8 (0 + (Z.shiftl x 4 + y))]
      | a :: b :: rest' =>
        x ← rd decode_map (schar a); y ← rd decode_map (schar b);
        out ← urlDecode_f_loop rest'; Val (u8 (0 + (Z.shiftl x 4 + y)) :: out)
      end
    else out ← urlDecode_f_loop rest; Val (c :: out)
  end.

Definition urlDecode_f (inp : bytes) (cap : Z) : outcome bytes :=
  check (Z.of_nat (length inp) + 1 <=? cap);; urlDecode_f_loop inp.

(** [buf] is the part of the buffer written so far, so [j] is its length. *)
Fixpoint urlEncode_f_loop (cap : Z) (inp buf : bytes) : outcome bytes :=
  let j := Z.of_nat (length buf) in
  match inp with
  | [] => check (j <? cap);; Val buf
  | c :: rest =>
    e ← rd encode_entry (schar c);
    if (e : bool) then check (j <? cap);; urlEncode_f_loop cap rest (buf ++ [c])
    else
      check (j + 2 <? cap);;
      m ← rd encode_map (schar c);
      match m with
      | Some (h, l) => urlEncode_f_loop cap rest (buf ++ [ch "%"; h; l])
      | None => Undef
      end
  end.

Definition urlEncode_f (inp : bytes) (cap : Z) : outcome bytes := urlEncode_f_loop cap inp [].

(** ** Properties *)

Definition ascii_str (s : bytes) : Prop := Forall is_ascii s.

(** What [urlEncode_f] writes for one ASCII byte. *)
Definition encode_f_char (c : Z) : bytes :=
  if nth (Z.to_nat c) encode_entry false then [c]
  else match nth (Z.to_nat c) encode_map None with
       | Some (h, l) => [ch "%"; h; l]
       | None => []
       end.

(** Everything the codec proofs need to know of one ASCII byte, by evaluation:
    what the tables hold, and that decoding its code gives it back. *)
Definition char_facts (c : Z) : bool :=
  match rd encode_entry (schar c), rd encode_map (schar c) with
  | Val true, _ =>
    bool_decide (encode_f_char c = [c]) && negb (c =? ch "%") && unreserved (schar c)
  | Val false, Val (Some (h, l)) =>
    bool_decide (encode_f_char c = [ch "%"; h; l])
    && negb (unreserved (schar c))
    && match rd decode_map (schar h), rd decode_map (schar l) with
       | Val x, Val y => u8 (0 + (Z.shiftl x 4 + y)) =? c
       | _, _ => false
       end
    && (pair_byte (hexval h) (hexval l) =? c)
    && match urlEncode_char c with
       | [p; h'; l'] => (p =? ch "%") && (pair_byte (hexval h') (hexval l') =? c)
       | _ => false
       end
  | _, _ => false
  end.

Lemma char_facts_ascii c : is_ascii c -> char_facts c = true.
Proof.
  intros Hc. by_table 128%nat char_facts. apply H. exact Hc.
Qed.

(** The tables agree with the stream routine's arithmetic on ASCII bytes. *)
Lemma decode_map_hexval a x : is_byte a -> rd decode_map (schar a) = Val x -> is_ascii a /\ x = hexval a.
Proof.
  intros Ha E. assert (is_ascii a) as Hc.
  { unfold is_ascii, is_byte, schar, rd in *. destruct (Z.ltb_spec a 128); [lia|].
    destruct (Z.ltb_spec (a - 256) 0); [done|lia]. }
  split; [done|].
  by_table 128%nat (fun c => match rd decode_map (schar c) with Val v => v =? hexval c | _ => false end).
  specialize (H a Hc). rewrite E in H. lia.
Qed.

Lemma pair_byte_sum x y : pair_byte x y = u8 (0 + (Z.shiftl x 4 + y)).
Proof.
  unfold pair_byte. rewrite uwrap_swrap by lia. rewrite Z.add_0_l.
  apply uwrap_add; [|done]. by apply uwrap_swrap.
Qed.

Lemma urlEncode_f_loop_ok cap s buf :
  ascii_str s ->
  Z.of_nat (length buf) + Z.of_nat (length (flat_map encode_f_char s)) < cap ->
  urlEncode_f_loop cap s buf = Val (buf ++ flat_map encode_f_char s).
Proof.
  intros Hs. revert buf. induction Hs as [|c s Hc Hs IH]; intros buf Hcap; simpl in *.
  - rewrite app_nil_r. destruct (Z.ltb_spec (Z.of_nat (length buf)) cap); [done|lia].
  - rewrite length_app in Hcap.
    pose proof (char_facts_ascii c Hc) as F. unfold char_facts in F.
    destruct (rd encode_entry (schar c)) as [[] | |] eqn:Ee; [| |done..]; simpl.
    + rewrite !andb_true_iff, bool_decide_eq_true in F. destruct F as [[Ef _] _].
      rewrite Ef in Hcap |- *. simpl in Hcap.
      destruct (Z.ltb_spec (Z.of_nat (length buf)) cap); [|lia]. simpl.
      rewrite IH by (rewrite length_app; simpl; lia). by rewrite <- app_assoc.
    + destruct (rd encode_map (schar c)) as [[[h l]|] | |] eqn:Em; try done.
      rewrite !andb_true_iff, bool_decide_eq_true in F. destruct F as [[[[Ef _] _] _] _].
      rewrite Ef in Hcap |- *. simpl in Hcap.
      destruct (Z.ltb_spec (Z.of_nat (length buf) + 2) cap); [|lia]. simpl.
      rewrite IH by (rewrite length_app; simpl; lia). by rewrite <- app_assoc.
Qed.

Lemma urlDecode_f_loop_char c t :
  is_ascii c -> urlDecode_f_loop (encode_f_char c ++ t) = out ← urlDecode_f_loop t; Val (c :: out).
Proof.
  intros Hc. pose proof (char_facts_ascii c Hc) as F. unfold char_facts in F.
  destruct (rd encode_entry (schar c)) as [[] | |] eqn:Ee; [| |done..].
  - rewrite !andb_true_iff, bool_decide_eq_true, negb_true_iff in F. destruct F as [[-> En] _].
    simpl. by rewrite En.
  - destruct (rd encode_map (schar c)) as [[[h l]|] | |] eqn:Em; try done.
    rewrite !andb_true_iff, bool_decide_eq_true in F. destruct F as [[[[-> _] F] _] _].
    cbn [app urlDecode_f_loop]. rewrite Z.eqb_refl.
    destruct (rd decode_map (schar h)) as [x| |]; try done.
    destruct (rd decode_map (schar l)) as [y| |]; try done. simpl.
    apply Z.eqb_eq in F. simpl in F. by rewrite F.
Qed.

Lemma urlDecode_f_loop_enc s t :
  ascii_str s ->
  urlDecode_f_loop (flat_map encode_f_char s ++ t) = out ← urlDecode_f_loop t; Val (s ++ out).
Proof.
  induction 1 as [|c s Hc Hs IH]; simpl.
  - by destruct (urlDecode_f_loop t).
  - rewrite <- app_assoc, urlDecode_f_loop_char, IH by done. by destruct (urlDecode_f_loop t).
Qed.

(** Text without percent signs is copied. *)
Definition no_pct (s : bytes) : Prop := Forall (fun c => c <> ch "%") s.

Lemma urlDecode_f_loop_plain s t :
  no_pct s -> urlDecode_f_loop (s ++ t) = out ← urlDecode_f_loop t; Val (s ++ out).
Proof.
  induction 1 as [|c s Hc Hs IH]; simpl.
  - by destruct (urlDecode_f_loop t).
  - apply Z.eqb_neq in Hc as ->. rewrite IH. by destruct (urlDecode_f_loop t).
Qed.

Lemma urlDecode_f_plain s cap : no_pct s -> Z.of_nat (length s) < cap -> urlDecode_f s cap = Val s.
Proof.
  intros Hs Hc. unfold urlDecode_f. destruct (Z.leb_spec (Z.of_nat (length s) + 1) cap); [|lia].
  cbn [check mbind outcome_bind]. pose proof (urlDecode_f_loop_plain s [] Hs) as E. rewrite app_nil_r in E.
  rewrite E. cbn. by rewrite app_nil_r.
Qed.

Lemma length_encode_f_char c : is_ascii c -> (1 <= length (encode_f_char c) <= 3)%nat.
Proof.
  intros Hc. pose proof (char_facts_ascii c Hc) as F. unfold char_facts in F.
  destruct (rd encode_entry (schar c)) as [[] | |] eqn:Ee; [| |done..].
  - rewrite !andb_true_iff, bool_decide_eq_true in F. destruct F as [[-> _] _]. simpl. lia.
  - destruct (rd encode_map (schar c)) as [[[h l]|] | |]; try done.
    rewrite !andb_true_iff, bool_decide_eq_true in F. destruct F as [[[[-> _] _] _] _]. simpl. lia.
Qed.

Lemma length_encode_f s :
  ascii_str s -> (length (flat_map encode_f_char s) <= 3 * length s)%nat.
Proof.
  induction 1 as [|c s Hc Hs IH]; simpl; [lia|]. rewrite length_app.
  pose proof (length_encode_f_char c Hc). lia.
Qed.

Lemma urlDecode_f_escaped s cap :
  ascii_str s -> 3 * Z.of_nat (length s) < cap -> urlDecode_f (flat_map encode_f_char s) cap = Val s.
Proof.
  intros Hs Hc. pose proof (length_encode_f s Hs). unfold urlDecode_f.
  destruct (Z.leb_spec (Z.of_nat (length (flat_map encode_f_char s)) + 1) cap); [|lia].
  cbn [check mbind outcome_bind]. pose proof (urlDecode_f_loop_enc s [] Hs) as E. rewrite app_nil_r in E.
  rewrite E. cbn. by rewrite app_nil_r.
Qed.

Lemma rd_high {A} (l : list A) c : is_byte c -> ~ is_ascii c -> rd l (schar c) = Undef.
Proof.
  intros Hb Ha. unfold rd, schar, is_byte, is_ascii in *.
  destruct (Z.ltb_spec c 128); [lia|]. destruct (Z.ltb_spec (c - 256) 0); [done|lia].
Qed.

Lemma urlEncode_f_loop_inv cap s buf :
  Forall is_byte s -> defined (urlEncode_f_loop cap s buf) ->
  ascii_str s /\ Z.of_nat (length buf) + Z.of_nat (length (flat_map encode_f_char s)) < cap.
Proof.
  intros Hs. revert buf. induction Hs as [|c s Hc Hs IH]; intros buf Hd; simpl in *.
  - destruct (Z.ltb_spec (Z.of_nat (length buf)) cap); [split; [constructor|lia]|by destruct Hd].
  - destruct (decide (is_ascii c)) as [Ha|Ha]; [|rewrite (rd_high encode_entry) in Hd by done; by destruct Hd].
    pose proof (char_facts_ascii c Ha) as F. unfold char_facts in F. rewrite length_app.
    destruct (rd encode_entry (schar c)) as [[] | |] eqn:Ee; [| |done..]; simpl in Hd.
    + rewrite !andb_true_iff, bool_decide_eq_true in F. destruct F as [[-> _] _].
      destruct (Z.of_nat (length buf) <? cap); [|by destruct Hd].
      apply IH in Hd as [Hasc Hlen]. rewrite length_app in Hlen. simpl in *.
      split; [by constructor|lia].
    + destruct (rd encode_map (schar c)) as [[[h l]|] | |]; try done.
      rewrite !andb_true_iff, bool_decide_eq_true in F. destruct F as [[[[-> _] _] _] _].
      destruct (Z.of_nat (length buf) + 2 <? cap); [|by destruct Hd].
      apply IH in Hd as [Hasc Hlen]. rewrite length_app in Hlen. simpl in *.
      split; [by constructor|lia].
Qed.

(** Every percent sign of the text is followed by two ASCII bytes. *)
Fixpoint pct_ok (s : bytes) : bool :=
  match s with
  | [] => true
  | c :: rest =>
    if c =? ch "%" then
      match rest with
      | a :: b :: rest' => bool_decide (is_ascii a) && bool_decide (is_ascii b) && pct_ok rest'
      | _ => false
      end
    else pct_ok rest
  end.

Lemma decode_map_ascii a : is_ascii a -> rd decode_map (schar a) = Val (hexval a).
Proof.
  intros Ha. assert (exists x, rd decode_map (schar a) = Val x) as [x E].
  { eexists. apply (rd_nth _ _ 0). rewrite schar_ascii by done. exact Ha. }
  rewrite E. apply decode_map_hexval in E as [_ ->]; [done|by apply is_ascii_byte].
Qed.

Lemma pct_ok_decodes n s :
  (length s <= n)%nat -> pct_ok s = true ->
  exists out, urlDecode_f_loop s = Val out /\ urlDecode s = Val out.
Proof.
  revert s. induction n as [|n IH]; intros s Hn Hs; destruct s as [|c s]; simpl in *;
    try (by eexists); [lia|].
  destruct (Z.eqb_spec c (ch "%")) as [->|].
  - destruct s as [|a [|b s]]; [done..|].
    rewrite !andb_true_iff, !bool_decide_eq_true in Hs. destruct Hs as [[Ha Hb] Hs].
    destruct (IH s) as (out & E1 & E2); [simpl in Hn; lia|done|].
    rewrite !decode_map_ascii, E1, E2 by done. simpl. rewrite pair_byte_sum. by eexists.
  - destruct (IH s) as (out & E1 & E2); [lia|done|]. rewrite E1, E2. by eexists.
Qed.

Lemma urlEncode_char_ascii c t :
  is_ascii c -> urlDecode (urlEncode_char c ++ t) = out ← urlDecode t; Val (c :: out).
Proof.
  intros Hc. pose proof (char_facts_ascii c Hc) as F. unfold char_facts in F.
  destruct (rd encode_entry (schar c)) as [[] | |] eqn:Ee; [| |done..].
  - rewrite !andb_true_iff, negb_true_iff in F. destruct F as [[_ En] Eu].
    unfold urlEncode_char. rewrite Eu. simpl. by rewrite En.
  - destruct (rd encode_map (schar c)) as [[[h l]|] | |]; try done.
    rewrite !andb_true_iff in F. destruct F as [_ F].
    destruct (urlEncode_char c) as [|p [|h' [|l' [|]]]]; try done.
    rewrite andb_true_iff, !Z.eqb_eq in F. destruct F as [-> F]. cbn [app urlDecode].
    rewrite Z.eqb_refl, F. done.
Qed.

(** ** Theorems *)

(** The table based codec round trips: encoding an ASCII string into a large enough
    buffer succeeds, and decoding the result gives the string back. *)
Theorem urlDecode_f_urlEncode_f s cap cap' :
  ascii_str s -> 3 * Z.of_nat (length s) < cap -> 3 * Z.of_nat (length s) < cap' ->
  exists e, urlEncode_f s cap = Val e /\ urlDecode_f e cap' = Val s.
Proof.
  intros Hs Hc Hc'. pose proof (length_encode_f s Hs).
  exists (flat_map encode_f_char s). split.
  - unfold urlEncode_f. rewrite urlEncode_f_loop_ok; [done|done|simpl; lia].
  - by apply urlDecode_f_escaped.
Qed.

Lemma urlDecode_f_urlEncode_f_witness :
  exists e, urlEncode_f (str "a b&c=%") 64 = Val e /\ urlDecode_f e 64 = Val (str "a b&c=%").
Proof.
  apply (urlDecode_f_urlEncode_f (str "a b&c=%") 64 64).
  - repeat constructor; vm_compute; congruence.
  - reflexivity.
  - reflexivity.
Defined.

(** Memory safety of [urlEncode_f], exactly: the run is defined iff the input is ASCII
    (a byte above 127 indexes the tables below zero) and the encoded text with its
    terminator fits the buffer. *)
Theorem urlEncode_f_defined_iff s cap :
  Forall is_byte s ->
  defined (urlEncode_f s cap) <->
  ascii_str s /\ Z.of_nat (length (flat_map encode_f_char s)) + 1 <= cap.
Proof.
  intros Hb. unfold urlEncode_f. split.
  - intros Hd. apply urlEncode_f_loop_inv in Hd as [Hs Hl]; [|done]. simpl in Hl. split; [done|lia].
  - intros [Hs Hl]. rewrite urlEncode_f_loop_ok; [done|done|simpl; lia].
Qed.

Lemma urlEncode_f_defined_iff_witness :
  Forall is_byte [228] /\ ~ defined (urlEncode_f [228] 1024).
Proof.
  assert (Forall is_byte [228]) as Hb by (repeat constructor; vm_compute; congruence).
  split; [exact Hb|]. intros [Ha _]%(urlEncode_f_defined_iff [228] 1024 Hb).
  apply Forall_inv in Ha. vm_compute in Ha. destruct Ha as [_ Ha]. discriminate Ha.
Defined.

(** The table based decoder computes the same string as the stream based one on every
    text whose percent signs are followed by two ASCII bytes, when its buffer holds the text. *)
Theorem urlDecode_f_equiv s cap :
  pct_ok s = true -> Z.of_nat (length s) + 1 <= cap ->
  urlDecode_f s cap = urlDecode s /\ exists out, urlDecode s = Val out.
Proof.
  intros Hs Hc. destruct (pct_ok_decodes (length s) s (le_n _) Hs) as (out & E1 & E2).
  unfold urlDecode_f. destruct (Z.leb_spec (Z.of_nat (length s) + 1) cap); [|lia].
  simpl. rewrite E1, E2. by split; [|eexists].
Qed.

Lemma urlDecode_f_equiv_witness :
  urlDecode_f (str "x%41%zz") 16 = urlDecode (str "x%41%zz") /\ exists out, urlDecode (str "x%41%zz") = Val out.
Proof. apply (urlDecode_f_equiv (str "x%41%zz") 16); [reflexivity|]. vm_compute. congruence. Defined.

(** The stream based codec round trips on ASCII text. *)
Theorem urlDecode_urlEncode s : ascii_str s -> urlDecode (urlEncode s) = Val s.
Proof.
  induction 1 as [|c s Hc Hs IH]; [done|]. unfold urlEncode in *. cbn [flat_map].
  by rewrite urlEncode_char_ascii, IH by done.
Qed.

Lemma urlDecode_urlEncode_witness : urlDecode (urlEncode (str "k=/ v?")) = Val (str "k=/ v?").
Proof. apply (urlDecode_urlEncode (str "k=/ v?")). repeat constructor; vm_compute; congruence. Defined.

(** On a byte above 127 [urlEncode] prints the sign extended [int]: eight hexadecimal
    digits, which [urlDecode] reads as the byte 255 and six literal characters. *)
Theorem urlEncode_high_byte b :
  128 <= b < 256 ->
  urlEncode [b] = str "%ffffff" ++ hex_string b
  /\ urlDecode (urlEncode [b]) = Val (255 :: str "ffff" ++ hex_string b)
  /\ urlDecode (urlEncode [b]) <> Val [b].
Proof.
  intros Hb.
  by_table 256%nat (fun b => (b <? 128) ||
     (bool_decide (urlEncode [b] = str "%ffffff" ++ hex_string b)
      && bool_decide (urlDecode (urlEncode [b]) = Val (255 :: str "ffff" ++ hex_string b)))).
  specialize (H b ltac:(simpl; lia)).
  destruct (Z.ltb_spec b 128); [lia|]. rewrite orb_false_l in H.
  rewrite andb_true_iff, !bool_decide_eq_true in H. destruct H as [E1 E2].
  split_and!; [done..|]. rewrite E2. by intros [=].
Qed.

Lemma urlEncode_high_byte_witness :
  urlEncode [228] = str "%ffffffe4"
  /\ urlDecode (urlEncode [228]) <> Val [228].
Proof. destruct (urlEncode_high_byte 228 ltac:(lia)) as (E & _ & N). split; [exact E|exact N]. Defined.
