(* ===== verification/UrlParams.v ===== *)
(** * UrlParams: query strings and cookies (utility/url.cpp, utility/url.h)

    The parameter parsers [getParam] and [getParamv2], the cookie lookups on top
    of them, the number and area extractors, and the in place string filters.
    Pointers into the input are positions in it; [p] is the position of the head
    of [rest] in the loops. *)
From S2P Require Import Prelude CString.

(** [std::unordered_map<std::string, std::string>] *)
Abbreviation ParamMap := (gmap bytes bytes).

(** The loop that moves [p0] over the spaces it points at. *)
Definition skip_spaces (buf : bytes) (p0 : nat) : nat :=
  (p0 + length (take_while (fun c => (c =? ch " ")%Z) (drop p0 buf)))%nat.

(** [s.assign(p0, p)]: the range must not be reversed. *)
Definition assign (buf : bytes) (p0 p : nat) : outcome bytes :=
  if (p0 <=? p)%nat then Val (slice buf p0 p) else Undef.

(** ** getParam *)

Fixpoint getParam_loop (buf : bytes) (sep : Z) (rest : bytes) (p p0 : nat) (key : bytes)
    (m : ParamMap) : outcome (nat * nat * bytes * ParamMap) :=
  match rest with
  | [] => Val (p, p0, key, m)
  | c :: rest' =>
    if c =? ch "=" then
      let p0 := skip_spaces buf p0 in
      key ← (if (p0 =? p)%nat then Val key else assign buf p0 p);
      getParam_loop buf sep rest' (S p) (S p) key m
    else if c =? sep then
      let p0 := skip_spaces buf p0 in
      m ← (if (p0 =? p)%nat then Val m else v ← assign buf p0 p; Val (<[key := v]> m));
      getParam_loop buf sep rest' (S p) (S p) key m
    else getParam_loop buf sep rest' (S p) p0 key m
  end.

Definition getParam (m : ParamMap) (buffer : bytes) (sep : Z) : outcome ParamMap :=
  let buf := c_str buffer in
  '(p, p0, key, m) ← getParam_loop buf sep buf 0 0 [] m;
  if (p =? p0)%nat then Val m else v ← assign buf p0 p; Val (<[key := v]> m).

(** ** getParamv2 *)

Fixpoint getParamv2_loop (buf : bytes) (sep : Z) (rest : bytes) (p p0 : nat) (pairFlag : bool)
    (key : bytes) (m : ParamMap) : outcome (nat * nat * bytes * ParamMap) :=
  match rest with
  | [] => Val (p, p0, key, m)
  | c :: rest' =>
    if negb pairFlag && (c =? ch "=") then
      let p0 := skip_spaces buf p0 in
      '(key, pairFlag) ← (if (p0 =? p)%nat then Val (key, pairFlag)
                          else k ← assign buf p0 p; Val (k, true));
      getParamv2_loop buf sep rest' (S p) (S p) pairFlag key m
    else if c =? sep then
      let p0 := skip_spaces buf p0 in
      at_p0 ← cat buf (Z.of_nat p0);
      '(m, pairFlag) ← (if negb (p0 =? p)%nat || (at_p0 =? sep)
                        then v ← assign buf p0 p; Val (<[key := v]> m, false)
                        else Val (m, pairFlag));
      getParamv2_loop buf sep rest' (S p) (S p) pairFlag key m
    else getParamv2_loop buf sep rest' (S p) p0 pairFlag key m
  end.

Definition getParamv2 (m : ParamMap) (buffer : bytes) (sep : Z) : outcome ParamMap :=
  let buf := c_str buffer in
  '(p, p0, key, m) ← getParamv2_loop buf sep buf 0 0 false [] m;
  if (p =? p0)%nat then Val m else v ← assign buf p0 p; Val (<[key := v]> m).

(** The overloads on a [std::string] use the default separator. *)
Definition getParam_str (m : ParamMap) (input : bytes) : outcome ParamMap := getParam m input (ch "&").
Definition getParamv2_str (m : ParamMap) (input : bytes) : outcome ParamMap := getParamv2 m input (ch "&").

(** ** Cookies *)

Definition getCookiesParam (m : ParamMap) (buffer : bytes) : outcome ParamMap := getParam m buffer (ch ";").

(** [m[key]] is the empty string when the key is absent. *)
Definition extractCookiesParam (key input : bytes) : outcome bytes :=
  m ← getParamv2 ∅ input (ch ";"); Val (default [] (m !! key)).

(** ** Numbers and areas *)

Definition extractNumber_step (result c : Z) : Z :=
  let c := schar c in
  if (48 <=? c) && (c <=? 57)
  then s64 (s64 (s64 (Z.shiftl result 3) + s64 (Z.shiftl result 1)) + (c - 48))
  else result.

Definition extractNumber (input : bytes) : Z := foldl extractNumber_step 0 (c_str input).

(** [p1 = ++p2] steps over the stop character; when that was the terminator the
    next scan starts past the end of the string. *)
Definition next_field (s : bytes) : outcome bytes :=
  match skip_while (fun c => negb (c =? ch "-")) s with
  | [] => Undef
  | _ :: s' => Val s'
  end.

Definition extractAreaInfo (input : bytes) : outcome (Z * Z * Z) :=
  let s := c_str input in
  let country := atoi s in
  s ← next_field s;
  let province := atoi s in
  s ← next_field s;
  let city := atoi s in
  Val (country, province, city).

(** ** Replacing *)

Definition url_replace (s from to : bytes) : bool * bytes :=
  match find s from 0 with
  | None => (false, s)
  | Some pos => (true, replace s pos (length from) to)
  end.

(** The search restarts at [start_pos], on the text just inserted; the loop runs
    out of [fuel] when it does not terminate. *)
Fixpoint url_replace_all_loop (fuel : nat) (s from to : bytes) (start_pos : nat) : option bytes :=
  match fuel with
  | O => None
  | S fuel =>
    match find s from start_pos with
    | None => Some s
    | Some pos => url_replace_all_loop fuel (replace s pos (length from) to) from to pos
    end
  end.

Definition url_replace_all (s from to : bytes) : option bytes :=
  url_replace_all_loop (S (length s)) s from to 0.

(** ** Input filters *)

Definition stringSafeInput (input : bytes) (len : nat) : bytes :=
  if (len <? length input)%nat then take len input else input.

(** The overload that returns a new string. *)
Definition stringSafeNumber (input : bytes) : outcome bytes :=
  try_std (num ← stol input; Val (to_string num)) (fun _ => Val (str "0")).

(** The overload that filters in place. *)
Definition stringSafeNumber_ref (input : bytes) : bytes :=
  if forallb (fun c => (48 <=? schar c) && (schar c <=? 57)) (c_str input)
  then input else str "0".

Definition stringToInt (s : bytes) : outcome Z := try_all (stol s) (Val 0).
Definition intToString (i : Z) : bytes := to_string i.

(** ** Lemmas on the scanning loops *)

Lemma skip_spaces_id buf p0 :
  (forall c, buf !! p0 = Some c -> c <> ch " ") -> skip_spaces buf p0 = p0.
Proof.
  intros H. unfold skip_spaces. destruct (drop p0 buf) as [|c l] eqn:E; [simpl; lia|].
  assert (buf !! p0 = Some c) as Hc.
  { rewrite <- (Nat.add_0_r p0). by rewrite <- lookup_drop, E. }
  simpl. destruct (Z.eqb_spec c (ch " ")) as [->|]; [by apply H in Hc|]. simpl. lia.
Qed.

(** Bytes that are neither the separator nor an equality sign that counts. *)
Definition plain (sep : Z) (pairFlag : bool) (c : Z) : Prop :=
  c <> sep /\ (pairFlag = true \/ c <> ch "=").

Lemma getParamv2_plain buf sep x rest p p0 f key m :
  Forall (plain sep f) x ->
  getParamv2_loop buf sep (x ++ rest) p p0 f key m
  = getParamv2_loop buf sep rest (p + length x) p0 f key m.
Proof.
  intros Hx. revert p. induction Hx as [|c x [Hs Hf] _ IH]; intros p; cbn [app length].
  - by rewrite Nat.add_0_r.
  - cbn [getParamv2_loop].
    assert (negb f && (c =? ch "=") = false) as ->.
    { destruct Hf as [->|Hf]; [done|]. apply andb_false_intro2. by apply Z.eqb_neq. }
    apply Z.eqb_neq in Hs as ->. rewrite IH. f_equal. lia.
Qed.

Lemma assign_mid (a b c : bytes) : assign (a ++ b ++ c) (length a) (length a + length b) = Val b.
Proof.
  unfold assign. destruct (Nat.leb_spec (length a) (length a + length b)); [|lia].
  f_equal. by apply slice_app_mid.
Qed.

(** ** Well formed query strings *)

(** A parameter the parser recovers: the key is not empty; neither part starts
    with a space, holds the separator or a NUL; only the value may hold [=]. *)
Definition no_lead_space (s : bytes) : Prop := match s with c :: _ => c <> ch " " | [] => True end.

Record wf_param (sep : Z) (kv : bytes * bytes) : Prop := {
  wf_key_ne : kv.1 <> [];
  wf_key : Forall (fun c => c <> 0 /\ c <> sep /\ c <> ch "=") kv.1;
  wf_key_sp : no_lead_space kv.1;
  wf_val : Forall (fun c => c <> 0 /\ c <> sep) kv.2;
  wf_val_sp : no_lead_space kv.2;
}.

Definition pair_text (kv : bytes * bytes) : bytes := kv.1 ++ ch "=" :: kv.2.

(** The parameters joined with the separator. *)
Fixpoint join (sep : Z) (ps : list (bytes * bytes)) : bytes :=
  match ps with
  | [] => []
  | [kv] => pair_text kv
  | kv :: ps' => pair_text kv ++ sep :: join sep ps'
  end.

(** The map after the assignments [m[k] = v] in order. *)
Definition assigned (m : ParamMap) (ps : list (bytes * bytes)) : ParamMap :=
  foldl (fun m kv => <[kv.1 := kv.2]> m) m ps.

Lemma lookup_app_head (a : bytes) (c : Z) b : (a ++ c :: b) !! length a = Some c.
Proof. rewrite lookup_app_r by lia. by rewrite Nat.sub_diag. Qed.

(** One [key=value] pair, up to the end of the value. *)
Lemma getParamv2_pair pre sep kv rest key m :
  wf_param sep kv -> sep <> ch "=" ->
  getParamv2_loop (pre ++ pair_text kv ++ rest) sep (pair_text kv ++ rest) (length pre) (length pre)
    false key m
  = getParamv2_loop (pre ++ pair_text kv ++ rest) sep rest (length pre + length (pair_text kv))
      (length pre + length kv.1 + 1) true kv.1 m.
Proof.
  intros [Hne Hk Hks Hv Hvs] Hsep. destruct kv as [k v]. simpl in *. unfold pair_text; simpl.
  rewrite <- (app_assoc k). rewrite getParamv2_plain by
    (eapply Forall_impl; [exact Hk|]; intros c (?&?&?); split; auto).
  cbn [app getParamv2_loop]. rewrite Z.eqb_refl. cbn [negb andb].
  rewrite skip_spaces_id.
  2:{ intros c. destruct k as [|c' k]; [done|]. simpl in Hks.
      change ((c' :: k) ++ ch "=" :: v ++ rest) with (c' :: (k ++ ch "=" :: v ++ rest)).
      rewrite lookup_app_head. congruence. }
  destruct (Nat.eqb_spec (length pre) (length pre + length k)) as [E|_];
    [destruct k; [done|simpl in E; lia]|].
  rewrite assign_mid. cbn [mbind outcome_bind].
  rewrite getParamv2_plain by (eapply Forall_impl; [exact Hv|]; intros c (?&?); split; auto).
  rewrite length_app. cbn [length]. f_equal; lia.
Qed.

Lemma getParamv2_sep pre sep kv rest key m :
  wf_param sep kv -> sep <> ch "=" -> sep <> ch " " ->
  getParamv2_loop (pre ++ pair_text kv ++ sep :: rest) sep (pair_text kv ++ sep :: rest)
    (length pre) (length pre) false key m
  = getParamv2_loop (pre ++ pair_text kv ++ sep :: rest) sep rest
      (S (length pre + length (pair_text kv))) (S (length pre + length (pair_text kv)))
      false kv.1 (<[kv.1 := kv.2]> m).
Proof.
  intros Hwf Hsep Hsp. rewrite getParamv2_pair by done.
  destruct Hwf as [Hne Hk Hks Hv Hvs]. destruct kv as [k v]. simpl in *. unfold pair_text; simpl.
  cbn [getParamv2_loop andb negb]. rewrite Z.eqb_refl.
  replace (pre ++ (k ++ ch "=" :: v) ++ sep :: rest) with ((pre ++ k ++ [ch "="]) ++ v ++ sep :: rest)
    by (rewrite <- !app_assoc; done).
  replace (length pre + length k + 1)%nat with (length (pre ++ k ++ [ch "="]))
    by (rewrite !length_app; simpl; lia).
  rewrite skip_spaces_id.
  2:{ intros c. destruct v as [|c' v]; simpl in *; rewrite lookup_app_head; congruence. }
  replace (length pre + length (k ++ ch "=" :: v))%nat
    with (length (pre ++ k ++ [ch "="]) + length v)%nat by (rewrite !length_app; simpl; lia).
  rewrite assign_mid.
  destruct (Nat.eqb_spec (length (pre ++ k ++ [ch "="])) (length (pre ++ k ++ [ch "="]) + length v)) as [E|E].
  - destruct v as [|]; [|simpl in E; lia].
    unfold cat. rewrite rd_nat. cbn [app].
    rewrite lookup_app_l by (rewrite !length_app; simpl; lia). rewrite lookup_app_head.
    cbn [mbind outcome_bind]. rewrite Z.eqb_refl. cbn [negb orb mbind outcome_bind]. f_equal; lia.
  - cbn [negb orb]. unfold cat. rewrite rd_nat.
    destruct v as [|c v]; [simpl in E; lia|]. cbn [app].
    rewrite lookup_app_l by (rewrite !length_app; simpl; lia). rewrite lookup_app_head.
    cbn [mbind outcome_bind]. f_equal; lia.
Qed.

Lemma getParamv2_join pre sep ps key m :
  ps <> [] -> Forall (wf_param sep) ps -> sep <> ch "=" -> sep <> ch " " ->
  (forall k, last ps <> Some (k, [])) ->
  ('(p, p0, key, m') ← getParamv2_loop (pre ++ join sep ps) sep (join sep ps) (length pre) (length pre)
                         false key m;
   if (p =? p0)%nat then Val m' else v ← assign (pre ++ join sep ps) p0 p; Val (<[key := v]> m'))
  = Val (assigned m ps).
Proof.
  intros Hne Hwf Hs1 Hs2. revert pre key m. induction Hwf as [|kv ps Hkv Hps IH]; [done|].
  intros pre key m Hlast. destruct ps as [|kv' ps].
  - cbn [join]. rewrite <- (app_nil_r (pair_text kv)). rewrite getParamv2_pair by done.
    cbn [getParamv2_loop mbind outcome_bind]. destruct kv as [k v]. simpl in *.
    assert (v <> []) by (intros ->; by apply (Hlast k)). unfold pair_text; simpl.
    destruct (Nat.eqb_spec (length pre + length (k ++ ch "=" :: v)) (length pre + length k + 1)) as [E|_].
    { rewrite length_app in E. destruct v; [done|simpl in E; lia]. }
    replace (pre ++ (k ++ ch "=" :: v) ++ []) with ((pre ++ k ++ [ch "="]) ++ v ++ [])
      by (rewrite <- !app_assoc; done).
    replace (length pre + length (k ++ ch "=" :: v))%nat
      with (length (pre ++ k ++ [ch "="]) + length v)%nat by (rewrite !length_app; simpl; lia).
    replace (length pre + length k + 1)%nat with (length (pre ++ k ++ [ch "="]))
      by (rewrite !length_app; simpl; lia).
    rewrite assign_mid. done.
  - change (join sep (kv :: kv' :: ps)) with (pair_text kv ++ sep :: join sep (kv' :: ps)).
    rewrite getParamv2_sep by done.
    replace (pre ++ pair_text kv ++ sep :: join sep (kv' :: ps))
      with ((pre ++ pair_text kv ++ [sep]) ++ join sep (kv' :: ps)) by (rewrite <- !app_assoc; done).
    replace (S (length pre + length (pair_text kv))) with (length (pre ++ pair_text kv ++ [sep]))
      by (rewrite !length_app; simpl; lia).
    by rewrite IH.
Qed.

Lemma no_nul_join sep ps :
  sep <> 0 -> Forall (wf_param sep) ps -> no_nul (join sep ps).
Proof.
  intros Hsep. unfold no_nul. induction 1 as [|kv ps [_ Hk _ Hv _] Hps IH]; [constructor|].
  assert (Forall (fun b => b <> 0) (pair_text kv)) as Hkv.
  { unfold pair_text. rewrite Forall_app, Forall_cons. split_and!; [|done|];
    (eapply Forall_impl; [eassumption|]); naive_solver. }
  destruct ps as [|kv' ps]; [done|].
  change (join sep (kv :: kv' :: ps)) with (pair_text kv ++ sep :: join sep (kv' :: ps)).
  by rewrite Forall_app, Forall_cons.
Qed.

(** The loops never dereference outside the buffer: [p0] stays at or below [p]. *)
Lemma skip_spaces_le buf p0 p c :
  (p0 <= p)%nat -> buf !! p = Some c -> c <> ch " " -> (skip_spaces buf p0 <= p)%nat.
Proof.
  intros Hle Hc Hn. unfold skip_spaces.
  assert (forall l i, l !! i = Some c -> (length (take_while (fun c => (c =? ch " ")%Z) l) <= i)%nat) as G.
  { induction l as [|x l IH]; intros i; [done|]. simpl.
    destruct (Z.eqb_spec x (ch " ")) as [->|]; simpl; [|lia].
    destruct i as [|i]; simpl; [by intros [= <-]|]. intros E%IH. lia. }
  assert (drop p0 buf !! (p - p0)%nat = Some c) as Hd.
  { rewrite lookup_drop, <- Hc. f_equal. lia. }
  apply G in Hd. lia.
Qed.

Lemma getParamv2_loop_defined buf sep pre rest p0 f key m :
  buf = pre ++ rest -> (p0 <= length pre)%nat -> sep <> ch " " ->
  exists p0' key' m', getParamv2_loop buf sep rest (length pre) p0 f key m = Val (length buf, p0', key', m')
                      /\ (p0' <= length buf)%nat.
Proof.
  intros -> Hp0 Hsep. revert pre p0 f key m Hp0. induction rest as [|c rest IH]; intros pre p0 f key m Hp0.
  - rewrite app_nil_r. by repeat eexists.
  - replace (pre ++ c :: rest) with ((pre ++ [c]) ++ rest) by (rewrite <- app_assoc; done).
    assert (S (length pre) = length (pre ++ [c])) as El by (rewrite length_app; simpl; lia).
    assert (((pre ++ [c]) ++ rest) !! length pre = Some c) as Hl.
    { rewrite <- app_assoc. apply lookup_app_head. }
    assert (c <> ch " " -> (skip_spaces ((pre ++ [c]) ++ rest) p0 <= length pre)%nat) as Hsk
      by (intros; by eapply skip_spaces_le).
    cbn [getParamv2_loop]. rewrite El.
    destruct (negb f && (c =? ch "=")) eqn:E.
    { rewrite andb_true_iff, Z.eqb_eq in E. destruct E as [_ E].
      specialize (Hsk ltac:(rewrite E; vm_compute; congruence)).
      unfold assign. destruct (_ =? _)%nat; cbn [mbind outcome_bind].
      - apply IH. lia.
      - destruct (Nat.leb_spec (skip_spaces ((pre ++ [c]) ++ rest) p0) (length pre)); [|lia].
        cbn [mbind outcome_bind]. apply IH. lia. }
    destruct (Z.eqb_spec c sep) as [->|]; [|apply IH; lia].
    specialize (Hsk Hsep). unfold cat. rewrite (rd_nth _ _ 0) by (rewrite !length_app; simpl; lia).
    cbn [mbind outcome_bind]. unfold assign.
    destruct (Nat.leb_spec (skip_spaces ((pre ++ [sep]) ++ rest) p0) (length pre)); [|lia].
    destruct (_ || _); cbn [mbind outcome_bind]; apply IH; lia.
Qed.

(** ** Replacing: termination *)

Lemma find_at_shift pat s k i :
  find_at pat s (k + i) = option_map (fun j => k + j)%nat (find_at pat s i).
Proof.
  revert i. induction s as [|c s IH]; intros i; simpl.
  - by destruct (starts_with pat []).
  - destruct (starts_with pat (c :: s)); [done|]. by rewrite <- IH, Nat.add_succ_r.
Qed.

(** The first occurrence at or after the end of [pre]. *)
Lemma find_after pre s pat :
  find (pre ++ s) pat (length pre) = option_map (fun i => length pre + i)%nat (find s pat 0).
Proof.
  unfold find. rewrite length_app. destruct (Nat.leb_spec (length pre) (length pre + length s)); [|lia].
  rewrite drop_app_length. simpl. rewrite drop_0.
  by rewrite <- find_at_shift, Nat.add_0_r.
Qed.

Lemma find_after_Some pre s pat j :
  find (pre ++ s) pat (length pre) = Some j ->
  exists a t, s = a ++ pat ++ t /\ j = length (pre ++ a)
    /\ forall a' t', s = a' ++ pat ++ t' -> (length a <= length a')%nat.
Proof.
  rewrite find_after. unfold find. simpl. rewrite drop_0.
  destruct (find_at pat s 0) as [i|] eqn:E; [|done]. intros [= <-].
  apply find_at_Some in E as (a & t & -> & -> & Hmin). exists a, t.
  rewrite length_app. split_and!; [done|lia|done].
Qed.

Lemma replace_mid (a b c to : bytes) : replace (a ++ b ++ c) (length a) (length b) to = a ++ to ++ c.
Proof.
  unfold replace. rewrite take_app_length, (app_assoc a b c), <- length_app, drop_app_length. done.
Qed.

Lemma contains_in pat a t : contains (a ++ pat ++ t) pat = true.
Proof. apply contains_spec. by exists a, t. Qed.

Lemma find_contains pre s pat : contains s pat = false -> find (pre ++ s) pat (length pre) = None.
Proof.
  intros H. destruct (find (pre ++ s) pat (length pre)) as [j|] eqn:E; [|done].
  apply find_after_Some in E as (a & t & -> & _). by rewrite contains_in in H.
Qed.

Lemma find_contains_Some pre s pat :
  contains s pat = true -> exists j, find (pre ++ s) pat (length pre) = Some j.
Proof. rewrite find_after. unfold contains. destruct (find s pat 0); [by eexists|done]. Qed.

(** An occurrence of [pat] in [w ++ rest] that [w] does not contain ends inside [rest]. *)
Lemma occurrence_in_rest w rest a pat t :
  contains w pat = false -> w ++ rest = a ++ pat ++ t -> (length t < length rest)%nat.
Proof.
  intros Hw E. destruct (Nat.ltb_spec (length t) (length rest)) as [|Hle]; [done|].
  assert (w = a ++ pat ++ take (length t - length rest) t) as ->; [|by rewrite contains_in in Hw].
  pose proof (f_equal length E) as El. rewrite !length_app in El.
  apply (f_equal (take (length w))) in E. rewrite take_app_length in E. rewrite E.
  rewrite !take_app. rewrite !(take_ge a), !(take_ge pat) by lia.
  do 2 f_equal. f_equal. lia.
Qed.

Lemma url_replace_all_loop_terminates fuel pre w rest from to :
  from <> [] -> contains to from = false -> contains w from = false -> (length rest < fuel)%nat ->
  exists r, url_replace_all_loop fuel (pre ++ w ++ rest) from to (length pre) = Some r.
Proof.
  intros Hf Hto. revert pre w rest. induction fuel as [|fuel IH]; intros pre w rest Hw Hl; [lia|].
  cbn [url_replace_all_loop]. destruct (find _ _ _) as [j|] eqn:E; [|by eexists].
  apply find_after_Some in E as (a & t & E & -> & _). rewrite E, app_assoc, replace_mid.
  apply IH; [done|]. apply occurrence_in_rest in E; [lia|done].
Qed.

Lemma url_replace_all_loop_diverges fuel pre s from to :
  contains to from = true -> contains s from = true ->
  url_replace_all_loop fuel (pre ++ s) from to (length pre) = None.
Proof.
  intros Hto. revert pre s. induction fuel as [|fuel IH]; intros pre s Hs; [done|].
  cbn [url_replace_all_loop]. destruct (find_contains_Some pre _ _ Hs) as [j E]. rewrite E.
  apply find_after_Some in E as (a & t & -> & -> & _). rewrite app_assoc, replace_mid.
  apply IH. apply contains_spec in Hto as (b & u & ->). rewrite <- !app_assoc. apply contains_in.
Qed.

Lemma contains_single s c : contains s [c] = false -> Forall (fun x => x <> c) s.
Proof.
  intros H. apply Forall_forall. intros x Hx ->. apply list_elem_of_split in Hx as (a & t & ->).
  change (a ++ c :: t) with (a ++ [c] ++ t) in H. by rewrite contains_in in H.
Qed.

Definition subst_char (c : Z) (to s : bytes) : bytes := flat_map (fun x => if x =? c then to else [x]) s.

Lemma subst_char_id c to s : Forall (fun x => x <> c) s -> subst_char c to s = s.
Proof.
  unfold subst_char. induction 1 as [|x s Hx Hs IH]; simpl; [done|]. apply Z.eqb_neq in Hx as ->.
  by rewrite IH.
Qed.

Lemma subst_char_app c to s t : subst_char c to (s ++ t) = subst_char c to s ++ subst_char c to t.
Proof. unfold subst_char. apply flat_map_app. Qed.

Lemma url_replace_all_loop_char fuel pre w rest c to :
  Forall (fun x => x <> c) to -> Forall (fun x => x <> c) w -> (length rest < fuel)%nat ->
  url_replace_all_loop fuel (pre ++ w ++ rest) [c] to (length pre)
  = Some (pre ++ w ++ subst_char c to rest).
Proof.
  intros Hto. revert pre w rest. induction fuel as [|fuel IH]; intros pre w rest Hw Hl; [lia|].
  cbn [url_replace_all_loop]. destruct (contains (w ++ rest) [c]) eqn:Hc.
  - destruct (find_contains_Some pre _ _ Hc) as [j E]. rewrite E.
    apply find_after_Some in E as (a & t & E & -> & Hmin).
    assert (Forall (fun x => x <> c) a) as Ha.
    { apply contains_single. apply not_true_iff_false. intros (b & u & ->)%contains_spec.
      specialize (Hmin b (u ++ [c] ++ t)). rewrite E in Hmin.
      specialize (Hmin ltac:(rewrite <- !app_assoc; done)). rewrite !length_app in Hmin. simpl in Hmin. lia. }
    rewrite E, app_assoc, replace_mid. rewrite IH; [|done|].
    + f_equal. rewrite <- app_assoc. f_equal.
      rewrite <- (subst_char_id c to w), <- (subst_char_app c to w), E by done.
      rewrite !subst_char_app, (subst_char_id c to a) by done. simpl. rewrite Z.eqb_refl, app_nil_r. done.
    + pose proof (occurrence_in_rest w rest a [c] t) as G. specialize (G ltac:(
        apply not_true_iff_false; intros (b & u & ->)%contains_spec;
        rewrite !Forall_app, Forall_singleton in Hw; naive_solver) E). lia.
  - rewrite find_contains by done. do 3 f_equal. symmetry. apply subst_char_id.
    apply contains_single in Hc. by apply Forall_app in Hc as [_ ?].
Qed.

(** ** Lemmas on numbers and areas *)

Definition digit_value (c : Z) : Z := c - 48.

Lemma extractNumber_step_digit r c :
  is_byte c -> uwrap 64 (extractNumber_step r c)
  = uwrap 64 (if is_digit c then r * 10 + digit_value c else r).
Proof.
  intros Hc. unfold extractNumber_step, is_digit, digit_value.
  replace ((48 <=? schar c) && (schar c <=? 57)) with ((48 <=? c) && (c <=? 57))
    by (unfold schar, is_byte in *; zcase; simpl; lia).
  destruct (_ && _) eqn:E; [|done]. rewrite schar_ascii by (unfold is_ascii; lia).
  rewrite uwrap_swrap by lia.
  replace (r * 10 + (c - 48)) with (Z.shiftl r 3 + Z.shiftl r 1 + (c - 48)) by
    (rewrite !Z.shiftl_mul_pow2 by lia; lia).
  apply uwrap_add; [|done]. rewrite uwrap_swrap by lia. apply uwrap_add; by apply uwrap_swrap.
Qed.

Lemma extractNumber_fold s r v :
  Forall is_byte s -> uwrap 64 r = uwrap 64 v ->
  uwrap 64 (foldl extractNumber_step r s)
  = uwrap 64 (foldl (fun a d => a * 10 + d) v (map digit_value (List.filter is_digit s))).
Proof.
  intros Hs. revert r v. induction Hs as [|c s Hc Hs IH]; intros r v E; cbn [foldl List.filter]; [done|].
  rewrite (IH _ (if is_digit c then v * 10 + digit_value c else v)); [by destruct (is_digit c)|].
  rewrite extractNumber_step_digit by done. destruct (is_digit c); [|done].
  apply uwrap_add; [|done]. by apply uwrap_mul.
Qed.

Lemma extractNumber_step_range r c :
  - 2 ^ 63 <= r < 2 ^ 63 -> - 2 ^ 63 <= extractNumber_step r c < 2 ^ 63.
Proof. intros Hr. unfold extractNumber_step. destruct (_ && _); [|done]. by apply (swrap_range 64). Qed.

Lemma c_str_bytes s : Forall is_byte s -> Forall is_byte (c_str s).
Proof. induction 1; simpl; [done|]. destruct (_ =? _); by constructor. Qed.

Lemma skip_while_app_false p (a : bytes) c t :
  Forall (fun x => p x = true) a -> p c = false -> skip_while p (a ++ c :: t) = c :: t.
Proof. induction 1 as [|x a Hx _ IH]; intros Hc; simpl; [by rewrite Hc|]. rewrite Hx. by apply IH. Qed.

Lemma next_field_digits n t :
  0 <= n -> next_field (to_string n ++ ch "-" :: t) = Val t.
Proof.
  intros Hn. unfold next_field. rewrite to_string_nonneg by done.
  rewrite skip_while_app_false; [done| |done].
  pose proof (dec_chars_digit _ (digits_range 10 n ltac:(lia) Hn)) as Hd.
  eapply Forall_impl; [exact Hd|]. intros c. unfold is_digit.
  destruct (Z.eqb_spec c (ch "-")) as [->|]; [by vm_compute|done].
Qed.

Lemma next_field_spec s : next_field s = Undef <-> ~ In (ch "-") s.
Proof.
  unfold next_field. induction s as [|c s IH]; simpl; [naive_solver|].
  destruct (Z.eqb_spec c (ch "-")); simpl; [|rewrite IH]; naive_solver.
Qed.

Definition dashes (s : bytes) : nat := length (List.filter (fun c => c =? ch "-") s).

Lemma next_field_dashes s :
  (dashes s = 0%nat /\ next_field s = Undef)
  \/ exists t, next_field s = Val t /\ dashes s = S (dashes t).
Proof.
  unfold dashes, next_field. induction s as [|c s IH]; simpl; [by left|].
  destruct (Z.eqb_spec c (ch "-")) as [->|]; simpl; [right; by eexists|]. exact IH.
Qed.

(** ** Theorems *)

(** [getParamv2] recovers a well formed query: joining parameters with the separator and
    parsing the text performs exactly the assignments [m[key] = value], in order, whatever
    the map held before (the last value must not be empty: the parser drops a trailing
    empty value). *)
Theorem getParamv2_wf m ps sep :
  sep <> 0 -> sep <> ch "=" -> sep <> ch " " -> ps <> [] -> Forall (wf_param sep) ps ->
  (forall k, last ps <> Some (k, [])) ->
  getParamv2 m (join sep ps) sep = Val (assigned m ps).
Proof.
  intros H0 H1 H2 Hne Hwf Hl. unfold getParamv2. rewrite c_str_id by by apply no_nul_join.
  pose proof (getParamv2_join [] sep ps [] m Hne Hwf H1 H2 Hl) as E. exact E.
Qed.

Lemma getParamv2_wf_witness :
  getParamv2 ∅ (str "a=1&url=http://x?q=2") (ch "&")
  = Val (<[str "url" := str "http://x?q=2"]> (<[str "a" := str "1"]> ∅)).
Proof.
  apply (getParamv2_wf ∅ [(str "a", str "1"); (str "url", str "http://x?q=2")] (ch "&"));
    try (vm_compute; congruence).
  repeat constructor; vm_compute; congruence.
Defined.

(** Parsing a query or a cookie never reads outside the buffer and never builds a
    reversed range, for every input, every initial map and every separator but the space. *)
Theorem getParamv2_total m buffer sep :
  sep <> ch " " -> exists m', getParamv2 m buffer sep = Val m'.
Proof.
  intros Hsep. unfold getParamv2.
  destruct (getParamv2_loop_defined (c_str buffer) sep [] (c_str buffer) 0 false [] m eq_refl (le_n _) Hsep)
    as (p0 & key & m' & E & Hp). simpl in E. rewrite E. cbn [mbind outcome_bind].
  destruct (_ =? _)%nat; [by eexists|]. unfold assign.
  destruct (Nat.leb_spec p0 (length (c_str buffer))); [|lia]. by eexists.
Qed.

Lemma getParamv2_total_witness : exists m', getParamv2 ∅ (str "=;; a==b;c") (ch ";") = Val m'.
Proof. apply (getParamv2_total ∅ (str "=;; a==b;c") (ch ";")). vm_compute. congruence. Defined.

(** C40. [url_replace_all] terminates exactly when the text does not contain [from] (nothing
    to do) or [to] does not contain it; a bound of one pass per byte is then enough, and
    otherwise no number of passes is. *)
Theorem url_replace_all_terminates_iff s from to :
  from <> [] ->
  ((exists fuel r, url_replace_all_loop fuel s from to 0 = Some r)
    <-> contains s from = false \/ contains to from = false)
  /\ ((contains s from = false \/ contains to from = false) -> exists r, url_replace_all s from to = Some r).
Proof.
  intros Hf.
  assert ((contains s from = false \/ contains to from = false) ->
           exists r, url_replace_all s from to = Some r) as G.
  { unfold url_replace_all. destruct (contains to from) eqn:Hto.
    - intros [Hs|]; [|done]. cbn [url_replace_all_loop].
      pose proof (find_contains [] s from Hs) as E. simpl in E. rewrite E. by eexists.
    - intros _. apply (url_replace_all_loop_terminates _ [] [] s); [done..| |lia].
      destruct from; done. }
  split; [|exact G]. split; [|intros H; exists (S (length s)); by apply G].
  intros (fuel & r & E). destruct (contains s from) eqn:Hs; [|by left]. right.
  destruct (contains to from) eqn:Hto; [|done].
  pose proof (url_replace_all_loop_diverges fuel [] s from to Hto Hs) as E'. simpl in E'. congruence.
Qed.

Lemma url_replace_all_terminates_iff_witness :
  (exists r, url_replace_all (str "http://a http://b") (str "http://") (str "https://") = Some r)
  /\ ~ exists fuel r, url_replace_all_loop fuel (str "a") (str "a") (str "ba") 0 = Some r.
Proof.
  split.
  - apply (url_replace_all_terminates_iff (str "http://a http://b") (str "http://") (str "https://"));
      [discriminate|right; reflexivity].
  - intros H. apply (url_replace_all_terminates_iff (str "a") (str "a") (str "ba")) in H; [|discriminate].
    destruct H as [H|H]; discriminate H.
Defined.

(** Replacing one character by a text without it (the service turns [-] into [%]) is the
    character by character substitution. *)
Theorem url_replace_all_char s c to :
  Forall (fun x => x <> c) to -> url_replace_all s [c] to = Some (subst_char c to s).
Proof.
  intros Hto. unfold url_replace_all.
  by apply (url_replace_all_loop_char _ [] [] s); [|constructor|lia].
Qed.

Lemma url_replace_all_char_witness : url_replace_all (str "a-7c-b") (str "-") (str "%") = Some (str "a%7c%b").
Proof.
  apply (url_replace_all_char (str "a-7c-b") (ch "-") (str "%")).
  repeat constructor; vm_compute; congruence.
Defined.

(** [extractNumber] is the decimal value of the digits of the string, in order and
    skipping every other byte, reduced to a 64 bit [long]. *)
Theorem extractNumber_spec s :
  Forall is_byte s ->
  extractNumber s = s64 (value 10 (map digit_value (List.filter is_digit (c_str s)))).
Proof.
  intros Hs. unfold extractNumber, value.
  rewrite <- (swrap_small 64 (foldl extractNumber_step 0 (c_str s))).
  - apply swrap_uwrap_eq. apply extractNumber_fold; [by apply c_str_bytes|done].
  - lia.
  - assert (forall r, - 2 ^ 63 <= r < 2 ^ 63 ->
      - 2 ^ 63 <= foldl extractNumber_step r (c_str s) < 2 ^ 63) as G; [|apply G; lia].
    induction (c_str s) as [|c l IH]; intros r Hr; simpl; [done|].
    apply IH. by apply extractNumber_step_range.
Qed.

Lemma extractNumber_spec_witness : extractNumber (str "mm_12x0") = 120.
Proof. rewrite (extractNumber_spec (str "mm_12x0")); [reflexivity|repeat constructor; vm_compute; congruence]. Defined.

(** [extractAreaInfo] reads back the three codes of a [country-province-city] text, and
    is undefined (it scans past the terminator) exactly when the text has fewer than two
    dashes. *)
Theorem extractAreaInfo_spec country province city input :
  0 <= country < 2 ^ 31 -> 0 <= province < 2 ^ 31 -> 0 <= city < 2 ^ 31 ->
  extractAreaInfo (to_string country ++ ch "-" :: to_string province ++ ch "-" :: to_string city)
    = Val (country, province, city)
  /\ (extractAreaInfo input = Undef <-> (dashes (c_str input) < 2)%nat).
Proof.
  intros H1 H2 H3. split.
  - unfold extractAreaInfo. rewrite c_str_id.
    2:{ unfold no_nul. rewrite !Forall_app, !Forall_cons, Forall_app, Forall_cons. split_and!;
        try (apply to_string_no_nul; lia); by vm_compute. }
    rewrite next_field_digits by lia. cbn [mbind outcome_bind].
    rewrite next_field_digits by lia. cbn [mbind outcome_bind].
    rewrite <- (app_nil_r (to_string city)), !atoi_number by (lia || done). done.
  - unfold extractAreaInfo. destruct (next_field_dashes (c_str input)) as [[Hd ->]|(t & -> & Hd)]; cbn [mbind outcome_bind].
    + rewrite Hd. split; [lia|done].
    + destruct (next_field_dashes t) as [[Hd' ->]|(t' & -> & Hd')]; cbn [mbind outcome_bind]; rewrite Hd, Hd'.
      * split; [lia|done].
      * split; [done|lia].
Qed.

Lemma extractAreaInfo_spec_witness :
  extractAreaInfo (str "1156-44-3") = Val (1156, 44, 3) /\ extractAreaInfo (str "1156") = Undef.
Proof.
  destruct (extractAreaInfo_spec 1156 44 3 (str "1156") ltac:(lia) ltac:(lia) ltac:(lia)) as [E U].
  split; [exact E|]. apply U. vm_compute. lia.
Defined.

(** A segment without [=] is assigned to the key of the segment before it. *)
Lemma getParamv2_stale_key :
  getParamv2 ∅ (str "a=1&b") (ch "&") = Val {[ str "a" := str "b" ]}.
Proof. vm_compute. reflexivity. Qed.
