(* ===== verification/Cypher.v ===== *)
(** * Cypher: hexadecimal text, cookie ids and the crypto wrappers (utility/cypher.cpp)

    Buffers the caller supplies are lists of their length; the routines write
    them in place with [wr], so a write outside the buffer is [Undef].  The
    CryptoPP primitives behind base64, MD5 and AES are parameters, described by
    the classes [Base64] and [CryptoPP]. *)
From S2P Require Import Prelude CString.

(** ** Hexadecimal text *)

Definition hexMap_upper : bytes := str "0123456789ABCDEF".
Definition hexMap_lower : bytes := str "0123456789abcdef".

Definition toHex_with (hexMap input : bytes) (size : Z) (hexResult : bytes) : outcome bytes :=
  buf ← forN (Z.to_nat size) 0 (fun i buf =>
    x ← rd input i;
    a ← rd hexMap (Z.land x 15);
    buf ← wr buf (2 * i) a;
    b ← rd hexMap (Z.shiftr x 4);
    wr buf (2 * i + 1) b) hexResult;
  wr buf (Z.shiftl size 1) 0.

Definition toHex (input : bytes) (size : Z) (hexResult : bytes) : outcome bytes :=
  toHex_with hexMap_upper input size hexResult.

Definition toHex_case (isCapital : bool) (input : bytes) (size : Z) (hexResult : bytes) : outcome bytes :=
  if isCapital then toHex input size hexResult else toHex_with hexMap_lower input size hexResult.

(** [a[i] ^= a[j]], and the three of them that exchange two cells. *)
Definition xor_assign (buf : list Z) (i j : Z) : outcome (list Z) :=
  a ← rd buf i; b ← rd buf j; wr buf i (Z.lxor a b).
Definition xor_swap (buf : list Z) (i j : Z) : outcome (list Z) :=
  buf ← xor_assign buf i j; buf ← xor_assign buf j i; xor_assign buf i j.

(** The [uint16_t *] view of a buffer, low byte first. *)
Fixpoint view16 (buf : bytes) : list Z :=
  match buf with a :: b :: buf' => a + 256 * b :: view16 buf' | _ => [] end.
Fixpoint bytes16 (l : list Z) : bytes :=
  match l with x :: l' => x mod 256 :: x / 256 :: bytes16 l' | [] => [] end.

Fixpoint reverse_loop (fuel : nat) (l : list Z) (i j : Z) : outcome (list Z) :=
  if i <? j then
    match fuel with
    | O => Undef
    | S fuel => l ← xor_swap l i j; reverse_loop fuel l (i + 1) (j - 1)
    end
  else Val l.

(** [for (i = (size << 1) - 1; i > 0; i -= 2)], with [n] iterations left. *)
Fixpoint swap_nibbles (n : nat) (buf : bytes) : outcome bytes :=
  match n with
  | O => Val buf
  | S n => let i := 2 * Z.of_nat n + 1 in buf ← xor_swap buf i (i - 1); swap_nibbles n buf
  end.

Definition toHexReadable (input : bytes) (size : Z) (hexResult : bytes) : outcome bytes :=
  buf ← toHex input size hexResult;
  let n := Z.to_nat (2 * size) in
  v ← reverse_loop (Z.to_nat size) (view16 (take n buf)) 0 (size - 1);
  swap_nibbles (Z.to_nat size) (bytes16 v ++ drop n buf).

Definition hexToReadable (hexString : bytes) (size : Z) (readableResult : bytes) : outcome bytes :=
  let size := Z.shiftr size 1 in
  let n := Z.to_nat (2 * size) in
  let inp := view16 (take n hexString) in
  out ← forN (Z.to_nat size) 0 (fun i out => x ← rd inp i; wr out (size - 1 - i) x)
          (view16 (take n readableResult));
  buf ← swap_nibbles (Z.to_nat size) (bytes16 out ++ drop n readableResult);
  wr buf (Z.shiftl size 1) 0.

(** One nibble of the two decoders: [result[j] |= (digit << shift) & mask]. *)
Definition or_nibble (base c shift mask : Z) (result : bytes) (j : Z) : outcome bytes :=
  let d := if c <? base then c - 48 else c - base + 10 in
  old ← rd result j;
  wr result j (u8 (Z.lor old (Z.land (Z.shiftl d shift) mask))).

Definition fromHex (hexInput : bytes) (size : Z) (result : bytes) : outcome bytes :=
  forN (Z.to_nat size) 0 (fun i result =>
    let j := Z.shiftr i 1 in
    result ← (if Z.land i 1 =? 0 then wr result j 0 else Val result);
    c ← rd hexInput i;
    if Z.land i 1 =? 0 then or_nibble (ch "A") (schar c) 0 0x0F result j
    else or_nibble (ch "A") (schar c) 4 0xF0 result j) result.

(** A failed [assert] stops the program; it is [Undef] here.  Returns the buffer
    and [outSize]. *)
Definition fromLittleEndiumHex (hexInput : bytes) (size : Z) (result : bytes) (outSize : Z)
    (capital : bool) : outcome (bytes * Z) :=
  let needSize := if Z.land size 1 =? 0 then Z.shiftr size 1 else Z.shiftr size 1 + 1 in
  check (needSize <=? outSize);;
  let base := if capital then ch "A" else ch "a" in
  result ← forN (Z.to_nat size) 0 (fun i result =>
    let j := Z.shiftr i 1 in
    result ← (if Z.land i 1 =? 0 then wr result j 0 else Val result);
    c ← rd hexInput i;
    if Z.land i 1 =? 0 then or_nibble base (schar c) 4 0xF0 result j
    else or_nibble base (schar c) 0 0x0F result j) result;
  Val (result, needSize).

(** ** Third party primitives *)

(** CryptoPP's base64 filters: the encoder writes the 64 letters, the padding and
    line feeds; the decoder inverts it. [None] is an exception. *)
Class Base64 := {
  b64_encode : bytes -> bytes;
  b64_decode : bytes -> option bytes;
}.

Definition b64_letter (c : Z) : bool :=
  ((ch "A" <=? c) && (c <=? ch "Z")) || ((ch "a" <=? c) && (c <=? ch "z"))
  || ((ch "0" <=? c) && (c <=? ch "9")) || (c =? ch "+") || (c =? ch "/") || (c =? ch "=") || (c =? 10).

Class Base64Laws (B : Base64) : Prop := {
  b64_roundtrip : forall x, Forall is_byte x -> b64_decode (b64_encode x) = Some x;
  b64_letters : forall x, Forall is_byte x -> Forall (fun c => b64_letter c = true) (b64_encode x);
  b64_nonempty : forall x, x <> [] -> b64_encode x <> [];
}.

Class CryptoPP := {
  md5_hex : bytes -> bytes;                     (* HexEncoder of the MD5 digest *)
  aes_ecb_encrypt : bytes -> bytes -> bytes;    (* key, text *)
  OFFERPRICE_ENCODE_KEY : bytes;                (* mtty/constants.h *)
}.

Section wrappers.
Context `{Base64, CryptoPP}.

(** The sinks append to [output]. *)
Definition base64encode (input output : bytes) : bytes := output ++ b64_encode input.

Definition base64decode (input output : bytes) : bool * bytes :=
  match b64_decode input with Some o => (true, output ++ o) | None => (false, output) end.

Definition urlsafe_char (c : Z) : Z := if c =? ch "-" then ch "+" else if c =? ch "_" then ch "/" else c.

Definition urlsafe_base64decode (input output : bytes) : bytes :=
  match b64_decode (map urlsafe_char input) with Some o => output ++ o | None => output end.

Definition md5_encode (input : bytes) : bytes := match input with [] => [] | _ => md5_hex input end.

Definition encodePrice (price : Z) (useAes : bool) : bytes :=
  if useAes then aes_ecb_encrypt OFFERPRICE_ENCODE_KEY (to_string price) else to_string price.
End wrappers.

(** ** Random ids *)

(** The bytes of a little endian [n] byte integer. *)
Fixpoint le_bytes (n : nat) (v : Z) : bytes :=
  match n with O => [] | S n => v mod 256 :: le_bytes n (v / 256) end.

(** [rs] are the values [rng::randomInt] returns; [p] is the write position. *)
Fixpoint randomId_loop (field : nat) (rs : list Z) (buffer : bytes) (p : Z) : outcome (bytes * Z) :=
  match field with
  | O => Val (buffer, p)
  | S field =>
    match rs with
    | [] => Undef
    | r :: rs =>
      tail ← toHex_case false (le_bytes 4 (u32 r)) 4 (drop (Z.to_nat p) buffer);
      randomId_loop field rs (take (Z.to_nat p) buffer ++ tail) (p + 8)
    end
  end.

Definition randomId (field : nat) (rs : list Z) (buffer : bytes) : outcome bytes :=
  check (length buffer =? 256)%nat;;
  '(buffer, p) ← randomId_loop field rs buffer 0;
  buffer ← (if p =? 0 then wr buffer p 0 else wr buffer (p - 1) 0);
  Val (c_str buffer).

(** ** The cookie cipher *)

Definition cypherMap : list bytes :=
  map str ["6FXDeNRgys4q=9UY"; "1oiBCaw3jv_AzMJm"; "OkMtd7xTufnIKPhH"; "5L8V0EbSlGQZrc2p"]%string.
Definition cypherSortMap : list bytes :=
  map str ["469=DFNRUXYegqsy"; "13ABCJM_aijmovwz"; "7HIKMOPTdfhkntux"; "0258EGLQSVZbclpr"]%string.
Definition cypherPosMap : list (list Z) :=
  [ [10; 0; 13; 12; 3; 1; 5; 6; 14; 2; 15; 4; 7; 11; 9; 8];
    [0; 7; 11; 3; 4; 14; 13; 10; 5; 2; 8; 15; 1; 9; 6; 12];
    [5; 15; 11; 12; 2; 0; 13; 7; 4; 9; 14; 1; 10; 3; 8; 6];
    [4; 14; 0; 2; 5; 9; 1; 10; 7; 3; 11; 6; 13; 8; 15; 12] ].

(** CypherMapGenerator::regenerate: sort the indices of each row by letter. *)
Definition index_le (row : bytes) (a b : Z) : Prop := nth (Z.to_nat a) row 0 <= nth (Z.to_nat b) row 0.
#[global] Instance index_le_dec row : RelDecision (index_le row).
Proof. intros a b. unfold index_le. apply _. Defined.

Definition regenerate_row (row : bytes) : bytes * list Z :=
  let index := merge_sort (index_le row) (map Z.of_nat (seq 0 16)) in
  (map (fun j => nth (Z.to_nat j) row 0) index, index).
Definition regenerate (m : list bytes) : list bytes * list (list Z) :=
  (map (fun row => (regenerate_row row).1) m, map (fun row => (regenerate_row row).2) m).

(** The character set of randomCharSequence, before the shuffle. *)
Definition charSequence : bytes :=
  str "abcdefghijklmnopqrstuvwxyzABCDMEFGHIJKLMNOPQRSTUVXYZ=1234567890_".

(** The constructor, given what [std::shuffle] produced. *)
Definition generator_rows (randomString : bytes) : list bytes :=
  map (fun i => take 16 (drop (16 * i) randomString)) [0; 1; 2; 3]%nat.

Fixpoint bSearch_loop (fuel : nat) (a : list Z) (key l h : Z) : outcome Z :=
  if l <=? h then
    match fuel with
    | O => Undef
    | S fuel =>
      let mid := l + Z.shiftr (h - l) 1 in
      x ← rd a mid;
      if key <=? x then bSearch_loop fuel a key l (mid - 1) else bSearch_loop fuel a key (mid + 1) h
    end
  else Val l.

Definition bSearch (a : list Z) (size key : Z) : outcome Z :=
  l ← bSearch_loop (S (Z.to_nat size)) a key 0 (size - 1);
  if (0 <=? l) && (l <? size) then
    x ← rd a l; Val (if x =? key then l else -1)
  else Val (-1).

Definition row {A} (m : list (list A)) (j : Z) : list A := nth (Z.to_nat (Z.land j 3)) m [].

Definition cookiesEncode (input : bytes) (size : Z) (result : bytes) : outcome bytes :=
  if 8 <? size then Exc (MtException "cookiesEncode size > 8")
  else forN (Z.to_nat size) 0 (fun i output =>
    x ← rd input i;
    a ← rd (row cypherMap (2 * i)) (Z.land x 15);
    output ← wr output (2 * i) a;
    b ← rd (row cypherMap (2 * i + 1)) (Z.shiftr x 4);
    wr output (2 * i + 1) b) result.

(** The loop stops with [None] at a letter that is not in its row. *)
Fixpoint cookiesDecode_loop (n : nat) (i : Z) (inp output : bytes) : outcome (option bytes) :=
  match n with
  | O => Val (Some output)
  | S n =>
    let j := Z.shiftr i 1 in
    c ← rd inp i;
    idx ← bSearch (row cypherSortMap i) 16 (schar c);
    if (idx <? 0) || (15 <? idx) then Val None
    else
      p ← rd (row cypherPosMap i) idx;
      old ← rd output j;
      output ← wr output j (u8 (Z.lor old (Z.land (Z.shiftl p (if Z.land i 1 =? 0 then 0 else 4))
                                              (if Z.land i 1 =? 0 then 0x0F else 0xF0))));
      cookiesDecode_loop n (i + 1) inp output
  end.

(** Returns the buffer and the new [size], or [None] for [false]. *)
Definition cookiesDecode (inp output : bytes) (size : Z) : outcome (option (bytes * Z)) :=
  if size <? 8 then Val None
  else
    check (8 <=? length output)%nat;;
    r ← cookiesDecode_loop 16 0 inp (over (replicate 8 0) output);
    Val (match r with Some o => Some (o, 8) | None => None end).

(** The eight bytes of a fresh id: the time since the epoch of the service, then a random word. *)
Definition cookie_words (now rnd : Z) : bytes := le_bytes 4 (u32 now) ++ le_bytes 4 (u32 rnd).

Definition makeCookiesPublic (now rnd : Z) (result : bytes) : outcome (bytes * Z) :=
  buf ← toHex (cookie_words now rnd) 8 result; Val (buf, 16).

Definition makeCookies (now rnd : Z) (result : bytes) : outcome bytes :=
  buf ← cookiesEncode (cookie_words now rnd) 8 result; wr buf 16 0.

(** ** Lemmas: hexadecimal text *)

Definition nib (hm : bytes) (d : Z) : Z := nth (Z.to_nat d) hm 0.
(** Low nibble first, as [toHex] writes it; high nibble first, as people read it. *)
Definition hex_text (hm input : bytes) : bytes :=
  flat_map (fun b => [nib hm (Z.land b 15); nib hm (Z.shiftr b 4)]) input.
Definition hex_readable (hm input : bytes) : bytes :=
  flat_map (fun b => [nib hm (Z.shiftr b 4); nib hm (Z.land b 15)]) input.

Lemma nibbles b : is_byte b -> 0 <= Z.land b 15 < 16 /\ 0 <= Z.shiftr b 4 < 16.
Proof.
  intros Hb. change 15 with (Z.ones 4). rewrite Z.land_ones, Z.shiftr_div_pow2 by lia.
  unfold is_byte in Hb. split; [apply Z.mod_pos_bound; lia|]. change (2 ^ 4) with 16. dlia.
Qed.

Lemma length_hex_text hm x : length (hex_text hm x) = (2 * length x)%nat.
Proof. unfold hex_text. induction x as [|b x IH]; cbn [flat_map app length]; [done|]. rewrite IH. lia. Qed.

Lemma hex_text_app hm x y : hex_text hm (x ++ y) = hex_text hm x ++ hex_text hm y.
Proof. apply flat_map_app. Qed.

(** The first [k + 1] bytes, when there is one more. *)
Lemma take_Z_S {A} (l : list A) k x :
  0 <= k -> l !! Z.to_nat k = Some x -> take (Z.to_nat (k + 1)) l = take (Z.to_nat k) l ++ [x].
Proof. intros. rewrite Z2Nat.inj_add by lia. rewrite Nat.add_1_r. by apply take_S_r. Qed.

Lemma byte_at x k : Forall is_byte x -> 0 <= k < Z.of_nat (length x) ->
  exists b, x !! Z.to_nat k = Some b /\ is_byte b /\ rd x k = Val b.
Proof.
  intros Hx Hk. destruct (lookup_lt_is_Some_2 x (Z.to_nat k)) as [b E]; [lia|].
  exists b. split_and!; [done|by eapply Forall_lookup_1|]. apply rd_Some; [lia|done].
Qed.

Lemma toHex_with_spec hm input buf :
  length hm = 16%nat -> Forall is_byte input -> (2 * length input < length buf)%nat ->
  toHex_with hm input (Z.of_nat (length input)) buf = Val (over (hex_text hm input ++ [0]) buf).
Proof.
  intros Hm Hin Hbuf. unfold toHex_with. rewrite Nat2Z.id.
  edestruct (forN_spec (fun k s => s = over (hex_text hm (take (Z.to_nat k) input)) buf)
               (length input) 0) as (s' & E & Hs').
  3:{ rewrite E. cbn [mbind outcome_bind]. rewrite Hs', Z.add_0_l, Nat2Z.id, take_ge by lia.
      apply wr_over; rewrite length_hex_text; [|lia]. rewrite Z.shiftl_mul_pow2 by lia. lia. }
  - simpl. by rewrite over_nil.
  - intros k s Hk ->. destruct (byte_at input k Hin ltac:(lia)) as (b & Eb & Hb & Er).
    destruct (nibbles b Hb) as [Hl Hh]. rewrite Er. cbn [mbind outcome_bind].
    rewrite (rd_nth hm (Z.land b 15) 0), (rd_nth hm (Z.shiftr b 4) 0) by lia. cbn [mbind outcome_bind].
    assert (length (hex_text hm (take (Z.to_nat k) input)) = (2 * Z.to_nat k)%nat) as El.
    { rewrite length_hex_text, length_take. lia. }
    rewrite wr_over by lia. cbn [mbind outcome_bind].
    rewrite wr_over by (rewrite length_app; cbn [length]; lia).
    eexists; split; [done|]. rewrite (take_Z_S input k b) by (lia || done).
    rewrite hex_text_app. simpl. rewrite <- app_assoc. done.
Qed.

(** ** Lemmas: decoding hexadecimal text *)

Lemma or_nibble_last base c shift mask w buf j old :
  j = Z.of_nat (length w) ->
  or_nibble base c shift mask (over (w ++ [old]) buf) j
  = Val (over (w ++ [u8 (Z.lor old (Z.land (Z.shiftl (if c <? base then c - 48 else c - base + 10) shift) mask))]) buf).
Proof.
  intros ->. unfold or_nibble. rewrite rd_over_last by done. cbn [mbind outcome_bind].
  by rewrite wr_over_last.
Qed.

(** The two decoders run the same loop, with the nibbles exchanged. *)
Definition decode_body (base sh0 m0 sh1 m1 : Z) (inp : bytes) (i : Z) (result : bytes) : outcome bytes :=
  let j := Z.shiftr i 1 in
  result ← (if Z.land i 1 =? 0 then wr result j 0 else Val result);
  c ← rd inp i;
  if Z.land i 1 =? 0 then or_nibble base (schar c) sh0 m0 result j
  else or_nibble base (schar c) sh1 m1 result j.

Lemma forN_app {S} n n' i (f : Z -> S -> outcome S) s :
  forN (n + n') i f s = s' ← forN n i f s; forN n' (i + Z.of_nat n) f s'.
Proof.
  revert i s. induction n as [|n IH]; intros i s; cbn [forN Nat.add].
  - cbn [mbind outcome_bind]. by rewrite Z.add_0_r.
  - rewrite bind_assoc. destruct (f i s) as [s'| |]; cbn [mbind outcome_bind]; [|done..].
    rewrite IH. by replace (i + 1 + Z.of_nat n) with (i + Z.of_nat (Datatypes.S n)) by lia.
Qed.

Definition joined (base sh0 m0 sh1 m1 c0 c1 : Z) : Z :=
  let d c := if schar c <? base then schar c - 48 else schar c - base + 10 in
  u8 (Z.lor (u8 (Z.lor 0 (Z.land (Z.shiftl (d c0) sh0) m0))) (Z.land (Z.shiftl (d c1) sh1) m1)).

Lemma decode_body_even base sh0 m0 sh1 m1 inp w buf c :
  rd inp (2 * Z.of_nat (length w)) = Val c -> (length w < length buf)%nat ->
  decode_body base sh0 m0 sh1 m1 inp (2 * Z.of_nat (length w)) (over w buf)
  = Val (over (w ++ [u8 (Z.lor 0 (Z.land (Z.shiftl
           (if schar c <? base then schar c - 48 else schar c - base + 10) sh0) m0))]) buf).
Proof.
  intros R Hl. unfold decode_body. cbv zeta.
  replace (Z.shiftr (2 * Z.of_nat (length w)) 1) with (Z.of_nat (length w))
    by (rewrite Z.shiftr_div_pow2 by lia; change (2 ^ 1) with 2; dlia).
  replace (Z.land (2 * Z.of_nat (length w)) 1) with 0
    by (change 1 with (Z.ones 1); rewrite Z.land_ones by lia; change (2 ^ 1) with 2; dlia).
  rewrite Z.eqb_refl, wr_over by lia. cbn [mbind outcome_bind]. rewrite R. cbn [mbind outcome_bind].
  by rewrite or_nibble_last.
Qed.

Lemma decode_body_odd base sh0 m0 sh1 m1 inp w buf old c :
  rd inp (2 * Z.of_nat (length w) + 1) = Val c ->
  decode_body base sh0 m0 sh1 m1 inp (2 * Z.of_nat (length w) + 1) (over (w ++ [old]) buf)
  = Val (over (w ++ [u8 (Z.lor old (Z.land (Z.shiftl
           (if schar c <? base then schar c - 48 else schar c - base + 10) sh1) m1))]) buf).
Proof.
  intros R. unfold decode_body. cbv zeta.
  replace (Z.shiftr (2 * Z.of_nat (length w) + 1) 1) with (Z.of_nat (length w))
    by (rewrite Z.shiftr_div_pow2 by lia; change (2 ^ 1) with 2; dlia).
  replace (Z.land (2 * Z.of_nat (length w) + 1) 1) with 1.
  2:{ change (Z.land (2 * Z.of_nat (length w) + 1) 1) with (Z.land (2 * Z.of_nat (length w) + 1) (Z.ones 1)).
      rewrite Z.land_ones by lia. change (2 ^ 1) with 2. dlia. }
  change (1 =? 0) with false. cbn [mbind outcome_bind]. rewrite R. cbn [mbind outcome_bind].
  by rewrite or_nibble_last.
Qed.

Lemma decode_body_spec base sh0 m0 sh1 m1 (enc : Z -> bytes) x t buf :
  (forall b, is_byte b -> exists c0 c1, enc b = [c0; c1] /\ joined base sh0 m0 sh1 m1 c0 c1 = b) ->
  Forall is_byte x -> (length x <= length buf)%nat ->
  forN (2 * length x) 0 (decode_body base sh0 m0 sh1 m1 (flat_map enc x ++ t)) buf = Val (over x buf).
Proof.
  intros Henc Hx Hlen.
  assert (forall pre, Forall is_byte pre -> length (flat_map enc pre) = (2 * length pre)%nat) as Hel.
  { induction 1 as [|b pre Hb _ IH]; simpl; [done|]. destruct (Henc b Hb) as (c0 & c1 & E & _).
    rewrite length_app, IH, E. simpl. lia. }
  assert (forall y pre, x = pre ++ y ->
    forN (2 * length y) (2 * Z.of_nat (length pre)) (decode_body base sh0 m0 sh1 m1 (flat_map enc x ++ t))
      (over pre buf) = Val (over x buf)) as G.
  2:{ specialize (G x [] eq_refl). rewrite over_nil in G. exact G. }
  induction y as [|b y IH]; intros pre Ex.
  { rewrite app_nil_r in Ex. subst. done. }
  specialize (IH (pre ++ [b])). rewrite <- app_assoc in IH. specialize (IH Ex).
  pose proof Hx as Hx'. rewrite Ex, Forall_app, Forall_cons in Hx'. destruct Hx' as (Hpre & Hb & _).
  destruct (Henc b Hb) as (c0 & c1 & Eb & Ej).
  replace (2 * length (b :: y))%nat with (S (S (2 * length y))) by (simpl; lia). cbn [forN].
  set (inp := flat_map enc x ++ t) in *.
  assert (forall k, rd inp (2 * Z.of_nat (length pre) + Z.of_nat k)
                    = match ([c0; c1] ++ flat_map enc y ++ t) !! k with Some v => Val v | None => Undef end) as Hrd.
  { intros k. unfold inp. rewrite Ex, flat_map_app. simpl. rewrite Eb.
    replace (2 * Z.of_nat (length pre) + Z.of_nat k) with (Z.of_nat (2 * length pre + k)) by lia.
    rewrite rd_nat. rewrite <- app_assoc. rewrite lookup_app_r by (rewrite Hel by done; lia).
    rewrite Hel by done. replace (2 * length pre + k - 2 * length pre)%nat with k by lia. done. }
  pose proof (Hrd 0%nat) as R0. pose proof (Hrd 1%nat) as R1. simpl in R0, R1. rewrite Z.add_0_r in R0.
  assert (length pre < length buf)%nat by (rewrite Ex, length_app in Hlen; simpl in Hlen; lia).
  rewrite (decode_body_even _ _ _ _ _ _ pre buf c0) by done. cbn [mbind outcome_bind].
  rewrite (decode_body_odd _ _ _ _ _ _ pre buf _ c1) by done. cbn [mbind outcome_bind].
  unfold joined in Ej. rewrite Ej.
  rewrite <- IH. f_equal. rewrite length_app. simpl. lia.
Qed.

(** ** Lemmas: binary search *)

(** [r] splits the array into what is below the key and what is not. *)
Definition splits (a : list Z) (key r : Z) : Prop :=
  0 <= r <= Z.of_nat (length a)
  /\ (forall i x, Z.of_nat i < r -> a !! i = Some x -> x < key)
  /\ (forall i x, r <= Z.of_nat i -> a !! i = Some x -> key <= x).

Lemma bSearch_loop_spec fuel a key l h :
  sorted a -> 0 <= l -> h < Z.of_nat (length a) -> l <= h + 1 -> h - l + 1 <= Z.of_nat fuel ->
  (forall i x, Z.of_nat i < l -> a !! i = Some x -> x < key) ->
  (forall i x, h < Z.of_nat i -> a !! i = Some x -> key <= x) ->
  exists r, bSearch_loop fuel a key l h = Val r /\ splits a key r.
Proof.
  intros Hs. revert l h. induction fuel as [|fuel IH]; intros l h Hl Hh Hlh Hf Hlo Hhi; cbn [bSearch_loop];
    destruct (Z.leb_spec l h); try lia.
  1,3: exists l; repeat split; [lia|lia|exact Hlo|intros i x Hi; apply Hhi; lia].
  assert (0 <= Z.shiftr (h - l) 1 <= h - l) as Hmid.
  { rewrite Z.shiftr_div_pow2 by lia. change (2 ^ 1) with 2. dlia. }
  set (mid := l + Z.shiftr (h - l) 1) in *.
  destruct (lookup_lt_is_Some_2 a (Z.to_nat mid)) as [x Ex]; [lia|].
  rewrite (rd_Some a mid x) by (lia || done). cbn [mbind outcome_bind].
  destruct (Z.leb_spec key x); apply IH; try lia; try done.
  - intros i y Hi Ey. apply (Hs (Z.to_nat mid) i x y) in Ex; [lia|done|lia].
  - intros i y Hi Ey. apply (Hs i (Z.to_nat mid) y x) in Ey; [lia|done|lia].
Qed.

Lemma bSearch_splits a key :
  sorted a -> exists r, splits a key r /\
    bSearch a (Z.of_nat (length a)) key
    = if r <? Z.of_nat (length a) then x ← rd a r; Val (if x =? key then r else -1) else Val (-1).
Proof.
  intros Hs. unfold bSearch. rewrite Nat2Z.id.
  destruct (bSearch_loop_spec (S (length a)) a key 0 (Z.of_nat (length a) - 1) Hs)
    as (r & E & Hr); try lia.
  { intros i x Hi Ex. apply lookup_lt_Some in Ex. lia. }
  exists r. split; [done|]. rewrite E. cbn [mbind outcome_bind].
  destruct Hr as (Hr & _). destruct (Z.leb_spec 0 r); [done|lia].
Qed.

(** ** Lemmas: exchanging and reversing *)

Lemma lxor_swap a b : Z.lxor b (Z.lxor a b) = a /\ Z.lxor (Z.lxor a b) a = b.
Proof.
  split; apply Z.bits_inj'; intros n _; rewrite !Z.lxor_spec;
    by destruct (Z.testbit a n), (Z.testbit b n).
Qed.

Lemma rd_mid (a : list Z) x c i : i = Z.of_nat (length a) -> rd (a ++ x :: c) i = Val x.
Proof. intros ->. rewrite rd_nat, lookup_app_r by lia. by rewrite Nat.sub_diag. Qed.

Lemma wr_mid (a : list Z) x y c i : i = Z.of_nat (length a) -> wr (a ++ x :: c) i y = Val (a ++ y :: c).
Proof.
  intros ->. rewrite wr_in by (rewrite length_app; simpl; lia).
  rewrite Nat2Z.id, insert_app_r_alt by lia. by rewrite Nat.sub_diag.
Qed.

Lemma xor_swap_spec (a m c : list Z) x y i j :
  i = Z.of_nat (length a) -> j = i + 1 + Z.of_nat (length m) ->
  xor_swap (a ++ x :: m ++ y :: c) i j = Val (a ++ y :: m ++ x :: c)
  /\ xor_swap (a ++ x :: m ++ y :: c) j i = Val (a ++ y :: m ++ x :: c).
Proof.
  intros Hi Hj.
  assert (forall v w, rd (a ++ v :: m ++ w :: c) i = Val v) as Ri by (intros; by apply rd_mid).
  assert (forall v w, rd (a ++ v :: m ++ w :: c) j = Val w) as Rj.
  { intros. change (a ++ v :: m ++ w :: c) with (a ++ (v :: m) ++ w :: c). rewrite app_assoc.
    apply rd_mid. rewrite length_app. simpl. lia. }
  assert (forall v w u, wr (a ++ v :: m ++ w :: c) i u = Val (a ++ u :: m ++ w :: c)) as Wi
    by (intros; by apply wr_mid).
  assert (forall v w u, wr (a ++ v :: m ++ w :: c) j u = Val (a ++ v :: m ++ u :: c)) as Wj.
  { intros. change (a ++ v :: m ++ w :: c) with (a ++ (v :: m) ++ w :: c).
    change (a ++ v :: m ++ u :: c) with (a ++ (v :: m) ++ u :: c). rewrite !app_assoc.
    apply wr_mid. rewrite length_app. simpl. lia. }
  destruct (lxor_swap x y) as [E1 E2]. destruct (lxor_swap y x) as [E3 E4].
  split; unfold xor_swap, xor_assign;
    repeat (rewrite ?Ri, ?Rj, ?Wi, ?Wj; cbn [mbind outcome_bind]); rewrite ?E1, ?E2, ?E3, ?E4; done.
Qed.

Lemma reverse_loop_spec fuel (a m c : list Z) :
  (length m <= 2 * fuel + 1)%nat ->
  reverse_loop fuel (a ++ m ++ c) (Z.of_nat (length a)) (Z.of_nat (length a) + Z.of_nat (length m) - 1)
  = Val (a ++ rev m ++ c).
Proof.
  revert a m c. induction fuel as [|fuel IH]; intros a m c Hf; destruct m as [|x m]; cbn [reverse_loop].
  1,3: destruct (Z.ltb_spec (Z.of_nat (length a)) (Z.of_nat (length a) + Z.of_nat (@length Z []) - 1));
       [simpl in *; lia|done].
  - destruct m; [|simpl in Hf; lia].
    destruct (Z.ltb_spec (Z.of_nat (length a)) (Z.of_nat (length a) + Z.of_nat (length [x]) - 1)); [simpl in *; lia|done].
  - destruct m as [|y m _] using rev_ind.
    { destruct (Z.ltb_spec (Z.of_nat (length a)) (Z.of_nat (length a) + Z.of_nat (length [x]) - 1)); [simpl in *; lia|done]. }
    assert (length (x :: m ++ [y]) = S (S (length m))) as El by (simpl; rewrite length_app; simpl; lia).
    rewrite El in *. destruct (Z.ltb_spec (Z.of_nat (length a)) (Z.of_nat (length a) + Z.of_nat (S (S (length m))) - 1)); [|lia].
    change ((x :: m ++ [y]) ++ c) with (x :: (m ++ [y]) ++ c). rewrite <- (app_assoc m [y] c). cbn [app].
    destruct (xor_swap_spec a m c x y (Z.of_nat (length a))
      (Z.of_nat (length a) + Z.of_nat (S (S (length m))) - 1)) as [Ex _]; [done|lia|].
    rewrite Ex. cbn [mbind outcome_bind].
    specialize (IH (a ++ [y]) m (x :: c) ltac:(lia)). rewrite <- !app_assoc in IH. cbn [app] in IH.
    replace (Z.of_nat (length a) + 1) with (Z.of_nat (length (a ++ [y]))) by (rewrite length_app; simpl; lia).
    replace (Z.of_nat (length a) + Z.of_nat (S (S (length m))) - 1 - 1)
      with (Z.of_nat (length (a ++ [y])) + Z.of_nat (length m) - 1) by (rewrite length_app; simpl; lia).
    rewrite IH. cbn [rev]. rewrite rev_app_distr. cbn [rev app]. rewrite <- !app_assoc. done.
Qed.

(** ** Lemmas: readable text *)

Lemma view16_bytes16 x :
  Forall is_byte x -> Nat.Even (length x) -> bytes16 (view16 x) = x.
Proof.
  intros Hx [n Hn]. revert x Hx Hn. induction n as [|n IH]; intros x Hx Hn.
  - by destruct x.
  - destruct x as [|a [|b x]]; [simpl in Hn; lia..|]. rewrite !Forall_cons in Hx.
    destruct Hx as (Ha & Hb & Hx). unfold is_byte in *. cbn [view16 bytes16].
    rewrite IH by (try done; simpl in Hn; lia). f_equal; [dlia|f_equal; dlia].
Qed.

(** The letter pairs of a [toHex] text, as 16 bit words. *)
Definition word_of (hm : bytes) (b : Z) : Z := nib hm (Z.land b 15) + 256 * nib hm (Z.shiftr b 4).

Lemma view16_hex_text hm x : view16 (hex_text hm x) = map (word_of hm) x.
Proof. unfold hex_text. induction x as [|b x IH]; [done|]. cbn [flat_map app view16 map]. by rewrite IH. Qed.

Lemma bytes16_words hm x :
  (forall d, is_byte (nib hm d)) -> bytes16 (map (word_of hm) x) = hex_text hm x.
Proof.
  intros Hm. unfold hex_text. induction x as [|b x IH]; [done|]. cbn [map bytes16 flat_map app]. rewrite IH.
  pose proof (Hm (Z.land b 15)) as H1. pose proof (Hm (Z.shiftr b 4)) as H2. unfold word_of, is_byte in *.
  f_equal; [dlia|f_equal; dlia].
Qed.

Lemma swap_nibbles_spec hm x t :
  swap_nibbles (length x) (hex_text hm x ++ t) = Val (hex_readable hm x ++ t).
Proof.
  revert t. induction x as [|b x IH] using rev_ind; intros t; [done|].
  rewrite length_app. cbn [length]. rewrite Nat.add_1_r. cbn [swap_nibbles]. cbv zeta.
  rewrite hex_text_app. unfold hex_text at 2. cbn [flat_map app]. rewrite <- app_assoc. cbn [app].
  destruct (xor_swap_spec (hex_text hm x) [] t (nib hm (Z.land b 15)) (nib hm (Z.shiftr b 4))
    (2 * Z.of_nat (length x)) (2 * Z.of_nat (length x) + 1)) as [_ E];
    [rewrite length_hex_text; lia|simpl; lia|].
  cbn [app] in E. replace (2 * Z.of_nat (length x) + 1 - 1) with (2 * Z.of_nat (length x)) by lia.
  rewrite E. cbn [mbind outcome_bind].
  rewrite IH. unfold hex_readable. rewrite flat_map_app. cbn [flat_map app]. rewrite <- app_assoc. done.
Qed.

Lemma nib_upper_byte d : is_byte (nib hexMap_upper d).
Proof.
  unfold nib. destruct (nth_in_or_default (Z.to_nat d) hexMap_upper 0) as [H|H]; [|rewrite H; unfold is_byte; lia].
  assert (Forall is_byte hexMap_upper) as Hf by (repeat constructor; vm_compute; congruence).
  rewrite List.Forall_forall in Hf. by apply Hf.
Qed.

Lemma length_hex_readable hm x : length (hex_readable hm x) = (2 * length x)%nat.
Proof. unfold hex_readable. induction x as [|b x IH]; cbn [flat_map app length]; [done|]. rewrite IH. lia. Qed.

Lemma length_view16 b n : length b = (2 * n)%nat -> length (view16 b) = n.
Proof.
  revert b. induction n as [|n IH]; intros b Hn; [by destruct b|].
  destruct b as [|? [|? b]]; [simpl in Hn; lia..|]. cbn [view16 length]. rewrite IH; [done|simpl in Hn; lia].
Qed.

(** Copying the words backwards. *)
Lemma copy_reversed (inp out : list Z) n :
  length inp = n -> length out = n ->
  forN n 0 (fun i out => x ← rd inp i; wr out (Z.of_nat n - 1 - i) x) out = Val (rev inp).
Proof.
  intros Hi Ho.
  edestruct (forN_spec (fun k o => o = take (n - Z.to_nat k) out ++ rev (take (Z.to_nat k) inp)) n 0)
    as (s' & E & Hs').
  3:{ rewrite E, Hs', Z.add_0_l, Nat2Z.id, Nat.sub_diag, (take_ge inp) by lia. done. }
  - cbn [Z.to_nat take rev]. rewrite app_nil_r, take_ge by lia. done.
  - intros k s Hk ->. destruct (lookup_lt_is_Some_2 inp (Z.to_nat k)) as [w Ek]; [lia|].
    rewrite (rd_Some inp k w) by (lia || done). cbn [mbind outcome_bind].
    destruct (lookup_lt_is_Some_2 out (n - Z.to_nat (k + 1))) as [v Ev]; [lia|].
    replace (n - Z.to_nat k)%nat with (S (n - Z.to_nat (k + 1))) by lia.
    rewrite (take_S_r _ _ _ Ev), <- app_assoc. cbn [app]. rewrite wr_mid by (rewrite length_take; lia).
    eexists. split; [done|]. rewrite (take_Z_S inp k w) by (lia || done). by rewrite rev_app_distr.
Qed.

Lemma toHex_exact x buf :
  Forall is_byte x -> (length buf = 2 * length x + 1)%nat ->
  toHex x (Z.of_nat (length x)) buf = Val (hex_text hexMap_upper x ++ [0]).
Proof.
  intros Hx Hb. unfold toHex. rewrite toHex_with_spec by (done || lia).
  rewrite over_full; [done|]. rewrite length_app, length_hex_text. simpl. lia.
Qed.

Lemma split_hex_text x (t : bytes) :
  take (Z.to_nat (2 * Z.of_nat (length x))) (hex_text hexMap_upper x ++ t) = hex_text hexMap_upper x
  /\ drop (Z.to_nat (2 * Z.of_nat (length x))) (hex_text hexMap_upper x ++ t) = t.
Proof.
  replace (Z.to_nat (2 * Z.of_nat (length x))) with (length (hex_text hexMap_upper x))
    by (rewrite length_hex_text; lia).
  by rewrite take_app_length, drop_app_length.
Qed.

Lemma toHexReadable_text x buf :
  Forall is_byte x -> (length buf = 2 * length x + 1)%nat ->
  toHexReadable x (Z.of_nat (length x)) buf = Val (hex_readable hexMap_upper (rev x) ++ [0]).
Proof.
  intros Hx Hb. unfold toHexReadable. rewrite toHex_exact by done. cbn [mbind outcome_bind].
  destruct (split_hex_text x [0]) as [-> ->]. rewrite view16_hex_text, Nat2Z.id.
  pose proof (reverse_loop_spec (length x) [] (map (word_of hexMap_upper) x) []
    ltac:(rewrite length_map; lia)) as E.
  rewrite !app_nil_r, length_map in E. cbn [length app] in E. change (Z.of_nat 0) with 0 in E. rewrite Z.add_0_l in E.
  rewrite E. cbn [mbind outcome_bind].
  rewrite <- map_rev, bytes16_words by apply nib_upper_byte.
  rewrite <- length_rev. apply swap_nibbles_spec.
Qed.

Lemma hexToReadable_text x buf :
  Forall is_byte x -> (length buf = 2 * length x + 1)%nat ->
  hexToReadable (hex_text hexMap_upper x ++ [0]) (2 * Z.of_nat (length x)) buf
  = Val (hex_readable hexMap_upper (rev x) ++ [0]).
Proof.
  intros Hx Hb. unfold hexToReadable.
  replace (Z.shiftr (2 * Z.of_nat (length x)) 1) with (Z.of_nat (length x))
    by (rewrite Z.shiftr_div_pow2 by lia; change (2 ^ 1) with 2; dlia). cbv zeta.
  destruct (split_hex_text x [0]) as [-> _]. rewrite view16_hex_text, Nat2Z.id.
  replace (Z.to_nat (2 * Z.of_nat (length x))) with (2 * length x)%nat by lia.
  rewrite copy_reversed by (rewrite ?length_map; try apply length_view16; rewrite ?length_take; lia).
  cbn [mbind outcome_bind]. rewrite <- map_rev, bytes16_words by apply nib_upper_byte.
  rewrite <- (length_rev x) at 1. rewrite swap_nibbles_spec. cbn [mbind outcome_bind].
  destruct (drop (2 * length x) buf) as [|v [|]] eqn:Ed;
    apply (f_equal length) in Ed; rewrite length_drop in Ed; simpl in Ed; try lia.
  rewrite wr_mid; [done|]. rewrite length_hex_readable, length_rev, Z.shiftl_mul_pow2 by lia. lia.
Qed.

(** ** Lemmas: the cookie cipher *)

Definition cookie_letters (i b : Z) : bytes :=
  [nth (Z.to_nat (Z.land b 15)) (row cypherMap (2 * i)) 0;
   nth (Z.to_nat (Z.shiftr b 4)) (row cypherMap (2 * i + 1)) 0].
Definition cookie_text (x : bytes) : bytes := concat (imap (fun i b => cookie_letters (Z.of_nat i) b) x).

Lemma cookie_text_snoc x b : cookie_text (x ++ [b]) = cookie_text x ++ cookie_letters (Z.of_nat (length x)) b.
Proof. unfold cookie_text. rewrite imap_app, concat_app. simpl. by rewrite Nat.add_0_r. Qed.

Lemma length_cookie_text x : length (cookie_text x) = (2 * length x)%nat.
Proof.
  induction x as [|b x IH] using rev_ind; [done|]. rewrite cookie_text_snoc, !length_app, IH. simpl. lia.
Qed.

Lemma row_cases j : exists r, In r [0; 1; 2; 3] /\ Z.land j 3 = r.
Proof.
  exists (Z.land j 3). split; [|done]. pose proof (Z.land_ones j 2 ltac:(lia)) as E.
  change (Z.ones 2) with 3 in E. rewrite E.
  pose proof (Z.mod_pos_bound j (2 ^ 2) ltac:(lia)). cbn [In]. lia.
Qed.

Lemma length_row j : length (row cypherMap j) = 16%nat.
Proof. unfold row. destruct (row_cases j) as (r & Hr & ->). simpl in Hr. by decompose [or False] Hr; subst. Qed.

(** Each letter of a row of [cypherMap] is found in the sorted row, and the position
    table gives its nibble back. *)
Lemma cookie_letter j d :
  0 <= d < 16 ->
  exists idx, bSearch (row cypherSortMap j) 16 (schar (nth (Z.to_nat d) (row cypherMap j) 0)) = Val idx
    /\ (idx <? 0) || (15 <? idx) = false /\ rd (row cypherPosMap j) idx = Val d.
Proof.
  intros Hd. unfold row. destruct (row_cases j) as (r & Hr & ->).
  by_table 16%nat (fun d => forallb (fun r => let k := Z.to_nat r in
     match bSearch (nth k cypherSortMap []) 16 (schar (nth (Z.to_nat d) (nth k cypherMap []) 0)) with
     | Val idx => negb ((idx <? 0) || (15 <? idx))
                  && match rd (nth k cypherPosMap []) idx with Val p => p =? d | _ => false end
     | _ => false end) [0; 1; 2; 3]).
  specialize (H d ltac:(simpl; lia)). rewrite forallb_forall in H. specialize (H r Hr).
  cbv beta zeta in H. destruct (bSearch _ _ _) as [idx| |]; [|done..].
  exists idx. rewrite andb_true_iff, negb_true_iff in H. destruct H as [-> H].
  destruct (rd _ idx) as [p| |]; [|done..]. apply Z.eqb_eq in H as ->. done.
Qed.

Lemma cookiesEncode_spec x buf :
  Forall is_byte x -> (length x <= 8)%nat -> (2 * length x <= length buf)%nat ->
  cookiesEncode x (Z.of_nat (length x)) buf = Val (over (cookie_text x) buf).
Proof.
  intros Hx Hl Hbuf. unfold cookiesEncode. destruct (Z.ltb_spec 8 (Z.of_nat (length x))); [lia|].
  rewrite Nat2Z.id.
  edestruct (forN_spec (fun k s => s = over (cookie_text (take (Z.to_nat k) x)) buf) (length x) 0)
    as (s' & E & Hs').
  3:{ rewrite E, Hs', Z.add_0_l, Nat2Z.id, take_ge by lia. done. }
  - change (cookie_text (take (Z.to_nat 0) x)) with (@nil Z). by rewrite over_nil.
  - intros k s Hk ->. destruct (byte_at x k Hx ltac:(lia)) as (b & Eb & Hb & Er).
    destruct (nibbles b Hb) as [Hlo Hhi]. rewrite Er. cbn [mbind outcome_bind].
    rewrite (rd_nth _ (Z.land b 15) 0), (rd_nth _ (Z.shiftr b 4) 0) by (rewrite length_row; lia).
    cbn [mbind outcome_bind].
    assert (length (take (Z.to_nat k) x) = Z.to_nat k) as Ek by (rewrite length_take; lia).
    pose proof (length_cookie_text (take (Z.to_nat k) x)) as El. rewrite Ek in El.
    rewrite wr_over by lia. cbn [mbind outcome_bind].
    rewrite wr_over by (rewrite length_app; cbn [length]; lia).
    eexists; split; [done|]. rewrite (take_Z_S x k b) by (lia || done).
    rewrite cookie_text_snoc, Ek, Z2Nat.id by lia. unfold cookie_letters. by rewrite <- app_assoc.
Qed.

Lemma parity_2 i : Z.land (2 * i) 1 = 0 /\ Z.land (2 * i + 1) 1 = 1
  /\ Z.shiftr (2 * i) 1 = i /\ Z.shiftr (2 * i + 1) 1 = i.
Proof.
  pose proof (Z.land_ones (2 * i) 1 ltac:(lia)) as E0. pose proof (Z.land_ones (2 * i + 1) 1 ltac:(lia)) as E1.
  change (Z.ones 1) with 1 in *. change (2 ^ 1) with 2 in *.
  rewrite E0, E1, !Z.shiftr_div_pow2 by lia. change (2 ^ 1) with 2. repeat split; dlia.
Qed.

Lemma join_nibbles b :
  is_byte b ->
  u8 (Z.lor (u8 (Z.lor 0 (Z.land (Z.shiftl (Z.land b 15) 0) 0x0F)))
        (Z.land (Z.shiftl (Z.shiftr b 4) 4) 0xF0)) = b.
Proof.
  intros Hb.
  by_table 256%nat (fun b => u8 (Z.lor (u8 (Z.lor 0 (Z.land (Z.shiftl (Z.land b 15) 0) 0x0F)))
        (Z.land (Z.shiftl (Z.shiftr b 4) 4) 0xF0)) =? b).
  apply Z.eqb_eq, H, Hb.
Qed.

Lemma cookiesDecode_pair n i inp a t b c0 c1 :
  i = Z.of_nat (length a) -> is_byte b -> cookie_letters i b = [c0; c1] ->
  rd inp (2 * i) = Val c0 -> rd inp (2 * i + 1) = Val c1 ->
  cookiesDecode_loop (S (S n)) (2 * i) inp (a ++ 0 :: t)
  = cookiesDecode_loop n (2 * (i + 1)) inp (a ++ b :: t).
Proof.
  intros Hi Hb [= E0 E1] R0 R1. destruct (nibbles b Hb) as [Hlo Hhi].
  destruct (parity_2 i) as (P0 & P1 & S0 & S1).
  destruct (cookie_letter (2 * i) _ Hlo) as (i0 & B0 & C0 & D0).
  destruct (cookie_letter (2 * i + 1) _ Hhi) as (i1 & B1 & C1 & D1).
  rewrite E0 in B0. rewrite E1 in B1. cbn [cookiesDecode_loop]. cbv zeta.
  rewrite R0. cbn [mbind outcome_bind]. rewrite B0. cbn [mbind outcome_bind]. rewrite C0, D0, P0, S0.
  cbn [mbind outcome_bind]. rewrite rd_mid by done. cbn [mbind outcome_bind]. rewrite wr_mid by done.
  cbn [mbind outcome_bind]. rewrite R1. cbn [mbind outcome_bind]. rewrite B1. cbn [mbind outcome_bind].
  rewrite C1, D1, P1, S1. cbn [mbind outcome_bind]. rewrite rd_mid by done. cbn [mbind outcome_bind].
  rewrite wr_mid by done. cbn [mbind outcome_bind]. change (1 =? 0) with false. rewrite Z.eqb_refl.
  cbv iota. rewrite join_nibbles by done. f_equal. lia.
Qed.

Lemma cookiesDecode_loop_spec x t rest :
  Forall is_byte x ->
  cookiesDecode_loop (2 * length x) 0 (cookie_text x ++ t) (replicate (length x) 0 ++ rest)
  = Val (Some (x ++ rest)).
Proof.
  intros Hx.
  assert (forall y pre, x = pre ++ y ->
    cookiesDecode_loop (2 * length y) (2 * Z.of_nat (length pre)) (cookie_text x ++ t)
      (pre ++ replicate (length y) 0 ++ rest) = Val (Some (x ++ rest))) as G; [|by apply (G x [])].
  induction y as [|b y IH]; intros pre Ex.
  { rewrite app_nil_r in Ex. subst. done. }
  pose proof Hx as Hx'. rewrite Ex, Forall_app, Forall_cons in Hx'. destruct Hx' as (_ & Hb & _).
  specialize (IH (pre ++ [b])). rewrite <- !app_assoc in IH. specialize (IH Ex).
  replace (2 * length (b :: y))%nat with (S (S (2 * length y))) by (simpl; lia).
  assert (exists u, cookie_text x ++ t = cookie_text pre ++ cookie_letters (Z.of_nat (length pre)) b ++ u)
    as [u Eu].
  { rewrite Ex. unfold cookie_text. rewrite imap_app, concat_app. simpl. rewrite Nat.add_0_r.
    eexists. rewrite <- !app_assoc. cbn [app]. done. }
  pose proof (length_cookie_text pre) as El.
  cbn [replicate app length]. rewrite (cookiesDecode_pair _ (Z.of_nat (length pre)) _ _ _ b
    (nth (Z.to_nat (Z.land b 15)) (row cypherMap (2 * Z.of_nat (length pre))) 0)
    (nth (Z.to_nat (Z.shiftr b 4)) (row cypherMap (2 * Z.of_nat (length pre) + 1)) 0)); [|done..| |].
  - rewrite <- IH. f_equal. rewrite length_app. simpl. lia.
  - rewrite Eu. unfold cookie_letters. cbn [app]. apply rd_mid. lia.
  - rewrite Eu. unfold cookie_letters. cbn [app].
    rewrite (cons_middle _ (cookie_text pre)), app_assoc. apply rd_mid. rewrite length_app. simpl. lia.
Qed.

Lemma length_le_bytes n v : length (le_bytes n v) = n.
Proof. revert v. induction n; intros; simpl; congruence. Qed.

Lemma le_bytes_bytes n v : Forall is_byte (le_bytes n v).
Proof. revert v. induction n; intros; simpl; constructor; [unfold is_byte; dlia|done]. Qed.

Lemma cookie_words_ok now rnd : Forall is_byte (cookie_words now rnd) /\ length (cookie_words now rnd) = 8%nat.
Proof.
  unfold cookie_words. rewrite Forall_app, length_app, !length_le_bytes.
  split_and!; [apply le_bytes_bytes..|done].
Qed.

(** ** A base64 codec that satisfies the laws

    The standard encoding without line breaks, three bytes at a time. *)

Definition b64_alphabet : bytes :=
  str "ABCDEFGHIJKLMNOPQRSTUVWXYZabcdefghijklmnopqrstuvwxyz0123456789+/".
Definition sextet (n : Z) : Z := nth (Z.to_nat n) b64_alphabet 0.
Definition unsextet (c : Z) : Z := match find b64_alphabet [c] 0 with Some i => Z.of_nat i | None => 0 end.

Fixpoint b64_enc (x : bytes) : bytes :=
  match x with
  | a :: b :: c :: x' =>
    sextet (a / 4) :: sextet (a mod 4 * 16 + b / 16) :: sextet (b mod 16 * 4 + c / 64) :: sextet (c mod 64)
      :: b64_enc x'
  | [a; b] => [sextet (a / 4); sextet (a mod 4 * 16 + b / 16); sextet (b mod 16 * 4); ch "="]
  | [a] => [sextet (a / 4); sextet (a mod 4 * 16); ch "="; ch "="]
  | [] => []
  end.

Fixpoint b64_dec (s : bytes) : bytes :=
  match s with
  | p :: q :: r :: t :: s' =>
    let a := unsextet p * 4 + unsextet q / 16 in
    let b := unsextet q mod 16 * 16 + unsextet r / 4 in
    let c := unsextet r mod 4 * 64 + unsextet t in
    if r =? ch "=" then [a] else if t =? ch "=" then [a; b] else a :: b :: c :: b64_dec s'
  | _ => []
  end.

Definition base64_reference : Base64 := {| b64_encode := b64_enc; b64_decode s := Some (b64_dec s) |}.

Lemma sextet_facts n :
  0 <= n < 64 -> unsextet (sextet n) = n /\ sextet n =? ch "=" = false /\ b64_letter (sextet n) = true.
Proof.
  intros Hn. by_table 64%nat (fun n => (unsextet (sextet n) =? n) && negb (sextet n =? ch "=") && b64_letter (sextet n)).
  specialize (H n Hn). rewrite !andb_true_iff, negb_true_iff, Z.eqb_eq in H. tauto.
Qed.

Lemma base64_reference_laws : Base64Laws base64_reference.
Proof.
  assert (forall n x, (length x <= n)%nat -> Forall is_byte x ->
    b64_dec (b64_enc x) = x /\ Forall (fun c => b64_letter c = true) (b64_enc x)) as G.
  { induction n as [|n IH]; intros x Hl Hx.
    { destruct x; [split; [done|constructor]|simpl in Hl; lia]. }
    unfold is_byte in Hx.
    destruct x as [|a [|b [|c x]]]; [split; [done|constructor]|..]; rewrite ?Forall_cons in Hx;
      cbn [b64_enc b64_dec].
    - destruct (sextet_facts (a / 4)) as (-> & _ & L0); [dlia|].
      destruct (sextet_facts (a mod 4 * 16)) as (-> & _ & L1); [dlia|].
      rewrite Z.eqb_refl. split; [f_equal; dlia|]. repeat constructor; done.
    - destruct (sextet_facts (a / 4)) as (-> & _ & L0); [dlia|].
      destruct (sextet_facts (a mod 4 * 16 + b / 16)) as (-> & _ & L1); [dlia|].
      destruct (sextet_facts (b mod 16 * 4)) as (-> & -> & L2); [dlia|].
      rewrite Z.eqb_refl. split; [f_equal; [dlia|f_equal; dlia]|]. repeat constructor; done.
    - destruct (sextet_facts (a / 4)) as (-> & _ & L0); [dlia|].
      destruct (sextet_facts (a mod 4 * 16 + b / 16)) as (-> & _ & L1); [dlia|].
      destruct (sextet_facts (b mod 16 * 4 + c / 64)) as (-> & -> & L2); [dlia|].
      destruct (sextet_facts (c mod 64)) as (-> & -> & L3); [dlia|].
      destruct (IH x) as [-> L]; [simpl in Hl; lia|tauto|].
      split; [f_equal; [dlia|f_equal; [dlia|f_equal; dlia]]|]. by repeat constructor. }
  constructor.
  - intros x Hx. simpl. f_equal. by apply (G (length x)).
  - intros x Hx. simpl. by apply (G (length x)).
  - intros [|a [|b [|c x]]]; done.
Qed.

(** ** Theorems *)

(** [fromHex] inverts [toHex]: a string of bytes converted to text and back is written
    unchanged over the start of the result buffer. *)
Theorem fromHex_toHex x buf out :
  Forall is_byte x -> (2 * length x < length buf)%nat -> (length x <= length out)%nat ->
  exists text, toHex x (Z.of_nat (length x)) buf = Val text
    /\ fromHex text (2 * Z.of_nat (length x)) out = Val (over x out).
Proof.
  intros Hx Hb Ho. exists (over (hex_text hexMap_upper x ++ [0]) buf). split.
  - by apply toHex_with_spec.
  - unfold over at 1. rewrite <- app_assoc. unfold fromHex, hex_text.
    replace (Z.to_nat (2 * Z.of_nat (length x))) with (2 * length x)%nat by lia.
    apply (decode_body_spec (ch "A") 0 0x0F 4 0xF0); [|done..].
    intros b Hb'. do 2 eexists. split; [done|]. apply Z.eqb_eq.
    by_table 256%nat (fun b => joined (ch "A") 0 0x0F 4 0xF0 (nib hexMap_upper (Z.land b 15))
                                 (nib hexMap_upper (Z.shiftr b 4)) =? b).
    apply H, Hb'.
Qed.

Lemma fromHex_toHex_witness :
  exists text, toHex [1; 171; 255] 3 (replicate 7 0) = Val text
    /\ fromHex text 6 [0; 0; 0] = Val [1; 171; 255].
Proof.
  apply (fromHex_toHex [1; 171; 255] (replicate 7 0) [0; 0; 0]).
  - repeat constructor; vm_compute; congruence.
  - simpl. lia.
  - simpl. lia.
Defined.

(** [toHexReadable] exchanges the digits in place by XOR and leaves the conventional
    text: bytes from the highest address down, high nibble first; [hexToReadable] on
    the output of [toHex] computes the same text. *)
Theorem toHexReadable_spec x buf buf' :
  Forall is_byte x -> (length buf = 2 * length x + 1)%nat -> length buf' = length buf ->
  toHexReadable x (Z.of_nat (length x)) buf = Val (hex_readable hexMap_upper (rev x) ++ [0])
  /\ (text ← toHex x (Z.of_nat (length x)) buf;
      hexToReadable text (2 * Z.of_nat (length x)) buf') = Val (hex_readable hexMap_upper (rev x) ++ [0]).
Proof.
  intros Hx Hb Hb'. split; [by apply toHexReadable_text|].
  rewrite toHex_exact by done. apply hexToReadable_text; [done|lia].
Qed.

Lemma toHexReadable_spec_witness :
  toHexReadable [239; 190; 173] 3 (replicate 7 0) = Val (str "ADBEEF" ++ [0]).
Proof.
  apply (toHexReadable_spec [239; 190; 173] (replicate 7 0) (replicate 7 0)).
  - repeat constructor; vm_compute; congruence.
  - reflexivity.
  - reflexivity.
Defined.

(** [fromLittleEndiumHex] inverts the readable text of a byte string, in upper or lower
    case, and reports its size. *)
Theorem fromLittleEndiumHex_spec (capital : bool) x t out outSize :
  Forall is_byte x -> (length x <= length out)%nat -> Z.of_nat (length x) <= outSize ->
  fromLittleEndiumHex (hex_readable (if capital then hexMap_upper else hexMap_lower) x ++ t)
    (2 * Z.of_nat (length x)) out outSize capital
  = Val (over x out, Z.of_nat (length x)).
Proof.
  intros Hx Ho Hs. unfold fromLittleEndiumHex. destruct (parity_2 (Z.of_nat (length x))) as (P & _ & S & _).
  rewrite P, S, Z.eqb_refl. destruct (Z.leb_spec (Z.of_nat (length x)) outSize); [|lia].
  cbn [check mbind outcome_bind].
  replace (Z.to_nat (2 * Z.of_nat (length x))) with (2 * length x)%nat by lia.
  set (hm := if capital then hexMap_upper else hexMap_lower). set (base := if capital then ch "A" else ch "a").
  pose proof (decode_body_spec base 4 0xF0 0 0x0F
    (fun b => [nib hm (Z.shiftr b 4); nib hm (Z.land b 15)]) x t out) as E.
  unfold decode_body in E. unfold hex_readable. rewrite E; [done| |done..].
  intros b Hb. do 2 eexists. split; [done|]. apply Z.eqb_eq.
  by_table 256%nat (fun b =>
    (joined (ch "A") 4 0xF0 0 0x0F (nib hexMap_upper (Z.shiftr b 4)) (nib hexMap_upper (Z.land b 15)) =? b)
    && (joined (ch "a") 4 0xF0 0 0x0F (nib hexMap_lower (Z.shiftr b 4)) (nib hexMap_lower (Z.land b 15)) =? b)).
  specialize (H0 b Hb). rewrite andb_true_iff in H0. unfold hm, base. destruct capital; tauto.
Qed.

Lemma fromLittleEndiumHex_spec_witness :
  fromLittleEndiumHex (str "0aff") 4 [9; 9; 9] 3 false = Val ([10; 255; 9], 2).
Proof.
  apply (fromLittleEndiumHex_spec false [10; 255] [] [9; 9; 9] 3).
  - repeat constructor; vm_compute; congruence.
  - simpl. lia.
  - simpl. lia.
Defined.

(** [bSearch] on a sorted array returns the first index that holds the key, and -1
    exactly when no element equals it; it never reads outside the array. *)
Theorem bSearch_spec a key :
  sorted a ->
  (exists i, bSearch a (Z.of_nat (length a)) key = Val (Z.of_nat i) /\ a !! i = Some key
     /\ forall j, a !! j = Some key -> (i <= j)%nat)
  \/ (bSearch a (Z.of_nat (length a)) key = Val (-1) /\ ~ In key a).
Proof.
  intros Hs. destruct (bSearch_splits a key Hs) as (r & (Hr & Hlo & Hhi) & ->).
  assert (forall j, a !! j = Some key -> (Z.to_nat r <= j)%nat) as Hfirst.
  { intros j Ej. destruct (Nat.le_gt_cases (Z.to_nat r) j) as [|Hj]; [done|].
    specialize (Hlo j key ltac:(lia) Ej). lia. }
  destruct (Z.ltb_spec r (Z.of_nat (length a))).
  - destruct (lookup_lt_is_Some_2 a (Z.to_nat r)) as [x Ex]; [lia|].
    rewrite (rd_Some a r x) by (lia || done). cbn [mbind outcome_bind].
    destruct (Z.eqb_spec x key) as [->|Hne].
    + left. exists (Z.to_nat r). rewrite Z2Nat.id by lia. done.
    + right. split; [done|]. intros [j Ej]%list_elem_of_In%list_elem_of_lookup.
      pose proof (Hfirst j Ej). pose proof (Hhi (Z.to_nat r) x ltac:(lia) Ex).
      pose proof (Hs _ _ _ _ Ex Ej ltac:(lia)). lia.
  - right. split; [done|]. intros [j Ej]%list_elem_of_In%list_elem_of_lookup.
    pose proof (Hfirst j Ej). apply lookup_lt_Some in Ej. lia.
Qed.

Lemma bSearch_spec_witness :
  sorted [2; 4; 4; 9] /\ bSearch [2; 4; 4; 9] 4 4 = Val 1.
Proof.
  assert (sorted [2; 4; 4; 9]) as Hs.
  { apply sorted_adjacent. intros [|[|[|[|i]]]] x y [= <-] [= <-]; lia. }
  split; [exact Hs|].
  destruct (bSearch_spec [2; 4; 4; 9] 4 Hs) as [(i & E & Ei & Hf)|[_ N]].
  - specialize (Hf 1%nat eq_refl). destruct i as [|[|i]]; [discriminate Ei|exact E|lia].
  - destruct N. right. left. reflexivity.
Defined.

(** The cookie cipher round trips: eight bytes encoded with [cookiesEncode] are
    decoded by [cookiesDecode] to the same eight bytes, so an id of [makeCookies] carries
    its time and random words. *)
Theorem cookiesDecode_makeCookies now rnd result output size :
  length result = 20%nat -> (8 <= length output)%nat -> 8 <= size ->
  exists text, makeCookies now rnd result = Val text
    /\ cookiesDecode text output size = Val (Some (cookie_words now rnd ++ drop 8 output, 8)).
Proof.
  intros Hr Ho Hs. destruct (cookie_words_ok now rnd) as [Hb Hl].
  unfold makeCookies. change 8 with (Z.of_nat 8) at 1. rewrite <- Hl, cookiesEncode_spec by (done || lia).
  cbn [mbind outcome_bind]. rewrite wr_over by (rewrite length_cookie_text; lia).
  eexists. split; [done|]. unfold cookiesDecode.
  destruct (Z.ltb_spec size 8); [lia|]. destruct (Nat.leb_spec 8 (length output)); [|lia].
  cbn [check mbind outcome_bind]. unfold over. rewrite length_replicate, <- app_assoc.
  replace 16%nat with (2 * length (cookie_words now rnd))%nat by lia.
  rewrite <- Hl at 1 2. rewrite cookiesDecode_loop_spec by done. done.
Qed.

Lemma cookiesDecode_makeCookies_witness :
  exists text, makeCookies 1234567 (-5) (replicate 20 0) = Val text
    /\ cookiesDecode text (replicate 8 7) 8 = Val (Some (cookie_words 1234567 (-5) ++ [], 8)).
Proof.
  apply (cookiesDecode_makeCookies 1234567 (-5) (replicate 20 0) (replicate 8 7) 8); simpl; lia.
Defined.

(** The hard coded sort and position tables are what the generator computes from the
    cipher table: each row of [cypherSortMap] is the row of [cypherMap] sorted, and
    [cypherPosMap] holds the original positions. *)
Theorem cypher_tables_regenerate : regenerate cypherMap = (cypherSortMap, cypherPosMap).
Proof. vm_compute. reflexivity. Qed.

(** [randomId] replaces its last digit by the terminator: three words give 23 digits. *)
Lemma randomId_length : 
  randomId 3 [0; 1; 2] (replicate 256 0) = Val (str "00000000100000002000000").
Proof. vm_compute. reflexivity. Qed.

(** The character set the generator shuffles holds [M] twice and has no [W]. *)
Lemma charSequence_repeats : length charSequence = 64%nat /\ ~ NoDup charSequence /\ ch "W" ∉ charSequence.
Proof.
  split_and!; [done| |].
  - intros Hn. assert (bool_decide (NoDup charSequence) = false) as E by (vm_compute; reflexivity).
    apply bool_decide_eq_false in E. done.
  - assert (bool_decide (ch "W" ∈ charSequence) = false) as E by (vm_compute; reflexivity).
    by apply bool_decide_eq_false in E.
Qed.
