(* ===== verification/UrlHelper.v ===== *)
(** * UrlHelper: the compact, checked form of a query (utility/url.cpp, utility/url.h)

    [URLHelper] keeps the parts of a url and two parameter maps.  The parameters
    of [paramBindingTable] are written in table order as variable length numbers and
    length prefixed strings ([urlParamSerialize]), base64 and percent encoded
    ([cipherParam]), and read back and checked by [processParamData].

    The names of the parameters are constants of mtty/constants.h, which is not
    part of the repository, so they are the parameter [url_name]; the order in which
    an [unordered_map] is traversed is the parameter [enum].  A method that changes
    the object returns it. *)
From S2P Require Import Prelude CString UrlCodec UrlParams Cypher.

(** ** Parameters *)

Inductive url_key : Set :=
| URL_REFERER | URL_ADPLACE_ID | URL_MTTYADPLACE_ID | URL_EXPOSE_ID | URL_ADOWNER_ID
| URL_ADPLAN_ID | URL_EXEC_ID | URL_CREATIVE_ID | URL_ADX_ID | URL_CLICK_ID | URL_AREA_ID
| URL_CLICK_X | URL_CLICK_Y | URL_ADX_MACRO | URL_BID_PRICE | URL_EXCHANGE_PRICE
| URL_MTTY_UID | URL_PRICE_TYPE | URL_PRODUCTPACKAGE_ID | URL_ORDER_ID | URL_IMP_OF
| URL_DEAL_ID | URL_DEVICE_IDFA | URL_DEVICE_IMEI | URL_DEVICE_ANDOROIDID | URL_DEVICE_MAC
| URL_LANDING_URL | URL_TIMEM | URL_SITE_ID | URL_FLOWTYPE | URL_IP | URL_ADX_BIDID
| URL_ADX_IMPID | URL_CHANNEL | URL_FEE_RATE | URL_FEE_RATE_STRS | URL_ADPLACE_BUY_TYPE.

Inductive PARAM_TYPE : Set := PARAM_INT | PARAM_STRING.

#[global] Instance url_key_eq_dec : EqDecision url_key.
Proof. solve_decision. Defined.
#[global] Instance param_type_eq_dec : EqDecision PARAM_TYPE.
Proof. solve_decision. Defined.

(** mtty/constants.h *)
Class UrlNames := { url_name : url_key -> bytes }.

Class UrlNamesLaws (N : UrlNames) : Prop := { url_name_inj :: Inj (=) (=) url_name }.

(** The traversal order of an [unordered_map]. *)
Class MapOrder := { enum : ParamMap -> list (bytes * bytes) }.

Class MapOrderLaws (O : MapOrder) : Prop := { enum_perm m : enum m ≡ₚ map_to_list m }.

Definition MACRO_HOLDER : bytes := str "_mh_".
Definition ENCODE_HOLDER : bytes := str "_q_".

(** ** Variable length numbers *)

(** A write cursor: the bytes written to the buffer, and [bufRemainSize], which the
    code maintains by hand. The buffer is the local array of urlParamSerialize. *)
Record wstate := WState { wout : bytes; wrem : Z }.

Definition BUFSIZE : Z := 2048.

Definition emit (b : Z) (w : wstate) : outcome wstate :=
  check (Z.of_nat (length (wout w)) <? BUFSIZE);; Val (WState (wout w ++ [b]) (wrem w)).

Definition dec_rem (n : Z) (w : wstate) : wstate := WState (wout w) (wrem w - n).

(** Seven bits per round: nine rounds are enough for a positive [int64_t]. *)
Fixpoint numberEncode_loop (fuel : nat) (number : Z) (w : wstate) : outcome wstate :=
  if 0 <? number then
    match fuel with
    | O => Undef
    | S fuel => w ← emit (Z.lor (Z.land number 0x7F) 0x80) w;
                numberEncode_loop fuel (Z.shiftr number 7) (dec_rem 1 w)
    end
  else Val w.

(** [buf[i - 1] &= 0x7F] is the last byte before the cursor, also when the loop wrote none. *)
Definition mask_last (w : wstate) : outcome wstate :=
  let i := Z.of_nat (length (wout w)) - 1 in
  x ← rd (wout w) i; out ← wr (wout w) i (Z.land x 0x7F); Val (WState out (wrem w)).

Definition numberEncode (number : Z) (w : wstate) : outcome wstate :=
  if wrem w <=? 10 then Exc (URLException "numberEncode:buffer reach boundary")
  else w ← numberEncode_loop 10 number w; mask_last w.

(** The bytes from the cursor to the boundary; returns the number and what is left. *)
Definition numberDecode (buf : bytes) : outcome (Z * bytes) :=
  let i := length (take_while (fun b => 0x7F <? b) buf) in
  match drop i buf with
  | [] => Exc (URLException "numberDecode:reach boundary")
  | _ :: rest =>
    let result := foldl (fun r b => s64 (Z.shiftl (s64 (r + Z.land b 0x7F)) 7)) 0
                    (rev (drop 1 (take (S i) buf))) in
    b0 ← rd buf 0; Val (s64 (result + Z.land b0 0x7F), rest)
  end.

(** ** Fields *)

Fixpoint emit_all (bs : bytes) (w : wstate) : outcome wstate :=
  match bs with [] => Val w | b :: bs => w ← emit b w; emit_all bs w end.

(** [size] is the [int] the length is converted to. *)
Definition writeStringToBuf (src : bytes) (w : wstate) : outcome wstate :=
  let size := s32 (Z.of_nat (length src)) in
  if 0 <? size then
    w ← numberEncode size w;
    if wrem w <? size then Exc (URLException "buffer remained not large enough to hold string ")
    else w ← emit_all (take (Z.to_nat size) src) w; Val (dec_rem size w)
  else if 1 <=? wrem w then w ← emit 0 w; Val (dec_rem 1 w)
  else Exc (URLException "writeStringToBuf:url encode invalid status,maybe size invalid or buffer not enough").

(** A number that is not positive is one zero byte; [bufRemainSize] is left as it is. *)
Definition writeIntToBuf (src : Z) (w : wstate) : outcome wstate :=
  if 0 <? src then numberEncode src w
  else if 1 <=? wrem w then emit 0 w
  else Exc (URLException "writeIntToBuf:url encode invalid status,maybe buffer not enough").

Definition encodeUrlParam (paramType : PARAM_TYPE) (v : bytes) (w : wstate) (vc : Z)
    : outcome (wstate * Z) :=
  match paramType with
  | PARAM_STRING => w ← writeStringToBuf v w; Val (w, Z.lxor vc (Z.of_nat (length v)))
  | PARAM_INT =>
    num ← (match v with [] => Val 0 | _ => stringToInt v end);
    w ← writeIntToBuf num w; Val (w, Z.lxor vc (u64 num))
  end.

(** [p] is left after the number when the length does not fit what remains. *)
Definition decodeUrlParamStr (p : bytes) : outcome (bytes * bytes) :=
  '(num, p) ← numberDecode p;
  Val (if (0 <? num) && (num <=? Z.of_nat (length p))
       then (take (Z.to_nat num) p, drop (Z.to_nat num) p) else ([], p)).

Definition decodeUrlParamNum (p : bytes) : outcome (Z * bytes) := numberDecode p.

(** [m.insert({k, v})] keeps an existing entry. *)
Definition map_insert (k v : bytes) (m : ParamMap) : ParamMap :=
  match m !! k with Some _ => m | None => <[k := v]> m end.

Section helper.
Context `{UrlNames, MapOrder, Base64}.

(** ** The binding table *)

Definition paramBindingTable : list (bytes * PARAM_TYPE) :=
  map (fun '(k, t) => (url_name k, t))
  [ (URL_REFERER, PARAM_STRING); (URL_ADPLACE_ID, PARAM_STRING); (URL_MTTYADPLACE_ID, PARAM_STRING);
    (URL_EXPOSE_ID, PARAM_STRING); (URL_ADOWNER_ID, PARAM_INT); (URL_ADPLAN_ID, PARAM_INT);
    (URL_EXEC_ID, PARAM_INT); (URL_CREATIVE_ID, PARAM_INT); (URL_ADX_ID, PARAM_INT);
    (URL_CLICK_ID, PARAM_STRING); (URL_AREA_ID, PARAM_STRING); (URL_CLICK_X, PARAM_INT);
    (URL_CLICK_Y, PARAM_INT); (URL_ADX_MACRO, PARAM_STRING); (URL_BID_PRICE, PARAM_INT);
    (URL_EXCHANGE_PRICE, PARAM_STRING); (URL_MTTY_UID, PARAM_STRING); (URL_PRICE_TYPE, PARAM_INT);
    (URL_PRODUCTPACKAGE_ID, PARAM_INT); (URL_ORDER_ID, PARAM_INT); (URL_IMP_OF, PARAM_INT);
    (URL_DEAL_ID, PARAM_INT); (URL_DEVICE_IDFA, PARAM_STRING); (URL_DEVICE_IMEI, PARAM_STRING);
    (URL_DEVICE_ANDOROIDID, PARAM_STRING); (URL_DEVICE_MAC, PARAM_STRING);
    (URL_LANDING_URL, PARAM_STRING); (URL_TIMEM, PARAM_INT); (URL_SITE_ID, PARAM_INT);
    (URL_FLOWTYPE, PARAM_INT); (URL_IP, PARAM_STRING); (URL_ADX_BIDID, PARAM_STRING);
    (URL_ADX_IMPID, PARAM_STRING); (URL_CHANNEL, PARAM_INT); (URL_FEE_RATE, PARAM_STRING);
    (URL_FEE_RATE_STRS, PARAM_STRING); (URL_ADPLACE_BUY_TYPE, PARAM_INT) ].

(** ** The object *)

Record URLHelper := mkURLHelper {
  paramMap : ParamMap;
  macroParamMap : ParamMap;
  protocolName : bytes;
  host : bytes;
  port : bytes;
  path : bytes;
}.

Definition empty_helper : URLHelper := mkURLHelper ∅ ∅ [] [] [] [].

Definition with_params (m : ParamMap) (h : URLHelper) : URLHelper :=
  mkURLHelper m (macroParamMap h) (protocolName h) (host h) (port h) (path h).
Definition with_macros (m : ParamMap) (h : URLHelper) : URLHelper :=
  mkURLHelper (paramMap h) m (protocolName h) (host h) (port h) (path h).

Definition add (k v : bytes) (h : URLHelper) : URLHelper := with_params (<[k := v]> (paramMap h)) h.
Definition addNoDuplicate (k v : bytes) (h : URLHelper) : bool * URLHelper :=
  (bool_decide (paramMap h !! k = None), with_params (map_insert k v (paramMap h)) h).
Definition addMacro (k v : bytes) (h : URLHelper) : URLHelper := with_macros (<[k := v]> (macroParamMap h)) h.
Definition remove (k : bytes) (h : URLHelper) : URLHelper := with_params (delete k (paramMap h)) h.
Definition removeMacro (k : bytes) (h : URLHelper) : URLHelper := with_macros (delete k (macroParamMap h)) h.

Definition getProtocol (h : URLHelper) : bytes := match protocolName h with [] => str "http" | p => p end.
Definition setProtocol (p : bytes) (h : URLHelper) : URLHelper :=
  mkURLHelper (paramMap h) (macroParamMap h) p (host h) (port h) (path h).
Definition setHost (x : bytes) (h : URLHelper) : URLHelper :=
  mkURLHelper (paramMap h) (macroParamMap h) (protocolName h) x (port h) (path h).
Definition getPort (h : URLHelper) : bytes := match port h with [] => str "80" | p => p end.
Definition setPort (p : bytes) (h : URLHelper) : URLHelper :=
  if match c_str p with c :: _ => is_digit c | [] => false end
  then mkURLHelper (paramMap h) (macroParamMap h) (protocolName h) (host h) p (path h) else h.
Definition setPath (p : bytes) (h : URLHelper) : URLHelper :=
  mkURLHelper (paramMap h) (macroParamMap h) (protocolName h) (host h) (port h) p.

(** ** Serializing *)

Fixpoint serialize_loop (table : list (bytes * PARAM_TYPE)) (m : ParamMap) (w : wstate) (vc : Z)
    : outcome (wstate * Z) :=
  match table with
  | [] => Val (w, vc)
  | (name, t) :: table =>
    '(w, vc) ← encodeUrlParam t (default [] (m !! name)) w vc;
    serialize_loop table m w vc
  end.

Definition urlParamSerialize (h : URLHelper) : outcome (bytes * URLHelper) :=
  '(w, vc) ← serialize_loop paramBindingTable (paramMap h) (WState [] BUFSIZE) 0xFFFFFFFF;
  Val (wout w, with_macros (<[MACRO_HOLDER := hex_string vc]> (macroParamMap h)) h).

Fixpoint deserialize_loop (table : list (bytes * PARAM_TYPE)) (p : bytes) (m : ParamMap) (vc : Z)
    : outcome (ParamMap * Z) :=
  match table with
  | [] => Val (m, vc)
  | (name, t) :: table =>
    match p with
    | [] => deserialize_loop table p m vc
    | _ =>
      match t with
      | PARAM_INT =>
        '(num, p) ← decodeUrlParamNum p;
        deserialize_loop table p (if num =? 0 then m else map_insert name (to_string num) m)
          (Z.lxor vc (u64 num))
      | PARAM_STRING =>
        '(v, p) ← decodeUrlParamStr p;
        deserialize_loop table p (match v with [] => m | _ => map_insert name v m end)
          (Z.lxor vc (Z.of_nat (length v)))
      end
    end
  end.

Definition urlParamDeserialize (input : bytes) (m : ParamMap) : outcome (ParamMap * Z) :=
  deserialize_loop paramBindingTable input m 0xFFFFFFFF.

(** ** The ciphered query *)

Definition macro_text (ms : list (bytes * bytes)) : bytes :=
  flat_map (fun '(k, v) => str "%7c" ++ k ++ str "%7c" ++ v) ms.

Definition cipherParam (h : URLHelper) : outcome (bytes * URLHelper) :=
  '(encodeParam, h) ← urlParamSerialize h;
  let base64Param := base64encode encodeParam [] in
  urlSafeParam ← urlEncode_f base64Param 2048;
  Val (ENCODE_HOLDER ++ str "=" ++ urlSafeParam ++ macro_text (enum (macroParamMap h)) ++ str "%7c", h).

(** The scheme, host, port and path both printers start with. *)
Definition url_prefix (h : URLHelper) : bytes :=
  (match protocolName h with [] => str "http://" | p => p ++ str "://" end)
  ++ host h ++ (match port h with [] => [] | p => str ":" ++ p end) ++ path h.

Definition cipherUrl (h : URLHelper) : outcome (bytes * URLHelper) :=
  try_std
    ('(urlSafeParam, h) ← cipherParam h;
     Val (url_prefix h ++ (match urlSafeParam with [] => [] | u => str "?" ++ u end), h))
    (fun _ => Val ([], h)).

Fixpoint join_params (first : bool) (ps : list (bytes * bytes)) : bytes :=
  match ps with
  | [] => []
  | (k, v) :: ps => (if first then [] else str "&") ++ k ++ str "=" ++ v ++ join_params false ps
  end.

Definition toUrlParam (h : URLHelper) : bytes :=
  let data := join_params true (enum (paramMap h)) in
  data ++ join_params (match data with [] => true | _ => false end) (enum (macroParamMap h)).

Definition toUrl (h : URLHelper) : bytes :=
  url_prefix h ++ (match toUrlParam h with [] => [] | d => str "?" ++ d end).

(** ** Parsing *)

(** [tmp[1], tmp[2]], [tmp[3], tmp[4]], ...: pairs while the index is below [size() - 1]. *)
Fixpoint insert_pairs (tmp : list bytes) (m : ParamMap) : ParamMap :=
  match tmp with
  | k :: v :: tmp' => insert_pairs tmp' (map_insert k v m)
  | _ => m
  end.

(** The body of the [try]: [Val (b, m)] returns [b]; an exception is handled by the caller. *)
Definition processParamData_body (data : bytes) (encoded : bool) (m : ParamMap) : outcome (bool * ParamMap) :=
  if encoded then
    safeData ← urlDecode_f data 2048;
    safeData ← (if contains safeData (str "%7c") then urlDecode_f safeData 2048 else Val safeData);
    match split_on (fun c => c =? ch "|") safeData with
    | [] => Val (true, m)
    | mainPart :: tmp =>
      cipherQueryMap ← getParamv2_str ∅ mainPart;
      let mainPart := default [] (cipherQueryMap !! ENCODE_HOLDER) in
      let '(ok, base64param) := base64decode mainPart [] in
      if ok then
        '(m, vc) ← urlParamDeserialize base64param m;
        let m := insert_pairs tmp m in
        let inputVc := default [] (m !! MACRO_HOLDER) in
        Val (true, if bool_decide (inputVc = hex_string vc) then m else ∅)
      else Val (false, m)
    end
  else m ← getParamv2_str m data; Val (true, m).

Definition processParamData (data : bytes) (encoded : bool) (h : URLHelper) : outcome (bool * URLHelper) :=
  try_std ('(b, m) ← processParamData_body data encoded (paramMap h); Val (b, with_params m h))
          (fun _ => Val (false, with_params ∅ h)).

Definition processParamDataWithRetry (data : bytes) (encoded : bool) (h : URLHelper) : outcome URLHelper :=
  if (2048 <=? length data)%nat then Val h
  else
    '(ok, h) ← processParamData data encoded h;
    if (ok : bool) then Val h
    else
      escapeData ← (if contains data (str "-7c")
                    then match url_replace_all data (str "-") (str "%") with
                         | Some d => Val d | None => Undef end
                    else Val data);
      safeData ← urlDecode_f escapeData 2048;
      '(_, h) ← processParamData safeData encoded h;
      Val h.

(** The loop over the colons, which can match the protocol more than once.  Subtraction
    on [size_type] wraps; a read at the length of the string is its terminator. *)
Fixpoint colon_loop (fuel : nat) (url : bytes) (pos hostBegin : nat) (h : URLHelper) : option (nat * URLHelper) :=
  match fuel with
  | O => None
  | S fuel =>
    match find url (str ":") pos with
    | None => Some (hostBegin, h)
    | Some pos =>
      let len := Z.of_nat (length url) in
      let at_ i := default 0 (url !! i) in
      if (Z.of_nat pos <? u64 (len - 3)) && (at_ (pos + 1)%nat =? ch "/") && (at_ (pos + 2)%nat =? ch "/") then
        colon_loop fuel url (pos + 3) (pos + 3)
          (setProtocol (slice url 0 pos) h)
      else if (Z.of_nat pos <? u64 (len - 2)) && is_digit (at_ (pos + 1)%nat) then
        let h := setHost (slice url hostBegin pos) h in
        Some (hostBegin, mkURLHelper (paramMap h) (macroParamMap h) (protocolName h) (host h)
                           (to_string (atoi (drop (pos + 1) url))) (path h))
      else Some (hostBegin, h)
    end
  end.

Definition parse_url (url : bytes) (encoded : bool) : outcome URLHelper :=
  match colon_loop (S (length url)) url 0 0 empty_helper with
  | None => Undef
  | Some (hostBegin, h) =>
    match find url (str "/") hostBegin with
    | None => Val h
    | Some pos =>
      let h := match host h with [] => setHost (slice url hostBegin pos) h | _ => h end in
      match find url (str "?") pos with
      | Some q =>
        processParamDataWithRetry (slice url (q + 1) (length url)) encoded (setPath (slice url pos q) h)
      | None => Val (setPath (slice url pos (length url)) h)
      end
    end
  end.

Definition fromCipherUrl (url : bytes) : outcome URLHelper := parse_url url true.
Definition fromUrl (url : bytes) : outcome URLHelper := parse_url url false.

(** The constructors from parts put a slash before the path; [begin()] of an empty
    string addresses its terminator. *)
Definition rooted (path : bytes) : bytes :=
  if match path with c :: _ => c =? ch "/" | [] => false end then path else ch "/" :: path.

Definition make_url (protocol host port path : bytes) : URLHelper :=
  mkURLHelper ∅ ∅ protocol host port (rooted path).

Definition make_url_data (protocol host port path data : bytes) (encoded : bool) : outcome URLHelper :=
  processParamDataWithRetry data encoded (make_url protocol host port path).
End helper.

(** ** Lemmas: variable length numbers *)

(** The seven bit groups of a number, least significant first. *)
Fixpoint groups_loop (fuel : nat) (n : Z) : list Z :=
  match fuel with
  | O => []
  | S fuel => if 0 <? n then n mod 128 :: groups_loop fuel (n / 128) else []
  end.
Definition groups (n : Z) : list Z := if 0 <? n then groups_loop 10 n else [0].
Definition le_value (ds : list Z) : Z := foldr (fun d v => d + 128 * v) 0 ds.

(** Every group but the last carries the continuation bit. *)
Fixpoint varint_of (ds : list Z) : bytes :=
  match ds with
  | [] => []
  | [d] => [d]
  | d :: ds => 128 + d :: varint_of ds
  end.
Definition varint (n : Z) : bytes := varint_of (groups n).

Definition digit7 (d : Z) : Prop := 0 <= d < 128.

Lemma groups_loop_spec fuel n :
  0 <= n < 128 ^ Z.of_nat fuel -> Forall digit7 (groups_loop fuel n) /\ le_value (groups_loop fuel n) = n.
Proof.
  revert n. induction fuel as [|fuel IH]; intros n Hn; cbn [groups_loop].
  { change (128 ^ Z.of_nat 0) with 1 in Hn. split; [constructor|]. simpl. lia. }
  destruct (Z.ltb_spec 0 n); [|split; [constructor|simpl; lia]].
  rewrite Nat2Z.inj_succ, Z.pow_succ_r in Hn by lia.
  destruct (IH (n / 128)) as [Hd Hv]; [dlia|]. split.
  - constructor; [unfold digit7; dlia|done].
  - cbn [le_value foldr]. unfold le_value in Hv. rewrite Hv. dlia.
Qed.

Lemma groups_spec n :
  0 <= n < 2 ^ 63 -> Forall digit7 (groups n) /\ le_value (groups n) = n /\ groups n <> [].
Proof.
  intros Hn. unfold groups. destruct (Z.ltb_spec 0 n).
  - destruct (groups_loop_spec 10 n) as [Hd Hv]; [change (128 ^ Z.of_nat 10) with (2 ^ 70); lia|].
    split_and!; [done..|]. intros E. rewrite E in Hv. simpl in Hv. lia.
  - split_and!; [repeat constructor; lia|simpl; lia|done].
Qed.

(** Nine groups hold a positive 63 bit number. *)
Lemma length_groups_loop fuel n k :
  0 <= n < 128 ^ Z.of_nat k -> (length (groups_loop fuel n) <= k)%nat.
Proof.
  revert n k. induction fuel as [|fuel IH]; intros n k Hn; cbn [groups_loop]; [simpl; lia|].
  destruct (Z.ltb_spec 0 n); [|simpl; lia]. destruct k as [|k].
  { change (128 ^ Z.of_nat 0) with 1 in Hn. lia. }
  rewrite Nat2Z.inj_succ, Z.pow_succ_r in Hn by lia.
  simpl. specialize (IH (n / 128) k ltac:(dlia)). lia.
Qed.

Lemma length_varint_of ds : length (varint_of ds) = length ds.
Proof. induction ds as [|d [|d' ds] IH]; [done..|]. cbn [varint_of length] in *. lia. Qed.

Lemma length_varint n : 0 <= n < 2 ^ 63 -> (1 <= length (varint n) <= 9)%nat.
Proof.
  intros Hn. unfold varint. rewrite length_varint_of. destruct (groups_spec n Hn) as (_ & _ & Hne).
  split; [destruct (groups n); [done|simpl; lia]|].
  unfold groups. destruct (0 <? n); [|simpl; lia].
  apply length_groups_loop. change (128 ^ Z.of_nat 9) with (2 ^ 63). lia.
Qed.

Lemma land_127 d : digit7 d -> Z.land d 0x7F = d /\ Z.land (128 + d) 0x7F = d.
Proof.
  intros Hd. by_table 128%nat (fun d => (Z.land d 0x7F =? d) && (Z.land (128 + d) 0x7F =? d)).
  specialize (H d Hd). lia.
Qed.

(** *** Decoding *)

Lemma varint_of_scan ds rest :
  ds <> [] -> Forall digit7 ds ->
  length (take_while (fun b => 0x7F <? b) (varint_of ds ++ rest)) = (length ds - 1)%nat.
Proof.
  intros Hne. induction 1 as [|d ds Hd Hds IH]; [done|]. unfold digit7 in Hd.
  destruct ds as [|d' ds].
  - cbn [varint_of app take_while]. destruct (Z.ltb_spec 0x7F d); [lia|done].
  - change (varint_of (d :: d' :: ds)) with (128 + d :: varint_of (d' :: ds)). cbn [app take_while].
    destruct (Z.ltb_spec 0x7F (128 + d)); [|lia].
    cbn [length]. rewrite IH by done. cbn [length]. lia.
Qed.

Lemma le_value_nonneg ds : Forall digit7 ds -> 0 <= le_value ds.
Proof. unfold le_value, digit7. induction 1; simpl; lia. Qed.

(** The decoding loop of a [w] bit number, from the most significant group down. *)
Lemma decode_fold w ds :
  0 < w -> Forall digit7 ds -> 128 * le_value ds < 2 ^ (w - 1) ->
  foldr (fun b r => swrap w (Z.shiftl (swrap w (r + Z.land b 0x7F)) 7)) 0 (varint_of ds) = 128 * le_value ds.
Proof.
  intros Hw. induction 1 as [|d ds Hd Hds IH]; intros Hv; [done|].
  pose proof (le_value_nonneg ds Hds) as Hp.
  change (le_value (d :: ds)) with (d + 128 * le_value ds) in *. unfold digit7 in Hd.
  destruct (land_127 d Hd) as [E1 E2].
  assert (forall r, r = 128 * le_value ds ->
    swrap w (Z.shiftl (swrap w (r + d)) 7) = 128 * (d + 128 * le_value ds)) as G.
  { intros r ->. rewrite (swrap_small w (128 * le_value ds + d)) by lia.
    rewrite Z.shiftl_mul_pow2 by lia. rewrite swrap_small by lia. lia. }
  destruct ds as [|d' ds]; cbn [varint_of foldr].
  - rewrite E1. by apply G.
  - rewrite E2. apply G. apply IH. lia.
Qed.

Lemma decode_value w ds :
  0 < w -> ds <> [] -> Forall digit7 ds -> le_value ds < 2 ^ (w - 1) ->
  exists b0, (forall rest, rd (varint_of ds ++ rest) 0 = Val b0) /\
  swrap w (foldl (fun r b => swrap w (Z.shiftl (swrap w (r + Z.land b 0x7F)) 7)) 0
             (rev (drop 1 (varint_of ds))) + Z.land b0 0x7F) = le_value ds.
Proof.
  intros Hw Hne Hd Hv. destruct ds as [|d ds]; [done|]. clear Hne.
  inversion Hd as [|? ? Hd0 Hds]; subst. pose proof (le_value_nonneg ds Hds) as Hp.
  change (le_value (d :: ds)) with (d + 128 * le_value ds) in *. unfold digit7 in Hd0.
  destruct (land_127 d Hd0) as [E1 E2].
  assert (drop 1 (varint_of (d :: ds)) = varint_of ds) as -> by (by destruct ds).
  assert (exists b0, varint_of (d :: ds) = b0 :: varint_of ds /\ Z.land b0 0x7F = d)
    as (b0 & -> & Eb) by (destruct ds; by eexists).
  exists b0. split; [done|]. rewrite Eb.
  assert (forall l, foldl (fun r b => swrap w (Z.shiftl (swrap w (r + Z.land b 0x7F)) 7)) 0 (rev l)
    = foldr (fun b r => swrap w (Z.shiftl (swrap w (r + Z.land b 0x7F)) 7)) 0 l) as ->.
  { induction l as [|y l IH]; [done|]. cbn [rev foldr]. rewrite foldl_app, IH. done. }
  rewrite decode_fold by (done || lia). rewrite swrap_small by lia. lia.
Qed.

(** Where the scan for the last byte of a number stops. *)
Lemma varint_scan ds rest :
  ds <> [] -> Forall digit7 ds ->
  let i := length (take_while (fun b => 0x7F <? b) (varint_of ds ++ rest)) in
  (exists x, drop i (varint_of ds ++ rest) = x :: rest) /\ take (S i) (varint_of ds ++ rest) = varint_of ds.
Proof.
  intros Hne Hd. cbv zeta. rewrite varint_of_scan by done.
  assert (length (varint_of ds) = S (length ds - 1)) as El
    by (rewrite length_varint_of; destruct ds; [done|simpl; lia]).
  rewrite <- El. split; [|apply take_app_length].
  destruct (varint_of ds) as [|x l _] using rev_ind; [done|].
  rewrite length_app in El. simpl in El. replace (length ds - 1)%nat with (length l) by lia.
  rewrite <- app_assoc, drop_app_length. by eexists.
Qed.

Lemma numberDecode_varint ds rest :
  ds <> [] -> Forall digit7 ds -> le_value ds < 2 ^ 63 ->
  numberDecode (varint_of ds ++ rest) = Val (le_value ds, rest).
Proof.
  intros Hne Hd Hv. unfold numberDecode.
  destruct (varint_scan ds rest Hne Hd) as [[x ->] ->].
  destruct (decode_value 64 ds ltac:(lia) Hne Hd Hv) as (b0 & -> & E).
  cbn [mbind outcome_bind]. by rewrite E.
Qed.

(** *** Encoding *)

Definition room (w : wstate) (n : nat) : Prop := Z.of_nat (length (wout w)) + Z.of_nat n <= BUFSIZE.

Lemma emit_ok b w : room w 1 -> emit b w = Val (WState (wout w ++ [b]) (wrem w)).
Proof.
  unfold room. intros Hr. unfold emit.
  destruct (Z.ltb_spec (Z.of_nat (length (wout w))) BUFSIZE); [done|lia].
Qed.

Lemma emit_all_ok bs w : room w (length bs) -> emit_all bs w = Val (WState (wout w ++ bs) (wrem w)).
Proof.
  unfold room. revert w. induction bs as [|b bs IH]; intros w Hr; cbn [emit_all].
  - rewrite app_nil_r. by destruct w.
  - simpl in Hr. rewrite emit_ok by (unfold room; lia). cbn [mbind outcome_bind].
    rewrite IH by (cbn [wout]; rewrite length_app; simpl; lia). cbn [wout wrem]. by rewrite <- app_assoc.
Qed.

Lemma high_bit n : 0 <= n -> Z.lor (Z.land n 0x7F) 0x80 = 128 + n mod 128.
Proof.
  intros Hn. change 0x7F with (Z.ones 7). rewrite Z.land_ones by lia. change (2 ^ 7) with 128.
  by_table 128%nat (fun d => Z.lor d 0x80 =? 128 + d).
  apply Z.eqb_eq, H. apply Z.mod_pos_bound. lia.
Qed.

(** The loop writes every group with its continuation bit. *)
Lemma numberEncode_loop_ok fuel n w :
  0 <= n < 128 ^ Z.of_nat fuel -> room w (length (groups_loop fuel n)) ->
  numberEncode_loop fuel n w
  = Val (WState (wout w ++ map (fun d => 128 + d) (groups_loop fuel n))
           (wrem w - Z.of_nat (length (groups_loop fuel n)))).
Proof.
  revert n w. induction fuel as [|fuel IH]; intros n w Hn Hr; cbn [numberEncode_loop groups_loop] in *.
  - change (128 ^ Z.of_nat 0) with 1 in Hn. destruct (Z.ltb_spec 0 n); [lia|].
    simpl. rewrite app_nil_r, Z.sub_0_r. by destruct w.
  - destruct (Z.ltb_spec 0 n); [|simpl; rewrite app_nil_r, Z.sub_0_r; by destruct w].
    unfold room in *. cbn [length] in Hr.
    rewrite Nat2Z.inj_succ, Z.pow_succ_r in Hn by lia.
    rewrite emit_ok by (unfold room; lia). cbn [mbind outcome_bind].
    rewrite Z.shiftr_div_pow2, high_bit by lia. change (2 ^ 7) with 128.
    rewrite IH; [|dlia|unfold room, dec_rem; cbn [wout]; rewrite length_app; simpl; lia].
    unfold dec_rem. cbn [wout wrem map length]. rewrite <- app_assoc. f_equal. f_equal. lia.
Qed.

Lemma varint_of_snoc ds d : varint_of (ds ++ [d]) = map (fun d => 128 + d) ds ++ [d].
Proof.
  induction ds as [|d' ds IH]; [done|]. cbn [app map]. rewrite <- IH. by destruct ds.
Qed.

Lemma numberEncode_ok n w :
  0 < n < 2 ^ 63 -> 10 < wrem w -> room w (length (varint n)) ->
  numberEncode n w = Val (WState (wout w ++ varint n) (wrem w - Z.of_nat (length (varint n)))).
Proof.
  intros Hn Hw Hr. unfold numberEncode. destruct (Z.leb_spec (wrem w) 10); [lia|].
  destruct (groups_spec n ltac:(lia)) as (Hd & Hv & Hne).
  unfold varint in *. rewrite length_varint_of in *. unfold groups in *.
  destruct (Z.ltb_spec 0 n); [|lia].
  rewrite numberEncode_loop_ok; [|change (128 ^ Z.of_nat 10) with (2 ^ 70); lia|done].
  cbn [mbind outcome_bind]. destruct (groups_loop 10 n) as [|d ds _] using rev_ind; [done|].
  apply Forall_app in Hd as [_ Hd]. rewrite Forall_singleton in Hd. destruct (land_127 d Hd) as [_ E].
  unfold mask_last. cbn [wout wrem]. rewrite map_app. cbn [map]. rewrite app_assoc.
  assert (Z.of_nat (length ((wout w ++ map (fun d => 128 + d) ds) ++ [128 + d])) - 1
          = Z.of_nat (length (wout w ++ map (fun d => 128 + d) ds))) as -> by (rewrite !length_app; simpl; lia).
  rewrite rd_mid by done. cbn [mbind outcome_bind]. rewrite wr_mid by done. cbn [mbind outcome_bind].
  rewrite E, varint_of_snoc, <- app_assoc. done.
Qed.

(** ** Lemmas: fields *)

(** The number an [int] parameter stands for, the code a field adds to the check
    word, and the bytes it is written as. *)
Definition int_value (v : bytes) : Z :=
  match v with [] => 0 | _ => match stringToInt v with Val n => n | _ => 0 end end.
Definition field_code (t : PARAM_TYPE) (v : bytes) : Z :=
  match t with PARAM_INT => u64 (int_value v) | PARAM_STRING => Z.of_nat (length v) end.
Definition field_text (t : PARAM_TYPE) (v : bytes) : bytes :=
  match t with
  | PARAM_INT => varint (int_value v)
  | PARAM_STRING => varint (Z.of_nat (length v)) ++ v
  end.

Lemma stringToInt_range v : exists n, stringToInt v = Val n /\ - 2 ^ 63 <= n < 2 ^ 63.
Proof.
  unfold stringToInt, try_all, stol, sto. destruct (scan_int (c_str v)) as [neg ds].
  destruct ds; [exists 0; split; [done|lia]|].
  destruct (_ && _) eqn:E; [|exists 0; split; [done|lia]]. eexists. split; [done|].
  unfold LONG_MIN, LONG_MAX in E. lia.
Qed.

Lemma int_value_range v : - 2 ^ 63 <= int_value v < 2 ^ 63.
Proof.
  unfold int_value. destruct v; [lia|]. destruct (stringToInt_range (z :: v)) as (n & -> & Hn). done.
Qed.

(** The hand kept count is never below the true room; zero fields make it larger. *)
Definition counted (w : wstate) : Prop := BUFSIZE - Z.of_nat (length (wout w)) <= wrem w.

Lemma varint_0 n : n <= 0 -> varint n = [0].
Proof. intros. unfold varint, groups. destruct (Z.ltb_spec 0 n); [lia|done]. Qed.

Lemma writeIntToBuf_ok n w :
  n < 2 ^ 63 -> counted w -> room w (length (varint n) + 10) ->
  exists w', writeIntToBuf n w = Val w' /\ wout w' = wout w ++ varint n /\ counted w'.
Proof.
  intros Hn Hc Hr. unfold writeIntToBuf, counted, room in *. destruct (Z.ltb_spec 0 n).
  - pose proof (length_varint n ltac:(lia)). rewrite numberEncode_ok by (unfold room; lia).
    eexists. split; [done|]. cbn [wout wrem]. split; [done|]. rewrite length_app. lia.
  - rewrite varint_0 in * by done. simpl in Hr. destruct (Z.leb_spec 1 (wrem w)); [|lia].
    rewrite emit_ok by (unfold room; lia). eexists. split; [done|]. cbn [wout wrem]. split; [done|].
    rewrite length_app. simpl. lia.
Qed.

Lemma writeStringToBuf_ok v w :
  counted w -> room w (length (field_text PARAM_STRING v) + 10) ->
  exists w', writeStringToBuf v w = Val w' /\ wout w' = wout w ++ field_text PARAM_STRING v /\ counted w'.
Proof.
  intros Hc Hr. unfold writeStringToBuf, counted, room, field_text, BUFSIZE in *. rewrite length_app in Hr.
  rewrite swrap_small by lia. destruct (Z.ltb_spec 0 (Z.of_nat (length v))).
  - pose proof (length_varint (Z.of_nat (length v)) ltac:(lia)).
    rewrite numberEncode_ok by (unfold room, BUFSIZE; lia). cbn [mbind outcome_bind wout wrem].
    destruct (Z.ltb_spec (wrem w - Z.of_nat (length (varint (Z.of_nat (length v))))) (Z.of_nat (length v))); [lia|].
    rewrite Nat2Z.id, firstn_all, emit_all_ok
      by (unfold room, BUFSIZE; cbn [wout]; rewrite length_app; lia).
    cbn [mbind outcome_bind wout wrem]. eexists. split; [done|]. unfold dec_rem. cbn [wout wrem].
    rewrite <- app_assoc. split; [done|]. rewrite !length_app. lia.
  - destruct v; [|simpl in *; lia]. rewrite varint_0 in * by (simpl; lia). simpl in Hr.
    destruct (Z.leb_spec 1 (wrem w)); [|lia]. rewrite emit_ok by (unfold room, BUFSIZE; lia).
    cbn [mbind outcome_bind]. eexists. split; [done|]. unfold dec_rem. cbn [wout wrem]. split; [done|].
    rewrite length_app. simpl. lia.
Qed.

Lemma encodeUrlParam_ok t v w vc :
  counted w -> room w (length (field_text t v) + 10) ->
  exists w', encodeUrlParam t v w vc = Val (w', Z.lxor vc (field_code t v))
    /\ wout w' = wout w ++ field_text t v /\ counted w'.
Proof.
  intros Hc Hr. destruct t; cbn [encodeUrlParam field_text field_code].
  - assert ((match v with [] => Val 0 | _ :: _ => stringToInt v end) = Val (int_value v)) as ->.
    { unfold int_value. destruct v; [done|]. by destruct (stringToInt_range (z :: v)) as (n & -> & _). }
    cbn [mbind outcome_bind].
    destruct (writeIntToBuf_ok (int_value v) w) as (w' & -> & Hw' & Hc'); [apply int_value_range|done|done|].
    by exists w'.
  - destruct (writeStringToBuf_ok v w) as (w' & -> & Hw' & Hc'); [done|done|]. by exists w'.
Qed.

(** What the table's fields are written as, and the check word they give. *)
Definition table_text (table : list (bytes * PARAM_TYPE)) (m : ParamMap) : bytes :=
  flat_map (fun '(name, t) => field_text t (default [] (m !! name))) table.
Definition table_code (table : list (bytes * PARAM_TYPE)) (m : ParamMap) (vc : Z) : Z :=
  foldl (fun vc '(name, t) => Z.lxor vc (field_code t (default [] (m !! name)))) vc table.

Lemma serialize_loop_ok table m w vc :
  counted w -> room w (length (table_text table m) + 10) ->
  exists w', serialize_loop table m w vc = Val (w', table_code table m vc)
    /\ wout w' = wout w ++ table_text table m.
Proof.
  unfold room. revert w vc. induction table as [|[name t] table IH]; intros w vc Hc Hr;
    cbn [serialize_loop table_text table_code flat_map foldl] in *.
  - exists w. by rewrite app_nil_r.
  - rewrite length_app in Hr. unfold table_text in IH.
    destruct (encodeUrlParam_ok t (default [] (m !! name)) w vc) as (w1 & -> & Hw1 & Hc1); [done|unfold room; lia|].
    cbn [mbind outcome_bind].
    destruct (IH w1 (Z.lxor vc (field_code t (default [] (m !! name))))) as (w2 & -> & Hw2); [done| |].
    { rewrite Hw1, length_app. lia. }
    exists w2. split; [done|]. rewrite Hw2, Hw1, <- app_assoc. done.
Qed.

(** ** Lemmas: reading the fields back *)

(** What a field's value is after a round trip: an absent, empty or zero one is not
    inserted, a number is printed canonically. *)
Definition normal (t : PARAM_TYPE) (v : bytes) : option bytes :=
  match t with
  | PARAM_INT => if int_value v =? 0 then None else Some (to_string (int_value v))
  | PARAM_STRING => match v with [] => None | _ => Some v end
  end.

Definition restore (table : list (bytes * PARAM_TYPE)) (m m0 : ParamMap) : ParamMap :=
  foldl (fun acc '(name, t) =>
    match normal t (default [] (m !! name)) with Some v => map_insert name v acc | None => acc end) m0 table.

Definition nonneg_ints (table : list (bytes * PARAM_TYPE)) (m : ParamMap) : Prop :=
  Forall (fun '(name, t) => t = PARAM_INT -> 0 <= int_value (default [] (m !! name))) table.

Lemma numberDecode_number n rest : 0 <= n < 2 ^ 63 -> numberDecode (varint n ++ rest) = Val (n, rest).
Proof.
  intros Hn. unfold varint. destruct (groups_spec n Hn) as (Hd & Hv & Hne).
  rewrite numberDecode_varint by (done || lia). by rewrite Hv.
Qed.

Lemma field_text_ne t v : field_text t v <> [].
Proof.
  intros E. assert (forall n, varint n <> []) as Hn.
  { intros n En. unfold varint in En. apply (f_equal length) in En. rewrite length_varint_of in En.
    unfold groups in En. cbn [groups_loop] in En. by destruct (0 <? n). }
  destruct t; simpl in E; [by apply Hn in E|]. apply app_nil in E as [E _]. by apply Hn in E.
Qed.

Lemma deserialize_loop_ok table m m0 vc :
  nonneg_ints table m -> Z.of_nat (length (table_text table m)) < 2 ^ 63 ->
  deserialize_loop table (table_text table m) m0 vc = Val (restore table m m0, table_code table m vc).
Proof.
  intros Hn. revert m0 vc. induction Hn as [|[name t] table Hn Hns IH]; intros m0 vc Hl; [done|].
  cbn [table_text flat_map] in *. rewrite length_app in Hl. fold (table_text table m) in *.
  cbn [deserialize_loop].
  pose proof (field_text_ne t (default [] (m !! name))) as Hne.
  destruct (field_text t (default [] (m !! name)) ++ table_text table m) as [|b p] eqn:Ep.
  { by apply app_nil in Ep as [? _]. }
  rewrite <- Ep. clear Ep. set (v := default [] (m !! name)) in *.
  destruct t; cbn [field_text] in *.
  - unfold decodeUrlParamNum. rewrite numberDecode_number by (split; [by apply Hn|apply int_value_range]).
    cbn [mbind outcome_bind]. rewrite IH by lia. unfold restore, table_code. cbn [foldl normal field_code].
    fold v. by destruct (int_value v =? 0).
  - rewrite length_app in Hl. unfold decodeUrlParamStr. rewrite <- app_assoc, numberDecode_number by lia.
    cbn [mbind outcome_bind]. rewrite length_app.
    destruct (Z.leb_spec (Z.of_nat (length v)) (Z.of_nat (length v + length (table_text table m)))); [|lia].
    rewrite andb_true_r. unfold restore, table_code. cbn [foldl normal field_code]. fold v.
    destruct (Z.ltb_spec 0 (Z.of_nat (length v))).
    + rewrite Nat2Z.id, take_app_length, drop_app_length, IH by lia. by destruct v; [simpl in *; lia|].
    + destruct v; [|simpl in *; lia]. cbn [app]. rewrite IH by lia. done.
Qed.

Lemma map_insert_lookup k v m k' :
  map_insert k v m !! k' = match m !! k' with Some x => Some x | None => if decide (k = k') then Some v else None end.
Proof.
  unfold map_insert. destruct (m !! k) eqn:E; destruct (decide (k = k')) as [->|].
  - by rewrite E.
  - by destruct (m !! k').
  - by rewrite lookup_insert_eq, E.
  - rewrite lookup_insert_ne by done. by destruct (m !! k').
Qed.

(** With distinct names, each restored entry is the normal form of its own field. *)
Lemma restore_lookup table m m0 k :
  NoDup table.*1 ->
  restore table m m0 !! k
  = match m0 !! k with
    | Some x => Some x
    | None => match list_find (fun e => e.1 = k) table with
              | Some (_, (name, t)) => normal t (default [] (m !! name))
              | None => None
              end
    end.
Proof.
  unfold restore. revert m0. induction table as [|[name t] table IH]; intros m0 Hnd; simpl in *.
  - by destruct (m0 !! k).
  - apply NoDup_cons in Hnd as [Hni Hnd]. rewrite IH by done. clear IH.
    destruct (decide (name = k)) as [->|Hne].
    + assert (list_find (fun e => e.1 = k) table = None) as ->.
      { apply list_find_None. apply Forall_forall. intros [n' t'] Hin Hk. simpl in Hk. subst.
        apply Hni. apply list_elem_of_fmap. by exists (k, t'). }
      destruct (normal t (default [] (m !! k))) as [v|]; simpl.
      * rewrite map_insert_lookup. destruct (m0 !! k); [done|]. by destruct (decide (k = k)).
      * by destruct (m0 !! k).
    + destruct (normal t (default [] (m !! name))) as [v|]; simpl.
      * rewrite map_insert_lookup. destruct (m0 !! k); [done|].
        destruct (decide (name = k)); [done|]. by destruct (list_find _ table) as [[? [? ?]]|].
      * destruct (m0 !! k); [done|]. by destruct (list_find _ table) as [[? [? ?]]|].
Qed.

Section table.
Context `{UrlNames, !UrlNamesLaws _}.

Lemma table_names_NoDup : NoDup paramBindingTable.*1.
Proof.
  assert (forall ks, NoDup ks.*1 -> NoDup (map (fun '(k, t) => (url_name k, t : PARAM_TYPE)) ks).*1) as G.
  { intros ks Hk. replace ((map (fun '(k, t) => (url_name k, t)) ks).*1) with (url_name <$> ks.*1).
    - by apply NoDup_fmap_2; [apply url_name_inj|].
    - clear Hk. induction ks as [|[k t] ks IH]; [done|]. simpl. f_equal. exact IH. }
  unfold paramBindingTable. apply G. by_decide.
Qed.
End table.

(** ** Lemmas: the ciphered text *)

Definition no_bar (s : bytes) : Prop := Forall (fun c => (c =? ch "|") = false) s.

Lemma urlDecode_f_loop_bar t :
  urlDecode_f_loop (str "%7c" ++ t) = out ← urlDecode_f_loop t; Val (ch "|" :: out).
Proof.
  change (str "%7c" ++ t) with (ch "%" :: ch "7" :: ch "c" :: t). cbn [urlDecode_f_loop].
  rewrite Z.eqb_refl. change (rd decode_map (schar (ch "7"))) with (Val 7).
  change (rd decode_map (schar (ch "c"))) with (Val 12). cbn [mbind outcome_bind].
  by destruct (urlDecode_f_loop t).
Qed.

(** A macro entry the split gives back. *)
Definition macro_ok (kv : bytes * bytes) : Prop :=
  no_pct kv.1 /\ no_pct kv.2 /\ no_bar kv.1 /\ no_bar kv.2.

Definition bar_text (ms : list (bytes * bytes)) : bytes :=
  flat_map (fun '(k, v) => ch "|" :: k ++ ch "|" :: v) ms.

Lemma urlDecode_f_loop_macros ms t :
  Forall macro_ok ms ->
  urlDecode_f_loop (macro_text ms ++ t) = out ← urlDecode_f_loop t; Val (bar_text ms ++ out).
Proof.
  induction 1 as [|[k v] ms (Hk & Hv & _) Hms IH]; cbn [macro_text bar_text flat_map].
  - cbn [app]. by destruct (urlDecode_f_loop t).
  - rewrite <- !app_assoc, urlDecode_f_loop_bar, urlDecode_f_loop_plain by done.
    rewrite urlDecode_f_loop_bar, urlDecode_f_loop_plain by done. fold (macro_text ms). rewrite IH.
    destruct (urlDecode_f_loop t); [|done..]. cbn [mbind outcome_bind app]. fold (bar_text ms).
    do 2 f_equal. rewrite <- !app_assoc. done.
Qed.

Lemma no_pct_contains s pat : no_pct s -> contains s (ch "%" :: pat) = false.
Proof.
  intros Hs. apply not_true_iff_false. intros (a & t & ->)%contains_spec.
  unfold no_pct in Hs. rewrite Forall_app in Hs. destruct Hs as [_ Hs]. inversion Hs. done.
Qed.

Lemma no_pct_bar_text ms : Forall macro_ok ms -> no_pct (bar_text ms).
Proof.
  unfold no_pct. induction 1 as [|[k v] ms (Hk & Hv & _) Hms IH]; simpl; [constructor|].
  constructor; [done|]. rewrite <- app_assoc, Forall_app. split; [done|].
  constructor; [done|]. rewrite Forall_app. done.
Qed.

Lemma split_bar_text ms tail :
  no_bar tail -> Forall macro_ok ms ->
  forall s, no_bar s -> split_on (fun c => c =? ch "|") (s ++ bar_text ms ++ ch "|" :: tail)
  = s :: flat_map (fun '(k, v) => [k; v]) ms ++ [tail].
Proof.
  intros Ht. induction 1 as [|[k v] ms (_ & _ & Hk & Hv) Hms IH]; intros s Hs.
  - cbn [bar_text flat_map app]. rewrite split_on_delim by done. by rewrite split_on_none.
  - cbn [bar_text flat_map app]. rewrite split_on_delim by done. fold (bar_text ms).
    rewrite <- !app_assoc. cbn [app]. rewrite split_on_delim, IH by done. done.
Qed.

Lemma insert_pairs_flat ms tail m :
  insert_pairs (flat_map (fun '(k, v) => [k; v]) ms ++ [tail]) m = m ∪ list_to_map ms.
Proof.
  revert m. induction ms as [|[k v] ms IH]; intros m; cbn [flat_map app insert_pairs].
  - simpl. by rewrite (right_id_L ∅ (∪) m).
  - rewrite IH. apply map_eq. intros i. rewrite !lookup_union, map_insert_lookup. simpl.
    destruct (decide (k = i)) as [->|].
    + rewrite lookup_insert_eq. by destruct (m !! i), (list_to_map ms !! i).
    + rewrite lookup_insert_ne by done. by destruct (m !! i), (list_to_map ms !! i).
Qed.

Lemma hex_string_chars n : 0 <= n -> Forall (fun c => c <> ch "%" /\ (c =? ch "|") = false) (hex_string n).
Proof.
  intros Hn. unfold hex_string. pose proof (digits_range 16 n ltac:(lia) Hn) as Hd.
  induction Hd as [|d ds Hd Hds IH]; simpl; constructor; [|done].
  by_table 16%nat (fun d => negb (hex_char d =? ch "%") && negb (hex_char d =? ch "|")).
  specialize (H d Hd). rewrite andb_true_iff, !negb_true_iff, Z.eqb_neq in H. done.
Qed.

Lemma field_code_nonneg t v : 0 <= field_code t v.
Proof. destruct t; simpl; [apply uwrap_range|]; lia. Qed.

Lemma table_code_nonneg table m vc : 0 <= vc -> 0 <= table_code table m vc.
Proof.
  unfold table_code. revert vc. induction table as [|[name t] table IH]; intros vc Hvc; simpl; [done|].
  apply IH. apply Z.lxor_nonneg. pose proof (field_code_nonneg t (default [] (m !! name))). lia.
Qed.

Lemma b64_letter_facts c :
  b64_letter c = true -> is_ascii c /\ c <> ch "%" /\ (c =? ch "|") = false /\ c <> 0 /\ c <> ch "&" /\ c <> ch " ".
Proof.
  intros E. assert (is_ascii c) as Hc.
  { unfold b64_letter in E. change (ch "A") with 65 in E. change (ch "Z") with 90 in E.
    change (ch "a") with 97 in E. change (ch "z") with 122 in E. change (ch "0") with 48 in E.
    change (ch "9") with 57 in E. change (ch "+") with 43 in E. change (ch "/") with 47 in E.
    change (ch "=") with 61 in E. unfold is_ascii. lia. }
  split; [done|].
  by_table 128%nat (fun c => negb (b64_letter c) ||
     (negb (c =? ch "%") && negb (c =? ch "|") && negb (c =? 0) && negb (c =? ch "&") && negb (c =? ch " "))).
  specialize (H c Hc). rewrite E in H. cbn [negb orb] in H.
  rewrite !andb_true_iff, !negb_true_iff, !Z.eqb_neq in H. rewrite Z.eqb_neq. tauto.
Qed.

(** ** Lemmas: parsing the parts of a url *)

Lemma find_at_char s c t i : Forall (fun x => x <> c) s -> find_at [c] (s ++ c :: t) i = Some (i + length s)%nat.
Proof.
  intros Hs. revert i. induction Hs as [|x s Hx Hs IH]; intros i; cbn [app find_at starts_with length].
  - rewrite Z.eqb_refl. cbn [andb]. f_equal. lia.
  - destruct (Z.eqb_spec c x); [congruence|]. cbn [andb]. rewrite IH. f_equal. lia.
Qed.

Lemma find_char pre s c t n :
  n = length pre -> Forall (fun x => x <> c) s ->
  find (pre ++ s ++ c :: t) [c] n = Some (n + length s)%nat.
Proof.
  intros -> Hs. rewrite find_after. unfold find. cbn [Nat.leb]. rewrite drop_0, find_at_char by done. done.
Qed.

Lemma find_char_none pre s c n : n = length pre -> Forall (fun x => x <> c) s -> find (pre ++ s) [c] n = None.
Proof.
  intros -> Hs. apply find_contains. apply not_true_iff_false. intros (a & t & ->)%contains_spec.
  rewrite !Forall_app, Forall_singleton in Hs. naive_solver.
Qed.

Definition no_char (c : Z) (s : bytes) : Prop := Forall (fun x => x <> c) s.

(** A url whose parts the parser recovers. *)
Record wf_url (h : URLHelper) (rest : bytes) : Prop := {
  wf_proto : protocolName h <> [] /\ no_char (ch ":") (protocolName h);
  wf_host : host h <> [] /\ no_char (ch ":") (host h) /\ no_char (ch "/") (host h);
  wf_path : exists p, path h = ch "/" :: p /\ no_char (ch "?") p;
  (* either there is a port number, or no other colon *)
  wf_port : (exists n, 0 <= n < 2 ^ 31 /\ port h = to_string n)
            \/ (port h = [] /\ no_char (ch ":") (path h ++ rest));
  wf_len : Z.of_nat (length (url_prefix h ++ rest)) < 2 ^ 64;
}.

Definition port_part (h : URLHelper) : bytes := match port h with [] => [] | p => ch ":" :: p end.

Lemma lookup_mid (a b : bytes) (c : Z) t i :
  i = length (a ++ b) -> default 0 ((a ++ b ++ c :: t) !! i) = c.
Proof. intros ->. rewrite app_assoc. by rewrite lookup_app_head. Qed.

Lemma digits_no_char c n : 0 <= n -> (c <? 48) || (57 <? c) = true -> no_char c (to_string n).
Proof.
  intros Hn Hc. rewrite to_string_nonneg by done.
  pose proof (dec_chars_digit _ (digits_range 10 n ltac:(lia) Hn)) as Hd.
  eapply Forall_impl; [exact Hd|]. intros x. unfold is_digit. lia.
Qed.

Lemma to_string_cons n : 0 <= n -> exists d s, to_string n = d :: s /\ is_digit d = true.
Proof.
  intros Hn. rewrite to_string_nonneg by done. pose proof (digits_ne 10 n).
  pose proof (dec_chars_digit _ (digits_range 10 n ltac:(lia) Hn)) as Hd.
  destruct (digits 10 n) as [|d ds]; [done|]. simpl. do 2 eexists. split; [done|]. by inversion Hd.
Qed.

(** A number followed by a path is read to the slash, whatever the path holds. *)
Lemma atoi_to_string_slash n p rest :
  0 <= n < 2 ^ 31 -> atoi (to_string n ++ (ch "/" :: p) ++ rest) = n.
Proof. intros Hn. by apply atoi_number. Qed.

Lemma u64_sub len k : k <= len < 2 ^ 64 -> 0 <= k -> u64 (len - k) = len - k.
Proof. intros. apply uwrap_small. lia. Qed.

Lemma colon_loop_ok h rest :
  wf_url h rest ->
  let url := protocolName h ++ str "://" ++ host h ++ port_part h ++ path h ++ rest in
  Z.of_nat (length url) < 2 ^ 64 ->
  exists host', colon_loop (S (length url)) url 0 0 empty_helper
    = Some (length (protocolName h) + 3, mkURLHelper ∅ ∅ (protocolName h) host' (port h) [])%nat
    /\ (host' = [] /\ port h = [] \/ host' = host h).
Proof.
  intros [(Hp & Hpc) (Hh & Hhc & Hhs) (p & Epath & Hq) Hport _] url Hlen.
  set (P := protocolName h) in *. set (H := host h) in *.
  assert (length H <> 0)%nat by (intros E; by apply Hh, nil_length_inv).
  set (tail := H ++ port_part h ++ path h ++ rest) in *.
  assert (length url = length P + 3 + length tail)%nat as El.
  { unfold url, tail. rewrite !length_app. simpl. lia. }
  assert (length tail = length H + length (port_part h) + S (length p) + length rest)%nat as Et.
  { unfold tail. rewrite !length_app, Epath. simpl. lia. }
  assert (url = (P ++ str "://") ++ tail) as Eu by (unfold url, tail; rewrite <- !app_assoc; done).
  cbn [colon_loop].
  replace (find url (str ":") 0) with (Some (length P)).
  2:{ symmetry. unfold url. change (str "://" ++ tail) with (ch ":" :: (str "//" ++ tail)).
      apply (find_char [] P (ch ":") _ 0); done. }
  rewrite u64_sub by lia.
  assert (default 0 (url !! (length P + 1)%nat) = ch "/") as ->.
  { unfold url. apply (lookup_mid P [ch ":"] (ch "/") (ch "/" :: tail)). rewrite length_app. done. }
  assert (default 0 (url !! (length P + 2)%nat) = ch "/") as ->.
  { unfold url. apply (lookup_mid P [ch ":"; ch "/"] (ch "/") tail). rewrite length_app. done. }
  rewrite Z.eqb_refl. destruct (Z.ltb_spec (Z.of_nat (length P)) (Z.of_nat (length url) - 3)); [|lia].
  cbn [andb].
  assert (slice url 0 (length P) = P) as -> by (apply (slice_app_mid [] P); done).
  destruct (length url) as [|fuel] eqn:Ef; [lia|]. cbn [colon_loop].
  assert (length P + 3 = length (P ++ str "://"))%nat as El3 by (rewrite length_app; done).
  destruct Hport as [(n & Hn & En)|[En Hc]].
  - destruct (to_string_cons n ltac:(lia)) as (d & s & Ed & Hd).
    assert (port_part h = ch ":" :: d :: s) as Epp by (unfold port_part; by rewrite En, Ed).
    replace (find url (str ":") (length P + 3)) with (Some (length P + 3 + length H)%nat).
    2:{ symmetry. rewrite Eu. unfold tail. rewrite Epp. cbn [app]. apply find_char; done. }
    assert (default 0 (url !! (length P + 3 + length H + 1)%nat) = d) as ->.
    { rewrite Eu. unfold tail. rewrite Epp. cbn [app].
      change (H ++ ch ":" :: d :: s ++ path h ++ rest) with (H ++ [ch ":"] ++ d :: s ++ path h ++ rest).
      rewrite (app_assoc H). apply lookup_mid. rewrite !length_app. simpl. lia. }
    assert ((d =? ch "/") = false) as ->.
    { unfold is_digit in Hd. change (ch "/") with 47. lia. }
    rewrite andb_false_r. cbn [andb]. rewrite u64_sub by lia. rewrite Hd.
    rewrite Epp in Et. simpl in Et.
    destruct (Z.ltb_spec (Z.of_nat (length P + 3 + length H)) (Z.of_nat (length url) - 2)); [|lia]. cbn [andb].
    eexists. split; [|right; reflexivity].
    assert (slice url (length P + 3) (length P + 3 + length H) = H) as ->.
    { rewrite Eu, El3. apply slice_app_mid; done. }
    assert (drop (length P + 3 + length H + 1) url = to_string n ++ path h ++ rest) as ->.
    { rewrite Eu. unfold tail. rewrite Epp, Ed. cbn [app].
      rewrite (app_assoc _ H), (cons_middle (ch ":")), (app_assoc _ [ch ":"]).
      replace (length P + 3 + length H + 1)%nat with (length (((P ++ str "://") ++ H) ++ [ch ":"]))
        by (rewrite !length_app; simpl; lia).
      apply drop_app_length. }
    unfold setHost, setProtocol. cbn [paramMap macroParamMap protocolName host port path empty_helper].
    rewrite Epath, atoi_to_string_slash by lia. by rewrite En.
  - assert (port_part h = []) as Epp by (unfold port_part; by rewrite En).
    replace (find url (str ":") (length P + 3)) with (@None nat).
    2:{ symmetry. rewrite Eu. apply find_char_none; [done|]. unfold tail. rewrite Epp. cbn [app].
        rewrite Forall_app. done. }
    eexists. split; [|left; split; [reflexivity|done]]. rewrite En. done.
Qed.

Section roundtrip.
Context `{UrlNames, MapOrder, Base64}.

(** What is left to do once the parts have been split off. *)
Lemma parse_url_ok h data encoded :
  wf_url h (ch "?" :: data) ->
  parse_url (url_prefix h ++ ch "?" :: data) encoded
  = processParamDataWithRetry data encoded
      (mkURLHelper ∅ ∅ (protocolName h) (host h) (port h) (path h)).
Proof.
  intros Hwf. pose proof Hwf as [(Hp & Hpc) (Hh & Hhc & Hhs) (p & Epath & Hq) Hport Hlen].
  set (rest := ch "?" :: data) in *.
  assert (url_prefix h ++ rest = protocolName h ++ str "://" ++ host h ++ port_part h ++ path h ++ rest) as Eu.
  { unfold url_prefix, port_part. destruct (protocolName h); [done|]. destruct (port h); rewrite <- !app_assoc; done. }
  rewrite Eu in *. destruct (colon_loop_ok h rest Hwf Hlen) as (host' & Ec & Hhost').
  unfold parse_url. rewrite Ec. clear Ec Hlen Eu.
  set (P := protocolName h) in *. set (H2 := host h) in *.
  assert (length P + 3 = length (P ++ str "://"))%nat as El3 by (rewrite length_app; done).
  assert (no_char (ch "/") (port_part h)) as Hpp.
  { unfold port_part. destruct Hport as [(n & Hn & ->)|[-> _]]; [|constructor].
    destruct (to_string_cons n ltac:(lia)) as (d & s & Ed & _). rewrite Ed, <- Ed.
    constructor; [done|]. apply digits_no_char; [lia|done]. }
  rewrite !(app_assoc P). rewrite Epath.
  replace (find _ (str "/") (length P + 3)) with (Some (length P + 3 + length (H2 ++ port_part h))%nat).
  2:{ symmetry. rewrite (app_assoc H2). apply find_char; [done|]. apply Forall_app. done. }
  set (url := (P ++ str "://") ++ H2 ++ port_part h ++ (ch "/" :: p) ++ rest).
  assert (url = ((P ++ str "://") ++ H2 ++ port_part h) ++ (ch "/" :: p) ++ rest) as Eu
    by (unfold url; rewrite <- !app_assoc; done).
  set (pos := (length P + 3 + length (H2 ++ port_part h))%nat).
  assert (pos = length ((P ++ str "://") ++ H2 ++ port_part h)) as Epos by (rewrite (length_app (P ++ _)); lia).
  replace (find url (str "?") pos) with (Some (pos + length (ch "/" :: p))%nat).
  2:{ symmetry. rewrite Eu. unfold rest. apply find_char; [done|]. by constructor. }
  assert (slice url pos (pos + length (ch "/" :: p)) = ch "/" :: p) as ->.
  { rewrite Eu, Epos. apply slice_app_mid; done. }
  assert (slice url (pos + length (ch "/" :: p) + 1) (length url) = data) as ->.
  { unfold slice. rewrite Eu, Epos. unfold rest. rewrite (cons_middle (ch "?")), !app_assoc.
    rewrite drop_app_length' by (rewrite !length_app; simpl; lia).
    apply take_ge. rewrite !length_app. simpl. lia. }
  f_equal. cbn [host setHost setPath]. destruct Hhost' as [[-> Ep]| ->].
  - assert (slice url (length P + 3) pos = H2) as ->; [|done].
    unfold pos, port_part. rewrite Ep, app_nil_r, El3. unfold url. by apply slice_app_mid.
  - by destruct H2.
Qed.

(** ** Lemmas: ciphering and deciphering *)

Context `{!UrlNamesLaws _, !MapOrderLaws _, !Base64Laws _}.

(** The check word, the macros with it, the serialized parameters and the text. *)
Definition check_word (h : URLHelper) : Z := table_code paramBindingTable (paramMap h) 0xFFFFFFFF.
Definition checked_macros (h : URLHelper) : ParamMap :=
  <[MACRO_HOLDER := hex_string (check_word h)]> (macroParamMap h).
Definition serialized (h : URLHelper) : bytes := table_text paramBindingTable (paramMap h).
Definition cipher_text (h : URLHelper) : bytes :=
  ENCODE_HOLDER ++ str "=" ++ flat_map encode_f_char (b64_encode (serialized h))
  ++ macro_text (enum (checked_macros h)) ++ str "%7c".

(** What a round trip makes of the parameters: the normal form of those of the table,
    and the macros with the check word. *)
Definition recovered (h : URLHelper) : ParamMap := restore paramBindingTable (paramMap h) ∅ ∪ checked_macros h.

(** The conditions under which the cipher carries an object: values are bytes, the
    integer parameters are not negative, macros hold no percent sign or bar, the
    serialized form leaves ten bytes of the buffer, and the text fits a query. *)
Record cipherable (h : URLHelper) : Prop := {
  c_bytes : map_Forall (fun _ v => Forall is_byte v) (paramMap h);
  c_ints : nonneg_ints paramBindingTable (paramMap h);
  c_macros : map_Forall (fun k v => macro_ok (k, v)) (macroParamMap h);
  c_buffer : Z.of_nat (length (serialized h)) + 10 <= BUFSIZE;
  c_query : (length (cipher_text h) < 2048)%nat;
  c_holder : forall k, url_name k <> MACRO_HOLDER;
}.

Lemma urlParamSerialize_ok h :
  Z.of_nat (length (serialized h)) + 10 <= BUFSIZE ->
  urlParamSerialize h = Val (serialized h, with_macros (checked_macros h) h).
Proof.
  intros Hb. unfold urlParamSerialize.
  destruct (serialize_loop_ok paramBindingTable (paramMap h) (WState [] BUFSIZE) 0xFFFFFFFF)
    as (w & -> & Hw).
  - unfold counted. simpl. lia.
  - unfold room. cbn [wout length]. unfold serialized in Hb. lia.
  - cbn [mbind outcome_bind]. rewrite Hw. cbn [wout app]. unfold serialized, checked_macros, check_word. reflexivity.
Qed.

Lemma varint_bytes n : 0 <= n < 2 ^ 63 -> Forall is_byte (varint n).
Proof.
  intros Hn. unfold varint. destruct (groups_spec n Hn) as (Hd & _ & _).
  induction Hd as [|d ds Hd Hds IH]; [constructor|]. unfold digit7, is_byte in *.
  destruct ds; repeat constructor; try lia. exact IH.
Qed.

Lemma serialized_bytes h : cipherable h -> Forall is_byte (serialized h).
Proof.
  intros [Hb Hi _ Hl _ _]. unfold serialized, BUFSIZE in *.
  unfold nonneg_ints in Hi. induction Hi as [|[name t] table Hn Hns IH]; [constructor|].
  cbn [table_text flat_map] in *. rewrite length_app in Hl. fold (table_text table (paramMap h)) in *.
  rewrite Forall_app. split; [|apply IH; lia].
  destruct t; cbn [field_text] in *.
  - apply varint_bytes. split; [by apply Hn|apply int_value_range].
  - rewrite length_app in Hl. rewrite Forall_app. split; [apply varint_bytes; lia|].
    destruct (paramMap h !! name) as [v|] eqn:E; [|constructor]. by apply (Hb name v).
Qed.

Lemma serialized_ne h : serialized h <> [].
Proof.
  unfold serialized, paramBindingTable. cbn [map table_text flat_map]. intros [E _]%app_nil.
  by apply field_text_ne in E.
Qed.

Lemma b64_ok h : cipherable h ->
  Forall (fun c => is_ascii c /\ c <> ch "%" /\ (c =? ch "|") = false /\ c <> 0 /\ c <> ch "&" /\ c <> ch " ")
    (b64_encode (serialized h)).
Proof.
  intros Hc. eapply Forall_impl; [apply b64_letters, serialized_bytes, Hc|]. apply b64_letter_facts.
Qed.

Lemma cipherParam_ok h :
  cipherable h -> cipherParam h = Val (cipher_text h, with_macros (checked_macros h) h).
Proof.
  intros Hc. pose proof (b64_ok h Hc) as Hb64. destruct Hc as [_ _ _ Hb Hq _].
  unfold cipherParam. rewrite urlParamSerialize_ok by done. cbn [mbind outcome_bind].
  unfold base64encode. cbn [app]. unfold urlEncode_f.
  rewrite urlEncode_f_loop_ok; [done| |].
  - eapply Forall_impl; [exact Hb64|]. naive_solver.
  - unfold cipher_text in Hq. rewrite !length_app in Hq. simpl. lia.
Qed.

Lemma check_word_nonneg h : 0 <= check_word h.
Proof. unfold check_word. apply table_code_nonneg. discriminate. Qed.

Lemma checked_macros_ok h : cipherable h -> Forall macro_ok (enum (checked_macros h)).
Proof.
  intros [_ _ Hm _ _ _]. rewrite enum_perm.
  assert (map_Forall (fun k v => macro_ok (k, v)) (checked_macros h)) as Hmm.
  2:{ apply map_Forall_to_list in Hmm. eapply Forall_impl; [exact Hmm|]. by intros [k v]. }
  unfold checked_macros. apply map_Forall_insert_2; [|done].
  pose proof (hex_string_chars (check_word h)) as Hx.
  specialize (Hx (check_word_nonneg h)).
  unfold macro_ok, no_pct, no_bar; cbn [fst snd]. split_and!; [by_decide| |by_decide|];
    (eapply Forall_impl; [exact Hx|]; naive_solver).
Qed.

Lemma restore_no_holder h k : (forall k, url_name k <> MACRO_HOLDER) -> k = MACRO_HOLDER ->
  restore paramBindingTable (paramMap h) ∅ !! k = None.
Proof.
  intros Hn ->. rewrite restore_lookup by apply table_names_NoDup. rewrite lookup_empty.
  assert (list_find (fun e => e.1 = MACRO_HOLDER) paramBindingTable = None) as ->; [|done].
  apply list_find_None. apply Forall_forall. intros e He. unfold paramBindingTable in He.
  apply list_elem_of_In, in_map_iff in He as ([k t] & <- & _). simpl. apply Hn.
Qed.

(** [tail] is what follows the ciphered text in a query. *)
Definition plain_tail (h : URLHelper) (tail : bytes) : Prop :=
  no_pct tail /\ no_bar tail /\ (length (cipher_text h ++ tail) < 2048)%nat.

Lemma plain_tail_nil h : cipherable h -> plain_tail h [].
Proof. intros Hc. split; [constructor|]. split; [constructor|]. rewrite app_nil_r. apply (c_query h Hc). Qed.

Lemma decode_cipher_text h tail :
  cipherable h -> plain_tail h tail ->
  urlDecode_f (cipher_text h ++ tail) 2048
  = Val ((ENCODE_HOLDER ++ str "=" ++ b64_encode (serialized h)) ++ bar_text (enum (checked_macros h)) ++ ch "|" :: tail).
Proof.
  intros Hc (Hp & _ & Hq). pose proof (checked_macros_ok h Hc) as Hm. pose proof (b64_ok h Hc) as Hb.
  unfold urlDecode_f.
  destruct (Z.leb_spec (Z.of_nat (length (cipher_text h ++ tail)) + 1) 2048); [|lia]. cbn [check mbind outcome_bind].
  unfold cipher_text. rewrite <- !app_assoc, (app_assoc ENCODE_HOLDER).
  rewrite urlDecode_f_loop_plain by by_decide.
  rewrite urlDecode_f_loop_enc by (eapply Forall_impl; [exact Hb|]; naive_solver).
  rewrite urlDecode_f_loop_macros by done.
  rewrite urlDecode_f_loop_bar. pose proof (urlDecode_f_loop_plain tail [] Hp) as E. rewrite app_nil_r in E.
  rewrite E. cbn [urlDecode_f_loop mbind outcome_bind]. by rewrite app_nil_r, !app_assoc.
Qed.

Lemma getParamv2_str_join ps :
  ps <> [] -> Forall (wf_param (ch "&")) ps -> (forall k, last ps <> Some (k, [])) ->
  getParamv2_str ∅ (join (ch "&") ps) = Val (assigned ∅ ps).
Proof.
  intros Hne Hwf Hl. unfold getParamv2_str, getParamv2. pose proof (no_nul_join (ch "&") ps ltac:(done) Hwf) as Hn.
  pose proof (getParamv2_join [] (ch "&") ps [] ∅ Hne Hwf ltac:(done) ltac:(done) Hl) as E.
  rewrite c_str_id by done. exact E.
Qed.

(** A query of one parameter. *)
Lemma getParamv2_single k v :
  wf_param (ch "&") (k, v) -> v <> [] -> getParamv2_str ∅ (k ++ str "=" ++ v) = Val {[k := v]}.
Proof.
  intros Hwf Hv. apply (getParamv2_str_join [(k, v)]); [done|by constructor|]. by intros k' [= _ ?].
Qed.

Lemma processParamData_cipher h h0 tail :
  cipherable h -> plain_tail h tail -> paramMap h0 = ∅ ->
  processParamData (cipher_text h ++ tail) true h0 = Val (true, with_params (recovered h) h0).
Proof.
  intros Hc Ht Hh0. destruct (Ht) as (Htp & Htb & _). pose proof (checked_macros_ok h Hc) as Hm. pose proof (b64_ok h Hc) as Hb.
  unfold processParamData, processParamData_body. rewrite Hh0, decode_cipher_text by done.
  cbn [mbind outcome_bind].
  assert (contains ((ENCODE_HOLDER ++ str "=" ++ b64_encode (serialized h))
    ++ bar_text (enum (checked_macros h)) ++ ch "|" :: tail) (str "%7c") = false) as ->.
  { apply no_pct_contains. unfold no_pct. rewrite !Forall_app.
    split_and!; [by_decide|by_decide| |by apply no_pct_bar_text|by constructor].
    eapply Forall_impl; [exact Hb|]. naive_solver. }
  cbn [mbind outcome_bind]. rewrite split_bar_text; [|done|done|].
  2:{ unfold no_bar. rewrite !Forall_app. split_and!; [by_decide|by_decide|].
      eapply Forall_impl; [exact Hb|]. naive_solver. }
  set (enc := b64_encode (serialized h)) in *.
  assert (enc <> []) as Hne by (apply b64_nonempty, serialized_ne).
  assert (getParamv2_str ∅ (ENCODE_HOLDER ++ str "=" ++ enc) = Val {[ENCODE_HOLDER := enc]}) as ->.
  { apply getParamv2_single; [|done]. constructor; cbn [fst snd]; [discriminate|by_decide|discriminate| |].
    - eapply Forall_impl; [exact Hb|]. naive_solver.
    - destruct enc; [done|]. inversion Hb; subst. cbn [no_lead_space]. naive_solver. }
  cbn [mbind outcome_bind]. rewrite lookup_singleton_eq. cbn [from_option id]. unfold base64decode, enc.
  rewrite b64_roundtrip by by apply serialized_bytes. cbn [app]. unfold urlParamDeserialize.
  unfold serialized. rewrite deserialize_loop_ok.
  2:{ apply Hc. } 2:{ pose proof (c_buffer h Hc) as Hbuf. unfold serialized, BUFSIZE in Hbuf. lia. }
  cbn [mbind outcome_bind]. rewrite insert_pairs_flat.
  assert (list_to_map (enum (checked_macros h)) = checked_macros h) as ->.
  { rewrite <- (list_to_map_to_list (checked_macros h)) at 2. apply list_to_map_proper; [|apply enum_perm].
    rewrite enum_perm. apply NoDup_fst_map_to_list. }
  assert ((restore paramBindingTable (paramMap h) ∅ ∪ checked_macros h) !! MACRO_HOLDER
          = Some (hex_string (check_word h))) as ->.
  { rewrite lookup_union, (restore_no_holder h) by (done || apply Hc). unfold checked_macros.
    rewrite lookup_insert_eq. done. }
  cbn [from_option id]. unfold check_word. rewrite bool_decide_eq_true_2 by reflexivity.
  cbn [mbind outcome_bind try_std]. unfold recovered. reflexivity.
Qed.

(** ** Lemmas: the plain query *)

Lemma join_params_join ps first : ps <> [] ->
  join_params first ps = (if first then [] else [ch "&"]) ++ join (ch "&") ps.
Proof.
  revert first. induction ps as [|[k v] ps IH]; intros first Hne; [done|].
  cbn [join_params]. change (str "=" ++ ?x) with (ch "=" :: x).
  destruct ps as [|kv ps].
  - cbn [join_params join]. rewrite app_nil_r. by destruct first.
  - rewrite IH by done. change (join (ch "&") ((k, v) :: kv :: ps))
      with (pair_text (k, v) ++ ch "&" :: join (ch "&") (kv :: ps)).
    unfold pair_text. cbn [fst snd]. rewrite <- app_assoc. cbn [app]. by destruct first.
Qed.

Lemma join_app ps qs : ps <> [] -> qs <> [] ->
  join (ch "&") (ps ++ qs) = join (ch "&") ps ++ ch "&" :: join (ch "&") qs.
Proof.
  intros Hp Hq. induction ps as [|kv ps IH]; [done|]. destruct ps as [|kv' ps].
  - cbn [app]. destruct qs; [done|]. done.
  - change (join (ch "&") ((kv :: kv' :: ps) ++ qs))
      with (pair_text kv ++ ch "&" :: join (ch "&") ((kv' :: ps) ++ qs)).
    rewrite IH by done. change (join (ch "&") (kv :: kv' :: ps))
      with (pair_text kv ++ ch "&" :: join (ch "&") (kv' :: ps)).
    by rewrite <- app_assoc.
Qed.

Lemma join_ne ps : ps <> [] -> join (ch "&") ps <> [].
Proof.
  intros Hp E. apply (f_equal length) in E. destruct ps as [|[k v] [|kv ps]]; [done|..];
    cbn [join] in E; unfold pair_text in E; rewrite ?length_app in E; simpl in E; lia.
Qed.

Lemma toUrlParam_join h : enum (paramMap h) <> [] ->
  toUrlParam h = join (ch "&") (enum (paramMap h) ++ enum (macroParamMap h)).
Proof.
  intros Hp. unfold toUrlParam. rewrite join_params_join by done. cbn [app].
  pose proof (join_ne _ Hp) as Hj. destruct (join (ch "&") (enum (paramMap h))) as [|c s] eqn:E; [done|].
  destruct (enum (macroParamMap h)) as [|kv ms] eqn:Em.
  - by rewrite !app_nil_r.
  - rewrite join_params_join, join_app, E by done. done.
Qed.

Lemma assigned_list_to_map m ps : NoDup ps.*1 -> assigned m ps = list_to_map ps ∪ m.
Proof.
  unfold assigned. revert m. induction ps as [|[k v] ps IH]; intros m Hnd; cbn [foldl].
  - cbn [list_to_map foldr]. by rewrite (left_id_L ∅ (∪) m).
  - cbn [fmap list_fmap fst] in Hnd. apply NoDup_cons in Hnd as [Hni Hnd]. rewrite IH by done.
    cbn [fst snd list_to_map foldr]. apply map_eq. intros i. rewrite !lookup_union.
    destruct (decide (i = k)) as [->|Hne].
    + change (foldr _ ∅ ps) with (list_to_map ps : ParamMap). rewrite !lookup_insert_eq.
      rewrite (not_elem_of_list_to_map_1 ps k) by done. by destruct (m !! k).
    + rewrite !lookup_insert_ne by done. done.
Qed.

Lemma assigned_enum m q : assigned m (enum q) = q ∪ m.
Proof.
  rewrite assigned_list_to_map by (rewrite enum_perm; apply NoDup_fst_map_to_list).
  f_equal. rewrite <- (list_to_map_to_list q) at 2. apply list_to_map_proper; [|apply enum_perm].
  rewrite enum_perm. apply NoDup_fst_map_to_list.
Qed.

(** The parameters [toUrl] prints so that [fromUrl] reads them back. *)
Definition plain_params (m : ParamMap) : Prop :=
  map_Forall (fun k v => wf_param (ch "&") (k, v) /\ v <> []) m.

Lemma plain_params_enum m : plain_params m -> Forall (fun kv => wf_param (ch "&") kv /\ kv.2 <> []) (enum m).
Proof.
  intros Hm. rewrite enum_perm. apply map_Forall_to_list in Hm.
  eapply Forall_impl; [exact Hm|]. by intros [k v].
Qed.

Lemma enum_ne m : m <> ∅ -> enum m <> [].
Proof.
  intros Hm E. apply Hm. apply map_to_list_empty_iff. apply Permutation_nil_r. by rewrite <- enum_perm, E.
Qed.

Lemma getParamv2_plain_params p q :
  plain_params p -> plain_params q -> p <> ∅ ->
  getParamv2_str ∅ (join (ch "&") (enum p ++ enum q)) = Val (q ∪ p).
Proof.
  intros Hp Hq Hne. pose proof (plain_params_enum p Hp) as Fp. pose proof (plain_params_enum q Hq) as Fq.
  assert (Forall (fun kv => wf_param (ch "&") kv /\ kv.2 <> []) (enum p ++ enum q)) as F by by apply Forall_app.
  assert (enum p ++ enum q <> []) as Hl by (pose proof (enum_ne p Hne); by destruct (enum p)).
  assert (Forall (wf_param (ch "&")) (enum p ++ enum q)) as Fw by (eapply Forall_impl; [exact F|]; naive_solver).
  unfold getParamv2_str, getParamv2. rewrite c_str_id by by apply no_nul_join.
  pose proof (getParamv2_join [] (ch "&") (enum p ++ enum q) [] ∅ Hl Fw) as E.
  cbn [app length] in E. rewrite E; [|done|done|].
  - f_equal. unfold assigned. rewrite foldl_app. fold (assigned ∅ (enum p)). rewrite assigned_enum.
    fold (assigned (p ∪ ∅) (enum q)). rewrite assigned_enum. by rewrite (right_id_L ∅ (∪) p).
  - intros k Hk. apply last_Some in Hk as [l' Hk]. rewrite Hk, Forall_app, Forall_singleton in F.
    destruct F as [_ [_ F]]. done.
Qed.
End roundtrip.

(** ** A concrete instance of the parameters *)

Definition key_index (k : url_key) : Z :=
  match k with
  | URL_REFERER => 0 | URL_ADPLACE_ID => 1 | URL_MTTYADPLACE_ID => 2 | URL_EXPOSE_ID => 3
  | URL_ADOWNER_ID => 4 | URL_ADPLAN_ID => 5 | URL_EXEC_ID => 6 | URL_CREATIVE_ID => 7
  | URL_ADX_ID => 8 | URL_CLICK_ID => 9 | URL_AREA_ID => 10 | URL_CLICK_X => 11
  | URL_CLICK_Y => 12 | URL_ADX_MACRO => 13 | URL_BID_PRICE => 14 | URL_EXCHANGE_PRICE => 15
  | URL_MTTY_UID => 16 | URL_PRICE_TYPE => 17 | URL_PRODUCTPACKAGE_ID => 18 | URL_ORDER_ID => 19
  | URL_IMP_OF => 20 | URL_DEAL_ID => 21 | URL_DEVICE_IDFA => 22 | URL_DEVICE_IMEI => 23
  | URL_DEVICE_ANDOROIDID => 24 | URL_DEVICE_MAC => 25 | URL_LANDING_URL => 26 | URL_TIMEM => 27
  | URL_SITE_ID => 28 | URL_FLOWTYPE => 29 | URL_IP => 30 | URL_ADX_BIDID => 31
  | URL_ADX_IMPID => 32 | URL_CHANNEL => 33 | URL_FEE_RATE => 34 | URL_FEE_RATE_STRS => 35
  | URL_ADPLACE_BUY_TYPE => 36
  end.

(** One letter per name, and the order of [map_to_list]. *)
Definition letter_names : UrlNames := {| url_name k := [64 + key_index k] |}.
Definition list_order : MapOrder := {| enum := map_to_list |}.

Lemma letter_names_laws : UrlNamesLaws letter_names.
Proof. constructor. intros [] []; simpl; intros E; try reflexivity; discriminate E. Qed.
Lemma list_order_laws : MapOrderLaws list_order.
Proof. by constructor. Qed.

Module Concrete.
#[export] Existing Instance letter_names.
#[export] Existing Instance letter_names_laws.
#[export] Existing Instance list_order.
#[export] Existing Instance list_order_laws.
#[export] Existing Instance base64_reference.
#[export] Existing Instance base64_reference_laws.
End Concrete.

(** ** Theorems *)

(** Variable length numbers round trip: a positive 63 bit number is written in at
    most nine bytes, all of them inside the buffer when nine are left, the count of the
    room is kept exactly, and [numberDecode] at the old cursor returns the number and
    stops after its last byte. *)
Theorem numberDecode_numberEncode n w rest :
  0 < n < 2 ^ 63 -> 10 < wrem w -> Z.of_nat (length (wout w)) + 9 <= BUFSIZE ->
  exists v, numberEncode n w = Val (WState (wout w ++ v) (wrem w - Z.of_nat (length v)))
    /\ (1 <= length v <= 9)%nat
    /\ numberDecode (v ++ rest) = Val (n, rest).
Proof.
  intros Hn Hw Hr. exists (varint n). pose proof (length_varint n ltac:(lia)).
  split_and!; [apply numberEncode_ok; unfold room; lia|lia|lia|].
  apply numberDecode_number. lia.
Qed.

Lemma numberDecode_numberEncode_witness :
  exists v, numberEncode 300 (WState [] 2048) = Val (WState ([] ++ v) (2048 - Z.of_nat (length v)))
    /\ (1 <= length v <= 9)%nat /\ numberDecode (v ++ [7]) = Val (300, [7]).
Proof. apply (numberDecode_numberEncode 300 (WState [] 2048) [7]); simpl; unfold BUFSIZE; lia. Defined.

(** Serializing the parameters succeeds, without leaving the buffer, whenever the
    fields leave ten bytes of it; deserializing the result gives every parameter of the
    table back in normal form and nothing else, and recomputes the check word that
    [urlParamSerialize] stored, for integer parameters that are not negative. *)
Theorem urlParamSerialize_roundtrip (N : UrlNames) (L : UrlNamesLaws N) (h : URLHelper) :
  Z.of_nat (length (serialized h)) + 10 <= BUFSIZE ->
  nonneg_ints paramBindingTable (paramMap h) ->
  exists text h' m vc,
    urlParamSerialize h = Val (text, h')
    /\ urlParamDeserialize text ∅ = Val (m, vc)
    /\ macroParamMap h' !! MACRO_HOLDER = Some (hex_string vc)
    /\ forall k, m !! k = match list_find (fun e => e.1 = k) paramBindingTable with
                          | Some (_, (name, t)) => normal t (default [] (paramMap h !! name))
                          | None => None
                          end.
Proof.
  intros Hb Hi. exists (serialized h), (with_macros (checked_macros h) h),
    (restore paramBindingTable (paramMap h) ∅), (check_word h).
  split_and!.
  - by apply urlParamSerialize_ok.
  - unfold urlParamDeserialize, serialized, check_word. rewrite deserialize_loop_ok; [reflexivity|exact Hi|].
    unfold serialized, BUFSIZE in Hb. lia.
  - cbn [macroParamMap with_macros]. unfold checked_macros. apply lookup_insert_eq.
  - intros k. rewrite restore_lookup by apply table_names_NoDup. by rewrite lookup_empty.
Qed.

Lemma decipher_cipher (N : UrlNames) (L : UrlNamesLaws N) (O : MapOrder) (P : MapOrderLaws O)
    (B : Base64) (Q : Base64Laws B) (h : URLHelper) :
  cipherable h -> wf_url h (ch "?" :: cipher_text h) ->
  exists url h', cipherUrl h = Val (url, h')
    /\ fromCipherUrl url
       = Val (mkURLHelper (recovered h) ∅ (protocolName h) (host h) (port h) (path h)).
Proof.
  intros Hc Hw. exists (url_prefix h ++ ch "?" :: cipher_text h), (with_macros (checked_macros h) h).
  split.
  - unfold cipherUrl. rewrite cipherParam_ok by done. cbn [mbind outcome_bind try_std].
    assert (cipher_text h <> []) as Hne by (unfold cipher_text; discriminate).
    destruct (cipher_text h) as [|c s]; [done|]. reflexivity.
  - unfold fromCipherUrl. rewrite parse_url_ok by done. unfold processParamDataWithRetry.
    pose proof (c_query h Hc). destruct (Nat.leb_spec 2048 (length (cipher_text h))); [lia|].
    pose proof (plain_tail_nil h Hc) as Ht. pose proof (fun h0 => processParamData_cipher h h0 [] Hc Ht) as E.
    rewrite app_nil_r in E. rewrite E by done. reflexivity.
Qed.

(** C1. Deciphering a ciphered url gives the object back: for every cipherable object and
    well formed url parts, [fromCipherUrl] of what [cipherUrl] printed recovers protocol,
    host, port and path, the parameters in normal form, and the macros with a check word
    that matches. *)
Theorem fromCipherUrl_cipherUrl (N : UrlNames) (L : UrlNamesLaws N) (O : MapOrder) (P : MapOrderLaws O)
    (B : Base64) (Q : Base64Laws B) (h : URLHelper) :
  cipherable h -> wf_url h (ch "?" :: cipher_text h) ->
  exists url h', cipherUrl h = Val (url, h')
    /\ fromCipherUrl url
       = Val (mkURLHelper (recovered h) ∅ (protocolName h) (host h) (port h) (path h)).
Proof. by apply decipher_cipher. Qed.

(** Printing and parsing a plain url round trips: [fromUrl] of [toUrl] recovers the
    parts and the union of parameters and macros. *)
Theorem fromUrl_toUrl (O : MapOrder) (P : MapOrderLaws O) (B : Base64) (N : UrlNames) (h : URLHelper) :
  plain_params (paramMap h) -> plain_params (macroParamMap h) -> paramMap h <> ∅ ->
  (length (toUrlParam h) < 2048)%nat -> wf_url h (ch "?" :: toUrlParam h) ->
  fromUrl (toUrl h)
  = Val (mkURLHelper (macroParamMap h ∪ paramMap h) ∅ (protocolName h) (host h) (port h) (path h)).
Proof.
  intros Hp Hm Hne Hl Hw. unfold toUrl.
  pose proof (enum_ne _ Hne) as He. pose proof (toUrlParam_join h He) as Ej.
  assert (toUrlParam h <> []) as Hd.
  { rewrite Ej. apply join_ne. by destruct (enum (paramMap h)). }
  replace (match toUrlParam h with [] => [] | d => str "?" ++ d end) with (ch "?" :: toUrlParam h)
    by (by destruct (toUrlParam h)).
  unfold fromUrl. rewrite parse_url_ok by done. unfold processParamDataWithRetry.
  destruct (Nat.leb_spec 2048 (length (toUrlParam h))); [lia|].
  unfold processParamData, processParamData_body. cbn [paramMap]. rewrite Ej.
  rewrite getParamv2_plain_params by done. reflexivity.
Qed.

Section witnesses.
Import Concrete.

Definition sample : URLHelper :=
  mkURLHelper {[ url_name URL_REFERER := str "ref"; url_name URL_ADOWNER_ID := str "007" ]}
    {[ str "p" := str "${AUCTION}" ]} (str "http") (str "show.mtty.com") [] (str "/v").

Lemma urlParamSerialize_roundtrip_witness :
  exists text h' m vc,
    urlParamSerialize sample = Val (text, h') /\ urlParamDeserialize text ∅ = Val (m, vc)
    /\ m !! url_name URL_ADOWNER_ID = Some (str "7").
Proof.
  destruct (urlParamSerialize_roundtrip letter_names letter_names_laws sample) as (text & h' & m & vc & E1 & E2 & _ & E3).
  - vm_compute. discriminate.
  - repeat constructor; vm_compute; congruence.
  - exists text, h', m, vc. split; [exact E1|]. split; [exact E2|]. rewrite E3. vm_compute. reflexivity.
Defined.

Lemma sample_cipherable : cipherable sample.
Proof.
  constructor.
  - by_decide.
  - repeat constructor; vm_compute; congruence.
  - intros k v Hk. cbn [macroParamMap sample] in Hk. apply lookup_singleton_Some in Hk as [<- <-].
    unfold macro_ok, no_pct, no_bar. cbn [fst snd]. split_and!; by_decide.
  - vm_compute. discriminate.
  - vm_compute. lia.
  - intros [] E; discriminate E.
Qed.

Lemma sample_wf : wf_url sample (ch "?" :: cipher_text sample).
Proof.
  constructor.
  - split; [discriminate|by_decide].
  - split_and!; [discriminate|by_decide|by_decide].
  - exists (str "v"). split; [reflexivity|by_decide].
  - right. split; [reflexivity|by_decide].
  - vm_compute. reflexivity.
Qed.

Lemma fromCipherUrl_cipherUrl_witness :
  exists url h', cipherUrl sample = Val (url, h') /\
    fromCipherUrl url = Val (mkURLHelper (recovered sample) ∅ (str "http") (str "show.mtty.com") [] (str "/v")).
Proof.
  apply (fromCipherUrl_cipherUrl letter_names letter_names_laws list_order list_order_laws
           base64_reference base64_reference_laws sample).
  - exact sample_cipherable.
  - exact sample_wf.
Defined.

Lemma sample_plain : plain_params (paramMap sample) /\ plain_params (macroParamMap sample).
Proof.
  assert (forall m : ParamMap, map_Forall (fun k v => k <> [] /\ v <> []
    /\ Forall (fun c => c <> 0 /\ c <> ch "&" /\ c <> ch "=") k
    /\ Forall (fun c => c <> 0 /\ c <> ch "&") v
    /\ k !! 0%nat <> Some (ch " ") /\ v !! 0%nat <> Some (ch " ")) m -> plain_params m) as G.
  { intros m Hm k v E. destruct (Hm k v E) as (? & ? & ? & ? & Hk & Hv). split; [constructor|]; try done.
    - destruct k; [done|]. simpl in *. congruence.
    - destruct v; [done|]. simpl in *. congruence. }
  split; apply G; by_decide.
Qed.

Lemma fromUrl_toUrl_witness :
  fromUrl (toUrl sample)
  = Val (mkURLHelper (macroParamMap sample ∪ paramMap sample) ∅ (str "http") (str "show.mtty.com") [] (str "/v")).
Proof.
  apply (fromUrl_toUrl list_order list_order_laws base64_reference letter_names sample).
  - apply sample_plain.
  - apply sample_plain.
  - vm_compute. discriminate.
  - vm_compute. lia.
  - constructor.
    + split; [discriminate|by_decide].
    + split_and!; [discriminate|by_decide|by_decide].
    + exists (str "v"). split; [reflexivity|by_decide].
    + right. split; [reflexivity|by_decide].
    + vm_compute. reflexivity.
Defined.
End witnesses.

Section observations.
Import Concrete.

(** The count of the room is not reduced for a zero number, so it runs ahead of the
    buffer: with the table's zero numbers before it, a last string that the check accepts
    is copied past the end of the 2048 byte array. *)
Theorem urlParamSerialize_overflow :
  let h := with_params {[ url_name URL_FEE_RATE_STRS := replicate 2020 65 ]} empty_helper in
  urlParamSerialize h = Undef.
Proof. vm_compute. reflexivity. Qed.

(** A negative number is written as zero but enters the check word as itself, so the
    word recomputed by the reader differs and every parameter is dropped. *)
Theorem cipher_negative_dropped :
  let h := with_params {[ url_name URL_CLICK_X := str "-3"; url_name URL_REFERER := str "r" ]} empty_helper in
  ('(text, _) ← cipherParam h; processParamData text true empty_helper) = Val (true, empty_helper).
Proof. vm_compute. reflexivity. Qed.

(** A second [://] (an unescaped url in the query) is taken for the protocol again. *)
Lemma fromUrl_nested_protocol :
  (h ← fromUrl (str "http://a.com/x?u=http://b.com/y"); Val (protocolName h, host h, path h))
  = Val (str "http://a.com/x?u=http", str "b.com", str "/y").
Proof. vm_compute. reflexivity. Qed.
End observations.
