(* ===== verification/Rijndael.v ===== *)
(** * Rijndael: the block cipher behind the sohu price (protocol/sohu/sohu_price.cpp)

    [CRijndael] with key expansion, the table driven block transforms, the three
    modes, and the price decoder built on them.  [int] words are signed 32 bit
    values; a lookup [sm_X[e & 0xFF]] is always inside its table, so the tables and
    the round key rows are read with a default that is never used.  The scratch
    members [tk], [a] and [t] are local to the operations here.  A [const char *]
    argument is the list of the bytes that can be read through it. *)
From S2P Require Import Prelude CString Cypher RijndaelTables.

Definition DEFAULT_BLOCK_SIZE : Z := 16.
Definition ErrorMsg1 : exn := RuntimeError "Object not Initialized".
Definition ErrorMsg2 : exn := RuntimeError "Data not multiple of Block Size".

Inductive mode := ECB | CBC | CFB.

(** ** Table lookups *)

Definition tab (T : list Z) (i : Z) : Z := nth (Z.to_nat i) T 0.

(** The four bytes of a word: [(w >> 24) & 0xFF] and so on. *)
Definition B3 (w : Z) : Z := Z.land (Z.shiftr w 24) 0xFF.
Definition B2 (w : Z) : Z := Z.land (Z.shiftr w 16) 0xFF.
Definition B1 (w : Z) : Z := Z.land (Z.shiftr w 8) 0xFF.
Definition B0 (w : Z) : Z := Z.land w 0xFF.

(** [sm_S[x] & 0xFF] *)
Definition Sb (x : Z) : Z := Z.land (tab sm_S x) 0xFF.

(** The big endian load of four bytes; the first shift may reach the sign bit. *)
Definition word (b3 b2 b1 b0 : Z) : Z :=
  Z.lor (Z.lor (Z.lor (s32 (Z.shiftl b3 24)) (Z.shiftl b2 16)) (Z.shiftl b1 8)) b0.

(** Multiplication in GF(2^8) by logarithms. *)
Definition Mul (a b : Z) : Z :=
  if negb (a =? 0) && negb (b =? 0)
  then tab sm_alog ((tab sm_log (Z.land a 0xFF) + tab sm_log (Z.land b 0xFF)) mod 255) else 0.

Definition Mul4 (a : Z) (b : list Z) : Z :=
  if a =? 0 then 0
  else
    let a := tab sm_log (Z.land a 0xFF) in
    let m k := let bk := nth k b 0 in
               if bk =? 0 then 0
               else Z.land (tab sm_alog ((a + tab sm_log (Z.land bk 0xFF)) mod 255)) 0xFF in
    Z.lor (Z.lor (Z.lor (s32 (Z.shiftl (m 0%nat) 24)) (Z.shiftl (m 1%nat) 16)) (Z.shiftl (m 2%nat) 8)) (m 3%nat).

(** ** The object *)

Record CRijndael := mkRijndael {
  m_bKeyInit : bool;
  m_Ke : list (list Z);
  m_Kd : list (list Z);
  m_keylength : Z;
  m_blockSize : Z;
  m_iROUNDS : nat;
  m_chain0 : bytes;
  m_chain : bytes;
}.

Definition new_Rijndael : CRijndael := mkRijndael false [] [] 0 0 0 [] [].

Definition with_chain (c : bytes) (o : CRijndael) : CRijndael :=
  mkRijndael (m_bKeyInit o) (m_Ke o) (m_Kd o) (m_keylength o) (m_blockSize o) (m_iROUNDS o) (m_chain0 o) c.

Definition ResetChain (o : CRijndael) : CRijndael := with_chain (m_chain0 o) o.

Definition GetKeyLength (o : CRijndael) : outcome Z := if m_bKeyInit o then Val (m_keylength o) else Exc ErrorMsg1.
Definition GetBlockSize (o : CRijndael) : outcome Z := if m_bKeyInit o then Val (m_blockSize o) else Exc ErrorMsg1.
Definition GetRounds (o : CRijndael) : outcome nat := if m_bKeyInit o then Val (m_iROUNDS o) else Exc ErrorMsg1.

(** ** Key expansion *)

(** Big endian words of a byte string. *)
Fixpoint words_of (s : bytes) : list Z :=
  match s with
  | b3 :: b2 :: b1 :: b0 :: s' => word b3 b2 b1 b0 :: words_of s'
  | _ => []
  end.

(** [tk[i++] ^= tk[j++]], each word with the new value of the one before it. *)
Fixpoint xor_chain (prev : Z) (l : list Z) : list Z :=
  match l with [] => [] | x :: l' => let y := Z.lxor x prev in y :: xor_chain y l' end.

(** One round of the key evolution. *)
Definition evolve (tk : list Z) (rconpointer : Z) : outcome (list Z) :=
  let KC := length tk in
  let tt := nth (KC - 1) tk 0 in
  rc ← rd sm_rcon rconpointer;
  let x := Z.lxor (Z.lxor (Z.lxor (Z.lxor (s32 (Z.shiftl (Sb (B2 tt)) 24)) (Z.shiftl (Sb (B1 tt)) 16))
                                  (Z.shiftl (Sb (B0 tt)) 8)) (Sb (B3 tt)))
                  (s32 (Z.shiftl (Z.land rc 0xFF) 24)) in
  let tk0 := Z.lxor (nth 0 tk 0) x in
  if negb (KC =? 8)%nat then Val (tk0 :: xor_chain tk0 (drop 1 tk))
  else
    let lo := tk0 :: xor_chain tk0 (take 3 (drop 1 tk)) in
    let tt := nth 3 lo 0 in
    let tk4 := Z.lxor (nth 4 tk 0)
                 (Z.lxor (Z.lxor (Z.lxor (Sb (B0 tt)) (Z.shiftl (Sb (B1 tt)) 8)) (Z.shiftl (Sb (B2 tt)) 16))
                         (s32 (Z.shiftl (Sb (B3 tt)) 24))) in
    Val (lo ++ tk4 :: xor_chain tk4 (drop 5 tk)).

(** [ws] are the round key words copied so far, so [t] is its length. *)
Fixpoint expand_loop (fuel count : nat) (tk ws : list Z) (rconpointer : Z) : outcome (list Z) :=
  if (length ws <? count)%nat then
    match fuel with
    | O => Undef
    | S fuel =>
      tk ← evolve tk rconpointer;
      expand_loop fuel count tk (ws ++ take (count - length ws) tk) (rconpointer + 1)
    end
  else Val ws.

(** Row [r] of the round keys, [BC] words wide. *)
Definition key_row (BC : nat) (ws : list Z) (r : nat) : list Z := take BC (drop (r * BC) ws).

Definition InvMixColumn (tt : Z) : Z :=
  Z.lxor (Z.lxor (Z.lxor (tab sm_U1 (B3 tt)) (tab sm_U2 (B2 tt))) (tab sm_U3 (B1 tt))) (tab sm_U4 (B0 tt)).

Definition rounds_for (keylength blockSize : Z) : nat :=
  Z.to_nat
    (if keylength =? 16 then (if blockSize =? 16 then 10 else if blockSize =? 24 then 12 else 14)
     else if keylength =? 24 then (if negb (blockSize =? 32) then 12 else 14)
     else 14).

Definition MakeKey (key chain : bytes) (keylength blockSize : Z) : outcome CRijndael :=
  if negb ((keylength =? 16) || (keylength =? 24) || (keylength =? 32))
  then Exc (RuntimeError "Incorrect key length")
  else if negb ((blockSize =? 16) || (blockSize =? 24) || (blockSize =? 32))
  then Exc (RuntimeError "Incorrect block length")
  else
    check (blockSize <=? Z.of_nat (length chain));;
    check (keylength <=? Z.of_nat (length key));;
    let R := rounds_for keylength blockSize in
    let BC := Z.to_nat (blockSize / 4) in
    let count := ((R + 1) * BC)%nat in
    let tk := words_of (take (Z.to_nat keylength) key) in
    ws ← expand_loop count count tk (take count tk) 0;
    let Ke := map (key_row BC ws) (seq 0 (R + 1)) in
    let Kd := map (fun r => let row := key_row BC ws (R - r) in
                            if ((0 <? r) && (r <? R))%nat then map InvMixColumn row else row) (seq 0 (R + 1)) in
    let chain := take (Z.to_nat blockSize) chain in
    Val (mkRijndael true Ke Kd keylength blockSize R chain chain).

(** ** One block *)

Definition key (K : list (list Z)) (r i : nat) : Z := nth i (nth r K []) 0.

(** The words of the input block, xored with the first round key. *)
Definition load (K : list (list Z)) (BC : nat) (inp : bytes) : list Z :=
  map (fun i => Z.lxor (word (nth (4 * i) inp 0) (nth (4 * i + 1) inp 0) (nth (4 * i + 2) inp 0)
                             (nth (4 * i + 3) inp 0)) (key K 0 i)) (seq 0 BC).

(** A round: word [i] takes a byte of [t[i]], [t[i + s1]], [t[i + s2]], [t[i + s3]]. *)
Definition round (Ta Tb Tc Td : list Z) (s1 s2 s3 BC : nat) (K : list (list Z)) (r : nat) (t : list Z) : list Z :=
  map (fun i =>
    Z.lxor (Z.lxor (Z.lxor (Z.lxor (tab Ta (B3 (nth i t 0))) (tab Tb (B2 (nth ((i + s1) mod BC) t 0))))
                           (tab Tc (B1 (nth ((i + s2) mod BC) t 0)))) (tab Td (B0 (nth ((i + s3) mod BC) t 0))))
           (key K r i)) (seq 0 BC).

Definition last_round (S : list Z) (s1 s2 s3 BC : nat) (K : list (list Z)) (R : nat) (t : list Z) : bytes :=
  flat_map (fun i =>
    let tt := key K R i in
    [ u8 (Z.lxor (tab S (B3 (nth i t 0))) (Z.shiftr tt 24));
      u8 (Z.lxor (tab S (B2 (nth ((i + s1) mod BC) t 0))) (Z.shiftr tt 16));
      u8 (Z.lxor (tab S (B1 (nth ((i + s2) mod BC) t 0))) (Z.shiftr tt 8));
      u8 (Z.lxor (tab S (B0 (nth ((i + s3) mod BC) t 0))) tt) ]) (seq 0 BC).

(** [for (r = 1; r < m_iROUNDS; r++)] *)
Definition rounds {A} (R : nat) (f : nat -> A -> A) (t : A) : A := foldl (fun t r => f r t) t (seq 1 (R - 1)).

(** DefEncryptBlock and DefDecryptBlock: the unrolled transforms of a 128 bit block. *)
Definition DefEncryptBlock (o : CRijndael) (inp : bytes) : outcome bytes :=
  if negb (m_bKeyInit o) then Exc ErrorMsg1
  else
    check (16 <=? length inp)%nat;;
    let b i := nth i inp 0 in
    let Ker := key (m_Ke o) 0 in
    let t0 := Z.lxor (word (b 0%nat) (b 1%nat) (b 2%nat) (b 3%nat)) (Ker 0%nat) in
    let t1 := Z.lxor (word (b 4%nat) (b 5%nat) (b 6%nat) (b 7%nat)) (Ker 1%nat) in
    let t2 := Z.lxor (word (b 8%nat) (b 9%nat) (b 10%nat) (b 11%nat)) (Ker 2%nat) in
    let t3 := Z.lxor (word (b 12%nat) (b 13%nat) (b 14%nat) (b 15%nat)) (Ker 3%nat) in
    let f r t := let '(t0, t1, t2, t3) := t in
      let Ker := key (m_Ke o) r in
      let x a b c d k := Z.lxor (Z.lxor (Z.lxor (Z.lxor (tab sm_T1 (B3 a)) (tab sm_T2 (B2 b))) (tab sm_T3 (B1 c)))
                                        (tab sm_T4 (B0 d))) (Ker k) in
      (x t0 t1 t2 t3 0%nat, x t1 t2 t3 t0 1%nat, x t2 t3 t0 t1 2%nat, x t3 t0 t1 t2 3%nat) in
    let '(t0, t1, t2, t3) := rounds (m_iROUNDS o) f (t0, t1, t2, t3) in
    let Ker := key (m_Ke o) (m_iROUNDS o) in
    let y a b c d k := let tt := Ker k in
      [ u8 (Z.lxor (tab sm_S (B3 a)) (Z.shiftr tt 24)); u8 (Z.lxor (tab sm_S (B2 b)) (Z.shiftr tt 16));
        u8 (Z.lxor (tab sm_S (B1 c)) (Z.shiftr tt 8)); u8 (Z.lxor (tab sm_S (B0 d)) tt) ] in
    Val (y t0 t1 t2 t3 0%nat ++ y t1 t2 t3 t0 1%nat ++ y t2 t3 t0 t1 2%nat ++ y t3 t0 t1 t2 3%nat).

Definition DefDecryptBlock (o : CRijndael) (inp : bytes) : outcome bytes :=
  if negb (m_bKeyInit o) then Exc ErrorMsg1
  else
    check (16 <=? length inp)%nat;;
    let b i := nth i inp 0 in
    let Kdr := key (m_Kd o) 0 in
    let t0 := Z.lxor (word (b 0%nat) (b 1%nat) (b 2%nat) (b 3%nat)) (Kdr 0%nat) in
    let t1 := Z.lxor (word (b 4%nat) (b 5%nat) (b 6%nat) (b 7%nat)) (Kdr 1%nat) in
    let t2 := Z.lxor (word (b 8%nat) (b 9%nat) (b 10%nat) (b 11%nat)) (Kdr 2%nat) in
    let t3 := Z.lxor (word (b 12%nat) (b 13%nat) (b 14%nat) (b 15%nat)) (Kdr 3%nat) in
    let f r t := let '(t0, t1, t2, t3) := t in
      let Kdr := key (m_Kd o) r in
      let x a b c d k := Z.lxor (Z.lxor (Z.lxor (Z.lxor (tab sm_T5 (B3 a)) (tab sm_T6 (B2 b))) (tab sm_T7 (B1 c)))
                                        (tab sm_T8 (B0 d))) (Kdr k) in
      (x t0 t3 t2 t1 0%nat, x t1 t0 t3 t2 1%nat, x t2 t1 t0 t3 2%nat, x t3 t2 t1 t0 3%nat) in
    let '(t0, t1, t2, t3) := rounds (m_iROUNDS o) f (t0, t1, t2, t3) in
    let Kdr := key (m_Kd o) (m_iROUNDS o) in
    let y a b c d k := let tt := Kdr k in
      [ u8 (Z.lxor (tab sm_Si (B3 a)) (Z.shiftr tt 24)); u8 (Z.lxor (tab sm_Si (B2 b)) (Z.shiftr tt 16));
        u8 (Z.lxor (tab sm_Si (B1 c)) (Z.shiftr tt 8)); u8 (Z.lxor (tab sm_Si (B0 d)) tt) ] in
    Val (y t0 t3 t2 t1 0%nat ++ y t1 t0 t3 t2 1%nat ++ y t2 t1 t0 t3 2%nat ++ y t3 t2 t1 t0 3%nat).

(** The row of [sm_shifts] for a block of [BC] words, and a shift in it. *)
Definition shift (BC : nat) (row dir : nat) : nat :=
  let SC := if (BC =? 4)%nat then 0%nat else if (BC =? 6)%nat then 1%nat else 2%nat in
  Z.to_nat (nth dir (nth row (nth SC sm_shifts []) []) 0).

(** The part of EncryptBlock and DecryptBlock for the larger blocks. *)
Definition encrypt_generic (Ke : list (list Z)) (BC R : nat) (inp : bytes) : bytes :=
  let s1 := shift BC 1 0 in let s2 := shift BC 2 0 in let s3 := shift BC 3 0 in
  last_round sm_S s1 s2 s3 BC Ke R
    (rounds R (round sm_T1 sm_T2 sm_T3 sm_T4 s1 s2 s3 BC Ke) (load Ke BC inp)).

Definition decrypt_generic (Kd : list (list Z)) (BC R : nat) (inp : bytes) : bytes :=
  let s1 := shift BC 1 1 in let s2 := shift BC 2 1 in let s3 := shift BC 3 1 in
  last_round sm_Si s1 s2 s3 BC Kd R
    (rounds R (round sm_T5 sm_T6 sm_T7 sm_T8 s1 s2 s3 BC Kd) (load Kd BC inp)).

Definition EncryptBlock (o : CRijndael) (inp : bytes) : outcome bytes :=
  if negb (m_bKeyInit o) then Exc ErrorMsg1
  else if DEFAULT_BLOCK_SIZE =? m_blockSize o then DefEncryptBlock o inp
  else
    check (m_blockSize o <=? Z.of_nat (length inp));;
    Val (encrypt_generic (m_Ke o) (Z.to_nat (m_blockSize o / 4)) (m_iROUNDS o) inp).

Definition DecryptBlock (o : CRijndael) (inp : bytes) : outcome bytes :=
  if negb (m_bKeyInit o) then Exc ErrorMsg1
  else if DEFAULT_BLOCK_SIZE =? m_blockSize o then DefDecryptBlock o inp
  else
    check (m_blockSize o <=? Z.of_nat (length inp));;
    Val (decrypt_generic (m_Kd o) (Z.to_nat (m_blockSize o / 4)) (m_iROUNDS o) inp).

(** ** Modes *)

(** [Xor(buff, chain)] over a block. *)
Fixpoint xor_bytes (a b : bytes) : bytes :=
  match a, b with x :: a', y :: b' => Z.lxor x y :: xor_bytes a' b' | _, _ => [] end.

Definition Xor (o : CRijndael) (buff chain : bytes) : outcome bytes :=
  if negb (m_bKeyInit o) then Exc ErrorMsg1 else Val (xor_bytes buff chain).

(** The blocks left; returns what is written to [result] and the object. *)
Fixpoint encrypt_loop (m : mode) (o : CRijndael) (blocks : list bytes) : outcome (bytes * CRijndael) :=
  match blocks with
  | [] => Val ([], o)
  | pin :: blocks =>
    '(c, o) ← (match m with
               | CBC => x ← Xor o (m_chain o) pin; c ← EncryptBlock o x; Val (c, with_chain c o)
               | CFB => c ← EncryptBlock o (m_chain o); c ← Xor o c pin; Val (c, with_chain c o)
               | ECB => c ← EncryptBlock o pin; Val (c, o)
               end);
    '(out, o) ← encrypt_loop m o blocks; Val (c ++ out, o)
  end.

Fixpoint decrypt_loop (m : mode) (o : CRijndael) (blocks : list bytes) : outcome (bytes * CRijndael) :=
  match blocks with
  | [] => Val ([], o)
  | pin :: blocks =>
    '(p, o) ← (match m with
               | CBC => p ← DecryptBlock o pin; p ← Xor o p (m_chain o); Val (p, with_chain pin o)
               | CFB => p ← EncryptBlock o (m_chain o); p ← Xor o p pin; Val (p, with_chain pin o)
               | ECB => p ← DecryptBlock o pin; Val (p, o)
               end);
    '(out, o) ← decrypt_loop m o blocks; Val (p ++ out, o)
  end.

(** The first [n] bytes, [k] at a time. *)
Definition blocks_of (k n : nat) (inp : bytes) : list bytes :=
  map (fun i => take k (drop (i * k) inp)) (seq 0 (n / k)).

(** The two checks both directions start with; the input must hold [n] bytes. *)
Definition checked {A} (o : CRijndael) (inp : bytes) (n : Z) (k : list bytes -> outcome A) : outcome A :=
  if negb (m_bKeyInit o) then Exc ErrorMsg1
  else if (n =? 0) || negb (n mod m_blockSize o =? 0) then Exc ErrorMsg2
  else check (n <=? Z.of_nat (length inp));; k (blocks_of (Z.to_nat (m_blockSize o)) (Z.to_nat n) inp).

Definition Encrypt (o : CRijndael) (inp : bytes) (n : Z) (m : mode) : outcome (bytes * CRijndael) :=
  checked o inp n (encrypt_loop m o).
Definition Decrypt (o : CRijndael) (inp : bytes) (n : Z) (m : mode) : outcome (bytes * CRijndael) :=
  checked o inp n (decrypt_loop m o).

(** ** The price decoder *)

Definition MAX_LEN : Z := 4096.

Definition hex_digit (lch : Z) : option Z :=
  if (ch "0" <=? lch) && (lch <=? ch "9") then Some (lch - ch "0")
  else if (ch "A" <=? lch) && (lch <=? ch "F") then Some (lch - ch "A" + 10)
  else if (ch "a" <=? lch) && (lch <=? ch "f") then Some (lch - ch "a" + 10)
  else None.

(** [None] is [false]. *)
Definition Hex2Char (c0 c1 : Z) : option Z :=
  match hex_digit c0, hex_digit c1 with
  | Some d0, Some d1 => Some (u8 (Z.shiftl (u8 (Z.shiftl 0 4 + d0)) 4 + d1))
  | _, _ => None
  end.

(** Pairs of characters; one that is not hexadecimal is skipped, a last odd one ignored. *)
Fixpoint Hex2String (hex : bytes) : bytes :=
  match hex with
  | c0 :: c1 :: hex' =>
    match Hex2Char c0 c1 with Some b => b :: Hex2String hex' | None => Hex2String hex' end
  | _ => []
  end.

(** [MakeKey] copies a block from the literal [""]: its terminator and whatever
    [after] holds behind it in memory. *)
Definition sohu_Decrypt (after code k : bytes) : outcome bytes :=
  try_std
    (rijn ← MakeKey (k ++ [0]) (0 :: after) (Z.of_nat (length k)) 16;
     if (Z.of_nat (length code) <? MAX_LEN) && (16 <=? Z.of_nat (length code)) then
       '(text, _) ← Decrypt rijn code (Z.of_nat (length code)) ECB;
       let pos := Z.of_nat (length code) - 16 in
       let raw_len := atoi (drop (Z.to_nat pos) text) in
       if (raw_len <=? 0) || (pos <? raw_len) then Exc (RuntimeError "raw_len error")
       else Val (take (Z.to_nat raw_len) text)
     else Val [])
    (fun _ => Val []).

Definition hexkey : bytes := str "4AC6A8443D2A7E0391FAEE43C017C2C9E13E70C34732B8A0A3CA8C1DB9E2FBC6".

(** The static [key]. *)
Definition sohu_key : bytes := Hex2String hexkey.

Definition sohu_price_decode (after input : bytes) : outcome Z :=
  try_std
    (result ← sohu_Decrypt after (Hex2String input) sohu_key; stoi result)
    (fun _ => Val 0).
