(* ===== verification/RijndaelProofs.v ===== *)
(** * RijndaelProofs: decryption inverts encryption

    Words are compared through their four bytes.  The facts about the tables are
    checked by evaluation, one byte at a time; the inverse mix column is linear
    because each of its tables is determined by its values at the powers of two. *)
From S2P Require Import Prelude CString Cypher RijndaelTables Rijndael.

#[local] Opaque sm_S sm_Si sm_T1 sm_T2 sm_T3 sm_T4 sm_T5 sm_T6 sm_T7 sm_T8 sm_U1 sm_U2 sm_U3 sm_U4.

(** ** Words and bytes *)

Definition is_word (w : Z) : Prop := - 2 ^ 31 <= w < 2 ^ 31.

Lemma B_arith w :
  B3 w = w / 2 ^ 24 mod 256 /\ B2 w = w / 2 ^ 16 mod 256 /\ B1 w = w / 2 ^ 8 mod 256 /\ B0 w = w mod 256.
Proof.
  unfold B3, B2, B1, B0. change 0xFF with (Z.ones 8).
  rewrite !Z.land_ones, !Z.shiftr_div_pow2 by lia. done.
Qed.

Lemma B_bytes w : is_byte (B3 w) /\ is_byte (B2 w) /\ is_byte (B1 w) /\ is_byte (B0 w).
Proof.
  destruct (B_arith w) as (-> & -> & -> & ->). unfold is_byte.
  repeat split; apply Z.mod_pos_bound; lia.
Qed.

Lemma s32_top b : is_byte b -> s32 (Z.shiftl b 24) = schar b * 2 ^ 24.
Proof.
  intros Hb. by_table 256%nat (fun b => s32 (Z.shiftl b 24) =? schar b * 2 ^ 24). apply Z.eqb_eq, H, Hb.
Qed.

Lemma word_arith b3 b2 b1 b0 :
  is_byte b3 -> is_byte b2 -> is_byte b1 -> is_byte b0 ->
  word b3 b2 b1 b0 = schar b3 * 2 ^ 24 + b2 * 2 ^ 16 + b1 * 2 ^ 8 + b0.
Proof.
  unfold is_byte. intros H3 H2 H1 H0. unfold word. rewrite s32_top by done.
  rewrite !Z.shiftl_mul_pow2 by lia. rewrite (lor_add _ (b2 * 2 ^ 16) 24) by lia.
  replace (schar b3 * 2 ^ 24 + b2 * 2 ^ 16) with ((schar b3 * 2 ^ 8 + b2) * 2 ^ 16) by lia.
  rewrite (lor_add _ (b1 * 2 ^ 8) 16) by lia.
  replace ((schar b3 * 2 ^ 8 + b2) * 2 ^ 16 + b1 * 2 ^ 8) with ((schar b3 * 2 ^ 16 + b2 * 2 ^ 8 + b1) * 2 ^ 8) by lia.
  rewrite lor_add by lia. lia.
Qed.

Lemma schar_cases b : is_byte b -> schar b = b /\ b < 128 \/ schar b = b - 256 /\ 128 <= b.
Proof. unfold schar. destruct (Z.ltb_spec b 128); lia. Qed.

Lemma word_spec b3 b2 b1 b0 :
  is_byte b3 -> is_byte b2 -> is_byte b1 -> is_byte b0 ->
  is_word (word b3 b2 b1 b0) /\ B3 (word b3 b2 b1 b0) = b3 /\ B2 (word b3 b2 b1 b0) = b2
  /\ B1 (word b3 b2 b1 b0) = b1 /\ B0 (word b3 b2 b1 b0) = b0.
Proof.
  intros H3 H2 H1 H0. destruct (B_arith (word b3 b2 b1 b0)) as (-> & -> & -> & ->).
  rewrite word_arith by done. pose proof (schar_cases b3 H3) as Hs. unfold is_byte, is_word in *.
  set (s := schar b3) in *. clearbody s.
  split_and!; [lia|lia| | | |]; dlia.
Qed.

Lemma is_word_word b3 b2 b1 b0 :
  is_byte b3 -> is_byte b2 -> is_byte b1 -> is_byte b0 -> is_word (word b3 b2 b1 b0).
Proof. intros H3 H2 H1 H0. exact (proj1 (word_spec b3 b2 b1 b0 H3 H2 H1 H0)). Qed.

Lemma word_ext v w :
  is_word v -> is_word w -> B3 v = B3 w -> B2 v = B2 w -> B1 v = B1 w -> B0 v = B0 w -> v = w.
Proof.
  unfold is_word. destruct (B_arith v) as (-> & -> & -> & ->). destruct (B_arith w) as (-> & -> & -> & ->).
  intros Hv Hw E3 E2 E1 E0. dlia.
Qed.

Lemma word_of_bytes w : is_word w -> word (B3 w) (B2 w) (B1 w) (B0 w) = w.
Proof.
  intros Hw. destruct (B_bytes w) as (H3 & H2 & H1 & H0).
  destruct (word_spec _ _ _ _ H3 H2 H1 H0) as (? & ? & ? & ? & ?). by apply word_ext.
Qed.

Lemma land_lxor a b m : Z.land (Z.lxor a b) m = Z.lxor (Z.land a m) (Z.land b m).
Proof.
  apply Z.bits_inj'. intros n _. rewrite ?Z.land_spec, ?Z.lxor_spec, ?Z.land_spec.
  by destruct (Z.testbit a n), (Z.testbit b n), (Z.testbit m n).
Qed.

Lemma B_lxor v w :
  B3 (Z.lxor v w) = Z.lxor (B3 v) (B3 w) /\ B2 (Z.lxor v w) = Z.lxor (B2 v) (B2 w)
  /\ B1 (Z.lxor v w) = Z.lxor (B1 v) (B1 w) /\ B0 (Z.lxor v w) = Z.lxor (B0 v) (B0 w).
Proof. unfold B3, B2, B1, B0. rewrite !Z.shiftr_lxor, !land_lxor. done. Qed.

Lemma is_word_sign w : is_word w <-> Z.shiftr w 31 = 0 \/ Z.shiftr w 31 = -1.
Proof. unfold is_word. rewrite Z.shiftr_div_pow2 by lia. dlia. Qed.

Lemma is_word_lxor v w : is_word v -> is_word w -> is_word (Z.lxor v w).
Proof. rewrite !is_word_sign, Z.shiftr_lxor. intros [-> | ->] [-> | ->]; vm_compute; tauto. Qed.

Lemma lxor_byte a b : is_byte a -> is_byte b -> is_byte (Z.lxor a b).
Proof.
  intros Ha Hb. unfold is_byte in *.
  assert (a = B0 a) as Ea by (destruct (B_arith a) as (_ & _ & _ & ->); rewrite Z.mod_small; lia).
  assert (b = B0 b) as Eb by (destruct (B_arith b) as (_ & _ & _ & ->); rewrite Z.mod_small; lia).
  rewrite Ea, Eb. destruct (B_lxor a b) as (_ & _ & _ & <-). apply B_bytes.
Qed.

Lemma word_lxor a3 a2 a1 a0 b3 b2 b1 b0 :
  is_byte a3 -> is_byte a2 -> is_byte a1 -> is_byte a0 ->
  is_byte b3 -> is_byte b2 -> is_byte b1 -> is_byte b0 ->
  Z.lxor (word a3 a2 a1 a0) (word b3 b2 b1 b0)
  = word (Z.lxor a3 b3) (Z.lxor a2 b2) (Z.lxor a1 b1) (Z.lxor a0 b0).
Proof.
  intros. destruct (word_spec a3 a2 a1 a0) as (Wa & Ea3 & Ea2 & Ea1 & Ea0); [done..|].
  destruct (word_spec b3 b2 b1 b0) as (Wb & Eb3 & Eb2 & Eb1 & Eb0); [done..|].
  destruct (B_lxor (word a3 a2 a1 a0) (word b3 b2 b1 b0)) as (X3 & X2 & X1 & X0).
  destruct (word_spec (Z.lxor a3 b3) (Z.lxor a2 b2) (Z.lxor a1 b1) (Z.lxor a0 b0))
    as (Wx & Ex3 & Ex2 & Ex1 & Ex0); try (by apply lxor_byte).
  apply word_ext; [by apply is_word_lxor|done|congruence..].
Qed.

(** ** Facts about the tables *)

(** A table is linear: the xor of its values at the bits of the index. *)
Definition lin (U : list Z) (x : Z) : Z :=
  foldr (fun k acc => Z.lxor (if Z.testbit x (Z.of_nat k) then tab U (2 ^ Z.of_nat k) else 0) acc) 0 (seq 0 8).

Lemma lin_lxor U x y : lin U (Z.lxor x y) = Z.lxor (lin U x) (lin U y).
Proof.
  unfold lin. induction (seq 0 8) as [|k l IH]; [done|]. cbn [foldr]. rewrite IH, Z.lxor_spec.
  apply Z.bits_inj'. intros n _. rewrite !Z.lxor_spec.
  destruct (Z.testbit x (Z.of_nat k)), (Z.testbit y (Z.of_nat k)); cbn [xorb];
    rewrite ?Z.bits_0; btauto.
Qed.

(** Everything the proof needs of one byte, by evaluation. *)
Definition Sib (x : Z) : Z := Z.land (tab sm_Si x) 0xFF.

Definition table_facts (x : Z) : bool :=
  (tab sm_U1 x =? lin sm_U1 x) && (tab sm_U2 x =? lin sm_U2 x)
  && (tab sm_U3 x =? lin sm_U3 x) && (tab sm_U4 x =? lin sm_U4 x)
  && (InvMixColumn (tab sm_T1 x) =? word (Sb x) 0 0 0) && (InvMixColumn (tab sm_T2 x) =? word 0 (Sb x) 0 0)
  && (InvMixColumn (tab sm_T3 x) =? word 0 0 (Sb x) 0) && (InvMixColumn (tab sm_T4 x) =? word 0 0 0 (Sb x))
  && (tab sm_T5 x =? tab sm_U1 (Sib x)) && (tab sm_T6 x =? tab sm_U2 (Sib x))
  && (tab sm_T7 x =? tab sm_U3 (Sib x)) && (tab sm_T8 x =? tab sm_U4 (Sib x))
  && (Sib (Sb x) =? x)
  && forallb (fun T => bool_decide (is_word (tab T x)))
       [sm_U1; sm_U2; sm_U3; sm_U4; sm_T1; sm_T2; sm_T3; sm_T4].

#[global] Instance is_word_dec w : Decision (is_word w).
Proof. unfold is_word. apply _. Defined.

Lemma table_facts_all x : is_byte x -> table_facts x = true.
Proof. intros Hx. by_table 256%nat table_facts. apply H, Hx. Qed.

Ltac use_facts x Hx :=
  let F := fresh "F" in
  pose proof (table_facts_all x Hx) as F; unfold table_facts in F; cbn [forallb] in F;
  rewrite !andb_true_iff, !Z.eqb_eq, !bool_decide_eq_true in F;
  decompose [and] F; clear F.

Lemma Sb_byte x : is_byte (Sb x).
Proof. apply (B_bytes (tab sm_S x)). Qed.
Lemma Sib_byte x : is_byte (Sib x).
Proof. apply (B_bytes (tab sm_Si x)). Qed.
Lemma Sib_Sb x : is_byte x -> Sib (Sb x) = x.
Proof. intros Hx. use_facts x Hx. done. Qed.

Lemma byte_0 : is_byte 0.
Proof. unfold is_byte. lia. Qed.

#[export] Hint Resolve byte_0 Sb_byte Sib_byte : adsrv.

(** The inverse mix column is linear. *)
Lemma InvMixColumn_lxor v w : InvMixColumn (Z.lxor v w) = Z.lxor (InvMixColumn v) (InvMixColumn w).
Proof.
  unfold InvMixColumn. destruct (B_lxor v w) as (-> & -> & -> & ->).
  assert (forall x y, is_byte x -> is_byte y ->
    tab sm_U1 (Z.lxor x y) = Z.lxor (tab sm_U1 x) (tab sm_U1 y) /\
    tab sm_U2 (Z.lxor x y) = Z.lxor (tab sm_U2 x) (tab sm_U2 y) /\
    tab sm_U3 (Z.lxor x y) = Z.lxor (tab sm_U3 x) (tab sm_U3 y) /\
    tab sm_U4 (Z.lxor x y) = Z.lxor (tab sm_U4 x) (tab sm_U4 y)) as G.
  { intros x y Hx Hy. use_facts x Hx. use_facts y Hy. use_facts (Z.lxor x y) (lxor_byte x y Hx Hy).
    split_and!; match goal with |- ?a = Z.lxor ?b ?c => 
      repeat match goal with E : a = lin _ _ |- _ => rewrite E; clear E
                           | E : b = lin _ _ |- _ => rewrite E; clear E
                           | E : c = lin _ _ |- _ => rewrite E; clear E end end; apply lin_lxor. }
  destruct (B_bytes v) as (V3 & V2 & V1 & V0). destruct (B_bytes w) as (W3 & W2 & W1 & W0).
  destruct (G _ _ V3 W3) as (-> & _). destruct (G _ _ V2 W2) as (_ & -> & _).
  destruct (G _ _ V1 W1) as (_ & _ & -> & _). destruct (G _ _ V0 W0) as (_ & _ & _ & ->).
  apply Z.bits_inj'. intros n _. rewrite !Z.lxor_spec. btauto.
Qed.

Lemma is_word_InvMixColumn w : is_word (InvMixColumn w).
Proof.
  unfold InvMixColumn. destruct (B_bytes w) as (H3 & H2 & H1 & H0).
  use_facts (B3 w) H3. use_facts (B2 w) H2. use_facts (B1 w) H1. use_facts (B0 w) H0.
  repeat apply is_word_lxor; done.
Qed.

(** The encryption tables substitute and mix; the inverse mix column undoes the mix. *)
Lemma InvMixColumn_T x3 x2 x1 x0 :
  is_byte x3 -> is_byte x2 -> is_byte x1 -> is_byte x0 ->
  let m := Z.lxor (Z.lxor (Z.lxor (tab sm_T1 x3) (tab sm_T2 x2)) (tab sm_T3 x1)) (tab sm_T4 x0) in
  is_word m /\ InvMixColumn m = word (Sb x3) (Sb x2) (Sb x1) (Sb x0).
Proof.
  intros H3 H2 H1 H0 m. use_facts x3 H3. use_facts x2 H2. use_facts x1 H1. use_facts x0 H0.
  split; [repeat apply is_word_lxor; done|]. unfold m. rewrite !InvMixColumn_lxor.
  repeat match goal with E : InvMixColumn _ = _ |- _ => rewrite E; clear E end.
  rewrite !word_lxor by auto using lxor_byte with adsrv.
  rewrite ?Z.lxor_0_r, ?Z.lxor_0_l. done.
Qed.

(** The decryption tables substitute back and apply the inverse mix column. *)
Lemma T_InvMixColumn x3 x2 x1 x0 :
  is_byte x3 -> is_byte x2 -> is_byte x1 -> is_byte x0 ->
  Z.lxor (Z.lxor (Z.lxor (tab sm_T5 x3) (tab sm_T6 x2)) (tab sm_T7 x1)) (tab sm_T8 x0)
  = InvMixColumn (word (Sib x3) (Sib x2) (Sib x1) (Sib x0)).
Proof.
  intros H3 H2 H1 H0. use_facts x3 H3. use_facts x2 H2. use_facts x1 H1. use_facts x0 H0.
  destruct (word_spec (Sib x3) (Sib x2) (Sib x1) (Sib x0)) as (_ & E3 & E2 & E1 & E0); auto with adsrv.
  unfold InvMixColumn. rewrite E3, E2, E1, E0. congruence.
Qed.

(** ** Rows *)

Definition bytes4 (w : Z) : bytes := [B3 w; B2 w; B1 w; B0 w].

(** Substituting and shifting: word [i] of the result. *)
Definition srow (Sx : Z -> Z) (s1 s2 s3 BC : nat) (t : list Z) (i : nat) : Z :=
  word (Sx (B3 (nth i t 0))) (Sx (B2 (nth ((i + s1) mod BC) t 0)))
       (Sx (B1 (nth ((i + s2) mod BC) t 0))) (Sx (B0 (nth ((i + s3) mod BC) t 0))).
Definition srows (Sx : Z -> Z) (s1 s2 s3 BC : nat) (t : list Z) : list Z := map (srow Sx s1 s2 s3 BC t) (seq 0 BC).

Lemma nth_map_seq {A} (f : nat -> A) n i d : (i < n)%nat -> nth i (map f (seq 0 n)) d = f i.
Proof.
  intros Hi. rewrite nth_indep with (d' := f 0%nat) by (rewrite length_map, length_seq; lia).
  rewrite map_nth. by rewrite seq_nth.
Qed.

Definition state (BC : nat) (t : list Z) : Prop := length t = BC /\ Forall is_word t.

Lemma state_word BC t i : state BC t -> (i < BC)%nat -> is_word (nth i t 0).
Proof. intros [Hl Ht] Hi. rewrite Forall_nth in Ht || rewrite List.Forall_nth in Ht. apply Ht. lia. Qed.

Lemma state_ext BC t u :
  length t = BC -> length u = BC -> (forall i, (i < BC)%nat -> nth i t 0 = nth i u 0) -> t = u.
Proof. intros Ht Hu H. apply (nth_ext _ _ 0 0); [congruence|]. intros n Hn. apply H. lia. Qed.

Lemma state_map BC f : (forall i, (i < BC)%nat -> is_word (f i)) -> state BC (map f (seq 0 BC)).
Proof.
  intros H. split; [by rewrite length_map, length_seq|]. apply List.Forall_forall.
  intros w (i & <- & Hi)%in_map_iff. apply in_seq in Hi. apply H. lia.
Qed.

(** Shifting back by the complementary amount. *)
Lemma shift_back BC i s s' : (i < BC)%nat -> (s + s' = BC)%nat -> (((i + s') mod BC + s) mod BC = i)%nat.
Proof.
  intros Hi Hs. rewrite Nat.Div0.add_mod_idemp_l. replace (i + s' + s)%nat with (i + 1 * BC)%nat by lia.
  rewrite Nat.Div0.mod_add. by apply Nat.mod_small.
Qed.

(** The inverse rows undo the rows. *)
Lemma srows_inverse BC s1 s2 s3 s1' s2' s3' t :
  state BC t -> (s1 + s1' = BC)%nat -> (s2 + s2' = BC)%nat -> (s3 + s3' = BC)%nat ->
  srows Sib s1' s2' s3' BC (srows Sb s1 s2 s3 BC t) = t.
Proof.
  intros Ht E1 E2 E3. apply (state_ext BC); [by unfold srows; rewrite length_map, length_seq|apply Ht|].
  intros i Hi. unfold srows at 1. rewrite nth_map_seq by done. unfold srow at 1, srows.
  assert (forall s, (i + s) mod BC < BC)%nat as Hm by (intros; apply Nat.mod_upper_bound; lia).
  rewrite !nth_map_seq by done.
  assert (forall k, let w := srow Sb s1 s2 s3 BC t k in
    B3 w = Sb (B3 (nth k t 0)) /\ B2 w = Sb (B2 (nth ((k + s1) mod BC) t 0))
    /\ B1 w = Sb (B1 (nth ((k + s2) mod BC) t 0)) /\ B0 w = Sb (B0 (nth ((k + s3) mod BC) t 0))) as G.
  { intros k. cbv zeta. unfold srow.
    pose proof (word_spec (Sb (B3 (nth k t 0))) (Sb (B2 (nth ((k + s1) mod BC) t 0)))
      (Sb (B1 (nth ((k + s2) mod BC) t 0))) (Sb (B0 (nth ((k + s3) mod BC) t 0))))
      as W. destruct W as (_ & W); auto with adsrv. }
  destruct (G i) as (-> & _). destruct (G ((i + s1') mod BC)%nat) as (_ & -> & _).
  destruct (G ((i + s2') mod BC)%nat) as (_ & _ & -> & _). destruct (G ((i + s3') mod BC)%nat) as (_ & _ & _ & ->).
  rewrite (shift_back BC i s1 s1'), (shift_back BC i s2 s2'), (shift_back BC i s3 s3') by done.
  rewrite !Sib_Sb by apply B_bytes. apply word_of_bytes. by apply (state_word BC).
Qed.

(** ** Rounds *)

Section block.
Context (BC R : nat) (s1 s2 s3 s1' s2' s3' : nat) (Ke Kd : list (list Z)).
Hypotheses (E1 : (s1 + s1' = BC)%nat) (E2 : (s2 + s2' = BC)%nat) (E3 : (s3 + s3' = BC)%nat).
Hypothesis HR : (1 <= R)%nat.
Hypothesis Hkey : forall r i, (r <= R)%nat -> (i < BC)%nat -> is_word (key Ke r i).
(** The decryption keys are the encryption keys in reverse, mixed in the inner rounds. *)
Hypothesis Hkd : forall r i, (r <= R)%nat -> (i < BC)%nat ->
  key Kd r i = if ((0 <? r) && (r <? R))%nat then InvMixColumn (key Ke (R - r) i) else key Ke (R - r) i.

Let E := round sm_T1 sm_T2 sm_T3 sm_T4 s1 s2 s3 BC Ke.
Let D := round sm_T5 sm_T6 sm_T7 sm_T8 s1' s2' s3' BC Kd.
Let SR := srows Sb s1 s2 s3 BC.

Lemma round_state r t : (r <= R)%nat -> state BC (E r t).
Proof.
  intros Hr. apply state_map. intros i Hi. apply is_word_lxor; [|by apply Hkey].
  apply InvMixColumn_T; apply B_bytes.
Qed.

(** One decryption round takes the shifted state of a round to that of the round before. *)
Lemma round_inverse r t :
  (1 <= r < R)%nat -> state BC t -> D (R - r) (SR (E r t)) = SR t.
Proof.
  intros Hr Ht. pose proof (round_state r t ltac:(lia)) as Hst.
  apply (state_ext BC); [by unfold D, round; rewrite length_map, length_seq
                        |by unfold SR, srows; rewrite length_map, length_seq|].
  intros i Hi. unfold D, round at 1. rewrite nth_map_seq by done.
  rewrite T_InvMixColumn by apply B_bytes. rewrite Hkd by lia.
  replace ((0 <? R - r) && (R - r <? R))%nat with true by
    (symmetry; apply andb_true_intro; split; apply Nat.ltb_lt; lia).
  replace (R - (R - r))%nat with r by lia.
  pose proof (srows_inverse BC s1 s2 s3 s1' s2' s3' (E r t) Hst E1 E2 E3) as Hinv.
  apply (f_equal (fun l => nth i l 0)) in Hinv. unfold srows at 1 in Hinv.
  rewrite nth_map_seq in Hinv by done. unfold srow in Hinv. fold SR in Hinv. rewrite Hinv.
  rewrite <- InvMixColumn_lxor. unfold E, round. rewrite nth_map_seq by done.
  rewrite Z.lxor_assoc, Z.lxor_nilpotent, Z.lxor_0_r.
  unfold SR, srows. rewrite nth_map_seq by done.
  apply InvMixColumn_T; apply B_bytes.
Qed.

Lemma rounds_state n t : (n < R)%nat -> state BC t -> state BC (foldl (fun t r => E r t) t (seq 1 n)).
Proof.
  intros Hn Ht. destruct n as [|n]; [done|]. rewrite seq_S, foldl_app. cbn [foldl]. apply round_state. lia.
Qed.

Lemma rounds_inverse n t :
  (n < R)%nat -> state BC t ->
  foldl (fun t r => D r t) (SR (foldl (fun t r => E r t) t (seq 1 n))) (seq (R - n) n) = SR t.
Proof.
  intros Hn Ht. induction n as [|n IH]; [done|].
  rewrite (seq_S n 1), foldl_app. cbn [foldl seq].
  replace (1 + n)%nat with (S n) by lia. rewrite round_inverse by (lia || by apply rounds_state; [lia|]).
  replace (S (R - S n)) with (R - n)%nat by lia. apply IH. lia.
Qed.

(** ** Loads and last rounds *)

Lemma u8_B x : u8 x = B0 x.
Proof. destruct (B_arith x) as (_ & _ & _ & ->). done. Qed.

Lemma B0_shiftr w : B0 (Z.shiftr w 24) = B3 w /\ B0 (Z.shiftr w 16) = B2 w /\ B0 (Z.shiftr w 8) = B1 w.
Proof. done. Qed.

(** The last round is the row of substituted bytes, xored with the key, byte by byte. *)
Lemma last_round_bytes Sx (tbl : list Z) (K : list (list Z)) a1 a2 a3 q t :
  (forall x, is_byte x -> Sx x = Z.land (tab tbl x) 0xFF) -> (forall x, is_byte (Sx x)) ->
  last_round tbl a1 a2 a3 BC K q t
  = flat_map bytes4 (map (fun i => Z.lxor (srow Sx a1 a2 a3 BC t i) (key K q i)) (seq 0 BC)).
Proof.
  intros HS Hb. unfold last_round. rewrite flat_map_concat_map, (flat_map_concat_map bytes4), map_map.
  f_equal. apply map_ext. intros i. unfold bytes4.
  destruct (B_lxor (srow Sx a1 a2 a3 BC t i) (key K q i)) as (-> & -> & -> & ->).
  unfold srow. destruct (word_spec (Sx (B3 (nth i t 0))) (Sx (B2 (nth ((i + a1) mod BC) t 0)))
    (Sx (B1 (nth ((i + a2) mod BC) t 0))) (Sx (B0 (nth ((i + a3) mod BC) t 0)))) as (_ & -> & -> & -> & ->); auto.
  destruct (B0_shiftr (key K q i)) as (S3 & S2 & S1).
  rewrite !u8_B. cbv zeta. rewrite !(proj2 (proj2 (proj2 (B_lxor _ _)))), S3, S2, S1.
  rewrite !HS by apply B_bytes. done.
Qed.

Lemma nth_flat_bytes4 ws i :
  (i < length ws)%nat ->
  let l := flat_map bytes4 ws in
  nth (4 * i) l 0 = B3 (nth i ws 0) /\ nth (4 * i + 1) l 0 = B2 (nth i ws 0)
  /\ nth (4 * i + 2) l 0 = B1 (nth i ws 0) /\ nth (4 * i + 3) l 0 = B0 (nth i ws 0).
Proof.
  revert i. induction ws as [|w ws IH]; intros i Hi; [simpl in Hi; lia|]. cbv zeta in *.
  destruct i as [|i]; [done|]. simpl in Hi. specialize (IH i ltac:(lia)).
  replace (4 * S i)%nat with (S (S (S (S (4 * i))))) by lia. exact IH.
Qed.

Lemma load_bytes4 K ws :
  length ws = BC -> Forall is_word ws ->
  load K BC (flat_map bytes4 ws) = map (fun i => Z.lxor (nth i ws 0) (key K 0 i)) (seq 0 BC).
Proof.
  intros Hl Hw. unfold load. apply map_ext_in. intros i Hi. apply in_seq in Hi.
  destruct (nth_flat_bytes4 ws i) as (-> & -> & -> & ->); [lia|].
  rewrite word_of_bytes; [done|]. apply (state_word BC); [by split|lia].
Qed.

(** The bytes of the loaded words are the input. *)
Lemma bytes4_words inp n :
  (forall k, is_byte (nth k inp 0)) -> (4 * n <= length inp)%nat ->
  flat_map bytes4 (map (fun i => word (nth (4 * i) inp 0) (nth (4 * i + 1) inp 0) (nth (4 * i + 2) inp 0)
                                   (nth (4 * i + 3) inp 0)) (seq 0 n)) = take (4 * n) inp.
Proof.
  intros Hb. induction n as [|n IHn]; intros Hn; [done|].
  rewrite seq_S, map_app, flat_map_app, IHn by lia. cbn [map flat_map app Nat.add]. rewrite app_nil_r.
  unfold bytes4.
  destruct (word_spec (nth (4 * n) inp 0) (nth (4 * n + 1) inp 0) (nth (4 * n + 2) inp 0) (nth (4 * n + 3) inp 0)
    (Hb _) (Hb _) (Hb _) (Hb _)) as (_ & -> & -> & -> & ->).
  replace (4 * S n)%nat with (S (S (S (S (4 * n))))) by lia.
  assert (forall k, (k < length inp)%nat -> take (S k) inp = take k inp ++ [nth k inp 0]) as Hk.
  { intros k Hk. apply take_S_r. destruct (nth_lookup_or_length inp k 0); [done|lia]. }
  rewrite !Hk by lia. rewrite <- !app_assoc. cbn [app]. do 2 f_equal.
  f_equal; [f_equal; lia|]. f_equal; [f_equal; lia|]. f_equal. f_equal. lia.
Qed.

(** ** One block *)

Lemma is_word_srow i t : is_word (srow Sb s1 s2 s3 BC t i).
Proof. apply is_word_word; auto with adsrv. Qed.

Lemma Sib_table x : is_byte x -> Sib x = Z.land (tab sm_Si x) 0xFF.
Proof. done. Qed.
Lemma Sb_table x : is_byte x -> Sb x = Z.land (tab sm_S x) 0xFF.
Proof. done. Qed.

Lemma block_inverse inp :
  Forall is_byte inp -> (4 * BC <= length inp)%nat ->
  last_round sm_Si s1' s2' s3' BC Kd R (rounds R D (load Kd BC
    (last_round sm_S s1 s2 s3 BC Ke R (rounds R E (load Ke BC inp)))))
  = take (4 * BC) inp.
Proof.
  intros Hin Hlen.
  set (w i := word (nth (4 * i) inp 0) (nth (4 * i + 1) inp 0) (nth (4 * i + 2) inp 0) (nth (4 * i + 3) inp 0)).
  assert (forall k, is_byte (nth k inp 0)) as Hb.
  { intros k. destruct (nth_in_or_default k inp 0) as [Hk|Hk]; [|rewrite Hk; apply byte_0].
    rewrite List.Forall_forall in Hin. by apply Hin. }
  assert (forall i, is_word (w i)) as Hw by (intros i; unfold w; apply is_word_word; apply Hb).
  set (t0 := load Ke BC inp).
  assert (state BC t0) as Ht0.
  { apply state_map. intros i Hi. apply is_word_lxor; [apply Hw|apply Hkey; lia]. }
  unfold rounds. pose proof (rounds_state (R - 1) t0 ltac:(lia) Ht0) as Ht.
  set (t := foldl (fun t r => E r t) t0 (seq 1 (R - 1))) in *.
  rewrite (last_round_bytes Sb sm_S Ke s1 s2 s3 R t Sb_table Sb_byte), load_bytes4.
  2:{ by rewrite length_map, length_seq. }
  2:{ apply state_map. intros i Hi. apply is_word_lxor; [apply is_word_srow|apply Hkey; lia]. }
  assert (map (fun i => Z.lxor (nth i (map (fun i => Z.lxor (srow Sb s1 s2 s3 BC t i) (key Ke R i)) (seq 0 BC)) 0)
                          (key Kd 0 i)) (seq 0 BC) = SR t) as ->.
  { unfold SR, srows. apply map_ext_in. intros i Hi. apply in_seq in Hi. rewrite nth_map_seq by lia.
    rewrite Hkd by lia. rewrite Nat.sub_0_r. cbn [Nat.ltb Nat.leb andb].
    by rewrite Z.lxor_assoc, Z.lxor_nilpotent, Z.lxor_0_r. }
  pose proof (rounds_inverse (R - 1) t0 ltac:(lia) Ht0) as Hinv. fold t in Hinv.
  replace (R - (R - 1))%nat with 1%nat in Hinv by lia. rewrite Hinv.
  rewrite (last_round_bytes Sib sm_Si Kd s1' s2' s3' R (SR t0) Sib_table Sib_byte).
  assert (map (fun i => Z.lxor (srow Sib s1' s2' s3' BC (SR t0) i) (key Kd R i)) (seq 0 BC) = map w (seq 0 BC)) as ->.
  { apply map_ext_in. intros i Hi. apply in_seq in Hi.
    pose proof (srows_inverse BC s1 s2 s3 s1' s2' s3' t0 Ht0 E1 E2 E3) as Hi2.
    apply (f_equal (fun l => nth i l 0)) in Hi2. unfold srows at 1 in Hi2. rewrite nth_map_seq in Hi2 by lia.
    fold SR in Hi2. rewrite Hi2. rewrite Hkd by lia. rewrite Nat.ltb_irrefl, andb_false_r, Nat.sub_diag.
    unfold t0, load. rewrite nth_map_seq by lia. rewrite Z.lxor_assoc, Z.lxor_nilpotent. apply Z.lxor_0_r. }
  unfold w. exact (bytes4_words inp BC Hb Hlen).
Qed.
End block.

(** ** The unrolled transforms *)

Lemma rounds_sim {A B} (phi : A -> B) R f g a :
  (forall r x, phi (f r x) = g r (phi x)) -> phi (rounds R f a) = rounds R g (phi a).
Proof.
  intros H. unfold rounds. revert a. induction (seq 1 (R - 1)) as [|r l IH]; intros a; [done|].
  cbn [foldl]. by rewrite IH, H.
Qed.

Definition quad (t : Z * Z * Z * Z) : list Z := let '(t0, t1, t2, t3) := t in [t0; t1; t2; t3].

Lemma DefEncryptBlock_generic o inp :
  m_bKeyInit o = true -> (16 <= length inp)%nat ->
  DefEncryptBlock o inp = Val (encrypt_generic (m_Ke o) 4 (m_iROUNDS o) inp).
Proof.
  intros Hi Hl. unfold DefEncryptBlock. rewrite Hi. cbn [negb]. destruct (Nat.leb_spec 16 (length inp)); [|lia].
  cbn [check mbind outcome_bind]. unfold encrypt_generic.
  change (shift 4 1 0) with 1%nat. change (shift 4 2 0) with 2%nat. change (shift 4 3 0) with 3%nat.
  match goal with |- context [rounds _ ?f ?t] =>
    pose proof (rounds_sim quad (m_iROUNDS o) f (round sm_T1 sm_T2 sm_T3 sm_T4 1 2 3 4 (m_Ke o)) t) as E;
    destruct (rounds (m_iROUNDS o) f t) as [[[t0 t1] t2] t3] end.
  cbn [quad] in E. change (load (m_Ke o) 4 inp) with (quad
    (Z.lxor (word (nth 0 inp 0) (nth 1 inp 0) (nth 2 inp 0) (nth 3 inp 0)) (key (m_Ke o) 0 0),
     Z.lxor (word (nth 4 inp 0) (nth 5 inp 0) (nth 6 inp 0) (nth 7 inp 0)) (key (m_Ke o) 0 1),
     Z.lxor (word (nth 8 inp 0) (nth 9 inp 0) (nth 10 inp 0) (nth 11 inp 0)) (key (m_Ke o) 0 2),
     Z.lxor (word (nth 12 inp 0) (nth 13 inp 0) (nth 14 inp 0) (nth 15 inp 0)) (key (m_Ke o) 0 3))).
  cbn [quad]. rewrite <- E; [reflexivity|]. by intros r [[[x0 x1] x2] x3].
Qed.

Lemma DefDecryptBlock_generic o inp :
  m_bKeyInit o = true -> (16 <= length inp)%nat ->
  DefDecryptBlock o inp = Val (decrypt_generic (m_Kd o) 4 (m_iROUNDS o) inp).
Proof.
  intros Hi Hl. unfold DefDecryptBlock. rewrite Hi. cbn [negb]. destruct (Nat.leb_spec 16 (length inp)); [|lia].
  cbn [check mbind outcome_bind]. unfold decrypt_generic.
  change (shift 4 1 1) with 3%nat. change (shift 4 2 1) with 2%nat. change (shift 4 3 1) with 1%nat.
  match goal with |- context [rounds _ ?f ?t] =>
    pose proof (rounds_sim quad (m_iROUNDS o) f (round sm_T5 sm_T6 sm_T7 sm_T8 3 2 1 4 (m_Kd o)) t) as E;
    destruct (rounds (m_iROUNDS o) f t) as [[[t0 t1] t2] t3] end.
  cbn [quad] in E. change (load (m_Kd o) 4 inp) with (quad
    (Z.lxor (word (nth 0 inp 0) (nth 1 inp 0) (nth 2 inp 0) (nth 3 inp 0)) (key (m_Kd o) 0 0),
     Z.lxor (word (nth 4 inp 0) (nth 5 inp 0) (nth 6 inp 0) (nth 7 inp 0)) (key (m_Kd o) 0 1),
     Z.lxor (word (nth 8 inp 0) (nth 9 inp 0) (nth 10 inp 0) (nth 11 inp 0)) (key (m_Kd o) 0 2),
     Z.lxor (word (nth 12 inp 0) (nth 13 inp 0) (nth 14 inp 0) (nth 15 inp 0)) (key (m_Kd o) 0 3))).
  cbn [quad]. rewrite <- E; [reflexivity|]. by intros r [[[x0 x1] x2] x3].
Qed.

(** ** Key expansion *)

Lemma is_word_shl_byte b n : is_byte b -> 0 <= n <= 16 -> is_word (Z.shiftl b n).
Proof.
  unfold is_byte, is_word. intros Hb Hn. rewrite Z.shiftl_mul_pow2 by lia.
  pose proof (Z.pow_le_mono_r 2 n 16 ltac:(lia) ltac:(lia)). change (2 ^ 16) with 65536 in *. nia.
Qed.

Lemma is_word_s32 z : is_word (s32 z).
Proof. apply (swrap_range 32). lia. Qed.

Lemma is_word_byte b : is_byte b -> is_word b.
Proof. unfold is_byte, is_word. lia. Qed.

Lemma xor_chain_words prev l :
  is_word prev -> Forall is_word l -> Forall is_word (xor_chain prev l) /\ length (xor_chain prev l) = length l.
Proof.
  intros Hp Hl. revert prev Hp. induction Hl as [|x l Hx Hl IH]; intros prev Hp; [done|]. cbn [xor_chain length].
  destruct (IH (Z.lxor x prev)) as [Hw Hlen]; [by apply is_word_lxor|].
  split; [constructor; [by apply is_word_lxor|done]|by rewrite Hlen].
Qed.

Lemma nth_word i l : Forall is_word l -> is_word (nth i l 0).
Proof.
  intros Hl. destruct (nth_in_or_default i l 0) as [Hi|Hi]; [|rewrite Hi; unfold is_word; lia].
  rewrite List.Forall_forall in Hl. by apply Hl.
Qed.

#[local] Hint Resolve is_word_s32 Sb_byte is_word_byte is_word_lxor is_word_shl_byte nth_word Forall_take Forall_drop : words.

Lemma evolve_ok tk rp :
  (length tk = 4 \/ length tk = 6 \/ length tk = 8)%nat -> Forall is_word tk -> 0 <= rp < 30 ->
  exists tk', evolve tk rp = Val tk' /\ length tk' = length tk /\ Forall is_word tk'.
Proof.
  intros Hl Hw Hr. unfold evolve. rewrite (rd_nth sm_rcon rp 0) by (simpl; lia). cbn [mbind outcome_bind].
  set (tk0 := Z.lxor (nth 0 tk 0) _).
  assert (is_word tk0) as H0.
  { unfold tk0. repeat apply is_word_lxor; auto with words; apply is_word_shl_byte; auto with words; lia. }
  destruct (Nat.eqb_spec (length tk) 8) as [E|E]; cbn [negb].
  - set (lo := tk0 :: xor_chain tk0 (take 3 (drop 1 tk))).
    destruct (xor_chain_words tk0 (take 3 (drop 1 tk)) H0) as [Hlo Ello]; [auto with words|].
    assert (Forall is_word lo) as Hlo' by by constructor.
    set (tk4 := Z.lxor (nth 4 tk 0) _).
    assert (is_word tk4) as H4.
    { unfold tk4. repeat apply is_word_lxor; auto with words; apply is_word_shl_byte; auto with words; lia. }
    destruct (xor_chain_words tk4 (drop 5 tk) H4) as [Hhi Ehi]; [auto with words|].
    eexists. split; [done|]. split.
    + rewrite length_app. unfold lo. cbn [length]. rewrite Ello, Ehi, length_take, !length_drop. lia.
    + apply Forall_app. split; [done|]. by constructor.
  - destruct (xor_chain_words tk0 (drop 1 tk) H0) as [Hd Ed]; [auto with words|].
    eexists. split; [done|]. split; [|by constructor]. cbn [length]. rewrite Ed, length_drop. lia.
Qed.

Lemma expand_loop_ok fuel count tk ws rp :
  (length tk = 4 \/ length tk = 6 \/ length tk = 8)%nat -> Forall is_word tk -> Forall is_word ws ->
  (length ws <= count)%nat -> (count - length ws <= fuel)%nat -> 0 <= rp ->
  Z.of_nat (count - length ws) <= Z.of_nat (length tk) * (30 - rp) ->
  exists ws', expand_loop fuel count tk ws rp = Val ws' /\ length ws' = count /\ Forall is_word ws'.
Proof.
  revert tk ws rp. induction fuel as [|fuel IH]; intros tk ws rp Hk Htk Hws Hle Hf Hrp Hrc; cbn [expand_loop];
    destruct (Nat.ltb_spec (length ws) count) as [Hlt|Hge];
    try (exists ws; split_and!; [done|lia|done]); [lia|].
  assert (rp < 30) by nia.
  destruct (evolve_ok tk rp Hk Htk ltac:(lia)) as (tk' & -> & El & Hw'). cbn [mbind outcome_bind].
  assert (length (ws ++ take (count - length ws) tk') = length ws + Nat.min (count - length ws) (length tk))%nat as Elen
    by (rewrite length_app, length_take; lia).
  apply IH; rewrite ?El, ?Elen; try lia; try done.
  - apply Forall_app. split; [done|]. by apply Forall_take.
Qed.

Lemma words_of_ok n s :
  length s = (4 * n)%nat -> Forall is_byte s -> length (words_of s) = n /\ Forall is_word (words_of s).
Proof.
  revert s. induction n as [|n IH]; intros s Hl Hs; [by destruct s|].
  destruct s as [|b3 [|b2 [|b1 [|b0 s]]]]; try (simpl in Hl; lia).
  rewrite !Forall_cons in Hs. destruct Hs as (H3 & H2 & H1 & H0 & Hs). cbn [words_of length].
  destruct (IH s) as [E W]; [simpl in Hl; lia|done|]. split; [by rewrite E|].
  constructor; [by apply is_word_word|done].
Qed.

(** ** Keyed objects *)

Definition valid_size (n : Z) : Prop := n = 16 \/ n = 24 \/ n = 32.

(** What [MakeKey] establishes: the sizes, and the relation between the two key schedules. *)
Record keyed (o : CRijndael) : Prop := {
  k_init : m_bKeyInit o = true;
  k_size : valid_size (m_blockSize o);
  k_rounds : (1 <= m_iROUNDS o)%nat;
  k_words : forall r i, (r <= m_iROUNDS o)%nat -> (i < Z.to_nat (m_blockSize o / 4))%nat -> is_word (key (m_Ke o) r i);
  k_dec : forall r i, (r <= m_iROUNDS o)%nat -> (i < Z.to_nat (m_blockSize o / 4))%nat ->
    key (m_Kd o) r i = if ((0 <? r) && (r <? m_iROUNDS o))%nat
                       then InvMixColumn (key (m_Ke o) (m_iROUNDS o - r) i)
                       else key (m_Ke o) (m_iROUNDS o - r) i;
}.

Lemma rounds_for_range kl bs : valid_size kl -> valid_size bs -> (10 <= rounds_for kl bs <= 14)%nat.
Proof. intros [-> | [-> | ->]] [-> | [-> | ->]]; vm_compute; lia. Qed.

Lemma key_count kl bs : valid_size kl -> valid_size bs ->
  let count := ((rounds_for kl bs + 1) * Z.to_nat (bs / 4))%nat in
  (Z.to_nat (kl / 4) <= count)%nat
  /\ Z.of_nat (count - Z.to_nat (kl / 4)) <= Z.of_nat (Z.to_nat (kl / 4)) * 30.
Proof. intros [-> | [-> | ->]] [-> | [-> | ->]]; vm_compute; split; (lia || congruence). Qed.

Lemma is_word_key_row BC ws r i : Forall is_word ws -> is_word (nth i (key_row BC ws r) 0).
Proof. intros Hw. apply nth_word. unfold key_row. by apply Forall_take, Forall_drop. Qed.

Lemma InvMixColumn_0 : InvMixColumn 0 = 0.
Proof. vm_compute. reflexivity. Qed.

Lemma MakeKey_ok k chain kl bs :
  valid_size kl -> valid_size bs -> Forall is_byte k ->
  kl <= Z.of_nat (length k) -> bs <= Z.of_nat (length chain) ->
  exists o, MakeKey k chain kl bs = Val o /\ keyed o /\ m_blockSize o = bs
    /\ m_chain o = take (Z.to_nat bs) chain /\ m_chain0 o = take (Z.to_nat bs) chain.
Proof.
  intros Hkl Hbs Hk Hlk Hlc. unfold MakeKey.
  assert ((kl =? 16) || (kl =? 24) || (kl =? 32) = true) as -> by (unfold valid_size in Hkl; lia).
  assert ((bs =? 16) || (bs =? 24) || (bs =? 32) = true) as -> by (unfold valid_size in Hbs; lia).
  cbn [negb]. destruct (Z.leb_spec bs (Z.of_nat (length chain))); [|lia].
  destruct (Z.leb_spec kl (Z.of_nat (length k))); [|lia]. cbn [check mbind outcome_bind].
  pose proof (rounds_for_range kl bs Hkl Hbs) as HR. destruct (key_count kl bs Hkl Hbs) as [Hc1 Hc2].
  set (R := rounds_for kl bs) in *. set (BC := Z.to_nat (bs / 4)) in *. set (count := ((R + 1) * BC)%nat) in *.
  destruct (words_of_ok (Z.to_nat (kl / 4)) (take (Z.to_nat kl) k)) as [Et Wt].
  { rewrite length_take. unfold valid_size in Hkl. dlia. } { by apply Forall_take. }
  set (tk := words_of (take (Z.to_nat kl) k)) in *.
  destruct (expand_loop_ok count count tk (take count tk) 0) as (ws & -> & El & Ww).
  - rewrite Et. unfold valid_size in Hkl. dlia.
  - done.
  - by apply Forall_take.
  - rewrite length_take. lia.
  - lia.
  - lia.
  - rewrite length_take, Et, Nat.min_r, Z.sub_0_r by lia. lia.
  - cbn [mbind outcome_bind]. eexists. split; [reflexivity|]. cbn [m_blockSize m_chain m_chain0].
    split_and!; [|done..]. constructor; cbn [m_bKeyInit m_blockSize m_iROUNDS m_Ke m_Kd]; fold BC.
    + done.
    + done.
    + lia.
    + intros r i Hr Hi. unfold key. rewrite nth_map_seq by lia. by apply is_word_key_row.
    + intros r i Hr Hi. unfold key. rewrite !nth_map_seq by lia.
      destruct ((0 <? r) && (r <? R))%nat; [|done].
      rewrite <- InvMixColumn_0 at 1. apply map_nth.
Qed.

(** ** Blocks of a keyed object *)

Lemma shift_complement BC : (BC = 4 \/ BC = 6 \/ BC = 8)%nat ->
  (shift BC 1 0 + shift BC 1 1 = BC /\ shift BC 2 0 + shift BC 2 1 = BC /\ shift BC 3 0 + shift BC 3 1 = BC)%nat.
Proof. intros [-> | [-> | ->]]; done. Qed.

(** Encryption and decryption of a block as the generic transforms, whatever its size. *)
Lemma blocks_generic o inp :
  keyed o -> m_blockSize o <= Z.of_nat (length inp) ->
  EncryptBlock o inp = Val (encrypt_generic (m_Ke o) (Z.to_nat (m_blockSize o / 4)) (m_iROUNDS o) inp)
  /\ DecryptBlock o inp = Val (decrypt_generic (m_Kd o) (Z.to_nat (m_blockSize o / 4)) (m_iROUNDS o) inp).
Proof.
  intros [Hi Hs _ _ _] Hl. unfold EncryptBlock, DecryptBlock. rewrite Hi. cbn [negb]. unfold DEFAULT_BLOCK_SIZE.
  destruct (Z.eqb_spec 16 (m_blockSize o)) as [E|E].
  - rewrite <- E in *. rewrite DefEncryptBlock_generic, DefDecryptBlock_generic by (done || lia). done.
  - destruct (Z.leb_spec (m_blockSize o) (Z.of_nat (length inp))); [|lia]. done.
Qed.

Lemma length_last_round S s1 s2 s3 BC K R t : length (last_round S s1 s2 s3 BC K R t) = (4 * BC)%nat.
Proof.
  unfold last_round.
  match goal with |- context [flat_map ?f _] => assert (forall l, length (flat_map f l) = 4 * length l)%nat as G end.
  { induction l as [|i l IH]; [done|]. cbn [flat_map]. rewrite length_app, IH. simpl. lia. }
  by rewrite G, length_seq.
Qed.

Lemma last_round_is_bytes S s1 s2 s3 BC K R t : Forall is_byte (last_round S s1 s2 s3 BC K R t).
Proof.
  unfold last_round. induction (seq 0 BC) as [|i l IH]; cbn [flat_map]; [constructor|].
  apply Forall_app. split; [|done]. unfold is_byte. repeat constructor; apply (uwrap_range 8); lia.
Qed.

Lemma size_words n : valid_size n -> (4 * Z.to_nat (n / 4))%nat = Z.to_nat n /\ (Z.to_nat (n / 4) = 4 \/ Z.to_nat (n / 4) = 6 \/ Z.to_nat (n / 4) = 8)%nat.
Proof. unfold valid_size. intros H. split; dlia. Qed.

Lemma block_roundtrip o inp :
  keyed o -> Forall is_byte inp -> Z.of_nat (length inp) = m_blockSize o ->
  exists c, EncryptBlock o inp = Val c /\ Z.of_nat (length c) = m_blockSize o /\ Forall is_byte c
    /\ DecryptBlock o c = Val inp.
Proof.
  intros Hk Hb Hl. pose proof Hk as [_ Hs HR Hw Hd]. destruct (size_words _ Hs) as [E4 HBC].
  destruct (shift_complement _ HBC) as (S1 & S2 & S3).
  destruct (blocks_generic o inp Hk ltac:(lia)) as [-> _].
  assert (length (encrypt_generic (m_Ke o) (Z.to_nat (m_blockSize o / 4)) (m_iROUNDS o) inp) = Z.to_nat (m_blockSize o))
    as El by (unfold encrypt_generic; rewrite length_last_round; lia).
  eexists. split; [reflexivity|]. split_and!.
  - rewrite El. unfold valid_size in Hs. lia.
  - apply last_round_is_bytes.
  - destruct (blocks_generic o (encrypt_generic (m_Ke o) (Z.to_nat (m_blockSize o / 4)) (m_iROUNDS o) inp) Hk)
      as [_ ->]; [rewrite El; unfold valid_size in Hs; lia|].
    f_equal. unfold decrypt_generic, encrypt_generic.
    rewrite (block_inverse _ _ _ _ _ _ _ _ _ _ S1 S2 S3 HR Hw Hd inp Hb) by lia.
    apply take_ge. lia.
Qed.
