(* ===== verification/SohuPrice.v ===== *)
(** * SohuPrice: the modes of the cipher and the price decoder
    (protocol/sohu/sohu_price.cpp)

    Properties of the operations of Rijndael.v: the block and mode round trips, the
    consistency of the tables with the field arithmetic, and what
    [sohu_price_decode] computes. *)
From S2P Require Import Prelude CString Cypher UrlParams RijndaelTables Rijndael RijndaelProofs.

(** ** Lemmas: modes *)

Lemma xor_bytes_length a b : length a = length b -> length (xor_bytes a b) = length a.
Proof. revert b. induction a as [|x a IH]; intros [|y b] E; simpl in *; try done. f_equal. apply IH. lia. Qed.

Lemma xor_bytes_cancel a b :
  length a = length b -> xor_bytes (xor_bytes a b) a = b /\ xor_bytes a (xor_bytes a b) = b.
Proof.
  revert b. induction a as [|x a IH]; intros [|y b] E; simpl in *; try done.
  destruct (IH b) as [-> ->]; [lia|]. split; f_equal;
    apply Z.bits_inj'; intros n _; rewrite !Z.lxor_spec; by destruct (Z.testbit x n), (Z.testbit y n).
Qed.

Lemma xor_bytes_byte a b : Forall is_byte a -> Forall is_byte b -> Forall is_byte (xor_bytes a b).
Proof.
  intros Ha. revert b. induction Ha as [|x a Hx Ha IH]; intros b Hb; simpl; [constructor|].
  inversion Hb; constructor; [by apply lxor_byte|by apply IH].
Qed.

(** A keyed object whose chain is a block. *)
Definition chained (o : CRijndael) : Prop :=
  keyed o /\ Z.of_nat (length (m_chain o)) = m_blockSize o /\ Forall is_byte (m_chain o).

Lemma keyed_with_chain c o : keyed o -> keyed (with_chain c o).
Proof. intros [? ? ? ? ?]. by constructor. Qed.

Definition block (o : CRijndael) (b : bytes) : Prop := Z.of_nat (length b) = m_blockSize o /\ Forall is_byte b.

Lemma chained_with_chain c o : chained o -> block o c -> chained (with_chain c o).
Proof. intros (Hk & _ & _) [Hl Hb]. split; [by apply keyed_with_chain|]. done. Qed.

(** Encrypting the blocks left and decrypting the result from the same chain. *)
Lemma modes_inverse m blocks o :
  chained o -> Forall (block o) blocks ->
  exists cs o', encrypt_loop m o blocks = Val (concat cs, o') /\ length cs = length blocks
    /\ Forall (block o) cs /\ decrypt_loop m o cs = Val (concat blocks, o')
    /\ exists c, o' = with_chain c o.
Proof.
  intros Hc Hbs. revert o Hc Hbs. induction blocks as [|b blocks IH]; intros o Hc Hbs.
  { exists [], o. split_and!; try done. exists (m_chain o). by destruct o. }
  inversion Hbs as [|? ? Hb Hbs']; subst. pose proof Hc as (Hk & Hcl & Hcb). destruct Hb as [Hbl Hbb].
  assert (exists c o1, block o c /\
    (match m with
     | CBC => x ← Xor o (m_chain o) b; c ← EncryptBlock o x; Val (c, with_chain c o)
     | CFB => c ← EncryptBlock o (m_chain o); c ← Xor o c b; Val (c, with_chain c o)
     | ECB => c ← EncryptBlock o b; Val (c, o)
     end) = Val (c, o1) /\
    (match m with
     | CBC => p ← DecryptBlock o c; p ← Xor o p (m_chain o); Val (p, with_chain c o)
     | CFB => p ← EncryptBlock o (m_chain o); p ← Xor o p c; Val (p, with_chain c o)
     | ECB => p ← DecryptBlock o c; Val (p, o)
     end) = Val (b, o1) /\ exists ch, o1 = with_chain ch o /\ block o ch)
    as (c & o1 & Hcb1 & Ee & Ed & (ch & -> & Hch)).
  { assert (forall x y, Xor o x y = Val (xor_bytes x y)) as Hx by (intros; unfold Xor; by rewrite (k_init o Hk)).
    destruct m.
    - destruct (block_roundtrip o b Hk Hbb Hbl) as (c & -> & Hl & Hb & Ed).
      exists c, o. cbn [mbind outcome_bind]. rewrite Ed. split_and!; try done.
      exists (m_chain o). split; [by destruct o|done].
    - destruct (block_roundtrip o (xor_bytes (m_chain o) b) Hk) as (c & Ee & Hl & Hb & Ed).
      { by apply xor_bytes_byte. } { rewrite xor_bytes_length; lia. }
      exists c, (with_chain c o). rewrite Hx. cbn [mbind outcome_bind]. rewrite Ee, Ed. cbn [mbind outcome_bind].
      rewrite Hx. cbn [mbind outcome_bind]. rewrite (proj1 (xor_bytes_cancel (m_chain o) b ltac:(lia))).
      split_and!; try done. by exists c.
    - destruct (block_roundtrip o (m_chain o) Hk Hcb Hcl) as (k & Ee & Hl & Hb & _).
      exists (xor_bytes k b), (with_chain (xor_bytes k b) o). rewrite Ee. cbn [mbind outcome_bind].
      rewrite !Hx. cbn [mbind outcome_bind]. rewrite (proj2 (xor_bytes_cancel k b ltac:(lia))).
      assert (block o (xor_bytes k b)) by
        (split; [rewrite xor_bytes_length; lia|by apply xor_bytes_byte]).
      split_and!; try done; try apply H. by exists (xor_bytes k b). }
  destruct (IH (with_chain ch o)) as (cs & o2 & E1 & El & Hcs & E2 & (ch2 & ->)); [by apply chained_with_chain|done|].
  exists (c :: cs), (with_chain ch2 (with_chain ch o)). cbn [encrypt_loop decrypt_loop]. rewrite Ee, Ed.
  cbn [mbind outcome_bind]. rewrite E1, E2. cbn [mbind outcome_bind]. split_and!; try done.
  - simpl. by rewrite El.
  - by constructor.
  - by exists ch2.
Qed.

Lemma blocks_of_concat k bs : (0 < k)%nat -> Forall (fun b => length b = k) bs ->
  blocks_of k (length bs * k) (concat bs) = bs.
Proof.
  intros Hk Hbs. unfold blocks_of. rewrite Nat.div_mul by lia.
  induction Hbs as [|b bs Hb Hbs IH]; [done|]. cbn [length seq map concat].
  f_equal.
  - rewrite Nat.mul_0_l, drop_0, <- Hb. apply take_app_length.
  - rewrite <- IH at 2. rewrite <- seq_shift, map_map. apply map_ext. intros i.
    replace (S i * k)%nat with (length b + i * k)%nat by lia. by rewrite drop_app_add.
Qed.

Lemma concat_blocks_of k n inp : (0 < k)%nat -> length inp = (n * k)%nat ->
  concat (blocks_of k (n * k) inp) = inp /\ length (blocks_of k (n * k) inp) = n
  /\ Forall (fun b => length b = k) (blocks_of k (n * k) inp).
Proof.
  intros Hk Hl. unfold blocks_of. rewrite Nat.div_mul by lia. rewrite length_map, length_seq. split_and!; [|done|].
  - assert (forall j, (j <= n)%nat -> concat (map (fun i => take k (drop (i * k) inp)) (seq 0 j)) = take (j * k) inp) as G.
    { induction j as [|j IH]; intros Hj; [done|]. rewrite seq_S, map_app, concat_app, IH by lia. cbn [map concat Nat.add].
      rewrite app_nil_r. replace (S j * k)%nat with (j * k + k)%nat by lia. apply take_take_drop. }
    rewrite G by lia. apply take_ge. lia.
  - apply List.Forall_forall. intros b (i & <- & Hi)%in_map_iff. apply in_seq in Hi.
    rewrite length_take, length_drop. nia.
Qed.

Lemma Forall_concat_1 {A} (P : A -> Prop) (ls : list (list A)) : Forall P (concat ls) -> Forall (Forall P) ls.
Proof. induction ls; simpl; [constructor|]. rewrite Forall_app. intros [? ?]. constructor; auto. Qed.

Lemma modes_roundtrip o m inp n :
  chained o -> Forall is_byte inp -> Z.of_nat (length inp) = n -> 0 < n -> n mod m_blockSize o = 0 ->
  exists c o', Encrypt o inp n m = Val (c, o') /\ Z.of_nat (length c) = n
    /\ Decrypt o c n m = Val (inp, o') /\ exists ch, o' = with_chain ch o.
Proof.
  intros Hc Hb Hl Hn Hmod. pose proof Hc as (Hk & _ & _). pose proof (k_size o Hk) as Hs. unfold valid_size in Hs.
  set (k := Z.to_nat (m_blockSize o)). set (q := Z.to_nat (n / m_blockSize o)).
  assert (Z.to_nat n = q * k)%nat as En.
  { unfold q, k. rewrite <- Z2Nat.inj_mul by (try apply Z.div_pos; lia). f_equal.
    pose proof (Z.div_mod n (m_blockSize o)). lia. }
  destruct (concat_blocks_of k q inp) as (Ecat & Elen & Hlen); [lia|lia|].
  assert (Forall (block o) (blocks_of k (q * k) inp)) as Hbl.
  { pose proof Hb as Hb'. rewrite <- Ecat in Hb'. apply Forall_concat_1 in Hb'.
    apply List.Forall_forall. intros b Hin. rewrite List.Forall_forall in Hlen, Hb'. split; [|by apply Hb'].
    rewrite (Hlen b Hin). lia. }
  destruct (modes_inverse m _ o Hc Hbl) as (cs & o' & E1 & El & Hcs & E2 & Hch).
  assert (Forall (fun b => length b = k) cs) as Hcl.
  { eapply Forall_impl; [exact Hcs|]. intros b [Hbk _]. lia. }
  assert (length (concat cs) = Z.to_nat n) as Ec.
  { rewrite En, <- Elen, <- El. clear -Hcl. induction Hcl as [|b cs Hb _ IH]; [done|]. simpl. rewrite length_app. lia. }
  exists (concat cs), o'. unfold Encrypt, Decrypt, checked. rewrite (k_init o Hk). cbn [negb].
  destruct (Z.eqb_spec n 0); [lia|]. rewrite Hmod, Z.eqb_refl. cbn [orb negb].
  destruct (Z.leb_spec n (Z.of_nat (length inp))); [|lia].
  destruct (Z.leb_spec n (Z.of_nat (length (concat cs)))); [|lia]. cbn [check mbind outcome_bind].
  fold k. rewrite En. split_and!; [done|lia| |done].
  rewrite <- Elen, <- El, blocks_of_concat by (done || lia). rewrite E2, Ecat. done.
Qed.

(** ECB output is bytes, whatever the object. *)
Lemma encrypt_loop_bytes o blocks c o' : encrypt_loop ECB o blocks = Val (c, o') -> Forall is_byte c.
Proof.
  revert o c o'. induction blocks as [|b blocks IH]; intros o c o' E; cbn [encrypt_loop] in E.
  { injection E as <- _. constructor. }
  apply bind_Val_iff in E as ([x o1] & E1 & E). apply bind_Val_iff in E as ([out o2] & E2 & [= <- _]).
  apply bind_Val_iff in E1 as (y & Ey & [= <- <-]). apply Forall_app. split; [|by eapply IH].
  unfold EncryptBlock in Ey. destruct (negb _) eqn:Hi; [discriminate Ey|].
  destruct (DEFAULT_BLOCK_SIZE =? m_blockSize o).
  - destruct (Nat.leb_spec 16 (length b)) as [Hl|Hl].
    + rewrite DefEncryptBlock_generic in Ey by (by destruct (m_bKeyInit o)). injection Ey as <-.
      apply last_round_is_bytes.
    + unfold DefEncryptBlock in Ey. rewrite Hi in Ey. apply Nat.leb_gt in Hl. rewrite Hl in Ey. discriminate Ey.
  - destruct (_ <=? _); [|discriminate Ey]. injection Ey as <-. apply last_round_is_bytes.
Qed.

(** ** Lemmas: the price text *)

Lemma Hex2String_readable (hm : bytes) x :
  hm = hexMap_upper \/ hm = hexMap_lower -> Forall is_byte x -> Hex2String (hex_readable hm x) = x.
Proof.
  intros Hm Hx. unfold hex_readable. induction Hx as [|b x Hb Hx IH]; [done|]. cbn [flat_map app Hex2String].
  assert (Hex2Char (nib hm (Z.shiftr b 4)) (nib hm (Z.land b 15)) = Some b) as ->; [|by rewrite IH].
  by_table 256%nat (fun b =>
    bool_decide (Hex2Char (nib hexMap_upper (Z.shiftr b 4)) (nib hexMap_upper (Z.land b 15)) = Some b)
    && bool_decide (Hex2Char (nib hexMap_lower (Z.shiftr b 4)) (nib hexMap_lower (Z.land b 15)) = Some b)).
  specialize (H b Hb). rewrite andb_true_iff, !bool_decide_eq_true in H. destruct Hm as [-> | ->]; tauto.
Qed.

Lemma sohu_key_ok : length sohu_key = 32%nat /\ Forall is_byte sohu_key.
Proof. split; [reflexivity|]. unfold sohu_key. by_decide. Qed.

(** A plain text of the exchange: the price in the first blocks, its length in the last. *)
Record price_text (price : Z) (text : bytes) : Prop := {
  pt_bytes : Forall is_byte text;
  pt_body : exists pad, text = to_string price ++ pad;
  pt_size : Z.of_nat (length text) < MAX_LEN /\ Z.of_nat (length text) mod 16 = 0;
  pt_room : (length (to_string price) + 16 <= length text)%nat;
  pt_len : exists tail, drop (length text - 16) text
                        = to_string (Z.of_nat (length (to_string price))) ++ 0 :: tail;
}.

Lemma atoi_nul n tail : 0 <= n < 2 ^ 31 -> atoi (to_string n ++ 0 :: tail) = n.
Proof.
  intros Hn. rewrite <- (atoi_number n [] Hn eq_refl) at 2. rewrite app_nil_r.
  unfold atoi, strtol. f_equal.
  assert (no_nul (to_string n)) as Hnn.
  { rewrite to_string_nonneg by lia. apply dec_chars_no_nul, digits_range; lia. }
  assert (c_str (to_string n ++ 0 :: tail) = c_str (to_string n)) as ->; [|done].
  rewrite (c_str_id (to_string n)) by done. unfold no_nul in Hnn.
  induction Hnn as [|c s Hc Hs IH]; simpl; [done|]. apply Z.eqb_neq in Hc as ->. by rewrite IH.
Qed.

(** ** Theorems *)

(** Rijndael is invertible, for every key of 16, 24 or 32 bytes and every block
    size of 16, 24 or 32 bytes: [MakeKey] succeeds, [EncryptBlock] produces a block,
    and [DecryptBlock] gives the original block back. *)
Theorem DecryptBlock_EncryptBlock k chain kl bs inp :
  valid_size kl -> valid_size bs -> Forall is_byte k ->
  kl <= Z.of_nat (length k) -> bs <= Z.of_nat (length chain) ->
  Forall is_byte inp -> Z.of_nat (length inp) = bs ->
  exists o c, MakeKey k chain kl bs = Val o /\ EncryptBlock o inp = Val c
    /\ Z.of_nat (length c) = bs /\ DecryptBlock o c = Val inp.
Proof.
  intros Hkl Hbs Hk Hlk Hlc Hb Hl. destruct (MakeKey_ok k chain kl bs) as (o & E & Ho & Es & _); [done..|].
  destruct (block_roundtrip o inp Ho Hb ltac:(lia)) as (c & Ec & Hcl & _ & Ed).
  exists o, c. split_and!; [done..|lia|done].
Qed.

Lemma DecryptBlock_EncryptBlock_witness :
  exists o c, MakeKey (replicate 24 7) (replicate 24 0) 24 24 = Val o /\ EncryptBlock o (replicate 24 200) = Val c
    /\ Z.of_nat (length c) = 24 /\ DecryptBlock o c = Val (replicate 24 200).
Proof.
  apply (DecryptBlock_EncryptBlock (replicate 24 7) (replicate 24 0) 24 24 (replicate 24 200)).
  - right. left. reflexivity.
  - right. left. reflexivity.
  - by_decide.
  - vm_compute. discriminate.
  - vm_compute. discriminate.
  - by_decide.
  - reflexivity.
Defined.

(** C2. The three modes round trip: what [Encrypt] wrote for a text of whole blocks,
    [Decrypt] turns back into it, in ECB, CBC and CFB mode, from the chain [MakeKey] set
    or after [ResetChain]. *)
Theorem Decrypt_Encrypt k chain kl bs m inp n :
  valid_size kl -> valid_size bs -> Forall is_byte k -> Forall is_byte chain ->
  kl <= Z.of_nat (length k) -> bs <= Z.of_nat (length chain) ->
  Forall is_byte inp -> Z.of_nat (length inp) = n -> 0 < n -> n mod bs = 0 ->
  exists o c o', MakeKey k chain kl bs = Val o /\ Encrypt o inp n m = Val (c, o')
    /\ Z.of_nat (length c) = n
    /\ Decrypt o c n m = Val (inp, o') /\ Decrypt (ResetChain o') c n m = Val (inp, o').
Proof.
  intros Hkl Hbs Hk Hcb Hlk Hlc Hb Hl Hn Hmod.
  destruct (MakeKey_ok k chain kl bs) as (o & E & Ho & Es & Ech & Ech0); [done..|].
  assert (chained o) as Hc.
  { split; [done|]. rewrite Ech, Es, length_take. split; [|by apply Forall_take].
    unfold valid_size in Hbs. lia. }
  destruct (modes_roundtrip o m inp n Hc Hb Hl Hn ltac:(by rewrite Es)) as (c & o' & E1 & E2 & E3 & (ch & ->)).
  exists o, c, (with_chain ch o). split_and!; try done.
  assert (ResetChain (with_chain ch o) = o) as ->; [|done].
  unfold ResetChain, with_chain. destruct o. cbn in *. by rewrite Ech, Ech0.
Qed.

Lemma Decrypt_Encrypt_witness :
  exists o c o', MakeKey (replicate 16 1) (replicate 16 9) 16 16 = Val o
    /\ Encrypt o (replicate 48 3) 48 CBC = Val (c, o')
    /\ Z.of_nat (length c) = 48
    /\ Decrypt o c 48 CBC = Val (replicate 48 3, o') /\ Decrypt (ResetChain o') c 48 CBC = Val (replicate 48 3, o').
Proof.
  apply (Decrypt_Encrypt (replicate 16 1) (replicate 16 9) 16 16 CBC (replicate 48 3) 48);
    try (left; reflexivity); try by_decide; try reflexivity; vm_compute; discriminate.
Defined.

(** The unrolled 128 bit transforms compute what the generic ones compute for a
    block of four words, for every object and every block. *)
Theorem DefBlocks_equiv o inp :
  m_bKeyInit o = true -> (16 <= length inp)%nat ->
  DefEncryptBlock o inp = Val (encrypt_generic (m_Ke o) 4 (m_iROUNDS o) inp)
  /\ DefDecryptBlock o inp = Val (decrypt_generic (m_Kd o) 4 (m_iROUNDS o) inp).
Proof. intros Hi Hl. split; [by apply DefEncryptBlock_generic|by apply DefDecryptBlock_generic]. Qed.

Lemma DefBlocks_equiv_witness :
  let o := mkRijndael true [[1; 2; 3; 4]] [[4; 3; 2; 1]] 16 16 0 [] [] in
  DefEncryptBlock o (replicate 16 5) = Val (encrypt_generic [[1; 2; 3; 4]] 4 0 (replicate 16 5)).
Proof.
  intros o. apply (DefBlocks_equiv o (replicate 16 5)); [reflexivity|simpl; lia].
Defined.

(** The round tables are the products of the substitution boxes with the mix column
    and inverse mix column coefficients, computed with [Mul4] from the logarithms; the
    two boxes are inverse to each other, and [Mul] is the product of GF(2^8) that the
    generator table defines. *)
Theorem tables_from_Mul4 x :
  is_byte x ->
  let s := Sb x in let si := Sib x in
  tab sm_T1 x = Mul4 s [2; 1; 1; 3] /\ tab sm_T2 x = Mul4 s [3; 2; 1; 1]
  /\ tab sm_T3 x = Mul4 s [1; 3; 2; 1] /\ tab sm_T4 x = Mul4 s [1; 1; 3; 2]
  /\ tab sm_T5 x = Mul4 si [14; 9; 13; 11] /\ tab sm_T6 x = Mul4 si [11; 14; 9; 13]
  /\ tab sm_T7 x = Mul4 si [13; 11; 14; 9] /\ tab sm_T8 x = Mul4 si [9; 13; 11; 14]
  /\ tab sm_U1 x = Mul4 x [14; 9; 13; 11] /\ tab sm_U2 x = Mul4 x [11; 14; 9; 13]
  /\ tab sm_U3 x = Mul4 x [13; 11; 14; 9] /\ tab sm_U4 x = Mul4 x [9; 13; 11; 14]
  /\ Sib s = x /\ Sb si = x
  /\ Mul x 2 = Z.lxor (u8 (2 * x)) (if x <? 128 then 0 else 0x1B).
Proof.
  intros Hx. by_table 256%nat (fun x =>
    forallb (fun '(T, y, c) => tab T x =? Mul4 y c)
      [(sm_T1, Sb x, [2; 1; 1; 3]); (sm_T2, Sb x, [3; 2; 1; 1]); (sm_T3, Sb x, [1; 3; 2; 1]);
       (sm_T4, Sb x, [1; 1; 3; 2]); (sm_T5, Sib x, [14; 9; 13; 11]); (sm_T6, Sib x, [11; 14; 9; 13]);
       (sm_T7, Sib x, [13; 11; 14; 9]); (sm_T8, Sib x, [9; 13; 11; 14]); (sm_U1, x, [14; 9; 13; 11]);
       (sm_U2, x, [11; 14; 9; 13]); (sm_U3, x, [13; 11; 14; 9]); (sm_U4, x, [9; 13; 11; 14])]
    && (Sib (Sb x) =? x) && (Sb (Sib x) =? x)
    && (Mul x 2 =? Z.lxor (u8 (2 * x)) (if x <? 128 then 0 else 0x1B))).
  specialize (H x Hx). cbn [forallb] in H. rewrite !andb_true_iff, !Z.eqb_eq in H. cbv zeta. tauto.
Qed.

Lemma tables_from_Mul4_witness : tab sm_T1 83 = Mul4 (Sb 83) [2; 1; 1; 3].
Proof. apply (tables_from_Mul4 83). vm_compute. split; congruence. Defined.

(** The exchange price is recovered: encrypting a price text under the key of the
    service and printing it in hexadecimal (either case) gives an input for which
    [sohu_price_decode] returns the price, whatever the memory behind the empty chain
    literal holds. *)
Theorem sohu_price_roundtrip after price text hm :
  (15 <= length after)%nat -> Forall is_byte after -> price_text price text ->
  INT_MIN <= price <= INT_MAX -> hm = hexMap_upper \/ hm = hexMap_lower ->
  exists o code o', MakeKey (sohu_key ++ [0]) (0 :: after) 32 16 = Val o
    /\ Encrypt o text (Z.of_nat (length text)) ECB = Val (code, o')
    /\ sohu_price_decode after (hex_readable hm code) = Val price.
Proof.
  intros Ha Hab [Hb (pad & Ebody) [Hmax Hmod] Hroom (tail & Elen)] Hp Hm.
  destruct sohu_key_ok as [Hkl Hkb].
  assert (0 < length (to_string price))%nat as Hpos by (pose proof (to_string_ne price); by destruct (to_string price); [|simpl; lia]).
  destruct (MakeKey_ok (sohu_key ++ [0]) (0 :: after) 32 16) as (o & E & Ho & Es & Ech & _).
  { right. by right. } { by left. } { apply Forall_app. split; [done|]. repeat constructor; lia. }
  { rewrite length_app, Hkl. simpl. lia. } { simpl. lia. }
  assert (chained o) as Hc.
  { split; [done|]. rewrite Ech, Es, length_take. split; [cbn [length]; lia|].
    apply Forall_take. constructor; [apply byte_0|done]. }
  destruct (modes_roundtrip o ECB text (Z.of_nat (length text)) Hc Hb eq_refl ltac:(lia) ltac:(by rewrite Es))
    as (code & o' & Ee & Hcl & Ed & (chn & ->)).
  assert (Forall is_byte code) as Hcb.
  { unfold Encrypt, checked in Ee. rewrite (k_init o Ho) in Ee. cbn [negb] in Ee.
    destruct (_ || _); [discriminate Ee|]. destruct (_ <=? _); [|discriminate Ee]. cbn [check mbind outcome_bind] in Ee.
    eapply encrypt_loop_bytes; exact Ee. }
  exists o, code, (with_chain chn o). split; [done|]. split; [done|].
  unfold sohu_price_decode. rewrite Hex2String_readable by done.
  unfold sohu_Decrypt. rewrite Hkl. change (Z.of_nat 32) with 32. rewrite E. cbn [mbind outcome_bind]. rewrite Hcl.
  destruct (Z.ltb_spec (Z.of_nat (length text)) MAX_LEN); [|lia].
  destruct (Z.leb_spec 16 (Z.of_nat (length text))); [|lia]. cbn [andb]. rewrite Ed. cbn [mbind outcome_bind].
  replace (Z.to_nat (Z.of_nat (length text) - 16)) with (length text - 16)%nat by lia.
  rewrite Elen, atoi_nul by (unfold MAX_LEN in *; lia).
  destruct (Z.leb_spec (Z.of_nat (length (to_string price))) 0); [lia|].
  destruct (Z.ltb_spec (Z.of_nat (length text) - 16) (Z.of_nat (length (to_string price)))); [lia|]. cbn [orb].
  cbn [try_std mbind outcome_bind]. rewrite Nat2Z.id, Ebody, take_app_length.
  unfold stoi. rewrite sto_to_string by done. done.
Qed.

(** The price text for 1250: one block with the price, one with its length. *)
Definition sample_text : bytes := str "1250" ++ replicate 12 0 ++ str "4" ++ replicate 15 0.

Lemma sohu_price_roundtrip_witness :
  exists o code o', MakeKey (sohu_key ++ [0]) (0 :: replicate 15 0) 32 16 = Val o
    /\ Encrypt o sample_text 32 ECB = Val (code, o')
    /\ sohu_price_decode (replicate 15 0) (hex_readable hexMap_upper code) = Val 1250.
Proof.
  apply (sohu_price_roundtrip (replicate 15 0) 1250 sample_text hexMap_upper).
  - simpl. lia.
  - by_decide.
  - constructor.
    + by_decide.
    + exists (replicate 12 0 ++ str "4" ++ replicate 15 0). reflexivity.
    + split; reflexivity.
    + vm_compute. lia.
    + exists (replicate 14 0). reflexivity.
  - vm_compute. split; discriminate.
  - left. reflexivity.
Defined.

(** The decoder copies its chain block from the empty literal: with fewer than fifteen
    readable bytes behind its terminator, every call is undefined. *)
Theorem sohu_price_decode_overread after input :
  (length after < 15)%nat -> sohu_price_decode after input = Undef.
Proof.
  intros Ha. unfold sohu_price_decode, sohu_Decrypt. destruct sohu_key_ok as [-> _].
  unfold MakeKey. cbn [Z.of_nat Z.eqb orb negb].
  destruct (Z.leb_spec 16 (Z.of_nat (length (0 :: after)))) as [Hl|_]; [simpl in Hl; lia|]. reflexivity.
Qed.

Lemma sohu_price_decode_overread_witness : sohu_price_decode [] (str "00") = Undef.
Proof. apply (sohu_price_decode_overread [] (str "00")). simpl. lia. Defined.
