(* ===== verification/Executor.v ===== *)
(** * Executor: the thread pool (core/core_executor.h, core/core_executor.cpp)

    [ThreadPool] as a labelled step relation: every thread has a program counter, a
    step is what one thread does between two points where others can interfere, and
    [pthread_cond_wait] releases the mutex and blocks atomically and may also return
    spuriously.  [pushed] and [taken] record the tasks in the order they entered and
    left the queue.  [RunInCore] and [getThreadSeqId] give threads their numbers. *)
From S2P Require Import Prelude Cypher.

Abbreviation tid := nat.
Abbreviation task := nat.

(** ** Program counters *)

Inductive pc : Set :=
(* threadpool_thread_run and take *)
| WStart | WLoop | WLock | WTest | WBlock | WWait | WRelock | WPop
| WUnlock (o : option task) | WRun (o : option task) | WExit
(* run *)
| RLock (t : task) | RTest (t : task) | RBlock (t : task) | RWait (t : task) | RRelock (t : task)
| RPush (t : task) | RUnlock | RExit
(* stop *)
| SSet | SNotify | SJoin (ts : list tid) | SExit
(* pendingTasks *)
| PLock | PRead | PUnlock (n : nat) | PExit (n : nat).

#[global] Instance pc_eq_dec : EqDecision pc.
Proof. solve_decision. Defined.

(** The points at which a thread owns the mutex. *)
Definition holds (p : pc) : bool :=
  match p with
  | WTest | WBlock | WPop | WUnlock _ | RTest _ | RBlock _ | RPush _ | RUnlock | PRead | PUnlock _ => true
  | _ => false
  end.

Record ThreadPool := mkPool {
  queue_ : list task;
  maxQueueSize_ : nat;
  running_ : bool;
  mutex_ : option tid;
  threads_ : list tid;
  pcs : gmap tid pc;
  pushed : list task;
  taken : list task;
}.

Definition goto (i : tid) (p : pc) (s : ThreadPool) : ThreadPool :=
  mkPool (queue_ s) (maxQueueSize_ s) (running_ s) (mutex_ s) (threads_ s) (<[i := p]> (pcs s)) (pushed s) (taken s).
Definition set_mutex (o : option tid) (s : ThreadPool) : ThreadPool :=
  mkPool (queue_ s) (maxQueueSize_ s) (running_ s) o (threads_ s) (pcs s) (pushed s) (taken s).
Definition set_running (b : bool) (s : ThreadPool) : ThreadPool :=
  mkPool (queue_ s) (maxQueueSize_ s) b (mutex_ s) (threads_ s) (pcs s) (pushed s) (taken s).
Definition set_threads (l : list tid) (s : ThreadPool) : ThreadPool :=
  mkPool (queue_ s) (maxQueueSize_ s) (running_ s) (mutex_ s) l (pcs s) (pushed s) (taken s).
Definition push_back (t : task) (s : ThreadPool) : ThreadPool :=
  mkPool (queue_ s ++ [t]) (maxQueueSize_ s) (running_ s) (mutex_ s) (threads_ s) (pcs s) (pushed s ++ [t]) (taken s).
Definition pop_front (t : task) (q : list task) (s : ThreadPool) : ThreadPool :=
  mkPool q (maxQueueSize_ s) (running_ s) (mutex_ s) (threads_ s) (pcs s) (pushed s) (taken s ++ [t]).

(** The pool after [start]: [n] workers about to run the init callback. *)
Definition start (n maxq : nat) : ThreadPool :=
  mkPool [] maxq true None (seq 0 n) (list_to_map (map (fun i => (i, WStart)) (seq 0 n))) [] [].

(** ** Condition variables *)

(** The waiters of a condition, and where a woken one resumes. *)
Definition wakes_empty (p : pc) : option pc := match p with WWait => Some WRelock | _ => None end.
Definition wakes_full (p : pc) : option pc := match p with RWait t => Some (RRelock t) | _ => None end.

(** [pthread_cond_signal] wakes one waiter, if there is one. *)
Inductive notify (w : pc -> option pc) (s : ThreadPool) : ThreadPool -> Prop :=
| notify_one i p p' : pcs s !! i = Some p -> w p = Some p' -> notify w s (goto i p' s)
| notify_none : (forall i p, pcs s !! i = Some p -> w p = None) -> notify w s s.

(** [pthread_cond_broadcast] wakes all of them. *)
Definition notifyAll (w : pc -> option pc) (s : ThreadPool) : ThreadPool :=
  mkPool (queue_ s) (maxQueueSize_ s) (running_ s) (mutex_ s) (threads_ s)
    ((fun p => default p (w p)) <$> pcs s) (pushed s) (taken s).

(** ** Steps *)

(** [Call]: a client enters [run], [stop] or [pendingTasks]; [Wake]: a spurious wakeup. *)
Inductive label : Set := Call | Wake | Step.

Inductive step : label -> ThreadPool -> ThreadPool -> Prop :=
(* clients *)
| call_run s i t : pcs s !! i = None -> step Call s (goto i (RLock t) s)
| call_stop s i : pcs s !! i = None -> step Call s (goto i SSet s)
| call_pendingTasks s i : pcs s !! i = None -> step Call s (goto i PLock s)
(* the worker loop *)
| w_init s i : pcs s !! i = Some WStart -> step Step s (goto i WLoop s)
| w_loop s i : pcs s !! i = Some WLoop -> step Step s (goto i (if running_ s then WLock else WExit) s)
(* take *)
| w_lock s i : pcs s !! i = Some WLock \/ pcs s !! i = Some WRelock -> mutex_ s = None ->
    step Step s (goto i WTest (set_mutex (Some i) s))
| w_test s i : pcs s !! i = Some WTest ->
    step Step s (goto i (if bool_decide (queue_ s = []) && running_ s then WBlock else WPop) s)
| w_block s i : pcs s !! i = Some WBlock -> step Step s (goto i WWait (set_mutex None s))
| w_spurious s i : pcs s !! i = Some WWait -> step Wake s (goto i WRelock s)
| w_pop_empty s i : pcs s !! i = Some WPop -> queue_ s = [] -> step Step s (goto i (WUnlock None) s)
| w_pop s s' i t q : pcs s !! i = Some WPop -> queue_ s = t :: q ->
    (if (0 <? maxQueueSize_ s)%nat then notify wakes_full (pop_front t q s) s' else s' = pop_front t q s) ->
    step Step s (goto i (WUnlock (Some t)) s')
| w_unlock s i o : pcs s !! i = Some (WUnlock o) -> step Step s (goto i (WRun o) (set_mutex None s))
| w_run s i o : pcs s !! i = Some (WRun o) -> step Step s (goto i WLoop s)
(* an exception of the task leaves the loop: the handler is outside it *)
| w_throw s i t : pcs s !! i = Some (WRun (Some t)) -> step Step s (goto i WExit s)
(* run *)
| r_lock s i t : pcs s !! i = Some (RLock t) \/ pcs s !! i = Some (RRelock t) -> mutex_ s = None ->
    step Step s (goto i (RTest t) (set_mutex (Some i) s))
| r_test s i t : pcs s !! i = Some (RTest t) ->
    step Step s (goto i (if (0 <? maxQueueSize_ s)%nat && (maxQueueSize_ s <=? length (queue_ s))%nat
                         then RBlock t else RPush t) s)
| r_block s i t : pcs s !! i = Some (RBlock t) -> step Step s (goto i (RWait t) (set_mutex None s))
| r_spurious s i t : pcs s !! i = Some (RWait t) -> step Wake s (goto i (RRelock t) s)
| r_push s s' i t : pcs s !! i = Some (RPush t) -> notify wakes_empty (push_back t s) s' ->
    step Step s (goto i RUnlock s')
| r_unlock s i : pcs s !! i = Some RUnlock -> step Step s (goto i RExit (set_mutex None s))
(* stop, which does not take the mutex *)
| s_set s i : pcs s !! i = Some SSet -> step Step s (goto i SNotify (set_running false s))
| s_notify s i : pcs s !! i = Some SNotify ->
    step Step s (goto i (SJoin (threads_ s)) (notifyAll wakes_empty s))
| s_join s i t ts : pcs s !! i = Some (SJoin (t :: ts)) -> pcs s !! t = Some WExit ->
    step Step s (goto i (SJoin ts) s)
| s_done s i : pcs s !! i = Some (SJoin []) -> step Step s (goto i SExit (set_threads [] s))
(* pendingTasks *)
| p_lock s i : pcs s !! i = Some PLock -> mutex_ s = None -> step Step s (goto i PRead (set_mutex (Some i) s))
| p_read s i : pcs s !! i = Some PRead -> step Step s (goto i (PUnlock (length (queue_ s))) s)
| p_unlock s i n : pcs s !! i = Some (PUnlock n) -> step Step s (goto i (PExit n) (set_mutex None s)).

Definition steps : ThreadPool -> ThreadPool -> Prop := rtc (fun s s' => exists l, step l s s').

(** ** Numbering the threads *)

(** RunInCore: [runCore] and the table are shared; each thread takes an index, writes
    its id there and sorts the table when every index has been taken. *)
Inductive icore : Set := ITake | IWrite (myCore : nat) | ISort | IDone.

Record cores := mkCores { runCore : nat; totalThread : nat; threadMappingTable : list Z; ipcs : list (Z * icore) }.

#[global] Instance Zle_rel_dec : RelDecision Z.le.
Proof. intros x y. apply _. Defined.

(** The next action of thread number [k]; the sort is on the first [totalThread] entries. *)
Definition core_step (k : nat) (s : cores) : cores :=
  match ipcs s !! k with
  | Some (me, ITake) =>
    mkCores (S (runCore s)) (totalThread s) (threadMappingTable s) (<[k := (me, IWrite (runCore s))]> (ipcs s))
  | Some (me, IWrite myCore) =>
    mkCores (runCore s) (totalThread s) (<[myCore := me]> (threadMappingTable s)) (<[k := (me, ISort)]> (ipcs s))
  | Some (me, ISort) =>
    mkCores (runCore s) (totalThread s)
      (if (runCore s =? totalThread s)%nat
       then merge_sort Z.le (take (totalThread s) (threadMappingTable s)) ++ drop (totalThread s) (threadMappingTable s)
       else threadMappingTable s) (<[k := (me, IDone)]> (ipcs s))
  | _ => s
  end.

Definition core_run (schedule : list nat) (s : cores) : cores := foldl (fun s k => core_step k s) s schedule.

Definition cores_start (ids table : list Z) : cores :=
  mkCores 0 (length ids) table (map (fun me => (me, ITake)) ids).

(** [getThreadSeqId]; a failed [assert] stops the program and is [Undef] here. *)
Definition getThreadSeqId (table : list Z) (threadNum key : Z) : outcome Z :=
  l ← bSearch_loop (S (Z.to_nat threadNum)) table key 0 (threadNum - 1);
  check ((0 <=? l) && (l <? threadNum));;
  x ← rd table l;
  check (x =? key);;
  Val l.

(** ** The invariant *)

(** A worker that will look at the queue before it can sleep or leave. *)
Definition committed (p : pc) : bool := match p with WRelock | WTest | WPop => true | _ => false end.
Definition weight (p : pc) : nat := if committed p then 1%nat else 0%nat.
Definition count (m : gmap tid pc) : nat := map_fold (fun _ p n => weight p + n)%nat 0%nat m.

Record inv (s : ThreadPool) : Prop := {
  (* exactly the thread at a locked point owns the mutex *)
  i_mutex : forall i p, pcs s !! i = Some p -> (holds p = true <-> mutex_ s = Some i);
  i_owner : forall i, mutex_ s = Some i -> is_Some (pcs s !! i);
  (* tasks leave the queue in the order they entered it *)
  i_fifo : pushed s = taken s ++ queue_ s;
  (* the queue is within its bound, with room for a push under way *)
  i_bound : (0 < maxQueueSize_ s)%nat -> (length (queue_ s) <= maxQueueSize_ s)%nat
            /\ forall i t, pcs s !! i = Some (RPush t) -> (length (queue_ s) < maxQueueSize_ s)%nat;
  (* a worker about to sleep has seen the queue empty *)
  i_block : forall i, pcs s !! i = Some WBlock -> queue_ s = [];
  (* no wakeup is lost: while a worker sleeps, a committed one is up for every task *)
  i_wake : (exists i, pcs s !! i = Some WWait) -> (length (queue_ s) <= count (pcs s))%nat;
}.

Lemma count_insert_new m i p : m !! i = None -> count (<[i := p]> m) = (weight p + count m)%nat.
Proof. intros Hi. unfold count. rewrite map_fold_insert_L; [done| |done]. intros. lia. Qed.

Lemma count_insert m i p p' : m !! i = Some p -> (weight p + count (<[i := p']> m) = weight p' + count m)%nat.
Proof.
  intros Hi. rewrite <- (insert_delete_id m i p) at 2 by done. rewrite <- insert_delete_eq.
  rewrite !count_insert_new by (by rewrite lookup_delete_eq). lia.
Qed.

(** ** Preservation *)

Ltac pool_simpl := unfold goto, set_mutex, set_running, set_threads, push_back, pop_front, notifyAll in *; simpl in *.

(** Case on which thread a lookup is about. *)
Ltac look :=
  repeat match goal with
  | H : <[?i := _]> _ !! ?j = Some _ |- _ => apply lookup_insert_Some in H; destruct H as [[? ?]|[? ?]]; subst
  end; simplify_eq.

(** How a move may change the owner of the mutex. *)
Inductive owner_change (i : tid) (p p' : pc) : option tid -> option tid -> Prop :=
| keep o : holds p = holds p' -> owner_change i p p' o o
| acquire : holds p = false -> holds p' = true -> owner_change i p p' None (Some i)
| release o : holds p = true -> holds p' = false -> owner_change i p p' o None.

(** Thread [i] moves from [p] to [p'] and the queue stays as it is. *)
Lemma inv_move s i p p' mx :
  inv s -> pcs s !! i = Some p -> owner_change i p p' (mutex_ s) mx ->
  (weight p <= weight p')%nat \/ queue_ s = [] ->
  (p' = WWait \/ p' = WBlock -> queue_ s = []) ->
  (forall t, p' = RPush t -> (0 < maxQueueSize_ s)%nat -> (length (queue_ s) < maxQueueSize_ s)%nat) ->
  inv (goto i p' (set_mutex mx s)).
Proof.
  intros [Hm Ho Hf Hb Hk Hw] Hi Hc Hwt Hq Hp. constructor; pool_simpl.
  - intros j q Hj. inversion Hc as [o Hh E1 E2|Hh Hh' E1 E2|o Hh Hh' E1 E2]; subst mx; look.
    + rewrite <- Hh. by apply Hm.
    + by apply Hm.
    + by rewrite Hh'.
    + split; [|congruence]. intros Hq'. apply (Hm j q) in Hq'; [|done]. congruence.
    + rewrite Hh'. done.
    + split; [|done]. intros Hq'. apply (Hm j q) in Hq'; [|done]. apply (Hm i p) in Hh; [|done]. congruence.
  - intros j Hj. destruct (decide (i = j)) as [->|]; [rewrite lookup_insert_eq; done|].
    rewrite lookup_insert_ne by done. inversion Hc; subst; [by apply Ho|congruence|done].
  - done.
  - intros Hmax. destruct (Hb Hmax) as [Hb1 Hb2]. split; [done|]. intros j t Hj. look; [by eapply Hp|by eapply Hb2].
  - intros j Hj. look; [apply Hq; by right|by eapply Hk].
  - intros [j Hj]. pose proof (count_insert (pcs s) i p p' Hi) as Hcnt.
    destruct Hwt as [Hwt|Hempty]; [|rewrite Hempty; simpl; lia]. look.
    + rewrite Hq by (by left). simpl. lia.
    + specialize (Hw (ex_intro _ _ H0)). lia.
Qed.

Lemma set_mutex_id s : set_mutex (mutex_ s) s = s.
Proof. by destruct s. Qed.

Lemma inv_goto s i p p' :
  inv s -> pcs s !! i = Some p -> holds p = holds p' ->
  (weight p <= weight p')%nat \/ queue_ s = [] ->
  (p' = WWait \/ p' = WBlock -> queue_ s = []) ->
  (forall t, p' = RPush t -> (0 < maxQueueSize_ s)%nat -> (length (queue_ s) < maxQueueSize_ s)%nat) ->
  inv (goto i p' s).
Proof.
  intros Hs Hi Hh H1 H2 H3. rewrite <- (set_mutex_id s) at 1. eapply inv_move; try done. by constructor.
Qed.

Lemma inv_call s i p' :
  inv s -> pcs s !! i = None -> holds p' = false -> p' <> WWait -> p' <> WBlock -> inv (goto i p' s).
Proof.
  intros [Hm Ho Hf Hb Hk Hw] Hi Hh N1 N2. constructor; pool_simpl.
  - intros j q Hj. look; [|by apply Hm]. rewrite Hh. split; [done|]. intros Hj%Ho. by rewrite Hi in Hj; destruct Hj.
  - intros j Hj. destruct (decide (i = j)) as [->|]; [by rewrite lookup_insert_eq|].
    rewrite lookup_insert_ne by done. by apply Ho.
  - done.
  - intros Hmax. destruct (Hb Hmax) as [Hb1 Hb2]. split; [done|]. intros j t Hj. look. by eapply Hb2.
  - intros j Hj. look. by eapply Hk.
  - intros [j Hj]. look. specialize (Hw (ex_intro _ _ H0)). rewrite count_insert_new by done. lia.
Qed.

Lemma inv_pop s i t q :
  inv s -> pcs s !! i = Some WPop -> queue_ s = t :: q -> inv (goto i (WUnlock (Some t)) (pop_front t q s)).
Proof.
  intros [Hm Ho Hf Hb Hk Hw] Hi Hq. constructor; pool_simpl; rewrite ?Hq in *.
  - intros j p Hj. look; [by apply (Hm j WPop)|by apply Hm].
  - intros j Hj. destruct (decide (i = j)) as [->|]; [by rewrite lookup_insert_eq|].
    rewrite lookup_insert_ne by done. by apply Ho.
  - rewrite Hf, <- app_assoc. done.
  - intros Hmax. destruct (Hb Hmax) as [Hb1 Hb2]. simpl in *. split; [lia|]. intros j t' Hj. look; lia.
  - intros j Hj. look. by specialize (Hk j H0).
  - intros [j Hj]. look. specialize (Hw (ex_intro _ _ H0)).
    pose proof (count_insert (pcs s) i WPop (WUnlock (Some t)) Hi). simpl in *. lia.
Qed.

Lemma inv_push s i t :
  inv s -> pcs s !! i = Some (RPush t) ->
  (forall j, pcs s !! j <> Some WWait) \/ (S (length (queue_ s)) <= count (pcs s))%nat ->
  inv (goto i RUnlock (push_back t s)).
Proof.
  intros [Hm Ho Hf Hb Hk Hw] Hi Hn. constructor; pool_simpl.
  - intros j p Hj. look; [by apply (Hm j (RPush t))|by apply Hm].
  - intros j Hj. destruct (decide (i = j)) as [->|]; [by rewrite lookup_insert_eq|].
    rewrite lookup_insert_ne by done. by apply Ho.
  - rewrite Hf, <- app_assoc. done.
  - intros Hmax. destruct (Hb Hmax) as [Hb1 Hb2]. rewrite length_app. simpl. specialize (Hb2 i t Hi).
    split; [lia|]. intros j t' Hj. look.
    (* two threads cannot both be at a push *)
    pose proof (proj1 (Hm _ _ Hi) eq_refl). pose proof (proj1 (Hm _ _ H0) eq_refl). congruence.
  - intros j Hj. look.
    pose proof (proj1 (Hm _ _ Hi) eq_refl). pose proof (proj1 (Hm _ _ H0) eq_refl). congruence.
  - intros [j Hj]. look. destruct Hn as [Hn|Hn]; [by destruct (Hn j)|].
    pose proof (count_insert (pcs s) i (RPush t) RUnlock Hi). rewrite length_app. simpl in *. lia.
Qed.

Lemma inv_notifyAll s : inv s -> inv (notifyAll wakes_empty s).
Proof.
  intros [Hm Ho Hf Hb Hk Hw].
  assert (forall q, (default q (wakes_empty q) = q /\ q <> WWait) \/ (q = WWait /\ default q (wakes_empty q) = WRelock)) as G
    by (intros []; simpl; auto).
  constructor; pool_simpl.
  - intros j p Hj. rewrite lookup_fmap, fmap_Some in Hj. destruct Hj as (q & Hj & ->).
    destruct (G q) as [[-> _]|[-> ->]]; [by apply Hm|]. by apply (Hm j WWait).
  - intros j Hj. rewrite lookup_fmap. apply fmap_is_Some. by apply Ho.
  - done.
  - intros Hmax. destruct (Hb Hmax) as [Hb1 Hb2]. split; [done|]. intros j t Hj.
    rewrite lookup_fmap, fmap_Some in Hj. destruct Hj as (q & Hj & E).
    destruct (G q) as [[E' _]|[-> E']]; rewrite E' in E; [subst; by eapply Hb2|done].
  - intros j Hj. rewrite lookup_fmap, fmap_Some in Hj. destruct Hj as (q & Hj & E).
    destruct (G q) as [[E' _]|[-> E']]; rewrite E' in E; [subst; by eapply Hk|done].
  - intros [j Hj]. rewrite lookup_fmap, fmap_Some in Hj. destruct Hj as (q & Hj & E).
    destruct (G q) as [[E' N]|[-> E']]; rewrite E' in E; [by subst|done].
Qed.

Lemma inv_set_running b s : inv s -> inv (set_running b s).
Proof. intros [? ? ? ? ? ?]. by constructor. Qed.
Lemma inv_set_threads l s : inv s -> inv (set_threads l s).
Proof. intros [? ? ? ? ? ?]. by constructor. Qed.

Ltac by_goto := eapply inv_goto; simpl in *; eauto; try (intros; intuition congruence); try (left; unfold weight; simpl; lia).
Ltac by_acquire :=
  eapply inv_move; [eassumption|eassumption
    |match goal with E : mutex_ _ = None |- _ => rewrite E end; apply acquire; reflexivity
    |left; unfold weight; simpl; lia|intros; intuition congruence|intros; congruence].
Ltac by_move := eapply inv_move; simpl in *; eauto; try (intros; intuition congruence); try (left; unfold weight; simpl; lia); try (by constructor).

Lemma step_inv l s s' : inv s -> step l s s' -> inv s'.
Proof.
  intros Hs Hst. pose proof Hs as [Hm Ho Hf Hb Hk Hw]. destruct Hst.
  - by apply inv_call.
  - by apply inv_call.
  - by apply inv_call.
  - by_goto.
  - destruct (running_ s); by_goto.
  - destruct H as [H|H]; by_acquire.
  - destruct (bool_decide (queue_ s = [])) eqn:E; cbn [andb].
    + apply bool_decide_eq_true in E. destruct (running_ s); by_goto.
    + by_goto.
  - by_move.
  - by_goto.
  - by_goto.
  - destruct (0 <? maxQueueSize_ s)%nat; [|subst; by apply inv_pop].
    inversion H1 as [j p p' Hj Hp|]; subst; [|by apply inv_pop].
    pool_simpl. destruct p; try done. injection Hp as <-.
    change (inv (goto i (WUnlock (Some t)) (pop_front t q (goto j (RRelock t0) s)))).
    apply inv_pop; [by_goto| |done]. simpl. rewrite lookup_insert_ne; [done|congruence].
  - by_move.
  - by_goto.
  - by_goto.
  - destruct H as [H|H]; by_acquire.
  - destruct (Nat.ltb_spec 0 (maxQueueSize_ s)) as [Hl|Hl], (Nat.leb_spec (maxQueueSize_ s) (length (queue_ s)));
      cbn [andb]; by_goto; intros; lia.
  - by_move.
  - by_goto.
  - inversion H0 as [j p p' Hj Hp|Hn]; subst; pool_simpl.
    + destruct p; try done. injection Hp as <-.
      change (inv (goto i RUnlock (push_back t (goto j WRelock s)))).
      apply inv_push; [by_goto| |right].
      * simpl. rewrite lookup_insert_ne; [done|congruence].
      * simpl. pose proof (count_insert (pcs s) j WWait WRelock Hj). specialize (Hw (ex_intro _ _ Hj)). simpl in *. lia.
    + apply inv_push; [done..|left]. intros j Hj. by specialize (Hn j WWait Hj).
  - by_move.
  - eapply (inv_goto (set_running false s)); [by apply inv_set_running|..]; eauto; try (intros; intuition congruence).
  - eapply (inv_goto (notifyAll wakes_empty s) i SNotify); [by apply inv_notifyAll|..]; eauto; try (intros; intuition congruence).
    simpl. by rewrite lookup_fmap, H.
  - by_goto.
  - eapply (inv_goto (set_threads [] s)); [by apply inv_set_threads|..]; eauto; try (intros; intuition congruence).
  - by_acquire.
  - by_goto.
  - by_move.
Qed.

Lemma count_none m : (forall i p, m !! i = Some p -> committed p = false) -> count m = 0%nat.
Proof.
  induction m as [|i p m Hi IH] using map_ind; intros H; [done|]. rewrite count_insert_new by done.
  rewrite IH.
  - unfold weight. rewrite (H i p); [done|by rewrite lookup_insert_eq].
  - intros j q Hj. apply (H j q). rewrite lookup_insert_ne; [done|congruence].
Qed.

Lemma start_pcs n maxq i p : pcs (start n maxq) !! i = Some p -> p = WStart /\ (i < n)%nat.
Proof.
  simpl. intros Hi. apply elem_of_list_to_map_2 in Hi. apply list_elem_of_In, in_map_iff in Hi as (j & [= <- <-] & Hj).
  apply in_seq in Hj. split; [done|lia].
Qed.

Lemma inv_start n maxq : inv (start n maxq).
Proof.
  constructor.
  - intros i p Hi. apply start_pcs in Hi as [-> _]. done.
  - done.
  - done.
  - intros _. split; [simpl; lia|]. intros i t Hi. by apply start_pcs in Hi as [? _].
  - done.
  - intros [i Hi]. by apply start_pcs in Hi as [? _].
Qed.

Lemma steps_inv n maxq s : steps (start n maxq) s -> inv s.
Proof.
  intros H. assert (inv (start n maxq)) as Hi by apply inv_start.
  induction H as [|s1 s2 s3 [l Hst] _ IH]; [done|]. apply IH. by eapply step_inv.
Qed.

Lemma step_max l s s' : step l s s' -> maxQueueSize_ s' = maxQueueSize_ s.
Proof.
  destruct 1; try done; simpl.
  - destruct (0 <? maxQueueSize_ s)%nat; [inversion H1; by subst|by subst].
  - by inversion H0; subst.
Qed.

Lemma steps_max s s' : steps s s' -> maxQueueSize_ s' = maxQueueSize_ s.
Proof. induction 1 as [|s1 s2 s3 [l Hst] _ IH]; [done|]. rewrite IH. by eapply step_max. Qed.

(** ** Progress *)

(** A signal can always be delivered. *)
Lemma notify_total w s : exists s', notify w s s'.
Proof.
  destruct (decide (map_Forall (fun _ p => w p = None) (pcs s))) as [Hn|Hn].
  - exists s. apply notify_none. intros i p Hp. by apply (Hn i p).
  - apply map_not_Forall in Hn as (i & p & Hp & Hw); [|apply _].
    destruct (w p) as [p'|] eqn:E; [|done]. exists (goto i p' s). by eapply notify_one.
Qed.

(** The thread that owns the mutex can always move on. *)
Lemma owner_steps s i p : pcs s !! i = Some p -> holds p = true -> exists s', step Step s s'.
Proof.
  intros Hi Hh. destruct p; try done; try (eexists; by econstructor; eauto).
  - destruct (queue_ s) as [|t q] eqn:Eq; [eexists; by eapply w_pop_empty|].
    destruct (0 <? maxQueueSize_ s)%nat eqn:E.
    + destruct (notify_total wakes_full (pop_front t q s)) as [s1 H1].
      eexists. eapply w_pop; [done..|]. rewrite E. exact H1.
    + eexists. eapply w_pop; [done..|]. by rewrite E.
  - destruct (notify_total wakes_empty (push_back t s)) as [s1 H1]. eexists. by eapply r_push.
Qed.

Lemma count_pos m : (0 < count m)%nat -> exists i p, m !! i = Some p /\ committed p = true.
Proof.
  intros H. destruct (decide (map_Forall (fun _ p => committed p = false) m)) as [Hn|Hn].
  - rewrite count_none in H; [lia|]. intros i p Hp. by apply (Hn i p).
  - apply map_not_Forall in Hn as (i & p & Hp & Hc); [|apply _]. exists i, p. split; [done|].
    by destruct (committed p).
Qed.

(** ** Lemmas: the numbers *)

Lemma bSearch_loop_prefix fuel a rest key l h :
  h < Z.of_nat (length a) -> 0 <= l -> bSearch_loop fuel (a ++ rest) key l h = bSearch_loop fuel a key l h.
Proof.
  revert l h. induction fuel as [|fuel IH]; intros l h Hh Hl; cbn [bSearch_loop]; [done|].
  destruct (Z.leb_spec l h); [|done].
  assert (0 <= Z.shiftr (h - l) 1 <= h - l) as Hmid.
  { rewrite Z.shiftr_div_pow2 by lia. change (2 ^ 1) with 2. dlia. }
  set (mid := l + Z.shiftr (h - l) 1) in *.
  rewrite (rd_nth a mid 0), (rd_nth (a ++ rest) mid 0) by (rewrite ?length_app; lia).
  rewrite app_nth1 by lia. cbn [mbind outcome_bind].
  destruct (key <=? _); apply IH; lia.
Qed.

(** ** Theorems *)

(** C3. In every reachable state of the pool, under every interleaving of workers,
    producers, observers and a stopping thread: at most one thread is at a locked point,
    tasks leave the queue in the order they entered, each at most once, and the queue
    never exceeds its bound. *)
Theorem pool_safety n maxq s :
  steps (start n maxq) s ->
  (forall i j p q, pcs s !! i = Some p -> pcs s !! j = Some q -> holds p = true -> holds q = true -> i = j)
  /\ pushed s = taken s ++ queue_ s
  /\ ((0 < maxq)%nat -> (length (queue_ s) <= maxq)%nat).
Proof.
  intros H. pose proof (steps_inv n maxq s H) as [Hm _ Hf Hb _ _]. apply steps_max in H. simpl in H.
  split_and!; [|done|].
  - intros i j p q Hi Hj Hp Hq. apply (Hm i p Hi) in Hp. apply (Hm j q Hj) in Hq. congruence.
  - intros Hmax. rewrite <- H. apply Hb. by rewrite H.
Qed.

Lemma pool_safety_witness :
  let s := goto 7 (RLock 42) (start 2 3) in
  steps (start 2 3) s /\ pushed s = taken s ++ queue_ s.
Proof.
  intros s. assert (steps (start 2 3) s) as Hs.
  { apply rtc_once. exists Call. apply call_run. reflexivity. }
  split; [exact Hs|]. apply (pool_safety 2 3 s Hs).
Defined.

(** C4. No wakeup is lost between [run] and [take]: in every reachable state in which a
    task is queued while a worker sleeps on the condition, another worker is awake and
    bound to look at the queue before it can sleep or exit, and the pool can move. *)
Theorem pool_no_lost_task n maxq s i :
  steps (start n maxq) s -> pcs s !! i = Some WWait -> queue_ s <> [] ->
  (exists j p, pcs s !! j = Some p /\ committed p = true) /\ exists s', step Step s s'.
Proof.
  intros H Hi Hq. pose proof (steps_inv n maxq s H) as [Hm Ho _ _ _ Hw].
  specialize (Hw (ex_intro _ _ Hi)).
  assert (0 < count (pcs s))%nat as Hc by (destruct (queue_ s); [done|simpl in Hw; lia]).
  destruct (count_pos _ Hc) as (j & p & Hj & Hp). split; [by exists j, p|].
  destruct (mutex_ s) as [k|] eqn:Ek.
  - destruct (Ho k eq_refl) as [q Hq']. eapply owner_steps; [exact Hq'|]. by apply (Hm k q).
  - destruct p; try done.
    + pose proof (proj1 (Hm _ _ Hj) eq_refl). congruence.
    + eexists. apply (w_lock s j); [by right|done].
    + pose proof (proj1 (Hm _ _ Hj) eq_refl). congruence.
Qed.

(** One worker asleep, one woken by a push that has not run yet. *)
Definition woken_state : ThreadPool :=
  mkPool [5%nat] 0 true (Some 9%nat) [0%nat; 1%nat]
    {[ 0%nat := WWait; 1%nat := WRelock; 9%nat := RUnlock ]} [5%nat] [].

(** One more step of an explicit run. *)
Tactic Notation "go" constr(l) uconstr(c) :=
  eapply rtc_l; [exists l; apply c; first [reflexivity | left; reflexivity]|].

Lemma start_2 : start 2 0 = mkPool [] 0 true None [0%nat; 1%nat] {[ 0%nat := WStart; 1%nat := WStart ]} [] [].
Proof. reflexivity. Qed.

Lemma woken_reachable : steps (start 2 0) woken_state.
Proof.
  rewrite start_2. unfold steps.
  go Step (w_init _ 0). go Step (w_loop _ 0).
  go Step (w_lock _ 0).
  go Step (w_test _ 0). go Step (w_block _ 0).
  go Step (w_init _ 1). go Step (w_loop _ 1).
  go Step (w_lock _ 1).
  go Step (w_test _ 1). go Step (w_block _ 1).
  go Call (call_run _ 9 5).
  go Step (r_lock _ 9 5).
  go Step (r_test _ 9 5).
  eapply rtc_l; [exists Step; eapply (r_push _ _ 9 5); [reflexivity|apply (notify_one _ _ 1 WWait WRelock); reflexivity]|].
  match goal with |- rtc _ ?a ?b => assert (a = b) as -> by (vm_compute; reflexivity) end. apply rtc_refl.
Qed.

Lemma pool_no_lost_task_witness :
  queue_ woken_state = [5%nat] /\ exists s', step Step woken_state s'.
Proof.
  split; [reflexivity|].
  apply (pool_no_lost_task 2 0 woken_state 0 woken_reachable); [reflexivity|discriminate].
Defined.

(** [stop] can hang: it clears the flag and broadcasts without the mutex, so both may
    happen after a worker has tested the flag and before it sleeps.  A reachable state has
    the flag cleared, the worker asleep and [stop] joining it, and no thread can move. *)
Theorem stop_deadlock :
  exists s, steps (start 1 5000) s /\ running_ s = false
    /\ pcs s !! 0%nat = Some WWait /\ pcs s !! 1%nat = Some (SJoin [0%nat])
    /\ forall s', ~ step Step s s'.
Proof.
  set (s := mkPool [] 5000 false None [0%nat] {[ 0%nat := WWait; 1%nat := SJoin [0%nat] ]} [] []).
  exists s. split_and!; try reflexivity.
  - unfold steps.
    go Step (w_init _ 0). go Step (w_loop _ 0).
    go Step (w_lock _ 0).
    go Step (w_test _ 0).
    go Call (call_stop _ 1).
    go Step (s_set _ 1).
    go Step (s_notify _ 1).
    go Step (w_block _ 0).
    match goal with |- rtc _ ?a ?b => assert (a = b) as -> by (vm_compute; reflexivity) end. apply rtc_refl.
  - assert (forall i p, pcs s !! i = Some p -> (i = 0%nat /\ p = WWait) \/ (i = 1%nat /\ p = SJoin [0%nat])) as G.
    { intros i p. unfold s; simpl. rewrite lookup_insert_Some, lookup_singleton_Some. naive_solver. }
    intros s' Hst. inversion Hst; subst;
      repeat match goal with H : _ \/ _ |- _ => destruct H end;
      match goal with H : pcs s !! _ = Some _ |- _ => apply G in H as E end; destruct E as [[? E]|[? E]]; try discriminate E.
Qed.

(** [getThreadSeqId] over a sorted table finds every registered thread: the number it
    returns is in range and is the position of the id, and distinct ids get distinct
    numbers. *)
Theorem getThreadSeqId_spec ids rest key :
  sorted ids -> In key ids ->
  exists l, getThreadSeqId (ids ++ rest) (Z.of_nat (length ids)) key = Val l
    /\ 0 <= l < Z.of_nat (length ids) /\ ids !! Z.to_nat l = Some key
    /\ forall key', getThreadSeqId (ids ++ rest) (Z.of_nat (length ids)) key' = Val l -> key' = key.
Proof.
  intros Hs [j Hj]%list_elem_of_In%list_elem_of_lookup.
  assert (0 < length ids)%nat by (apply lookup_lt_Some in Hj; lia).
  unfold getThreadSeqId.
  destruct (bSearch_loop_spec (S (length ids)) ids key 0 (Z.of_nat (length ids) - 1) Hs)
    as (r & E & (Hr & Hlo & Hhi)); try lia.
  { intros i x Hi Ex. apply lookup_lt_Some in Ex. lia. }
  rewrite Nat2Z.id, bSearch_loop_prefix, E by lia. cbn [mbind outcome_bind].
  assert (r <= Z.of_nat j) as Hrj.
  { destruct (Z.le_gt_cases r (Z.of_nat j)); [done|]. specialize (Hlo j key ltac:(lia) Hj). lia. }
  apply lookup_lt_Some in Hj as Hjl.
  destruct (lookup_lt_is_Some_2 ids (Z.to_nat r)) as [x Hx]; [lia|].
  assert (x = key) as ->.
  { pose proof (Hhi (Z.to_nat r) x ltac:(lia) Hx). pose proof (Hs _ _ _ _ Hx Hj ltac:(lia)). lia. }
  assert (rd (ids ++ rest) r = Val key) as Erd.
  { apply rd_Some; [lia|]. by apply lookup_app_l_Some. }
  exists r. destruct (Z.leb_spec 0 r), (Z.ltb_spec r (Z.of_nat (length ids))); try lia.
  cbn [andb check mbind outcome_bind]. rewrite Erd. cbn [mbind outcome_bind]. rewrite Z.eqb_refl.
  split_and!; try done. intros key' E'. run_inv.
  match goal with H : (_ =? _) = true |- _ => apply Z.eqb_eq in H; subst end.
  rewrite lookup_app_l in * by lia. congruence.
Qed.

Lemma getThreadSeqId_spec_witness :
  exists l, getThreadSeqId [10; 20; 30; 0; 0] 3 20 = Val l /\ 0 <= l < 3 /\ [10; 20; 30] !! Z.to_nat l = Some 20
    /\ forall key', getThreadSeqId [10; 20; 30; 0; 0] 3 key' = Val l -> key' = 20.
Proof.
  apply (getThreadSeqId_spec [10; 20; 30] [0; 0] 20).
  - apply sorted_adjacent. intros [|[|[|i]]] x y [= <-] [= <-]; lia.
  - right. left. reflexivity.
Defined.

(** Registration races: the table is sorted by every thread that sees all indices
    taken, while others have yet to write theirs, so a write can land on an entry the
    sort moved.  With three threads a schedule ends with every thread registered, the id
    of the first missing from the table, and its [getThreadSeqId] failing the assertion. *)
Theorem RunInCore_race :
  exists schedule,
    let s := core_run schedule (cores_start [5; 7; 9] (replicate 128 0)) in
    Forall (fun t => t.2 = IDone) (ipcs s) /\ ~ In 5 (threadMappingTable s)
    /\ getThreadSeqId (threadMappingTable s) 3 5 = Undef.
Proof.
  exists [0; 1; 2; 2; 2; 0; 0; 1; 1]%nat. split_and!.
  - repeat constructor.
  - vm_compute. intros H. repeat (destruct H as [H|H]; [discriminate H|]). exact H.
  - vm_compute. reflexivity.
Qed.
