(* ===== verification/Escape.v ===== *)
(** * Escape: binary log records without NUL bytes (utility/escape.cpp)

    [encode4ali] removes the NUL bytes of a record and prefixes it with their
    positions, as variable length numbers; [decode4ali] puts them back.  Both work
    in local arrays of 1024 elements, none of whose bounds the code checks: a write
    outside them is undefined.  The two functions here have the [int] versions of the
    number code of utility/url.cpp, on an unchecked cursor. *)
From S2P Require Import Prelude CString UrlCodec UrlParams Cypher UrlHelper.

(** ** Definitions *)

(** [char stub[1024]], [char result[1024]], [int zeroIndex[1024]], [int zeroIdx[1024]] *)
Definition ARRAY_SIZE : Z := 1024.

(** A local array filled from its start; [*p++ = b]. *)
Definition put (b : Z) (out : list Z) : outcome (list Z) :=
  check (Z.of_nat (length out) <? ARRAY_SIZE);; Val (out ++ [b]).

Fixpoint put_all (bs : list Z) (out : list Z) : outcome (list Z) :=
  match bs with [] => Val out | b :: bs => out ← put b out; put_all bs out end.

(** Five rounds are enough for a positive [int]. *)
Fixpoint numberEncode_loop (fuel : nat) (number : Z) (out : bytes) : outcome bytes :=
  if 0 <? number then
    match fuel with
    | O => Undef
    | S fuel => out ← put (Z.lor (Z.land number 0x7F) 0x80) out;
                numberEncode_loop fuel (Z.shiftr number 7) out
    end
  else Val out.

Definition numberEncode (number : Z) (out : bytes) : outcome bytes :=
  out ← numberEncode_loop 5 number out;
  let i := Z.of_nat (length out) - 1 in
  x ← rd out i; wr out i (Z.land x 0x7F).

(** [buf] is what the cursor can still read, the terminator of the string included. *)
Definition numberDecode (buf : bytes) : outcome (Z * bytes) :=
  let i := length (take_while (fun b => 0x7F <? b) buf) in
  match drop i buf with
  | [] => Undef
  | _ :: rest =>
    let result := foldl (fun r b => s32 (Z.shiftl (s32 (r + Z.land b 0x7F)) 7)) 0
                    (rev (drop 1 (take (S i) buf))) in
    b0 ← rd buf 0; Val (s32 (result + Z.land b0 0x7F), rest)
  end.

(** The first loop of encode4ali: [zeroIndex]. *)
Fixpoint zero_loop (buf : bytes) (i : Z) (zeroIndex : list Z) : outcome (list Z) :=
  match buf with
  | [] => Val zeroIndex
  | b :: buf => zeroIndex ← (if b =? 0 then put (i + 1) zeroIndex else Val zeroIndex);
                zero_loop buf (i + 1) zeroIndex
  end.

Fixpoint encode_indices (zs : list Z) (out : bytes) : outcome bytes :=
  match zs with [] => Val out | z :: zs => out ← numberEncode z out; encode_indices zs out end.

Fixpoint copy_nonzero (buf : bytes) (out : bytes) : outcome bytes :=
  match buf with
  | [] => Val out
  | b :: buf => out ← (if negb (b =? 0) then put b out else Val out); copy_nonzero buf out
  end.

Definition encode4ali (input : bytes) : outcome bytes :=
  zeroIndex ← zero_loop input 0 [];
  let zeroCnt := Z.of_nat (length zeroIndex) in
  if zeroCnt =? 0 then
    stub ← put (ch "0") []; stub ← put_all input stub; Val stub
  else
    stub ← put (ch "1") [];
    stub ← numberEncode zeroCnt stub;
    stub ← encode_indices zeroIndex stub;
    stub ← copy_nonzero input stub;
    check (Z.of_nat (length stub) <? ARRAY_SIZE);;
    Val stub.

(** The positions: the array bound stops the loop, so one round more than it has elements is enough. *)
Fixpoint index_loop (fuel : nat) (i zeroCnt : Z) (p : bytes) (zeroIdx : list Z) : outcome (list Z * bytes) :=
  if i <? zeroCnt then
    match fuel with
    | O => Undef
    | S fuel => '(n, p) ← numberDecode p; zeroIdx ← put (s32 (n - 1)) zeroIdx;
                index_loop fuel (i + 1) zeroCnt p zeroIdx
    end
  else Val (zeroIdx, p).

(** [while (k < zeroIdx[j]) result[k++] = p[i++];] *)
Fixpoint copy_until (lim : Z) (p result : bytes) : outcome (bytes * bytes) :=
  if Z.of_nat (length result) <? lim then
    match p with
    | [] => Undef
    | b :: p => result ← put b result; copy_until lim p result
    end
  else Val (p, result).

(** The first loop over the positions, with the [zeroIdx] still to be placed. *)
Fixpoint place_loop (zs : list Z) (p result : bytes) : outcome (list Z * bytes * bytes) :=
  match zs with
  | [] => Val ([], p, result)
  | z :: zs' =>
    c ← rd p 0;
    if c =? 0 then Val (zs, p, result)
    else '(p, result) ← copy_until z p result; result ← put 0 result; place_loop zs' p result
  end.

(** [while (p[i] != 0) result[k++] = p[i++];] *)
Fixpoint copy_rest (p result : bytes) : outcome bytes :=
  match p with
  | [] => Undef
  | b :: p => if b =? 0 then Val result else result ← put b result; copy_rest p result
  end.

Definition decode4ali (input : bytes) : outcome bytes :=
  c ← cat input 0;
  if c =? ch "0" then Val (drop 1 input)
  else
    match input ++ [0] with
    | [] => Undef
    | _ :: p =>
      '(zeroCnt, p) ← numberDecode p;
      '(zeroIdx, p) ← index_loop 1025 0 zeroCnt p [];
      '(zs, p, result) ← place_loop zeroIdx p [];
      result ← put_all (replicate (length zs) 0) result;
      result ← copy_rest p result;
      check (Z.of_nat (length result) <? ARRAY_SIZE);;
      Val result
    end.

(** ** Specification *)

(** The one based positions of the NUL bytes of [x], whose first byte is number [i]. *)
Fixpoint zeros (i : Z) (x : bytes) : list Z :=
  match x with
  | [] => []
  | b :: x => if b =? 0 then i + 1 :: zeros (i + 1) x else zeros (i + 1) x
  end.

Definition nonzero (x : bytes) : bytes := filter (fun b => b <> 0) x.

Definition indices_text (zs : list Z) : bytes := concat (map varint zs).

Definition encoded (x : bytes) : bytes :=
  match zeros 0 x with
  | [] => ch "0" :: x
  | zs => ch "1" :: varint (Z.of_nat (length zs)) ++ indices_text zs ++ nonzero x
  end.

(** What the 1024 byte arrays can hold: the escaped form also takes a terminator. *)
Definition fits (x : bytes) : bool :=
  let n := Z.of_nat (length (encoded x)) in
  match zeros 0 x with [] => n <=? ARRAY_SIZE | _ => n <? ARRAY_SIZE end.

(** ** Lemmas: sequential writes *)

Lemma put_all_spec bs out :
  Z.of_nat (length out) <= ARRAY_SIZE ->
  put_all bs out = if Z.of_nat (length out + length bs) <=? ARRAY_SIZE then Val (out ++ bs) else Undef.
Proof.
  revert out. induction bs as [|b bs IH]; intros out Ho; cbn [put_all length].
  - rewrite app_nil_r. zcase; [done|lia].
  - unfold put, check. destruct (Z.ltb_spec (Z.of_nat (length out)) ARRAY_SIZE); cbn [mbind outcome_bind].
    + rewrite IH by (rewrite length_app; simpl; lia). rewrite length_app, <- app_assoc. simpl.
      replace (length out + 1 + length bs)%nat with (length out + S (length bs))%nat by lia. done.
    + zcase; [lia|done].
Qed.

Lemma put_all_app a b out : put_all (a ++ b) out = put_all a out ≫= put_all b.
Proof.
  revert out. induction a as [|x a IH]; intros out; [done|]. cbn [app put_all].
  rewrite bind_assoc. destruct (put x out); [apply IH|done..].
Qed.

Lemma put_all_ok bs out :
  Z.of_nat (length out + length bs) <= ARRAY_SIZE -> put_all bs out = Val (out ++ bs).
Proof. intros. rewrite put_all_spec by lia. zcase; [done|lia]. Qed.

Lemma put_all_one b out : put_all [b] out = put b out.
Proof. simpl. by destruct (put b out). Qed.

Lemma put_ok b out : Z.of_nat (length out) < ARRAY_SIZE -> put b out = Val (out ++ [b]).
Proof. intros. rewrite <- put_all_one, put_all_ok; [done|simpl; lia]. Qed.

Lemma put_all_len bs out r : put_all bs out = Val r -> Z.of_nat (length out) <= ARRAY_SIZE ->
  Z.of_nat (length r) <= ARRAY_SIZE.
Proof.
  intros E Ho. rewrite put_all_spec in E by done. revert E. zcase; [|done].
  intros [= <-]. rewrite length_app. lia.
Qed.

(** ** Lemmas: numbers *)

Lemma numberEncode_loop_put fuel n out :
  0 <= n < 128 ^ Z.of_nat fuel ->
  numberEncode_loop fuel n out = put_all (map (fun d => 128 + d) (groups_loop fuel n)) out.
Proof.
  revert n out. induction fuel as [|fuel IH]; intros n out Hn; cbn [numberEncode_loop groups_loop].
  - change (128 ^ Z.of_nat 0) with 1 in Hn. destruct (Z.ltb_spec 0 n); [lia|done].
  - destruct (Z.ltb_spec 0 n); [|done]. cbn [map put_all].
    rewrite Nat2Z.inj_succ, Z.pow_succ_r in Hn by lia.
    rewrite high_bit, Z.shiftr_div_pow2 by lia. change (2 ^ 7) with 128.
    destruct (put (128 + n mod 128) out); [|done..]. cbn [mbind outcome_bind]. apply IH. dlia.
Qed.

Lemma groups_loop_fuel f g n :
  0 <= n < 128 ^ Z.of_nat f -> (f <= g)%nat -> groups_loop g n = groups_loop f n.
Proof.
  revert g n. induction f as [|f IH]; intros g n Hn Hg.
  - change (128 ^ Z.of_nat 0) with 1 in Hn. destruct g; cbn [groups_loop]; [done|].
    destruct (Z.ltb_spec 0 n); [lia|done].
  - destruct g as [|g]; [lia|]. cbn [groups_loop]. destruct (Z.ltb_spec 0 n); [|done].
    rewrite Nat2Z.inj_succ, Z.pow_succ_r in Hn by lia. f_equal. apply IH; [dlia|lia].
Qed.

Lemma numberEncode_put n out :
  0 < n < 2 ^ 31 -> Z.of_nat (length out) <= ARRAY_SIZE -> numberEncode n out = put_all (varint n) out.
Proof.
  intros Hn Ho. unfold numberEncode.
  rewrite numberEncode_loop_put by (change (128 ^ Z.of_nat 5) with (2 ^ 35); lia).
  rewrite !put_all_spec by done. rewrite length_map.
  destruct (groups_spec n ltac:(lia)) as (Hd & Hv & Hne).
  unfold varint. rewrite length_varint_of. unfold groups in *. destruct (Z.ltb_spec 0 n); [|lia].
  rewrite (groups_loop_fuel 5 10) in * by (first [lia|change (128 ^ Z.of_nat 5) with (2 ^ 35); lia]).
  destruct (_ <=? ARRAY_SIZE); [|done]. cbn [mbind outcome_bind].
  destruct (groups_loop 5 n) as [|d ds _] using rev_ind; [done|].
  apply Forall_app in Hd as [_ Hd]. rewrite Forall_singleton in Hd. destruct (land_127 d Hd) as [_ E].
  rewrite map_app. cbn [map]. rewrite app_assoc, varint_of_snoc.
  assert (Z.of_nat (length ((out ++ map (fun d => 128 + d) ds) ++ [128 + d])) - 1
          = Z.of_nat (length (out ++ map (fun d => 128 + d) ds))) as -> by (rewrite !length_app; simpl; lia).
  rewrite rd_mid by done. cbn [mbind outcome_bind]. rewrite wr_mid by done.
  by rewrite E, <- app_assoc.
Qed.

Lemma numberDecode_int n rest : 0 <= n < 2 ^ 31 -> numberDecode (varint n ++ rest) = Val (n, rest).
Proof.
  intros Hn. destruct (groups_spec n ltac:(lia)) as (Hd & Hv & Hne). unfold numberDecode, varint.
  destruct (varint_scan (groups n) rest Hne Hd) as [[x ->] ->].
  destruct (decode_value 32 (groups n) ltac:(lia) Hne Hd) as (b0 & -> & E); [rewrite Hv; lia|].
  cbn [mbind outcome_bind]. by rewrite E, Hv.
Qed.

(** ** Lemmas: encoding *)

Lemma zeros_range i x : 0 <= i -> Forall (fun z => i < z <= i + Z.of_nat (length x)) (zeros i x).
Proof.
  revert i. induction x as [|b x IH]; intros i Hi; cbn [zeros length]; [constructor|].
  specialize (IH (i + 1) ltac:(lia)).
  assert (Forall (fun z => i < z <= i + Z.of_nat (S (length x))) (zeros (i + 1) x))
    by (eapply Forall_impl; [exact IH|intros; simpl in *; lia]).
  destruct (b =? 0); [constructor; [lia|]|]; done.
Qed.

Lemma zeros_length i x : (length (zeros i x) + length (nonzero x) = length x)%nat.
Proof.
  revert i. unfold nonzero. induction x as [|b x IH]; intros i; [done|]. cbn [zeros]. rewrite filter_cons.
  specialize (IH (i + 1)).
  destruct (Z.eqb_spec b 0); [rewrite decide_False by auto|rewrite decide_True by done]; simpl; lia.
Qed.

Lemma zero_loop_put x i zs : zero_loop x i zs = put_all (zeros i x) zs.
Proof.
  revert i zs. induction x as [|b x IH]; intros i zs; cbn [zero_loop zeros]; [done|].
  destruct (b =? 0); cbn [put_all].
  - destruct (put (i + 1) zs); [apply IH|done..].
  - apply IH.
Qed.

Lemma copy_nonzero_put x out : copy_nonzero x out = put_all (nonzero x) out.
Proof.
  revert out. induction x as [|b x IH]; intros out; cbn [copy_nonzero]; [done|].
  unfold nonzero in *. rewrite filter_cons. destruct (Z.eqb_spec b 0) as [->|Hb]; simpl negb; cbv iota.
  - rewrite decide_False by auto. apply IH.
  - rewrite decide_True by done. cbn [put_all]. destruct (put b out); [apply IH|done..].
Qed.

Lemma encode_indices_put zs out :
  Forall (fun z => 0 < z < 2 ^ 31) zs -> Z.of_nat (length out) <= ARRAY_SIZE ->
  encode_indices zs out = put_all (indices_text zs) out.
Proof.
  intros Hz. revert out. induction Hz as [|z zs Hz _ IH]; intros out Ho; [done|].
  cbn [encode_indices]. unfold indices_text. cbn [map concat]. rewrite put_all_app, numberEncode_put by done.
  destruct (put_all (varint z) out) as [r| |] eqn:E; [|done..]. cbn [mbind outcome_bind].
  apply IH. by eapply put_all_len.
Qed.

Lemma length_indices_text zs :
  Forall (fun z => 0 < z < 2 ^ 31) zs -> (length zs <= length (indices_text zs))%nat.
Proof.
  induction 1 as [|z zs Hz _ IH]; [simpl; lia|]. unfold indices_text in *. cbn [map concat length].
  rewrite length_app. pose proof (length_varint z ltac:(lia)). lia.
Qed.

(** The escaped branch is one sequence of writes. *)
Lemma escaped_put zs x :
  Forall (fun z => 0 < z < 2 ^ 31) zs -> 0 < Z.of_nat (length zs) < 2 ^ 31 ->
  (stub ← put (ch "1") []; stub ← numberEncode (Z.of_nat (length zs)) stub;
   stub ← encode_indices zs stub; copy_nonzero x stub)
  = put_all (varint (Z.of_nat (length zs)) ++ indices_text zs ++ nonzero x) [ch "1"].
Proof.
  intros Hz Hn. change (put (ch "1") []) with (Val [ch "1"]). cbn [mbind outcome_bind].
  rewrite !put_all_app, numberEncode_put by (done || (simpl; lia)).
  destruct (put_all _ [ch "1"]) as [s| |] eqn:E; [|done..]. cbn [mbind outcome_bind].
  apply put_all_len in E; [|simpl; unfold ARRAY_SIZE; lia].
  rewrite encode_indices_put, put_all_app by done.
  destruct (put_all (indices_text zs) s); [|done..]. apply copy_nonzero_put.
Qed.

Lemma encode4ali_spec x :
  Z.of_nat (length x) < 2 ^ 31 -> encode4ali x = if fits x then Val (encoded x) else Undef.
Proof.
  intros Hx. unfold encode4ali, fits, encoded. rewrite zero_loop_put.
  pose proof (zeros_range 0 x ltac:(lia)) as Hz.
  pose proof (zeros_length 0 x) as Hl.
  rewrite put_all_spec by (unfold ARRAY_SIZE; simpl; lia). cbn [app length Nat.add].
  destruct (zeros 0 x) as [|z zs] eqn:Ez.
  { change (Z.of_nat 0 <=? ARRAY_SIZE) with true. cbv iota. cbn [mbind outcome_bind length].
    change (Z.of_nat 0 =? 0) with true. change (put (ch "0") []) with (Val [ch "0"]).
    cbv iota. cbn [mbind outcome_bind].
    rewrite put_all_spec by (simpl; unfold ARRAY_SIZE; lia). cbn [length].
    by destruct (_ <=? ARRAY_SIZE). }
  assert (Forall (fun z => 0 < z < 2 ^ 31) (z :: zs)) as Hz'
    by (eapply Forall_impl; [exact Hz|intros; simpl in *; lia]).
  pose proof (length_indices_text _ Hz') as Hi.
  change (S (length zs)) with (length (z :: zs)).
  set (body := varint (Z.of_nat (length (z :: zs))) ++ indices_text (z :: zs) ++ nonzero x).
  assert (length (z :: zs) <= length body)%nat as Hb by (unfold body; rewrite !length_app; lia).
  destruct (Z.leb_spec (Z.of_nat (length (z :: zs))) ARRAY_SIZE).
  2:{ destruct (Z.ltb_spec (Z.of_nat (length (ch "1" :: body))) ARRAY_SIZE) as [H'|]; [|done].
      cbn [length] in *. lia. }
  cbn [mbind outcome_bind]. destruct (Z.eqb_spec (Z.of_nat (length (z :: zs))) 0) as [E|_]; [simpl in E; lia|].
  pose proof (escaped_put (z :: zs) x Hz' ltac:(simpl length in *; lia)) as E.
  rewrite put_all_spec in E by (simpl; unfold ARRAY_SIZE; lia). fold body in E. change (length [ch "1"]) with 1%nat in E.
  transitivity (stub ← (if Z.of_nat (1 + length body) <=? ARRAY_SIZE then Val ([ch "1"] ++ body) else Undef);
                check (Z.of_nat (length stub) <? ARRAY_SIZE);; Val stub).
  { rewrite <- E. change (put (ch "1") []) with (Val [ch "1"]). cbn [mbind outcome_bind].
    destruct (numberEncode _ _) as [s| |]; [|done..]. cbn [mbind outcome_bind].
    by destruct (encode_indices _ s). }
  destruct (Z.leb_spec (Z.of_nat (1 + length body)) ARRAY_SIZE); cbn [mbind outcome_bind app length].
  - unfold check. by destruct (_ <? ARRAY_SIZE).
  - destruct (Z.ltb_spec (Z.of_nat (S (length body))) ARRAY_SIZE); [lia|done].
Qed.

(** ** Lemmas: decoding *)

Lemma index_loop_ok fuel i zs rest acc :
  Forall (fun z => 0 < z < 2 ^ 31) zs -> (length zs <= fuel)%nat ->
  Z.of_nat (length acc + length zs) <= ARRAY_SIZE ->
  index_loop fuel i (i + Z.of_nat (length zs)) (indices_text zs ++ rest) acc
  = Val (acc ++ map Z.pred zs, rest).
Proof.
  intros Hz. revert fuel i acc. induction Hz as [|z zs Hz _ IH]; intros fuel i acc Hf Ha; cbn [length].
  - destruct fuel; cbn [index_loop]; rewrite app_nil_r; (destruct (Z.ltb_spec i (i + Z.of_nat 0)); [lia|done]).
  - destruct fuel as [|fuel]; [simpl in Hf; lia|]. cbn [index_loop].
    destruct (Z.ltb_spec i (i + Z.of_nat (S (length zs)))); [|lia].
    unfold indices_text. cbn [map concat]. rewrite <- app_assoc, numberDecode_int by lia.
    cbn [mbind outcome_bind]. rewrite put_ok by (simpl in Ha; lia). cbn [mbind outcome_bind].
    rewrite (swrap_small 32) by lia.
    replace (i + Z.of_nat (S (length zs))) with (i + 1 + Z.of_nat (length zs)) by lia.
    rewrite IH by (simpl in *; rewrite ?length_app; simpl; lia). by rewrite <- app_assoc.
Qed.

Lemma nonzero_id a : no_nul a -> nonzero a = a.
Proof. induction 1; [done|]. unfold nonzero in *. rewrite filter_cons, decide_True by done. by f_equal. Qed.

Lemma nonzero_app a b : nonzero (a ++ b) = nonzero a ++ nonzero b.
Proof. apply filter_app. Qed.

Lemma zeros_app_nz a i x : no_nul a -> zeros i (a ++ x) = zeros (i + Z.of_nat (length a)) x.
Proof.
  intros Ha. revert i. induction Ha as [|b a Hb _ IH]; intros i; cbn [app zeros length].
  - f_equal. lia.
  - apply Z.eqb_neq in Hb as ->. rewrite IH. f_equal. lia.
Qed.

Lemma nonzero_nil x i : nonzero x = [] -> x = replicate (length (zeros i x)) 0.
Proof.
  unfold nonzero. revert i. induction x as [|b x IH]; intros i; cbn [zeros]; [done|]. rewrite filter_cons.
  case_decide; [done|]. assert (b = 0) as -> by lia. intros E. simpl. f_equal. by apply IH.
Qed.

(** A record either has no NUL byte or splits at the first one. *)
Lemma split_first_zero x : no_nul x \/ exists a y, no_nul a /\ x = a ++ 0 :: y.
Proof.
  induction x as [|b x IH]; [left; constructor|]. destruct (Z.eq_dec b 0) as [->|Hb].
  - right. exists [], x. split; [constructor|done].
  - destruct IH as [IH|(a & y & Ha & ->)]; [left; by constructor|].
    right. exists (b :: a), y. split; [by constructor|done].
Qed.

Lemma copy_until_ok a p r :
  Z.of_nat (length r + length a) <= ARRAY_SIZE ->
  copy_until (Z.of_nat (length r + length a)) (a ++ p) r = Val (p, r ++ a).
Proof.
  revert r. induction a as [|b a IH]; intros r Hr; cbn [app length copy_until] in *.
  - rewrite app_nil_r.
    destruct p; simpl; (destruct (Z.ltb_spec (Z.of_nat (length r)) (Z.of_nat (length r + 0))); [lia|done]).
  - destruct (Z.ltb_spec (Z.of_nat (length r)) (Z.of_nat (length r + S (length a)))); [|lia].
    rewrite put_ok by lia. cbn [mbind outcome_bind].
    replace (length r + S (length a))%nat with (length (r ++ [b]) + length a)%nat by (rewrite length_app; simpl; lia).
    rewrite IH by (rewrite length_app; simpl; lia). by rewrite <- app_assoc.
Qed.

(** What the placing loop leaves completes to the record. *)
Lemma place_loop_ok n x r :
  (length x <= n)%nat -> Z.of_nat (length r + length x) <= ARRAY_SIZE ->
  exists zs p r', place_loop (map Z.pred (zeros (Z.of_nat (length r)) x)) (nonzero x ++ [0]) r
                  = Val (zs, p ++ [0], r')
    /\ no_nul p /\ r' ++ replicate (length zs) 0 ++ p = r ++ x.
Proof.
  revert x r. induction n as [|n IH]; intros x r Hn Hr.
  { destruct x; [|simpl in Hn; lia]. exists [], [], r. split_and!; [done|constructor|done]. }
  destruct (split_first_zero x) as [Hx|(a & y & Ha & ->)].
  { exists [], x, r. rewrite nonzero_id by done. rewrite <- (app_nil_r x) at 1.
    rewrite zeros_app_nz by done. done. }
  destruct (nonzero (a ++ 0 :: y)) as [|c l] eqn:E.
  { set (zs := map Z.pred (zeros (Z.of_nat (length r)) (a ++ 0 :: y))).
    exists zs, [], r. split_and!; [|constructor|].
    - cbn [app place_loop]. destruct zs; [done|]. done.
    - rewrite app_nil_r. unfold zs. rewrite length_map. by rewrite <- nonzero_nil. }
  rewrite zeros_app_nz by done. cbn [zeros]. change (0 =? 0) with true. cbv iota. cbn [map place_loop].
  assert (c <> 0) as Hc.
  { assert (c ∈ nonzero (a ++ 0 :: y)) as Hin by (rewrite E; left). unfold nonzero in Hin.
    by apply list_elem_of_filter in Hin as [? _]. }
  change (rd ((c :: l) ++ [0]) 0) with (Val c). cbn [mbind outcome_bind].
  apply Z.eqb_neq in Hc as ->. rewrite <- E, nonzero_app, (nonzero_id a) by done.
  rewrite <- app_assoc. rewrite length_app in Hr, Hn. cbn [length] in Hr, Hn.
  replace (Z.pred (Z.of_nat (length r) + Z.of_nat (length a) + 1)) with (Z.of_nat (length r + length a)) by lia.
  rewrite copy_until_ok by lia. cbn [mbind outcome_bind].
  rewrite put_ok by (rewrite length_app; lia). cbn [mbind outcome_bind].
  change (nonzero (0 :: y)) with (nonzero y).
  destruct (IH y ((r ++ a) ++ [0])) as (zs & p & r' & E1 & Hp & E2); [lia|rewrite !length_app; simpl; lia|].
  exists zs, p, r'. split_and!; [|done|].
  - rewrite <- E1. do 4 f_equal. rewrite !length_app. simpl. lia.
  - rewrite E2, <- !app_assoc. done.
Qed.

Lemma copy_rest_put p r : no_nul p -> copy_rest (p ++ [0]) r = put_all p r.
Proof.
  intros Hp. revert r. induction Hp as [|b p Hb _ IH]; intros r; cbn [app copy_rest put_all]; [done|].
  apply Z.eqb_neq in Hb as ->. destruct (put b r); [apply IH|done..].
Qed.

Lemma zeros_nil_no_nul i x : zeros i x = [] -> no_nul x.
Proof.
  revert i. induction x as [|b x IH]; intros i; cbn [zeros]; [constructor|].
  destruct (Z.eqb_spec b 0); [done|]. intros E. constructor; [done|by eapply IH].
Qed.

(** The last group of a positive number is not zero. *)
Lemma groups_no_nul fuel n : 0 < n < 128 ^ Z.of_nat fuel -> no_nul (varint_of (groups_loop fuel n)).
Proof.
  revert n. induction fuel as [|fuel IH]; intros n Hn; cbn [groups_loop]; [constructor|].
  destruct (Z.ltb_spec 0 n); [|lia]. rewrite Nat2Z.inj_succ, Z.pow_succ_r in Hn by lia.
  destruct (groups_loop fuel (n / 128)) as [|d ds] eqn:E.
  - constructor; [|constructor]. destruct (Z.ltb_spec 0 (n / 128)) as [Hp|]; [|dlia].
    destruct (groups_loop_spec fuel (n / 128)) as [_ Hv]; [dlia|]. rewrite E in Hv. simpl in Hv. lia.
  - change (varint_of (n mod 128 :: d :: ds)) with (128 + n mod 128 :: varint_of (d :: ds)).
    constructor; [dlia|]. rewrite <- E. apply IH. split; [|dlia].
    destruct (Z.ltb_spec 0 (n / 128)) as [Hp|Hp]; [lia|].
    destruct fuel; [done|]. cbn [groups_loop] in E. destruct (Z.ltb_spec 0 (n / 128)); [lia|done].
Qed.

Lemma varint_no_nul n : 0 < n < 2 ^ 63 -> no_nul (varint n).
Proof.
  intros Hn. unfold varint, groups. destruct (Z.ltb_spec 0 n); [|lia].
  apply groups_no_nul. change (128 ^ Z.of_nat 10) with (2 ^ 70). lia.
Qed.

Lemma indices_no_nul zs : Forall (fun z => 0 < z < 2 ^ 31) zs -> no_nul (indices_text zs).
Proof.
  induction 1 as [|z zs Hz _ IH]; [constructor|]. unfold indices_text in *. cbn [map concat].
  apply Forall_app. split; [apply varint_no_nul; lia|done].
Qed.

Lemma encoded_no_nul x : Z.of_nat (length x) < 2 ^ 31 -> no_nul (encoded x).
Proof.
  intros Hx. unfold encoded. pose proof (zeros_range 0 x ltac:(lia)) as Hz. pose proof (zeros_length 0 x) as Hl.
  destruct (zeros 0 x) as [|z zs] eqn:E.
  { constructor; [done|]. by eapply zeros_nil_no_nul. }
  constructor; [done|]. apply Forall_app. split; [|apply Forall_app; split].
  - apply varint_no_nul. simpl in *. lia.
  - apply indices_no_nul. eapply Forall_impl; [exact Hz|]. intros. simpl in *. lia.
  - apply Forall_forall. intros b Hb. unfold nonzero in Hb. by apply list_elem_of_filter in Hb as [? _].
Qed.

(** Decoding the text [encode4ali] produced. *)
Lemma decode4ali_encoded x :
  Z.of_nat (length x) < 2 ^ 31 -> fits x = true -> decode4ali (encoded x) = Val x.
Proof.
  intros Hx. unfold fits, encoded. pose proof (zeros_range 0 x ltac:(lia)) as Hz.
  pose proof (zeros_length 0 x) as Hl.
  assert (Forall (fun z => 0 < z < 2 ^ 31) (zeros 0 x)) as Hz'
    by (eapply Forall_impl; [exact Hz|intros; simpl in *; lia]).
  pose proof (length_indices_text _ Hz') as Hi.
  destruct (zeros 0 x) as [|z zs] eqn:E; [done|]. rewrite <- E in *. intros Hf%Z.ltb_lt.
  cbn [length] in Hf. rewrite !length_app in Hf. unfold ARRAY_SIZE in Hf.
  unfold decode4ali. cbn [app]. change (cat (ch "1" :: _) 0) with (Val (ch "1")). cbn [mbind outcome_bind].
  change (ch "1" =? ch "0") with false. cbv iota. rewrite <- !app_assoc.
  rewrite numberDecode_int by lia. cbn [mbind outcome_bind].
  pose proof (index_loop_ok 1025 0 (zeros 0 x) (nonzero x ++ [0]) [] Hz' ltac:(lia)
                ltac:(simpl; unfold ARRAY_SIZE; lia)) as Ei.
  rewrite Z.add_0_l in Ei. rewrite Ei. cbn [mbind outcome_bind app].
  destruct (place_loop_ok (length x) x [] ltac:(lia) ltac:(simpl; unfold ARRAY_SIZE; lia))
    as (zr & p & r & Ep & Hp & Er).
  change (Z.of_nat (length [])) with 0 in Ep. rewrite Ep. cbn [mbind outcome_bind].
  pose proof (f_equal length Er) as Hlen. rewrite !length_app, length_replicate in Hlen. simpl in Hlen.
  rewrite put_all_ok by (rewrite length_replicate; unfold ARRAY_SIZE; lia). cbn [mbind outcome_bind].
  rewrite copy_rest_put by done.
  rewrite put_all_ok by (rewrite length_app, length_replicate; unfold ARRAY_SIZE; lia).
  cbn [mbind outcome_bind]. rewrite <- app_assoc, Er. unfold check, ARRAY_SIZE. cbn [app].
  destruct (Z.ltb_spec (Z.of_nat (length x)) 1024); [done|lia].
Qed.

(** ** Theorems *)

(** A record that fits the arrays survives escaping: the encoder produces a text
    without NUL bytes, which is what it is for, and the decoder restores the record
    from it, NUL bytes included. *)
Theorem decode4ali_encode4ali x :
  Z.of_nat (length x) < 2 ^ 31 -> fits x = true ->
  exists s, encode4ali x = Val s /\ no_nul s /\ decode4ali s = Val x.
Proof.
  intros Hx Hf. exists (encoded x). rewrite encode4ali_spec, Hf by done.
  split_and!; [done|by apply encoded_no_nul|by apply decode4ali_encoded].
Qed.

Lemma decode4ali_encode4ali_witness :
  exists s, encode4ali [0; 200; 0; 0; 7; 0] = Val s /\ no_nul s /\ decode4ali s = Val [0; 200; 0; 0; 7; 0].
Proof. apply decode4ali_encode4ali; [simpl; lia|vm_compute; reflexivity]. Defined.

(** The encoder stays within its arrays exactly on the records that fit: on every
    longer one (any record of 1024 bytes, and shorter ones with NUL bytes) it writes
    past the end of a local array, which nothing in the code prevents. *)
Theorem encode4ali_bounds x :
  Z.of_nat (length x) < 2 ^ 31 ->
  (encode4ali x <> Undef <-> fits x = true) /\ (1024 <= Z.of_nat (length x) -> fits x = false).
Proof.
  intros Hx. rewrite encode4ali_spec by done. split; [by destruct (fits x)|].
  intros Hl. unfold fits, encoded. pose proof (zeros_length 0 x) as Hz.
  pose proof (zeros_range 0 x ltac:(lia)) as Hr.
  destruct (zeros 0 x) as [|z zs]; [apply Z.leb_gt; simpl; unfold ARRAY_SIZE; lia|].
  assert (Forall (fun z => 0 < z < 2 ^ 31) (z :: zs)) as Hz'
    by (eapply Forall_impl; [exact Hr|intros; simpl in *; lia]).
  pose proof (length_indices_text _ Hz') as Hi. apply Z.ltb_ge.
  cbn [length] in *. rewrite !length_app. unfold ARRAY_SIZE. lia.
Qed.

Lemma encode4ali_bounds_witness :
  encode4ali (replicate 1024 7) = Undef.
Proof.
  destruct (encode4ali_bounds (replicate 1024 7)) as [H1 H2]; [rewrite length_replicate; lia|].
  destruct (encode4ali (replicate 1024 7)) eqn:E; [..|reflexivity].
  - assert (fits (replicate 1024 7) = true) as F by (apply H1; discriminate).
    rewrite H2 in F; [discriminate|rewrite length_replicate; lia].
  - assert (fits (replicate 1024 7) = true) as F by (apply H1; discriminate).
    rewrite H2 in F; [discriminate|rewrite length_replicate; lia].
Defined.
