(* ===== verification/Hash.v ===== *)
(** * Hash: the string hashes (utility/hash.cpp)

    The three 64 bit hashes, over the [len] bytes at [key], with the wrap-around of
    [uint64_t] written out. *)
From S2P Require Import Prelude.

(** The loop over the bytes [p[0] .. p[len - 1]]; a read outside the key is undefined. *)
Fixpoint hash_loop (step : Z -> Z -> Z) (p : bytes) (n : nat) (h : Z) : outcome Z :=
  match n with
  | O => Val h
  | S n => match p with b :: p => hash_loop step p n (step h b) | [] => Undef end
  end.

Definition sax_step (h b : Z) : Z := Z.lxor h (u64 (u64 (u64 (Z.shiftl h 5) + Z.shiftr h 2) + b)).
Definition sax_hash (key : bytes) (len : Z) : outcome Z := hash_loop sax_step key (Z.to_nat len) 0.

Definition FNV_PRIME : Z := 1099511628211.
Definition FNV_BASIS : Z := 14695981039346656037.
Definition fnv_step (h b : Z) : Z := Z.lxor (u64 (h * FNV_PRIME)) b.
Definition fnv_hash (key : bytes) (len : Z) : outcome Z := hash_loop fnv_step key (Z.to_nat len) FNV_BASIS.

Definition oat_step (h b : Z) : Z :=
  let h := u64 (h + b) in
  let h := u64 (h + u64 (Z.shiftl h 10)) in
  Z.lxor h (Z.shiftr h 6).
Definition oat_final (h : Z) : Z :=
  let h := u64 (h + u64 (Z.shiftl h 3)) in
  let h := Z.lxor h (Z.shiftr h 11) in
  u64 (h + u64 (Z.shiftl h 15)).
Definition oat_hash (key : bytes) (len : Z) : outcome Z :=
  h ← hash_loop oat_step key (Z.to_nat len) 0; Val (oat_final h).

(** ** Lemmas: invertible steps *)

Definition u64_ok (h : Z) : Prop := 0 <= h < 2 ^ 64.

Lemma u64_ok_wrap z : u64_ok (u64 z).
Proof. apply uwrap_range. lia. Qed.

Lemma lxor_ok x y : u64_ok x -> u64_ok y -> u64_ok (Z.lxor x y).
Proof.
  unfold u64_ok. intros Hx Hy. split; [apply Z.lxor_nonneg; lia|].
  destruct (Z.eq_dec (Z.lxor x y) 0) as [->|Hn]; [lia|].
  assert (forall z, 0 <= z < 2 ^ 64 -> Z.log2 z < 64) as Hl.
  { intros z Hz. destruct (Z.eq_dec z 0) as [->|]; [simpl; lia|]. apply Z.log2_lt_pow2; lia. }
  apply Z.log2_lt_pow2; [assert (0 <= Z.lxor x y) by (apply Z.lxor_nonneg; lia); lia|].
  pose proof (Z.log2_lxor x y ltac:(lia) ltac:(lia)). pose proof (Hl x Hx). pose proof (Hl y Hy). lia.
Qed.

Lemma shiftr_ok h k : 0 <= k -> u64_ok h -> u64_ok (Z.shiftr h k).
Proof.
  unfold u64_ok. intros Hk Hh. rewrite Z.shiftr_div_pow2 by lia. pose proof (Z.pow_pos_nonneg 2 k ltac:(lia) Hk).
  split; [apply Z.div_pos; lia|]. apply Z.div_lt_upper_bound; [lia|]. nia.
Qed.

(** Multiplication by a number that has an inverse modulo 2^64. *)
Lemma mul_inj c i x y :
  u64 (c * i) = 1 -> u64_ok x -> u64_ok y -> u64 (x * c) = u64 (y * c) -> x = y.
Proof.
  intros Hi Hx Hy E. assert (forall z, u64_ok z -> u64 (u64 (z * c) * i) = z) as L.
  { intros z Hz. rewrite (uwrap_mul 64 (u64 (z * c)) i (z * c) i) by (done || apply uwrap_idem).
    rewrite <- Z.mul_assoc. rewrite (uwrap_mul 64 z (c * i) z 1) by done. rewrite Z.mul_1_r. by apply uwrap_small. }
  rewrite <- (L x Hx), <- (L y Hy). by rewrite E.
Qed.

(** [h += h << k] multiplies by [2^k + 1]. *)
Lemma add_shift_mul h k : 0 <= k -> u64 (h + u64 (Z.shiftl h k)) = u64 (h * (1 + 2 ^ k)).
Proof.
  intros Hk. rewrite Z.shiftl_mul_pow2 by done.
  rewrite (uwrap_add 64 h (u64 (h * 2 ^ k)) h (h * 2 ^ k)) by (done || apply uwrap_idem). f_equal. lia.
Qed.

(** [h ^= h >> k] loses nothing. *)
Lemma xorshift_inj k x y :
  0 < k -> 0 <= x -> 0 <= y -> Z.lxor x (Z.shiftr x k) = Z.lxor y (Z.shiftr y k) -> x = y.
Proof.
  intros Hk Hx Hy E. assert (Z.lxor x y = Z.shiftr (Z.lxor x y) k) as Ez.
  { rewrite Z.shiftr_lxor. apply Z.bits_inj'. intros i Hi. apply (f_equal (fun z => Z.testbit z i)) in E.
    rewrite !Z.lxor_spec in *. destruct (Z.testbit x i), (Z.testbit y i), (Z.testbit (Z.shiftr x k) i),
      (Z.testbit (Z.shiftr y k) i); done. }
  apply Z.lxor_eq. assert (0 <= Z.lxor x y) as Hz by (apply Z.lxor_nonneg; lia).
  rewrite Z.shiftr_div_pow2 in Ez by lia. assert (2 <= 2 ^ k) as H2 by (change 2 with (2 ^ 1) at 1; apply Z.pow_le_mono_r; lia).
  pose proof (Z.div_lt (Z.lxor x y) (2 ^ k)). destruct (Z.eq_dec (Z.lxor x y) 0); lia.
Qed.

Lemma fnv_step_ok h b : u64_ok h -> is_byte b -> u64_ok (fnv_step h b).
Proof. intros Hh Hb. apply lxor_ok; [apply u64_ok_wrap|]. unfold is_byte, u64_ok in *. lia. Qed.

Lemma fnv_step_inj_h h h' b : u64_ok h -> u64_ok h' -> fnv_step h b = fnv_step h' b -> h = h'.
Proof.
  unfold fnv_step. intros Hh Hh' E. apply (mul_inj FNV_PRIME 14886173955864302971); [by_decide|done..|].
  apply (f_equal (fun z => Z.lxor z b)) in E. rewrite !Z.lxor_assoc, Z.lxor_nilpotent, !Z.lxor_0_r in E. exact E.
Qed.

Lemma fnv_step_inj_b h b b' : fnv_step h b = fnv_step h b' -> b = b'.
Proof.
  unfold fnv_step. intros E. apply (f_equal (Z.lxor (u64 (h * FNV_PRIME)))) in E.
  rewrite <- !Z.lxor_assoc, Z.lxor_nilpotent, !Z.lxor_0_l in E. exact E.
Qed.

Lemma oat_step_ok h b : u64_ok (oat_step h b).
Proof. unfold oat_step. apply lxor_ok; [apply u64_ok_wrap|]. apply shiftr_ok; [lia|apply u64_ok_wrap]. Qed.

(** The mixing after the byte was added. *)
Lemma oat_mix_inj x y :
  u64_ok x -> u64_ok y ->
  (let h := u64 (x + u64 (Z.shiftl x 10)) in Z.lxor h (Z.shiftr h 6))
  = (let h := u64 (y + u64 (Z.shiftl y 10)) in Z.lxor h (Z.shiftr h 6)) -> x = y.
Proof.
  cbv zeta. intros Hx Hy E. apply xorshift_inj in E; [|lia|apply u64_ok_wrap..].
  rewrite !add_shift_mul in E by lia. revert E. apply (mul_inj _ 1151796703138937857); [by_decide|done..].
Qed.

Lemma u64_add_inj h h' b b' :
  u64_ok h -> u64_ok h' -> is_byte b -> is_byte b' -> u64 (h + b) = u64 (h' + b') ->
  (b = b' -> h = h') /\ (h = h' -> b = b').
Proof.
  unfold u64_ok, is_byte, uwrap. intros Hh Hh' Hb Hb' E. change (2 ^ 64) with 18446744073709551616 in *.
  split; intros ->; dlia.
Qed.

Lemma oat_step_inj h h' b b' :
  u64_ok h -> u64_ok h' -> is_byte b -> is_byte b' -> oat_step h b = oat_step h' b' ->
  (b = b' -> h = h') /\ (h = h' -> b = b').
Proof.
  intros Hh Hh' Hb Hb' E. apply (oat_mix_inj (u64 (h + b)) (u64 (h' + b'))) in E; [|apply u64_ok_wrap..].
  by apply u64_add_inj.
Qed.

Lemma oat_final_inj x y : u64_ok x -> u64_ok y -> oat_final x = oat_final y -> x = y.
Proof.
  unfold oat_final. intros Hx Hy E. rewrite !add_shift_mul in E by lia.
  apply (mul_inj _ 1152886321308467201) in E; [|by_decide|apply lxor_ok; try apply shiftr_ok; try lia; apply u64_ok_wrap..].
  apply xorshift_inj in E; [|lia|apply u64_ok_wrap..].
  apply (mul_inj _ 10248191152060862009) in E; [done|by_decide|done..].
Qed.

(** ** Keys that differ in one byte *)

Section one_byte.
Variable step : Z -> Z -> Z.
Hypothesis step_ok : forall h b, u64_ok h -> is_byte b -> u64_ok (step h b).
Hypothesis step_inj_h : forall h h' b, u64_ok h -> u64_ok h' -> is_byte b -> step h b = step h' b -> h = h'.
Hypothesis step_inj_b : forall h b b', u64_ok h -> is_byte b -> is_byte b' -> step h b = step h b' -> b = b'.

Lemma hash_loop_total p h :
  Forall is_byte p -> u64_ok h -> exists r, hash_loop step p (length p) h = Val r /\ u64_ok r.
Proof.
  intros Hp. revert h. induction Hp as [|b p Hb _ IH]; intros h Hh; [by exists h|]. cbn [length hash_loop]. auto.
Qed.

Lemma hash_loop_app p q h :
  hash_loop step (p ++ q) (length (p ++ q)) h = h' ← hash_loop step p (length p) h; hash_loop step q (length q) h'.
Proof. revert h. induction p as [|b p IH]; intros h; [done|]. apply IH. Qed.

Lemma hash_loop_inj p h h' :
  Forall is_byte p -> u64_ok h -> u64_ok h' ->
  hash_loop step p (length p) h = hash_loop step p (length p) h' -> h = h'.
Proof.
  intros Hp. revert h h'. induction Hp as [|b p Hb _ IH]; intros h h' Hh Hh' E; [by injection E|].
  apply (step_inj_h _ _ b); [done..|]. apply IH; auto.
Qed.

Lemma hash_loop_one_byte p b b' q h :
  Forall is_byte p -> Forall is_byte q -> is_byte b -> is_byte b' -> u64_ok h -> b <> b' ->
  hash_loop step (p ++ b :: q) (length (p ++ b :: q)) h <> hash_loop step (p ++ b' :: q) (length (p ++ b' :: q)) h.
Proof.
  intros Hp Hq Hb Hb' Hh Hne E. rewrite !hash_loop_app in E.
  destruct (hash_loop_total p h Hp Hh) as (r & Er & Hr). rewrite Er in E. cbn [mbind outcome_bind] in E.
  cbn [length hash_loop] in E. apply hash_loop_inj in E; auto. apply step_inj_b in E; auto.
Qed.
End one_byte.

Lemma u64_ok_byte b : is_byte b -> u64_ok b.
Proof. unfold is_byte, u64_ok. lia. Qed.

(** ** Theorems *)

(** Neither the FNV nor the one-at-a-time hash collides on two keys of the same length
    that differ in a single byte: every step of them can be undone. Both return a 64 bit
    value for every key. *)
Theorem hash_one_byte p b b' q :
  Forall is_byte p -> Forall is_byte q -> is_byte b -> is_byte b' -> b <> b' ->
  let k := p ++ b :: q in let k' := p ++ b' :: q in
  let len := Z.of_nat (length k) in
  (exists h h', fnv_hash k len = Val h /\ fnv_hash k' len = Val h' /\ h <> h' /\ u64_ok h)
  /\ (exists h h', oat_hash k len = Val h /\ oat_hash k' len = Val h' /\ h <> h' /\ u64_ok h).
Proof.
  intros Hp Hq Hb Hb' Hne k k' len.
  assert (Forall is_byte k) as Hk by (apply Forall_app; split; [done|by constructor]).
  assert (Forall is_byte k') as Hk' by (apply Forall_app; split; [done|by constructor]).
  assert (Z.to_nat len = length k /\ Z.to_nat len = length k') as [El El']
    by (unfold len, k, k'; rewrite !length_app, Nat2Z.id; done).
  split.
  - assert (fnv_hash k len = hash_loop fnv_step k (length k) FNV_BASIS) as -> by (unfold fnv_hash; by rewrite El).
    assert (fnv_hash k' len = hash_loop fnv_step k' (length k') FNV_BASIS) as -> by (unfold fnv_hash; by rewrite El').
    destruct (hash_loop_total fnv_step fnv_step_ok k FNV_BASIS Hk ltac:(by_decide)) as (h & E & Ho).
    destruct (hash_loop_total fnv_step fnv_step_ok k' FNV_BASIS Hk' ltac:(by_decide)) as (h' & E' & _).
    exists h, h'. split_and!; [done|done| |done]. intros ->.
    apply (hash_loop_one_byte fnv_step fnv_step_ok ltac:(intros; by eapply fnv_step_inj_h)
             ltac:(intros; by eapply fnv_step_inj_b) p b b' q FNV_BASIS); [done..|by_decide|done|].
    exact (eq_trans E (eq_sym E')).
  - assert (oat_hash k len = h ← hash_loop oat_step k (length k) 0; Val (oat_final h)) as -> by (unfold oat_hash; by rewrite El).
    assert (oat_hash k' len = h ← hash_loop oat_step k' (length k') 0; Val (oat_final h)) as -> by (unfold oat_hash; by rewrite El').
    destruct (hash_loop_total oat_step ltac:(intros; apply oat_step_ok) k 0 Hk ltac:(by_decide)) as (h & E & Ho).
    destruct (hash_loop_total oat_step ltac:(intros; apply oat_step_ok) k' 0 Hk' ltac:(by_decide)) as (h' & E' & Ho').
    rewrite E, E'. cbn [mbind outcome_bind]. do 2 eexists. split_and!; [done|done| |apply u64_ok_wrap].
    intros F%oat_final_inj; [|done..]. subst h'.
    apply (hash_loop_one_byte oat_step ltac:(intros; apply oat_step_ok)
             ltac:(intros ? ? ? ? ? ? X; by eapply (oat_step_inj _ _ _ _) in X as [X _]; auto)
             ltac:(intros ? ? ? ? ? ? X; by eapply (oat_step_inj _ _ _ _) in X as [_ X]; auto) p b b' q 0); [done..|by_decide|done|].
    exact (eq_trans E (eq_sym E')).
Qed.

Lemma hash_one_byte_witness :
  exists h h', fnv_hash (str "u1x") 3 = Val h /\ fnv_hash (str "u2x") 3 = Val h' /\ h <> h' /\ u64_ok h.
Proof.
  refine (proj1 (hash_one_byte (str "u") (ch "1") (ch "2") (str "x") _ _ _ _ _));
    [repeat constructor; by_decide|repeat constructor; by_decide|by_decide|by_decide|by_decide].
Defined.
