(* ===== verification/Scenario.v ===== *)
(** * Scenario: addresses and the scenario of an address

    The dotted quad conversions of utility/utility.h and the scenario table of
    core/core_scenario_manager.cpp.  [ipStringToInt] writes into an uninitialised union
    and looks at the byte after the terminator of its argument: what memory holds there is
    the parameter [Memory].  The boost archive of the compiled table and the scenario
    constant of mtty/constants.h, which are not part of the repository, are parameters too. *)
From S2P Require Import Prelude CString.

(** ** Addresses *)

(** The four bytes of the union before it is written, and the bytes that follow the
    terminator of a string in memory. *)
Class Memory := { uninit : bytes -> list Z; after : bytes -> bytes }.

Class MemoryLaws (M : Memory) : Prop := {
  uninit_length s : length (uninit s) = 4%nat;
  after_readable s : after s <> [];
}.

(** [p] points at the head of [mem], [p2] at the start of the current field. *)
Fixpoint ip_loop (mem p2 : bytes) (i : nat) (what : list Z) : outcome (list Z) :=
  match mem with
  | [] => Undef
  | c :: p =>
    if negb (c =? ch ".") && negb (c =? 0) then ip_loop p p2 i what
    else
      let what := <[i := u8 (atoi p2)]> what in
      next ← rd p 0;
      if next =? 0 then Val what
      else match i with O => Val what | S i => ip_loop p p i what end
  end.

(** The [int] whose bytes, least significant first, are those of the union. *)
Definition int_of_union (what : list Z) : Z :=
  s32 (foldr (fun b v => b + 256 * v) 0 what).

Definition union_of_int (ip : Z) : list Z :=
  map (fun k => Z.land (Z.shiftr (u32 ip) (8 * k)) 0xFF) [0; 1; 2; 3].

Definition ipStringToInt `{Memory} (ipString : bytes) : outcome Z :=
  let mem := ipString ++ 0 :: after ipString in
  what ← ip_loop mem mem 3 (uninit ipString);
  Val (int_of_union what).

(** [sprintf] into [char buf[16]]. *)
Definition ipIntToString (ip : Z) : outcome bytes :=
  let c k := nth k (union_of_int ip) 0 in
  let s := to_string (c 3%nat) ++ ch "." :: to_string (c 2%nat) ++ ch "." ::
           to_string (c 1%nat) ++ ch "." :: to_string (c 0%nat) in
  check (Z.of_nat (length s) + 1 <=? 16);; Val s.

(** ** The scenario table *)

(** [std::map<uint32_t, int>] *)
Abbreviation ScenarioDict := (gmap Z Z).

(** What [getline] returns before the stream reaches its end: an unterminated last line is not one. *)
Definition lines (content : bytes) : list bytes := removelast (split_on (fun c => c =? 10) content).

Section scenario.
Context `{Memory}.

Definition load_rule (dict : ScenarioDict) (line : bytes) : outcome ScenarioDict :=
  match split_on (fun c => c =? ch " ") line with
  | [r0; r1; r2] =>
    a ← ipStringToInt r0; let ipStart := u32 a in
    b ← ipStringToInt r1; let ipEnd := u32 b in
    scenario ← stoi r2;
    Val (insert_new (Z.land ipStart ipEnd) scenario dict)
  | _ => Val dict
  end.

Fixpoint load_rules (ls : list bytes) (dict : ScenarioDict) : outcome ScenarioDict :=
  match ls with [] => Val dict | l :: ls => dict ← load_rule dict l; load_rules ls dict end.

(** [None] when the file cannot be opened. *)
Definition loadScenarioData (file : option bytes) : outcome ScenarioDict :=
  match file with None => Val ∅ | Some content => load_rules (lines content) ∅ end.

Record ScenarioManager := mkScenarioManager {
  scenarioDict : ScenarioDict;
  cidrTable : option (list Z);
}.

Definition new_manager : ScenarioManager := mkScenarioManager ∅ None.

(** [boost::archive::binary_oarchive] and [binary_iarchive] on the dictionary *)
Class Archive := { oarchive : ScenarioDict -> bytes; iarchive : bytes -> outcome ScenarioDict }.

Class ArchiveLaws (A : Archive) : Prop := { iarchive_oarchive d : iarchive (oarchive d) = Val d }.

Context `{Archive}.

(** The sorted keys, when there are any. *)
Definition build_table (m : ScenarioManager) : ScenarioManager :=
  if (0 <? size (scenarioDict m))%nat
  then mkScenarioManager (scenarioDict m)
         (Some (merge_sort Z.le (map fst (map_to_list (scenarioDict m)))))
  else m.

(** [outFile] is the compiled table on disk and [writable] whether it can be created; returns
    the manager and the compiled table after the call. *)
Definition init (scenarioFile outFile : option bytes) (writable : bool) (m : ScenarioManager)
    : outcome (ScenarioManager * option bytes) :=
  match outFile with
  | None =>
    dict ← loadScenarioData scenarioFile;
    Val (build_table (mkScenarioManager dict (cidrTable m)),
         if writable then Some (oarchive dict) else None)
  | Some bin =>
    dict ← iarchive bin;
    Val (build_table (mkScenarioManager dict (cidrTable m)), Some bin)
  end.
End scenario.

(** The last position whose element is not above the key, or -1. Every round shrinks the interval. *)
Fixpoint bSearch_loop (fuel : nat) (table : list Z) (key l h : Z) : outcome Z :=
  if l <=? h then
    match fuel with
    | O => Undef
    | S fuel =>
      let mid := l + Z.shiftr (h - l) 1 in
      x ← rd table mid;
      if key <? x then bSearch_loop fuel table key l (mid - 1)
      else bSearch_loop fuel table key (mid + 1) h
    end
  else Val h.

Definition bSearch (table : list Z) (size key : Z) : outcome Z :=
  bSearch_loop (Z.to_nat size) table key 0 (size - 1).

(** SOLUTION_SCENARIO_OTHER, mtty/constants.h *)
Class ScenarioConst := { SOLUTION_SCENARIO_OTHER : Z }.

(** A null table is only read when [pos] is not negative. *)
Definition getScenario `{Memory, ScenarioConst} (m : ScenarioManager) (ip : bytes) : outcome Z :=
  a ← ipStringToInt (c_str ip); let ipInt := u32 a in
  let table := default [] (cidrTable m) in
  pos ← bSearch table (s32 (Z.of_nat (size (scenarioDict m)))) ipInt;
  if 0 <=? pos then
    network ← rd table pos;
    if Z.land ipInt network =? network then
      match scenarioDict m !! network with
      | Some s => Val s
      | None => Val SOLUTION_SCENARIO_OTHER
      end
    else Val SOLUTION_SCENARIO_OTHER
  else Val SOLUTION_SCENARIO_OTHER.

(** [getInstance]: the first caller creates and initialises the manager; every later one
    gets the pointer, also when the initialisation threw. *)
Record scenario_static := mkStatic { started : bool; manager : option ScenarioManager }.

Definition getInstance `{Memory, Archive} (scenarioFile outFile : option bytes) (writable : bool)
    (s : scenario_static) : outcome (option ScenarioManager) * scenario_static :=
  if started s then (Val (manager s), s)
  else match init scenarioFile outFile writable new_manager with
       | Val (m, _) => (Val (Some m), mkStatic true (Some m))
       | Exc e => (Exc e, mkStatic true (Some new_manager))
       | Undef => (Undef, s)
       end.

(** ** Lemmas: addresses *)

Section addresses.
Context `{Memory, !MemoryLaws _}.

Lemma union_of_int_bytes u : exists c0 c1 c2 c3,
  union_of_int u = [c0; c1; c2; c3] /\ is_byte c0 /\ is_byte c1 /\ is_byte c2 /\ is_byte c3
  /\ c0 + 256 * (c1 + 256 * (c2 + 256 * (c3 + 256 * 0))) = u32 u.
Proof.
  do 4 eexists. split; [reflexivity|].
  pose proof (uwrap_range 32 u ltac:(lia)) as Hu. set (v := u32 u) in *.
  change 0xFF with (Z.ones 8). rewrite !Z.land_ones, !Z.shiftr_div_pow2 by lia. unfold is_byte.
  change (2 ^ 32) with 4294967296 in Hu.
  change (2 ^ 8) with 256. change (2 ^ (8 * 0)) with 1. change (2 ^ (8 * 1)) with 256.
  change (2 ^ (8 * 2)) with 65536. change (2 ^ (8 * 3)) with 16777216.
  split_and!; dlia.
Qed.

Lemma ip_loop_skip s c rest p2 i what :
  Forall (fun c => is_digit c = true) s ->
  ip_loop (s ++ c :: rest) p2 i what = ip_loop (c :: rest) p2 i what.
Proof.
  induction 1 as [|x s Hx _ IH]; [done|]. cbn [app ip_loop]. unfold is_digit in Hx.
  assert (negb (x =? ch ".") && negb (x =? 0) = true) as ->; [|by rewrite IH].
  change (ch ".") with 46. lia.
Qed.

Lemma to_string_digits n : 0 <= n -> Forall (fun c => is_digit c = true) (to_string n).
Proof. intros. rewrite to_string_nonneg by done. apply dec_chars_digit, digits_range; lia. Qed.

(** One field of the address. *)
Lemma ip_loop_dot n rest i what :
  is_byte n -> (exists c r, rest = c :: r /\ c <> 0) ->
  ip_loop (to_string n ++ ch "." :: rest) (to_string n ++ ch "." :: rest) (S i) what
  = ip_loop rest rest i (<[S i := n]> what).
Proof.
  unfold is_byte. intros Hn (c & r & -> & Hc). rewrite ip_loop_skip by (apply to_string_digits; lia).
  cbn [ip_loop]. change (ch "." =? ch ".") with true. cbn [negb andb].
  rewrite atoi_number by (lia || done). rewrite uwrap_small by lia.
  change (rd (c :: r) 0) with (Val c). cbn [mbind outcome_bind]. apply Z.eqb_neq in Hc as ->. done.
Qed.

Lemma ip_loop_end n rest what :
  is_byte n -> rest <> [] ->
  ip_loop (to_string n ++ 0 :: rest) (to_string n ++ 0 :: rest) 0 what = Val (<[0%nat := n]> what).
Proof.
  unfold is_byte. intros Hn Hr. rewrite ip_loop_skip by (apply to_string_digits; lia).
  cbn [ip_loop]. change (0 =? 0) with true. rewrite andb_false_r.
  rewrite atoi_number by (lia || done). rewrite uwrap_small by lia.
  destruct rest as [|c r]; [done|]. change (rd (c :: r) 0) with (Val c). cbn [mbind outcome_bind].
  by destruct (c =? 0).
Qed.

Lemma to_string_head n rest : 0 <= n -> exists c r, to_string n ++ rest = c :: r /\ c <> 0.
Proof.
  intros Hn. pose proof (digits_ne 10 n) as Hne. pose proof (digits_range 10 n ltac:(lia) Hn) as Hr.
  rewrite to_string_nonneg by done.
  destruct (digits 10 n) as [|d ds]; [done|]. inversion Hr; subst.
  do 2 eexists. split; [reflexivity|]. unfold dec_char. lia.
Qed.

Lemma to_string_byte_length n : is_byte n -> (length (to_string n) <= 3)%nat.
Proof.
  intros Hn. by_table 256%nat (fun n => (length (to_string n) <=? 3)%nat).
  apply Nat.leb_le, H0. exact Hn.
Qed.

(** A printed address fits its buffer. *)
Lemma dotted_shape u :
  exists s, ipIntToString u = Val s /\ (length s <= 15)%nat
    /\ Forall (fun c => is_digit c = true \/ c = ch ".") s
    /\ forall c0 c1 c2 c3, union_of_int u = [c0; c1; c2; c3] ->
       s = to_string c3 ++ ch "." :: to_string c2 ++ ch "." :: to_string c1 ++ ch "." :: to_string c0.
Proof.
  destruct (union_of_int_bytes u) as (c0 & c1 & c2 & c3 & E & H0' & H1' & H2 & H3 & _).
  pose proof (to_string_byte_length _ H0'). pose proof (to_string_byte_length _ H1').
  pose proof (to_string_byte_length _ H2). pose proof (to_string_byte_length _ H3).
  unfold ipIntToString. rewrite E. cbn [nth].
  set (s := to_string c3 ++ ch "." :: _).
  assert (length s <= 15)%nat as Hs by (unfold s; repeat (rewrite length_app; cbn [length]); lia).
  exists s. split_and!; [|done| |].
  - unfold check. destruct (Z.leb_spec (Z.of_nat (length s) + 1) 16); [done|lia].
  - assert (forall n, is_byte n -> Forall (fun c => is_digit c = true \/ c = ch ".") (to_string n)) as Hd.
    { unfold is_byte. intros n Hn. eapply Forall_impl; [apply to_string_digits; lia|]. auto. }
    unfold s. rewrite !Forall_app, !Forall_cons, !Forall_app, !Forall_cons, !Forall_app, !Forall_cons. auto 10.
  - by intros ? ? ? ? [= <- <- <- <-].
Qed.

(** And it is read back. *)
Lemma dotted_text u :
  exists s, ipIntToString u = Val s /\ (length s <= 15)%nat /\ ipStringToInt s = Val (s32 u).
Proof.
  destruct (dotted_shape u) as (s & E & Hl & _ & Es). exists s. split_and!; [done..|].
  destruct (union_of_int_bytes u) as (c0 & c1 & c2 & c3 & Eu & H0' & H1' & H2 & H3 & Ev).
  apply Es in Eu. clear Es E Hl. unfold ipStringToInt.
  pose proof (uninit_length s) as Hw. pose proof (after_readable s) as Hr.
  generalize dependent (uninit s). generalize dependent (after s). subst s. intros r Hr what Hw.
  rewrite <- !app_assoc. cbn [app]. rewrite <- !app_assoc. cbn [app]. rewrite <- !app_assoc. cbn [app].
  unfold is_byte in *.
  rewrite !ip_loop_dot by first [unfold is_byte; lia|apply to_string_head; lia].
  rewrite ip_loop_end by (unfold is_byte; lia || done). cbn [mbind outcome_bind]. f_equal.
  destruct what as [|w0 [|w1 [|w2 [|w3 [|]]]]]; try done. cbn [insert list_insert foldr].
  unfold int_of_union. cbn [foldr]. rewrite Ev. apply swrap_uwrap_eq, uwrap_idem.
Qed.
End addresses.

(** ** Lemmas: the table *)

(** The table is the ascending list of the keys of the dictionary. *)
Record table_ok (m : ScenarioManager) : Prop := {
  tk_sorted : sorted (default [] (cidrTable m));
  tk_keys : default [] (cidrTable m) ≡ₚ map fst (map_to_list (scenarioDict m));
}.

Lemma table_length m : table_ok m -> length (default [] (cidrTable m)) = size (scenarioDict m).
Proof. intros [_ E]. by rewrite E, length_map, length_map_to_list. Qed.

Lemma table_elem m k : table_ok m -> k ∈ default [] (cidrTable m) <-> is_Some (scenarioDict m !! k).
Proof.
  intros [_ E]. rewrite E, list_elem_of_fmap. split.
  - intros ([k' v] & -> & Hin). apply elem_of_map_to_list in Hin. by exists v.
  - intros [v Hv]. exists (k, v). split; [done|]. by apply elem_of_map_to_list.
Qed.

Lemma build_table_ok d t : table_ok (build_table (mkScenarioManager d t)) \/ size d = 0%nat.
Proof.
  unfold build_table. cbn [scenarioDict]. destruct (Nat.ltb_spec 0 (size d)); [left|right; lia].
  split; cbn [cidrTable scenarioDict default].
  - apply Sorted_sorted, Sorted_merge_sort, _.
  - apply merge_sort_Permutation.
Qed.

Lemma build_fresh_ok d : table_ok (build_table (mkScenarioManager d None)).
Proof.
  destruct (build_table_ok d None) as [|E]; [done|]. unfold build_table. cbn [scenarioDict]. rewrite E. simpl.
  apply map_size_empty_inv in E. subst. split; [intros i j x y Ex; done|done].
Qed.

Lemma bSearch_loop_upper fuel a key l h :
  sorted a -> 0 <= l -> h < Z.of_nat (length a) -> l <= h + 1 -> h - l + 1 <= Z.of_nat fuel ->
  (forall i x, Z.of_nat i < l -> a !! i = Some x -> x <= key) ->
  (forall i x, h < Z.of_nat i -> a !! i = Some x -> key < x) ->
  exists r, bSearch_loop fuel a key l h = Val r /\ -1 <= r < Z.of_nat (length a)
    /\ (forall i x, Z.of_nat i <= r -> a !! i = Some x -> x <= key)
    /\ (forall i x, r < Z.of_nat i -> a !! i = Some x -> key < x).
Proof.
  intros Hs. revert l h. induction fuel as [|fuel IH]; intros l h Hl Hh Hlh Hf Hlo Hhi; cbn [bSearch_loop];
    destruct (Z.leb_spec l h); try lia.
  1,3: exists h; repeat split; [lia|lia|intros i x Hi; apply Hlo; lia|exact Hhi].
  assert (0 <= Z.shiftr (h - l) 1 <= h - l) as Hmid.
  { rewrite Z.shiftr_div_pow2 by lia. change (2 ^ 1) with 2. dlia. }
  set (mid := l + Z.shiftr (h - l) 1) in *.
  destruct (lookup_lt_is_Some_2 a (Z.to_nat mid)) as [x Ex]; [lia|].
  rewrite (rd_Some a mid x) by (lia || done). cbn [mbind outcome_bind].
  destruct (Z.ltb_spec key x); apply IH; try lia; try done.
  - intros i y Hi Ey. assert (x <= y); [|lia]. eapply Hs; [exact Ex|exact Ey|lia].
  - intros i y Hi Ey. assert (y <= x); [|lia]. eapply Hs; [exact Ey|exact Ex|lia].
Qed.

Lemma bSearch_last a key :
  sorted a -> exists r, bSearch a (Z.of_nat (length a)) key = Val r /\ -1 <= r < Z.of_nat (length a)
    /\ (forall i x, Z.of_nat i <= r -> a !! i = Some x -> x <= key)
    /\ (forall i x, r < Z.of_nat i -> a !! i = Some x -> key < x).
Proof.
  intros Hs. unfold bSearch. rewrite Nat2Z.id.
  apply bSearch_loop_upper; try done; try lia.
  intros i x Hi Ex. apply lookup_lt_Some in Ex. lia.
Qed.

(** [n] is the greatest key of the dictionary that is not above the address. *)
Definition greatest_below (d : ScenarioDict) (ip n : Z) : Prop :=
  is_Some (d !! n) /\ n <= ip /\ forall k, is_Some (d !! k) -> k <= ip -> k <= n.

Section lookup.
Context `{Memory, ScenarioConst}.

Lemma getScenario_cases m ip a :
  table_ok m -> Z.of_nat (size (scenarioDict m)) < 2 ^ 31 -> ipStringToInt (c_str ip) = Val a ->
  (exists n s, greatest_below (scenarioDict m) (u32 a) n /\ scenarioDict m !! n = Some s
     /\ getScenario m ip = Val (if Z.land (u32 a) n =? n then s else SOLUTION_SCENARIO_OTHER))
  \/ ((forall k, is_Some (scenarioDict m !! k) -> u32 a < k)
      /\ getScenario m ip = Val SOLUTION_SCENARIO_OTHER).
Proof.
  intros Hm Hz Ea. unfold getScenario. rewrite Ea. cbn [mbind outcome_bind].
  rewrite (swrap_small 32) by lia. rewrite <- (table_length m Hm).
  destruct (bSearch_last (default [] (cidrTable m)) (u32 a) (tk_sorted m Hm)) as (r & -> & Hr & Hle & Hgt).
  cbn [mbind outcome_bind]. destruct (Z.leb_spec 0 r).
  - left. destruct (lookup_lt_is_Some_2 (default [] (cidrTable m)) (Z.to_nat r)) as [n En]; [lia|].
    rewrite (rd_Some _ _ n) by (lia || done). cbn [mbind outcome_bind].
    destruct (proj1 (table_elem m n Hm)) as [s Hs]; [by eapply list_elem_of_lookup_2|].
    exists n, s. split_and!; [|done|rewrite Hs; by destruct (_ =? n)].
    split_and!; [by exists s|by eapply (Hle (Z.to_nat r)); [lia|]|].
    intros k Hk Hki. apply (table_elem m k Hm), list_elem_of_lookup in Hk as [i Ei].
    destruct (Z.leb_spec (Z.of_nat i) r); [|by specialize (Hgt i k ltac:(lia) Ei); lia].
    eapply (tk_sorted m Hm); [exact Ei|exact En|lia].
  - right. split; [|done]. intros k Hk. apply (table_elem m k Hm), list_elem_of_lookup in Hk as [i Ei].
    apply (Hgt i k); [lia|done].
Qed.
End lookup.

(** ** Lemmas: rule files of aligned blocks *)

Lemma land_aligned k s ip : 0 <= k -> s mod 2 ^ k = 0 -> s <= ip < s + 2 ^ k -> Z.land ip s = s.
Proof.
  intros Hk Hs Hip. assert (Z.land s (ip - s) = 0) as E0.
  { apply Z.bits_inj'. intros i Hi. rewrite Z.land_spec, Z.bits_0.
    destruct (Z.ltb_spec i k).
    - rewrite (Z.div_mod s (2 ^ k)), Hs, Z.add_0_r, Z.mul_comm by lia.
      by rewrite Z.mul_pow2_bits_low by lia.
    - assert (Z.testbit (ip - s) i = false) as ->; [|apply andb_false_r]. apply Z.testbit_false; [lia|].
      rewrite Z.div_small; [done|]. split; [lia|]. eapply Z.lt_le_trans; [|apply Z.pow_le_mono_r; [|exact H]]; lia. }
  replace ip with (s + (ip - s)) by lia. rewrite Z.add_nocarry_lxor by done.
  apply Z.bits_inj'. intros i Hi. rewrite Z.land_spec, Z.lxor_spec.
  apply (f_equal (fun z => Z.testbit z i)) in E0. rewrite Z.land_spec, Z.bits_0 in E0.
  destruct (Z.testbit s i), (Z.testbit (ip - s) i); done.
Qed.

(** A rule for the addresses of an aligned block of [2 ^ bits]. *)
Record block := Block { b_start : Z; b_bits : Z; b_scenario : Z }.

Definition b_end (b : block) : Z := b_start b + 2 ^ b_bits b - 1.

Record block_ok (b : block) : Prop := {
  bk_bits : 0 <= b_bits b;
  bk_start : 0 <= b_start b;
  bk_end : b_end b < 2 ^ 32;
  bk_aligned : b_start b mod 2 ^ b_bits b = 0;
  bk_scenario : INT_MIN <= b_scenario b <= INT_MAX;
}.

Definition in_block (b : block) (ip : Z) : Prop := b_start b <= ip <= b_end b.

Definition disjoint_blocks (bs : list block) : Prop :=
  forall i j b c, bs !! i = Some b -> bs !! j = Some c -> i <> j ->
  b_end b < b_start c \/ b_end c < b_start b.

Definition dotted (u : Z) : bytes := match ipIntToString u with Val s => s | _ => [] end.

Definition rule_line (b : block) : bytes :=
  dotted (b_start b) ++ ch " " :: dotted (b_end b) ++ ch " " :: to_string (b_scenario b).

Definition rule_file (bs : list block) : bytes := concat (map (fun b => rule_line b ++ [10]) bs).

Section rule_files.
Context `{Memory, !MemoryLaws _}.

Lemma dotted_ok u : ipStringToInt (dotted u) = Val (s32 u).
Proof. unfold dotted. destruct (dotted_text u) as (s & -> & _ & E). done. Qed.

Lemma dotted_chars u : Forall (fun c => is_digit c = true \/ c = ch ".") (dotted u).
Proof. unfold dotted. by destruct (dotted_shape u) as (s & -> & _ & Hs & _). Qed.

Lemma dotted_no_nul u : no_nul (dotted u).
Proof.
  eapply Forall_impl; [apply dotted_chars|]. intros c [Hc| ->]; [|done]. unfold is_digit in Hc. lia.
Qed.

Lemma dotted_none u d : is_digit d = false -> d <> ch "." -> Forall (fun c => (c =? d) = false) (dotted u).
Proof.
  intros Hd Hn. eapply Forall_impl; [apply dotted_chars|]. intros c Hc. apply Z.eqb_neq. intros ->.
  destruct Hc; congruence.
Qed.

Lemma rule_line_none b d : is_digit d = false -> d <> ch "." -> d <> ch " " -> d <> 45 ->
  Forall (fun c => (c =? d) = false) (rule_line b).
Proof.
  intros. unfold rule_line. apply Forall_app. split; [by apply dotted_none|].
  constructor; [by apply Z.eqb_neq|]. apply Forall_app. split; [by apply dotted_none|].
  constructor; [by apply Z.eqb_neq|]. by apply to_string_none.
Qed.

Lemma lines_rule_file bs : lines (rule_file bs) = map rule_line bs.
Proof.
  unfold lines, rule_file. induction bs as [|b bs IH]; [done|]. cbn [map concat].
  rewrite <- app_assoc. cbn [app]. rewrite split_on_delim; [|by apply rule_line_none|done].
  pose proof (split_on_ne (fun c => c =? 10) (concat (map (fun b => rule_line b ++ [10]) bs))).
  destruct (split_on _ _); [done|]. simpl in *. by rewrite IH.
Qed.

Lemma split_rule_line b :
  split_on (fun c => c =? ch " ") (rule_line b)
  = [dotted (b_start b); dotted (b_end b); to_string (b_scenario b)].
Proof.
  unfold rule_line. rewrite !split_on_delim by (by apply dotted_none || done).
  rewrite split_on_none; [done|]. by apply to_string_none.
Qed.

Lemma land_block b : block_ok b -> Z.land (b_start b) (b_end b) = b_start b.
Proof.
  intros [Hb _ _ Ha _]. rewrite Z.land_comm. eapply land_aligned; [exact Hb|exact Ha|].
  unfold b_end. pose proof (Z.pow_pos_nonneg 2 (b_bits b)). lia.
Qed.

Lemma load_rules_ok bs d :
  Forall block_ok bs ->
  load_rules (map rule_line bs) d
  = Val (foldl (fun d b => insert_new (b_start b) (b_scenario b) d) d bs).
Proof.
  intros Hb. revert d. induction Hb as [|b bs Hb _ IH]; intros d; [done|]. cbn [map load_rules foldl].
  unfold load_rule. rewrite split_rule_line.
  rewrite (dotted_ok (b_start b)), (dotted_ok (b_end b)). cbn [mbind outcome_bind].
  unfold stoi. rewrite sto_to_string by apply Hb. cbn [mbind outcome_bind].
  rewrite !uwrap_swrap by lia. pose proof (Z.pow_pos_nonneg 2 (b_bits b) ltac:(lia) (bk_bits b Hb)).
  pose proof (bk_start b Hb). pose proof (bk_end b Hb). pose proof (land_block b Hb) as El.
  rewrite (uwrap_small 32 (b_start b)), (uwrap_small 32 (b_end b)), El by (unfold b_end in *; lia). apply IH.
Qed.

Definition block_dict (bs : list block) (d : ScenarioDict) : ScenarioDict :=
  foldl (fun d b => insert_new (b_start b) (b_scenario b) d) d bs.

(** Earlier entries win. *)
Lemma block_dict_keep bs d k v : d !! k = Some v -> block_dict bs d !! k = Some v.
Proof.
  unfold block_dict. revert d. induction bs as [|b bs IH]; intros d E; [done|]. cbn [foldl]. apply IH.
  rewrite insert_new_lookup. case_decide; subst; [by rewrite E|done].
Qed.

Lemma block_dict_key bs d k :
  is_Some (block_dict bs d !! k) -> is_Some (d !! k) \/ exists b, b ∈ bs /\ b_start b = k.
Proof.
  unfold block_dict. revert d. induction bs as [|b bs IH]; intros d Hk; [by left|]. cbn [foldl] in Hk.
  apply IH in Hk as [Hk|(c & Hc & E)].
  - rewrite insert_new_lookup in Hk. case_decide; [right; exists b; split; [left|done]|by left].
  - right. exists c. split; [by right|done].
Qed.

Lemma block_dict_elem bs d i b :
  bs !! i = Some b -> d !! b_start b = None ->
  (forall j c, bs !! j = Some c -> i <> j -> b_start c <> b_start b) ->
  block_dict bs d !! b_start b = Some (b_scenario b).
Proof.
  revert d i. unfold block_dict. induction bs as [|c bs IH]; intros d i Hi Hd Hu; [done|]. cbn [foldl].
  destruct i as [|i]; simpl in Hi.
  - injection Hi as ->. apply block_dict_keep. rewrite insert_new_lookup, decide_True by done. by rewrite Hd.
  - eapply (IH _ i); [done| |].
    + rewrite insert_new_lookup, decide_False; [done|]. by apply (Hu 0%nat).
    + intros j c' Hj Hne. apply (Hu (S j)); [done|lia].
Qed.

Lemma block_dict_size bs d : (size (block_dict bs d) <= size d + length bs)%nat.
Proof.
  unfold block_dict. revert d. induction bs as [|b bs IH]; intros d; simpl; [lia|].
  specialize (IH (insert_new (b_start b) (b_scenario b) d)).
  assert (size (insert_new (b_start b) (b_scenario b) d) <= S (size d))%nat; [|lia].
  unfold insert_new. destruct (d !! b_start b) eqn:E; [lia|]. rewrite map_size_insert_None by done. lia.
Qed.
End rule_files.

(** The block an address lies in has the greatest key below it. *)
Lemma block_greatest bs i b ip :
  Forall block_ok bs -> disjoint_blocks bs -> bs !! i = Some b -> in_block b ip ->
  block_dict bs ∅ !! b_start b = Some (b_scenario b)
  /\ forall n, greatest_below (block_dict bs ∅) ip n -> n = b_start b.
Proof.
  intros Hb Hd Hi [Hlo Hhi].
  assert (forall c, c ∈ bs -> b_start c <= b_end c) as Hne.
  { intros c Hc. rewrite Forall_forall in Hb. specialize (Hb c Hc). unfold b_end.
    pose proof (Z.pow_pos_nonneg 2 (b_bits c) ltac:(lia) (bk_bits c Hb)). lia. }
  assert (block_dict bs ∅ !! b_start b = Some (b_scenario b)) as Hk.
  { eapply block_dict_elem; [done|apply lookup_empty|]. intros j c Hj Hij.
    pose proof (Hne b ltac:(by eapply list_elem_of_lookup_2)).
    pose proof (Hne c ltac:(by eapply list_elem_of_lookup_2)).
    destruct (Hd i j b c Hi Hj Hij); lia. }
  split; [done|]. intros n (Hn & Hni & Hmax).
  specialize (Hmax (b_start b) ltac:(by eexists) ltac:(lia)).
  apply block_dict_key in Hn as [[v Hn]|(c & Hc & <-)]; [by rewrite lookup_empty in Hn|].
  pose proof (Hne c Hc). apply list_elem_of_lookup in Hc as [j Hj].
  destruct (decide (i = j)) as [->|Hij]; [by simplify_eq|].
  destruct (Hd i j b c Hi Hj Hij); lia.
Qed.

(** ** Theorems *)

Section theorems.
Context `{Memory, !MemoryLaws _}.

(** Printing an address and reading it back gives the address, for every 32 bit value;
    the text is at most 15 characters, so [sprintf] stays within its 16 byte buffer. *)
Theorem ipStringToInt_ipIntToString ip :
  - 2 ^ 31 <= ip < 2 ^ 31 ->
  exists s, ipIntToString ip = Val s /\ (length s <= 15)%nat /\ ipStringToInt s = Val ip.
Proof.
  intros Hip. destruct (dotted_text ip) as (s & E & Hl & Es). exists s.
  rewrite swrap_small in Es by lia. done.
Qed.

Context `{ScenarioConst, Archive, !ArchiveLaws _}.

(** The first start compiles the text file and the next ones load what it compiled: both
    give the same manager, whose table is the sorted list of the networks. *)
Theorem init_compiled text m out :
  init (Some text) None true new_manager = Val (m, out) ->
  table_ok m /\ init None out true new_manager = Val (m, out)
  /\ init (Some text) out false new_manager = Val (m, out).
Proof.
  unfold init. cbn [loadScenarioData cidrTable new_manager]. intros E. run_inv.
  split; [apply build_fresh_ok|]. rewrite iarchive_oarchive. done.
Qed.

(** The lookup returns the scenario of the greatest network that is not above the
    address when the address has all bits of that network, and the default scenario in
    every other case. *)
Theorem getScenario_spec m ip a :
  table_ok m -> Z.of_nat (size (scenarioDict m)) < 2 ^ 31 -> ipStringToInt (c_str ip) = Val a ->
  exists s, getScenario m ip = Val s /\
    (s = SOLUTION_SCENARIO_OTHER
     \/ exists n, greatest_below (scenarioDict m) (u32 a) n /\ Z.land (u32 a) n = n
                  /\ scenarioDict m !! n = Some s)
    /\ (forall n s', greatest_below (scenarioDict m) (u32 a) n -> Z.land (u32 a) n = n ->
                     scenarioDict m !! n = Some s' -> s = s').
Proof.
  intros Hm Hz Ea. destruct (getScenario_cases m ip a Hm Hz Ea) as [(n & s & Hn & Hs & ->)|[Hn ->]].
  - eexists. split_and!; [done| |].
    + destruct (Z.eqb_spec (Z.land (u32 a) n) n); [right; by exists n|by left].
    + intros n' s' (Hk & Hle & Hmax) Hl Hs'. destruct Hn as (Hk' & Hle' & Hmax').
      assert (n' = n) as -> by (pose proof (Hmax n Hk' Hle'); pose proof (Hmax' n' Hk Hle); lia).
      rewrite Hl, Z.eqb_refl. congruence.
  - eexists. split_and!; [done|by left|]. intros n s' (Hk & Hle & _). specialize (Hn n Hk). lia.
Qed.

Lemma init_rule_file bs :
  Forall block_ok bs ->
  init (Some (rule_file bs)) None true new_manager
  = Val (build_table (mkScenarioManager (block_dict bs ∅) None), Some (oarchive (block_dict bs ∅))).
Proof. intros Hb. unfold init, loadScenarioData. rewrite lines_rule_file, load_rules_ok by done. done. Qed.

(** A rule file whose ranges are disjoint aligned blocks does what it says: after the
    file is loaded, every address of a block, looked up in dotted form, has the scenario of
    the block's rule. *)
Theorem getScenario_in_range bs i b ip :
  Forall block_ok bs -> disjoint_blocks bs -> Z.of_nat (length bs) < 2 ^ 31 ->
  bs !! i = Some b -> in_block b ip ->
  exists m out, init (Some (rule_file bs)) None true new_manager = Val (m, out)
    /\ getScenario m (dotted ip) = Val (b_scenario b).
Proof.
  intros Hb Hd Hz Hi Hip. rewrite init_rule_file by done. do 2 eexists. split; [reflexivity|].
  set (m := build_table _).
  assert (scenarioDict m = block_dict bs ∅) as Em by (unfold m, build_table; by case_match).
  assert (table_ok m) as Hm by apply build_fresh_ok.
  assert (Z.of_nat (size (scenarioDict m)) < 2 ^ 31) as Hs.
  { rewrite Em. pose proof (block_dict_size bs ∅). rewrite map_size_empty in *. lia. }
  assert (block_ok b) as Hbk by (by eapply Forall_lookup_1).
  pose proof (bk_start b Hbk). pose proof (bk_end b Hbk). destruct Hip as [Hlo Hhi].
  destruct (block_greatest bs i b ip Hb Hd Hi ltac:(done)) as [Hk Hg]. rewrite <- Em in Hk, Hg.
  pose proof (dotted_ok ip) as Ea. rewrite <- (c_str_id (dotted ip)) in Ea by apply dotted_no_nul.
  destruct (getScenario_cases m (dotted ip) _ Hm Hs Ea) as [(n & s & Hn & Hsn & ->)|[Hn _]].
  - rewrite uwrap_swrap, uwrap_small in * by lia. apply Hg in Hn as ->.
    rewrite (land_aligned (b_bits b)), Z.eqb_refl; [congruence|apply Hbk|apply Hbk|unfold b_end in *; lia].
  - specialize (Hn (b_start b) ltac:(by eexists)). rewrite uwrap_swrap, uwrap_small in Hn by lia. lia.
Qed.
End theorems.

(** ** Concrete parameters *)

Module ScenarioConcrete.
#[export] Instance memory : Memory := { uninit _ := [17; 17; 17; 17]; after _ := [99] }.
#[export] Instance memory_laws : MemoryLaws memory.
Proof. split; intros; [done|discriminate]. Qed.
#[export] Instance const : ScenarioConst := { SOLUTION_SCENARIO_OTHER := 0 }.

(** An archive that lists the entries. *)
Fixpoint entries (l : list Z) : list (Z * Z) :=
  match l with k :: v :: l => (k, v) :: entries l | _ => [] end.
#[export] Instance archive : Archive := {
  oarchive d := flat_map (fun kv => [kv.1; kv.2]) (map_to_list d);
  iarchive l := Val (list_to_map (entries l));
}.
#[export] Instance archive_laws : ArchiveLaws archive.
Proof.
  split. intros d. cbn [iarchive oarchive archive]. f_equal.
  rewrite <- (list_to_map_to_list d) at 2. f_equal.
  induction (map_to_list d) as [|[k v] l IH]; [done|]. simpl. by rewrite IH.
Qed.

Definition block_a := Block 0x0A000000 8 3.   (* 10.0.0.0 - 10.0.0.255 *)
Definition block_b := Block 0xC0A80100 4 5.   (* 192.168.1.0 - 192.168.1.15 *)
End ScenarioConcrete.
Import ScenarioConcrete.

Lemma ipStringToInt_ipIntToString_witness :
  exists s, ipIntToString (-1062731519) = Val s /\ (length s <= 15)%nat /\ ipStringToInt s = Val (-1062731519).
Proof. apply (ipStringToInt_ipIntToString (-1062731519)). lia. Defined.

Definition rules_ab : list block := [block_a; block_b].

Definition manager_ab : ScenarioManager := build_table (mkScenarioManager (block_dict rules_ab ∅) None).

Lemma rules_ab_ok : Forall block_ok rules_ab.
Proof. repeat constructor; vm_compute; congruence. Qed.

Lemma init_compiled_witness :
  exists out, table_ok manager_ab /\ init None out true new_manager = Val (manager_ab, out).
Proof.
  destruct (init_compiled (rule_file rules_ab) manager_ab (Some (oarchive (block_dict rules_ab ∅)))) as (H1 & H2 & _).
  - apply init_rule_file, rules_ab_ok.
  - exact (ex_intro _ _ (conj H1 H2)).
Defined.

Lemma getScenario_spec_witness : getScenario manager_ab (str "192.168.1.7") = Val 5.
Proof.
  destruct (getScenario_spec manager_ab (str "192.168.1.7") (s32 0xC0A80107)) as (s & E & _ & Hu).
  - exact (build_fresh_ok _).
  - vm_compute; reflexivity.
  - vm_compute; reflexivity.
  - rewrite E. f_equal. apply (Hu 0xC0A80100).
    + split_and!; [eexists; vm_compute; reflexivity|vm_compute; congruence|].
      intros k [v Hk] Hle. assert (k = 0x0A000000 \/ k = 0xC0A80100) as [-> | ->].
      { destruct (block_dict_key rules_ab ∅ k) as [[? H]|(b & Hb & <-)]; [exists v; exact Hk|done|].
        apply list_elem_of_In in Hb. destruct Hb as [<-|[<-|[]]]; [left|right]; reflexivity. }
      * vm_compute; congruence.
      * vm_compute; congruence.
    + vm_compute; reflexivity.
    + vm_compute; reflexivity.
Defined.

Lemma getScenario_in_range_witness :
  exists m out, init (Some (rule_file rules_ab)) None true new_manager = Val (m, out)
    /\ getScenario m (dotted 0x0A0000FE) = Val 3.
Proof.
  apply (getScenario_in_range rules_ab 0 block_a).
  - exact rules_ab_ok.
  - intros [|[|i]] [|[|j]] b c Hb Hc Hij; simplify_eq/=; vm_compute; auto.
  - vm_compute; reflexivity.
  - reflexivity.
  - split; vm_compute; congruence.
Defined.

(** Two ways in which the lookup departs from the ranges of the file, because a rule is
    reduced to the bits its two ends share: an address outside the range of the only rule
    gets its scenario, and an address inside the range of a rule that is not an aligned
    block does not. *)
Theorem getScenario_not_ranges :
  let rules := str "10.0.0.0 10.0.0.255 3" ++ [10] ++ str "1.2.3.1 1.2.3.3 4" ++ [10] in
  let lookup ip := '(m, _) ← init (Some rules) None true new_manager; getScenario m ip in
  lookup (str "10.9.9.9") = Val 3 /\ lookup (str "1.2.3.2") = Val SOLUTION_SCENARIO_OTHER.
Proof. split; vm_compute; reflexivity. Qed.
