(* ===== verification/IpManager.v ===== *)
(** * IpManager: the area of an address (core/core_ip_manager.cpp)

    The 17monip database ([ipDataInit], [ipDataFind]), the area dictionary
    ([loadAreaData]) and the lookups of [IpManager] on top of them.  Files are their
    contents, [None] when they cannot be opened.  The constants of mtty/constants.h, the
    initial contents of the local name buffer and of a default constructed [AreaItem] are
    parameters. *)
From S2P Require Import Prelude CString UrlParams Scenario.

(** AREACODE_MARGIN and IP_UNKNOWN, mtty/constants.h *)
Class IpConst := { AREACODE_MARGIN : Z; IP_UNKNOWN : Z }.

(** [char name[256]] before it is written, and the numbers [AreaItem()] leaves uninitialised. *)
Class IpMemory := { name_uninit : bytes; area_uninit : Z * Z * Z }.

Class IpMemoryLaws (M : IpMemory) : Prop := { name_uninit_length : length name_uninit = 256%nat }.

(** ** The database *)

Definition join_bytes (b0 b1 b2 b3 : Z) : Z :=
  Z.lor (Z.land b0 0xFF) (Z.lor (Z.land (Z.shiftl b1 8) 0xFF00)
    (Z.lor (Z.land (Z.shiftl b2 16) 0xFF0000) (Z.land (Z.shiftl b3 24) 0xFF000000))).

(** The macros at [b + p]. *)
Definition B2IL (b : list Z) (p : Z) : outcome Z :=
  b0 ← rd b p; b1 ← rd b (p + 1); b2 ← rd b (p + 2); b3 ← rd b (p + 3);
  Val (join_bytes b0 b1 b2 b3).
Definition B2IU (b : list Z) (p : Z) : outcome Z :=
  b0 ← rd b p; b1 ← rd b (p + 1); b2 ← rd b (p + 2); b3 ← rd b (p + 3);
  Val (join_bytes b3 b2 b1 b0).

(** The static [ipip]: an empty list is a null or freed pointer. *)
Record ipip_t := mkIpip { data : bytes; index : bytes; flag : list Z; offset : Z }.

Definition ipip_zero : ipip_t := mkIpip [] [] [] 0.

Definition ipDataDestroy (s : ipip_t) : ipip_t :=
  if offset s =? 0 then s else mkIpip [] [] [] 0.

(** [memcpy] of 1024 bytes into 256 (little endian) words. *)
Definition words (b : bytes) : list Z :=
  map (fun k => match B2IL b (4 * Z.of_nat k) with Val w => w | _ => 0 end) (seq 0 256).

Definition ipDataInit (ipdb : option bytes) (s : ipip_t) : outcome (Z * ipip_t) :=
  if negb (offset s =? 0) then Val (-1, s)
  else match ipdb with
       | None => Val (-1, s)
       | Some content =>
         if (length content =? 0)%nat then Val (-1, mkIpip content (index s) (flag s) (offset s))
         else
           len ← B2IU content 0;
           check (4 + len <=? Z.of_nat (length content));;
           let idx := take (Z.to_nat len) (drop 4 content) in
           check (1024 <=? len);;
           Val (0, mkIpip content idx (words idx) len)
       end.

(** One [%d] of [sscanf]: the number, stored to an [unsigned], and the rest of the text. *)
Definition scan_d (s : bytes) : option (Z * bytes) :=
  let s := skip_while is_space s in
  let '(neg, s) := match s with
                   | c :: s' => if c =? 45 then (true, s') else if c =? 43 then (false, s') else (false, s)
                   | [] => (false, [])
                   end in
  let ds := take_while is_digit s in
  match ds with
  | [] => None
  | _ => Some (u32 (Z.max LONG_MIN (Z.min LONG_MAX (signed_value neg ds))), drop (length ds) s)
  end.

Definition scan_dot (s : bytes) : option bytes :=
  match s with c :: s => if c =? ch "." then Some s else None | [] => None end.

(** [sscanf(ip, "%d.%d.%d.%d", ...) == 4] *)
Definition scan_quad (ip : bytes) : option (list Z) :=
  '(a, s) ← scan_d (c_str ip); s ← scan_dot s;
  '(b, s) ← scan_d s; s ← scan_dot s;
  '(c, s) ← scan_d s; s ← scan_dot s;
  '(d, _) ← scan_d s; Some [a; b; c; d].

(** The scan of the index: its end, or the end of the memory it reads, stops it. *)
Fixpoint find_loop (fuel : nat) (s : ipip_t) (ip start max_comp_len : Z) : outcome (Z * Z) :=
  if start <? max_comp_len then
    match fuel with
    | O => Undef
    | S fuel =>
      v ← B2IU (index s) start;
      if ip <=? v then
        o ← B2IL (index s) (start + 4); l ← rd (index s) (start + 7);
        Val (Z.land o 0x00FFFFFF, l)
      else find_loop fuel s ip (u32 (start + 8)) max_comp_len
    end
  else Val (0, 0).

(** Returns the length and the buffer [result]. *)
Definition ipDataFind (s : ipip_t) (ip result : bytes) : outcome (Z * bytes) :=
  match scan_quad ip with
  | Some ips =>
    ip_prefix_value ← rd ips 0;
    ip2long_value ← B2IU ips 0;
    start ← rd (flag s) ip_prefix_value;
    let max_comp_len := u32 (offset s - 1028) in
    '(index_offset, index_length) ←
      find_loop (S (length (index s))) s ip2long_value (u32 (start * 8 + 1024)) max_comp_len;
    let src := offset s + index_offset - 1024 in
    check ((0 <=? src) && (src + index_length <=? Z.of_nat (length (data s))));;
    let text := take (Z.to_nat index_length) (drop (Z.to_nat src) (data s)) in
    check (index_length + 1 <=? Z.of_nat (length result));;
    Val (index_length, over (text ++ [0]) result)
  | None => Val (0, result)
  end.

(** ** The area dictionary *)

Record AreaItem := mkAreaItem { name : bytes; country : Z; province : Z; city : Z }.

(** [std::map<std::string, AreaItem>] *)
Abbreviation AreaDict := (gmap bytes AreaItem).

(** The scans do not stop at the terminator. *)
Definition processAreaFileLine (line : bytes) : outcome AreaItem :=
  let line := c_str line in
  let stop c := (c =? 9) || (c =? 32) in
  let to_dash := skip_while (fun c => negb (c =? 10) && negb (c =? ch "-")) in
  match skip_while (fun c => negb (stop c)) line with
  | [] => Undef
  | _ :: p =>
    let name := take_while (fun c => negb (stop c)) line in
    let country := atoi p in
    match to_dash p with
    | [] => Undef
    | c :: p =>
      if c =? 10 then Val (mkAreaItem name country 0 0)
      else
        let province := atoi p in
        match to_dash p with
        | [] => Undef
        | c :: p => if c =? 10 then Val (mkAreaItem name country province 0)
                    else Val (mkAreaItem name country province (atoi p))
        end
    end
  end.

Record area_maps := mkMaps {
  countryMap : gmap Z AreaItem; provinceMap : gmap Z AreaItem; cityMap : gmap Z AreaItem;
}.

Section area.
Context `{IpConst, IpMemory}.

Definition AreaItem_default : AreaItem := let '(a, b, c) := area_uninit in mkAreaItem [] a b c.

(** [m[k]] *)
Definition item_index (k : Z) (m : gmap Z AreaItem) : AreaItem * gmap Z AreaItem :=
  match m !! k with Some v => (v, m) | None => (AreaItem_default, <[k := AreaItem_default]> m) end.

Definition load_line (m : area_maps) (it : AreaItem) : area_maps :=
  if negb (country it =? 0) && (province it =? 0) then
    mkMaps (insert_new (country it) it (countryMap m)) (provinceMap m) (cityMap m)
  else if negb (country it =? 0) && negb (province it =? 0) && (city it =? 0) then
    let '(parent, cm) := item_index (country it) (countryMap m) in
    mkMaps cm
      (insert_new (s32 (s32 (country it * AREACODE_MARGIN) + province it))
         (mkAreaItem (name parent ++ name it) (country it) (province it) (city it)) (provinceMap m))
      (cityMap m)
  else if negb (country it =? 0) && negb (province it =? 0) && negb (city it =? 0) then
    let '(parent, pm) := item_index (s32 (s32 (country it * AREACODE_MARGIN) + province it)) (provinceMap m) in
    mkMaps (countryMap m) pm
      (insert_new (s32 (s32 (country it * AREACODE_MARGIN) + city it))
         (mkAreaItem (name parent ++ name it) (country it) (province it) (city it)) (cityMap m))
  else m.

Fixpoint load_lines (ls : list bytes) (m : area_maps) : outcome area_maps :=
  match ls with
  | [] => Val m
  | l :: ls => it ← processAreaFileLine l; load_lines ls (load_line m it)
  end.

(** The values of a [std::map<int, AreaItem>] in the order of its keys. *)
Definition items (m : gmap Z AreaItem) : list AreaItem :=
  map (fun k => default AreaItem_default (m !! k)) (merge_sort Z.le (map fst (map_to_list m))).

Definition dict_add (d : AreaDict) (it : AreaItem) : AreaDict :=
  insert_new (name it) it d.

Definition loadAreaData (areafile : option bytes) (areaDict : AreaDict) : outcome AreaDict :=
  match areafile with
  | None => Val areaDict
  | Some content =>
    m ← load_lines (fgets_all (length content) content) (mkMaps ∅ ∅ ∅);
    let areaDict := foldl dict_add areaDict (items (countryMap m)) in
    let areaDict := foldl dict_add areaDict (items (provinceMap m)) in
    Val (foldl dict_add areaDict (items (cityMap m)))
  end.

(** ** The manager *)

Record ip_state := mkIpState { ipip : ipip_t; areaDict : AreaDict; started : Z }.

Definition ip_state0 : ip_state := mkIpState ipip_zero ∅ 0.

Definition init (ipdataFile areaCodeFile : option bytes) (s : ip_state) : outcome ip_state :=
  if negb (started s =? 0) then Val s
  else
    '(r, db) ← ipDataInit ipdataFile (ipip s);
    if r <? 0 then Val (mkIpState db (areaDict s) 1)
    else dict ← loadAreaData areaCodeFile (areaDict s); Val (mkIpState db dict 1).

Definition destroy (s : ip_state) : ip_state :=
  if negb (started s =? 1) then s else mkIpState (ipDataDestroy (ipip s)) (areaDict s) 0.

Definition getInstance (ipdataFile areaCodeFile : option bytes) (s : ip_state) : outcome ip_state :=
  if started s =? 0 then init ipdataFile areaCodeFile s else Val s.

Definition getAreaShortCode (it : AreaItem) : Z :=
  if province it =? 0 then s32 (country it * AREACODE_MARGIN)
  else if city it =? 0 then s32 (s32 (country it * AREACODE_MARGIN) + province it)
  else s32 (s32 (country it * AREACODE_MARGIN) + city it).
End area.

Definition blank (c : Z) : bool := (c =? 32) || (c =? 9).

(** The loops of [trim]; one round per byte of the buffer is enough. *)
Fixpoint trim_copy (fuel : nat) (buf : bytes) (p1 p2 : Z) : outcome (bytes * Z * Z) :=
  c ← rd buf p1;
  if negb (blank c) && negb (c =? 0) then
    match fuel with
    | O => Undef
    | S fuel => buf ← wr buf p2 c; trim_copy fuel buf (p1 + 1) (p2 + 1)
    end
  else Val (buf, p1, p2).

Fixpoint trim_skip (fuel : nat) (buf : bytes) (p1 : Z) : outcome Z :=
  c ← rd buf p1;
  if blank c then match fuel with O => Undef | S fuel => trim_skip fuel buf (p1 + 1) end
  else Val p1.

Fixpoint trim_loop (fuel : nat) (buf : bytes) (p1 p2 : Z) : outcome (bytes * Z) :=
  c ← rd buf p1;
  if negb (c =? 0) then
    match fuel with
    | O => Undef
    | S fuel =>
      '(buf, p1, p2) ← trim_copy (length buf) buf p1 p2;
      c ← rd buf p1;
      p1 ← (if negb (c =? 0) then trim_skip (length buf) buf p1 else Val p1);
      trim_loop fuel buf p1 p2
    end
  else buf ← wr buf p2 0; Val (buf, p2).

(** Returns the buffer and the new length. *)
Definition trim (buffer : bytes) : outcome (bytes * Z) := trim_loop (length buffer) buffer 0 0.

Section queries.
Context `{IpConst, IpMemory}.

Definition getAreaNameByIp (s : ip_state) (ip : bytes) : outcome bytes :=
  '(_, nm) ← ipDataFind (ipip s) ip name_uninit;
  '(nm, length) ← trim nm;
  Val (take (Z.to_nat length) nm).

Definition getAreaByIp (s : ip_state) (ip : bytes) : outcome Z :=
  '(_, nm) ← ipDataFind (ipip s) ip name_uninit;
  '(nm, length) ← trim nm;
  let areaName := take (Z.to_nat length) nm in
  Val (match areaDict s !! areaName with Some it => getAreaShortCode it | None => IP_UNKNOWN end).

(** [%04d] *)
Definition fmt04 (n : Z) : bytes :=
  if n <? 0 then 45 :: zfill 3 (map dec_char (digits 10 (- n))) else zfill 4 (to_string n).

(** [snprintf(code, 64, "%04d-%d-%d", ...)] *)
Definition getAreaCodeStrByIp (s : ip_state) (ip : bytes) : outcome bytes :=
  '(_, nm) ← ipDataFind (ipip s) ip name_uninit;
  '(nm, length) ← trim nm;
  let areaName := take (Z.to_nat length) nm in
  Val (match areaDict s !! areaName with
       | Some it => take 63 (fmt04 (country it) ++ ch "-" :: to_string (province it)
                             ++ ch "-" :: to_string (city it))
       | None => str "0086-0-0"
       end).

Definition getAreaCodeByIp (s : ip_state) (ip : bytes) : outcome (Z * Z * Z) :=
  '(_, nm) ← ipDataFind (ipip s) ip name_uninit;
  '(nm, length) ← trim nm;
  let areaName := take (Z.to_nat length) nm in
  Val (match areaDict s !! areaName with
       | Some it => (country it, province it, city it)
       | None => (86, 0, 0)
       end).
End queries.

(** ** Lemmas: trim *)

(** The buffer while [trim] runs: [w] was written, [y] is still to be read. *)
Record trimming (buf w y rest : bytes) (p1 p2 : Z) : Prop := {
  tr_p2 : p2 = Z.of_nat (length w);
  tr_le : 0 <= p2 <= p1;
  tr_w : take (length w) buf = w;
  tr_y : drop (Z.to_nat p1) buf = y ++ 0 :: rest;
}.

Lemma trimming_rd buf w y rest p1 p2 :
  trimming buf w y rest p1 p2 -> rd buf p1 = Val (match y with c :: _ => c | [] => 0 end).
Proof.
  intros [_ Hle _ Hy]. apply rd_Some; [lia|].
  rewrite <- (Nat.add_0_r (Z.to_nat p1)), <- lookup_drop, Hy. by destruct y.
Qed.

Lemma trimming_bound buf w y rest p1 p2 :
  trimming buf w y rest p1 p2 -> p1 + Z.of_nat (length y) < Z.of_nat (length buf).
Proof.
  intros [_ Hle _ Hy]. apply (f_equal length) in Hy. rewrite length_drop, length_app in Hy. simpl in Hy. lia.
Qed.

Lemma drop_next {A} (l : list A) n x t : drop n l = x :: t -> drop (S n) l = t.
Proof. intros E. rewrite <- Nat.add_1_r, <- drop_drop, E. done. Qed.

Lemma trimming_step buf w c y rest p1 p2 :
  trimming buf w (c :: y) rest p1 p2 ->
  exists buf', wr buf p2 c = Val buf' /\ length buf' = length buf
    /\ trimming buf' (w ++ [c]) y rest (p1 + 1) (p2 + 1).
Proof.
  intros Ht. pose proof (trimming_bound _ _ _ _ _ _ Ht) as Hb. destruct Ht as [Hp Hle Hw Hy].
  simpl in Hb. eexists. split; [apply wr_in; lia|]. rewrite length_insert. split; [done|].
  split; rewrite ?length_app; simpl.
  - lia.
  - lia.
  - subst p2. rewrite Nat2Z.id. rewrite Nat.add_1_r.
    rewrite (take_S_r _ _ c) by (apply list_lookup_insert_eq; lia). by rewrite take_insert_ge, Hw by lia.
  - rewrite drop_insert_lt by lia. replace (Z.to_nat (p1 + 1)) with (S (Z.to_nat p1)) by lia.
    by apply (drop_next _ _ c).
Qed.

Lemma trimming_skip buf w c y rest p1 p2 :
  trimming buf w (c :: y) rest p1 p2 -> trimming buf w y rest (p1 + 1) p2.
Proof.
  intros [Hp Hle Hw Hy]. split; try done; [lia|].
  replace (Z.to_nat (p1 + 1)) with (S (Z.to_nat p1)) by lia. by apply (drop_next _ _ c).
Qed.

Lemma trimming_end buf w rest p1 p2 :
  trimming buf w [] rest p1 p2 ->
  exists buf', wr buf p2 0 = Val buf' /\ length buf' = length buf
    /\ take (length w) buf' = w /\ buf' !! length w = Some 0.
Proof.
  intros Ht. pose proof (trimming_bound _ _ _ _ _ _ Ht) as Hb. destruct Ht as [Hp Hle Hw Hy]. simpl in Hb.
  eexists. split; [apply wr_in; lia|]. rewrite length_insert. subst p2. rewrite Nat2Z.id.
  split_and!; [done|by rewrite take_insert_ge by lia|apply list_lookup_insert_eq; lia].
Qed.

Definition stop_char (y : bytes) : Prop := match y with c :: _ => blank c = true | [] => True end.

Lemma trim_copy_ok fuel a y buf w rest p1 p2 :
  Forall (fun c => blank c = false /\ c <> 0) a -> stop_char y ->
  trimming buf w (a ++ y) rest p1 p2 -> (length a <= fuel)%nat ->
  exists buf' p1', trim_copy fuel buf p1 p2 = Val (buf', p1', p2 + Z.of_nat (length a))
    /\ length buf' = length buf /\ trimming buf' (w ++ a) y rest p1' (p2 + Z.of_nat (length a)).
Proof.
  intros Ha Hy. revert fuel buf w p1 p2. induction Ha as [|c a [Hb Hc] _ IH]; intros fuel buf w p1 p2 Ht Hf.
  - exists buf, p1. rewrite app_nil_r, Z.add_0_r. split_and!; [|done..].
    destruct fuel; cbn [trim_copy]; rewrite (trimming_rd _ _ _ _ _ _ Ht); cbn [mbind outcome_bind app];
      (destruct y as [|c y]; simpl in Hy; [done|by rewrite Hy]).
  - destruct fuel as [|fuel]; [simpl in Hf; lia|]. cbn [trim_copy].
    rewrite (trimming_rd _ _ _ _ _ _ Ht). cbn [mbind outcome_bind app]. rewrite Hb.
    apply Z.eqb_neq in Hc. rewrite Hc. cbn [negb andb].
    destruct (trimming_step _ _ _ _ _ _ _ Ht) as (buf1 & -> & Hl & Ht1). cbn [mbind outcome_bind].
    destruct (IH fuel buf1 _ _ _ Ht1) as (buf2 & p1' & E & Hl2 & Ht2); [simpl in Hf; lia|].
    exists buf2, p1'. cbn [length].
    replace (p2 + Z.of_nat (S (length a))) with (p2 + 1 + Z.of_nat (length a)) by lia.
    rewrite <- app_assoc in Ht2. split_and!; [done|congruence|done].
Qed.

Lemma trim_skip_ok fuel a y buf w rest p1 p2 :
  Forall (fun c => blank c = true) a -> (match y with c :: _ => blank c = false | [] => True end) ->
  trimming buf w (a ++ y) rest p1 p2 -> (length a <= fuel)%nat ->
  exists p1', trim_skip fuel buf p1 = Val p1' /\ trimming buf w y rest p1' p2.
Proof.
  intros Ha Hy. revert fuel p1. induction Ha as [|c a Hb _ IH]; intros fuel p1 Ht Hf.
  - exists p1. split; [|done].
    destruct fuel; cbn [trim_skip]; rewrite (trimming_rd _ _ _ _ _ _ Ht); cbn [mbind outcome_bind app];
      (destruct y as [|c y]; simpl in Hy; [done|by rewrite Hy]).
  - destruct fuel as [|fuel]; [simpl in Hf; lia|]. cbn [trim_skip].
    rewrite (trimming_rd _ _ _ _ _ _ Ht). cbn [mbind outcome_bind app]. rewrite Hb.
    apply (IH fuel (p1 + 1)); [by eapply trimming_skip|simpl in Hf; lia].
Qed.

(** A text is a run of letters, a run of blanks and the rest. *)
Lemma split_blanks y : no_nul y -> y <> [] ->
  exists a b z, y = a ++ b ++ z /\ Forall (fun c => blank c = false /\ c <> 0) a
    /\ Forall (fun c => blank c = true) b /\ stop_char (b ++ z)
    /\ match z with c :: _ => blank c = false | [] => True end
    /\ (length z < length y)%nat.
Proof.
  intros Hn Hne. set (p := fun c => negb (blank c)). set (y1 := skip_while p y).
  exists (take_while p y), (take_while blank y1), (skip_while blank y1).
  assert (stop_char y1) as Hs.
  { destruct y1 as [|c y1'] eqn:E; [done|]. unfold y1 in E. apply skip_while_head in E.
    unfold p in E. simpl. by destruct (blank c). }
  rewrite (take_skip_while blank y1). split_and!.
  - symmetry. apply take_skip_while.
  - assert (no_nul (take_while p y)) as Ha.
    { rewrite <- (take_skip_while p y) in Hn. by apply Forall_app in Hn as [? _]. }
    pose proof (take_while_Forall p y) as Hp. unfold no_nul in Ha. rewrite !Forall_forall in *.
    intros c Hc. split; [|by apply Ha]. specialize (Hp c Hc). unfold p in Hp. by destruct (blank c).
  - apply take_while_Forall.
  - exact Hs.
  - destruct (skip_while blank y1) eqn:E; [done|]. by apply skip_while_head in E.
  - pose proof (f_equal length (take_skip_while p y)) as E1. fold y1 in E1.
    pose proof (f_equal length (take_skip_while blank y1)) as E2. rewrite length_app in E1, E2.
    destruct y1 as [|c y1'] eqn:E; [destruct y; [done|simpl in *; lia]|].
    simpl in Hs. cbn [take_while skip_while] in *. rewrite Hs in *. cbn [length] in *. lia.
Qed.

Definition letters (x : bytes) : bytes := filter (fun c => blank c = false) x.

Lemma letters_keep x : Forall (fun c => blank c = false /\ c <> 0) x -> letters x = x.
Proof.
  unfold letters. induction 1 as [|c x [Hb _] _ IH]; [done|]. rewrite filter_cons, decide_True by done. by f_equal.
Qed.

Lemma letters_drop x : Forall (fun c => blank c = true) x -> letters x = [].
Proof.
  unfold letters. induction 1 as [|c x Hb _ IH]; [done|]. rewrite filter_cons, decide_False by congruence. done.
Qed.

Lemma letters_app x y : letters (x ++ y) = letters x ++ letters y.
Proof. apply filter_app. Qed.

Lemma trim_loop_ok fuel y buf w rest p1 p2 :
  no_nul y -> trimming buf w y rest p1 p2 -> (length y <= fuel)%nat ->
  exists buf', trim_loop fuel buf p1 p2 = Val (buf', Z.of_nat (length (w ++ letters y)))
    /\ length buf' = length buf /\ take (length (w ++ letters y)) buf' = w ++ letters y
    /\ buf' !! length (w ++ letters y) = Some 0.
Proof.
  revert y buf w p1 p2. induction fuel as [|fuel IH]; intros y buf w p1 p2 Hn Ht Hf.
  1: destruct y; [|simpl in Hf; lia]. 2: destruct (decide (y = [])) as [->|Hne].
  1,2: destruct (trimming_end _ _ _ _ _ Ht) as (buf' & E & Hl & Hw & H0); exists buf';
    cbn [trim_loop]; rewrite (trimming_rd _ _ _ _ _ _ Ht); cbn [mbind outcome_bind];
    change (negb (0 =? 0)) with false; cbv iota; rewrite E; cbn [mbind outcome_bind];
    change (letters []) with (@nil Z); rewrite app_nil_r; by rewrite (tr_p2 _ _ _ _ _ _ Ht).
  destruct (split_blanks y Hn Hne) as (a & b & z & -> & Ha & Hb & Hs & Hz & Hl).
  cbn [trim_loop]. rewrite (trimming_rd _ _ _ _ _ _ Ht). cbn [mbind outcome_bind].
  assert (forall c t, a ++ b ++ z = c :: t -> (c =? 0) = false) as Hc.
  { intros c t E. rewrite E in Hn. inversion Hn. by apply Z.eqb_neq. }
  destruct (a ++ b ++ z) as [|c t] eqn:Ey; [done|]. rewrite (Hc c t eq_refl). cbn [negb]. rewrite <- Ey in *.
  pose proof (trimming_bound _ _ _ _ _ _ Ht) as Hbd. rewrite !length_app in Hbd, Hf, Hl.
  pose proof (tr_le _ _ _ _ _ _ Ht).
  destruct (trim_copy_ok (length buf) a (b ++ z) buf w rest p1 p2 Ha Hs Ht ltac:(lia))
    as (buf1 & q1 & -> & Hl1 & Ht1).
  cbn [mbind outcome_bind]. rewrite (trimming_rd _ _ _ _ _ _ Ht1). cbn [mbind outcome_bind].
  assert (exists q2, (if negb (match b ++ z with c :: _ => c | [] => 0 end =? 0)
      then trim_skip (length buf1) buf1 q1 else Val q1) = Val q2
      /\ trimming buf1 (w ++ a) z rest q2 (p2 + Z.of_nat (length a))) as (q2 & -> & Ht2).
  { destruct (trim_skip_ok (length buf1) b z buf1 (w ++ a) rest q1 _ Hb Hz Ht1 ltac:(lia)) as (q2 & E & Ht2).
    destruct (Z.eqb_spec (match b ++ z with c :: _ => c | [] => 0 end) 0) as [E0|]; [|by exists q2].
    exists q1. split; [done|]. destruct b as [|x b]; [done|]. simpl in E0. subst x. by inversion Hb. }
  cbn [mbind outcome_bind].
  destruct (IH z buf1 (w ++ a) q2 _ ltac:(unfold no_nul in *; by rewrite !Forall_app in Hn; destruct Hn as (_ & _ & ?))
              Ht2 ltac:(lia)) as (buf2 & E & Hl2 & Hw & H0).
  exists buf2. rewrite !letters_app, (letters_keep a), (letters_drop b) by done. cbn [app].
  rewrite <- !app_assoc in *. split_and!; [done|congruence|done|done].
Qed.

(** [trim] on a buffer that holds a terminated text. *)
Lemma trim_ok x rest :
  no_nul x ->
  exists buf, trim (x ++ 0 :: rest) = Val (buf, Z.of_nat (length (letters x)))
    /\ length buf = length (x ++ 0 :: rest) /\ take (length (letters x)) buf = letters x
    /\ buf !! length (letters x) = Some 0.
Proof.
  intros Hx. unfold trim. apply (trim_loop_ok _ x _ [] rest 0 0 Hx).
  - split; done.
  - rewrite length_app. lia.
Qed.

(** ** Lemmas: the database *)

Lemma join_bytes_value b0 b1 b2 b3 :
  is_byte b0 -> is_byte b1 -> is_byte b2 -> is_byte b3 ->
  join_bytes b0 b1 b2 b3 = b0 + 256 * (b1 + 256 * (b2 + 256 * (b3 + 256 * 0))).
Proof.
  unfold is_byte. intros H0 H1 H2 H3. unfold join_bytes.
  by_table 256%nat (fun b => (Z.land b 0xFF =? b) && (Z.land (Z.shiftl b 8) 0xFF00 =? b * 2 ^ 8)
     && (Z.land (Z.shiftl b 16) 0xFF0000 =? b * 2 ^ 16) && (Z.land (Z.shiftl b 24) 0xFF000000 =? b * 2 ^ 24)).
  pose proof (H b0 H0). pose proof (H b1 H1). pose proof (H b2 H2). pose proof (H b3 H3).
  assert (Z.land b0 0xFF = b0) as -> by lia. assert (Z.land (Z.shiftl b1 8) 0xFF00 = b1 * 2 ^ 8) as -> by lia.
  assert (Z.land (Z.shiftl b2 16) 0xFF0000 = b2 * 2 ^ 16) as -> by lia.
  assert (Z.land (Z.shiftl b3 24) 0xFF000000 = b3 * 2 ^ 24) as -> by lia.
  rewrite !Z.lor_assoc, (Z.lor_comm b0), (lor_add b1 b0 8), (Z.lor_comm _ (b2 * _)), (lor_add b2 _ 16),
    (Z.lor_comm _ (b3 * _)), (lor_add b3 _ 24) by lia. lia.
Qed.

Lemma scan_d_number n t :
  0 <= n < 2 ^ 32 -> take_while is_digit t = [] -> scan_d (to_string n ++ t) = Some (n, t).
Proof.
  intros Hn Ht. unfold scan_d. rewrite to_string_nonneg by lia.
  pose proof (digits_range 10 n ltac:(lia) ltac:(lia)) as Hr. pose proof (value_digits 10 n ltac:(lia) ltac:(lia)) as Hv.
  pose proof (digits_ne 10 n) as Hne. destruct (digits 10 n) as [|d ds] eqn:E; [done|]. rewrite <- E in *.
  assert (exists c r, map dec_char (digits 10 n) ++ t = c :: r /\ is_digit c = true) as (c & r & Er & Hc).
  { rewrite E in *. do 2 eexists. split; [reflexivity|]. inversion Hr; subst. unfold is_digit, dec_char. lia. }
  rewrite Er. cbn [skip_while]. unfold is_digit in Hc. assert (is_space c = false) as -> by (unfold is_space; lia).
  assert ((c =? 45) = false) as -> by lia. assert ((c =? 43) = false) as -> by lia. rewrite <- Er.
  rewrite take_while_app, Ht, app_nil_r by by apply dec_chars_digit.
  destruct (map dec_char (digits 10 n)) eqn:Em; [by rewrite E in Em|]. rewrite <- Em.
  rewrite drop_app_length. unfold signed_value. rewrite dec_chars_inv, Hv.
  unfold LONG_MIN, LONG_MAX. rewrite uwrap_small by lia. do 2 f_equal. lia.
Qed.

Lemma scan_quad_dotted u :
  0 <= u < 2 ^ 32 ->
  exists a b c d, scan_quad (dotted u) = Some [a; b; c; d] /\ a = u / 2 ^ 24 /\ 0 <= a < 256
    /\ B2IU [a; b; c; d] 0 = Val u.
Proof.
  intros Hu. destruct (union_of_int_bytes u) as (c0 & c1 & c2 & c3 & E & H0 & H1 & H2 & H3 & Ev).
  exists c3, c2, c1, c0. rewrite uwrap_small in Ev by lia. unfold is_byte in *.
  pose proof (dotted_no_nul u) as Hn.
  split_and!; [|dlia|lia|lia|].
  - unfold scan_quad. rewrite c_str_id by done. unfold dotted. destruct (dotted_shape u) as (s & -> & _ & _ & Es).
    rewrite (Es _ _ _ _ E).
    do 3 (rewrite scan_d_number by (lia || done); cbn [mbind option_bind scan_dot];
          change (ch "." =? ch ".") with true; cbv iota; cbn [mbind option_bind]).
    rewrite <- (app_nil_r (to_string c0)), scan_d_number by (lia || done). done.
  - change (B2IU [c3; c2; c1; c0] 0) with (Val (join_bytes c0 c1 c2 c3)).
    rewrite join_bytes_value by (unfold is_byte; lia). by rewrite Ev.
Qed.

(** *** Well formed databases *)

Definition val_or {A} (d : A) (m : outcome A) : A := match m with Val a => a | _ => d end.

(** Entry [i] of the index: its last address, the place and the length of its text. *)
Definition entry_pos (i : nat) : Z := 1024 + 8 * Z.of_nat i.
Definition entry_key (s : ipip_t) (i : nat) : Z := val_or 0 (B2IU (index s) (entry_pos i)).
Definition entry_off (s : ipip_t) (i : nat) : Z := Z.land (val_or 0 (B2IL (index s) (entry_pos i + 4))) 0x00FFFFFF.
Definition entry_len (s : ipip_t) (i : nat) : Z := val_or 0 (rd (index s) (entry_pos i + 7)).
Definition entry_text (s : ipip_t) (i : nat) : bytes :=
  take (Z.to_nat (entry_len s i)) (drop (Z.to_nat (offset s + entry_off s i - 1024)) (data s)).
Definition is_entry (s : ipip_t) (i : nat) : Prop := entry_pos i < offset s - 1028.

Record db_ok (s : ipip_t) : Prop := {
  db_offset : 1028 <= offset s < 2 ^ 32;
  db_index : Z.of_nat (length (index s)) = offset s;
  db_bytes : Forall is_byte (index s);
  db_data : offset s <= Z.of_nat (length (data s));
  db_text i : is_entry s i -> offset s + entry_off s i - 1024 + entry_len s i <= Z.of_nat (length (data s));
  db_flags : length (flag s) = 256%nat;
  db_flag p v : flag s !! p = Some v -> 0 <= v /\ 8 * v + 1024 < 2 ^ 32
    (* the entries before the first of a prefix end below the prefix *)
    /\ forall i, Z.of_nat i < v -> is_entry s i -> entry_key s i < Z.of_nat p * 2 ^ 24;
}.

(** The first entry whose last address is not below [ip]. *)
Definition first_entry (s : ipip_t) (ip : Z) (i : nat) : Prop :=
  is_entry s i /\ ip <= entry_key s i /\ forall j, (j < i)%nat -> entry_key s j < ip.

Lemma entry_read s i :
  db_ok s -> is_entry s i ->
  B2IU (index s) (entry_pos i) = Val (entry_key s i)
  /\ (exists o, B2IL (index s) (entry_pos i + 4) = Val o /\ entry_off s i = Z.land o 0x00FFFFFF)
  /\ rd (index s) (entry_pos i + 7) = Val (entry_len s i) /\ is_byte (entry_len s i).
Proof.
  intros Hs Hi. unfold is_entry in Hi. pose proof (db_index s Hs). pose proof (db_offset s Hs).
  assert (0 <= entry_pos i) by (unfold entry_pos; lia).
  assert (forall k, 0 <= k < 8 -> exists b, rd (index s) (entry_pos i + k) = Val b /\ is_byte b) as R.
  { intros k Hk. destruct (lookup_lt_is_Some_2 (index s) (Z.to_nat (entry_pos i + k))) as [b Eb]; [lia|].
    exists b. split; [by apply rd_Some; [lia|]|]. by eapply (Forall_lookup_1 _ _ _ _ (db_bytes s Hs)). }
  destruct (R 0) as (b0 & E0 & _); [lia|]. rewrite Z.add_0_r in E0.
  destruct (R 1) as (b1 & E1 & _); [lia|]. destruct (R 2) as (b2 & E2 & _); [lia|].
  destruct (R 3) as (b3 & E3 & _); [lia|]. destruct (R 4) as (b4 & E4 & _); [lia|].
  destruct (R 5) as (b5 & E5 & _); [lia|]. destruct (R 6) as (b6 & E6 & _); [lia|].
  destruct (R 7) as (b7 & E7 & H7); [lia|].
  unfold entry_key, entry_off, entry_len. rewrite E7. split_and!; [| |done|apply H7..].
  - unfold B2IU. rewrite E0, E1, E2, E3. done.
  - eexists. unfold B2IL. 
    replace (entry_pos i + 4 + 1) with (entry_pos i + 5) by lia.
    replace (entry_pos i + 4 + 2) with (entry_pos i + 6) by lia.
    replace (entry_pos i + 4 + 3) with (entry_pos i + 7) by lia. rewrite E4, E5, E6, E7.
    cbn [mbind outcome_bind val_or]. split; reflexivity.
Qed.

Lemma find_step fuel s ip i :
  db_ok s -> is_entry s i ->
  find_loop (S fuel) s ip (entry_pos i) (offset s - 1028)
  = if ip <=? entry_key s i then Val (entry_off s i, entry_len s i)
    else find_loop fuel s ip (entry_pos (S i)) (offset s - 1028).
Proof.
  intros Hs Hi. destruct (entry_read s i Hs Hi) as (Ek & (o & Eo & Ho) & El & _).
  unfold is_entry in Hi. pose proof (db_offset s Hs). cbn [find_loop].
  destruct (Z.ltb_spec (entry_pos i) (offset s - 1028)); [|lia]. rewrite Ek. cbn [mbind outcome_bind].
  destruct (ip <=? entry_key s i); [rewrite Eo, El, Ho; done|].
  rewrite uwrap_small by (unfold entry_pos in *; lia). f_equal. unfold entry_pos. lia.
Qed.

(** The scan from any entry not after the first match finds it. *)
Lemma find_first fuel s ip i k :
  db_ok s -> first_entry s ip i -> (k <= i)%nat -> (i - k < fuel)%nat ->
  find_loop fuel s ip (entry_pos k) (offset s - 1028) = Val (entry_off s i, entry_len s i).
Proof.
  intros Hs (Hi & Hk & Hj). revert k. induction fuel as [|fuel IH]; intros k Hki Hf; [lia|].
  rewrite find_step by (done || (unfold is_entry, entry_pos in *; lia)).
  destruct (decide (k = i)) as [->|Hne].
  - destruct (Z.leb_spec ip (entry_key s i)); [done|lia].
  - specialize (Hj k ltac:(lia)). destruct (Z.leb_spec ip (entry_key s k)); [lia|]. apply IH; lia.
Qed.

Lemma find_none fuel s ip k :
  db_ok s -> (forall i, is_entry s i -> entry_key s i < ip) ->
  offset s - 1028 - entry_pos k < 8 * Z.of_nat fuel ->
  find_loop fuel s ip (entry_pos k) (offset s - 1028) = Val (0, 0).
Proof.
  intros Hs Hn. revert k. induction fuel as [|fuel IH]; intros k Hf.
  - cbn [find_loop]. destruct (Z.ltb_spec (entry_pos k) (offset s - 1028)); [lia|done].
  - destruct (Z.ltb_spec (entry_pos k) (offset s - 1028)).
    + rewrite find_step by done. specialize (Hn k ltac:(done)).
      destruct (Z.leb_spec ip (entry_key s k)); [lia|]. apply IH. unfold entry_pos in *. lia.
    + cbn [find_loop]. destruct (Z.ltb_spec (entry_pos k) (offset s - 1028)); [lia|done].
Qed.

(** The address is parsed and the scan starts at the first entry of its prefix. *)
Lemma ipDataFind_start s u result :
  db_ok s -> 0 <= u < 2 ^ 32 ->
  exists k, (forall i, (i < k)%nat -> is_entry s i -> entry_key s i < u) /\
    ipDataFind s (dotted u) result =
    ('(index_offset, index_length) ← find_loop (S (length (index s))) s u (entry_pos k) (offset s - 1028);
     let src := offset s + index_offset - 1024 in
     check ((0 <=? src) && (src + index_length <=? Z.of_nat (length (data s))));;
     check (index_length + 1 <=? Z.of_nat (length result));;
     Val (index_length, over (take (Z.to_nat index_length) (drop (Z.to_nat src) (data s)) ++ [0]) result)).
Proof.
  intros Hs Hu. destruct (scan_quad_dotted u Hu) as (a & b & c & d & Eq & Ea & Ha & Ev).
  destruct (lookup_lt_is_Some_2 (flag s) (Z.to_nat a)) as [v Hv]; [rewrite (db_flags s Hs); lia|].
  destruct (db_flag s Hs _ _ Hv) as (Hv0 & Hv1 & Hlt). pose proof (db_offset s Hs).
  exists (Z.to_nat v). split.
  - intros i Hi He. specialize (Hlt i ltac:(lia) He). rewrite Z2Nat.id in Hlt by lia. subst a. dlia.
  - unfold ipDataFind. rewrite Eq. change (rd [a; b; c; d] 0) with (Val a). cbn [mbind outcome_bind].
    rewrite Ev. cbn [mbind outcome_bind]. rewrite (rd_Some _ _ v) by (lia || done). cbn [mbind outcome_bind].
    rewrite (uwrap_small 32 (offset s - 1028)) by lia. rewrite (uwrap_small 32 (v * 8 + 1024)) by lia.
    replace (v * 8 + 1024) with (entry_pos (Z.to_nat v)) by (unfold entry_pos; lia).
    destruct (find_loop _ _ _ _ _) as [[o l]| |]; reflexivity.
Qed.

Lemma ipDataFind_first s u i result :
  db_ok s -> 0 <= u < 2 ^ 32 -> first_entry s u i -> length result = 256%nat ->
  ipDataFind s (dotted u) result = Val (entry_len s i, over (entry_text s i ++ [0]) result)
  /\ length (entry_text s i) = Z.to_nat (entry_len s i) /\ is_byte (entry_len s i).
Proof.
  intros Hs Hu Hf Hr. destruct (ipDataFind_start s u result Hs Hu) as (k & Hk & ->).
  pose proof Hf as (He & Hge & _). destruct (entry_read s i Hs He) as (_ & (o & _ & Ho) & _ & Hl).
  assert (k <= i)%nat as Hki.
  { destruct (decide (i < k)%nat) as [Hik|]; [|lia]. specialize (Hk i Hik He). lia. }
  pose proof (db_text s Hs i He). pose proof (db_index s Hs). pose proof (db_offset s Hs).
  assert (0 <= entry_off s i) by (rewrite Ho; apply Z.land_nonneg; lia).
  unfold is_byte in Hl. unfold is_entry, entry_pos in He.
  rewrite (find_first _ _ _ i) by (done || lia). cbn [mbind outcome_bind]. unfold check.
  assert ((0 <=? offset s + entry_off s i - 1024)
    && (offset s + entry_off s i - 1024 + entry_len s i <=? Z.of_nat (length (data s))) = true) as -> by lia.
  assert ((entry_len s i + 1 <=? Z.of_nat (length result)) = true) as -> by lia.
  split_and!; [done| |unfold is_byte; lia..]. unfold entry_text. rewrite length_take, length_drop. lia.
Qed.

Lemma ipDataFind_none s u result :
  db_ok s -> 0 <= u < 2 ^ 32 -> (forall i, is_entry s i -> entry_key s i < u) -> length result = 256%nat ->
  ipDataFind s (dotted u) result = Val (0, over [0] result).
Proof.
  intros Hs Hu Hn Hr. destruct (ipDataFind_start s u result Hs Hu) as (k & Hk & ->).
  pose proof (db_data s Hs). pose proof (db_index s Hs). pose proof (db_offset s Hs).
  rewrite find_none by (done || (unfold entry_pos; lia)). cbn [mbind outcome_bind]. unfold check.
  assert ((0 <=? offset s + 0 - 1024) && (offset s + 0 - 1024 + 0 <=? Z.of_nat (length (data s))) = true) as -> by lia.
  assert ((0 + 1 <=? Z.of_nat (length result)) = true) as -> by lia. done.
Qed.

(** The text before the first NUL byte of a terminated one. *)
Lemma c_str_split (x rest : bytes) : exists r, x ++ 0 :: rest = c_str x ++ 0 :: r.
Proof.
  induction x as [|c x [r IH]]; [by exists rest|]. cbn [c_str app]. destruct (Z.eqb_spec c 0) as [->|].
  - by exists (x ++ 0 :: rest).
  - exists r. cbn [app]. by rewrite IH.
Qed.

(** What the four lookups do with the buffer. *)
Lemma trim_text (text result : bytes) :
  exists nm, trim (over (text ++ [0]) result) = Val (nm, Z.of_nat (length (letters (c_str text))))
    /\ take (length (letters (c_str text))) nm = letters (c_str text).
Proof.
  unfold over. rewrite <- app_assoc. cbn [app].
  destruct (c_str_split text (drop (length (text ++ [0])) result)) as [r ->].
  destruct (trim_ok (c_str text) r (c_str_no_nul _)) as (nm & E & _ & Ht & _). by exists nm.
Qed.

(** ** Lemmas: area codes *)

Lemma zfill_digits w ds :
  Forall (fun d => 0 <= d < 10) ds ->
  exists ds', zfill w (map dec_char ds) = map dec_char ds' /\ Forall (fun d => 0 <= d < 10) ds'
    /\ value 10 ds' = value 10 ds /\ (ds <> [] -> ds' <> []).
Proof.
  intros Hd. unfold zfill. rewrite length_map. set (k := (w - length ds)%nat).
  exists (replicate k 0 ++ ds). split_and!.
  - rewrite map_app. f_equal. clear. induction k as [|k IH]; [done|]. cbn [replicate map]. by rewrite <- IH.
  - apply Forall_app. split; [|done]. apply Forall_replicate. lia.
  - rewrite value_app. assert (value 10 (replicate k 0) = 0) as ->; [|lia].
    clear. induction k as [|k IH]; [done|]. cbn [replicate]. rewrite value_cons, IH. lia.
  - intros Hne E. apply app_eq_nil in E as [_ E]. done.
Qed.

(** A run of decimal digits read by [atoi] and stepped over to the next dash. *)
Lemma digits_field ds t :
  Forall (fun d => 0 <= d < 10) ds -> ds <> [] -> value 10 ds < 2 ^ 31 ->
  atoi (map dec_char ds ++ ch "-" :: t) = value 10 ds /\ next_field (map dec_char ds ++ ch "-" :: t) = Val t.
Proof.
  intros Hd Hne Hv.
  assert (0 <= value 10 ds) as Hv0.
  { clear -Hd. induction Hd as [|d ds Hd _ IH]; [done|]. rewrite value_cons.
    pose proof (Z.pow_nonneg 10 (Z.of_nat (length ds))). nia. }
  split.
  - unfold atoi, strtol. rewrite c_str_app_no_nul by by apply dec_chars_no_nul.
    cbn [c_str]. change (ch "-" =? 0) with false. cbv iota. rewrite scan_int_digits by done.
    unfold signed_value. rewrite dec_chars_inv. unfold LONG_MIN, LONG_MAX. rewrite swrap_small; lia.
  - unfold next_field. rewrite skip_while_app_false; [done| |done].
    eapply Forall_impl; [by apply dec_chars_digit|]. simpl. intros c Hc. unfold is_digit in Hc.
    change (ch "-") with 45. destruct (Z.eqb_spec c 45); [lia|done].
Qed.

Lemma length_to_string n : 0 <= n < 2 ^ 31 -> (length (to_string n) <= 10)%nat.
Proof. intros Hn. apply length_to_string_pow; [lia|]. change (10 ^ Z.of_nat 10) with 10000000000. lia. Qed.

Definition item_ok (it : AreaItem) : Prop :=
  0 <= country it < 2 ^ 31 /\ 0 <= province it < 2 ^ 31 /\ 0 <= city it < 2 ^ 31.

(** The text of the codes is read back by [extractAreaInfo]. *)
Lemma area_text_read it :
  item_ok it ->
  extractAreaInfo (take 63 (fmt04 (country it) ++ ch "-" :: to_string (province it) ++ ch "-" :: to_string (city it)))
  = Val (country it, province it, city it).
Proof.
  intros (Hc & Hp & Hy). unfold fmt04. destruct (Z.ltb_spec (country it) 0); [lia|].
  pose proof (length_to_string _ Hc). pose proof (length_to_string _ Hp). pose proof (length_to_string _ Hy).
  rewrite take_ge.
  2:{ rewrite length_app. unfold zfill. rewrite length_app, length_replicate. cbn [length].
      rewrite length_app. cbn [length]. lia. }
  rewrite (to_string_nonneg (country it)) by lia.
  destruct (zfill_digits 4 (digits 10 (country it))) as (ds & -> & Hd & Hv & Hne); [apply digits_range; lia|].
  rewrite value_digits in Hv by lia. specialize (Hne (digits_ne 10 _)).
  unfold extractAreaInfo. rewrite c_str_id.
  2:{ unfold no_nul. rewrite Forall_app, Forall_cons, Forall_app, Forall_cons.
      split_and!; try (apply to_string_no_nul; lia); try done. by apply dec_chars_no_nul. }
  destruct (digits_field ds (to_string (province it) ++ ch "-" :: to_string (city it)) Hd Hne ltac:(lia)) as [-> ->].
  cbn [mbind outcome_bind]. rewrite next_field_digits by lia. cbn [mbind outcome_bind].
  rewrite <- (app_nil_r (to_string (city it))), !atoi_number by (lia || done). by rewrite Hv.
Qed.

(** ** Lemmas: loading *)

Lemma dict_add_keep d it k v : d !! k = Some v -> dict_add d it !! k = Some v.
Proof.
  intros E. unfold dict_add, insert_new. destruct (d !! name it) eqn:En; [done|]. rewrite lookup_insert_ne; [done|congruence].
Qed.

Lemma foldl_add_keep l d k v : d !! k = Some v -> foldl dict_add d l !! k = Some v.
Proof. revert d. induction l as [|it l IH]; intros d E; [done|]. apply IH. by apply dict_add_keep. Qed.

Lemma foldl_add_has l d it : it ∈ l -> is_Some (foldl dict_add d l !! name it).
Proof.
  revert d. induction l as [|it' l IH]; intros d Hin; [by apply not_elem_of_nil in Hin|]. cbn [foldl].
  apply elem_of_cons in Hin as [->|Hin]; [|by apply IH].
  assert (is_Some (dict_add d it' !! name it')) as [v Hv].
  { unfold dict_add, insert_new. destruct (d !! name it') eqn:E; [by rewrite E|by rewrite lookup_insert_eq]. }
  exists v. by apply foldl_add_keep.
Qed.

(** Adding names the dictionary has changes nothing. *)
Lemma foldl_add_id l d : (forall it, it ∈ l -> is_Some (d !! name it)) -> foldl dict_add d l = d.
Proof.
  revert d. induction l as [|it l IH]; intros d Hl; [done|]. cbn [foldl].
  assert (dict_add d it = d) as E.
  { unfold dict_add, insert_new. destruct (Hl it) as [v ->]; [left|done]. }
  rewrite E. apply IH. intros it' Hin. apply Hl. by right.
Qed.

Section loading.
Context `{IpConst, IpMemory}.

Lemma loadAreaData_again file d d' :
  loadAreaData file d = Val d' -> loadAreaData file d' = Val d'.
Proof.
  unfold loadAreaData. destruct file as [content|]; [|done]. intros E. run_inv. rewrite H1. cbn [mbind outcome_bind].
  set (d1 := foldl dict_add d (items (countryMap x))). set (d2 := foldl dict_add d1 (items (provinceMap x))).
  set (d3 := foldl dict_add d2 (items (cityMap x))). f_equal.
  rewrite (foldl_add_id (items (countryMap x)) d3).
  2:{ intros it Hin. destruct (foldl_add_has _ d it Hin) as [v Hv]. exists v. by do 2 apply foldl_add_keep. }
  rewrite (foldl_add_id (items (provinceMap x)) d3).
  2:{ intros it Hin. destruct (foldl_add_has _ d1 it Hin) as [v Hv]. exists v. by apply foldl_add_keep. }
  apply foldl_add_id. intros it Hin. by apply (foldl_add_has _ d2).
Qed.
End loading.

(** ** Theorems *)

(** [trim] removes exactly the blanks of the terminated text in its buffer, in place: the
    new length is that of the text without blanks, which the buffer then starts with,
    terminated; the buffer is not outgrown. *)
Theorem trim_spec x rest :
  no_nul x ->
  exists buf, trim (x ++ 0 :: rest) = Val (buf, Z.of_nat (length (letters x)))
    /\ length buf = length (x ++ 0 :: rest) /\ take (length (letters x)) buf = letters x
    /\ buf !! length (letters x) = Some 0.
Proof. apply trim_ok. Qed.

Lemma trim_spec_witness :
  exists buf, trim (str "a  b " ++ [0; 7]) = Val (buf, 2) /\ length buf = 7%nat
    /\ take 2 buf = str "ab" /\ buf !! 2%nat = Some 0.
Proof. apply (trim_spec (str "a  b ") [7]). repeat constructor; vm_compute; congruence. Defined.

(** The name of a line and the start of its codes. *)
Lemma area_line_name nm p :
  Forall (fun x => x <> 0 /\ x <> 9 /\ x <> 32) nm -> no_nul p ->
  let stop c := (c =? 9) || (c =? 32) in
  c_str (nm ++ 9 :: p) = nm ++ 9 :: p
  /\ skip_while (fun c => negb (stop c)) (nm ++ 9 :: p) = 9 :: p
  /\ take_while (fun c => negb (stop c)) (nm ++ 9 :: p) = nm.
Proof.
  intros Hn Hp stop.
  assert (Forall (fun c => negb (stop c) = true) nm) as Hs.
  { eapply Forall_impl; [exact Hn|]. unfold stop. intros c. simpl. lia. }
  split_and!.
  - apply c_str_id. apply Forall_app. split; [|by constructor].
    eapply Forall_impl; [exact Hn|]. naive_solver.
  - by apply skip_while_app_false.
  - rewrite take_while_app by done. simpl. apply app_nil_r.
Qed.

Lemma to_dash_number n c t :
  0 <= n -> c = 10 \/ c = ch "-" ->
  skip_while (fun c => negb (c =? 10) && negb (c =? ch "-")) (to_string n ++ c :: t) = c :: t.
Proof.
  intros Hn Hc. apply skip_while_app_false; [|by destruct Hc as [->| ->]].
  eapply Forall_impl; [by apply to_string_digits|]. intros x. unfold is_digit. change (ch "-") with 45. simpl. lia.
Qed.

Section theorems.
Context `{IpConst, IpMemory, !IpMemoryLaws _}.

(** C29: On a well formed database the name of an address is the text, without blanks, of the
    first index entry whose last address is not below it; the prefix table that lets the
    search skip entries never skips that one, no read leaves the database and no write the
    256 byte buffer. An address above all entries has the empty name. *)
Theorem getAreaNameByIp_spec s u :
  db_ok (ipip s) -> 0 <= u < 2 ^ 32 ->
  (forall i, first_entry (ipip s) u i ->
     getAreaNameByIp s (dotted u) = Val (letters (c_str (entry_text (ipip s) i))))
  /\ ((forall i, is_entry (ipip s) i -> entry_key (ipip s) i < u) -> getAreaNameByIp s (dotted u) = Val []).
Proof.
  intros Hs Hu. unfold getAreaNameByIp. split.
  - intros i Hi. destruct (ipDataFind_first _ _ _ _ Hs Hu Hi name_uninit_length) as (-> & _ & _).
    cbn [mbind outcome_bind].
    destruct (trim_text (entry_text (ipip s) i) name_uninit) as (nm & -> & Ht). cbn [mbind outcome_bind].
    by rewrite Nat2Z.id, Ht.
  - intros Hn. rewrite (ipDataFind_none _ _ _ Hs Hu Hn name_uninit_length). cbn [mbind outcome_bind].
    destruct (trim_text [] name_uninit) as (nm & E & Ht). cbn [app] in E. rewrite E. cbn [mbind outcome_bind].
    by rewrite Nat2Z.id, Ht.
Qed.

(** The three forms in which the area of an address is given agree: the text form, parsed
    by [extractAreaInfo], gives the three codes, and the short code is the one of these codes
    unless the name is unknown, when the codes are the default [86, 0, 0]. *)
Theorem area_codes_agree s ip nm :
  getAreaNameByIp s ip = Val nm -> (forall it, areaDict s !! nm = Some it -> item_ok it) ->
  exists c p y t code, getAreaCodeByIp s ip = Val (c, p, y) /\ getAreaCodeStrByIp s ip = Val t
    /\ extractAreaInfo t = Val (c, p, y) /\ getAreaByIp s ip = Val code
    /\ (code = getAreaShortCode (mkAreaItem nm c p y)
        \/ areaDict s !! nm = None /\ code = IP_UNKNOWN /\ (c, p, y) = (86, 0, 0)).
Proof.
  unfold getAreaNameByIp, getAreaCodeByIp, getAreaCodeStrByIp, getAreaByIp. intros E Hok.
  destruct (ipDataFind (ipip s) ip name_uninit) as [[n0 b0]| |]; [|done..]. cbn [mbind outcome_bind] in *.
  destruct (trim b0) as [[b1 n1]| |]; [|done..]. cbn [mbind outcome_bind] in *. injection E as ->.
  destruct (areaDict s !! nm) as [it|] eqn:Ed.
  - specialize (Hok it eq_refl). exists (country it), (province it), (city it). do 2 eexists.
    split_and!; [done|done|by apply area_text_read|done|]. left. by destruct it.
  - exists 86, 0, 0. do 2 eexists. split_and!; [done|done| |done|by right]. vm_compute. reflexivity.
Qed.

(** When the database file cannot be opened the manager still counts as started: no later
    request tries again, and every lookup of a dotted address then reads through a null
    pointer. *)
Theorem init_failure area :
  exists s', init None area ip_state0 = Val s'
    /\ (forall db area', getInstance db area' s' = Val s')
    /\ forall u, 0 <= u < 2 ^ 32 -> getAreaByIp s' (dotted u) = Undef.
Proof.
  eexists. split; [reflexivity|]. split; [done|]. intros u Hu.
  destruct (scan_quad_dotted u Hu) as (a & b & c & d & Eq & _ & Ha & Ev).
  unfold getAreaByIp, ipDataFind. cbn [ipip]. rewrite Eq. change (rd [a; b; c; d] 0) with (Val a).
  cbn [mbind outcome_bind]. rewrite Ev. cbn [mbind outcome_bind flag].
  unfold rd. destruct (a <? 0); [done|]. by destruct (Z.to_nat a).
Qed.

(** Restarting the manager on the same files restores it: destroying a started manager and
    initialising it again gives the same database and the same dictionary. *)
Theorem restart_same db area s :
  init db area ip_state0 = Val s -> offset (ipip s) <> 0 -> init db area (destroy s) = Val s.
Proof.
  unfold init. cbn [started ip_state0 ipip areaDict Z.eqb negb]. intros E Hoff. run_inv.
  destruct x as [r dbv]. unfold destroy.
  destruct (Z.ltb_spec r 0) as [Hr|Hr]; run_inv; cbn [started ipip areaDict] in *; change (1 =? 1) with true; cbn [negb].
  - (* the database file was not opened, or was empty *)
    unfold ipDataInit in H1. cbn in H1. destruct db as [content|]; [|by simplify_eq].
    destruct (length content =? 0)%nat; [by simplify_eq|]. exfalso. by run_inv; simplify_eq.
  - unfold ipDataDestroy. apply Z.eqb_neq in Hoff. rewrite Hoff.
    cbn [started ipip areaDict Z.eqb negb].
    change (mkIpip [] [] [] 0) with ipip_zero. rewrite H1. cbn [mbind outcome_bind].
    destruct (Z.ltb_spec r 0); [lia|]. rewrite (loadAreaData_again _ _ _ H2). done.
Qed.

(** Each of the three kinds of lines of the area file is read as it was meant, and a line
    without a tab or a space after the name makes the scan run past the buffer. *)
Theorem processAreaFileLine_spec nm c p y :
  Forall (fun x => x <> 0 /\ x <> 9 /\ x <> 32) nm ->
  0 <= c < 2 ^ 31 -> 0 <= p < 2 ^ 31 -> 0 <= y < 2 ^ 31 ->
  processAreaFileLine (nm ++ 9 :: to_string c ++ [10]) = Val (mkAreaItem nm c 0 0)
  /\ processAreaFileLine (nm ++ 9 :: to_string c ++ ch "-" :: to_string p ++ [10]) = Val (mkAreaItem nm c p 0)
  /\ processAreaFileLine (nm ++ 9 :: to_string c ++ ch "-" :: to_string p ++ ch "-" :: to_string y ++ [10])
     = Val (mkAreaItem nm c p y)
  /\ processAreaFileLine (nm ++ [10]) = Undef.
Proof.
  intros Hn Hc Hp Hy.
  assert (forall k t, 0 <= k -> no_nul t -> no_nul (to_string k ++ t)) as Hnn.
  { intros k t Hk Ht. apply Forall_app. split; [by apply to_string_no_nul|done]. }
  assert (no_nul [10]) as H10 by (by repeat constructor).
  assert (forall t, no_nul t -> no_nul (ch "-" :: t)) as Hd by (intros; by constructor).
  unfold processAreaFileLine. split_and!.
  1,2,3: edestruct area_line_name as (-> & -> & ->);
    [exact Hn|repeat first [exact H10|apply Hd|apply Hnn; [lia|]]|].
  1,2,3: repeat (rewrite to_dash_number by (lia || auto);
                 try (change (ch "-" =? 10) with false); try (change (10 =? 10) with true); cbv iota).
  1,2,3: by rewrite !atoi_number by (lia || done).
  rewrite c_str_id by (apply Forall_app; split; [eapply Forall_impl; [exact Hn|naive_solver]|done]).
  assert (skip_while (fun c => negb ((c =? 9) || (c =? 32))) (nm ++ [10]) = []) as ->; [|done].
  clear -Hn. induction Hn as [|x nm Hx _ IH]; [done|]. cbn [app skip_while].
  assert (negb ((x =? 9) || (x =? 32)) = true) as -> by lia. done.
Qed.
End theorems.

(** ** Concrete parameters *)

Module IpConcrete.
#[export] Instance ip_const : IpConst := { AREACODE_MARGIN := 1000000; IP_UNKNOWN := 0 }.
#[export] Instance ip_memory : IpMemory := { name_uninit := replicate 256 0; area_uninit := (0, 0, 0) }.
#[export] Instance ip_memory_laws : IpMemoryLaws ip_memory.
Proof. split. reflexivity. Qed.

(** A database of two entries: the addresses up to 10.0.0.0 are "cn", the rest "cn x". The
    texts follow the entries, 1024 bytes before the end the header gives. *)
Definition db_file : bytes :=
  [0; 0; 8; 20] ++ replicate 44 0 ++ concat (replicate 245 [1; 0; 0; 0])
  ++ [10; 0; 0; 0; 0; 0; 0; 2] ++ [255; 255; 255; 255; 2; 0; 0; 4] ++ str "cncn x" ++ replicate 1030 0.

Definition area_file : bytes := str "cn 86" ++ [10] ++ str "x 86-44" ++ [10].

Definition state1 : ip_state :=
  match init (Some db_file) (Some area_file) ip_state0 with Val s => s | _ => ip_state0 end.
End IpConcrete.
Import IpConcrete.

Lemma state1_entries i : is_entry (ipip state1) i <-> (i < 2)%nat.
Proof.
  unfold is_entry, entry_pos. change (offset (ipip state1)) with 2068. lia.
Qed.

Lemma state1_flag p v :
  flag (ipip state1) !! p = Some v -> (v = 0 \/ v = 1 /\ (11 <= p)%nat).
Proof.
  intros E. assert (p < 256)%nat as Hp.
  { apply lookup_lt_Some in E. by replace (length (flag (ipip state1))) with 256%nat in E by (vm_compute; reflexivity). }
  by_table 256%nat (fun p => match flag (ipip state1) !! Z.to_nat p with
                             | Some v => (v =? 0) || (v =? 1) && (11 <=? p) | None => false end).
  specialize (H (Z.of_nat p) ltac:(lia)). rewrite Nat2Z.id, E in H. lia.
Qed.

Lemma state1_db_ok : db_ok (ipip state1).
Proof.
  split.
  - vm_compute. split; congruence.
  - vm_compute. reflexivity.
  - assert (forallb (fun b => (0 <=? b) && (b <? 256)) (index (ipip state1)) = true) as E by (vm_compute; reflexivity).
    rewrite forallb_forall in E. apply Forall_forall. intros b Hb%list_elem_of_In. apply E in Hb. unfold is_byte. lia.
  - vm_compute. congruence.
  - intros i Hi%state1_entries. destruct i as [|[|]]; [vm_compute; congruence..|lia].
  - vm_compute. reflexivity.
  - intros p v Hv%state1_flag. destruct Hv as [->|[-> Hp]].
    + split_and!; [lia|lia|]. intros i Hi. lia.
    + split_and!; [lia|lia|]. intros i Hi _. assert (i = 0%nat) as -> by lia.
      change (entry_key (ipip state1) 0) with 0x0A000000. lia.
Qed.

Lemma getAreaNameByIp_spec_witness : getAreaNameByIp state1 (dotted 0xC8010203) = Val (str "cnx").
Proof.
  destruct (getAreaNameByIp_spec state1 0xC8010203 state1_db_ok ltac:(lia)) as [H _].
  rewrite (H 1%nat); [vm_compute; reflexivity|]. split_and!; [by apply state1_entries; lia|vm_compute; congruence|].
  intros j Hj. assert (j = 0%nat) as -> by lia. vm_compute. reflexivity.
Defined.

Lemma area_codes_agree_witness :
  exists c p y t code, getAreaCodeByIp state1 (str "200.1.2.3") = Val (c, p, y)
    /\ getAreaCodeStrByIp state1 (str "200.1.2.3") = Val t
    /\ extractAreaInfo t = Val (c, p, y) /\ getAreaByIp state1 (str "200.1.2.3") = Val code
    /\ (code = getAreaShortCode (mkAreaItem (str "cnx") c p y)
        \/ areaDict state1 !! str "cnx" = None /\ code = IP_UNKNOWN /\ (c, p, y) = (86, 0, 0)).
Proof.
  apply (area_codes_agree state1 (str "200.1.2.3") (str "cnx")); [vm_compute; reflexivity|].
  intros it E. assert (Some it = Some (mkAreaItem (str "cnx") 86 44 0)) as [= ->] by (rewrite <- E; vm_compute; reflexivity).
  vm_compute. intuition congruence.
Defined.

Lemma restart_same_witness : init (Some db_file) None (destroy (mkIpState (ipip state1) ∅ 1)) = Val (mkIpState (ipip state1) ∅ 1).
Proof.
  apply (restart_same (Some db_file) None (mkIpState (ipip state1) ∅ 1)); [vm_compute; reflexivity|vm_compute; congruence].
Defined.

Lemma processAreaFileLine_spec_witness :
  processAreaFileLine (str "x" ++ 9 :: to_string 86 ++ ch "-" :: to_string 440000 ++ [10])
  = Val (mkAreaItem (str "x") 86 440000 0).
Proof.
  destruct (processAreaFileLine_spec (str "x") 86 440000 0) as (_ & H & _);
    [repeat constructor; vm_compute; congruence|lia|lia|lia|exact H].
Defined.
