(* ===== verification/SizeMap.v ===== *)
(** * SizeMap: native creative sizes (core/core_ad_sizemap.cpp, core/core_ad_sizemap.h)

    [AdSizeMap] maps a requested size to the sizes of the templates that can fill it, per
    material type, and back.  The rows of the database are a parameter: those read before the
    end of the result set, or before the [SQLException] that makes the code fall back on its
    built in table. *)
From S2P Require Import Prelude.

Abbreviation size2 := (Z * Z)%type.

Definition MATERIAL_TYPE_PIC : Z := 0.
Definition MATERIAL_TYPE_VIDEO : Z := 1.

Record AdSizeMap := mkSizeMap {
  sizemap : gmap Z (gmap size2 (list size2));
  rsizemap : gmap size2 size2;
}.

(** The constructor. *)
Definition AdSizeMap_new : AdSizeMap :=
  mkSizeMap (<[MATERIAL_TYPE_VIDEO := ∅]> (<[MATERIAL_TYPE_PIC := ∅]> ∅)) ∅.

(** [sizemap[type]] creates an empty map for a new type; [insert] keeps an existing pair. *)
Definition add (k v : size2) (type : Z) (m : AdSizeMap) : AdSizeMap :=
  let tm := default ∅ (sizemap m !! type) in
  let tm := match tm !! k with
            | Some vs => <[k := vs ++ [v]]> tm
            | None => <[k := [v]]> tm
            end in
  mkSizeMap (<[type := tm]> (sizemap m))
    (match rsizemap m !! v with Some _ => rsizemap m | None => <[v := k]> (rsizemap m) end).

Definition get (m : AdSizeMap) (k : size2) (type : Z) : list size2 :=
  match sizemap m !! type with
  | None => [k]
  | Some tm => match tm !! k with Some vs => vs | None => [k] end
  end.

Definition rget (m : AdSizeMap) (k : size2) : size2 := default k (rsizemap m !! k).

(** The calls of [add] of [initStatic], in order. *)
Definition static_adds : list (size2 * size2 * Z) :=
  map (fun kv => (kv, MATERIAL_TYPE_PIC))
  [ ((270, 202), (1, 0)); ((240, 180), (1, 1)); ((360, 234), (1, 2)); ((228, 162), (1, 3));
    ((180, 92), (1, 4)); ((320, 150), (1, 5)); ((200, 100), (1, 6)); ((150, 200), (1, 7));
    ((200, 200), (1, 8)); ((72, 72), (1, 9)); ((160, 160), (1, 10)); ((200, 150), (1, 11));
    ((180, 100), (1, 12)); ((140, 88), (1, 13)); ((984, 328), (2, 0)); ((1200, 800), (2, 1));
    ((1280, 720), (2, 2)); ((1200, 627), (2, 3)); ((800, 1200), (2, 4)); ((640, 288), (2, 5));
    ((1000, 560), (2, 6)); ((480, 240), (2, 7)); ((640, 320), (2, 8)); ((1080, 540), (2, 9));
    ((656, 324), (2, 10)); ((750, 350), (2, 11)); ((900, 450), (2, 12)); ((600, 313), (2, 13));
    ((300, 250), (2, 14)); ((320, 568), (2, 15)); ((720, 240), (2, 16)); ((640, 290), (2, 17));
    ((200, 700), (2, 18)); ((720, 405), (2, 19)); ((720, 360), (2, 20)); ((720, 480), (2, 21));
    ((660, 220), (2, 22)); ((660, 1136), (2, 23)); ((660, 960), (2, 24)); ((320, 480), (2, 25));
    ((270, 202), (3, 0)); ((160, 160), (3, 1)) ]
  ++ [ ((984, 328), (4, 0), MATERIAL_TYPE_VIDEO) ].

Definition add_all (adds : list (size2 * size2 * Z)) (m : AdSizeMap) : AdSizeMap :=
  foldl (fun m a => add a.1.1 a.1.2 a.2 m) m adds.

Definition initStatic (m : AdSizeMap) : AdSizeMap := add_all static_adds m.

(** A result set: the rows [rwidth, rheight, width, height] fetched, and whether an
    [SQLException] ended it. *)
Record query_result := mkQuery { rows : list (Z * Z * Z * Z); sql_error : bool }.

(** The 64 bit columns become the [int]s of the pairs. *)
Definition row_add (r : Z * Z * Z * Z) : size2 * size2 * Z :=
  let '(rw, rh, w, h) := r in ((s32 rw, s32 rh), (s32 w, s32 h), MATERIAL_TYPE_PIC).

(** The static [instance_] and [started]. *)
Record size_state := mkSizeState { instance_ : AdSizeMap; started : Z }.

Definition size_state0 : size_state := mkSizeState AdSizeMap_new 0.

(** The flag is set before the table is read; the requests of a worker run one after the other, so none sees
    the time between. *)
Definition initFromDB (db : query_result) (s : size_state) : size_state :=
  if negb (started s =? 0) then s
  else
    let m := add_all (map row_add (rows db)) (instance_ s) in
    mkSizeState (if sql_error db then initStatic m else m) 1.

Definition getInstance (db : query_result) (s : size_state) : AdSizeMap * size_state :=
  let s := if started s =? 0 then initFromDB db s else s in (instance_ s, s).

(** ** The abstract map: the list of the additions *)

Definition hits (adds : list (size2 * size2 * Z)) (k : size2) (type : Z) : list size2 :=
  map (fun a => a.1.2) (filter (fun a => a.1.1 = k /\ a.2 = type) adds).

Definition owner (adds : list (size2 * size2 * Z)) (v : size2) : option size2 :=
  head (map (fun a => a.1.1) (filter (fun a => a.1.2 = v) adds)).

(** What the two maps hold after the additions. *)
Record represents (m : AdSizeMap) (adds : list (size2 * size2 * Z)) : Prop := {
  rp_get k type : default [] (default ∅ (sizemap m !! type) !! k) = hits adds k type;
  rp_ne k type vs : default ∅ (sizemap m !! type) !! k = Some vs -> vs <> [];
  rp_rget v : rsizemap m !! v = owner adds v;
}.

Lemma represents_new : represents AdSizeMap_new [].
Proof.
  assert (forall type k, default ∅ (sizemap AdSizeMap_new !! type) !! k = None) as E.
  { intros type k. unfold AdSizeMap_new. cbn [sizemap].
    destruct (decide (type = MATERIAL_TYPE_VIDEO)) as [->|]; [by rewrite lookup_insert_eq|].
    rewrite lookup_insert_ne by done.
    destruct (decide (type = MATERIAL_TYPE_PIC)) as [->|]; [by rewrite lookup_insert_eq|].
    by rewrite lookup_insert_ne, lookup_empty. }
  split; intros; rewrite ?E in *; done.
Qed.

Lemma hits_snoc adds k v t k' t' :
  hits (adds ++ [(k, v, t)]) k' t' = hits adds k' t' ++ (if decide (k = k' /\ t = t') then [v] else []).
Proof.
  unfold hits. rewrite filter_app, map_app. f_equal. rewrite filter_cons. cbn [fst snd].
  by destruct (decide (k = k' /\ t = t')).
Qed.

Lemma owner_snoc adds k v t v' :
  owner (adds ++ [(k, v, t)]) v'
  = match owner adds v' with Some x => Some x | None => if decide (v = v') then Some k else None end.
Proof.
  unfold owner. rewrite filter_app, map_app. destruct (filter _ adds); [|done]. cbn [map app head].
  rewrite filter_cons. cbn [fst snd]. by destruct (decide (v = v')).
Qed.

Lemma represents_add m adds k v t :
  represents m adds -> represents (add k v t m) (adds ++ [(k, v, t)]).
Proof.
  intros [Hg Hn Hr]. split.
  - intros k' t'. rewrite hits_snoc, <- Hg. unfold add. cbn [sizemap].
    destruct (decide (t = t')) as [<-|Ht].
    + rewrite lookup_insert_eq. cbn [from_option id].
      set (tm := default ∅ (sizemap m !! t)). destruct (decide (k = k')) as [<-|Hk].
      * rewrite decide_True by done. destruct (tm !! k) as [vs|]; by rewrite lookup_insert_eq.
      * rewrite decide_False by naive_solver. rewrite app_nil_r.
        destruct (tm !! k) as [vs|]; by rewrite lookup_insert_ne.
    + rewrite lookup_insert_ne by done. rewrite decide_False by naive_solver. by rewrite app_nil_r.
  - intros k' t' vs. unfold add. cbn [sizemap]. destruct (decide (t = t')) as [<-|Ht].
    + rewrite lookup_insert_eq. cbn [from_option id]. set (tm := default ∅ (sizemap m !! t)).
      destruct (decide (k = k')) as [<-|Hk].
      * destruct (tm !! k) as [ws|] eqn:E; rewrite lookup_insert_eq; intros [= <-]; [by destruct ws|done].
      * intros E. apply (Hn k' t). destruct (tm !! k) as [ws|]; by rewrite lookup_insert_ne in E.
    + rewrite lookup_insert_ne by done. apply Hn.
  - intros v'. rewrite owner_snoc. unfold add. cbn [rsizemap]. pose proof (Hr v) as Ev. pose proof (Hr v') as Ev'.
    destruct (rsizemap m !! v) as [x|] eqn:E.
    + rewrite Ev'. destruct (owner adds v') eqn:Eo; [done|]. rewrite decide_False; [done|]. intros ->. congruence.
    + destruct (decide (v = v')) as [->|Hne].
      * by rewrite lookup_insert_eq, <- Ev.
      * rewrite lookup_insert_ne, Ev' by done. by destruct (owner adds v').
Qed.

Lemma represents_add_all adds m adds0 :
  represents m adds0 -> represents (add_all adds m) (adds0 ++ adds).
Proof.
  revert m adds0. induction adds as [|[[k v] t] adds IH]; intros m adds0 H; [by rewrite app_nil_r|].
  cbn [add_all foldl fst snd]. rewrite cons_middle, app_assoc. by apply IH, represents_add.
Qed.

Lemma get_represents m adds k t :
  represents m adds -> get m k t = match hits adds k t with [] => [k] | vs => vs end.
Proof.
  intros [Hg Hn _]. rewrite <- Hg. unfold get. specialize (Hn k t). destruct (sizemap m !! t) as [tm|]; cbn [from_option id] in *.
  - destruct (tm !! k) as [vs|]; cbn [from_option id]; [|done]. specialize (Hn vs eq_refl). by destruct vs.
  - by rewrite lookup_empty.
Qed.

(** The map the service starts with, by what the database answered. *)
Definition loaded (db : query_result) : list (size2 * size2 * Z) :=
  map row_add (rows db) ++ (if sql_error db then static_adds else []).

Lemma getInstance_represents db : represents (getInstance db size_state0).1 (loaded db).
Proof.
  unfold getInstance, initFromDB, loaded. cbn [started size_state0 instance_ Z.eqb negb fst].
  pose proof (represents_add_all (map row_add (rows db)) _ _ represents_new) as H. simpl in H.
  destruct (sql_error db).
  - apply represents_add_all. exact H.
  - by rewrite app_nil_r.
Qed.

(** ** Theorems *)

(** C39: The size map refines the list of its additions: a lookup returns the template sizes
    added for that size and type, in order, or the size itself when there are none, and the
    reverse lookup the first size a template size was added for; once started, the map never
    changes, whatever the database answers later. *)
Theorem sizemap_refines db k t v db' :
  let m := (getInstance db size_state0).1 in
  get m k t = match hits (loaded db) k t with [] => [k] | vs => vs end
  /\ rget m v = default v (owner (loaded db) v)
  /\ (getInstance db' (getInstance db size_state0).2).1 = m.
Proof.
  pose proof (getInstance_represents db) as H. split_and!.
  - by apply get_represents.
  - unfold rget. by rewrite (rp_rget _ _ H).
  - done.
Qed.

(** The built in table is consistent: every template size it gives for a size and a type
    leads back to that size, so the two directions of the map agree when the database is not
    reachable. *)
Theorem static_roundtrip k t v :
  let m := (getInstance (mkQuery [] true) size_state0).1 in
  v ∈ get m k t -> v = k \/ rget m v = k.
Proof.
  intros m Hv. pose proof (getInstance_represents (mkQuery [] true)) as H. fold m in H.
  change (loaded (mkQuery [] true)) with static_adds in H.
  rewrite (get_represents _ _ _ _ H) in Hv. unfold rget. rewrite (rp_rget _ _ H).
  destruct (hits static_adds k t) as [|v0 vs] eqn:E; [left; by apply list_elem_of_singleton in Hv|right].
  rewrite <- E in Hv. unfold hits in Hv. apply list_elem_of_fmap in Hv as ([[k' v'] t'] & -> & Hin).
  apply list_elem_of_filter in Hin as [[E1 E2] Hin]. cbn [fst snd] in *. subst k' t'.
  assert (forall a, a ∈ static_adds -> owner static_adds a.1.2 = Some a.1.1) as Ho; [|specialize (Ho _ Hin); cbn [fst snd] in *; by rewrite Ho].
  apply Forall_forall. by_decide.
Qed.

Lemma static_roundtrip_witness :
  let m := (getInstance (mkQuery [] true) size_state0).1 in
  (3, 0) ∈ get m (270, 202) MATERIAL_TYPE_PIC /\ ((3, 0) = (270, 202) \/ rget m (3, 0) = (270, 202)).
Proof.
  cbv zeta. assert ((3, 0) ∈ get (getInstance (mkQuery [] true) size_state0).1 (270, 202) MATERIAL_TYPE_PIC) as H by by_decide.
  split; [exact H|]. exact (static_roundtrip (270, 202) MATERIAL_TYPE_PIC (3, 0) H).
Defined.
