(* ===== verification/TypeTable.v ===== *)
(** * TypeTable: content categories (core/core_typetable.cpp)

    [TypeTableManager] maps the content category of an exchange to a common one.  The table
    comes from the database, or, when that throws, from a file of [adx|category|common] lines.
    The rows fetched, and whether an [SQLException] ended them, are a parameter. *)
From S2P Require Import Prelude CString.

Record ContenttypeItem := mkContenttype {
  adxid : Z; adxContentType : bytes; mttyContentType : Z;
}.

(** [std::map<std::string, ContenttypeItem>] *)
Abbreviation ContentTypeDict := (gmap bytes ContenttypeItem).

Definition processContentTypeDictFile (line : bytes) : outcome ContenttypeItem :=
  match split_on (fun c => c =? ch "|") (c_str line) with
  | [t0; t1; t2] => a ← stoi t0; m ← stoi t2; Val (mkContenttype a t1 m)
  | _ => Exc (CharPtr "process ContentType Dict File")
  end.

Definition type_key (adx : Z) (category : bytes) : bytes := to_string adx ++ ch ":" :: category.

(** The rows [adxid, adx_category_id, common_category_id] of the result set. *)
Record type_query := mkTypeQuery { rows : list (Z * bytes * bytes); sql_error : bool }.

(** The column is a 64 bit number; the item keeps it as an [int], the key does not. *)
Fixpoint load_rows (rs : list (Z * bytes * bytes)) (d : ContentTypeDict) : outcome ContentTypeDict :=
  match rs with
  | [] => Val d
  | (adxId, adxCategory, ourCategory) :: rs =>
    m ← stoi ourCategory;
    load_rows rs (insert_new (type_key adxId adxCategory) (mkContenttype (s32 adxId) adxCategory m) d)
  end.

Fixpoint load_file_lines (ls : list bytes) (d : ContentTypeDict) : outcome ContentTypeDict :=
  match ls with
  | [] => Val d
  | l :: ls => item ← processContentTypeDictFile l;
               load_file_lines ls (insert_new (type_key (adxid item) (adxContentType item)) item d)
  end.

(** The rows read before an exception stay in the dictionary. An exception of [std::stoi] is
    not an [SQLException] and leaves the function. *)
Definition loadContentTypeData (db : type_query) (contenttypefile : option bytes) (d : ContentTypeDict)
    : outcome ContentTypeDict :=
  d ← load_rows (rows db) d;
  if sql_error db then
    match contenttypefile with
    | None => Val d
    | Some content => load_file_lines (fgets_all (length content) content) d
    end
  else Val d.

Record type_state := mkTypeState { contentTypeDict : ContentTypeDict; started : Z }.

Definition type_state0 : type_state := mkTypeState ∅ 0.

Definition init (db : type_query) (file : option bytes) (s : type_state) : outcome type_state :=
  if negb (started s =? 0) then Val s
  else d ← loadContentTypeData db file (contentTypeDict s); Val (mkTypeState d 1).

Definition destroy (s : type_state) : type_state :=
  if negb (started s =? 1) then s else mkTypeState (contentTypeDict s) 0.

Definition getInstance (db : type_query) (file : option bytes) (s : type_state) : outcome type_state :=
  if started s =? 0 then init db file s else Val s.

Definition getContentType (s : type_state) (adxId : Z) (category : bytes) : Z :=
  match contentTypeDict s !! type_key adxId category with
  | Some item => mttyContentType item
  | None => 0
  end.

(** ** Lemmas *)

Lemma to_string_inj m n : INT_MIN <= m <= LONG_MAX -> INT_MIN <= n <= LONG_MAX -> to_string m = to_string n -> m = n.
Proof.
  unfold INT_MIN, LONG_MAX. intros Hm Hn E.
  pose proof (sto_to_string (- 2 ^ 63) (2 ^ 63) m ltac:(lia)) as E1.
  pose proof (sto_to_string (- 2 ^ 63) (2 ^ 63) n ltac:(lia)) as E2. congruence.
Qed.

(** The key determines the exchange and the category. *)
Lemma type_key_inj a c a' c' :
  INT_MIN <= a <= LONG_MAX -> INT_MIN <= a' <= LONG_MAX -> type_key a c = type_key a' c' -> a = a' /\ c = c'.
Proof.
  intros Ha Ha' E. unfold type_key in E.
  assert (forall s s' t t' : bytes, Forall (fun c => (c =? ch ":") = false) s ->
    Forall (fun c => (c =? ch ":") = false) s' -> s ++ ch ":" :: t = s' ++ ch ":" :: t' -> s = s' /\ t = t') as Hs.
  { clear. intros s s' t t' Hs. revert s'. induction Hs as [|x s Hx _ IH]; intros s' Hs' E; destruct Hs' as [|x' s' Hx' Hs'].
    - simplify_eq. done.
    - injection E as <- _. done.
    - injection E as -> _. done.
    - injection E as -> E. destruct (IH s' Hs' E) as [-> ->]. done. }
  apply Hs in E as [E ->]; [|by apply to_string_none..]. split; [|done]. by apply to_string_inj.
Qed.

(** ** The abstract table: the first row of a pair *)

Definition first_row (rs : list (Z * bytes * Z)) (adx : Z) (category : bytes) : option Z :=
  head (map snd (filter (fun r => r.1 = (adx, category)) rs)).

(** A row as the database returns it. *)
Definition row_of (r : Z * bytes * Z) : Z * bytes * bytes := (r.1.1, r.1.2, to_string r.2).

Definition row_ok (r : Z * bytes * Z) : Prop := INT_MIN <= r.1.1 <= INT_MAX /\ INT_MIN <= r.2 <= INT_MAX.

(** The dictionary holds the first row of each pair, on top of [d0]. *)
Definition table_of (rs : list (Z * bytes * Z)) (d : ContentTypeDict) : Prop :=
  forall adx category, INT_MIN <= adx <= INT_MAX ->
    mttyContentType <$> d !! type_key adx category = first_row rs adx category.

Lemma table_insert rs d r item :
  table_of rs d -> row_ok r -> mttyContentType item = r.2 ->
  table_of (rs ++ [r]) (insert_new (type_key r.1.1 r.1.2) item d).
Proof.
  destruct r as [[adx cat] v]. intros Ht [Ha _] Em adx' cat' Ha'. cbn [fst snd] in *. unfold INT_MIN, INT_MAX in *.
  rewrite insert_new_lookup. unfold first_row. rewrite filter_app, map_app, filter_cons. cbn [fst].
  specialize (Ht adx' cat' Ha'). unfold first_row in Ht. case_decide as Hk.
  - apply type_key_inj in Hk as [-> ->]; [|unfold INT_MIN, LONG_MAX; lia..].
    rewrite decide_True by done. revert Ht. destruct (d !! type_key adx' cat') as [it|]; cbn [from_option id fmap option_fmap option_map].
    + destruct (filter _ rs); done.
    + intros Ht. destruct (filter _ rs); [|done]. cbn. by rewrite Em.
  - rewrite decide_False by congruence. rewrite filter_nil. cbn [map]. by rewrite app_nil_r.
Qed.

Lemma load_rows_ok rs d rs0 :
  table_of rs0 d -> Forall row_ok rs ->
  exists d', load_rows (map row_of rs) d = Val d' /\ table_of (rs0 ++ rs) d'.
Proof.
  intros Ht Hr. revert d rs0 Ht. induction Hr as [|r rs Hr _ IH]; intros d rs0 Ht.
  - exists d. by rewrite app_nil_r.
  - cbn [map load_rows]. destruct r as [[adx cat] v]. cbn [row_of fst snd].
    unfold stoi. rewrite sto_to_string by apply Hr. cbn [mbind outcome_bind].
    rewrite cons_middle, app_assoc. apply IH. by apply (table_insert rs0 d (adx, cat, v)).
Qed.

(** ** The file *)

Definition line_of (r : Z * bytes * Z) : bytes :=
  to_string r.1.1 ++ ch "|" :: r.1.2 ++ ch "|" :: to_string r.2 ++ [10].

Definition file_of (rs : list (Z * bytes * Z)) : bytes := concat (map line_of rs).

(** What a category may hold in the file, and how long a line may be. *)
Definition line_ok (r : Z * bytes * Z) : Prop :=
  row_ok r /\ Forall (fun c => c <> 0 /\ c <> 10 /\ c <> ch "|") r.1.2 /\ (length (line_of r) <= 255)%nat.

Lemma to_string_plain n : no_nul (to_string n).
Proof.
  assert (Forall (fun c => (c =? 0) = false) (to_string n)) as H by by apply to_string_none.
  eapply Forall_impl; [exact H|]. intros c. apply Z.eqb_neq.
Qed.

Lemma process_line r :
  line_ok r -> processContentTypeDictFile (line_of r) = Val (mkContenttype r.1.1 r.1.2 r.2).
Proof.
  intros ([Ha Hv] & Hc & _). destruct r as [[adx cat] v]. cbn [fst snd] in *. unfold processContentTypeDictFile, line_of.
  cbn [fst snd]. rewrite c_str_id.
  2:{ unfold no_nul. rewrite Forall_app, Forall_cons, Forall_app, Forall_cons, Forall_app.
      split_and!; try apply to_string_plain; try done; [|by repeat constructor].
      eapply Forall_impl; [exact Hc|naive_solver]. }
  rewrite split_on_delim by (by apply to_string_none || done).
  rewrite split_on_delim; [|eapply Forall_impl; [exact Hc|]; intros c (_ & _ & H); by apply Z.eqb_neq|done].
  rewrite split_on_none by (apply Forall_app; split; [by apply to_string_none|by repeat constructor]).
  unfold stoi. rewrite sto_to_string by done. cbn [mbind outcome_bind].
  by rewrite sto_number.
Qed.

(** [fgets] returns the lines of the file. *)
Lemma fgets_lines rs fuel :
  Forall line_ok rs -> (length (file_of rs) <= fuel)%nat -> fgets_all fuel (file_of rs) = map line_of rs.
Proof.
  intros Hr. revert fuel. induction Hr as [|r rs (_ & Hc & Hl) _ IH]; intros fuel Hf; [by destruct fuel|].
  unfold file_of in *. cbn [map concat] in *. set (rest := concat (map line_of rs)) in *.
  set (body := to_string r.1.1 ++ ch "|" :: r.1.2 ++ ch "|" :: to_string r.2).
  assert (line_of r = body ++ [10]) as El by (unfold line_of, body; rewrite <- !app_assoc; cbn [app]; by rewrite <- app_assoc).
  rewrite El in *. rewrite !length_app in *. simpl length in *.
  assert (Forall (fun c => negb (c =? 10) = true) body) as Hb.
  { assert (Forall (fun c => (c =? 10) = false) body) as Hb.
    { unfold body. rewrite Forall_app, Forall_cons, Forall_app, Forall_cons.
      split_and!; try (by apply to_string_none); try done.
      eapply Forall_impl; [exact Hc|]. intros c (_ & H & _). by apply Z.eqb_neq. }
    eapply Forall_impl; [exact Hb|]. intros c Hc'. simpl in Hc'. by rewrite Hc'. }
  destruct fuel as [|fuel]; [lia|]. cbn [fgets_all]. rewrite <- app_assoc. cbn [app].
  assert (take_while (fun c => negb (c =? 10)) (body ++ 10 :: rest) = body) as Et.
  { rewrite take_while_app by done. simpl. apply app_nil_r. }
  destruct (body ++ 10 :: rest) as [|c l] eqn:E; [by destruct body|]. rewrite <- E in *. rewrite Et.
  rewrite Nat.min_r by lia.
  assert (S (length body) = length (body ++ [10])) as Es by (rewrite length_app; simpl; lia).
  assert (body ++ 10 :: rest = (body ++ [10]) ++ rest) as -> by by rewrite <- app_assoc.
  rewrite Es, take_app_length, drop_app_length. f_equal. apply IH. lia.
Qed.

Lemma load_lines_ok rs d rs0 :
  table_of rs0 d -> Forall line_ok rs ->
  exists d', load_file_lines (map line_of rs) d = Val d' /\ table_of (rs0 ++ rs) d'.
Proof.
  intros Ht Hr. revert d rs0 Ht. induction Hr as [|r rs Hr _ IH]; intros d rs0 Ht.
  - exists d. by rewrite app_nil_r.
  - cbn [map load_file_lines]. rewrite process_line by done. cbn [mbind outcome_bind adxid adxContentType].
    rewrite cons_middle, app_assoc. apply IH. apply table_insert; [done|apply Hr|done].
Qed.

Lemma table_empty : table_of [] ∅.
Proof. intros adx category _. by rewrite lookup_empty. Qed.

Lemma getContentType_table s rs adx category :
  table_of rs (contentTypeDict s) -> INT_MIN <= adx <= INT_MAX ->
  getContentType s adx category = default 0 (first_row rs adx category).
Proof.
  intros Ht Ha. rewrite <- Ht by done. unfold getContentType.
  by destruct (contentTypeDict s !! type_key adx category).
Qed.

(** ** Theorems *)

(** Whatever source the table came from (the database; the file, when the first query
    throws; or the file after part of the rows), a category is mapped to the value of the
    first row of its exchange and category, and to 0 when there is none; the key built from the
    two never confuses two pairs, and loading does not run again once started. *)
Theorem getContentType_spec rs fs failed :
  Forall row_ok rs -> Forall line_ok fs ->
  exists s, getInstance (mkTypeQuery (map row_of rs) failed) (Some (file_of fs)) type_state0 = Val s
    /\ (forall adx category, INT_MIN <= adx <= INT_MAX ->
        getContentType s adx category
        = default 0 (first_row (rs ++ if failed then fs else []) adx category))
    /\ forall db file, getInstance db file s = Val s.
Proof.
  intros Hr Hf. unfold getInstance, init, loadContentTypeData.
  cbn [started type_state0 contentTypeDict rows sql_error Z.eqb negb].
  destruct (load_rows_ok rs ∅ [] table_empty Hr) as (d & -> & Hd). cbn [mbind outcome_bind app] in *.
  destruct failed.
  - rewrite fgets_lines by (done || lia).
    destruct (load_lines_ok fs d rs Hd Hf) as (d' & -> & Hd'). cbn [mbind outcome_bind].
    eexists. split_and!; [reflexivity| |done]. intros adx category Ha. by apply getContentType_table.
  - eexists. split_and!; [reflexivity| |done]. intros adx category Ha. rewrite app_nil_r. by apply getContentType_table.
Qed.

Definition rows1 : list (Z * bytes * Z) := [(1, str "12", 40); (1, str "2", 41); (12, str "", 7)].

Lemma getContentType_spec_witness :
  exists s, getInstance (mkTypeQuery [] true) (Some (file_of rows1)) type_state0 = Val s
    /\ getContentType s 1 (str "2") = 41 /\ getContentType s 12 (str "") = 7 /\ getContentType s 2 (str "2") = 0.
Proof.
  destruct (getContentType_spec [] rows1 true) as (s & E & H & _).
  - constructor.
  - repeat constructor; vm_compute; congruence.
  - exists s. split; [exact E|]. rewrite !H by by_decide. split; [|split]; vm_compute; reflexivity.
Defined.
