(* ===== verification/Template.v ===== *)
(** * Template: the template engine (utility/template_engine.cpp, utility/file.cpp)

    [TemplateEngine] finds the [${name}] parameters of a text once ([compile]) and then
    substitutes them ([bind], and [bindFast] into a buffer sized in advance).  Files are their
    contents; the regular expression search of boost is a parameter. *)
From S2P Require Import Prelude CString.

(** ** Files *)

(** The lines the [getline] loop returns; the last one ends at the end of the file. *)
Definition file_lines (content : bytes) : list bytes := split_on (fun c => c =? 10) content.

(** [loadFile(buffer, path)]: the text written to the buffer, terminator included; [None]
    when nothing is written. *)
Definition loadFile_buf (file : option bytes) : option bytes :=
  match file with None => None | Some content => Some (concat (file_lines content) ++ [0]) end.

Definition loadFile (file : option bytes) : bytes :=
  match file with None => [] | Some content => concat (map (fun l => l ++ [10]) (file_lines content)) end.

(** ** Templates *)

Record TemplateParam := mkParam { pos : Z; param : bytes }.

Definition someCharacter (c : Z) : bool :=
  let c := schar c in
  (48 <=? c) && (c <=? 57) || (65 <=? c) && (c <=? 90) || (97 <=? c) && (c <=? 122)
  || (c =? ch "_") || (c =? ch ".").

Definition inRegexpCharset (c : Z) : bool :=
  existsb (Z.eqb c) (str ".{}[]()\|").

Record TemplateEngine := mkEngine {
  params : list TemplateParam; templateFileContent : bytes; templateRegexp : bytes;
}.

(** The text of the string literal for one parameter. *)
Definition param_regexp : bytes := str "(\s*.+\s*)".

(** [p] is the position of the head of [rest]; [paramStart] is the start of the name being read. *)
Fixpoint compile_loop (text rest : bytes) (p : nat) (paramStart : option nat)
    (ps : list TemplateParam) (ss : bytes) : option nat * list TemplateParam * bytes :=
  match rest with
  | [] => (paramStart, ps, ss)
  | c :: rest' =>
    match paramStart with
    | Some st =>
      if c =? ch "}" then
        compile_loop text rest' (S p) None
          (ps ++ [mkParam (Z.of_nat st - 2) (slice text st p)]) (ss ++ param_regexp)
      else if negb (someCharacter c) then
        compile_loop text rest' (S p) None ps (ss ++ slice text (st - 2) (S p))
      else compile_loop text rest' (S p) (Some st) ps ss
    | None =>
      let plain := compile_loop text rest' (S p) None ps
                     (ss ++ (if inRegexpCharset c then str "\" else []) ++ [c]) in
      match rest' with
      | c1 :: rest'' =>
        if (c =? ch "$") && (c1 =? ch "{") then compile_loop text rest'' (S (S p)) (Some (S (S p))) ps ss
        else plain
      | [] => plain
      end
    end
  end.

Definition compile (content : bytes) : outcome TemplateEngine :=
  let text := c_str content in
  let '(paramStart, ps, ss) := compile_loop text text 0 None [] [] in
  match paramStart with
  | Some _ => Exc (CharPtr "TemplateEngine: there's no bracket ending the quote param at the end")
  | None => Val (mkEngine ps content ss)
  end.

(** The constructor. *)
Definition TemplateEngine_new (file : option bytes) : outcome TemplateEngine := compile (loadFile file).

(** [std::unordered_map<std::string, std::string>] *)
Abbreviation ParamMap := (gmap bytes bytes).

Definition INT_SENTINEL : Z := 0x7FFFFFFF.

(** The parameter after the current one; past the last the position is the sentinel and the
    name stays. *)
Definition next_param (cur : TemplateParam) (rest : list TemplateParam) : TemplateParam * list TemplateParam :=
  match rest with p :: rest => (p, rest) | [] => (mkParam INT_SENTINEL (param cur), []) end.

Definition first_param (ps : list TemplateParam) : TemplateParam * list TemplateParam :=
  next_param (mkParam INT_SENTINEL []) ps.

(** [p] is the rest of the text; every round but the last consumes three bytes or more of it. *)
Fixpoint bind_loop (fuel : nat) (m : ParamMap) (p : bytes) (ps_pos : Z) (cur : TemplateParam)
    (rest : list TemplateParam) (ss : bytes) : outcome bytes :=
  let n := Z.to_nat (Z.min (pos cur - ps_pos) (Z.of_nat (length p))) in
  let ss := ss ++ take n p in
  match fuel, drop n p with
  | _, [] => Val ss
  | O, _ => Undef
  | S fuel, p =>
    let ss := ss ++ default [] (m !! param cur) in
    let skip := (length (param cur) + 3)%nat in
    check (skip <=? length p)%nat;;
    let '(cur', rest) := next_param cur rest in
    bind_loop fuel m (drop skip p) (ps_pos + Z.of_nat n + Z.of_nat skip) cur' rest ss
  end.

Definition bind (te : TemplateEngine) (m : ParamMap) : outcome bytes :=
  let text := c_str (templateFileContent te) in
  let '(cur, rest) := first_param (params te) in
  bind_loop (S (length text)) m text 0 cur rest [].

(** ** bindFast *)

(** [*out++ = b], within the [cap] bytes of the resized output. *)
Fixpoint write (cap : Z) (bs out : bytes) : outcome bytes :=
  match bs with
  | [] => Val out
  | b :: bs => check (Z.of_nat (length out) <? cap);; write cap bs (out ++ [b])
  end.

Fixpoint bindFast_loop (fuel : nat) (cap : Z) (m : ParamMap) (p : bytes) (ps_pos : Z) (cur : TemplateParam)
    (rest : list TemplateParam) (out : bytes) : outcome bytes :=
  let n := Z.to_nat (Z.min (pos cur - ps_pos) (Z.of_nat (length p))) in
  out ← write cap (take n p) out;
  match fuel, drop n p with
  | _, [] => Val out
  | O, _ => Undef
  | S fuel, p =>
    out ← write cap (default [] (m !! param cur)) out;
    let skip := (length (param cur) + 3)%nat in
    check (skip <=? length p)%nat;;
    let '(cur', rest) := next_param cur rest in
    bindFast_loop fuel cap m (drop skip p) (ps_pos + Z.of_nat n + Z.of_nat skip) cur' rest out
  end.

(** The values of all parameters of the map, used or not, each once. *)
Definition values_size (m : ParamMap) : Z :=
  foldr (fun kv n => Z.of_nat (length kv.2) + n) 0 (map_to_list m).

(** [resize] of a negative size throws. *)
Definition bindFast (te : TemplateEngine) (m : ParamMap) : outcome bytes :=
  let size := s32 (Z.of_nat (length (templateFileContent te)) + values_size m) in
  if size + 1 <? 0 then Exc (RuntimeError "basic_string::resize")
  else
    let text := c_str (templateFileContent te) in
    let '(cur, rest) := first_param (params te) in
    bindFast_loop (S (length text)) (size + 1) m text 0 cur rest [].

(** ** getVariables *)

(** [boost::regex_search]: the whole match and the groups. *)
Class Regex := { regex_search : bytes -> bytes -> option (list bytes) }.

Fixpoint variables_loop (ps : list TemplateParam) (i : Z) (ms : list bytes) (result : ParamMap) : outcome ParamMap :=
  match ms with
  | [] => Val result
  | mt :: ms => p ← rd ps i; variables_loop ps (i + 1) ms (insert_new (param p) mt result)
  end.

Definition getVariables `{Regex} (te : TemplateEngine) (shadowFile : option bytes) : outcome ParamMap :=
  match regex_search (loadFile shadowFile) (templateRegexp te) with
  | Some ms =>
    if negb (length ms =? length (params te) + 1)%nat then Val ∅
    else variables_loop (params te) 0 ms ∅
  | None => Exc (CharPtr "shadowFile not match template")
  end.

(** ** Well formed templates *)

Inductive segment : Type := Lit (t : bytes) | Var (name : bytes).

Definition seg_text (s : segment) : bytes :=
  match s with Lit t => t | Var n => ch "$" :: ch "{" :: n ++ [ch "}"] end.

Definition text_of (segs : list segment) : bytes := concat (map seg_text segs).

Definition seg_ok (s : segment) : Prop :=
  match s with
  | Lit t => Forall (fun c => c <> 0 /\ c <> ch "$") t
  | Var n => Forall (fun c => c <> 0 /\ someCharacter c = true) n
  end.

(** What a segment stands for: a parameter that the map lacks is dropped. *)
Definition seg_value (m : ParamMap) (s : segment) : bytes :=
  match s with Lit t => t | Var n => default [] (m !! n) end.

Definition value_of (m : ParamMap) (segs : list segment) : bytes := concat (map (seg_value m) segs).

(** The parameters of a text that starts at position [p]. *)
Fixpoint seg_params (p : nat) (segs : list segment) : list TemplateParam :=
  match segs with
  | [] => []
  | Lit t :: segs => seg_params (p + length t) segs
  | Var n :: segs => mkParam (Z.of_nat p) n :: seg_params (p + length n + 3) segs
  end.

Definition names (segs : list segment) : list bytes :=
  omap (fun s => match s with Var n => Some n | Lit _ => None end) segs.

(** ** Lemmas: compile *)

Lemma compile_lit text t rest p ps ss :
  Forall (fun c => c <> 0 /\ c <> ch "$") t ->
  exists ss', compile_loop text (t ++ rest) p None ps ss = compile_loop text rest (p + length t) None ps ss'.
Proof.
  intros Ht. revert p ss. induction Ht as [|c t [_ Hc] _ IH]; intros p ss.
  - exists ss. by rewrite Nat.add_0_r.
  - cbn [app compile_loop length]. apply Z.eqb_neq in Hc.
    edestruct (IH (S p)) as [ss' E]. exists ss'. rewrite <- Nat.add_succ_comm, <- E.
    destruct (t ++ rest); [reflexivity|]. rewrite Hc. reflexivity.
Qed.

Lemma compile_name text n rest p st ps ss :
  Forall (fun c => c <> 0 /\ someCharacter c = true) n ->
  compile_loop text (n ++ rest) p (Some st) ps ss = compile_loop text rest (p + length n) (Some st) ps ss.
Proof.
  intros Hn. revert p. induction Hn as [|c n [_ Hc] _ IH]; intros p; cbn [app length].
  - by rewrite Nat.add_0_r.
  - cbn [compile_loop]. destruct (Z.eqb_spec c (ch "}")) as [->|]; [done|]. rewrite Hc. cbn [negb].
    rewrite IH. f_equal. lia.
Qed.

Lemma compile_segs pre segs ps ss :
  Forall seg_ok segs ->
  exists ss', compile_loop (pre ++ text_of segs) (text_of segs) (length pre) None ps ss
              = (None, ps ++ seg_params (length pre) segs, ss').
Proof.
  intros Hs. revert pre ps ss. induction Hs as [|s segs Hs _ IH]; intros pre ps ss.
  - exists ss. simpl. by rewrite app_nil_r.
  - unfold text_of in *. cbn [map concat]. destruct s as [t|n]; cbn [seg_text seg_params] in *.
    + destruct (compile_lit (pre ++ t ++ concat (map seg_text segs)) t (concat (map seg_text segs)) (length pre) ps ss Hs)
        as [ss1 ->].
      rewrite app_assoc, <- length_app. apply IH.
    + set (rest := concat (map seg_text segs)) in *.
      set (text := pre ++ _).
      assert (text = (pre ++ [ch "$"; ch "{"]) ++ n ++ ch "}" :: rest) as Et
        by (unfold text; app_norm; done).
      cbn [app]. rewrite <- app_assoc. cbn [app compile_loop]. change ((ch "$" =? ch "$") && (ch "{" =? ch "{")) with true.
      cbv iota. rewrite compile_name by done. cbn [compile_loop]. change (ch "}" =? ch "}") with true. cbv iota.
      assert (slice text (S (S (length pre))) (S (S (length pre)) + length n) = n) as ->.
      { rewrite Et. apply slice_app_mid; rewrite length_app; simpl; lia. }
      replace (Z.of_nat (S (S (length pre))) - 2) with (Z.of_nat (length pre)) by lia.
      assert (text = (pre ++ ch "$" :: ch "{" :: n ++ [ch "}"]) ++ rest) as ->
        by (rewrite Et; app_norm; done).
      replace (S (S (S (length pre)) + length n)) with (length (pre ++ ch "$" :: ch "{" :: n ++ [ch "}"]))
        by (rewrite length_app; cbn [length]; rewrite length_app; simpl; lia).
      edestruct IH as [ss2 ->]. exists ss2. rewrite <- app_assoc. cbn [app]. do 4 f_equal.
      f_equal. rewrite length_app. cbn [length]. rewrite length_app. simpl. lia.
Qed.

Lemma text_no_nul segs : Forall seg_ok segs -> no_nul (text_of segs).
Proof.
  induction 1 as [|s segs Hs _ IH]; [constructor|]. unfold text_of in *. cbn [map concat].
  apply Forall_app. split; [|done]. destruct s; cbn [seg_text seg_ok] in *.
  - eapply Forall_impl; [exact Hs|naive_solver].
  - do 2 (constructor; [done|]). apply Forall_app. split; [|by repeat constructor].
    eapply Forall_impl; [exact Hs|naive_solver].
Qed.

Lemma compile_ok segs :
  Forall seg_ok segs ->
  exists rx, compile (text_of segs) = Val (mkEngine (seg_params 0 segs) (text_of segs) rx).
Proof.
  intros Hs. unfold compile. rewrite c_str_id by by apply text_no_nul.
  destruct (compile_segs [] segs [] [] Hs) as [rx E]. cbn [app length] in E. rewrite E. by exists rx.
Qed.

(** ** Lemmas: bind *)

Lemma bind_lit fuel m t p q cur rest ss :
  Z.of_nat (length t) <= pos cur - q ->
  bind_loop fuel m (t ++ p) q cur rest ss = bind_loop fuel m p (q + Z.of_nat (length t)) cur rest (ss ++ t).
Proof.
  intros Hp. set (k := Z.to_nat (Z.min (pos cur - (q + Z.of_nat (length t))) (Z.of_nat (length p)))).
  assert (Z.to_nat (Z.min (pos cur - q) (Z.of_nat (length (t ++ p)))) = length t + k)%nat as En
    by (unfold k; rewrite length_app; lia).
  destruct fuel; cbn [bind_loop]; rewrite En; fold k;
    rewrite take_app_add, drop_app_add, app_assoc; [done|].
  replace (q + Z.of_nat (length t + k)) with (q + Z.of_nat (length t) + Z.of_nat k) by lia. done.
Qed.

Lemma seg_params_pos p segs q rest : seg_params p segs = q :: rest -> Z.of_nat p <= pos q.
Proof.
  revert p. induction segs as [|[t|n] segs IH]; intros p; cbn [seg_params]; [done| |].
  - intros E%IH. lia.
  - intros [= <- _]. simpl. lia.
Qed.

Lemma next_param_pos c0 p segs :
  Z.of_nat p <= INT_SENTINEL -> Z.of_nat p <= pos (next_param c0 (seg_params p segs)).1.
Proof.
  intros Hp. unfold next_param. destruct (seg_params p segs) as [|q rest] eqn:E; [done|]. by apply seg_params_pos in E.
Qed.

Lemma bind_segs segs fuel m p c0 ss :
  (length (names segs) <= fuel)%nat -> Z.of_nat (p + length (text_of segs)) <= INT_SENTINEL ->
  (let '(cur, rest) := next_param c0 (seg_params p segs) in
   bind_loop fuel m (text_of segs) (Z.of_nat p) cur rest ss) = Val (ss ++ value_of m segs).
Proof.
  revert fuel p c0 ss. induction segs as [|s segs IH]; intros fuel p c0 ss Hf Hp.
  - cbn [seg_params next_param]. unfold text_of. cbn [map concat].
    destruct fuel; cbn [bind_loop]; by rewrite take_nil, drop_nil, !app_nil_r.
  - unfold text_of, value_of in *. cbn [map concat]. destruct s as [t|n]; cbn [seg_text seg_value seg_params] in *.
    + cbn [map concat] in Hp. rewrite length_app in Hp. cbn [seg_text] in Hp.
      pose proof (next_param_pos c0 (p + length t) segs ltac:(lia)) as Hc.
      specialize (IH fuel (p + length t)%nat c0 (ss ++ t)).
      destruct (next_param c0 (seg_params (p + length t) segs)) as [cur rest]. cbn [fst] in Hc.
      rewrite bind_lit by lia. replace (Z.of_nat p + Z.of_nat (length t)) with (Z.of_nat (p + length t)) by lia. rewrite IH by (done || lia). by rewrite <- app_assoc.
    + cbn [names omap list_omap length] in Hf. destruct fuel as [|fuel]; [lia|]. cbn [next_param].
      set (rest := concat (map seg_text segs)) in *. cbn [bind_loop pos param]. rewrite Z.sub_diag.
      replace (Z.to_nat (Z.min 0 _)) with 0%nat by lia. rewrite take_0, drop_0, app_nil_r. cbn [app].
      cbn [map concat] in Hp. cbn [seg_text app length] in Hp. rewrite !length_app in Hp. cbn [length] in Hp. fold rest in Hp.
      specialize (IH fuel (p + length n + 3)%nat (mkParam (Z.of_nat p) n) (ss ++ default [] (m !! n))).
      destruct (next_param _ (seg_params (p + length n + 3) segs)) as [cur ps].
      assert (drop (length n + 3) (ch "$" :: ch "{" :: (n ++ [ch "}"]) ++ rest) = rest) as ->.
      { replace (length n + 3)%nat with (length (ch "$" :: ch "{" :: n ++ [ch "}"])) by (simpl; rewrite length_app; simpl; lia).
        change (ch "$" :: ch "{" :: (n ++ [ch "}"]) ++ rest) with ((ch "$" :: ch "{" :: n ++ [ch "}"]) ++ rest).
        apply drop_app_length. }
      assert ((length n + 3 <=? length (ch "$" :: ch "{" :: (n ++ [ch "}"]) ++ rest))%nat = true) as ->
        by (apply Nat.leb_le; cbn [length]; rewrite !length_app; simpl; lia).
      cbn [check mbind outcome_bind].
      replace (Z.of_nat p + Z.of_nat 0 + Z.of_nat (length n + 3)) with (Z.of_nat (p + length n + 3)) by lia.
      rewrite IH by (unfold names in *; lia). by rewrite <- app_assoc.
Qed.

Lemma names_length segs : (length (names segs) <= length (text_of segs))%nat.
Proof.
  unfold names, text_of. induction segs as [|[t|n] segs IH]; cbn [map concat seg_text omap list_omap length]; [lia| |];
    rewrite ?length_app; cbn [length]; rewrite ?length_app; unfold omap in *; lia.
Qed.

Lemma bind_ok segs rx m :
  Forall seg_ok segs -> Z.of_nat (length (text_of segs)) <= INT_SENTINEL ->
  bind (mkEngine (seg_params 0 segs) (text_of segs) rx) m = Val (value_of m segs).
Proof.
  intros Hs Hl. unfold bind, first_param. cbn [templateFileContent params].
  rewrite c_str_id by by apply text_no_nul.
  pose proof (names_length segs).
  exact (bind_segs segs (S (length (text_of segs))) m 0 (mkParam INT_SENTINEL []) [] ltac:(lia) ltac:(lia)).
Qed.

(** ** Lemmas: bindFast *)

Lemma write_spec cap bs out :
  Z.of_nat (length out) <= cap ->
  write cap bs out = if Z.of_nat (length out + length bs) <=? cap then Val (out ++ bs) else Undef.
Proof.
  revert out. induction bs as [|b bs IH]; intros out Ho; cbn [write length].
  - rewrite app_nil_r. zcase; [done|lia].
  - unfold check. destruct (Z.ltb_spec (Z.of_nat (length out)) cap); cbn [mbind outcome_bind].
    + rewrite IH by (rewrite length_app; simpl; lia). rewrite length_app, <- app_assoc. simpl.
      replace (length out + 1 + length bs)%nat with (length out + S (length bs))%nat by lia. done.
    + zcase; [lia|done].
Qed.

Lemma bind_loop_extends fuel m p q cur rest ss r :
  bind_loop fuel m p q cur rest ss = Val r -> (length ss <= length r)%nat.
Proof.
  revert p q cur rest ss. induction fuel as [|fuel IH]; intros p q cur rest ss; cbn [bind_loop].
  - destruct (drop _ p); [|done]. intros [= <-]. rewrite length_app. lia.
  - destruct (drop _ p); [intros [= <-]; rewrite length_app; lia|].
    intros E. run_inv. destruct (next_param cur rest). apply IH in E. rewrite !length_app in E. lia.
Qed.

(** The two loops write the same bytes; the fast one as long as they fit. *)
Lemma bindFast_loop_spec fuel cap m p q cur rest ss r :
  bind_loop fuel m p q cur rest ss = Val r -> Z.of_nat (length ss) <= cap ->
  bindFast_loop fuel cap m p q cur rest ss = if Z.of_nat (length r) <=? cap then Val r else Undef.
Proof.
  revert p q cur rest ss. induction fuel as [|fuel IH]; intros p q cur rest ss; cbn [bind_loop bindFast_loop];
    set (n := Z.to_nat _); intros E Hs; rewrite write_spec by done.
  - destruct (drop n p) as [|c l]; [|done]. injection E as <-. rewrite length_app.
    by destruct (_ <=? cap).
  - destruct (drop n p) as [|c l].
    { clear IH. injection E as <-. rewrite length_app. by destruct (_ <=? cap). }
    run_inv. destruct (next_param cur rest) as [cur' rest'] eqn:En.
    pose proof (bind_loop_extends _ _ _ _ _ _ _ _ E) as Hr. rewrite !length_app in Hr.
    destruct (Z.leb_spec (Z.of_nat (length ss + length (take n p))) cap) as [H1|H1]; cbn [mbind outcome_bind].
    2:{ destruct (Z.leb_spec (Z.of_nat (length r)) cap); [lia|done]. }
    rewrite write_spec by (rewrite length_app; lia). rewrite length_app.
    destruct (Z.leb_spec (Z.of_nat (length ss + length (take n p) + length (default [] (m !! param cur)))) cap)
      as [H2|H2]; cbn [mbind outcome_bind].
    2:{ destruct (Z.leb_spec (Z.of_nat (length r)) cap); [lia|done]. }
    rewrite H. cbn [check mbind outcome_bind]. apply IH; [done|]. rewrite !length_app. lia.
Qed.

Lemma values_size_nonneg m : 0 <= values_size m.
Proof. unfold values_size. induction (map_to_list m); simpl; lia. Qed.

Lemma bindFast_spec te m r :
  bind te m = Val r -> Z.of_nat (length (templateFileContent te)) + values_size m < INT_SENTINEL ->
  bindFast te m
  = if Z.of_nat (length r) <=? Z.of_nat (length (templateFileContent te)) + values_size m + 1
    then Val r else Undef.
Proof.
  unfold bind, bindFast, INT_SENTINEL. intros E Hs. pose proof (values_size_nonneg m).
  rewrite swrap_small by lia. destruct (Z.ltb_spec (Z.of_nat (length (templateFileContent te)) + values_size m + 1) 0); [lia|].
  destruct (first_param (params te)) as [cur rest]. by rewrite (bindFast_loop_spec _ _ _ _ _ _ _ _ r E) by (simpl; lia).
Qed.

(** *** Distinct parameters never overflow the output *)

Lemma values_size_delete m n v :
  m !! n = Some v -> values_size m = Z.of_nat (length v) + values_size (delete n m).
Proof.
  intros E. unfold values_size.
  assert (forall l l' : list (bytes * bytes), l ≡ₚ l' ->
    foldr (fun kv s => Z.of_nat (length kv.2) + s) 0 l = foldr (fun kv s => Z.of_nat (length kv.2) + s) 0 l') as Hp.
  { induction 1; simpl; lia. }
  by rewrite <- (Hp _ _ (map_to_list_delete m n v E)).
Qed.

Lemma names_value_size m ns :
  NoDup ns -> foldr (fun n s => Z.of_nat (length (default [] (m !! n))) + s) 0 ns <= values_size m.
Proof.
  intros Hn. revert m. induction Hn as [|n ns Hni _ IH]; intros m; [apply values_size_nonneg|].
  cbn [foldr]. destruct (m !! n) as [v|] eqn:E; cbn [from_option id].
  - rewrite (values_size_delete m n v E). specialize (IH (delete n m)).
    assert (foldr (fun n s => Z.of_nat (length (default [] (m !! n))) + s) 0 ns
      = foldr (fun n' s => Z.of_nat (length (default [] (delete n m !! n'))) + s) 0 ns) as ->; [|lia].
    clear -Hni. induction ns as [|x ns IHs]; [done|]. apply not_elem_of_cons in Hni as [Hx Hni].
    cbn [foldr]. rewrite IHs, lookup_delete_ne by done. done.
  - specialize (IH m). simpl. lia.
Qed.

Lemma value_length m segs :
  Z.of_nat (length (value_of m segs))
  <= Z.of_nat (length (text_of segs)) + foldr (fun n s => Z.of_nat (length (default [] (m !! n))) + s) 0 (names segs).
Proof.
  unfold value_of, text_of, names. induction segs as [|[t|n] segs IH]; cbn [map concat seg_value seg_text omap list_omap foldr];
    rewrite ?length_app; cbn [length] in *; rewrite ?length_app; cbn [length]; unfold omap in *; lia.
Qed.

(** ** Theorems *)

(** A template of literal texts (without the dollar sign) and parameters compiles, and
    binding it gives the literals unchanged with every parameter replaced by its value, or by
    nothing when the map does not have it. *)
Theorem bind_substitutes segs m :
  Forall seg_ok segs -> Z.of_nat (length (text_of segs)) <= INT_SENTINEL ->
  exists te, compile (text_of segs) = Val te /\ bind te m = Val (value_of m segs).
Proof.
  intros Hs Hl. destruct (compile_ok segs Hs) as [rx E]. eexists. split; [exact E|]. by apply bind_ok.
Qed.

Definition segs1 : list segment := [Lit (str "port "); Var (str "nginx.port"); Lit (str "; "); Var (str "x")].

Definition map1 : ParamMap := {[ str "nginx.port" := str "8080" ]}.

Lemma bind_substitutes_witness :
  exists te, compile (text_of segs1) = Val te /\ bind te map1 = Val (str "port 8080; ").
Proof.
  destruct (bind_substitutes segs1 map1) as (te & E1 & E2).
  - repeat constructor; vm_compute; congruence.
  - vm_compute; congruence.
  - exists te. split; [exact E1|]. rewrite E2. vm_compute. reflexivity.
Defined.

(** The fast version agrees with the plain one whenever its output fits the string it
    sized in advance, the template plus each value once, and writes past the end of that
    string in every other case. *)
Theorem bindFast_equiv te m r :
  bind te m = Val r -> Z.of_nat (length (templateFileContent te)) + values_size m < INT_SENTINEL ->
  let room := Z.of_nat (length (templateFileContent te)) + values_size m + 1 in
  (Z.of_nat (length r) <= room -> bindFast te m = Val r)
  /\ (room < Z.of_nat (length r) -> bindFast te m = Undef).
Proof.
  intros E Hs room. rewrite (bindFast_spec te m r E Hs). fold room.
  split; intros; zcase; by try lia.
Qed.

Definition te1 : TemplateEngine := match compile (text_of segs1) with Val te => te | _ => mkEngine [] [] [] end.

Lemma bindFast_equiv_witness : bindFast te1 map1 = Val (str "port 8080; ").
Proof.
  apply (bindFast_equiv te1 map1 (str "port 8080; ")); vm_compute; congruence.
Defined.

(** When no parameter occurs twice in a template the output always fits, so the two
    versions are the same function. *)
Theorem bindFast_distinct segs m :
  Forall seg_ok segs -> NoDup (names segs) ->
  Z.of_nat (length (text_of segs)) + values_size m < INT_SENTINEL ->
  exists te, compile (text_of segs) = Val te /\ bindFast te m = Val (value_of m segs) /\ bindFast te m = bind te m.
Proof.
  intros Hs Hn Hl. pose proof (values_size_nonneg m). destruct (compile_ok segs Hs) as [rx E].
  eexists. split; [exact E|]. rewrite bind_ok by (done || lia).
  rewrite (bindFast_spec _ _ _ (bind_ok segs rx m Hs ltac:(lia))) by done. cbn [templateFileContent].
  pose proof (value_length m segs). pose proof (names_value_size m (names segs) Hn).
  zcase; [done|lia].
Qed.

Lemma bindFast_distinct_witness :
  exists te, compile (text_of segs1) = Val te /\ bindFast te map1 = Val (str "port 8080; ") /\ bindFast te map1 = bind te map1.
Proof.
  destruct (bindFast_distinct segs1 map1) as (te & E1 & E2 & E3).
  - repeat constructor; vm_compute; congruence.
  - by_decide.
  - vm_compute; reflexivity.
  - exists te. split; [exact E1|]. split; [rewrite E2; vm_compute; reflexivity|exact E3].
Defined.

(** With a parameter that occurs twice the sized output is too small: the second copy of a
    value longer than the placeholders runs past the end of the string, where [bind] returns
    the expected text. *)
Theorem bindFast_overflow :
  let m : ParamMap := {[ str "a" := str "0123456789" ]} in
  let run f := te ← compile (str "${a}${a}"); f te m in
  run bind = Val (str "01234567890123456789") /\ run bindFast = Undef.
Proof. split; vm_compute; reflexivity. Qed.

(** [getVariables] never returns the variables: when the search finds a match with as many
    groups as there are parameters, its loop reads one parameter past the last. *)
Theorem getVariables_undefined `{Regex} te file ms :
  regex_search (loadFile file) (templateRegexp te) = Some ms -> length ms = (length (params te) + 1)%nat ->
  getVariables te file = Undef.
Proof.
  intros E Hl. unfold getVariables. rewrite E, Hl, Nat.eqb_refl. cbn [negb].
  assert (forall ms i result, (length (params te) < Z.to_nat i + length ms)%nat -> 0 <= i <= Z.of_nat (length (params te)) ->
    variables_loop (params te) i ms result = Undef) as L; [|apply L; simpl; lia].
  clear. induction ms as [|mt ms IH]; intros i result Hi Hr; cbn [length variables_loop] in *; [lia|].
  destruct (rd (params te) i) as [p| |] eqn:E; cbn [mbind outcome_bind]; [|unfold rd in E; by repeat case_match|done].
  apply rd_Val_iff in E as [_ E%lookup_lt_Some]. apply IH; lia.
Qed.

#[local] Instance regex1 : Regex := { regex_search s _ := Some [s; str "8080"; str "1"] }.

Lemma getVariables_undefined_witness : getVariables te1 (Some (str "port 8080; 1")) = Undef.
Proof.
  apply (getVariables_undefined te1 (Some (str "port 8080; 1")) [str "port 8080; 1" ++ [10]; str "8080"; str "1"]);
    vm_compute; reflexivity.
Defined.
