(* ===== verification/LogPusher.v ===== *)
(** * LogPusher: where log records go (core/logpusher/log_pusher.h, log_pusher.cpp)

    A logger sends records to kafka, or in local mode queues tasks that append them to files.
    A failed send switches it to local mode and starts the one monitor thread, which retries the
    record.  Here are the loggers, their registry and [push] as one thread runs them when no other one
    interferes, which is how the tasks of the modules call them, and the task that writes the local
    files.  LogThreads.v takes the same functions apart into the steps between which other threads
    run.  What kafka answers, whether a thread or a file can be created and what time it is are
    arguments. *)
From S2P Require Import Prelude CString.

(** MTTY_SERVICE_LOGGER and DEFAULT_KAFKA_TOPIC, mtty/constants.h *)
Class LogConst := { MTTY_SERVICE_LOGGER : bytes; DEFAULT_KAFKA_TOPIC : bytes }.

Inductive SendResult : Set := SEND_OK | SEND_ERROR.

Record Message := mkMessage { topics : bytes; msg_bytes : bytes }.

Inductive LogProducerType : Set := LOG_DEFAULT | LOG_ALIYUN | LOG_KAFKA.

Abbreviation producer_id := nat.

(** [fresh] is the address of the new producer. *)
Definition createProducer (type : LogProducerType) (fresh : producer_id) : option producer_id :=
  match type with LOG_KAFKA => Some fresh | _ => None end.

(** [producer = None] is the null pointer; [tasks] are the records given to the executor. *)
Record LogPusher := mkPusher {
  loggerName : bytes;
  modeLocal : bool;
  producer : option producer_id;
  tasks : list bytes;
}.

(** The constructor and [initProducer]. *)
Definition initProducer (fresh : producer_id) (l : LogPusher) : LogPusher :=
  mkPusher (loggerName l) (modeLocal l) (createProducer LOG_KAFKA fresh) (tasks l).

Definition LogPusher_new (logger : bytes) (modeLocal : bool) (fresh : producer_id) : LogPusher :=
  let l := mkPusher logger modeLocal None [] in
  if negb modeLocal then initProducer fresh l else l.

Definition setWorkMode (workLocal : bool) (fresh : producer_id) (l : LogPusher) : LogPusher :=
  let l := if negb workLocal && negb (modeLocal l) && bool_decide (producer l = None)
           then initProducer fresh l else l in
  mkPusher (loggerName l) workLocal (producer l) (tasks l).

(** The static parameter of the monitor thread. *)
Record RemoteMonitorThreadParam := mkMonitorParam {
  m_producer : option producer_id; m_msg : Message; m_started : bool;
}.

(** The shared state: the loggers created so far, numbered; [logMap] has shared pointers to
    them.  [monitors] is the number of monitor threads that were created, [sent] the messages
    kafka accepted, [needRecover] the flag of each producer's delivery callback. *)
Abbreviation logger_id := nat.

Record log_state := mkLogState {
  loggers : list LogPusher;
  logMap : gmap bytes logger_id;
  monitor : RemoteMonitorThreadParam;
  monitors : nat;
  sent : list Message;
  needRecover : gmap producer_id bool;
}.

Definition set_logger (i : logger_id) (l : LogPusher) (s : log_state) : log_state :=
  mkLogState (<[i := l]> (loggers s)) (logMap s) (monitor s) (monitors s) (sent s) (needRecover s).
Definition set_monitor (p : RemoteMonitorThreadParam) (ms : nat) (s : log_state) : log_state :=
  mkLogState (loggers s) (logMap s) p ms (sent s) (needRecover s).
Definition add_sent (m : Message) (s : log_state) : log_state :=
  mkLogState (loggers s) (logMap s) (monitor s) (monitors s) (sent s ++ [m]) (needRecover s).
Definition set_recover (p : producer_id) (b : bool) (s : log_state) : log_state :=
  mkLogState (loggers s) (logMap s) (monitor s) (monitors s) (sent s) (<[p := b]> (needRecover s)).

Definition log_state0 : log_state := mkLogState [] ∅ (mkMonitorParam None (mkMessage [] []) false) 0 [] ∅.

(** Returns the logger's number. *)
Definition getLogger (n : bytes) (logLocal : bool) (fresh : producer_id) (s : log_state) : logger_id * log_state :=
  match logMap s !! n with
  | Some i => (i, s)
  | None =>
    let i := length (loggers s) in
    (i, mkLogState (loggers s ++ [LogPusher_new n logLocal fresh]) (<[n := i]> (logMap s))
          (monitor s) (monitors s) (sent s) (needRecover s))
  end.

(** [created]: the result of [pthread_create]; when it fails the flag stays set. *)
Definition startRemoteMonitor (l : LogPusher) (msg : Message) (created : bool) (s : log_state) : log_state :=
  if m_started (monitor s) then s
  else
    let p := mkMonitorParam (producer l) msg true in
    set_monitor p (if created then S (monitors s) else monitors s) s.

Section handlers.
Context `{LogConst}.

(** [push] on logger [i]; [r] is the answer of the producer. *)
Definition push (i : logger_id) (log : bytes) (important : bool) (r : SendResult) (created : bool)
    (fresh : producer_id) (s : log_state) : outcome log_state :=
  match loggers s !! i with
  | None => Undef
  | Some l =>
    if negb (modeLocal l) then
      let msg := mkMessage DEFAULT_KAFKA_TOPIC log in
      match producer l with
      | None => Undef
      | Some _ =>
        match r with
        | SEND_OK => Val (add_sent msg s)
        | SEND_ERROR =>
          let l := setWorkMode true fresh l in
          Val (startRemoteMonitor l msg created (set_logger i l s))
        end
      end
    else if important
    then Val (set_logger i (mkPusher (loggerName l) (modeLocal l) (producer l) (tasks l ++ [log])) s)
    else Val s
  end.

End handlers.

(** ** The local files *)

(** A [FILE *]: null, open on file number [k], or closed. *)
Inductive file_ptr : Set := FNull | FOpen (k : nat) | FClosed (k : nat).

Record LogPushLocalThreadData := mkThreadData { fp : file_ptr; lastTime : Z; logCnt : Z }.

Definition thread_data0 : LogPushLocalThreadData := mkThreadData FNull 0 0.

Definition HOUR_SECOND : Z := 3600.

(** What the task finds: the current time, the start of the current hour, whether the log
    folder exists or can be made, whether the new file can be opened. *)
Record task_env := mkEnv { curTime : Z; hourStart : Z; folder_ok : bool; fopen_ok : bool }.

(** The files opened so far, with what was written to them. *)
Abbreviation log_files := (list bytes).

Definition fclose (f : file_ptr) : outcome unit :=
  match f with FOpen _ => Val tt | _ => Undef end.

Definition flag_text (log : bytes) : bytes := str "mt" ++ to_string (Z.of_nat (length log)) ++ [ch "^"].

(** Two [fwrite]s; the flag is printed into [char flag[20]]. *)
Definition write_record (f : file_ptr) (log : bytes) (fs : log_files) : outcome log_files :=
  check (Z.of_nat (length (flag_text log)) <? 20);;
  match f with
  | FOpen k => Val (alter (fun c => c ++ flag_text log ++ log) k fs)
  | _ => Undef
  end.

Definition LogPushLocalTask (e : task_env) (log : bytes) (td : LogPushLocalThreadData) (fs : log_files)
    : outcome (LogPushLocalThreadData * log_files) :=
  let null := match fp td with FNull => true | _ => false end in
  let expired := negb null && (lastTime td <? curTime e - HOUR_SECOND) in
  if null || expired then
    (if expired then fclose (fp td) else Val tt);;
    let td := if expired
              then mkThreadData (match fp td with FOpen k => FClosed k | f => f end) (lastTime td) 0 else td in
    if negb (folder_ok e) then Val (td, fs)
    else if negb (fopen_ok e) then Val (td, fs)
    else
      let k := length fs in
      fs ← write_record (FOpen k) log (fs ++ [[]]);
      Val (mkThreadData (FOpen k) (hourStart e) (logCnt td + 1), fs)
  else
    fs ← write_record (fp td) log fs;
    Val (mkThreadData (fp td) (lastTime td) (logCnt td + 1), fs).

(** A worker thread runs the tasks in turn. *)
Fixpoint run_tasks (l : list (task_env * bytes)) (td : LogPushLocalThreadData) (fs : log_files)
    : outcome (LogPushLocalThreadData * log_files) :=
  match l with
  | [] => Val (td, fs)
  | (e, log) :: l => '(td, fs) ← LogPushLocalTask e log td fs; run_tasks l td fs
  end.

(** ** Lemmas: local files *)

Definition record_text (log : bytes) : bytes := flag_text log ++ log.

(** The thread's file is the last one opened. *)
Definition thread_ok (td : LogPushLocalThreadData) (fs : log_files) : Prop :=
  match fp td with FNull => True | FOpen k => S k = length fs | FClosed _ => False end.

Definition short (log : bytes) : Prop := Z.of_nat (length (flag_text log)) < 20.

Lemma alter_last (f : bytes -> bytes) fs c k : k = length fs -> alter f k (fs ++ [c]) = fs ++ [f c].
Proof. intros ->. induction fs as [|x fs IH]; [done|]. simpl. f_equal. exact IH. Qed.

Lemma write_record_last k log fs :
  short log -> S k = length fs ->
  exists fs', write_record (FOpen k) log fs = Val fs' /\ length fs' = length fs
    /\ concat fs' = concat fs ++ record_text log.
Proof.
  intros Hs Hk. unfold write_record, short in *. destruct (Z.ltb_spec (Z.of_nat (length (flag_text log))) 20); [|lia].
  cbn [check mbind outcome_bind]. destruct fs as [|c fs _] using rev_ind; [done|].
  rewrite length_app in Hk. simpl in Hk. rewrite alter_last by lia. eexists. split; [reflexivity|].
  rewrite !length_app, !concat_app. split; [done|]. cbn [concat]. rewrite !app_nil_r, <- !app_assoc. done.
Qed.

Lemma task_ok e log td fs :
  folder_ok e = true -> fopen_ok e = true -> short log -> thread_ok td fs ->
  exists td' fs', LogPushLocalTask e log td fs = Val (td', fs') /\ thread_ok td' fs'
    /\ concat fs' = concat fs ++ record_text log.
Proof.
  intros Hf Ho Hs Ht. unfold LogPushLocalTask, thread_ok in *. rewrite Hf, Ho. cbn [negb].
  destruct (write_record_last (length fs) log (fs ++ [[]]) Hs) as (fs1 & E1 & L1 & C1); [rewrite length_app; simpl; lia|].
  rewrite length_app in L1. simpl in L1. rewrite concat_app in C1. simpl in C1. rewrite !app_nil_r in C1.
  destruct (fp td) as [|k|k]; [| |done].
  - cbn [negb andb orb]. cbn [mbind outcome_bind]. rewrite E1. cbn [mbind outcome_bind].
    do 2 eexists. split; [reflexivity|]. cbn [fp]. split; [lia|done].
  - cbn [negb andb orb]. destruct (lastTime td <? curTime e - HOUR_SECOND).
    + cbn [fclose mbind outcome_bind]. rewrite E1. cbn [mbind outcome_bind].
      do 2 eexists. split; [reflexivity|]. cbn [fp]. split; [lia|done].
    + destruct (write_record_last k log fs Hs Ht) as (fs2 & E2 & L2 & C2). rewrite E2. cbn [mbind outcome_bind].
      do 2 eexists. split; [reflexivity|]. cbn [fp]. split; [lia|done].
Qed.

(** ** Theorems *)

(** A worker that can open its files loses nothing: from a fresh start it writes the records
    of all its tasks, in order, each with its length header, whatever the hourly changes of
    file, and never uses a file it has closed. *)
Theorem local_files_complete l :
  Forall (fun t => folder_ok t.1 = true /\ fopen_ok t.1 = true /\ short t.2) l ->
  exists td fs, run_tasks l thread_data0 [] = Val (td, fs) /\ concat fs = concat (map (fun t => record_text t.2) l).
Proof.
  intros Hl. assert (forall td fs, thread_ok td fs -> exists td' fs', run_tasks l td fs = Val (td', fs')
    /\ concat fs' = concat fs ++ concat (map (fun t => record_text t.2) l)) as L.
  { induction Hl as [|[e log] l (Hf & Ho & Hs) _ IH]; intros td fs Ht.
    - exists td, fs. simpl. by rewrite app_nil_r.
    - cbn [fst snd] in *. destruct (task_ok e log td fs Hf Ho Hs Ht) as (td1 & fs1 & E1 & Ht1 & C1).
      destruct (IH td1 fs1 Ht1) as (td2 & fs2 & E2 & C2). cbn [run_tasks]. rewrite E1. cbn [mbind outcome_bind].
      exists td2, fs2. split; [done|]. rewrite C2, C1, <- app_assoc. done. }
  apply (L thread_data0 [] I).
Qed.

(** When the file of the next hour cannot be opened, the thread data keeps the pointer to the
    file just closed: the record is dropped and the next task closes the same file again. *)
Theorem rotation_failure e e' log log' td fs k :
  fp td = FOpen k -> lastTime td < curTime e - HOUR_SECOND -> curTime e <= curTime e' ->
  folder_ok e && fopen_ok e = false ->
  exists td', LogPushLocalTask e log td fs = Val (td', fs) /\ LogPushLocalTask e' log' td' fs = Undef.
Proof.
  intros Hf Ht He Ho.
  exists (mkThreadData (FClosed k) (lastTime td) 0). split.
  - unfold LogPushLocalTask. rewrite Hf. cbn [negb andb orb].
    destruct (Z.ltb_spec (lastTime td) (curTime e - HOUR_SECOND)); [|lia]. cbn [fclose mbind outcome_bind].
    by destruct (folder_ok e), (fopen_ok e).
  - unfold LogPushLocalTask. cbn [fp lastTime negb andb orb].
    destruct (Z.ltb_spec (lastTime td) (curTime e' - HOUR_SECOND)); [done|lia].
Qed.
(** ** Concrete parameters *)

Module LogConcrete.
#[export] Instance log_const : LogConst :=
  { MTTY_SERVICE_LOGGER := str "service"; DEFAULT_KAFKA_TOPIC := str "mtty-log" }.
End LogConcrete.
Import LogConcrete.

Lemma local_files_complete_witness :
  exists td fs, run_tasks [(mkEnv 100 0 true true, str "a"); (mkEnv 9000 7200 true true, str "bc")] thread_data0 [] = Val (td, fs)
    /\ concat fs = str "mt1^amt2^bc".
Proof.
  apply (local_files_complete [(mkEnv 100 0 true true, str "a"); (mkEnv 9000 7200 true true, str "bc")]).
  repeat constructor; vm_compute; reflexivity.
Defined.

Lemma rotation_failure_witness :
  exists td', LogPushLocalTask (mkEnv 9000 7200 true false) (str "a") (mkThreadData (FOpen 0) 0 3) [[]] = Val (td', [[]])
    /\ LogPushLocalTask (mkEnv 9001 7200 true true) (str "b") td' [[]] = Undef.
Proof.
  apply (rotation_failure (mkEnv 9000 7200 true false) (mkEnv 9001 7200 true true) (str "a") (str "b") (mkThreadData (FOpen 0) 0 3) [[]] 0);
    vm_compute; congruence.
Defined.
