(* ===== verification/LogThreads.v ===== *)
(** * LogThreads: the logger under concurrent threads (core/logpusher/log_pusher.h, log_pusher.cpp,
    kafka_log_producer.cpp)

    LogPusher.v has the functions of the logger as one thread runs them.  Here each function is a sequence of
    steps, and the threads of the service, the monitor thread among them, take them in any order: the two
    lookups of [getLogger] with the lock and the insertion between them, [push], the test, the
    compare-and-swap, the assignment and the creation of [startRemoteMonitor], the delivery callback
    and the loop of the monitor.

    A logger is kept alive by the shared pointers to it: that of the map, those of static variables and those
    that threads hold.  When the last one goes, the destructor deletes the producer, to which the
    monitor keeps a plain pointer; using it then is undefined.  So is looking a name up while another
    thread changes the map, which is not safe for threads.  A producer has the number of its logger,
    since a logger has at most one in its life.

    [pushed] and [dropped] are not in the code: they write down which records were given to the loggers, and
    which were given up and why. *)
From S2P Require Import Prelude CString LogPusher.

(** ** Threads *)

(** What follows a change of the work mode. *)
Inductive after_mode : Set := ModeDone | ModeRecover (p : producer_id) | ModeExit.

(** What a logger is looked up for: to push a record, to keep it in a static variable, to set its mode, or to
    see in the monitor whether it is remote again. *)
Inductive purpose : Type :=
| ForPush (log : bytes) (important : bool) | ForPin | ForMode (workLocal : bool) (next : after_mode)
| ForMonitor (p : option producer_id).

(** Where a thread is. *)
Inductive thread_pc : Type :=
| Idle
| GetFind (n : bytes) (logLocal : bool) (k : purpose)
| GetLock (n : bytes) (logLocal : bool) (k : purpose)
| GetFindAgain (n : bytes) (logLocal : bool) (k : purpose)
| GetInsert (n : bytes) (i : logger_id) (k : purpose)
| GetUnlock (n : bytes) (i : logger_id) (k : purpose)
| GetReturn (n : bytes) (i : logger_id) (k : purpose)
| Pin (i : logger_id)
| PushRun (i : logger_id) (log : bytes) (important : bool)
| StartMode (i : logger_id) (msg : Message)
| StartTest (i : logger_id) (msg : Message)
| StartCas (i : logger_id) (msg : Message)
| StartInit (i : logger_id) (msg : Message)
| StartCreate (i : logger_id)
| ModeSet (i : logger_id) (workLocal : bool) (next : after_mode)
| Reported (i : logger_id) (p : producer_id)
| Erase (n : bytes)
| MonStart | MonSend (p : option producer_id) | MonSleep5 (p : option producer_id)
| MonAsk (i : logger_id) (p : option producer_id) | MonSleep2 (p : option producer_id) | MonExit
| Ended.

(** What an idle thread may be told to do: to push on the logger of a static variable, to look a logger up and
    push on it, to keep a logger, to remove one, or to report on a message of a producer. *)
Inductive job : Type :=
| JobPush (i : logger_id) (log : bytes) (important : bool)
| JobLog (n : bytes) (logLocal : bool) (log : bytes) (important : bool)
| JobPin (n : bytes) (logLocal : bool)
| JobRemove (n : bytes)
| JobReport (p : producer_id) (err : bool).

(** What a producer answers: a result, or in the monitor an exception of the client. *)
Inductive send_answer : Set := Answer (r : SendResult) | ClientException.

(** What the outside does in a step. *)
Record outside_event := mkEvent { ev_job : job; ev_answer : send_answer; ev_created : bool }.

(** Why a record was given up. *)
Inductive drop_reason : Set := Unimportant | MonitorBusy | NoThread | GivenUp.

Record shared := mkShared {
  core : log_state; locked : bool; writing : bool; pinned : list logger_id;
  pushed : list bytes; dropped : list (drop_reason * bytes);
}.
Record system := mkSystem { sh : shared; threads : list thread_pc }.

Definition set_core (c : log_state) (s : shared) : shared :=
  mkShared c (locked s) (writing s) (pinned s) (pushed s) (dropped s).
Definition set_locked (b : bool) (s : shared) : shared :=
  mkShared (core s) b (writing s) (pinned s) (pushed s) (dropped s).
Definition set_writing (b : bool) (s : shared) : shared :=
  mkShared (core s) (locked s) b (pinned s) (pushed s) (dropped s).
Definition add_pinned (i : logger_id) (s : shared) : shared :=
  mkShared (core s) (locked s) (writing s) (i :: pinned s) (pushed s) (dropped s).
Definition add_pushed (log : bytes) (s : shared) : shared :=
  mkShared (core s) (locked s) (writing s) (pinned s) (pushed s ++ [log]) (dropped s).
Definition drop_record (r : drop_reason) (log : bytes) (s : shared) : shared :=
  mkShared (core s) (locked s) (writing s) (pinned s) (pushed s) (dropped s ++ [(r, log)]).
Definition set_map (m : gmap bytes logger_id) (s : shared) : shared :=
  let c := core s in set_core (mkLogState (loggers c) m (monitor c) (monitors c) (sent c) (needRecover c)) s.
Definition add_logger (l : LogPusher) (s : shared) : shared :=
  let c := core s in set_core (mkLogState (loggers c ++ [l]) (logMap c) (monitor c) (monitors c) (sent c) (needRecover c)) s.

(** The result of a step: none, since the thread waits for the lock or its event does not occur; undefined; or
    the next place of the thread, and whether it created the monitor thread. *)
Inductive moved : Type := Blocked | Undefined | Next (p : thread_pc) (s : shared) (spawn : bool).

(** ** Pointers *)

(** The logger a thread has a shared pointer to. *)
Definition holds_logger (p : thread_pc) : list logger_id :=
  match p with
  | GetInsert _ i _ | Pin i | PushRun i _ _ | StartMode i _ | StartTest i _ | StartCas i _ | StartInit i _ | StartCreate i
  | ModeSet i _ _ | Reported i _ | MonAsk i _ => [i]
  | _ => []
  end.
Definition pointers (s : system) : list logger_id :=
  (map_to_list (logMap (core (sh s)))).*2 ++ pinned (sh s) ++ flat_map holds_logger (threads s).
Definition live (s : system) (i : logger_id) : bool := bool_decide (i ∈ pointers s).

(** ** Steps *)

Section thread_steps.
Context `{LogConst}.

(** What a thread does with the pointer it was given. *)
Definition resume (i : logger_id) (k : purpose) : thread_pc :=
  match k with
  | ForPush log important => PushRun i log important
  | ForPin => Pin i
  | ForMode workLocal next => ModeSet i workLocal next
  | ForMonitor p => MonAsk i p
  end.

(** [getLogger]: [std::map::insert] keeps an entry that is there; the iterator of a removed entry is not valid. *)
Definition get_step (p : thread_pc) (s : shared) : moved :=
  match p with
  | GetFind n b k =>
    if writing s then Undefined
    else match logMap (core s) !! n with Some i => Next (GetReturn n i k) s false | None => Next (GetLock n b k) s false end
  | GetLock n b k => if locked s then Blocked else Next (GetFindAgain n b k) (set_locked true s) false
  | GetFindAgain n b k =>
    if writing s then Undefined
    else match logMap (core s) !! n with
         | Some i => Next (GetUnlock n i k) s false
         | None => let i := length (loggers (core s)) in
                   Next (GetInsert n i k) (set_writing true (add_logger (LogPusher_new n b i) s)) false
         end
  | GetInsert n i k =>
    match logMap (core s) !! n with
    | Some j => Next (GetUnlock n j k) (set_writing false s) false
    | None => Next (GetUnlock n i k) (set_writing false (set_map (<[n := i]> (logMap (core s))) s)) false
    end
  | GetUnlock n i k => Next (GetReturn n i k) (set_locked false s) false
  | GetReturn n i k => if bool_decide (logMap (core s) !! n = Some i) then Next (resume i k) s false else Undefined
  | _ => Blocked
  end.

Definition with_logger (i : logger_id) (s : shared) (f : LogPusher -> moved) : moved :=
  match loggers (core s) !! i with Some l => f l | None => Undefined end.

(** [push]. *)
Definition push_step (e : outside_event) (p : thread_pc) (s : shared) : moved :=
  match p with
  | PushRun i log important =>
    with_logger i s (fun l =>
      if negb (modeLocal l) then
        let msg := mkMessage DEFAULT_KAFKA_TOPIC log in
        match producer l with
        | None => Undefined
        | Some _ =>
          match ev_answer e with
          | Answer SEND_OK => Next Idle (set_core (add_sent msg (core s)) s) false
          | Answer SEND_ERROR => Next (StartMode i msg) s false
          | ClientException => Blocked
          end
        end
      else if important then
        Next Idle (set_core (set_logger i (mkPusher (loggerName l) (modeLocal l) (producer l) (tasks l ++ [log])) (core s)) s) false
      else Next Idle (drop_record Unimportant log s) false)
  | StartMode i msg =>
    with_logger i s (fun l => Next (StartTest i msg) (set_core (set_logger i (setWorkMode true i l) (core s)) s) false)
  | _ => Blocked
  end.

Definition set_started (b : bool) (c : log_state) : log_state :=
  set_monitor (mkMonitorParam (m_producer (monitor c)) (m_msg (monitor c)) b) (monitors c) c.

(** [startRemoteMonitor]: the test, [ATOM_CAS], [init] and [pthread_create]. *)
Definition start_step (e : outside_event) (p : thread_pc) (s : shared) : moved :=
  match p with
  | StartTest i msg =>
    if m_started (monitor (core s)) then Next Idle (drop_record MonitorBusy (msg_bytes msg) s) false else Next (StartCas i msg) s false
  | StartCas i msg =>
    if m_started (monitor (core s)) then Next Idle (drop_record MonitorBusy (msg_bytes msg) s) false
    else Next (StartInit i msg) (set_core (set_started true (core s)) s) false
  | StartInit i msg =>
    with_logger i s (fun l =>
      let c := core s in
      Next (StartCreate i) (set_core (set_monitor (mkMonitorParam (producer l) msg (m_started (monitor c))) (monitors c) c) s) false)
  | StartCreate i =>
    let c := core s in
    if ev_created e then Next Idle (set_core (set_monitor (monitor c) (S (monitors c)) c) s) true
    else Next Idle (drop_record NoThread (msg_bytes (m_msg (monitor c))) s) false
  | _ => Blocked
  end.

(** [setWorkMode] on the service logger, and the end of the delivery callback. *)
Definition mode_step (p : thread_pc) (s : shared) : moved :=
  match p with
  | ModeSet i b next =>
    with_logger i s (fun l =>
      let s := set_core (set_logger i (setWorkMode b i l) (core s)) s in
      Next (match next with ModeDone => Idle | ModeRecover p => Reported i p | ModeExit => MonExit end) s false)
  | Reported _ p => Next Idle (set_core (set_recover p true (core s)) s) false
  | _ => Blocked
  end.

(** [monitorRemoteLog]: the producer is copied when the thread starts, the message is read each time. *)
Definition monitor_step (lv : logger_id -> bool) (e : outside_event) (p : thread_pc) (s : shared) : moved :=
  match p with
  | MonStart => Next (MonSend (m_producer (monitor (core s)))) s false
  | MonSend None => Undefined
  | MonSend (Some q) =>
    if negb (lv q) then Undefined
    else match ev_answer e with
         | Answer SEND_ERROR => Next (MonSleep5 (Some q)) s false
         | Answer SEND_OK =>
           Next (GetFind MTTY_SERVICE_LOGGER false (ForMode false ModeExit)) (set_core (add_sent (m_msg (monitor (core s))) (core s)) s) false
         | ClientException => Next (MonSleep2 (Some q)) s false
         end
  | MonSleep5 q => Next (GetFind MTTY_SERVICE_LOGGER false (ForMonitor q)) s false
  | MonAsk i q =>
    with_logger i s (fun l =>
      if negb (modeLocal l) then Next MonExit (drop_record GivenUp (msg_bytes (m_msg (monitor (core s)))) s) false
      else Next (MonSleep2 q) s false)
  | MonSleep2 q => Next (MonSend q) s false
  | MonExit => Next Ended (set_core (set_started false (core s)) s) false
  | _ => Blocked
  end.

(** [dr_cb] up to its lookup. *)
Definition report_step (p : producer_id) (err : bool) (s : shared) : moved :=
  let rec := default false (needRecover (core s) !! p) in
  if err && negb rec then Next (GetFind MTTY_SERVICE_LOGGER false (ForMode true (ModeRecover p))) s false
  else if negb err && rec then
    Next (GetFind MTTY_SERVICE_LOGGER false (ForMode false ModeDone)) (set_core (set_recover p false (core s)) s) false
  else Next Idle s false.

(** An idle thread begins; a producer that was deleted does not report. *)
Definition begin_step (lv : logger_id -> bool) (j : job) (s : shared) : moved :=
  match j with
  | JobPush i log important => if bool_decide (i ∈ pinned s) then Next (PushRun i log important) (add_pushed log s) false else Blocked
  | JobLog n b log important => Next (GetFind n b (ForPush log important)) (add_pushed log s) false
  | JobPin n b => Next (GetFind n b ForPin) s false
  | JobRemove n => if writing s then Undefined else Next (Erase n) (set_writing true s) false
  | JobReport p err => if lv p then report_step p err s else Blocked
  end.

Definition thread_step (lv : logger_id -> bool) (e : outside_event) (p : thread_pc) (s : shared) : moved :=
  match p with
  | Idle => begin_step lv (ev_job e) s
  | GetFind _ _ _ | GetLock _ _ _ | GetFindAgain _ _ _ | GetInsert _ _ _ | GetUnlock _ _ _ | GetReturn _ _ _ => get_step p s
  | Pin i => Next Idle (add_pinned i s) false
  | PushRun _ _ _ | StartMode _ _ => push_step e p s
  | StartTest _ _ | StartCas _ _ | StartInit _ _ | StartCreate _ => start_step e p s
  | ModeSet _ _ _ | Reported _ _ => mode_step p s
  | Erase n => Next Idle (set_writing false (set_map (delete n (logMap (core s))) s)) false
  | MonStart | MonSend _ | MonSleep5 _ | MonAsk _ _ | MonSleep2 _ | MonExit => monitor_step lv e p s
  | Ended => Blocked
  end.

(** Thread [k] takes a step; a new monitor thread comes last. *)
Definition system_step (k : nat) (e : outside_event) (s : system) : option system :=
  match threads s !! k with
  | None => None
  | Some p =>
    match thread_step (live s) e p (sh s) with
    | Next p' s' spawn => Some (mkSystem s' (<[k := p']> (threads s) ++ if spawn then [MonStart] else []))
    | _ => None
    end
  end.

Definition removes (j : job) : bool := match j with JobRemove _ => true | _ => false end.

(** Runs from [n] idle threads, and those in which no logger is removed. *)
Definition system0 (n : nat) : system := mkSystem (mkShared log_state0 false false [] [] []) (replicate n Idle).
Definition system_steps : system -> system -> Prop := rtc (fun s s' => exists k e, system_step k e s = Some s').
Definition keeping_steps : system -> system -> Prop := rtc (fun s s' => exists k e, removes (ev_job e) = false /\ system_step k e s = Some s').

(** A run by its schedule. *)
Fixpoint run (sched : list (nat * outside_event)) (s : system) : option system :=
  match sched with [] => Some s | (k, e) :: sched => s' ← system_step k e s; run sched s' end.
End thread_steps.

(** ** The owner of the flag *)

(** A thread that a lookup brings back to the loop or to the end of the monitor. *)
Definition monitor_purpose (k : purpose) : bool := match k with ForMode _ ModeExit | ForMonitor _ => true | _ => false end.
Definition is_monitor (p : thread_pc) : bool :=
  match p with
  | MonStart | MonSend _ | MonSleep5 _ | MonAsk _ _ | MonSleep2 _ | MonExit | ModeSet _ _ ModeExit => true
  | GetFind _ _ k | GetLock _ _ k | GetFindAgain _ _ k | GetInsert _ _ k | GetUnlock _ _ k | GetReturn _ _ k => monitor_purpose k
  | _ => false
  end.
(** The threads that own the flag [started]: the one that is about to create the monitor, and the monitor. *)
Definition owns (p : thread_pc) : bool := match p with StartInit _ _ | StartCreate _ => true | _ => is_monitor p end.
(** The threads between the lock and the unlock of [getLogger]. *)
Definition critical (p : thread_pc) : bool := match p with GetFindAgain _ _ _ | GetInsert _ _ _ | GetUnlock _ _ _ => true | _ => false end.

(** How many threads are at a place of some kind. *)
Definition threads_at (f : thread_pc -> bool) (l : list thread_pc) : nat := length (filter (fun p => f p = true) l).

Lemma count_app f l l' : threads_at f (l ++ l') = (threads_at f l + threads_at f l')%nat.
Proof. unfold threads_at. by rewrite filter_app, length_app. Qed.
Lemma count_one f p : threads_at f [p] = Nat.b2n (f p).
Proof. unfold threads_at. rewrite filter_cons, filter_nil. destruct (decide (f p = true)) as [->|E]; [done|]. by destruct (f p). Qed.
Lemma split_at {A} (l : list A) k p : l !! k = Some p -> exists a b, l = a ++ p :: b /\ forall q, <[k := q]> l = a ++ q :: b.
Proof.
  intros E. exists (take k l), (drop (S k) l). pose proof (lookup_lt_Some _ _ _ E). split; [by rewrite take_drop_middle|].
  intros q. by rewrite insert_take_drop.
Qed.
Lemma count_move f l k p q : l !! k = Some p -> (threads_at f (<[k := q]> l) + Nat.b2n (f p) = threads_at f l + Nat.b2n (f q))%nat.
Proof.
  intros (a & b & El & Ei)%split_at. rewrite Ei, El. change (p :: b) with ([p] ++ b). change (q :: b) with ([q] ++ b).
  rewrite !count_app, !count_one. lia.
Qed.
Lemma threads_at_pos f l k p : l !! k = Some p -> f p = true -> (0 < threads_at f l)%nat.
Proof.
  intros (a & b & El & _)%split_at Hf. rewrite El. change (p :: b) with ([p] ++ b). rewrite !count_app, count_one, Hf. cbn. lia.
Qed.
Lemma count_le f g l : (forall p, f p = true -> g p = true) -> (threads_at f l <= threads_at g l)%nat.
Proof.
  intros Hfg. induction l as [|p l IH]; [done|]. change (p :: l) with ([p] ++ l). rewrite !count_app, !count_one.
  specialize (Hfg p). destruct (f p), (g p); cbn; (lia || by specialize (Hfg eq_refl)).
Qed.
Lemma count_zero f l : threads_at f l = 0%nat -> Forall (fun p => f p = false) l.
Proof.
  intros E. apply Forall_forall. intros p (k & Hk)%list_elem_of_lookup. destruct (f p) eqn:Ef; [|done].
  pose proof (threads_at_pos f l k p Hk Ef). lia.
Qed.

(** The cases of a step of a thread at [p]. *)
Ltac step_cases :=
  repeat match goal with
         | D : Blocked = Next _ _ _ |- _ => discriminate D
         | D : Undefined = Next _ _ _ |- _ => discriminate D
         | D : Next _ _ _ = Next _ _ _ |- _ => injection D as <- <- <-
         | D : with_logger _ _ _ = Next _ _ _ |- _ => unfold with_logger in D
         | D : (match ?x with _ => _ end) = Next _ _ _ |- _ => destruct x eqn:?
         end.

Ltac open_step p E :=
  destruct p; unfold thread_step, begin_step, report_step, get_step, push_step, start_step, mode_step, monitor_step in E; step_cases.

Section invariants.
Context `{LogConst}.

Abbreviation started s := (m_started (monitor (core s))).

(** A step changes the flag and its owner together. *)
Lemma step_owner lv e p s p' s' sp :
  thread_step lv e p s = Next p' s' sp ->
  (Nat.b2n (owns p') + Nat.b2n sp = Nat.b2n (owns p))%nat /\ started s' = started s
  \/ (owns p = false /\ owns p' = true /\ sp = false /\ started s = false /\ started s' = true)
  \/ (owns p = true /\ owns p' = false /\ sp = false /\ (started s' = started s \/ p = MonExit)).
Proof.
  intros E. open_step p E; cbn; auto 10;
    match goal with k : purpose |- _ => destruct k as [| |? []|] | next : after_mode |- _ => destruct next end; cbn; auto 10.
Qed.

Record owner_inv (s : system) : Prop := {
  oi_one : (threads_at owns (threads s) <= 1)%nat;
  oi_started : (0 < threads_at owns (threads s))%nat -> started (sh s) = true;
}.

Lemma system_step_inv k e s s' :
  system_step k e s = Some s' ->
  exists p p' sp, threads s !! k = Some p /\ thread_step (live s) e p (sh s) = Next p' (sh s') sp
    /\ threads s' = <[k := p']> (threads s) ++ (if sp then [MonStart] else []).
Proof.
  unfold system_step. destruct (threads s !! k) as [p|] eqn:Ek; [|done].
  destruct (thread_step _ _ _ _) as [| |p' s1 sp] eqn:E; [done|done|]. intros [= <-]. by exists p, p', sp.
Qed.

Lemma count_step f k (l : list thread_pc) p p' (sp : bool) :
  l !! k = Some p ->
  (threads_at f (<[k := p']> l ++ (if sp then [MonStart] else [])) + Nat.b2n (f p) = threads_at f l + Nat.b2n (f p') + (if sp then Nat.b2n (f MonStart) else 0))%nat.
Proof. intros Hk. rewrite count_app. pose proof (count_move f l k p p' Hk). destruct sp; rewrite ?count_one; [|change (threads_at f []) with 0%nat]; lia. Qed.

Lemma owner_step k e s s' : system_step k e s = Some s' -> owner_inv s -> owner_inv s'.
Proof.
  intros (p & p' & sp & Hk & E & Et)%system_step_inv [H1 H2].
  pose proof (count_step owns k (threads s) p p' sp Hk) as Hc. rewrite <- Et in Hc. cbn [owns is_monitor Nat.b2n] in Hc.
  pose proof (threads_at_pos owns (threads s) k p Hk) as Hp.
  destruct (step_owner _ _ _ _ _ _ _ E) as [[Ho Es]|[(O1 & O2 & -> & S1 & S2)|(O1 & O2 & -> & S)]].
  - assert (threads_at owns (threads s') = threads_at owns (threads s)) as Ec by (destruct sp; cbn in Ho; lia).
    split; rewrite Ec; [done|]. by rewrite Es.
  - rewrite O1, O2 in Hc. cbn in Hc. assert (threads_at owns (threads s) = 0%nat) as E0.
    { destruct (threads_at owns (threads s)); [done|]. rewrite S1 in H2. discriminate H2. lia. }
    split; [lia|]. by rewrite S2.
  - rewrite O1, O2 in Hc. cbn in Hc. split; lia.
Qed.

Lemma owner_init n : owner_inv (system0 n).
Proof.
  assert (threads_at owns (replicate n Idle) = 0%nat) as E by (induction n as [|n IH]; [done|]; change (replicate (S n) Idle) with ([Idle] ++ replicate n Idle);
    by rewrite count_app, count_one, IH).
  split; cbn [threads system0]; rewrite E; lia.
Qed.

Lemma owner_inv_steps s s' : system_steps s s' -> owner_inv s -> owner_inv s'.
Proof. induction 1 as [|s s1 s2 (k & e & E) _ IH]; [done|]. intros Hi. apply IH. by eapply owner_step. Qed.

Lemma keeping_steps_steps s s' : keeping_steps s s' -> system_steps s s'.
Proof. induction 1 as [|s s1 s2 (k & e & _ & E) _ IH]; [apply rtc_refl|]. eapply rtc_l; [by exists k, e|done]. Qed.

(** ** Producers *)

(** A logger has its own producer or none, and a producer stays. *)
Definition own_producers (s : shared) : Prop :=
  forall i l, loggers (core s) !! i = Some l -> producer l = None \/ producer l = Some i.
Definition extends (s s' : shared) : Prop :=
  forall i l, loggers (core s) !! i = Some l ->
    exists l', loggers (core s') !! i = Some l' /\ (producer l <> None -> producer l' = producer l).

(** A pointer to a producer that was created. *)
Definition created (s : shared) (p : option producer_id) : Prop := exists q, p = Some q /\ (q < length (loggers (core s)))%nat.
Definition has_producer (s : shared) (i : logger_id) : Prop := exists l, loggers (core s) !! i = Some l /\ producer l <> None.

Definition purpose_ok (s : shared) (k : purpose) : Prop := match k with ForMonitor p => created s p | _ => True end.
Definition pc_ok (s : shared) (p : thread_pc) : Prop :=
  match p with
  | StartMode i _ | StartTest i _ | StartCas i _ | StartInit i _ => has_producer s i
  | StartCreate _ | MonStart => created s (m_producer (monitor (core s)))
  | MonSend q | MonSleep5 q | MonAsk _ q | MonSleep2 q => created s q
  | GetFind _ _ k | GetLock _ _ k | GetFindAgain _ _ k | GetInsert _ _ k | GetUnlock _ _ k | GetReturn _ _ k => purpose_ok s k
  | _ => True
  end.

Lemma extends_length s s' : extends s s' -> (length (loggers (core s)) <= length (loggers (core s')))%nat.
Proof.
  intros He. destruct (decide (length (loggers (core s)) = 0%nat)) as [->|Hn]; [lia|].
  destruct (lookup_lt_is_Some_2 (loggers (core s)) (length (loggers (core s)) - 1)) as [l El]; [lia|].
  destruct (He _ _ El) as (l' & El' & _). apply lookup_lt_Some in El'. lia.
Qed.
Lemma created_mono s s' p : extends s s' -> created s p -> created s' p.
Proof. intros He%extends_length (q & -> & Hq). exists q. split; [done|lia]. Qed.
Lemma has_producer_mono s s' i : extends s s' -> has_producer s i -> has_producer s' i.
Proof. intros He (l & El & Hp). destruct (He i l El) as (l' & El' & Hl). exists l'. split; [done|]. by rewrite Hl. Qed.
Lemma pc_ok_mono s s' p :
  extends s s' -> owns p = false \/ m_producer (monitor (core s')) = m_producer (monitor (core s)) -> pc_ok s p -> pc_ok s' p.
Proof.
  intros He Ho. destruct p; cbn [pc_ok]; try done; try (by apply created_mono); try (by apply has_producer_mono);
    try (destruct k; cbn [purpose_ok]; try done; by apply created_mono).
  - destruct Ho as [?| ->]; [done|]. by apply created_mono.
  - destruct Ho as [?| ->]; [done|]. by apply created_mono.
Qed.

Lemma extends_refl s s' : loggers (core s') = loggers (core s) -> extends s s'.
Proof. intros E i l El. exists l. by rewrite E. Qed.
Lemma setWorkMode_producer b i l : producer l <> None -> producer (setWorkMode b i l) = producer l.
Proof. intros Hp. unfold setWorkMode. rewrite (bool_decide_eq_false_2 _ Hp), andb_false_r. done. Qed.

(** A logger that is replaced by one with the same producer, or whose producer is created. *)
Lemma extends_logger s i l l' :
  loggers (core s) !! i = Some l -> (producer l <> None -> producer l' = producer l) -> extends s (set_core (set_logger i l' (core s)) s).
Proof.
  intros El Hp j x Ex. cbn. destruct (decide (i = j)) as [<-|Hj].
  - exists l'. rewrite list_lookup_insert_eq by (by apply lookup_lt_Some in El). split; [done|]. rewrite El in Ex. by injection Ex as <-.
  - exists x. by rewrite list_lookup_insert_ne.
Qed.
Lemma own_logger s i l' :
  own_producers s -> (producer l' = None \/ producer l' = Some i) -> own_producers (set_core (set_logger i l' (core s)) s).
Proof. intros Ho Hl j x. cbn. intros [(<- & <- & _)|[_ Ex]]%list_lookup_insert_Some; [done|by apply Ho]. Qed.
Lemma setWorkMode_own b i l : producer l = None \/ producer l = Some i -> producer (setWorkMode b i l) = None \/ producer (setWorkMode b i l) = Some i.
Proof. unfold setWorkMode. intros Hl. destruct (_ && _); [by right|done]. Qed.

Lemma extends_add l s : extends s (add_logger l s).
Proof. intros i x Ex. exists x. split; [|done]. cbn. apply lookup_app_Some. by left. Qed.
Lemma own_add n b s : own_producers s -> own_producers (add_logger (LogPusher_new n b (length (loggers (core s)))) s).
Proof.
  intros Ho i l. cbn. rewrite lookup_app_Some. intros [El|[Hi El]]; [by apply Ho|].
  apply list_lookup_singleton_Some in El as [Ei <-]. unfold LogPusher_new. replace i with (length (loggers (core s))) by lia.
  destruct b; cbn; auto.
Qed.

Lemma step_extends lv e p s p' s' sp : thread_step lv e p s = Next p' s' sp -> extends s s' /\ (own_producers s -> own_producers s').
Proof.
  intros E. open_step p E; try (split; [by apply extends_refl|done]).
  - split; [apply extends_add|apply own_add].
  - split; [by eapply extends_logger|]. intros Ho. apply own_logger; [done|]. cbn. by eapply Ho.
  - split; [eapply extends_logger; [done|apply setWorkMode_producer]|]. intros Ho. apply own_logger; [done|]. apply setWorkMode_own. by eapply Ho.
  - split; [eapply extends_logger; [done|apply setWorkMode_producer]|]. intros Ho. apply own_logger; [done|]. apply setWorkMode_own. by eapply Ho.
Qed.

(** Where a step leads is in order, and so is the monitor it creates; only [init] changes the pointer of the monitor. *)
Lemma step_pc lv e p s p' s' sp :
  thread_step lv e p s = Next p' s' sp -> own_producers s -> pc_ok s p ->
  pc_ok s' p' /\ (sp = true -> pc_ok s' MonStart)
  /\ (m_producer (monitor (core s')) = m_producer (monitor (core s)) \/ owns p = true).
Proof.
  intros E Ho Hp. destruct (step_extends _ _ _ _ _ _ _ E) as [He _]. revert Ho Hp He.
  open_step p E; intros Ho Hp He; cbn [pc_ok owns is_monitor] in *; try (split_and!; (done || by auto));
    (split; [|split; [done|by auto]]).
  - destruct k; try done. by eapply created_mono.
  - by destruct k.
  - eexists. split; [done|congruence].
  - by eapply has_producer_mono.
  - destruct Hp as (l' & El & Hl). assert (l' = l) as -> by congruence. destruct (Ho i l) as [?|El']; [done|done|].
    exists i. split; [done|]. by eapply lookup_lt_Some.
  - by destruct next.
Qed.

Record producer_inv (s : system) : Prop := {
  pi_own : own_producers (sh s);
  pi_pc : Forall (pc_ok (sh s)) (threads s);
}.

Lemma Forall_moved (P : thread_pc -> Prop) (l : list thread_pc) k p' (sp : bool) :
  Forall P l -> P p' -> (sp = true -> P MonStart) -> Forall P (<[k := p']> l ++ (if sp then [MonStart] else [])).
Proof. intros Hl Hp Hs. apply Forall_app. split; [by apply Forall_insert|]. destruct sp; repeat constructor. by apply Hs. Qed.

(** Two threads are not both at a place that one thread at most is at. *)
Lemma count_others f (l : list thread_pc) k p j q :
  f Ended = false -> (threads_at f l <= 1)%nat -> l !! k = Some p -> f p = true -> l !! j = Some q -> k <> j -> f q = false.
Proof.
  intros He Hc Hk Ho Hj Hn. destruct (f q) eqn:Eq; [|done]. exfalso.
  pose proof (count_move f l j q Ended Hj) as Hm. rewrite Eq, He in Hm. cbn in Hm.
  assert (<[j := Ended]> l !! k = Some p) as Hk' by (by rewrite list_lookup_insert_ne).
  pose proof (threads_at_pos f _ k p Hk' Ho). lia.
Qed.

Lemma producer_step k e s s' : system_step k e s = Some s' -> owner_inv s -> producer_inv s -> producer_inv s'.
Proof.
  intros (p & p' & sp & Hk & E & Et)%system_step_inv [H1 _] [Ho Hf].
  pose proof (Forall_lookup_1 _ _ _ _ Hf Hk) as Hp. destruct (step_pc _ _ _ _ _ _ _ E Ho Hp) as (Hp' & Hm & Hprod).
  destruct (step_extends _ _ _ _ _ _ _ E) as [He Hown]. split; [by apply Hown|]. rewrite Et.
  apply Forall_app. split; [|destruct sp; repeat constructor; by apply Hm].
  apply Forall_lookup. intros j q [(<- & <- & _)|[Hj Hq]]%list_lookup_insert_Some; [done|].
  eapply pc_ok_mono; [exact He| |by apply (Forall_lookup_1 _ _ _ _ Hf Hq)].
  destruct Hprod as [Hprod|Hown']; [by right|left]. by apply (count_others owns (threads s) k p j q).
Qed.

Lemma producer_init n : producer_inv (system0 n).
Proof. split; [done|]. by apply Forall_replicate. Qed.
Lemma producer_steps s s' : system_steps s s' -> owner_inv s -> producer_inv s -> producer_inv s'.
Proof.
  induction 1 as [|s s1 s2 (k & e & E) _ IH]; [done|]. intros Hi Hp. apply IH; [by eapply owner_step|by eapply producer_step].
Qed.

(** ** The registry *)

Definition inserting (p : thread_pc) (n : bytes) (i : logger_id) : Prop := exists k, p = GetInsert n i k.

(** The lock and the place of a thread change together. *)
Lemma step_lock lv e p s p' s' sp :
  thread_step lv e p s = Next p' s' sp ->
  critical p' = critical p /\ locked s' = locked s
  \/ (critical p = false /\ critical p' = true /\ locked s = false /\ locked s' = true)
  \/ (critical p = true /\ critical p' = false /\ locked s' = false).
Proof.
  intros E. open_step p E; cbn; auto 10;
    match goal with k : purpose |- _ => destruct k as [| |? []|] | next : after_mode |- _ => destruct next end; cbn; auto 10.
Qed.

(** When no logger is removed, only the end of an insertion changes the map, and only its beginning the list of loggers. *)
Lemma step_registry lv e p s p' s' sp :
  thread_step lv e p s = Next p' s' sp -> removes (ev_job e) = false -> (forall n, p <> Erase n) ->
  let map_ := logMap (core s) in let map_' := logMap (core s') in
  let len := length (loggers (core s)) in let len' := length (loggers (core s')) in
  (forall n, p' <> Erase n)
  /\ ((map_' = map_ /\ len' = len /\ (forall n i, ~ inserting p' n i) /\ forall n i, inserting p n i -> is_Some (map_ !! n))
      \/ (exists n, map_' = map_ /\ len' = S len /\ inserting p' n len /\ map_ !! n = None /\ critical p = true /\ (forall n i, ~ inserting p n i))
      \/ (exists n i, map_ !! n = None /\ map_' = <[n := i]> map_ /\ len' = len /\ inserting p n i /\ (forall n i, ~ inserting p' n i))).
Proof.
  intros E Hr He. cbn zeta. unfold inserting.
  open_step p E; try done; cbn [removes ev_job] in *; try (split; [naive_solver|left; cbn; rewrite ?length_insert; split_and!; naive_solver]).
  - split; [done|]. right. left. exists n. cbn. rewrite length_app. cbn. split_and!; [done|lia|eauto|done|done|naive_solver].
  - split; [done|]. right. right. exists n, i. cbn. split_and!; [done|done|done|eauto|naive_solver].
  - destruct k; (split; [done|left; split_and!; naive_solver]).
  - destruct next; (split; [done|left; cbn; rewrite length_insert; split_and!; naive_solver]).
Qed.

Record keep_inv (s : system) : Prop := {
  ki_erase : Forall (fun p => forall n, p <> Erase n) (threads s);
  ki_one : (threads_at critical (threads s) <= 1)%nat;
  ki_lock : locked (sh s) = false -> threads_at critical (threads s) = 0%nat;
  ki_fresh p n i : p ∈ threads s -> inserting p n i -> logMap (core (sh s)) !! n = None;
  ki_root i : (i < length (loggers (core (sh s))))%nat ->
    (exists n, logMap (core (sh s)) !! n = Some i) \/ (exists p n, p ∈ threads s /\ inserting p n i);
}.

Lemma in_moved (l : list thread_pc) k p p' (sp : bool) q :
  l !! k = Some p ->
  q ∈ <[k := p']> l ++ (if sp then [MonStart] else []) <->
  q = p' \/ (exists j, j <> k /\ l !! j = Some q) \/ (sp = true /\ q = MonStart).
Proof.
  intros Hk. rewrite elem_of_app, list_elem_of_lookup. setoid_rewrite list_lookup_insert_Some. split.
  - intros [(j & [(_ & <- & _)|[Hj Hq]])|Hq]; [by left|right; left; exists j; by split|].
    destruct sp; [|by apply elem_of_nil in Hq]. apply list_elem_of_singleton in Hq. auto.
  - intros [->|[(j & Hj & Hq)|[-> ->]]].
    + left. exists k. left. split_and!; try done. by eapply lookup_lt_Some.
    + left. exists j. right. by split.
    + right. by apply list_elem_of_singleton.
Qed.

Lemma inserting_critical p n i : inserting p n i -> critical p = true.
Proof. by intros [k ->]. Qed.

Lemma critical_step k e s s' :
  system_step k e s = Some s' -> (threads_at critical (threads s) <= 1)%nat -> (locked (sh s) = false -> threads_at critical (threads s) = 0%nat) ->
  (threads_at critical (threads s') <= 1)%nat /\ (locked (sh s') = false -> threads_at critical (threads s') = 0%nat).
Proof.
  intros (p & p' & sp & Hk & E & Et)%system_step_inv H1 H2.
  pose proof (count_step critical k (threads s) p p' sp Hk) as Hc. rewrite <- Et in Hc. cbn [critical Nat.b2n] in Hc.
  destruct (step_lock _ _ _ _ _ _ _ E) as [[Ec El]|[(C1 & C2 & L1 & L2)|(C1 & C2 & L)]].
  - rewrite Ec, El in *. assert (threads_at critical (threads s') = threads_at critical (threads s)) as -> by (destruct sp; lia). done.
  - rewrite C1, C2 in Hc. cbn in Hc. rewrite (H2 L1) in Hc. split; [destruct sp; lia|congruence].
  - rewrite C1, C2 in Hc. cbn in Hc. split; [|intros _]; destruct sp; lia.
Qed.

Lemma keep_step k e s s' : system_step k e s = Some s' -> removes (ev_job e) = false -> keep_inv s -> keep_inv s'.
Proof.
  intros Hs Hr [He H1 H2 Hf Hroot]. destruct (critical_step k e s s' Hs H1 H2) as [H1' H2'].
  apply system_step_inv in Hs as (p & p' & sp & Hk & E & Et).
  destruct (step_registry _ _ _ _ _ _ _ E Hr (Forall_lookup_1 _ _ _ _ He Hk)) as [He' Hreg].
  assert (forall j q n i, j <> k -> threads s !! j = Some q -> inserting q n i -> critical p = false) as Hother.
  { intros j q n i Hj Hq Hi%inserting_critical. destruct (critical p) eqn:Ec; [|done].
    by rewrite (count_others critical (threads s) k p j q) in Hi. }
  assert (forall q, q ∈ threads s' <-> q = p' \/ (exists j, j <> k /\ threads s !! j = Some q) \/ (sp = true /\ q = MonStart)) as Hin
    by (intros q; rewrite Et; by apply (in_moved _ k p)).
  assert (forall j q, threads s !! j = Some q -> q ∈ threads s) as Hel by (intros j q; apply list_elem_of_lookup_2).
  split; [rewrite Et; by apply Forall_moved|done|done| |].
  - intros q n i [->|[(j & Hj & Hq)|[_ ->]]]%Hin Hi; [| |by destruct Hi].
    + destruct Hreg as [(_ & _ & Hno & _)|[(n' & -> & _ & [f ->] & Hn & _)|(? & ? & _ & _ & _ & _ & Hno)]];
        [by destruct (Hno n i)| |by destruct (Hno n i)]. destruct Hi as [? [= -> _]]. done.
    + pose proof (Hf q n i (Hel _ _ Hq) Hi) as Hn. pose proof (Hother j q n i Hj Hq Hi) as Hc.
      destruct Hreg as [(-> & _)|[(n' & -> & _)|(n' & i' & _ & -> & _ & Hi' & _)]]; [done|done|].
      apply inserting_critical in Hi'. congruence.
  - intros i Hi.
    assert (forall q n, q ∈ threads s -> inserting q n i -> q <> p -> exists q n, q ∈ threads s' /\ inserting q n i) as Hkept.
    { intros q n (j & Hq)%list_elem_of_lookup Hqi Hqp. exists q, n. split; [|done]. apply Hin. right. left. exists j. split; [|done].
      intros ->. congruence. }
    destruct Hreg as [(Em & El & _ & Hp)|[(n' & Em & El & Hp' & _ & _ & Hp)|(n' & i' & Hn & Em & El & Hp & _)]].
    + rewrite El in Hi. rewrite Em. destruct (Hroot i Hi) as [?|(q & n & Hq & Hqi)]; [by left|right]. apply (Hkept q n); [done|done|].
      intros ->. destruct (Hp n i Hqi) as [x Hx]. rewrite (Hf p n i) in Hx; [done|by eapply Hel|done].
    + rewrite El in Hi. rewrite Em. destruct (decide (i = length (loggers (core (sh s))))) as [->|Hne].
      * right. exists p', n'. split; [|done]. apply Hin. by left.
      * destruct (Hroot i ltac:(lia)) as [?|(q & n & Hq & Hqi)]; [by left|right]. apply (Hkept q n); [done|done|].
        intros ->. by destruct (Hp n i).
    + rewrite El in Hi. rewrite Em. destruct (Hroot i Hi) as [(n & En)|(q & n & Hq & Hqi)].
      * left. exists n. rewrite lookup_insert_ne by congruence. done.
      * destruct (decide (i = i')) as [->|Hne]; [left; exists n'; by rewrite lookup_insert_eq|right]. apply (Hkept q n); [done|done|].
        intros ->. destruct Hqi as [? ->], Hp as [? [= -> -> ->]]. done.
Qed.

Lemma keep_init n : keep_inv (system0 n).
Proof.
  assert (forall f, f Idle = false -> threads_at f (replicate n Idle) = 0%nat) as E0.
  { intros f Hf. induction n as [|n IH]; [done|]. change (replicate (S n) Idle) with ([Idle] ++ replicate n Idle).
    by rewrite count_app, count_one, IH, Hf. }
  split; cbn [threads system0]; rewrite ?E0 by done; [by apply Forall_replicate|lia|done| |cbn; lia].
  intros p ? ? (-> & _)%elem_of_replicate [? ?]. done.
Qed.
Lemma keep_steps s s' : keeping_steps s s' -> keep_inv s -> keep_inv s'.
Proof. induction 1 as [|s s1 s2 (k & e & Hr & E) _ IH]; [done|]. intros Hi. apply IH. by eapply keep_step. Qed.

(** While no logger is removed, every logger is alive. *)
Lemma keep_live s i : keep_inv s -> (i < length (loggers (core (sh s))))%nat -> live s i = true.
Proof.
  intros Hk Hi. unfold live, pointers. apply bool_decide_eq_true. rewrite !elem_of_app.
  destruct (ki_root s Hk i Hi) as [[n Hn]|(p & n & Hp & [f ->])].
  - left. apply list_elem_of_fmap. exists (n, i). split; [done|]. by apply elem_of_map_to_list.
  - right. right. apply list_elem_of_In, in_flat_map. exists (GetInsert n i f). split; [by apply list_elem_of_In|]. by left.
Qed.
End invariants.

(** C30: The monitor thread under any interleaving.  In every run of the threads of the service, between
    whose lookups, tests, swaps and assignments any other thread may run, at most one monitor thread is alive,
    the flag is set while it is, no other thread is then about to start one, and the pointer to the producer it retries
    with is not null.  As long as no logger is removed, that producer is not deleted while the monitor may
    use it, so that its send is defined. *)
Theorem monitor_unique `{LogConst} n s :
  system_steps (system0 n) s ->
  (threads_at is_monitor (threads s) <= 1)%nat
  /\ (forall p, p ∈ threads s -> is_monitor p = true ->
       m_started (monitor (core (sh s))) = true /\ forall i msg, StartInit i msg ∉ threads s /\ StartCreate i ∉ threads s)
  /\ (forall q, MonSend q ∈ threads s -> exists i, q = Some i /\ (i < length (loggers (core (sh s))))%nat)
  /\ (keeping_steps (system0 n) s -> forall e q, MonSend q ∈ threads s -> exists p' s', thread_step (live s) e (MonSend q) (sh s) = Next p' s' false).
Proof.
  intros Hs. pose proof (owner_inv_steps _ _ Hs (owner_init n)) as Ho. pose proof (producer_steps _ _ Hs (owner_init n) (producer_init n)) as Hp.
  assert (forall q, MonSend q ∈ threads s -> exists i, q = Some i /\ (i < length (loggers (core (sh s))))%nat) as Hq.
  { intros q Hq. pose proof (pi_pc s Hp) as Hf. rewrite Forall_forall in Hf. exact (Hf _ Hq). }
  split_and!; [|intros p Hpin Hm; split|done|].
  - etrans; [|apply Ho]. apply count_le. intros p Hm. unfold owns. by destruct p.
  - apply Ho. apply list_elem_of_lookup in Hpin as [k Hk]. apply (threads_at_pos owns _ k p Hk). unfold owns. by destruct p.
  - apply list_elem_of_lookup in Hpin as [k Hk]. assert (owns p = true) as Hop by (unfold owns; by destruct p).
    assert (forall x, owns x = true -> is_monitor x = false -> x ∉ threads s) as Hno.
    { intros x Hx Hmx [j Hj]%list_elem_of_lookup. pose proof (count_others owns (threads s) k p j x eq_refl (oi_one s Ho) Hk Hop Hj) as E.
      destruct (decide (k = j)) as [<-|Hne]; [congruence|]. by rewrite E in Hx. }
    intros i msg. split; by apply Hno.
  - intros Hk e q Hin. destruct (Hq q Hin) as (i & -> & Hi). pose proof (keep_live s i (keep_steps _ _ Hk (keep_init n)) Hi) as Hl.
    cbn [thread_step monitor_step]. rewrite Hl. cbn [negb]. destruct (ev_answer e) as [[]|]; eauto.
Qed.

(** ** Where the records are *)

(** The record a thread is responsible for; that of the owner of the flag is the message of the monitor. *)
Definition purpose_hand (m : Message) (k : purpose) : list bytes :=
  match k with ForPush log _ => [log] | ForMonitor _ => [msg_bytes m] | _ => [] end.
Definition hand (m : Message) (p : thread_pc) : list bytes :=
  match p with
  | GetFind _ _ k | GetLock _ _ k | GetFindAgain _ _ k | GetInsert _ _ k | GetUnlock _ _ k | GetReturn _ _ k => purpose_hand m k
  | PushRun _ log _ => [log]
  | StartMode _ msg | StartTest _ msg | StartCas _ msg | StartInit _ msg => [msg_bytes msg]
  | StartCreate _ | MonStart | MonSend _ | MonSleep5 _ | MonAsk _ _ | MonSleep2 _ => [msg_bytes m]
  | _ => []
  end.
Definition hands (s : system) : list bytes := flat_map (hand (m_msg (monitor (core (sh s))))) (threads s).

(** The records kafka accepted, those queued for the local files, and those that were given up. *)
Definition accepted (s : shared) : list bytes := map msg_bytes (sent (core s)).
Definition queued (s : shared) : list bytes := flat_map tasks (loggers (core s)).
Definition given_up (s : shared) : list bytes := (dropped s).*2.

Section records.
Context `{LogConst}.

Lemma queued_logger s i l l' new :
  loggers (core s) !! i = Some l -> tasks l' = tasks l ++ new -> queued (set_core (set_logger i l' (core s)) s) ≡ₚ queued s ++ new.
Proof.
  intros (a & b & El & Ei)%split_at Et. unfold queued. cbn. rewrite Ei, El, !flat_map_app. cbn [flat_map]. rewrite Et. by solve_Permutation.
Qed.
Lemma queued_mode s i l b : loggers (core s) !! i = Some l -> queued (set_core (set_logger i (setWorkMode b i l) (core s)) s) ≡ₚ queued s.
Proof.
  intros El. rewrite (queued_logger s i l _ [] El); [by rewrite app_nil_r|]. rewrite app_nil_r. unfold setWorkMode. by destruct (_ && _).
Qed.

(** What a step does with the records: those it was given are added to those that were there. *)
Lemma step_records lv e p s p' s' sp :
  thread_step lv e p s = Next p' s' sp ->
  let m := m_msg (monitor (core s)) in let m' := m_msg (monitor (core s')) in
  exists new, pushed s' = pushed s ++ new
    /\ accepted s' ++ queued s' ++ given_up s' ++ hand m' p' ++ (if sp then hand m' MonStart else [])
       ≡ₚ accepted s ++ queued s ++ given_up s ++ hand m p ++ new
    /\ (m' = m \/ owns p = true).
Proof.
  intros E. cbn zeta. unfold accepted, given_up.
  open_step p E; try (exists []; split; [by rewrite app_nil_r|]; split; [|by auto]; cbn; try done).
  - exists [log]. split; [done|]. split; [|by left]. done.
  - exists [log]. split; [done|]. split; [|by left]. done.
  - unfold queued. rewrite flat_map_app. unfold LogPusher_new. by destruct logLocal; rewrite app_nil_r.
  - by destruct k.
  - unfold queued. rewrite map_app. cbn. solve_Permutation.
  - match goal with |- context [<[i := ?x]> _] => pose proof (queued_logger s i l x [log] ltac:(done) eq_refl) as Hq end.
    unfold queued in Hq at 1. cbn in Hq. rewrite Hq. solve_Permutation.
  - rewrite fmap_app. cbn. unfold queued. cbn. solve_Permutation.
  - pose proof (queued_mode s i l true ltac:(done)) as Hq. unfold queued in Hq at 1. cbn in Hq. by rewrite Hq.
  - rewrite fmap_app. cbn. unfold queued. cbn. solve_Permutation.
  - rewrite fmap_app. cbn. unfold queued. cbn. solve_Permutation.
  - rewrite fmap_app. cbn. unfold queued. cbn. solve_Permutation.
  - pose proof (queued_mode s i l workLocal ltac:(done)) as Hq. unfold queued in Hq at 1. cbn in Hq. rewrite Hq. by destruct next.
  - unfold queued. rewrite map_app. cbn. solve_Permutation.
  - rewrite fmap_app. cbn. unfold queued. cbn. solve_Permutation.
Qed.

Lemma hand_other m m' p : owns p = false -> hand m' p = hand m p.
Proof. destruct p; try done; destruct k as [| |? []|]; done. Qed.
Lemma hands_others m m' l : Forall (fun p => owns p = false) l -> flat_map (hand m') l = flat_map (hand m) l.
Proof. induction 1 as [|p l Hp Hl IH]; [done|]. cbn [flat_map]. by rewrite IH, (hand_other m m' p Hp). Qed.

(** All the records that were given to the loggers. *)
Definition accounted (s : system) : Prop :=
  pushed (sh s) ≡ₚ accepted (sh s) ++ queued (sh s) ++ given_up (sh s) ++ hands s.

Lemma accounted_step k e s s' : system_step k e s = Some s' -> owner_inv s -> accounted s -> accounted s'.
Proof.
  intros (p & p' & sp & Hk & E & Et)%system_step_inv [H1 _] Ha. unfold accounted, hands in *.
  destruct (step_records _ _ _ _ _ _ _ E) as (new & -> & Hr & Hm). rewrite Et.
  pose proof (split_at _ _ _ Hk) as (a & b & El & Ei). rewrite Ei.
  set (m := m_msg (monitor (core (sh s)))) in *. set (m' := m_msg (monitor (core (sh s')))) in *.
  assert (flat_map (hand m') a = flat_map (hand m) a /\ flat_map (hand m') b = flat_map (hand m) b) as [Ea Eb].
  { destruct Hm as [->|Ho]; [done|].
    assert (threads_at owns a = 0%nat /\ threads_at owns b = 0%nat) as [Ca Cb].
    { rewrite El in H1. change (p :: b) with ([p] ++ b) in H1. rewrite !count_app, count_one, Ho in H1. cbn in H1. lia. }
    split; by apply hands_others, count_zero. }
  assert (flat_map (hand m') (if sp then [MonStart] else []) = if sp then hand m' MonStart else []) as Esp by by destruct sp.
  rewrite Ha, El, !flat_map_app, Esp. cbn [flat_map]. rewrite Ea, Eb. set (X := if sp then _ else _) in *.
  transitivity ((accepted (sh s) ++ queued (sh s) ++ given_up (sh s) ++ hand m p ++ new) ++ flat_map (hand m) a ++ flat_map (hand m) b);
    [solve_Permutation|]. rewrite <- Hr. solve_Permutation.
Qed.

Lemma accounted_steps s s' : system_steps s s' -> owner_inv s -> accounted s -> accounted s'.
Proof.
  induction 1 as [|s s1 s2 (k & e & E) _ IH]; [done|]. intros Ho Ha. apply IH; [by eapply owner_step|by eapply accounted_step].
Qed.
Lemma accounted_init n : accounted (system0 n).
Proof. unfold accounted, hands. cbn. induction n as [|n IH]; done. Qed.

(** What happened when a record was given up. *)
Lemma step_dropped lv e p s p' s' sp r log :
  thread_step lv e p s = Next p' s' sp -> dropped s' = dropped s ++ [(r, log)] ->
  match r with
  | Unimportant => exists i l, p = PushRun i log false /\ loggers (core s) !! i = Some l /\ modeLocal l = true
  | MonitorBusy => exists i msg, (p = StartTest i msg \/ p = StartCas i msg) /\ msg_bytes msg = log /\ m_started (monitor (core s)) = true
  | NoThread => exists i, p = StartCreate i /\ ev_created e = false /\ msg_bytes (m_msg (monitor (core s))) = log
  | GivenUp => exists i q l, p = MonAsk i q /\ loggers (core s) !! i = Some l /\ modeLocal l = false /\ msg_bytes (m_msg (monitor (core s))) = log
  end.
Proof.
  intros E Hd.
  open_step p E; cbn in Hd; try (by apply (f_equal length) in Hd; rewrite length_app in Hd; cbn in Hd; lia);
    apply app_inv_head in Hd; injection Hd as <- <-.
  - exists i, l. split_and!; [done|done|by destruct (modeLocal l)].
  - exists i, msg. auto.
  - exists i, msg. auto.
  - by exists i.
  - exists i, p, l. split_and!; [done|done|by destruct (modeLocal l)|done].
Qed.

Lemma step_drops lv e p s p' s' sp :
  thread_step lv e p s = Next p' s' sp -> dropped s' = dropped s \/ exists r log, dropped s' = dropped s ++ [(r, log)].
Proof. intros E. open_step p E; cbn; eauto. Qed.

(** After a failed [pthread_create] the flag is set and nobody owns it, for ever. *)
Lemma abandoned_step k e s s' :
  system_step k e s = Some s' -> threads_at owns (threads s) = 0%nat -> m_started (monitor (core (sh s))) = true ->
  threads_at owns (threads s') = 0%nat /\ m_started (monitor (core (sh s'))) = true.
Proof.
  intros (p & p' & sp & Hk & E & Et)%system_step_inv H0 Hs. assert (owns p = false) as Hp.
  { apply count_zero in H0. by apply (Forall_lookup_1 _ _ _ _ H0 Hk). }
  pose proof (count_step owns k (threads s) p p' sp Hk) as Hc. rewrite <- Et, H0, Hp in Hc. cbn [owns is_monitor Nat.b2n] in Hc.
  destruct (step_owner _ _ _ _ _ _ _ E) as [[Ho Es]|[(_ & _ & _ & S1 & _)|(O1 & _)]]; [|congruence|congruence].
  rewrite Hp in Ho. destruct sp; cbn in Ho; [lia|]. split; [lia|congruence].
Qed.
End records.

(** C31: No record disappears without a reason.  Under any interleaving of the threads, the records that were
    given to the loggers are, up to their order, those that kafka accepted, those that are queued for the
    local files, those that a thread is still working with, the monitor among them, and those that were
    given up.  A step gives up at most one record, and only when a local logger is given a record that is
    not important; when the send of a record failed and the monitor was started before for another one;
    when the thread of the monitor could not be created; or when the monitor finds the service logger in
    remote mode again before it sent its record. *)
Theorem records_accounted `{LogConst} n s :
  system_steps (system0 n) s ->
  pushed (sh s) ≡ₚ accepted (sh s) ++ queued (sh s) ++ given_up (sh s) ++ hands s
  /\ forall k e s', system_step k e s = Some s' ->
       dropped (sh s') = dropped (sh s)
       \/ exists p r log, threads s !! k = Some p /\ dropped (sh s') = dropped (sh s) ++ [(r, log)]
            /\ match r with
               | Unimportant => exists i l, p = PushRun i log false /\ loggers (core (sh s)) !! i = Some l /\ modeLocal l = true
               | MonitorBusy => exists i msg, (p = StartTest i msg \/ p = StartCas i msg) /\ msg_bytes msg = log
                                  /\ m_started (monitor (core (sh s))) = true
               | NoThread => exists i, p = StartCreate i /\ ev_created e = false /\ msg_bytes (m_msg (monitor (core (sh s)))) = log
               | GivenUp => exists i q l, p = MonAsk i q /\ loggers (core (sh s)) !! i = Some l /\ modeLocal l = false
                              /\ msg_bytes (m_msg (monitor (core (sh s)))) = log
               end.
Proof.
  intros Hs. split; [by apply (accounted_steps _ _ Hs (owner_init n)), accounted_init|].
  intros k e s' (p & p' & sp & Hk & E & _)%system_step_inv. destruct (step_drops _ _ _ _ _ _ _ E) as [?|(r & log & Hd)]; [by left|right].
  exists p, r, log. split; [done|]. split; [done|]. exact (step_dropped _ _ _ _ _ _ _ _ _ E Hd).
Qed.

(** A monitor thread that could not be created is never created: the flag stays set, and no thread clears it. *)
Theorem monitor_lost `{LogConst} n s k i e s1 s2 :
  system_steps (system0 n) s -> threads s !! k = Some (StartCreate i) -> ev_created e = false -> system_step k e s = Some s1 -> system_steps s1 s2 ->
  threads_at is_monitor (threads s2) = 0%nat /\ m_started (monitor (core (sh s2))) = true.
Proof.
  intros Hs Hk He E Hs2. pose proof (owner_inv_steps _ _ Hs (owner_init n)) as [H1 H2].
  assert (threads_at owns (threads s1) = 0%nat /\ m_started (monitor (core (sh s1))) = true) as Hab.
  { pose proof (threads_at_pos owns _ k _ Hk eq_refl) as Hpos. apply system_step_inv in E as (p & p' & sp & Hk' & E & Et).
    rewrite Hk in Hk'. injection Hk' as <-. cbn [thread_step start_step] in E. rewrite He in E. injection E as <- <- <-.
    pose proof (count_step owns k (threads s) _ Idle false Hk) as Hc. cbn in Hc, Et. rewrite <- Et in Hc. split; [lia|]. by apply H2. }
  assert (threads_at owns (threads s2) = 0%nat /\ m_started (monitor (core (sh s2))) = true) as [H0 Hst].
  { clear -Hs2 Hab. induction Hs2 as [|s1 s2 s3 (k & e & E) _ IH]; [done|]. apply IH. by eapply abandoned_step; [exact E|apply Hab|apply Hab]. }
  split; [|done]. enough (threads_at is_monitor (threads s2) <= threads_at owns (threads s2))%nat by lia. apply count_le.
  intros p Hm. unfold owns. by destruct p.
Qed.

(** ** One thread alone *)

(** A thread that runs until it is idle or pushes, without an interruption, with what the outside answers. *)
Definition stops (p : thread_pc) : bool := match p with Idle | PushRun _ _ _ => true | _ => false end.
Fixpoint alone `{LogConst} (fuel : nat) (e : outside_event) (p : thread_pc) (s : shared) : option (thread_pc * shared) :=
  match fuel with
  | O => None
  | S fuel => match thread_step (fun _ => true) e p s with
              | Next p s _ => if stops p then Some (p, s) else alone fuel e p s
              | _ => None
              end
  end.

Section alone.
Context `{LogConst}.

Lemma alone_next fuel e p s p' s' sp :
  thread_step (fun _ => true) e p s = Next p' s' sp -> alone (S fuel) e p s = if stops p' then Some (p', s') else alone fuel e p' s'.
Proof. cbn [alone]. by intros ->. Qed.

(** The run of [startRemoteMonitor]. *)
Lemma start_alone fuel i l msg j r cr s :
  loggers (core s) !! i = Some l ->
  exists s', alone (S (S (S (S fuel)))) (mkEvent j (Answer r) cr) (StartTest i msg) s = Some (Idle, s') /\ core s' = startRemoteMonitor l msg cr (core s).
Proof.
  intros El. set (e := mkEvent _ _ _). unfold startRemoteMonitor. destruct (m_started (monitor (core s))) eqn:Es.
  - erewrite (alone_next _ e) by (cbn; by rewrite Es). by eexists.
  - erewrite (alone_next _ e) by (cbn; by rewrite Es). cbn [stops]. erewrite (alone_next _ e) by (cbn; by rewrite Es). cbn [stops].
    erewrite (alone_next _ e) by (cbn; unfold with_logger; cbn; by rewrite El). cbn [stops].
    destruct cr; (erewrite (alone_next _ e) by reflexivity); by eexists.
Qed.

(** [push] of LogPusher.v is its steps without an interruption. *)
Lemma push_alone i log important j r cr s c :
  push i log important r cr i (core s) = Val c ->
  exists s', alone 6 (mkEvent j (Answer r) cr) (PushRun i log important) s = Some (Idle, s') /\ core s' = c.
Proof.
  unfold push. intros E. set (e := mkEvent _ _ _). destruct (loggers (core s) !! i) as [l|] eqn:El; [|done].
  destruct (modeLocal l) eqn:Em; cbn [negb] in *.
  - destruct important; injection E as <-; (erewrite (alone_next _ e) by (cbn; unfold with_logger; rewrite El, Em; reflexivity)); by eexists.
  - destruct (producer l) as [q|] eqn:Ep; [|done].
    destruct r; injection E as <-; (erewrite (alone_next _ e) by (cbn; unfold with_logger; rewrite El, Em; cbn; rewrite Ep; reflexivity)); [by eexists|].
    cbn [stops]. erewrite (alone_next _ e) by (cbn; unfold with_logger; rewrite El; reflexivity). cbn [stops].
    apply (start_alone 0 i). cbn. apply list_lookup_insert_eq. by eapply lookup_lt_Some.
Qed.

(** [getLogger] of LogPusher.v is its steps without an interruption. *)
Lemma getLogger_alone n b e log important s i c :
  locked s = false -> writing s = false -> getLogger n b (length (loggers (core s))) (core s) = (i, c) ->
  exists s', alone 6 e (GetFind n b (ForPush log important)) s = Some (PushRun i log important, s')
    /\ core s' = c /\ locked s' = false /\ writing s' = false.
Proof.
  intros Hl Hw E. unfold getLogger in E. destruct (logMap (core s) !! n) as [i'|] eqn:En; injection E as <- <-.
  - erewrite (alone_next _ e) by (cbn; rewrite Hw, En; reflexivity). cbn [stops].
    erewrite (alone_next _ e) by (cbn; rewrite bool_decide_eq_true_2 by done; reflexivity). by eexists.
  - erewrite (alone_next _ e) by (cbn; rewrite Hw, En; reflexivity). cbn [stops].
    erewrite (alone_next _ e) by (cbn; rewrite Hl; reflexivity). cbn [stops].
    erewrite (alone_next _ e) by (cbn; rewrite Hw, En; reflexivity). cbn [stops].
    erewrite (alone_next _ e) by (cbn; rewrite En; reflexivity). cbn [stops].
    erewrite (alone_next _ e) by reflexivity. cbn [stops].
    erewrite (alone_next _ e) by (cbn; rewrite bool_decide_eq_true_2 by (by rewrite lookup_insert_eq); reflexivity). by eexists.
Qed.
End alone.

(** ** Instances *)

Lemma run_steps `{LogConst} sched s s' : run sched s = Some s' -> system_steps s s'.
Proof.
  revert s. induction sched as [|[k e] sched IH]; intros s; cbn [run]; [intros [= <-]; apply rtc_refl|].
  destruct (system_step k e s) as [s1|] eqn:E; [|done]. intros Hr. eapply rtc_l; [by exists k, e|by apply IH].
Qed.
Lemma run_keeping `{LogConst} sched s s' : forallb (fun ke => negb (removes (ev_job ke.2))) sched = true -> run sched s = Some s' -> keeping_steps s s'.
Proof.
  revert s. induction sched as [|[k e] sched IH]; intros s; cbn [run forallb snd]; [intros _ [= <-]; apply rtc_refl|].
  intros [Hr Hs]%andb_true_iff. destruct (system_step k e s) as [s1|] eqn:E; [|done]. intros Hrun.
  eapply rtc_l; [exists k, e; split; [by destruct (removes (ev_job e))|done]|by apply IH].
Qed.

Module ThreadsInstance.
Import LogConcrete.

Definition failing (j : job) : outside_event := mkEvent j (Answer SEND_ERROR) true.
(** Thread [k] takes [n] steps. *)
Definition turns (k n : nat) (e : outside_event) : list (nat * outside_event) := replicate n (k, e).

(** Thread 0 pushes a record, whose send fails, and starts the monitor, which is thread 2. *)
Definition service : bytes := str "service".
Definition first_failure : list (nat * outside_event) := turns 0 13 (failing (JobLog service false (str "m") true)) ++ turns 2 1 (failing (JobPin [] false)).
Definition after_failure : system := default (system0 0) (run first_failure (system0 2)).

Lemma monitor_unique_witness :
  (threads_at is_monitor (threads after_failure) <= 1)%nat /\ MonSend (Some 0%nat) ∈ threads after_failure
  /\ exists p' s', thread_step (live after_failure) (failing (JobPin [] false)) (MonSend (Some 0%nat)) (sh after_failure) = Next p' s' false.
Proof.
  assert (run first_failure (system0 2) = Some after_failure) as E by (vm_compute; reflexivity).
  destruct (monitor_unique 2 after_failure (run_steps _ _ _ E)) as (H1 & _ & _ & H4).
  assert (MonSend (Some 0%nat) ∈ threads after_failure) as Hin by (apply list_elem_of_lookup; exists 2%nat; vm_compute; reflexivity).
  split; [exact H1|]. split; [exact Hin|]. apply H4; [|exact Hin]. refine (run_keeping _ _ _ _ E). vm_compute. reflexivity.
Defined.

(** A second record fails while the monitor of the first one runs. *)
Definition second_failure : list (nat * outside_event) :=
  turns 0 8 (failing (JobLog service false (str "m") true)) ++ turns 1 4 (failing (JobLog service false (str "x") true))
  ++ turns 0 5 (failing (JobLog service false (str "m") true)) ++ turns 1 2 (failing (JobLog service false (str "x") true)).
Definition after_second : system := default (system0 0) (run second_failure (system0 2)).

Lemma records_accounted_witness :
  pushed (sh after_second) = [str "m"; str "x"] /\ dropped (sh after_second) = [(MonitorBusy, str "x")] /\ hands after_second = [str "m"]
  /\ pushed (sh after_second) ≡ₚ accepted (sh after_second) ++ queued (sh after_second) ++ given_up (sh after_second) ++ hands after_second.
Proof.
  assert (run second_failure (system0 2) = Some after_second) as E by (vm_compute; reflexivity).
  split; [vm_compute; reflexivity|]. split; [vm_compute; reflexivity|]. split; [vm_compute; reflexivity|].
  exact (proj1 (records_accounted 2 after_second (run_steps _ _ _ E))).
Defined.

(** A thread that is not created. *)
Lemma monitor_lost_witness :
  exists s1, threads_at is_monitor (threads s1) = 0%nat /\ m_started (monitor (core (sh s1))) = true.
Proof.
  set (j := JobLog service false (str "m") true).
  assert (exists s, run (turns 0 12 (failing j)) (system0 1) = Some s /\ threads s = [StartCreate 0]) as (s & E & Et)
    by (eexists; split; vm_compute; reflexivity).
  assert (exists s1, system_step 0 (mkEvent j (Answer SEND_ERROR) false) s = Some s1) as [s1 E1]
    by (unfold system_step; rewrite Et; cbn; by eexists).
  exists s1. apply (monitor_lost 1 s 0 0 (mkEvent j (Answer SEND_ERROR) false) s1 s1); [exact (run_steps _ _ _ E)|by rewrite Et|reflexivity|exact E1|apply rtc_refl].
Defined.

(** A service logger that is created for local files has no producer, and nothing creates one: when the delivery
    reports of another logger fail and recover, the callback switches the service logger to remote mode
    and its next record is sent through a null pointer. *)
Theorem local_logger_null_producer :
  exists s log, system_steps (system0 1) s /\ threads s = [PushRun 0 log true]
    /\ forall e, thread_step (live s) e (PushRun 0 log true) (sh s) = Undefined.
Proof.
  set (sched := turns 0 8 (failing (JobPin service true)) ++ turns 0 8 (failing (JobPin (str "BID_service") false))
    ++ turns 0 5 (failing (JobReport 1 true)) ++ turns 0 4 (failing (JobReport 1 false)) ++ turns 0 1 (failing (JobPush 0 (str "m") true))).
  destruct (run sched (system0 1)) as [s|] eqn:E; [|vm_compute in E; discriminate E].
  exists s, (str "m"). split; [exact (run_steps _ _ _ E)|]. vm_compute in E. injection E as <-. split; [reflexivity|]. intros e. reflexivity.
Qed.

(** The monitor can give up its record: when delivery reports switch the logger to local and back to remote mode while it
    sleeps, the thread ends without having sent the record that started it. *)
Theorem monitor_drops_record :
  exists s, system_steps after_failure s /\ dropped (sh s) = [(GivenUp, str "m")] /\ sent (core (sh s)) = [] /\ nth 2 (threads s) Idle = Ended.
Proof.
  set (sched := turns 2 1 (failing (JobPin [] false)) ++ turns 1 5 (failing (JobReport 0 true)) ++ turns 1 4 (failing (JobReport 0 false))
    ++ turns 2 5 (failing (JobPin [] false))).
  destruct (run sched after_failure) as [s|] eqn:E; [|vm_compute in E; discriminate E].
  exists s. split; [exact (run_steps _ _ _ E)|]. vm_compute in E. injection E as <-. repeat split; vm_compute; reflexivity.
Qed.

(** The monitor keeps a plain pointer to the producer: when its logger is removed, the destructor deletes the producer and
    the next retry is undefined. *)
Theorem removed_logger_used :
  exists s, system_steps after_failure s /\ MonSend (Some 0%nat) ∈ threads s
    /\ forall e, thread_step (live s) e (MonSend (Some 0%nat)) (sh s) = Undefined.
Proof.
  destruct (run (turns 0 2 (failing (JobRemove service))) after_failure) as [s|] eqn:E; [|vm_compute in E; discriminate E].
  exists s. split; [exact (run_steps _ _ _ E)|]. vm_compute in E. injection E as <-.
  split; [apply list_elem_of_lookup; exists 2%nat; reflexivity|]. intros e. reflexivity.
Qed.

(** A lookup while another thread inserts is a data race: [getLogger] looks names up before it takes the lock. *)
Theorem getLogger_races :
  exists s n k, system_steps (system0 2) s /\ GetFind n false k ∈ threads s
    /\ forall e, thread_step (live s) e (GetFind n false k) (sh s) = Undefined.
Proof.
  set (sched := turns 0 4 (failing (JobPin service false)) ++ turns 1 1 (failing (JobPin (str "BID_service") false))).
  destruct (run sched (system0 2)) as [s|] eqn:E; [|vm_compute in E; discriminate E].
  exists s, (str "BID_service"), ForPin. split; [exact (run_steps _ _ _ E)|]. vm_compute in E. injection E as <-.
  split; [apply list_elem_of_lookup; exists 1%nat; reflexivity|]. intros e. reflexivity.
Qed.
End ThreadsInstance.
