(* ===== verification/Double.v ===== *)
(** * Double: IEEE 754 numbers, as the prices and fee rates use them

    A [double] is a [spec_float] of the Standard Library at 53 bits of precision, a [float] at
    24.  [strtod] reads the decimal and hexadecimal notations, infinities and NaN, rounds to
    nearest, and reports a range error as the C library does; [std::stod] and [std::stof] turn
    its failures into exceptions.  A conversion to an integer type that cannot hold the
    truncated value is undefined. *)
From Stdlib Require Import SpecFloat.
From S2P Require Import Prelude CString.

(** ** Formats *)

Record format := mkFormat { prec : Z; emax : Z }.
Definition binary64 : format := mkFormat 53 1024.
Definition binary32 : format := mkFormat 24 128.

Abbreviation double := spec_float.

Definition of_int (f : format) (z : Z) : spec_float := binary_normalize (prec f) (emax f) z 0 false.
Definition double_of_Z : Z -> double := of_int binary64.

Definition dmul : double -> double -> double := SFmul 53 1024.
Definition dadd : double -> double -> double := SFadd 53 1024.
Definition ddiv : double -> double -> double := SFdiv 53 1024.
Definition dle : double -> double -> bool := SFleb.

(** ** Conversions to integers *)

(** The integer parts of [m * 2 ^ e]. *)
Definition floor_pow (m e : Z) : Z := if 0 <=? e then m * 2 ^ e else m / 2 ^ (- e).
Definition ceil_pow (m e : Z) : Z := - floor_pow (- m) e.

(** [None] for infinities and NaN. *)
Definition Ztrunc (x : double) : option Z :=
  match x with
  | S754_zero _ => Some 0
  | S754_finite s m e => Some (let n := floor_pow (Zpos m) e in if s then - n else n)
  | _ => None
  end.

Definition Zceil (x : double) : option Z :=
  match x with
  | S754_zero _ => Some 0
  | S754_finite false m e => Some (ceil_pow (Zpos m) e)
  | S754_finite true m e => Some (- floor_pow (Zpos m) e)
  | _ => None
  end.

Definition in_range (lo hi : Z) (z : option Z) : outcome Z :=
  match z with Some z => check ((lo <=? z) && (z <=? hi));; Val z | None => Undef end.

(** [(int)x], [(int64_t)x] and [(int)std::ceil(x)]. *)
Definition int_of (x : double) : outcome Z := in_range INT_MIN INT_MAX (Ztrunc x).
Definition int64_of (x : double) : outcome Z := in_range LONG_MIN LONG_MAX (Ztrunc x).
Definition int_ceil (x : double) : outcome Z := in_range INT_MIN INT_MAX (Zceil x).

(** [memcpy] of eight bytes into a [double], by the value of the bytes. *)
Definition double_of_bits (b : Z) : double :=
  let s := Z.testbit b 63 in
  let ex := Z.land (Z.shiftr b 52) 0x7FF in
  let m := Z.land b (2 ^ 52 - 1) in
  if ex =? 0x7FF then (if m =? 0 then S754_infinity s else S754_nan)
  else if ex =? 0 then (match m with Zpos p => S754_finite s p (-1074) | _ => S754_zero s end)
  else S754_finite s (Z.to_pos (m + 2 ^ 52)) (ex - 1075).

(** ** strtod *)

Inductive number_text : Set :=
| TInf | TNan
| TDec (m e : Z)   (* m * 10 ^ e *)
| THex (m e : Z).  (* m * 2 ^ e *)

Definition to_lower (c : Z) : Z := if (65 <=? c) && (c <=? 90) then c + 32 else c.
Definition is_xdigit (c : Z) : bool := is_digit c || ((97 <=? to_lower c) && (to_lower c <=? 102)).
Definition xdigit (c : Z) : Z := if is_digit c then c - 48 else to_lower c - 87.

(** The optional exponent, [e] or [p] and a decimal number; without digits it is not part of
    the number. *)
Definition scan_exponent (letter : Z) (s : bytes) : Z :=
  match s with
  | c :: s' =>
    if to_lower c =? letter then
      let '(neg, ds) := match s' with
                        | d :: s'' => if d =? 45 then (true, s'') else if d =? 43 then (false, s'') else (false, s')
                        | [] => (false, [])
                        end in
      signed_value neg (take_while is_digit ds)
    else 0
  | [] => 0
  end.

(** The digits before and after the point; [None] without a digit. *)
Definition scan_mantissa (isd : Z -> bool) (s : bytes) : option (bytes * bytes * bytes) :=
  let ip := take_while isd s in
  let r := skip_while isd s in
  let '(fp, r) := match r with
                  | c :: r' => if c =? 46 then (take_while isd r', skip_while isd r') else ([], r)
                  | [] => ([], [])
                  end in
  match ip ++ fp with [] => None | _ => Some (ip, fp, r) end.

Definition scan_dec (s : bytes) : option number_text :=
  match scan_mantissa is_digit s with
  | Some (ip, fp, r) =>
    Some (TDec (value 10 (map (fun c => c - 48) (ip ++ fp))) (scan_exponent (ch "e") r - Z.of_nat (length fp)))
  | None => None
  end.

Definition scan_hex (s : bytes) : option number_text :=
  match scan_mantissa is_xdigit s with
  | Some (ip, fp, r) =>
    Some (THex (value 16 (map xdigit (ip ++ fp))) (scan_exponent (ch "p") r - 4 * Z.of_nat (length fp)))
  | None => None
  end.

Definition scan_unsigned (s : bytes) : option number_text :=
  let low := map to_lower s in
  if starts_with (str "inf") low then Some TInf
  else if starts_with (str "nan") low then Some TNan
  else if starts_with (str "0x") low then
    match scan_hex (drop 2 s) with Some t => Some t | None => scan_dec s end
  else scan_dec s.

(** Blanks, a sign and a number; [None] when nothing can be converted. *)
Definition scan_double (s : bytes) : option (bool * number_text) :=
  match skip_while is_space s with
  | [] => None
  | c :: s' =>
    let '(neg, r) := if c =? 45 then (true, s') else if c =? 43 then (false, s') else (false, c :: s') in
    match scan_unsigned r with Some t => Some (neg, t) | None => None end
  end.

(** The number nearest to [a / b * 2 ^ e], for positive [a] and [b]. *)
Definition round_ratio (f : format) (neg : bool) (a b e : Z) : spec_float :=
  let '(q, ez, l) := SFdiv_core_binary (prec f) (emax f) a e b 0 in
  binary_round_aux (prec f) (emax f) neg q ez l.

(** The notation as a ratio of integers and a power of two. *)
Definition ratio (t : number_text) : Z * Z * Z :=
  match t with
  | TDec m e => if 0 <=? e then (m * 10 ^ e, 1, 0) else (m, 10 ^ (- e), 0)
  | THex m e => (m, 1, e)
  | _ => (0, 1, 0)
  end.

(** Whether [x] is exactly [a / b * 2 ^ e]. *)
Definition exactly (x : spec_float) (a b e : Z) : bool :=
  match x with
  | S754_finite _ m ex =>
    let k := Z.min e ex in (Zpos m * b * 2 ^ (ex - k) =? a * 2 ^ (e - k))
  | _ => false
  end.

(** Smaller than every normal number, after rounding to the precision without a bound on
    the exponent. *)
Definition tiny (f : format) (a b e : Z) : bool :=
  match round_ratio (mkFormat (prec f) (2 ^ 40)) false a b e with
  | S754_finite _ m ex => Z.log2 (Zpos m) + ex <? 2 - emax f
  | _ => true
  end.

(** The value, and whether [errno] is [ERANGE]. *)
Definition strtod_value (f : format) (neg : bool) (t : number_text) : spec_float * bool :=
  match t with
  | TInf => (S754_infinity neg, false)
  | TNan => (S754_nan, false)
  | _ =>
    let '(a, b, e) := ratio t in
    if a =? 0 then (S754_zero neg, false)
    else
      let x := round_ratio f neg a b e in
      (x, match x with
          | S754_infinity _ => true
          | _ => tiny f a b e && negb (exactly x a b e)
          end)
  end.

Definition sto_float (f : format) (s : bytes) : outcome spec_float :=
  match scan_double (c_str s) with
  | None => Exc InvalidArgument
  | Some (neg, t) => let '(x, erange) := strtod_value f neg t in if erange then Exc OutOfRange else Val x
  end.

Definition stod : bytes -> outcome double := sto_float binary64.
Definition stof : bytes -> outcome spec_float := sto_float binary32.

(** ** Printing *)

(** [m * 2 ^ e] to the nearest integer, ties to even. *)
Definition round_half_even (m e : Z) : Z :=
  if 0 <=? e then m * 2 ^ e
  else
    let d := 2 ^ (- e) in
    let q := m / d in
    let r := m mod d in
    if 2 * r <? d then q else if d <? 2 * r then q + 1 else if Z.even q then q else q + 1.

(** [std::to_string(double)], which is [printf] with six decimals. *)
Definition to_string_double (x : double) : bytes :=
  let sign (s : bool) := if s then str "-" else [] in
  match x with
  | S754_nan => str "nan"
  | S754_infinity s => sign s ++ str "inf"
  | S754_zero s => sign s ++ str "0.000000"
  | S754_finite s m e =>
    let q := round_half_even (Zpos m * 10 ^ 6) e in
    sign s ++ to_string (q / 10 ^ 6) ++ str "." ++ zfill 6 (to_string (q mod 10 ^ 6))
  end.

(** ** Rounding *)

Lemma digits2_log2 p : Zpos (digits2_pos p) = Z.log2 (Zpos p) + 1.
Proof.
  induction p as [p IH|p IH|]; [| |done]; cbn [digits2_pos]; rewrite Pos2Z.inj_succ, IH.
  - rewrite (Pos2Z.inj_xI p), Z.log2_succ_double by lia. lia.
  - rewrite (Pos2Z.inj_xO p), Z.log2_double by lia. lia.
Qed.

Lemma log2_range m k : 0 <= k -> 2 ^ k <= m < 2 ^ (k + 1) -> Z.log2 m = k.
Proof. intros Hk Hm. apply Z.log2_unique; lia. Qed.

Lemma digits2_range m k : 0 <= k -> 2 ^ k <= Zpos m < 2 ^ (k + 1) -> Zpos (digits2_pos m) = k + 1.
Proof. intros. rewrite digits2_log2. f_equal. by apply log2_range. Qed.

(** What a right shift of a positive mantissa leaves: the quotient, its last lost bit and
    whether an earlier one was set. *)
Definition shifted (M : Z) (n : nat) (r : shr_record) : Prop :=
  shr_m r = M / 2 ^ Z.of_nat n
  /\ (shr_r r = false -> shr_s r = false -> M mod 2 ^ Z.of_nat n = 0)
  /\ (M mod 2 ^ Z.of_nat n = 0 -> shr_r r = false /\ shr_s r = false).

Lemma shr_1_half m r s :
  0 <= m ->
  shr_1 (Build_shr_record m r s) = Build_shr_record (m / 2) (Z.odd m) (r || s).
Proof.
  intros Hm. destruct m as [|[p|p|]|p]; try lia; cbn [shr_1]; f_equal.
  - rewrite (Pos2Z.inj_xI p). dlia.
  - rewrite (Pos2Z.inj_xO p). dlia.
Qed.

Lemma shifted_S M n r : 0 <= M -> shifted M n r -> shifted M (S n) (shr_1 r).
Proof.
  intros HM (Em & H1 & H2). destruct r as [m r s]. cbn [shr_m shr_r shr_s] in *.
  assert (0 < 2 ^ Z.of_nat n) by (apply Z.pow_pos_nonneg; lia).
  assert (2 ^ Z.of_nat (S n) = 2 ^ Z.of_nat n * 2) as Ep by (rewrite Nat2Z.inj_succ, Z.pow_succ_r by lia; lia).
  assert (0 <= m) by (subst; apply Z.div_pos; lia).
  rewrite shr_1_half by done. unfold shifted. cbn [shr_m shr_r shr_s]. rewrite Ep.
  assert (M mod (2 ^ Z.of_nat n * 2) = M mod 2 ^ Z.of_nat n + 2 ^ Z.of_nat n * (if Z.odd m then 1 else 0)) as Em'.
  { rewrite Z.rem_mul_r by lia. subst m. by rewrite <- Zmod_odd. }
  pose proof (Z.mod_pos_bound M (2 ^ Z.of_nat n) ltac:(lia)).
  split; [subst m; rewrite Z.div_div by lia; done|]. rewrite Em'. destruct (Z.odd m).
  - split; [done|nia].
  - rewrite Z.mul_0_r, Z.add_0_r. split.
    + intros _ Hs. apply orb_false_iff in Hs as [-> ->]. by apply H1.
    + intros E. by destruct (H2 E) as [-> ->].
Qed.

Lemma iter_pos_nat {A} (f : A -> A) p x : SpecFloat.iter_pos f p x = Nat.iter (Pos.to_nat p) f x.
Proof.
  revert x. induction p as [p IH|p IH|]; intros x; cbn [SpecFloat.iter_pos]; rewrite ?IH, <- ?Nat.iter_add; [| |done].
  - rewrite <- Nat.iter_succ_r. f_equal. lia.
  - f_equal. lia.
Qed.

Lemma shr_shifted M e n :
  0 <= M -> 0 <= n ->
  exists r, shr (Build_shr_record M false false) e n = (r, e + n) /\ shifted M (Z.to_nat n) r.
Proof.
  intros HM Hn. assert (forall k, shifted M k (Nat.iter k shr_1 (Build_shr_record M false false))) as Hi.
  { induction k as [|k IH]; [|by apply shifted_S].
    unfold shifted. cbn. rewrite Z.div_1_r, Z.mod_1_r. done. }
  unfold shr. destruct n as [|p|p]; [|rewrite iter_pos_nat|lia].
  - exists (Build_shr_record M false false). rewrite Z.add_0_r. split; [done|apply (Hi O)].
  - eexists. split; [done|]. by rewrite Z2Nat.inj_pos.
Qed.

Lemma round_nearest_cases M n r :
  0 <= M -> shifted M n r ->
  M / 2 ^ Z.of_nat n <= round_nearest_even (shr_m r) (loc_of_shr_record r) <= - (- M / 2 ^ Z.of_nat n).
Proof.
  intros HM (Em & H1 & H2). assert (0 < 2 ^ Z.of_nat n) by (apply Z.pow_pos_nonneg; lia).
  assert (M mod 2 ^ Z.of_nat n <> 0 -> M / 2 ^ Z.of_nat n + 1 <= - (- M / 2 ^ Z.of_nat n)) as Hup.
  { intros Hne. rewrite Z.div_opp_l_nz by lia. lia. }
  assert (M / 2 ^ Z.of_nat n <= - (- M / 2 ^ Z.of_nat n)) as Hle.
  { destruct (Z.eq_dec (M mod 2 ^ Z.of_nat n) 0); [rewrite Z.div_opp_l_z by lia; lia|lia]. }
  destruct r as [m [] []]; cbn [shr_m shr_r shr_s loc_of_shr_record round_nearest_even] in *; subst m;
    try (destruct (Z.even _)); try lia; split; try lia;
    apply Hup; intros E; destruct (H2 E); discriminate.
Qed.

(** The second normalisation, after a carry into the 54th bit or none. *)
Lemma renormalize Q f :
  2 ^ 52 <= Zpos Q <= 2 ^ 53 -> -1074 <= f <= 970 ->
  exists m' e',
    (let '(mrs, e) := shr_fexp 53 1024 (Zpos Q) f loc_Exact in
     match shr_m mrs with
     | Z0 => S754_zero false
     | Zpos m => if e <=? 1024 - 53 then S754_finite false m e else S754_infinity false
     | _ => S754_nan
     end) = S754_finite false m' e' /\ f <= e' <= f + 1 /\ Zpos m' * 2 ^ (e' - f) = Zpos Q.
Proof.
  intros HQ Hf. unfold shr_fexp. cbn [shr_record_of_loc Zdigits2]. unfold fexp, emin.
  destruct (Z.eq_dec (Zpos Q) (2 ^ 53)) as [E53|N53].
  - rewrite (digits2_range Q 53) by lia.
    replace (Z.max (53 + 1 + f - 53) (3 - 1024 - 53) - f) with 1 by lia.
    cbn [shr SpecFloat.iter_pos]. rewrite shr_1_half by lia. cbn [shr_m]. rewrite E53. change (2 ^ 53 / 2) with (2 ^ 52).
    destruct (Z.leb_spec (f + 1) (1024 - 53)); [|lia]. do 2 eexists. split; [reflexivity|]. split; [lia|].
    by replace (f + 1 - f) with 1 by lia.
  - rewrite (digits2_range Q 52) by lia.
    replace (Z.max (52 + 1 + f - 53) (3 - 1024 - 53) - f) with 0 by lia. cbn [shr shr_m].
    destruct (Z.leb_spec f (1024 - 53)); [|lia]. do 2 eexists. split; [reflexivity|]. split; [lia|].
    rewrite Z.sub_diag. lia.
Qed.

(** Rounding the positive number [M * 2 ^ e] of at least 53 bits: [q * 2 ^ f] is between the
    neighbours with 53 bits, and is the result up to normalisation. *)
Lemma round_spec M e :
  2 ^ 52 <= Zpos M -> -1074 <= e -> Z.log2 (Zpos M) + 1 + e <= 1023 ->
  exists m' e' q, let f := Z.log2 (Zpos M) - 52 + e in
    binary_round_aux 53 1024 false (Zpos M) e loc_Exact = S754_finite false m' e'
    /\ f <= e' <= f + 1 /\ Zpos m' * 2 ^ (e' - f) = q
    /\ Zpos M / 2 ^ (f - e) <= q <= - (- Zpos M / 2 ^ (f - e)).
Proof.
  intros HM He Hl. set (L := Z.log2 (Zpos M)) in *.
  assert (52 <= L) as HL by (apply Z.log2_le_pow2; lia).
  pose proof (Z.log2_spec (Zpos M) ltac:(lia)) as HLs. fold L in HLs.
  unfold binary_round_aux, shr_fexp at 1. cbn [shr_record_of_loc Zdigits2].
  rewrite digits2_log2. fold L. unfold fexp, emin.
  replace (Z.max (L + 1 + e - 53) (3 - 1024 - 53) - e) with (L - 52) by lia.
  destruct (shr_shifted (Zpos M) e (L - 52)) as (r & -> & Hr); [lia|lia|].
  pose proof (round_nearest_cases (Zpos M) _ r ltac:(lia) Hr) as Hq. rewrite Z2Nat.id in Hq by lia.
  set (q := round_nearest_even _ _) in *.
  assert (2 ^ 52 <= q <= 2 ^ 53) as Hq52.
  { assert (2 ^ L = 2 ^ (L - 52) * 2 ^ 52) as E1 by (rewrite <- Z.pow_add_r by lia; f_equal; lia).
    assert (2 ^ Z.succ L = 2 ^ (L - 52) * 2 ^ 53) as E2 by (rewrite <- Z.pow_add_r by lia; f_equal; lia).
    assert (0 < 2 ^ (L - 52)) by (apply Z.pow_pos_nonneg; lia).
    split.
    - etrans; [|apply Hq]. apply Z.div_le_lower_bound; lia.
    - etrans; [apply Hq|]. enough (- 2 ^ 53 <= - Zpos M / 2 ^ (L - 52)) by lia.
      apply Z.div_le_lower_bound; lia. }
  destruct q as [|Q|Q] eqn:EQ; [lia| |lia].
  destruct (renormalize Q (e + (L - 52))) as (m' & e' & -> & He' & Em); [lia|lia|].
  replace (L - 52 + e) with (e + (L - 52)) by lia. replace (e + (L - 52) - e) with (L - 52) by lia.
  by exists m', e', (Zpos Q).
Qed.

(** Rounding does not cross an integer: a number between two integers below [2 ^ 31] stays
    between them, and so does its ceiling, which is below the number by less than [2 ^ -22]. *)
Lemma round_between M E lo hi :
  2 ^ 52 <= Zpos M -> -1074 <= E <= 0 -> 0 <= lo -> 0 < hi <= INT_MAX ->
  lo * 2 ^ (- E) <= Zpos M <= hi * 2 ^ (- E) ->
  exists b, int_ceil (binary_round_aux 53 1024 false (Zpos M) E loc_Exact) = Val b /\ lo <= b <= hi
    /\ Zpos M * 2 ^ 22 <= (b * 2 ^ 22 + 1) * 2 ^ (- E).
Proof.
  intros HM HE Hlo Hhi HB. unfold INT_MAX in Hhi.
  assert (Z.log2 (Zpos M) < 31 - E) as HL.
  { apply Z.log2_lt_pow2; [lia|]. replace (31 - E) with (31 + - E) by lia. rewrite Z.pow_add_r by lia.
    assert (0 < 2 ^ (- E)) by (apply Z.pow_pos_nonneg; lia). nia. }
  destruct (round_spec M E) as (m' & e' & q & -> & He' & Eq & Hq); [lia|lia|lia|].
  set (L := Z.log2 (Zpos M)) in *. assert (52 <= L) by (apply Z.log2_le_pow2; lia).
  replace (L - 52 + E - E) with (L - 52) in Hq by lia. set (f := L - 52 + E) in *.
  assert (2 ^ (- E) = 2 ^ (- f) * 2 ^ (L - 52)) as EE by (rewrite <- Z.pow_add_r by lia; f_equal; lia).
  assert (0 < 2 ^ (L - 52)) by (apply Z.pow_pos_nonneg; lia).
  assert (0 < 2 ^ (- f)) by (apply Z.pow_pos_nonneg; lia).
  assert (lo * 2 ^ (- f) <= q <= hi * 2 ^ (- f)) as Hqb.
  { split.
    - etrans; [|apply Hq]. apply Z.div_le_lower_bound; nia.
    - etrans; [apply Hq|]. enough (- (hi * 2 ^ (- f)) <= - Zpos M / 2 ^ (L - 52)) by lia.
      apply Z.div_le_lower_bound; nia. }
  assert (e' < 0) as Hneg by lia.
  assert (2 ^ (- f) = 2 ^ (- e') * 2 ^ (e' - f)) as Ee by (rewrite <- Z.pow_add_r by lia; f_equal; lia).
  assert (0 < 2 ^ (- e')) by (apply Z.pow_pos_nonneg; lia).
  assert (0 < 2 ^ (e' - f)) by (apply Z.pow_pos_nonneg; lia).
  assert (lo * 2 ^ (- e') <= Zpos m' <= hi * 2 ^ (- e')) as Hm by nia.
  unfold int_ceil, Zceil, ceil_pow, floor_pow, in_range, INT_MIN, INT_MAX.
  destruct (Z.leb_spec 0 e'); [lia|].
  assert (lo <= - (- Zpos m' / 2 ^ (- e')) <= hi) as Hb.
  { assert (- hi <= - Zpos m' / 2 ^ (- e') <= - lo); [|lia].
    split; [apply Z.div_le_lower_bound|apply Z.div_le_upper_bound]; nia. }
  assert (Zpos M * 2 ^ 22 <= (- (- Zpos m' / 2 ^ (- e')) * 2 ^ 22 + 1) * 2 ^ (- E)) as Hlow.
  { set (b := - (- Zpos m' / 2 ^ (- e'))) in *.
    assert (Zpos m' <= b * 2 ^ (- e')) by (pose proof (Z.mul_div_le (- Zpos m') (2 ^ (- e'))); unfold b; lia).
    assert (q <= b * 2 ^ (- f)) by (rewrite Ee; nia).
    assert (Zpos M < (q + 1) * 2 ^ (L - 52)).
    { pose proof (Z.mul_succ_div_gt (Zpos M) (2 ^ (L - 52)) ltac:(lia)). destruct Hq as [Hq _]. unfold f in Hq. nia. }
    assert (2 ^ (L - 52) * 2 ^ 22 <= 2 ^ (- E)) by (rewrite <- Z.pow_add_r by lia; apply Z.pow_le_mono_r; lia).
    rewrite EE in *. nia. }
  exists (- (- Zpos m' / 2 ^ (- e'))). split; [|done].
  destruct (Z.leb_spec (- 2 ^ 31) (- (- Zpos m' / 2 ^ (- e')))), (Z.leb_spec (- (- Zpos m' / 2 ^ (- e'))) (2 ^ 31 - 1));
    done || lia.
Qed.

Lemma iter_xO m x : Zpos (Pos.iter xO m x) = Zpos m * 2 ^ Zpos x.
Proof.
  induction x as [|x IH] using Pos.peano_ind; [change (Pos.iter xO m 1) with (xO m); lia|].
  rewrite Pos.iter_succ, Pos2Z.inj_xO, IH, Pos2Z.inj_succ, Z.pow_succ_r by lia. lia.
Qed.

Lemma round_canonical s p e :
  2 ^ 52 <= Zpos p < 2 ^ 53 -> -1074 <= e <= 971 ->
  binary_round_aux 53 1024 s (Zpos p) e loc_Exact = S754_finite s p e.
Proof.
  intros Hp He. assert (shr_fexp 53 1024 (Zpos p) e loc_Exact = (Build_shr_record (Zpos p) false false, e)) as Es.
  { unfold shr_fexp. cbn [shr_record_of_loc Zdigits2]. rewrite (digits2_range p 52) by lia. unfold fexp, emin.
    by replace (Z.max (52 + 1 + e - 53) (3 - 1024 - 53) - e) with 0 by lia. }
  unfold binary_round_aux. rewrite Es. cbn [shr_m loc_of_shr_record round_nearest_even]. rewrite Es. cbn [shr_m].
  destruct (Z.leb_spec e (1024 - 53)); [done|lia].
Qed.

(** A positive integer of at most 53 bits is represented exactly. *)
Lemma double_of_int d :
  0 < d < 2 ^ 53 ->
  exists p, let k := 52 - Z.log2 d in
    double_of_Z d = S754_finite false p (- k) /\ Zpos p = d * 2 ^ k /\ 0 <= k <= 52 /\ 2 ^ 52 <= Zpos p < 2 ^ 53.
Proof.
  intros Hd. destruct d as [|m|m]; try lia. set (L := Z.log2 (Zpos m)).
  pose proof (Z.log2_spec (Zpos m) ltac:(lia)) as HLs. fold L in HLs.
  assert (L < 53) by (apply Z.log2_lt_pow2; lia). pose proof (Z.log2_nonneg (Zpos m)) as HL. fold L in HL.
  assert (exists p, Zpos p = Zpos m * 2 ^ (52 - L)
    /\ shl_align m 0 (fexp 53 1024 (Zpos (digits2_pos m) + 0)) = (p, - (52 - L))) as (p & Ep & Ea).
  { rewrite digits2_log2. fold L. unfold fexp, emin.
    replace (Z.max (L + 1 + 0 - 53) (3 - 1024 - 53)) with (- (52 - L)) by lia.
    unfold shl_align. rewrite Z.sub_0_r. destruct (- (52 - L)) as [|x|x] eqn:E; [|lia|].
    - exists m. replace (52 - L) with 0 by lia. split; [lia|done].
    - eexists. split; [|reflexivity]. replace (52 - L) with (Zpos x) by lia.
      apply iter_xO. }
  assert (2 ^ 52 <= Zpos p < 2 ^ 53) as Hp.
  { rewrite Ep. assert (2 ^ L * 2 ^ (52 - L) = 2 ^ 52) as E1 by (rewrite <- Z.pow_add_r by lia; f_equal; lia).
    assert (2 ^ Z.succ L * 2 ^ (52 - L) = 2 ^ 53) as E2 by (rewrite <- Z.pow_add_r by lia; f_equal; lia).
    assert (0 < 2 ^ (52 - L)) by (apply Z.pow_pos_nonneg; lia). nia. }
  exists p. split; [|repeat split; lia].
  unfold double_of_Z, of_int. cbn [binary_normalize binary64 prec emax]. unfold binary_round. rewrite Ea.
  apply round_canonical; lia.
Qed.

(** Multiplying a price by a rate of at least one and rounding up: the result is defined when
    the exact product fits an [int], at least the price, at most any integer above the product, and
    below the product by less than [2 ^ -22]. *)
Lemma ceil_mul d m e hi :
  0 < d < 2 ^ 31 -> 2 ^ 52 <= Zpos m < 2 ^ 53 -> -52 <= e <= 0 -> d <= hi <= INT_MAX ->
  d * Zpos m <= hi * 2 ^ (- e) ->
  exists b, int_ceil (dmul (double_of_Z d) (S754_finite false m e)) = Val b /\ d <= b <= hi
    /\ d * Zpos m * 2 ^ 22 <= (b * 2 ^ 22 + 1) * 2 ^ (- e).
Proof.
  intros Hd Hm He Hhi Hp. destruct (double_of_int d) as (p & -> & Ep & Hk & Hp'); [lia|].
  cbn [dmul SFmul xorb]. set (k := 52 - Z.log2 d) in *.
  assert (2 ^ (- (- k + e)) = 2 ^ k * 2 ^ (- e)) as E by (rewrite <- Z.pow_add_r by lia; f_equal; lia).
  assert (0 < 2 ^ k) by (apply Z.pow_pos_nonneg; lia).
  assert (0 < 2 ^ (- e)) by (apply Z.pow_pos_nonneg; lia).
  assert (2 ^ (- e) <= 2 ^ 52) by (apply Z.pow_le_mono_r; lia).
  destruct (round_between (p * m) (- k + e) d hi) as (b & Eb & Hb & Hlow); rewrite ?Pos2Z.inj_mul; [nia..|].
  exists b. split; [done|]. split; [done|]. rewrite Pos2Z.inj_mul, Ep, E in Hlow. nia.
Qed.

Lemma int64_of_int d : 0 <= d < 2 ^ 53 -> int64_of (double_of_Z d) = Val d.
Proof.
  intros Hd. destruct (Z.eq_dec d 0) as [->|Hne]; [done|].
  destruct (double_of_int d) as (p & -> & Ep & Hk & _); [lia|]. set (k := 52 - Z.log2 d) in *.
  assert (floor_pow (Zpos p) (- k) = d) as E.
  { unfold floor_pow. rewrite Ep, Z.opp_involutive. assert (0 < 2 ^ k) by (apply Z.pow_pos_nonneg; lia).
    destruct (Z.leb_spec 0 (- k)); [|by rewrite Z.div_mul by lia]. replace k with 0 by lia. lia. }
  unfold int64_of, in_range, Ztrunc. rewrite E. unfold LONG_MIN, LONG_MAX.
  destruct (Z.leb_spec (- 2 ^ 63) d), (Z.leb_spec d (2 ^ 63 - 1)); done || lia.
Qed.
