(* ===== verification/MttyTime.v ===== *)
(** * MttyTime: dates and hours (utility/mttytime.cpp, utility/mttytime.h)

    The hour of the week that a search is asked for, the start of a day, and times as text.  The
    calendar of [gmtime_r] is the Gregorian one: a day is split into cycles of 400, 100, 4 and 1
    years, and the rest over the months.  Local time is that of a zone with one offset to UTC,
    the parameter [offset], as the zone of the service ([timeZone]) has.  The time is an argument. *)
From S2P Require Import Prelude CString Double.

(** ** The calendar of the C library *)

(** [tm_isdst] is [None] when nothing was written to it. *)
Record tm := mkTm {
  tm_year : Z; tm_mon : Z; tm_mday : Z; tm_hour : Z; tm_min : Z; tm_sec : Z; tm_wday : Z; tm_isdst : option Z;
}.

Definition is_leap (y : Z) : bool := (y mod 4 =? 0) && (negb (y mod 100 =? 0) || (y mod 400 =? 0)).
Definition month_lengths (leap : bool) : list Z := [31; if leap then 29 else 28; 31; 30; 31; 30; 31; 31; 30; 31; 30; 31].

(** The days from the first of January of the year 1 to that of [y]. *)
Definition days_before_year (y : Z) : Z := 365 * (y - 1) + (y - 1) / 4 - (y - 1) / 100 + (y - 1) / 400.
Definition sum (l : list Z) : Z := foldr Z.add 0 l.

(** 1970-01-01 in these days. *)
Definition epoch_day : Z := 719162.
Definition DAY : Z := 86400.

(** The year of a day, and the day in that year. *)
Definition year_of_day (n : Z) : Z * Z :=
  let a := n / 146097 in let n := n mod 146097 in
  let b := Z.min 3 (n / 36524) in let n := n - 36524 * b in
  let c := n / 1461 in let n := n mod 1461 in
  let e := Z.min 3 (n / 365) in
  (400 * a + 100 * b + 4 * c + e + 1, n - 365 * e).

(** The month, from 0, and the day in it, from 0. *)
Fixpoint month_of_day (ls : list Z) (n : Z) : Z * Z :=
  match ls with
  | [] => (0, n)
  | l :: ls => if n <? l then (0, n) else let '(m, d) := month_of_day ls (n - l) in (m + 1, d)
  end.

(** [gmtime_r]; there is no result for a year that an [int] cannot hold. *)
Definition gmtime (t : Z) : option tm :=
  let '(y, n) := year_of_day (t / DAY + epoch_day) in
  let '(m, d) := month_of_day (month_lengths (is_leap y)) n in
  let s := t mod DAY in
  if (INT_MIN <=? y - 1900) && (y - 1900 <=? INT_MAX) then
    Some (mkTm (y - 1900) m (d + 1) (s / 3600) (s mod 3600 / 60) (s mod 60) ((t / DAY + 4) mod 7) (Some 0))
  else None.

(** The time of a date in UTC, whose month is in its range. *)
Definition timegm (t : tm) : Z :=
  let y := tm_year t + 1900 in
  DAY * (days_before_year y + sum (take (Z.to_nat (tm_mon t)) (month_lengths (is_leap y))) + tm_mday t - 1 - epoch_day)
  + 3600 * tm_hour t + 60 * tm_min t + tm_sec t.

(** [gmtime_r(&timestamp, &t)] for a [t] that was not written: [memset(&t, sizeof(tm), 0)] sets no byte. *)
Definition gm_fields (t : Z) : outcome tm := match gmtime t with Some b => Val b | None => Undef end.

Section zone.
Context (offset : Z).

Definition local_fields (t : Z) : outcome tm := gm_fields (t + offset).

(** [mktime] reads [tm_isdst]. *)
Definition mktime (t : tm) : outcome Z := match tm_isdst t with Some _ => Val (timegm t - offset) | None => Undef end.

(** ** mttytime.h *)

Definition MTTY_SERVICE_TIME_BEGIN : Z := 1443669071.
Definition timeZone : Z := 8.
Definition UTC_TIME_DIFF_SEC : Z := timeZone * 3600.

Definition getCurrentTimeSinceMtty (now : Z) : Z := s32 (now - MTTY_SERVICE_TIME_BEGIN).
Definition mttyTimeToUnixTimeStamp (mttyTime : Z) : Z := mttyTime + MTTY_SERVICE_TIME_BEGIN.
Definition localTimeStamptoUtc (unixTimeStamp : Z) : Z := unixTimeStamp.

(** ** mttytime.cpp *)

Definition begin_fields (isdst : option Z) : tm := mkTm (2015 - 1900) (10 - 1) 1 11 11 11 0 isdst.
Definition mttyTimeBegin : outcome Z := mktime (begin_fields None).

Definition getTodayStartTime (now : Z) : outcome Z :=
  t ← local_fields now;
  mktime (mkTm (tm_year t) (tm_mon t) (tm_mday t) 0 0 0 (tm_wday t) (tm_isdst t)).

Definition getTimeSecondOfToday (now : Z) : outcome Z := start ← getTodayStartTime now; Val (s32 (now - start)).

(** [DAY_SECOND] is a constant of mtty/constants.h. *)
Definition getTodayEndTime (DAY_SECOND now : Z) : outcome Z := start ← getTodayStartTime now; Val (start + DAY_SECOND).

Definition getCurrentHourPercent (now : Z) : outcome double :=
  t ← local_fields now; Val (ddiv (double_of_Z (tm_min t * 60 + tm_sec t)) (double_of_Z 3600)).

(** [%0wd] *)
Definition zero_padded (w : nat) (n : Z) : bytes :=
  if n <? 0 then 45 :: zfill (w - 1) (map dec_char (digits 10 (- n))) else zfill w (to_string n).

(** [sprintf(tstr, "%04d%02d%02d %02d:%02d:%02d", ...)] *)
Definition time_text (t : tm) : outcome bytes :=
  check (1900 + tm_year t <=? INT_MAX);;
  Val (zero_padded 4 (1900 + tm_year t) ++ zero_padded 2 (tm_mon t + 1) ++ zero_padded 2 (tm_mday t) ++ str " "
       ++ zero_padded 2 (tm_hour t) ++ str ":" ++ zero_padded 2 (tm_min t) ++ str ":" ++ zero_padded 2 (tm_sec t)).

Definition timeStringFromTimeStamp (timestamp : Z) : outcome bytes := t ← local_fields timestamp; time_text t.
Definition gmtTimeStringFromTimeStamp (timestamp : Z) : outcome bytes := t ← gm_fields timestamp; time_text t.

Definition adTimeSelectCode (timestamp : Z) : outcome bytes :=
  t ← gm_fields timestamp;
  Val (to_string (if tm_wday t =? 0 then 7 else tm_wday t) ++ zero_padded 2 (tm_hour t)).
Definition adSelectTimeCodeUtc (now : Z) : outcome bytes := adTimeSelectCode (localTimeStamptoUtc now).
End zone.

(** ** PerformanceWatcher *)

(** [pwParent] is the messages of the parent, if there is one. *)
Record PerformanceWatcher := mkWatcher { pw_name : bytes; beginTimeMs : Z; warningTimeMs : Z; pwParent : option bytes; messages : bytes }.
Definition appendMessage (s : bytes) (w : PerformanceWatcher) : PerformanceWatcher :=
  mkWatcher (pw_name w) (beginTimeMs w) (warningTimeMs w) (pwParent w) (messages w ++ s).

(** The destructor: what the parent holds, and the warning that is logged. *)
Definition watcher_end (endTime : Z) (w : PerformanceWatcher) : option bytes * option bytes :=
  let took := to_string (endTime - beginTimeMs w) in
  if warningTimeMs w <? endTime - beginTimeMs w then
    match pwParent w with
    | Some p => (Some (p ++ messages w ++ pw_name w ++ str "time collapses:" ++ took ++ str "ms"), None)
    | None => (None, Some (pw_name w ++ str " time collapses:" ++ took ++ str "ms," ++ messages w))
    end
  else (pwParent w, None).

(** ** The calendar *)

Lemma year_of_day_cycles n :
  exists a b c e r, year_of_day n = (400 * a + 100 * b + 4 * c + e + 1, r) /\ n = 146097 * a + 36524 * b + 1461 * c + 365 * e + r
    /\ 0 <= b <= 3 /\ 0 <= c <= 24 /\ 0 <= e <= 3 /\ 0 <= r <= 365 /\ (r = 365 -> e = 3 /\ (c = 24 -> b = 3)).
Proof.
  unfold year_of_day. set (n1 := n mod 146097). set (b := Z.min 3 (n1 / 36524)). set (n2 := n1 - 36524 * b). set (n3 := n2 mod 1461).
  pose proof (Z.div_mod n 146097 ltac:(lia)). pose proof (Z.mod_pos_bound n 146097 ltac:(lia)) as B1. fold n1 in H, B1.
  pose proof (Z.div_mod n1 36524 ltac:(lia)). pose proof (Z.mod_pos_bound n1 36524 ltac:(lia)).
  assert (0 <= n2 <= 36524 /\ (n2 = 36524 -> b = 3) /\ 0 <= b <= 3) as (B2 & Hb & Bb) by lia.
  pose proof (Z.div_mod n2 1461 ltac:(lia)). pose proof (Z.mod_pos_bound n2 1461 ltac:(lia)) as B3. fold n3 in H2, B3.
  pose proof (Z.div_mod n3 365 ltac:(lia)). pose proof (Z.mod_pos_bound n3 365 ltac:(lia)).
  exists (n / 146097), b, (n2 / 1461), (Z.min 3 (n3 / 365)), (n3 - 365 * Z.min 3 (n3 / 365)).
  split; [done|]. lia.
Qed.

Lemma year_of_cycles a b c e :
  0 <= b <= 3 -> 0 <= c <= 24 -> 0 <= e <= 3 -> let y := 400 * a + 100 * b + 4 * c + e + 1 in
  days_before_year y = 146097 * a + 36524 * b + 1461 * c + 365 * e /\ is_leap y = (e =? 3) && (negb (c =? 24) || (b =? 3)).
Proof.
  intros Hb Hc He y. unfold days_before_year, is_leap. replace (y - 1) with (400 * a + 100 * b + 4 * c + e) by lia. split.
  - Z.to_euclidean_division_equations. lia.
  - apply eq_true_iff_eq. rewrite !andb_true_iff, !orb_true_iff, !negb_true_iff, !Z.eqb_neq, !Z.eqb_eq.
    unfold y. Z.to_euclidean_division_equations. lia.
Qed.

(** A day is in its year. *)
Lemma year_of_day_spec n y d :
  year_of_day n = (y, d) -> n = days_before_year y + d /\ 0 <= d < 365 + (if is_leap y then 1 else 0).
Proof.
  destruct (year_of_day_cycles n) as (a & b & c & e & r & -> & -> & Hb & Hc & He & Hr & Hl). intros [= <- <-].
  destruct (year_of_cycles a b c e Hb Hc He) as [-> ->]. split; [lia|].
  destruct (Z.eqb_spec e 3), (Z.eqb_spec c 24), (Z.eqb_spec b 3); cbn [andb orb negb]; lia.
Qed.

Lemma month_of_day_spec ls n m d :
  0 <= n < sum ls -> month_of_day ls n = (m, d) ->
  0 <= m < Z.of_nat (length ls) /\ n = sum (take (Z.to_nat m) ls) + d /\ exists l, ls !! Z.to_nat m = Some l /\ 0 <= d < l.
Proof.
  revert n m. induction ls as [|l ls IH]; intros n m Hn; [cbn in Hn; lia|]. cbn [month_of_day sum foldr length] in *. fold (sum ls) in *.
  destruct (Z.ltb_spec n l) as [Hl|Hl].
  - intros [= <- <-]. split; [lia|]. split; [done|]. exists l. split; [done|lia].
  - destruct (month_of_day ls (n - l)) as [m' d'] eqn:E. intros [= <- <-]. destruct (IH (n - l) m' ltac:(lia) E) as (Hm & Hs & x & Hx & Hd).
    replace (Z.to_nat (m' + 1)) with (S (Z.to_nat m')) by lia. cbn [take sum foldr lookup list_lookup]. fold (sum (take (Z.to_nat m') ls)).
    split; [lia|]. split; [lia|]. by exists x.
Qed.

Lemma sum_months leap : sum (month_lengths leap) = 365 + (if leap then 1 else 0).
Proof. by destruct leap. Qed.

(** A date that the calendar has. *)
Record is_date (t : tm) : Prop := {
  d_mon : 0 <= tm_mon t < 12; d_mday : 1 <= tm_mday t <= 31;
  d_hour : 0 <= tm_hour t < 24; d_min : 0 <= tm_min t < 60; d_sec : 0 <= tm_sec t < 60; d_wday : 0 <= tm_wday t < 7;
}.

Lemma month_length_31 leap i l : month_lengths leap !! i = Some l -> l <= 31.
Proof. unfold month_lengths. destruct leap; do 12 (destruct i as [|i]; [by intros [= <-]|]); done. Qed.

Lemma hour_of_time t : t mod DAY / 3600 = t / 3600 mod 24.
Proof.
  change DAY with (3600 * 24). rewrite Z.rem_mul_r by lia. rewrite (Z.mul_comm 3600), Z.div_add by lia.
  rewrite Z.div_small; [done|]. by apply Z.mod_pos_bound.
Qed.

(** The fields of a time are those of the date of its day and of its second, and give the time back. *)
Lemma gmtime_spec t b :
  gmtime t = Some b ->
  is_date b /\ timegm b = t /\ tm_hour b = t / 3600 mod 24 /\ tm_wday b = (t / DAY + 4) mod 7 /\ tm_isdst b = Some 0
  /\ INT_MIN <= tm_year b <= INT_MAX.
Proof.
  unfold gmtime. destruct (year_of_day _) as [y n] eqn:Ey. apply year_of_day_spec in Ey as [Hn Hr].
  rewrite <- sum_months in Hr. destruct (month_of_day _ n) as [m d] eqn:Em.
  destruct (month_of_day_spec _ _ _ _ Hr Em) as (Hm & Hs & l & Hl & Hd). apply month_length_31 in Hl.
  destruct (_ && _) eqn:Eb; [|done]. apply andb_prop in Eb as [?%Z.leb_le ?%Z.leb_le]. intros [= <-].
  change (Z.of_nat (length (month_lengths (is_leap y)))) with 12 in Hm.
  unfold timegm. cbn [tm_year tm_mon tm_mday tm_hour tm_min tm_sec tm_wday tm_isdst].
  replace (y - 1900 + 1900) with y by lia. split; [constructor; cbn; unfold DAY; Z.to_euclidean_division_equations; lia|].
  split; [|split; [apply hour_of_time|done]].
  replace (days_before_year y + sum (take (Z.to_nat m) (month_lengths (is_leap y))) + (d + 1) - 1 - epoch_day) with (t / DAY) by lia.
  unfold DAY. Z.to_euclidean_division_equations. lia.
Qed.

Lemma gmtime_total t : - 2 ^ 55 <= t < 2 ^ 55 -> is_Some (gmtime t).
Proof.
  intros Ht. unfold gmtime. destruct (year_of_day _) as [y n] eqn:Ey. apply year_of_day_spec in Ey as [Hn Hr].
  destruct (month_of_day _ n) as [m d]. unfold days_before_year, epoch_day, DAY in Hn. unfold INT_MIN, INT_MAX.
  rewrite (proj2 (Z.leb_le _ _)), (proj2 (Z.leb_le _ _)); [by eexists|..];
  destruct (is_leap y); Z.to_euclidean_division_equations; lia.
Qed.

(** ** Times as text *)

Definition dec_value (s : bytes) : Z := value 10 (map (fun c => c - 48) s).

Lemma zero_padded_spec w n : (0 < w)%nat -> 0 <= n < 10 ^ Z.of_nat w -> length (zero_padded w n) = w /\ dec_value (zero_padded w n) = n.
Proof.
  intros Hw Hn. unfold zero_padded. destruct (Z.ltb_spec n 0); [lia|].
  pose proof (length_to_string_pow n w Hw Hn) as Hl. unfold zfill, dec_value. split; [rewrite length_app, length_replicate; lia|].
  rewrite map_app, value_app, to_string_nonneg, map_map by lia. rewrite (map_ext (fun x => dec_char x - 48) (fun x => x)) by (intros x; unfold dec_char; lia).
  rewrite map_id, value_digits by lia.
  assert (forall k, value 10 (map (fun c => c - 48) (replicate k 48)) = 0) as ->; [|lia].
  intros k. induction k as [|k IH]; [done|]. cbn [replicate map]. exact IH.
Qed.

(** What the text of a time says. *)
Definition read_time (s : bytes) : Z :=
  let field i w := dec_value (take w (drop i s)) in
  timegm (mkTm (field 0 4 - 1900) (field 4 2 - 1) (field 6 2) (field 9 2) (field 12 2) (field 15 2) 0 None)%nat.

Lemma read_fields y m d h i s :
  length y = 4%nat -> length m = 2%nat -> length d = 2%nat -> length h = 2%nat -> length i = 2%nat -> length s = 2%nat ->
  let text := y ++ m ++ d ++ str " " ++ h ++ str ":" ++ i ++ str ":" ++ s in
  length text = 17%nat
  /\ read_time text = timegm (mkTm (dec_value y - 1900) (dec_value m - 1) (dec_value d) (dec_value h) (dec_value i) (dec_value s) 0 None).
Proof.
  intros Hy Hm Hd Hh Hi Hs. destruct y as [|? [|? [|? [|? [|]]]]]; try discriminate.
  destruct m as [|? [|? [|]]]; try discriminate. destruct d as [|? [|? [|]]]; try discriminate.
  destruct h as [|? [|? [|]]]; try discriminate. destruct i as [|? [|? [|]]]; try discriminate.
  destruct s as [|? [|? [|]]]; try discriminate. split; reflexivity.
Qed.

(** The text of a time of the years 1 to 9999 has 17 characters and gives the time back. *)
Theorem gmt_text_read t :
  -62135596800 <= t < 253402300800 ->
  exists s, gmtTimeStringFromTimeStamp t = Val s /\ length s = 17%nat /\ read_time s = t.
Proof.
  intros Ht. destruct (gmtime_total t ltac:(lia)) as [b Eb]. destruct (gmtime_spec t b Eb) as (D & Hb & _).
  assert (0 <= 1900 + tm_year b < 10 ^ 4) as Hy.
  { destruct D as [D1 D2 D3 D4 D5 D6]. unfold timegm, days_before_year, epoch_day, DAY in Hb.
    assert (0 <= sum (take (Z.to_nat (tm_mon b)) (month_lengths (is_leap (tm_year b + 1900)))) <= 335) as Hs.
    { generalize (is_leap (tm_year b + 1900)) as leap. generalize (Z.to_nat (tm_mon b)) (ltac:(lia) : (Z.to_nat (tm_mon b) <= 11)%nat).
      intros n Hn leap. do 12 (destruct n as [|n]; [by destruct leap; vm_compute; split; discriminate|]). lia. }
    Z.to_euclidean_division_equations. lia. }
  unfold gmtTimeStringFromTimeStamp, gm_fields. rewrite Eb. cbn [mbind outcome_bind]. unfold time_text.
  rewrite (proj2 (Z.leb_le _ _)) by (unfold INT_MAX; lia). eexists. split; [done|]. destruct D as [D1 D2 D3 D4 D5 D6].
  destruct (zero_padded_spec 4 (1900 + tm_year b)) as [L1 V1]; [lia|lia|].
  destruct (zero_padded_spec 2 (tm_mon b + 1)) as [L2 V2]; [lia|lia|]. destruct (zero_padded_spec 2 (tm_mday b)) as [L3 V3]; [lia|lia|].
  destruct (zero_padded_spec 2 (tm_hour b)) as [L4 V4]; [lia|lia|]. destruct (zero_padded_spec 2 (tm_min b)) as [L5 V5]; [lia|lia|].
  destruct (zero_padded_spec 2 (tm_sec b)) as [L6 V6]; [lia|lia|].
  destruct (read_fields _ _ _ _ _ _ L1 L2 L3 L4 L5 L6) as [R1 R2]. split; [exact R1|]. rewrite R2, V1, V2, V3, V4, V5, V6, <- Hb.
  unfold timegm. cbn [tm_year tm_mon tm_mday tm_hour tm_min tm_sec].
  replace (1900 + tm_year b - 1900 + 1900) with (tm_year b + 1900) by lia. by replace (tm_mon b + 1 - 1) with (tm_mon b) by lia.
Qed.

(** ** The hour of the week *)

Lemma zero_padded_2 n : 0 <= n < 100 -> zero_padded 2 n = [48 + n / 10; 48 + n mod 10].
Proof.
  intros Hn. assert (Forall (fun n => zero_padded 2 n = [48 + n / 10; 48 + n mod 10]) (seqZ 0 100)) as Ha by by_decide.
  rewrite Forall_forall in Ha. apply Ha, elem_of_seqZ. lia.
Qed.

(** The hours from a Monday at midnight to the time. *)
Definition hour_of_week (t : Z) : Z := (t / 3600 + 72) mod 168.

Lemma time_code_spec t :
  - 2 ^ 55 <= t < 2 ^ 55 ->
  let h := hour_of_week t in adTimeSelectCode t = Val [49 + h / 24; 48 + h mod 24 / 10; 48 + h mod 24 mod 10].
Proof.
  intros Ht h. destruct (gmtime_total t Ht) as [b Eb]. destruct (gmtime_spec t b Eb) as (D & _ & Hh & Hw & _).
  unfold adTimeSelectCode, gm_fields. rewrite Eb. cbn [mbind outcome_bind]. f_equal. destruct D as [_ _ D3 _ _ D6].
  rewrite zero_padded_2 by lia.
  assert (h mod 24 = tm_hour b) as -> by (rewrite Hh; unfold h, hour_of_week; dlia).
  assert (h / 24 = (tm_wday b + 6) mod 7) as ->.
  { rewrite Hw. replace (t / DAY) with (t / 3600 / 24) by (unfold DAY; rewrite Z.div_div by lia; done). unfold h, hour_of_week. dlia. }
  assert (forall w, 0 <= w < 7 -> to_string (if w =? 0 then 7 else w) = [49 + (w + 6) mod 7]) as Hd; [|by rewrite Hd].
  intros w Hw'. assert (w = 0 \/ w = 1 \/ w = 2 \/ w = 3 \/ w = 4 \/ w = 5 \/ w = 6) as Hc by lia. by destruct_or! Hc; subst w.
Qed.

Lemma hour_digits n m :
  0 <= n < 168 -> 0 <= m < 168 ->
  [49 + n / 24; 48 + n mod 24 / 10; 48 + n mod 24 mod 10] = [49 + m / 24; 48 + m mod 24 / 10; 48 + m mod 24 mod 10] -> n = m.
Proof. intros Hn Hm [= E1 E2 E3]. dlia. Qed.

(** C21: The hour that a search is asked for.  The code of a time is the day of the week, from 1 for Monday
    to 7 for Sunday, and the hour of the day in two digits, both of UTC; two times have the same code
    exactly when they are in the same hour of their weeks. *)
Theorem time_code t :
  - 2 ^ 55 <= t < 2 ^ 55 ->
  (exists day hour, adSelectTimeCodeUtc t = Val [48 + day; 48 + hour / 10; 48 + hour mod 10]
     /\ 1 <= day <= 7 /\ 0 <= hour < 24 /\ 24 * (day - 1) + hour = hour_of_week t)
  /\ forall t', - 2 ^ 55 <= t' < 2 ^ 55 -> (adSelectTimeCodeUtc t' = adSelectTimeCodeUtc t <-> hour_of_week t' = hour_of_week t).
Proof.
  intros Ht. unfold adSelectTimeCodeUtc, localTimeStamptoUtc. rewrite (time_code_spec t Ht).
  assert (forall t, 0 <= hour_of_week t < 168) as Hh by (intros; by apply Z.mod_pos_bound). split.
  - exists (1 + hour_of_week t / 24), (hour_of_week t mod 24). pose proof (Hh t). split; [do 2 f_equal; lia|]. dlia.
  - intros t' Ht'. rewrite (time_code_spec t' Ht'). split; [|by intros ->]. intros [= E1 E2 E3]. by apply hour_digits; [..|congruence].
Qed.

Lemma time_code_witness :
  exists day hour, adSelectTimeCodeUtc 1443669071 = Val [48 + day; 48 + hour / 10; 48 + hour mod 10]
    /\ 1 <= day <= 7 /\ 0 <= hour < 24 /\ 24 * (day - 1) + hour = 75.
Proof. destruct (time_code 1443669071) as [A _]; [split; vm_compute; congruence|exact A]. Defined.

(** The service began on a Thursday at three o'clock UTC. *)
Example time_code_begin : adSelectTimeCodeUtc MTTY_SERVICE_TIME_BEGIN = Val (str "403").
Proof. by vm_compute. Qed.

(** ** Days *)

(** The day of a time starts at a local midnight at most a day before it. *)
Theorem today_start offset now :
  - 2 ^ 55 <= now + offset < 2 ^ 55 ->
  exists start, getTodayStartTime offset now = Val start /\ start <= now < start + DAY /\ (start + offset) mod DAY = 0
    /\ getTimeSecondOfToday offset now = Val (now - start) /\ getTodayEndTime offset DAY now = Val (start + DAY).
Proof.
  intros Hn. destruct (gmtime_total _ Hn) as [b Eb]. destruct (gmtime_spec _ b Eb) as (D & Hb & _ & _ & Hi & _). destruct D as [D1 D2 D3 D4 D5 D6].
  unfold timegm in Hb. set (days := days_before_year _ + _ + _ - 1 - epoch_day) in Hb.
  assert (getTodayStartTime offset now = Val (DAY * days - offset)) as Es.
  { unfold getTodayStartTime, local_fields, gm_fields. rewrite Eb. cbn [mbind outcome_bind]. unfold mktime, timegm. cbn. rewrite Hi.
    fold days. f_equal. lia. }
  unfold getTimeSecondOfToday, getTodayEndTime. rewrite Es. cbn [mbind outcome_bind]. eexists. split; [done|].
  assert (DAY * days - offset <= now < DAY * days - offset + DAY) as Hd by (unfold DAY in *; lia).
  split; [done|]. split; [|split; [|done]].
  - replace (DAY * days - offset + offset) with (days * DAY) by lia. by apply Z.mod_mul.
  - rewrite swrap_small; [done|lia|]. unfold DAY in *. lia.
Qed.

(** The constant is the time that [mttyTimeBegin] is meant to compute, in the zone of the service; the
    function itself gives [mktime] a field that was never written. *)
Lemma service_begin : mktime UTC_TIME_DIFF_SEC (begin_fields (Some 0)) = Val MTTY_SERVICE_TIME_BEGIN.
Proof. by vm_compute. Qed.
Lemma mttyTimeBegin_undefined offset : mttyTimeBegin offset = Undef.
Proof. done. Qed.

(** A time counted from the beginning of the service is read back for 68 years. *)
Lemma mtty_time_back now :
  MTTY_SERVICE_TIME_BEGIN <= now < MTTY_SERVICE_TIME_BEGIN + 2 ^ 31 -> mttyTimeToUnixTimeStamp (getCurrentTimeSinceMtty now) = now.
Proof. intros Hn. unfold mttyTimeToUnixTimeStamp, getCurrentTimeSinceMtty. rewrite swrap_small by lia. lia. Qed.
