(* ===== verification/PriceDecode.v ===== *)
(** * PriceDecode: the winning prices of the exchanges (protocol/baidu, guangyin, tanx, 360,
    kupai, youku, tencent_gdt and netease)

    An exchange reports the price of a won auction as an encrypted, base64 encoded text.  The
    decoders here take the text apart, remove the encryption and, where the format has one,
    check the signature.  The hashes and the base64 filter of OpenSSL, the base64 iterator of
    boost and the AES modes of Crypto++ are the parameters [OpenSSL], [BoostBase64] and [Aes];
    the byte order is the one of x86. *)
From S2P Require Import Prelude CString UrlCodec Cypher Rijndael RijndaelProofs SohuPrice Double.

(** ** Third party primitives *)

Inductive EVP_MD : Set := EVP_sha512 | EVP_sha256 | EVP_sha1 | EVP_md5 | EVP_sha224 | EVP_sha384 | EVP_sha.

Class OpenSSL := {
  HMAC : EVP_MD -> bytes -> bytes -> option bytes;    (* key, data; None is failure *)
  MD5 : bytes -> bytes;
  (* BIO_read of at most n bytes through a base64 filter on the text; None is -1 *)
  BIO_read_base64 : bytes -> Z -> option bytes;
}.

(** [HMAC] with SHA-1 has 20 bytes, [MD5] 16; the filter reads the standard encoding. *)
Class OpenSSLLaws (O : OpenSSL) : Prop := {
  HMAC_sha1_size k d h : HMAC EVP_sha1 k d = Some h -> length h = 20%nat /\ Forall is_byte h;
  MD5_size d : length (MD5 d) = 16%nat /\ Forall is_byte (MD5 d);
  BIO_read_b64 x n : Forall is_byte x -> x <> [] -> Z.of_nat (length x) <= n -> BIO_read_base64 (b64_enc x) n = Some x;
}.

(** [binary_from_base64] under [transform_width]; None is an exception.  On a padded text it
    may yield more bytes than were encoded. *)
Class BoostBase64 := { base64_iterator : bytes -> option bytes }.

Class BoostBase64Laws (B : BoostBase64) : Prop := {
  base64_iterator_prefix x : Forall is_byte x -> exists t, base64_iterator (b64_enc x) = Some (x ++ t);
}.

(** What the decryption filters of Crypto++ appended to their sink, until they were done or
    threw: ECB with and without PKCS padding and CBC with it. *)
Class Aes := {
  aes_ecb_decrypt : bytes -> bytes -> bytes;
  aes_ecb_decrypt_nopadding : bytes -> bytes -> bytes;
  aes_cbc_decrypt : bytes -> bytes -> bytes -> bytes;
}.

(** ** Bytes in memory *)

(** [n] bytes at [s.data() + i]: the terminator can be read too. *)
Definition data_at (s : bytes) (i n : nat) : outcome bytes :=
  check (i + n <=? length s + 1)%nat;; Val (take n (drop i (s ++ [0]))).

(** The value of bytes read as a little endian integer. *)
Definition le_word (bs : bytes) : Z := foldr (fun b v => b + 256 * v) 0 bs.

Definition ntohl (x : Z) : Z := le_word (rev (le_bytes 4 x)).
Definition ntohll (host_int : Z) : Z :=
  Z.lor (ntohl (u32 (Z.shiftr host_int 32))) (u64 (Z.shiftl (ntohl (u32 host_int)) 32)).

(** The letters of the web safe alphabet. *)
Definition web_safe_char (c : Z) : Z := urlsafe_char c.

(** ** Baidu and Guangyin *)

Definition INITIALIZATION_VECTOR_SIZE : nat := 16.
Definition CIPHER_TEXT_SIZE : nat := 8.
Definition SIGNATURE_SIZE : nat := 4.

Section openssl.
Context `{OpenSSL}.

(** The result and [*value], which is unchanged when the first hash fails. *)
Definition decrypt_int64 (encrypted_value encryption_key integrity_key : bytes) (value : Z)
    : outcome (bool * Z) :=
  initialization_vector ← data_at encrypted_value 0 INITIALIZATION_VECTOR_SIZE;
  match HMAC EVP_sha1 encryption_key initialization_vector with
  | None => Val (false, value)
  | Some price_pad =>
    ciphertext_bytes ← data_at encrypted_value INITIALIZATION_VECTOR_SIZE CIPHER_TEXT_SIZE;
    let plaintext_bytes := xor_bytes (take CIPHER_TEXT_SIZE price_pad) ciphertext_bytes in
    let value := s64 (ntohll (u64 (s64 (le_word plaintext_bytes)))) in
    match HMAC EVP_sha1 integrity_key (plaintext_bytes ++ initialization_vector) with
    | None => Val (false, value)
    | Some integrity_hash =>
      signature ← data_at encrypted_value (INITIALIZATION_VECTOR_SIZE + CIPHER_TEXT_SIZE) SIGNATURE_SIZE;
      Val (bool_decide (take SIGNATURE_SIZE integrity_hash = signature), value)
    end
  end.

(** [output->assign(temp, -1)] asks for a string of [size_t(-1)] bytes. *)
Definition base64_decode (encoded : bytes) : outcome bytes :=
  match BIO_read_base64 encoded (Z.of_nat (length encoded)) with
  | Some out => Val out
  | None => Exc LengthError
  end.

Definition web_safe_base64_decode (encoded : bytes) : outcome bytes :=
  base64_decode (map web_safe_char encoded).

Definition add_padding (b64_string : bytes) : bytes :=
  let r := (length b64_string mod 4)%nat in
  if (r =? 3)%nat then b64_string ++ str "=" else if (r =? 2)%nat then b64_string ++ str "==" else b64_string.

Definition price_decode_with (ENCRYPTION_KEY INTEGRITY_KEY encryption_value : bytes) : outcome Z :=
  decode_value ← web_safe_base64_decode (add_padding encryption_value);
  '(ok, act_value) ← decrypt_int64 decode_value ENCRYPTION_KEY INTEGRITY_KEY 0;
  Val (if (ok : bool) then act_value else 0).

Definition baidu_encryption_key : bytes :=
  [0x01; 0x1d; 0x6a; 0x0b; 0x00; 0x2a; 0xa1; 0x12; 0xde; 0x49; 0x48; 0x51; 0x00; 0x2a; 0xa1; 0x12;
   0xde; 0x49; 0x8d; 0xdc; 0x00; 0x2a; 0xa1; 0x12; 0xde; 0x49; 0x98; 0xce; 0x85; 0x76; 0xb3; 0xaf].
Definition baidu_integrity_key : bytes :=
  [0x01; 0x1d; 0x6a; 0x0b; 0x00; 0x2a; 0xa1; 0x12; 0xde; 0x4a; 0x17; 0x7a; 0x00; 0x2a; 0xa1; 0x12;
   0xde; 0x4a; 0x20; 0x98; 0x00; 0x2a; 0xa1; 0x12; 0xde; 0x4a; 0x25; 0xf2; 0xd3; 0x93; 0x5b; 0x25].
Definition guangyin_integrity_key : bytes :=
  [0xa9; 0xf1; 0x9b; 0x14; 0x98; 0x55; 0xd4; 0xb8; 0xfc; 0xbf; 0xd3; 0xca; 0x68; 0x2b; 0x2d; 0x07;
   0x53; 0x9c; 0x03; 0xcc; 0x1a; 0x8b; 0xab; 0xc4; 0x5d; 0x91; 0x9e; 0x3e; 0xdb; 0x98; 0x0f; 0x52].
Definition guangyin_encryption_key : bytes :=
  [0x4c; 0x75; 0xa4; 0x10; 0x5a; 0xa9; 0xa8; 0xef; 0xf1; 0x0b; 0x2f; 0x61; 0x4e; 0x96; 0xb1; 0x9e;
   0x89; 0x46; 0x4f; 0xe5; 0xf6; 0x82; 0xd2; 0x20; 0xc9; 0x06; 0x44; 0x05; 0x0d; 0x9c; 0xf2; 0x1f].

Definition baidu_price_decode : bytes -> outcome Z := price_decode_with baidu_encryption_key baidu_integrity_key.
Definition guangyin_price_decode : bytes -> outcome Z :=
  price_decode_with guangyin_encryption_key guangyin_integrity_key.

(** ** Tanx *)

Definition VERSION_LENGTH : nat := 1.
Definition BIDID_LENGTH : nat := 16.
Definition ENCODEPRICE_LENGTH : nat := 4.
Definition CRC_LENGTH : nat := 4.
Definition BIDID_OFFSITE : nat := 1.
Definition ENCODEPRICE_OFFSITE : nat := 17.
Definition CRC_OFFSITE : nat := 21.
Definition MAGICTIME_OFFSET : nat := 7.

Definition g_key : bytes :=
  [0x01; 0xd5; 0xba; 0xaf; 0x00; 0x9c; 0x4d; 0xd6; 0xbb; 0x01; 0xb7; 0x11; 0xfc; 0x74; 0x92; 0x92].

(** [realPrice] and [time] when the result is true. *)
Definition tanx_decodePrice (src : bytes) : outcome (option (Z * Z)) :=
  v ← rd src 0;
  if negb (v =? 1) then Val None
  else
    bidid ← data_at src BIDID_OFFSITE BIDID_LENGTH;
    let ctxBuf := MD5 (bidid ++ g_key) in
    p2 ← data_at src ENCODEPRICE_OFFSITE 4;
    let price := xor_bytes p2 (take 4 ctxBuf) in
    vb ← data_at src 0 (VERSION_LENGTH + BIDID_LENGTH);
    let ctxBuf := MD5 (vb ++ price ++ g_key) in
    crc ← data_at src CRC_OFFSITE CRC_LENGTH;
    if negb (bool_decide (take CRC_LENGTH ctxBuf = crc)) then Val None
    else t ← data_at src MAGICTIME_OFFSET 4; Val (Some (s32 (le_word price), ntohl (le_word t))).

Definition noescape_char (oc nc c : Z) : Z := if c =? oc then nc else c.

(** The copy of a string into [char buf[2048]]. *)
Definition noescape (input : bytes) (oc nc : Z) : outcome bytes :=
  check (Z.of_nat (length (c_str input)) <? 2048);; Val (map (noescape_char oc nc) (c_str input)).

(** In place, up to the terminator. *)
Definition noescape_buf (buf : bytes) : bytes :=
  map (noescape_char (ch "-") (ch "%")) (c_str buf) ++ drop (length (c_str buf)) buf.

(** [buffer[originLen] = 0] is outside the buffer when the filter failed. *)
Definition tanx_price_decode (ori_input : bytes) : outcome Z :=
  input ← urlDecode_f ori_input 2048;
  input ← noescape input (ch "-") (ch "%");
  input ← noescape input (ch " ") (ch "+");
  output ← urlDecode_f input 2048;
  let originLen := (Z.of_nat (length output) + 3) / 4 * 3 in
  match BIO_read_base64 output originLen with
  | None => Undef
  | Some buffer =>
    check (Z.of_nat (length buffer) <? 2048);;
    let buffer' := noescape_buf (buffer ++ [0]) in
    if negb (length buffer =? VERSION_LENGTH + BIDID_LENGTH + ENCODEPRICE_LENGTH + CRC_LENGTH)%nat then Val 0
    else
      o ← tanx_decodePrice buffer';
      Val (match o with Some (price, _) => price | None => 0 end)
  end.
End openssl.

(** ** 360 and Kupai *)

Definition toDigit (c : Z) : outcome Z :=
  let c := schar c in
  if (ch "0" <=? c) && (c <=? ch "9") then Val (c - ch "0")
  else if (ch "a" <=? c) && (c <=? ch "f") then Val (c + 10 - ch "a")
  else if (ch "A" <=? c) && (c <=? ch "F") then Val (c + 10 - ch "A")
  else Exc PriceDecodeException.

Fixpoint decodeHex_loop (data : bytes) : outcome bytes :=
  match data with
  | a :: b :: data =>
    f ← toDigit a; g ← toDigit b; out ← decodeHex_loop data;
    Val (Z.land (Z.lor (Z.shiftl f 4) g) 255 :: out)
  | _ => Val []
  end.

Definition decodeHex (data : bytes) : outcome bytes :=
  if negb (Z.land (Z.of_nat (length data)) 1 =? 0) then Exc PriceDecodeException else decodeHex_loop data.

Definition EVP_MAX_MD_SIZE : nat := 64.

Section max360.
Context `{OpenSSL, BoostBase64}.

Definition hmac_engine (algorithm : string) : outcome EVP_MD :=
  if String.eqb algorithm "HmacSHA512" then Val EVP_sha512
  else if String.eqb algorithm "HmacSHA256" then Val EVP_sha256
  else if String.eqb algorithm "HmacSHA1" then Val EVP_sha1
  else if String.eqb algorithm "HmacMD5" then Val EVP_md5
  else if String.eqb algorithm "HmacSHA224" then Val EVP_sha224
  else if String.eqb algorithm "HmacSHA384" then Val EVP_sha384
  else if String.eqb algorithm "HmacSHA" then Val EVP_sha
  else Exc PriceDecodeException.

(** The vector keeps its 64 bytes; the digest is written over its front. *)
Definition hmac (data key : bytes) (algorithm : string) : outcome bytes :=
  engine ← hmac_engine algorithm;
  Val (over (default [] (HMAC engine key data)) (replicate EVP_MAX_MD_SIZE 0)).

(** The vector of the range [e_src.begin() + i, e_src.begin() + j). *)
Definition range (s : bytes) (i j : nat) : outcome bytes :=
  check (j <=? length s)%nat;; Val (slice s i j).

(** The price bytes of a message whose signature is right. *)
Definition decodePrice (dec_key i_key e_enc : bytes) : outcome bytes :=
  e_src ← match base64_iterator (map web_safe_char e_enc) with
          | Some s => Val s
          | None => Exc PriceDecodeException
          end;
  iv ← range e_src 0 16;
  en_price ← range e_src 16 24;
  integrity ← range e_src 24 28;
  k ← decodeHex dec_key;
  de_byte ← hmac iv k "HmacSHA1";
  let dec_price := xor_bytes en_price (take 8 de_byte) in
  ik ← decodeHex i_key;
  o_ikey ← hmac (dec_price ++ iv) ik "HmacSHA1";
  if bool_decide (integrity = take 4 o_ikey) then Val dec_price else Exc PriceDecodeException.

Definition max360_DEC_KEY : bytes := str "890ec02651413eb78f4569c76821397d7323ca10538d46b17ddbb08a5ac5c343".
Definition max360_IKEY : bytes := str "f564fb940597adf219c59dbff5025d206a32a9ab3d94f68def0a793ccc397e1a".

(** The price is the big endian integer, which passes through a [double]. *)
Definition max360_price_decode (input : bytes) : outcome Z :=
  try_std
    (dec_price ← decodePrice max360_DEC_KEY max360_IKEY input;
     int64_of (double_of_Z (s64 (le_word (rev dec_price)))))
    (fun _ => Val 0).

Definition kupai_DEC_KEY : bytes := str "5a88b012c4d5aa79f8e852ba6da099d989681ace".
Definition kupai_IKEY : bytes := str "6606f210b823e2688faec7947e9d82aa0c1f65fa".

(** The price is the [double] with these bytes. *)
Definition kupai_price_decode (input : bytes) : outcome Z :=
  try_std
    (dec_price ← decodePrice kupai_DEC_KEY kupai_IKEY input;
     int64_of (double_of_bits (le_word dec_price)))
    (fun _ => Val 0).
End max360.

(** ** Youku, GDT and Nex *)

Section aes.
Context `{Base64, Aes}.

(** [padding[length % 4]] *)
Definition price_padding (input : bytes) : bytes :=
  nth (length input mod 4) [[]; str "==="; str "=="; str "="] [].

Definition youku_TOKEN : bytes := str "c28dc5ce331840668de6d1ac9be0b0a8".

(** The decoder is constructed from the token once; [key] is its array before that. *)
Definition youku_getPrice (key : bytes) (input : bytes) : outcome Z :=
  '(key, _) ← fromLittleEndiumHex youku_TOKEN (Z.of_nat (length youku_TOKEN)) key 32 false;
  let base64decode := urlsafe_base64decode (input ++ price_padding input) [] in
  stoi (aes_ecb_decrypt (take 16 key) base64decode).

Definition youku_price_decode (key : bytes) (input : bytes) : outcome Z :=
  try_std (output ← urlDecode_f input 2048; youku_getPrice key output) (fun _ => Val 0).

Definition gdt_TOKEN : bytes := str "MTI3NzU4MywxNDUz".

(** The padded string is computed and not used. *)
Definition gdt_getPrice (input : bytes) : outcome Z :=
  let base64decode := urlsafe_base64decode input [] in
  stoi (aes_ecb_decrypt_nopadding (take 16 gdt_TOKEN) base64decode).

Definition gdt_price_decode (input : bytes) : outcome Z :=
  try_std (output ← urlDecode_f input 2048; gdt_getPrice output) (fun _ => Val 0).

Definition nex_key : bytes := str "OGEyY2EwZGI1Y2Nm".
Definition nex_iv : bytes := str "MDE1Y2NmMTliZmFi".

Definition nex_price_decode (input : bytes) : outcome Z :=
  try_std (let '(_, decode) := base64decode input [] in stoi (aes_cbc_decrypt nex_key nex_iv decode)) (fun _ => Val 0).
End aes.

(** ** The texts the exchanges send *)

(** Standard base64 in the web safe alphabet, without the padding. *)
Definition to_web (c : Z) : Z := if c =? ch "+" then ch "-" else if c =? ch "/" then ch "_" else c.
Definition unpadded (s : bytes) : bytes := List.filter (fun c => negb (c =? ch "=")) s.
Definition web_text (x : bytes) : bytes := map to_web (unpadded (b64_enc x)).

Definition sextet_web (n : Z) : bool :=
  (web_safe_char (to_web (sextet n)) =? sextet n) && negb (sextet n =? ch "=") && negb (sextet n =? 0)
  && negb (sextet n =? ch "%") && negb (sextet n =? ch "-") && negb (sextet n =? ch " ")
  && negb (to_web (sextet n) =? ch "%") && negb (to_web (sextet n) =? ch "=").

Lemma sextet_web_all n : 0 <= n < 64 -> sextet_web n = true.
Proof. intros. by_table 64%nat sextet_web. by apply H0. Qed.

(** Three bytes at a time. *)
Lemma triple_ind (P : bytes -> Prop) :
  P [] -> (forall a, P [a]) -> (forall a b, P [a; b]) -> (forall a b c x, P x -> P (a :: b :: c :: x)) ->
  forall x, P x.
Proof.
  intros H0 H1 H2 H3. fix IH 1. intros [|a [|b [|c x]]]; [done|done|done|]. apply H3, IH.
Qed.

(** A property of the letters that are sextets holds of all but the padding. *)
Lemma b64_enc_letters (P : Z -> Prop) x :
  Forall is_byte x -> (forall n, 0 <= n < 64 -> P (sextet n)) -> P (ch "=") -> Forall P (b64_enc x).
Proof.
  intros Hx Hs He. revert Hx. induction x as [|a|a b|a b c x IH] using triple_ind; intros Hx;
    rewrite ?Forall_cons in Hx; unfold is_byte in Hx; cbn [b64_enc]; [constructor|..].
  - repeat constructor; try done; apply Hs; dlia.
  - repeat constructor; try done; apply Hs; dlia.
  - repeat (constructor; [apply Hs; dlia|]). apply IH. tauto.
Qed.

(** The encoding is the unpadded letters and the padding both decoders restore. *)
Lemma b64_enc_unpadded x :
  Forall is_byte x ->
  add_padding (unpadded (b64_enc x)) = b64_enc x
  /\ unpadded (b64_enc x) ++ price_padding (unpadded (b64_enc x)) = b64_enc x.
Proof.
  intros Hx. 
  assert (exists p, b64_enc x = unpadded (b64_enc x) ++ p
    /\ ((length (unpadded (b64_enc x)) mod 4 = 0)%nat /\ p = []
      \/ (length (unpadded (b64_enc x)) mod 4 = 2)%nat /\ p = str "=="
      \/ (length (unpadded (b64_enc x)) mod 4 = 3)%nat /\ p = str "=")) as (p & Ep & Hp).
  { assert (forall n, 0 <= n < 64 -> negb (sextet n =? ch "=") = true) as Hs.
    { intros n Hn. pose proof (sextet_web_all n Hn) as E. unfold sextet_web in E. rewrite !andb_true_iff in E. tauto. }
    revert Hx. induction x as [|a|a b|a b c x IH] using triple_ind; intros Hx; rewrite ?Forall_cons in Hx;
      unfold is_byte in Hx; cbn [b64_enc]; unfold unpadded in *; cbn [List.filter]; rewrite ?Hs by dlia.
    - exists []. auto.
    - exists (str "=="). cbn. auto.
    - exists (str "="). cbn. auto.
    - destruct IH as (p & Ep & Hp); [tauto|]. exists p. cbn [app length]. split; [by rewrite Ep at 1|].
      revert Hp. generalize (length (List.filter (fun c => negb (c =? ch "=")) (b64_enc x))) as k. intros k.
      replace (S (S (S (S k)))) with (k + 1 * 4)%nat by lia. by rewrite Nat.Div0.mod_add. }
  revert Ep Hp. generalize (unpadded (b64_enc x)) as u. intros u -> Hp. unfold add_padding, price_padding.
  destruct Hp as [(-> & ->)|[(-> & ->)|(-> & ->)]]; cbn; rewrite ?app_nil_r; done.
Qed.

Lemma length_map_unpadded x : length (web_text x) = length (unpadded (b64_enc x)).
Proof. apply length_map. Qed.

(** Restoring the alphabet and the padding of a web text gives the standard encoding. *)
Lemma web_text_standard x :
  Forall is_byte x ->
  map web_safe_char (add_padding (web_text x)) = b64_enc x
  /\ map urlsafe_char (web_text x ++ price_padding (web_text x)) = b64_enc x.
Proof.
  intros Hx. destruct (b64_enc_unpadded x Hx) as [E1 E2].
  assert (map web_safe_char (web_text x) = unpadded (b64_enc x)) as Em.
  { unfold web_text. rewrite map_map. etrans; [|apply map_id]. apply map_ext_in. unfold unpadded.
    assert (Forall (fun c => c = ch "=" \/ web_safe_char (to_web c) = c) (b64_enc x)) as Hf.
    { apply b64_enc_letters; [done| |by left]. intros n Hn. right. pose proof (sextet_web_all n Hn) as E.
      unfold sextet_web in E. rewrite !andb_true_iff, Z.eqb_eq in E. tauto. }
    intros c Hc. apply filter_In in Hc as [Hc Hn]. rewrite List.Forall_forall in Hf.
    destruct (Hf c Hc) as [->|]; done. }
  split; [rewrite <- E1|rewrite <- E2]; unfold add_padding, price_padding; rewrite length_map_unpadded.
  - destruct (_ =? 3)%nat; [|destruct (_ =? 2)%nat]; rewrite ?map_app, Em; done.
  - rewrite map_app. change urlsafe_char with web_safe_char. rewrite Em. f_equal.
    assert (length (unpadded (b64_enc x)) mod 4 < 4)%nat by (apply Nat.mod_upper_bound; lia).
    destruct (length (unpadded (b64_enc x)) mod 4)%nat as [|[|[|[|]]]]; done || lia.
Qed.

(** ** Words *)

Lemma le_word_cons x a : le_word (x :: a) = x + 256 * le_word a.
Proof. done. Qed.

Lemma le_word_app a b : le_word (a ++ b) = le_word a + 256 ^ Z.of_nat (length a) * le_word b.
Proof.
  induction a as [|x a IH]; cbn [app length].
  - change (256 ^ Z.of_nat 0) with 1. change (le_word []) with 0. lia.
  - rewrite !le_word_cons, IH, Nat2Z.inj_succ, Z.pow_succ_r by lia. lia.
Qed.

Lemma le_word_range a : Forall is_byte a -> 0 <= le_word a < 256 ^ Z.of_nat (length a).
Proof.
  induction 1 as [|x a Hx Ha IH]; cbn [length]; [done|].
  rewrite le_word_cons, Nat2Z.inj_succ, Z.pow_succ_r by lia. unfold is_byte in Hx. lia.
Qed.

Lemma le_bytes_le_word a : Forall is_byte a -> le_bytes (length a) (le_word a) = a.
Proof.
  induction 1 as [|x a Hx Ha IH]; [done|]. cbn [length le_bytes]. rewrite le_word_cons. unfold is_byte in Hx.
  rewrite (Z.mul_comm 256), Z_mod_plus_full, Z.div_add, (Z.mod_small x), (Z.div_small x), Z.add_0_l by lia. by rewrite IH.
Qed.

Lemma le_word_le_bytes n v : le_word (le_bytes n v) = v mod 256 ^ Z.of_nat n.
Proof.
  revert v. induction n as [|n IH]; intros v; [by rewrite Z.mod_1_r|].
  cbn [le_bytes]. rewrite le_word_cons, IH, Nat2Z.inj_succ, Z.pow_succ_r, Z.rem_mul_r by lia. lia.
Qed.

(** The conversion of an [int64_t] in network order to host order. *)
Lemma ntohll_rev a : Forall is_byte a -> length a = 8%nat -> ntohll (le_word a) = le_word (rev a).
Proof.
  intros Ha Hl. rewrite <- (take_drop 4 a) in Ha |- *.
  assert (length (take 4 a) = 4%nat /\ length (drop 4 a) = 4%nat) as [H1 H2]
    by (rewrite length_take, length_drop; lia).
  revert Ha H1 H2. generalize (take 4 a) (drop 4 a). intros lo hi Ha H1 H2. apply Forall_app in Ha as [Hlo Hhi].
  pose proof (le_word_range lo Hlo) as Rlo. pose proof (le_word_range hi Hhi) as Rhi.
  rewrite H1 in Rlo. rewrite H2 in Rhi. change (256 ^ Z.of_nat 4) with (2 ^ 32) in Rlo, Rhi.
  unfold ntohll. rewrite le_word_app, H1. change (256 ^ Z.of_nat 4) with (2 ^ 32).
  rewrite Z.shiftr_div_pow2 by lia. unfold uwrap.
  replace ((le_word lo + 2 ^ 32 * le_word hi) / 2 ^ 32) with (le_word hi) by dlia.
  replace ((le_word lo + 2 ^ 32 * le_word hi) mod 2 ^ 32) with (le_word lo) by dlia.
  rewrite (Z.mod_small (le_word hi)) by lia. unfold ntohl.
  rewrite <- H1 at 2. rewrite <- H2 at 1. rewrite !le_bytes_le_word by done.
  rewrite rev_app_distr, le_word_app, length_rev, H2. change (256 ^ Z.of_nat 4) with (2 ^ 32).
  pose proof (le_word_range (rev lo) ltac:(by apply List.Forall_rev)) as R1. rewrite length_rev, H1 in R1.
  pose proof (le_word_range (rev hi) ltac:(by apply List.Forall_rev)) as R2. rewrite length_rev, H2 in R2.
  change (256 ^ Z.of_nat 4) with (2 ^ 32) in R1, R2.
  rewrite Z.shiftl_mul_pow2, Z.mod_small by lia. rewrite Z.lor_comm, lor_add by lia. lia.
Qed.

Lemma data_at_mid a b t i n :
  i = length a -> n = length b -> data_at (a ++ b ++ t) i n = Val b.
Proof.
  intros -> ->. unfold data_at. rewrite !length_app.
  replace (_ <=? _)%nat with true by (symmetry; apply Nat.leb_le; lia).
  cbn [check mbind outcome_bind]. rewrite <- !app_assoc, drop_app_length, take_app_length. done.
Qed.

Lemma data_at_head b t n : n = length b -> data_at (b ++ t) 0 n = Val b.
Proof. exact (data_at_mid [] b t 0 n eq_refl). Qed.

(** The bytes of a price in network order. *)
Definition be_bytes (price : Z) : bytes := rev (le_bytes 8 price).

Lemma be_bytes_ok price : Forall is_byte (be_bytes price) /\ length (be_bytes price) = 8%nat.
Proof. unfold be_bytes. rewrite length_rev, length_le_bytes. split; [apply List.Forall_rev, le_bytes_bytes|done]. Qed.

Lemma be_bytes_value price :
  - 2 ^ 63 <= price < 2 ^ 63 -> s64 (ntohll (u64 (s64 (le_word (be_bytes price))))) = price.
Proof.
  intros Hp. destruct (be_bytes_ok price) as [Hb Hl]. pose proof (le_word_range _ Hb) as R. rewrite Hl in R.
  rewrite uwrap_swrap, uwrap_small, ntohll_rev by (done || lia). unfold be_bytes. rewrite rev_involutive, le_word_le_bytes.
  change (256 ^ Z.of_nat 8) with (2 ^ 64). fold (u64 price).
  rewrite (swrap_uwrap_eq 64 (u64 price) price) by apply uwrap_idem. apply swrap_small; lia.
Qed.

(** ** The signed messages *)

(** A message of the format of Baidu, Guangyin, 360 and Kupai: the initialization vector, the
    price bytes under the pad, and the signature. *)
Definition signed_message (iv pad plain sig : bytes) : bytes := iv ++ xor_bytes (take 8 pad) plain ++ sig.

Record message_ok (iv pad plain sig : bytes) : Prop := {
  iv_ok : Forall is_byte iv /\ length iv = 16%nat;
  pad_ok : Forall is_byte pad /\ (8 <= length pad)%nat;
  plain_ok : Forall is_byte plain /\ length plain = 8%nat;
  sig_ok : Forall is_byte sig /\ length sig = 4%nat;
}.

Section messages.
Context (iv pad plain sig : bytes) (Hm : message_ok iv pad plain sig).

Lemma cipher_ok :
  Forall is_byte (xor_bytes (take 8 pad) plain) /\ length (xor_bytes (take 8 pad) plain) = 8%nat
  /\ xor_bytes (take 8 pad) (xor_bytes (take 8 pad) plain) = plain.
Proof using Hm.
  destruct Hm as [_ [Hp Hpl] [Hb Hbl] _].
  assert (length (take 8 pad) = length plain) as El by (rewrite length_take; lia).
  split; [by apply xor_bytes_byte; [apply Forall_take|]|]. rewrite xor_bytes_length by done.
  split; [lia|]. by apply xor_bytes_cancel.
Qed.

Lemma signed_message_bytes : Forall is_byte (signed_message iv pad plain sig).
Proof using Hm.
  destruct cipher_ok as (Hc & _), Hm as [[Hi _] _ _ [Hs _]]. unfold signed_message. by rewrite !Forall_app.
Qed.

Lemma signed_message_length : length (signed_message iv pad plain sig) = 28%nat.
Proof using Hm.
  destruct cipher_ok as (_ & Hc & _), Hm as [[_ Hi] _ _ [_ Hs]]. unfold signed_message. rewrite !length_app. lia.
Qed.

Lemma decrypt_int64_message `{OpenSSL} ek ik value hash :
  HMAC EVP_sha1 ek iv = Some pad -> HMAC EVP_sha1 ik (plain ++ iv) = Some hash ->
  decrypt_int64 (signed_message iv pad plain sig) ek ik value
  = Val (bool_decide (take 4 hash = sig), s64 (ntohll (u64 (s64 (le_word plain))))).
Proof using Hm.
  intros Ep Eh. destruct cipher_ok as (_ & Hc & Ex), Hm as [[_ Hi] _ _ [_ Hs]]. unfold decrypt_int64, signed_message,
    INITIALIZATION_VECTOR_SIZE, CIPHER_TEXT_SIZE, SIGNATURE_SIZE.
  rewrite (data_at_head iv) by done. cbn [mbind outcome_bind]. rewrite Ep.
  rewrite (data_at_mid iv (xor_bytes (take 8 pad) plain) sig 16 8) by lia. cbn [mbind outcome_bind].
  rewrite Ex, Eh, app_assoc.
  pose proof (data_at_mid (iv ++ xor_bytes (take 8 pad) plain) sig [] 24 4) as E. rewrite app_nil_r in E.
  change (16 + 8)%nat with 24%nat.
  rewrite E by (rewrite ?length_app; lia). done.
Qed.
End messages.

Lemma b64_enc_ge x : (length x <= length (b64_enc x))%nat.
Proof. induction x as [|a|a b|a b c x IH] using triple_ind; cbn [b64_enc length]; lia. Qed.

Section hmac_price.
Context `{OpenSSLLaws}.

Lemma price_decode_message ek ik iv pad price sig hash :
  message_ok iv pad (be_bytes price) sig -> - 2 ^ 63 <= price < 2 ^ 63 ->
  HMAC EVP_sha1 ek iv = Some pad -> HMAC EVP_sha1 ik (be_bytes price ++ iv) = Some hash ->
  price_decode_with ek ik (web_text (signed_message iv pad (be_bytes price) sig))
  = Val (if bool_decide (take 4 hash = sig) then price else 0).
Proof.
  intros Hm Hp Ep Eh. unfold price_decode_with, web_safe_base64_decode.
  pose proof (signed_message_bytes _ _ _ _ Hm) as Hb. pose proof (signed_message_length _ _ _ _ Hm) as Hl.
  destruct (web_text_standard _ Hb) as [-> _]. unfold base64_decode.
  rewrite BIO_read_b64; [|done|intros E; by rewrite E in Hl|apply inj_le, b64_enc_ge].
  cbn [mbind outcome_bind]. rewrite (decrypt_int64_message _ _ _ _ Hm ek ik 0 hash) by done.
  cbn [mbind outcome_bind]. by rewrite be_bytes_value.
Qed.
End hmac_price.

(** C33: The price of Baidu and of Guangyin: a message that carries a price under the pad of
    its initialization vector is decoded to that price exactly when its signature is the first
    four bytes of the hash over price and vector; with any other signature it is decoded to
    zero.  This holds for every 64 bit price. *)
Theorem hmac_price_spec `{OpenSSLLaws} iv pad pad' price sig hash hash' :
  message_ok iv pad (be_bytes price) sig -> message_ok iv pad' (be_bytes price) sig -> - 2 ^ 63 <= price < 2 ^ 63 ->
  HMAC EVP_sha1 baidu_encryption_key iv = Some pad ->
  HMAC EVP_sha1 baidu_integrity_key (be_bytes price ++ iv) = Some hash ->
  HMAC EVP_sha1 guangyin_encryption_key iv = Some pad' ->
  HMAC EVP_sha1 guangyin_integrity_key (be_bytes price ++ iv) = Some hash' ->
  baidu_price_decode (web_text (signed_message iv pad (be_bytes price) sig))
  = Val (if bool_decide (take 4 hash = sig) then price else 0)
  /\ guangyin_price_decode (web_text (signed_message iv pad' (be_bytes price) sig))
  = Val (if bool_decide (take 4 hash' = sig) then price else 0).
Proof. intros. split; by apply price_decode_message. Qed.

(** ** 360 and Kupai *)

Definition padded_web_text (x : bytes) : bytes := map to_web (b64_enc x).

Lemma padded_web_standard x : Forall is_byte x -> map web_safe_char (padded_web_text x) = b64_enc x.
Proof.
  intros Hx. unfold padded_web_text. rewrite map_map. etrans; [|apply map_id]. apply map_ext_in. intros c Hc.
  assert (Forall (fun c => web_safe_char (to_web c) = c) (b64_enc x)) as Hf; [|rewrite List.Forall_forall in Hf; auto].
  apply b64_enc_letters; [done| |done]. intros n Hn. pose proof (sextet_web_all n Hn) as E.
  unfold sextet_web in E. rewrite !andb_true_iff, Z.eqb_eq in E. tauto.
Qed.

Lemma range_mid (a b t : bytes) i j :
  i = length a -> j = (length a + length b)%nat -> range (a ++ b ++ t) i j = Val b.
Proof.
  intros -> ->. unfold range. rewrite !length_app. replace (_ <=? _)%nat with true by (symmetry; apply Nat.leb_le; lia).
  cbn [check mbind outcome_bind]. by rewrite slice_app_mid.
Qed.

Lemma range_head (b t : bytes) j : j = length b -> range (b ++ t) 0 j = Val b.
Proof. exact (range_mid [] b t 0 j eq_refl). Qed.

Lemma xor_bytes_comm a b : xor_bytes a b = xor_bytes b a.
Proof. revert b. induction a as [|x a IH]; intros [|y b]; cbn [xor_bytes]; [done..|]. by rewrite Z.lxor_comm, IH. Qed.

Lemma take_over {A} n (w buf : list A) : (n <= length w)%nat -> take n (over w buf) = take n w.
Proof. intros. unfold over. by rewrite take_app_le. Qed.

(** The bytes a hexadecimal key stands for. *)
Definition hex_key (k : bytes) : bytes := match decodeHex k with Val b => b | _ => [] end.

Section max360_price.
Context `{OpenSSL} `{BoostBase64Laws}.
Context (iv pad plain sig hash dk ik : bytes) (Hm : message_ok iv pad plain sig).
Hypothesis Hdk : decodeHex dk = Val (hex_key dk).
Hypothesis Hik : decodeHex ik = Val (hex_key ik).
Hypothesis Hpad : HMAC EVP_sha1 (hex_key dk) iv = Some pad.
Hypothesis Hhash : HMAC EVP_sha1 (hex_key ik) (plain ++ iv) = Some hash.
Hypothesis Hlen : (4 <= length hash)%nat.

Lemma decodePrice_message :
  decodePrice dk ik (padded_web_text (signed_message iv pad plain sig))
  = if bool_decide (take 4 hash = sig) then Val plain else Exc PriceDecodeException.
Proof using All.
  pose proof (signed_message_bytes _ _ _ _ Hm) as Hb. destruct (cipher_ok _ _ _ _ Hm) as (_ & Hc & Ex).
  destruct Hm as [[_ Hi] [_ Hp] _ [_ Hs]]. unfold decodePrice. rewrite padded_web_standard by done.
  destruct (base64_iterator_prefix _ Hb) as [t ->]. cbn [mbind outcome_bind]. unfold signed_message.
  rewrite <- !app_assoc. rewrite (range_head iv _ 16) by lia. cbn [mbind outcome_bind].
  rewrite (range_mid iv (xor_bytes (take 8 pad) plain) (sig ++ t) 16 24) by lia. cbn [mbind outcome_bind].
  rewrite (app_assoc iv), (range_mid (iv ++ xor_bytes (take 8 pad) plain) sig t 24 28) by (rewrite length_app; lia).
  cbn [mbind outcome_bind]. rewrite Hdk. cbn [mbind outcome_bind].
  unfold hmac, hmac_engine. cbn [String.eqb Ascii.eqb Bool.eqb mbind outcome_bind]. rewrite Hpad.
  cbn [from_option id]. rewrite !take_over by done. unfold id.
  replace (xor_bytes (xor_bytes (take 8 pad) plain) (take 8 pad)) with plain.
  2:{ rewrite <- Ex at 1. apply xor_bytes_comm. }
  rewrite Hik. cbn [mbind outcome_bind]. rewrite Hhash. cbn [from_option id]. rewrite take_over by done.
  do 2 case_bool_decide; congruence.
Qed.
End max360_price.

Lemma max360_keys :
  decodeHex max360_DEC_KEY = Val (hex_key max360_DEC_KEY) /\ decodeHex max360_IKEY = Val (hex_key max360_IKEY).
Proof. by split; vm_compute. Qed.

Lemma kupai_keys :
  decodeHex kupai_DEC_KEY = Val (hex_key kupai_DEC_KEY) /\ decodeHex kupai_IKEY = Val (hex_key kupai_IKEY).
Proof. by split; vm_compute. Qed.

(** The price of 360: a message of the same format, with a price below [2 ^ 53] so that the
    [double] it passes through is exact, is decoded to the price when the signature is right
    and to zero otherwise; Kupai's message carries the bytes of a [double], which is truncated. *)
Theorem max360_price_spec `{OpenSSLLaws} `{BoostBase64Laws} iv pad pad' price plain sig hash hash' :
  message_ok iv pad (be_bytes price) sig -> message_ok iv pad' plain sig -> 0 <= price < 2 ^ 53 ->
  HMAC EVP_sha1 (hex_key max360_DEC_KEY) iv = Some pad ->
  HMAC EVP_sha1 (hex_key max360_IKEY) (be_bytes price ++ iv) = Some hash ->
  HMAC EVP_sha1 (hex_key kupai_DEC_KEY) iv = Some pad' ->
  HMAC EVP_sha1 (hex_key kupai_IKEY) (plain ++ iv) = Some hash' ->
  max360_price_decode (padded_web_text (signed_message iv pad (be_bytes price) sig))
  = Val (if bool_decide (take 4 hash = sig) then price else 0)
  /\ kupai_price_decode (padded_web_text (signed_message iv pad' plain sig))
  = (if bool_decide (take 4 hash' = sig) then int64_of (double_of_bits (le_word plain)) else Val 0).
Proof.
  intros Hm Hm' Hp Hk1 Hk2 Hk3 Hk4. destruct max360_keys, kupai_keys.
  pose proof (HMAC_sha1_size _ _ _ Hk2) as [L1 _]. pose proof (HMAC_sha1_size _ _ _ Hk4) as [L2 _].
  unfold max360_price_decode, kupai_price_decode.
  rewrite (decodePrice_message iv pad (be_bytes price) sig hash), (decodePrice_message iv pad' plain sig hash')
    by (done || lia).
  split; case_bool_decide; cbn [mbind outcome_bind try_std is_std_exception]; try done.
  - unfold be_bytes. rewrite rev_involutive, le_word_le_bytes.
    change (256 ^ Z.of_nat 8) with (2 ^ 64). rewrite Z.mod_small, swrap_small by lia. by rewrite int64_of_int.
  - by destruct (int64_of _) eqn:E; [| |]; try done; unfold int64_of, in_range in E; destruct (Ztrunc _); try done;
      destruct (_ && _).
Qed.

(** ** Tanx *)

Lemma b64_enc_plain x :
  Forall is_byte x -> no_pct (b64_enc x) /\ ascii_str (b64_enc x) /\ no_nul (b64_enc x)
  /\ Forall (fun c => noescape_char (ch "-") (ch "%") c = c /\ noescape_char (ch " ") (ch "+") c = c) (b64_enc x).
Proof.
  intros Hx. split_and!; apply b64_enc_letters; try done; intros n Hn; apply (sextet_web_all n) in Hn as E;
    unfold sextet_web in E; rewrite !andb_true_iff, !negb_true_iff, !Z.eqb_neq, Z.eqb_eq in E.
  - tauto.
  - by_table 64%nat (fun n => (0 <=? sextet n) && (sextet n <? 128)). specialize (H n Hn).
    unfold is_ascii. lia.
  - tauto.
  - unfold noescape_char. destruct (Z.eqb_spec (sextet n) (ch "-")), (Z.eqb_spec (sextet n) (ch " ")); tauto.
Qed.

Lemma noescape_id s oc nc :
  no_nul s -> Forall (fun c => noescape_char oc nc c = c) s -> Z.of_nat (length s) < 2048 -> noescape s oc nc = Val s.
Proof.
  intros Hn Hs Hl. unfold noescape. rewrite c_str_id by done.
  destruct (Z.ltb_spec (Z.of_nat (length s)) 2048); [|lia]. cbn [check mbind outcome_bind]. f_equal.
  etrans; [|apply map_id]. apply map_ext_in. rewrite List.Forall_forall in Hs. auto.
Qed.

Lemma length_b64_enc x : (length (b64_enc x) <= 2 * length x + 2 /\ 3 * length (b64_enc x) <= 4 * length x + 8
  /\ 4 * length x <= 3 * length (b64_enc x) /\ (length (b64_enc x) + 3) / 4 * 3 >= length x)%nat.
Proof.
  assert (exists k, length (b64_enc x) = 4 * k /\ 3 * k <= length x + 2 /\ length x <= 3 * k)%nat as (k & -> & H1 & H2).
  { induction x as [|a|a b|a b c x IH] using triple_ind; cbn [b64_enc length]; [exists 0%nat|exists 1%nat|exists 1%nat|]; try lia.
    destruct IH as (k & -> & ?). exists (S k). lia. }
  split_and!; try lia. replace (4 * k + 3)%nat with (3 + k * 4)%nat by lia. rewrite Nat.div_add by lia.
  change (3 / 4)%nat with 0%nat. lia.
Qed.

(** The room the callers of the filter compute. *)
Lemma b64_room x : Z.of_nat (length x) <= (Z.of_nat (length (b64_enc x)) + 3) / 4 * 3.
Proof.
  destruct (length_b64_enc x) as (_ & _ & _ & L). apply Nat2Z.inj_ge in L.
  rewrite Nat2Z.inj_mul, Nat2Z.inj_div, Nat2Z.inj_add in L. simpl in L. lia.
Qed.

(** Byte for byte, up to the first NUL, minus signs are replaced in the decoded message. *)
Definition without_minus (m : bytes) : Prop := Forall (fun c => c <> ch "-") (c_str m).

Lemma noescape_buf_id m : without_minus m -> noescape_buf (m ++ [0]) = m ++ [0].
Proof.
  intros Hm. unfold noescape_buf.
  assert (exists t, m ++ [0] = c_str m ++ t /\ c_str (m ++ [0]) = c_str m) as (t & Et & Ec).
  { clear Hm. induction m as [|x m (t & Et & Ec)]; cbn [app c_str]; [by exists [0]|].
    destruct (x =? 0) eqn:E; cbn; [by eexists|]. exists t. by rewrite Et at 1; rewrite Ec. }
  rewrite Ec, Et, drop_app_length. f_equal. etrans; [|apply map_id]. apply map_ext_in. intros c Hc.
  unfold without_minus in Hm. rewrite List.Forall_forall in Hm. unfold noescape_char. specialize (Hm c Hc).
  by apply Z.eqb_neq in Hm as ->.
Qed.

Definition tanx_message (bidid price sig : bytes) `{OpenSSL} : bytes :=
  [1] ++ bidid ++ xor_bytes price (take 4 (MD5 (bidid ++ g_key))) ++ sig.

(** The text of a message: base64, percent encoded. *)
Definition escaped_text (m : bytes) : bytes := flat_map encode_f_char (b64_enc m).

Lemma tanx_price_decode_text `{OpenSSLLaws} m :
  Forall is_byte m -> length m = 25%nat ->
  tanx_price_decode (escaped_text m)
  = o ← tanx_decodePrice (noescape_buf (m ++ [0])); Val (match o with Some (price, _) => price | None => 0 end).
Proof.
  intros Hb Hl. destruct (b64_enc_plain m Hb) as (Hp & Ha & Hn & He). destruct (length_b64_enc m) as (L1 & _).
  unfold tanx_price_decode, escaped_text. rewrite urlDecode_f_escaped by (done || lia). cbn [mbind outcome_bind].
  rewrite noescape_id; [|done|by eapply Forall_impl; [exact He|intros c [? ?]]|lia]. cbn [mbind outcome_bind].
  rewrite noescape_id; [|done|by eapply Forall_impl; [exact He|intros c [? ?]]|lia]. cbn [mbind outcome_bind].
  rewrite urlDecode_f_plain by (done || lia). cbn [mbind outcome_bind].
  rewrite BIO_read_b64; [|done|intros ->; done|apply b64_room].
  rewrite Hl. done.
Qed.

Section tanx_message.
Context `{OpenSSLLaws} (bidid p sig : bytes).
Hypothesis Hb : Forall is_byte bidid /\ length bidid = 16%nat.
Hypothesis Hp : Forall is_byte p /\ length p = 4%nat.
Hypothesis Hs : Forall is_byte sig /\ length sig = 4%nat.

Lemma tanx_cipher :
  Forall is_byte (xor_bytes p (take 4 (MD5 (bidid ++ g_key))))
  /\ length (xor_bytes p (take 4 (MD5 (bidid ++ g_key)))) = 4%nat
  /\ xor_bytes (xor_bytes p (take 4 (MD5 (bidid ++ g_key)))) (take 4 (MD5 (bidid ++ g_key))) = p.
Proof using All.
  destruct (MD5_size (bidid ++ g_key)) as [Ml Mb].
  assert (length p = length (take 4 (MD5 (bidid ++ g_key)))) as El by (rewrite length_take; lia).
  split_and!.
  - apply xor_bytes_byte; [apply Hp|by apply Forall_take].
  - rewrite xor_bytes_length by done. apply Hp.
  - rewrite (xor_bytes_comm p), xor_bytes_comm. by apply xor_bytes_cancel.
Qed.

Lemma tanx_message_ok :
  Forall is_byte (tanx_message bidid p sig) /\ length (tanx_message bidid p sig) = 25%nat.
Proof using All.
  destruct tanx_cipher as (Xb & Xl & _). unfold tanx_message. rewrite !Forall_app, !length_app, Xl.
  destruct Hb as [? ->], Hs as [? ->]. split; [|done]. split_and!; [by repeat constructor|done..].
Qed.

Lemma tanx_decodePrice_message :
  tanx_decodePrice (tanx_message bidid p sig ++ [0])
  = Val (if bool_decide (take 4 (MD5 (([1] ++ bidid) ++ p ++ g_key)) = sig)
         then Some (s32 (le_word p), ntohl (le_word (take 4 (drop 7 (tanx_message bidid p sig))))) else None).
Proof using All.
  destruct tanx_message_ok as [_ Lm], tanx_cipher as (_ & Xl & Xp), Hb as [_ Lb], Hs as [_ Ls].
  assert (data_at (tanx_message bidid p sig ++ [0]) MAGICTIME_OFFSET 4
    = Val (take 4 (drop 7 (tanx_message bidid p sig)))) as Et.
  { rewrite <- (take_drop 7 (tanx_message bidid p sig)) at 1.
    rewrite <- (take_drop 4 (drop 7 (tanx_message bidid p sig))) at 1.
    rewrite <- !app_assoc. apply data_at_mid; rewrite length_take, ?length_drop, Lm; done. }
  unfold tanx_decodePrice. rewrite Et. unfold tanx_message in *. clear Et Lm. revert Xl Xp.
  generalize (xor_bytes p (take 4 (MD5 (bidid ++ g_key)))) as x. intros x Xl Xp.
  change (rd _ 0) with (Val 1) at 1. cbn [mbind outcome_bind negb Z.eqb Pos.eqb]. rewrite <- !app_assoc.
  rewrite (data_at_mid [1] bidid (x ++ sig ++ [0]) BIDID_OFFSITE BIDID_LENGTH) by done.
  cbn [mbind outcome_bind]. rewrite !(app_assoc [1] bidid).
  rewrite (data_at_mid ([1] ++ bidid) x (sig ++ [0]) ENCODEPRICE_OFFSITE 4) by (rewrite ?length_app, ?Lb; done).
  cbn [mbind outcome_bind]. rewrite Xp.
  rewrite (data_at_head ([1] ++ bidid) (x ++ sig ++ [0])) by (rewrite length_app, Lb; done).
  cbn [mbind outcome_bind]. rewrite (app_assoc ([1] ++ bidid) x (sig ++ [0])).
  rewrite (data_at_mid (([1] ++ bidid) ++ x) sig [0] CRC_OFFSITE CRC_LENGTH) by (rewrite ?length_app, ?Lb, ?Xl; done).
  cbn [mbind outcome_bind]. unfold CRC_LENGTH. by case_bool_decide.
Qed.
End tanx_message.

(** The price of Tanx: a version one message whose bytes contain no minus sign before their
    first NUL is decoded to its 32 bit price exactly when its checksum is right, and to zero
    otherwise. *)
Theorem tanx_price_spec `{OpenSSLLaws} bidid price sig :
  Forall is_byte bidid /\ length bidid = 16%nat -> - 2 ^ 31 <= price < 2 ^ 31 ->
  Forall is_byte sig /\ length sig = 4%nat ->
  without_minus (tanx_message bidid (le_bytes 4 price) sig) ->
  tanx_price_decode (escaped_text (tanx_message bidid (le_bytes 4 price) sig))
  = Val (if bool_decide (take 4 (MD5 (([1] ++ bidid) ++ le_bytes 4 price ++ g_key)) = sig) then price else 0).
Proof.
  intros Hb Hp Hs Hm. assert (Forall is_byte (le_bytes 4 price) /\ length (le_bytes 4 price) = 4%nat) as Hl
    by (split; [apply le_bytes_bytes|apply length_le_bytes]).
  destruct (tanx_message_ok _ _ _ Hb Hl Hs) as [Mb Ml].
  rewrite tanx_price_decode_text, noescape_buf_id, tanx_decodePrice_message by done. cbn [mbind outcome_bind].
  case_bool_decide; [|done]. rewrite le_word_le_bytes. change (256 ^ Z.of_nat 4) with (2 ^ 32). f_equal.
  fold (u32 price). rewrite (swrap_uwrap_eq 32 (u32 price) price) by apply uwrap_idem. apply swrap_small; lia.
Qed.

(** ** Youku, GDT and Nex *)

(** The decoder of Crypto++ reads the standard encoding. *)
Class Base64Standard (B : Base64) : Prop := {
  b64_decode_standard x : Forall is_byte x -> b64_decode (b64_enc x) = Some x;
}.

(** The number at the head of the plain text; zero when there is none. *)
Definition price_of (plain : bytes) : Z := match stoi plain with Val p => p | _ => 0 end.

Lemma price_of_number n t : INT_MIN <= n <= INT_MAX -> take_while is_digit t = [] -> price_of (to_string n ++ t) = n.
Proof. intros. unfold price_of, stoi. by rewrite sto_number. Qed.

Lemma try_stoi s : try_std (stoi s) (fun _ => Val 0) = Val (price_of s).
Proof.
  unfold price_of, stoi, sto. destruct (scan_int _) as [neg ds]. destruct ds; [done|]. by destruct (_ && _).
Qed.

Lemma youku_key_bytes key :
  length key = 32%nat ->
  exists rest, fromLittleEndiumHex youku_TOKEN (Z.of_nat (length youku_TOKEN)) key 32 false
    = Val (hex_key youku_TOKEN ++ rest, 16).
Proof.
  intros Hk. pose proof (fromLittleEndiumHex_spec false (hex_key youku_TOKEN) [] key 32) as E.
  change (hex_readable hexMap_lower (hex_key youku_TOKEN) ++ []) with youku_TOKEN in E.
  change (Z.of_nat (length (hex_key youku_TOKEN))) with 16 in E.
  change (Z.of_nat (length youku_TOKEN)) with (2 * 16). eexists. apply E; [by_decide| |lia].
  change (length (hex_key youku_TOKEN)) with 16%nat. lia.
Qed.

(** The decoders of the AES encrypted prices are total: whatever the decrypted text is, the
    result is the number it starts with, or zero when it does not start with one that fits an
    [int]. *)
Theorem aes_price_spec `{Base64Standard} `{Aes} key c :
  length key = 32%nat -> Forall is_byte c -> (length c <= 500)%nat ->
  youku_price_decode key (web_text c) = Val (price_of (aes_ecb_decrypt (hex_key youku_TOKEN) c))
  /\ gdt_price_decode (padded_web_text c) = Val (price_of (aes_ecb_decrypt_nopadding gdt_TOKEN c))
  /\ nex_price_decode (b64_enc c) = Val (price_of (aes_cbc_decrypt nex_key nex_iv c)).
Proof.
  intros Hk Hc Hl. destruct (length_b64_enc c) as (L1 & _).
  assert (length (web_text c) <= length (b64_enc c))%nat as Lw.
  { rewrite length_map_unpadded. unfold unpadded. apply filter_length_le. }
  assert (no_pct (padded_web_text c)) as Hp.
  { unfold no_pct, padded_web_text. apply Forall_map. apply b64_enc_letters; [done| |done]. intros n Hn.
    pose proof (sextet_web_all n Hn) as E. unfold sextet_web in E.
    rewrite !andb_true_iff, !negb_true_iff, !Z.eqb_neq in E. simpl. tauto. }
  assert (no_pct (web_text c)) as Hw.
  { unfold no_pct, padded_web_text, web_text, unpadded in *. apply List.Forall_forall. intros y Hy.
    apply in_map_iff in Hy as (z & <- & Hz). apply filter_In in Hz as [Hz _]. rewrite List.Forall_forall in Hp.
    apply Hp. by apply in_map. }
  split_and!.
  - unfold youku_price_decode, youku_getPrice. rewrite urlDecode_f_plain by (done || lia). cbn [mbind outcome_bind].
    destruct (youku_key_bytes key Hk) as [rest ->]. cbn [mbind outcome_bind]. unfold urlsafe_base64decode.
    destruct (web_text_standard c Hc) as [_ ->]. rewrite b64_decode_standard by done.
    rewrite (take_app_length' (hex_key youku_TOKEN) rest 16) by done. apply try_stoi.
  - unfold gdt_price_decode, gdt_getPrice.
    rewrite urlDecode_f_plain by (done || unfold padded_web_text; rewrite length_map; lia). cbn [mbind outcome_bind].
    unfold urlsafe_base64decode. change urlsafe_char with web_safe_char. rewrite padded_web_standard by done.
    rewrite b64_decode_standard by done. apply try_stoi.
  - unfold nex_price_decode, base64decode. rewrite b64_decode_standard by done. apply try_stoi.
Qed.

(** ** Concrete primitives and instances *)

(** A digest of [n] bytes that depends on the sum of the data, and the reference codec. *)
Definition sum_digest (n : nat) (k d : bytes) : bytes :=
  map (fun i => (foldr Z.add 0 (k ++ d) + 7 * Z.of_nat i) mod 256) (seq 0 n).

Definition toy_openssl : OpenSSL := {|
  HMAC md k d := Some (sum_digest 20 k d);
  MD5 d := sum_digest 16 [] d;
  BIO_read_base64 s n := Some (take (Z.to_nat n) (b64_dec s));
|}.

Definition toy_boost : BoostBase64 := {| base64_iterator s := Some (b64_dec s) |}.

(** The identity cipher. *)
Definition toy_aes : Aes := {|
  aes_ecb_decrypt k x := x; aes_ecb_decrypt_nopadding k x := x; aes_cbc_decrypt k i x := x |}.

Lemma sum_digest_ok n k d : length (sum_digest n k d) = n /\ Forall is_byte (sum_digest n k d).
Proof.
  unfold sum_digest. rewrite length_map, length_seq. split; [done|]. apply List.Forall_forall. intros x Hx.
  apply in_map_iff in Hx as (i & <- & _). unfold is_byte. apply Z.mod_pos_bound. lia.
Qed.

Lemma b64_dec_enc x : Forall is_byte x -> b64_dec (b64_enc x) = x.
Proof. intros Hx. pose proof (@b64_roundtrip _ base64_reference_laws x Hx) as E. cbn in E. congruence. Qed.

#[local] Existing Instance toy_openssl.
#[local] Existing Instance toy_boost.
#[local] Existing Instance toy_aes.
#[local] Existing Instance base64_reference.

#[local] Instance toy_openssl_laws : OpenSSLLaws toy_openssl.
Proof.
  constructor.
  - intros k d h [= <-]. apply sum_digest_ok.
  - intros d. apply (sum_digest_ok 16 [] d).
  - intros x n Hx _ Hn. cbn. rewrite b64_dec_enc, take_ge by (done || lia). done.
Qed.

#[local] Instance toy_boost_laws : BoostBase64Laws toy_boost.
Proof. constructor. intros x Hx. exists []. cbn. by rewrite b64_dec_enc, app_nil_r. Qed.

#[local] Instance reference_standard : Base64Standard base64_reference.
Proof. constructor. intros x Hx. cbn. by rewrite b64_dec_enc. Qed.

Definition iv0 : bytes := map Z.of_nat (seq 65 16).
Definition hmac_of (k d : bytes) : bytes := sum_digest 20 k d.

Ltac message_tac := constructor; by_decide.

Lemma hmac_price_spec_witness :
  baidu_price_decode (web_text (signed_message iv0 (hmac_of baidu_encryption_key iv0) (be_bytes 8500)
    (take 4 (hmac_of baidu_integrity_key (be_bytes 8500 ++ iv0))))) = Val 8500.
Proof.
  destruct (hmac_price_spec iv0 (hmac_of baidu_encryption_key iv0) (hmac_of guangyin_encryption_key iv0) 8500
    (take 4 (hmac_of baidu_integrity_key (be_bytes 8500 ++ iv0)))
    (hmac_of baidu_integrity_key (be_bytes 8500 ++ iv0)) (hmac_of guangyin_integrity_key (be_bytes 8500 ++ iv0))) as [E _];
    [message_tac|message_tac|lia|reflexivity..|]. rewrite E. by vm_compute.
Defined.

Lemma max360_price_spec_witness :
  max360_price_decode (padded_web_text (signed_message iv0 (hmac_of (hex_key max360_DEC_KEY) iv0) (be_bytes 73000)
    (take 4 (hmac_of (hex_key max360_IKEY) (be_bytes 73000 ++ iv0))))) = Val 73000.
Proof.
  destruct (max360_price_spec iv0 (hmac_of (hex_key max360_DEC_KEY) iv0) (hmac_of (hex_key kupai_DEC_KEY) iv0) 73000
    (be_bytes 73000) (take 4 (hmac_of (hex_key max360_IKEY) (be_bytes 73000 ++ iv0)))
    (hmac_of (hex_key max360_IKEY) (be_bytes 73000 ++ iv0)) (hmac_of (hex_key kupai_IKEY) (be_bytes 73000 ++ iv0))) as [E _];
    [message_tac|message_tac|lia|reflexivity..|]. rewrite E. by vm_compute.
Defined.

Definition tanx_sig (bidid : bytes) (price : Z) : bytes :=
  take 4 (MD5 (([1] ++ bidid) ++ le_bytes 4 price ++ g_key)).

Lemma tanx_price_spec_witness :
  tanx_price_decode (escaped_text (tanx_message iv0 (le_bytes 4 99) (tanx_sig iv0 99))) = Val 99.
Proof.
  rewrite (tanx_price_spec iv0 99 (tanx_sig iv0 99)); [by vm_compute|by_decide|lia|by_decide|by_decide].
Defined.

Lemma aes_price_spec_witness :
  youku_price_decode (replicate 32 0) (web_text (str "250 ")) = Val 250
  /\ gdt_price_decode (padded_web_text (str "250 ")) = Val 250
  /\ nex_price_decode (b64_enc (str "250 ")) = Val 250.
Proof.
  destruct (aes_price_spec (replicate 32 0) (str "250 ")) as (-> & -> & ->); [done|by_decide|simpl; lia|by vm_compute].
Defined.

(** A Tanx message that is signed correctly, but has the byte of a minus sign in its bid id, is
    decoded to zero: the decoded bytes are rewritten before the checksum is computed. *)
Lemma tanx_minus_rejected :
  let bidid := ch "-" :: drop 1 iv0 in
  tanx_decodePrice (tanx_message bidid (le_bytes 4 121) (tanx_sig bidid 121) ++ [0]) <> Val None
  /\ tanx_price_decode (escaped_text (tanx_message bidid (le_bytes 4 121) (tanx_sig bidid 121))) = Val 0.
Proof. split; [vm_compute; discriminate|by vm_compute]. Qed.

(** A Baidu text that decodes to fewer than 27 bytes is read past its end. *)
Lemma baidu_short_undefined : baidu_price_decode (web_text (str "short")) = Undef.
Proof. by vm_compute. Qed.
