(* ===== verification/Pricing.v ===== *)
(** * Pricing: what a request costs and what it is billed (core/logic/abstract_query_task.cpp)

    [decodeAdxExchangePrice] selects the decoder of an exchange, [decodeOfferPrice] reads the
    price the bid was made with, and [calcPrice] distributes cost, billing and fees over the
    impression and the click.  The constants of mtty/constants.h and the fee splitter of
    mtty's library, which are not part of the repository, are parameters. *)
From Stdlib Require Import SpecFloat.
From S2P Require Import Prelude CString UrlCodec UrlParams Cypher Rijndael RijndaelProofs SohuPrice Double PriceDecode.

(** ** Constants *)

Inductive adx_name : Set :=
| ADX_TANX | ADX_TANX_MOBILE | ADX_YOUKU | ADX_YOUKU_MOBILE | ADX_BAIDU | ADX_BAIDU_MOBILE
| ADX_GUANGYIN | ADX_GUANGYIN_MOBILE | ADX_TENCENT_GDT | ADX_GDT_MOBILE | ADX_NETEASE_MOBILE
| ADX_YIDIAN | ADX_SOHU_PC | ADX_SOHU_MOBILE | ADX_INMOBI | ADX_LIEBAO_MOBILE | ADX_NEX_PC
| ADX_NEX_MOBILE | ADX_KUPAI_MOBILE | ADX_360_MAX_PC | ADX_360_MAX_MOBILE | ADX_2345_PC
| ADX_2345_MOBILE | ADX_SSP_PC | ADX_SSP_MOBILE.

#[global] Instance adx_name_eq_dec : EqDecision adx_name.
Proof. solve_decision. Defined.

Class AdxConst := {
  adx_id : adx_name -> Z;
  PRICETYPE_RRTB_CPM : Z; PRICETYPE_RRTB_CPC : Z; PRICETYPE_RCPC : Z; PRICETYPE_RTB : Z;
  costdetailVec : bytes -> double -> list double;   (* MT::common::costdetailVec *)
}.

(** The labels of one [switch] are distinct. *)
Class AdxConstLaws (C : AdxConst) : Prop := {
  adx_id_inj :: Inj (=) (=) adx_id;
  price_types_distinct : PRICETYPE_RRTB_CPM <> PRICETYPE_RRTB_CPC /\ PRICETYPE_RRTB_CPM <> PRICETYPE_RCPC
    /\ PRICETYPE_RRTB_CPM <> 0;
}.

(** [protocol::log::LogPhaseType] *)
Inductive LogPhaseType : Set := BID | SHOW | VIEW | CLICK | TRACK | MAPPING.

#[global] Instance phase_eq_dec : EqDecision LogPhaseType.
Proof. solve_decision. Defined.

(** What the other decoders find in memory: the bytes after the empty chain of the sohu
    decoder and the key array of the youku decoder before it is written. *)
Class PriceMemory := { sohu_after : bytes; youku_key_array : bytes }.

Section pricing.
Context `{AdxConst, PriceMemory, OpenSSL, BoostBase64, Base64, Aes, CryptoPP}.

(** The [case] labels in front of one decoder. *)
Definition adx_is (adx : Z) (names : list adx_name) : bool := existsb (fun n => adx =? adx_id n) names.

(** A result is converted to the [int] the function returns. *)
Definition as_int (m : outcome Z) : outcome Z := r ← m; Val (s32 r).

(** [int(std::stof(input) * 1.06 * 100)] *)
Definition rate_1_06 : double := S754_finite false 4773815605012726 (-52).
Definition inmobi_price (input : bytes) : outcome Z :=
  x ← stof input; int_of (dmul (dmul x rate_1_06) (double_of_Z 100)).

(** [stringtool::safeconvert(stringtool::stoi, s)] *)
Definition safe_stoi (s : bytes) : outcome Z := try_all (stoi s) (Val 0).

Definition decodeAdxExchangePrice (adx : Z) (input : bytes) : outcome Z :=
  match input with
  | [] => Val 0
  | _ =>
    if adx_is adx [ADX_TANX; ADX_TANX_MOBILE] then as_int (tanx_price_decode input)
    else if adx_is adx [ADX_YOUKU; ADX_YOUKU_MOBILE] then as_int (youku_price_decode youku_key_array input)
    else if adx_is adx [ADX_BAIDU; ADX_BAIDU_MOBILE] then as_int (baidu_price_decode input)
    else if adx_is adx [ADX_GUANGYIN; ADX_GUANGYIN_MOBILE] then as_int (guangyin_price_decode input)
    else if adx_is adx [ADX_TENCENT_GDT; ADX_GDT_MOBILE] then gdt_price_decode input
    else if adx_is adx [ADX_NETEASE_MOBILE; ADX_YIDIAN] then stoi input
    else if adx_is adx [ADX_SOHU_PC; ADX_SOHU_MOBILE] then as_int (sohu_price_decode sohu_after input)
    else if adx_is adx [ADX_INMOBI] then try_all (inmobi_price input) (Val 0)
    else if adx_is adx [ADX_LIEBAO_MOBILE] then try_all (stoi input) (Val 0)
    else if adx_is adx [ADX_NEX_PC; ADX_NEX_MOBILE] then nex_price_decode input
    else if adx_is adx [ADX_KUPAI_MOBILE] then as_int (kupai_price_decode input)
    else if adx_is adx [ADX_360_MAX_PC; ADX_360_MAX_MOBILE] then
      as_int (r ← max360_price_decode input; Val (Z.quot r 10000))
    else if adx_is adx [ADX_2345_PC; ADX_2345_MOBILE; ADX_SSP_PC; ADX_SSP_MOBILE] then safe_stoi input
    else Val 0
  end.

(** ** The price of the bid *)

(** Signed arithmetic that does not fit an [int] is undefined. *)
Definition int_op (z : Z) : outcome Z := check ((INT_MIN <=? z) && (z <=? INT_MAX));; Val z.

Definition decodeOfferPrice (input : bytes) (useAes : bool) : outcome Z :=
  try_std
    (if negb useAes then output ← stoi input; if output <? 0 then int_op (- output) else Val output
     else stoi (aes_ecb_decrypt OFFERPRICE_ENCODE_KEY input))
    (fun _ => Val 0).

(** ** Cost and billing *)

(** The fields of the log that [calcPrice] writes through its reference parameters. *)
Record billing := mkBilling { cost : Z; bidPrice : Z; feeDetail : list double }.

Definition set_cost (c : Z) (b : billing) : billing := mkBilling c (bidPrice b) (feeDetail b).
Definition set_bid (p : Z) (b : billing) : billing := mkBilling (cost b) p (feeDetail b).
Definition set_detail (d : list double) (b : billing) : billing := mkBilling (cost b) (bidPrice b) d.

Definition settled_by_click (priceType : Z) : bool :=
  (priceType =? PRICETYPE_RRTB_CPC) || (priceType =? PRICETYPE_RCPC).

Definition calcPrice (adx : Z) (isDeal : bool) (decodePrice offerPrice : Z) (feeRate : double)
    (feeRateDetail : bytes) (b : billing) (logPhase : LogPhaseType) (priceType adplaceBuyType : Z)
    : outcome billing :=
  let adplaceBuyType := if adplaceBuyType =? 0 then PRICETYPE_RRTB_CPM else adplaceBuyType in
  let fixPrice := isDeal || adx_is adx [ADX_NETEASE_MOBILE; ADX_YIDIAN] in
  let offerPrice := if fixPrice then (if offerPrice =? 0 then decodePrice else offerPrice) else offerPrice in
  match logPhase with
  | SHOW =>
    let b := set_cost (if adplaceBuyType =? PRICETYPE_RRTB_CPM then decodePrice else 0) b in
    if settled_by_click priceType then Val (set_bid 0 b)
    else
      '(b, feeRateBase) ← (if negb fixPrice then
                             p ← int_ceil (dmul (double_of_Z decodePrice) feeRate);
                             Val (set_bid p b, double_of_Z decodePrice)
                           else Val (set_bid offerPrice b, double_of_Z offerPrice));
      Val (match feeRateDetail with [] => b | _ => set_detail (costdetailVec feeRateDetail feeRateBase) b end)
  | CLICK =>
    let b := set_cost (if adplaceBuyType =? PRICETYPE_RRTB_CPM then 0 else decodePrice) b in
    c ← int_op (cost b * 1000);
    let b := set_cost c b in
    if settled_by_click priceType then
      p ← int_op (offerPrice * 1000);
      let b := set_bid p b in
      Val (match feeRateDetail with
           | [] => b
           | _ => set_detail (costdetailVec feeRateDetail (ddiv (double_of_Z p) feeRate)) b
           end)
    else Val b
  | _ => Val b
  end.

(** [feeRate <= 1.0 ? 1.0 : feeRate], of the text of the url. *)
Definition one : double := double_of_Z 1.
Definition feeRate_of (text : option bytes) : outcome double :=
  match text with
  | None => Val one
  | Some t => x ← try_all (stod t) (Val (S754_zero false)); Val (if dle x one then one else x)
  end.
End pricing.

(** ** Properties *)

(** A fee rate: a finite double of at least one, below [2 ^ 31]. *)
Definition is_rate (x : double) : Prop :=
  exists m e, x = S754_finite false m e /\ 2 ^ 52 <= Zpos m < 2 ^ 53 /\ -52 <= e <= -22.

Section billing_properties.
Context `{AdxConstLaws}.

Lemma int_op_in z : INT_MIN <= z <= INT_MAX -> int_op z = Val z.
Proof. intros. unfold int_op. by destruct (Z.leb_spec INT_MIN z), (Z.leb_spec z INT_MAX); try lia. Qed.

(** The product of a price and a rate, rounded up: defined when it fits, never below the price. *)
Lemma billed_price d x m e hi :
  x = S754_finite false m e -> 2 ^ 52 <= Zpos m < 2 ^ 53 -> -52 <= e <= -22 ->
  0 <= d < 2 ^ 31 -> d * Zpos m <= hi * 2 ^ (- e) -> d <= hi <= INT_MAX ->
  exists p, int_ceil (dmul (double_of_Z d) x) = Val p /\ d <= p <= hi
    /\ d * Zpos m * 2 ^ 22 <= (p * 2 ^ 22 + 1) * 2 ^ (- e).
Proof.
  intros -> Hm He Hd Hp Hhi. destruct (Z.eq_dec d 0) as [->|Hne].
  - exists 0. split; [done|]. assert (0 < 2 ^ (- e)) by (apply Z.pow_pos_nonneg; lia). lia.
  - by apply ceil_mul; try lia.
Qed.
End billing_properties.

(** Constants that satisfy the laws. *)
Definition adx_index (n : adx_name) : Z :=
  match n with
  | ADX_TANX => 101 | ADX_TANX_MOBILE => 102 | ADX_YOUKU => 103 | ADX_YOUKU_MOBILE => 104 | ADX_BAIDU => 105
  | ADX_BAIDU_MOBILE => 106 | ADX_GUANGYIN => 107 | ADX_GUANGYIN_MOBILE => 108 | ADX_TENCENT_GDT => 109
  | ADX_GDT_MOBILE => 110 | ADX_NETEASE_MOBILE => 111 | ADX_YIDIAN => 112 | ADX_SOHU_PC => 113
  | ADX_SOHU_MOBILE => 114 | ADX_INMOBI => 115 | ADX_LIEBAO_MOBILE => 116 | ADX_NEX_PC => 117
  | ADX_NEX_MOBILE => 118 | ADX_KUPAI_MOBILE => 119 | ADX_360_MAX_PC => 120 | ADX_360_MAX_MOBILE => 121
  | ADX_2345_PC => 122 | ADX_2345_MOBILE => 123 | ADX_SSP_PC => 124 | ADX_SSP_MOBILE => 125
  end.

Definition toy_adx : AdxConst := {|
  adx_id := adx_index; PRICETYPE_RRTB_CPM := 1; PRICETYPE_RRTB_CPC := 2; PRICETYPE_RCPC := 3; PRICETYPE_RTB := 4;
  costdetailVec _ x := [x] |}.

Lemma toy_adx_laws : AdxConstLaws toy_adx.
Proof. constructor; [intros [] []; done|cbn; lia]. Qed.

(** The least integer that is not below [x / y]. *)
Definition div_up (x y : Z) : Z := - (- x / y).

Lemma div_up_least x y z : 0 < y -> x <= z * y -> x <= div_up x y * y /\ div_up x y <= z.
Proof.
  intros Hy Hz. unfold div_up. pose proof (Z.mul_div_le (- x) y Hy).
  assert (- z <= - x / y) by (apply Z.div_le_lower_bound; lia). nia.
Qed.

(** The tests of the code, as the conditions they stand for. *)
Lemma fix_price_iff `{AdxConst} adx isDeal :
  isDeal || adx_is adx [ADX_NETEASE_MOBILE; ADX_YIDIAN] = bool_decide (isDeal = true \/ adx = adx_id ADX_NETEASE_MOBILE \/ adx = adx_id ADX_YIDIAN).
Proof.
  cbn [adx_is existsb]. apply eq_true_iff_eq. rewrite bool_decide_eq_true, !orb_true_iff, !Z.eqb_eq. naive_solver.
Qed.
Lemma by_click_iff `{AdxConst} t : settled_by_click t = bool_decide (t = PRICETYPE_RRTB_CPC \/ t = PRICETYPE_RCPC).
Proof. unfold settled_by_click. apply eq_true_iff_eq. by rewrite bool_decide_eq_true, orb_true_iff, !Z.eqb_eq. Qed.
Lemma bought_cpm_iff `{AdxConst} t :
  ((if t =? 0 then PRICETYPE_RRTB_CPM else t) =? PRICETYPE_RRTB_CPM) = bool_decide (t = 0 \/ t = PRICETYPE_RRTB_CPM).
Proof. apply eq_true_iff_eq. rewrite bool_decide_eq_true, Z.eqb_eq. destruct (Z.eqb_spec t 0); naive_solver. Qed.

(** C32: Cost and billing of an auction are each accounted once and with their amount.  Whatever the
    exchange, the deal and the price types are, the impression and the click are both computed
    without overflow for prices of at most two million and rates below 1024.  A place bought by
    impressions costs its price on the impression and nothing on the click, any other nothing on
    the impression and its price in thousandths on the click.  An order settled by clicks bills
    nothing on the impression and a thousand times the agreed price on the click.  Any other
    order bills nothing on the click; on the impression it bills the agreed price, when the price
    is fixed by a deal or by the exchange, or else the price times the fee rate, rounded up: at
    least the price, never above the exact product rounded up, and below the exact product at most
    by the rounding of the doubles, [2 ^ -22].  The fees are split where the order is settled, once,
    over that amount, and only when there are fees to split. *)
Theorem calcPrice_once `{AdxConstLaws} adx isDeal decodePrice offerPrice m e detail priceType buyType :
  0 <= decodePrice <= 2000000 -> 0 <= offerPrice <= 2000000 ->
  2 ^ 52 <= Zpos m < 2 ^ 53 -> -52 <= e <= -43 ->
  let calc phase := calcPrice adx isDeal decodePrice offerPrice (S754_finite false m e) detail
                      (mkBilling 0 0 []) phase priceType buyType in
  let fixed := isDeal = true \/ adx = adx_id ADX_NETEASE_MOBILE \/ adx = adx_id ADX_YIDIAN in
  let agreed := if bool_decide (fixed /\ offerPrice = 0) then decodePrice else offerPrice in
  let fees base := match detail with [] => [] | _ => costdetailVec detail base end in
  exists show click, calc SHOW = Val show /\ calc CLICK = Val click
    /\ (if bool_decide (buyType = 0 \/ buyType = PRICETYPE_RRTB_CPM)
        then cost show = decodePrice /\ cost click = 0
        else cost show = 0 /\ cost click = decodePrice * 1000)
    /\ (if bool_decide (priceType = PRICETYPE_RRTB_CPC \/ priceType = PRICETYPE_RCPC)
        then bidPrice show = 0 /\ feeDetail show = [] /\ bidPrice click = agreed * 1000
             /\ feeDetail click = fees (ddiv (double_of_Z (agreed * 1000)) (S754_finite false m e))
        else bidPrice click = 0 /\ feeDetail click = []
             /\ if bool_decide fixed
                then bidPrice show = agreed /\ feeDetail show = fees (double_of_Z agreed)
                else decodePrice <= bidPrice show <= div_up (decodePrice * Zpos m) (2 ^ (- e))
                     /\ decodePrice * Zpos m * 2 ^ 22 <= (bidPrice show * 2 ^ 22 + 1) * 2 ^ (- e)
                     /\ feeDetail show = fees (double_of_Z decodePrice)).
Proof.
  intros Hd Ho Hm He calc fixed agreed fees.
  assert (0 < 2 ^ (- e)) as Hpos by (apply Z.pow_pos_nonneg; lia).
  assert (2 ^ 43 <= 2 ^ (- e) <= 2 ^ 52) as Hpe by (split; apply Z.pow_le_mono_r; lia).
  destruct (div_up_least (decodePrice * Zpos m) (2 ^ (- e)) INT_MAX Hpos) as [Hup Hmax]; [unfold INT_MAX; nia|].
  assert (decodePrice <= div_up (decodePrice * Zpos m) (2 ^ (- e))) as Hlo by nia.
  destruct (billed_price decodePrice (S754_finite false m e) m e (div_up (decodePrice * Zpos m) (2 ^ (- e)))) as (p & Ep & Hp & Hp2);
    [done|done|lia|lia|done|done|].
  unfold calc, calcPrice. rewrite fix_price_iff, by_click_iff, bought_cpm_iff. fold fixed.
  assert ((if bool_decide fixed then if offerPrice =? 0 then decodePrice else offerPrice else offerPrice) = agreed) as ->.
  { unfold agreed. rewrite bool_decide_and. by destruct (bool_decide fixed), (Z.eqb_spec offerPrice 0); case_bool_decide. }
  assert (0 <= agreed <= 2000000) as Ha by (unfold agreed; case_bool_decide; lia). clearbody agreed.
  destruct (bool_decide (buyType = _ \/ _)), (bool_decide (priceType = _ \/ _)), (bool_decide fixed); cbn [set_cost cost negb];
    rewrite ?Ep, !int_op_in by (unfold INT_MIN, INT_MAX; lia); cbn [mbind outcome_bind];
    do 2 eexists; (split; [reflexivity|]); (split; [reflexivity|]); destruct detail; subst fees;
    cbn [set_cost set_bid set_detail cost bidPrice feeDetail]; repeat split; done || lia.
Qed.

(** An impression of an order settled by impressions and bought by impressions, without a
    deal, is billed at least what it cost: the bill is the cost times the fee rate, rounded up,
    and the rounding of the double product never loses money nor bills more than the exact
    product rounded up. *)
Lemma calc_show_margin `{AdxConstLaws} adx decodePrice offerPrice m e detail b priceType buyType :
  0 <= decodePrice < 2 ^ 31 -> 2 ^ 52 <= Zpos m < 2 ^ 53 -> -52 <= e <= -22 ->
  decodePrice * Zpos m <= INT_MAX * 2 ^ (- e) ->
  adx_is adx [ADX_NETEASE_MOBILE; ADX_YIDIAN] = false -> settled_by_click priceType = false ->
  buyType = 0 \/ buyType = PRICETYPE_RRTB_CPM ->
  exists b', calcPrice adx false decodePrice offerPrice (S754_finite false m e) detail b SHOW priceType buyType = Val b'
    /\ cost b' = decodePrice
    /\ decodePrice <= bidPrice b' <= - (- (decodePrice * Zpos m) / 2 ^ (- e)).
Proof.
  intros Hd Hm He Hp Hadx Hset Hbuy. set (hi := - (- (decodePrice * Zpos m) / 2 ^ (- e))).
  assert (0 < 2 ^ (- e)) by (apply Z.pow_pos_nonneg; lia).
  assert (2 ^ (- e) <= 2 ^ 52) by (apply Z.pow_le_mono_r; lia).
  assert (decodePrice <= hi <= INT_MAX) as Hhi.
  { unfold hi. assert (- INT_MAX <= - (decodePrice * Zpos m) / 2 ^ (- e) <= - decodePrice); [|lia].
    split; [apply Z.div_le_lower_bound|apply Z.div_le_upper_bound]; nia. }
  destruct (billed_price decodePrice (S754_finite false m e) m e hi) as (p & Ep & Hp' & _); [done|done|lia|lia| |done|].
  { unfold hi. pose proof (Z.mul_div_le (- (decodePrice * Zpos m)) (2 ^ (- e))). nia. }
  unfold calcPrice. rewrite Hadx, Hset. cbn [orb negb]. rewrite Ep. cbn [mbind outcome_bind].
  assert ((if buyType =? 0 then PRICETYPE_RRTB_CPM else buyType) = PRICETYPE_RRTB_CPM) as ->
    by (destruct Hbuy as [->| ->]; [done|by destruct (_ =? 0)]).
  rewrite Z.eqb_refl. eexists. split; [reflexivity|]. destruct detail; done.
Qed.

(** The fee rate is read from the url: a text that is not a number leaves the impression
    without an undefined price only if it is not the name of a NaN or an infinity. *)
Lemma feeRate_nan_undefined `{AdxConst} adx d offer priceType :
  adx_is adx [ADX_NETEASE_MOBILE; ADX_YIDIAN] = false -> settled_by_click priceType = false ->
  exists x, feeRate_of (Some (str "nan")) = Val x
    /\ calcPrice adx false d offer x [] (mkBilling 0 0 []) SHOW priceType 0 = Undef.
Proof.
  intros Ha Hs. exists S754_nan. split; [by vm_compute|]. unfold calcPrice. rewrite Ha, Hs. cbn [orb negb].
  by destruct (double_of_Z d).
Qed.

(** ** Instances *)

#[local] Existing Instance toy_adx.
#[local] Existing Instance toy_adx_laws.

Lemma calcPrice_once_witness :
  exists show click,
    calcPrice 1 false 500 0 (S754_finite false 4773815605012726 (-52)) (str "f") (mkBilling 0 0 []) SHOW 4 0 = Val show
    /\ calcPrice 1 false 500 0 (S754_finite false 4773815605012726 (-52)) (str "f") (mkBilling 0 0 []) CLICK 4 0 = Val click
    /\ cost show = 500 /\ cost click = 0 /\ 500 <= bidPrice show <= 531 /\ bidPrice click = 0.
Proof.
  destruct (calcPrice_once 1 false 500 0 4773815605012726 (-52) (str "f") 4 0) as (show & click & Hs & Hc & [H1 H2] & H3 & _ & H4 & _);
    try lia.
  exists show, click. repeat split; try done; [apply H4|]. etrans; [apply H4|]. by vm_compute.
Defined.
