(* ===== verification/Http.v ===== *)
(** * Http: requests and responses (utility/http.h, utility/http.cpp)

    The headers are a map from names to values; reading an absent one gives the empty text.
    [statusMsg], the body and the debug text are byte strings. *)
From S2P Require Import Prelude CString.

Definition REQ_URI : bytes := str "URI".
Definition QUERYSTRING : bytes := str "QUERY".
Definition COOKIE : bytes := str "Cookie".
Definition QUERYMETHOD : bytes := str "Method".
Definition USERAGENT : bytes := str "User-Agent".
Definition REMOTEADDR : bytes := str "X-Forwarded-For".
Definition REFERER : bytes := str "Referer".
Definition CONTENTTYPE : bytes := str "Content-Type".
Definition SETCOOKIE : bytes := str "Set-Cookie".
Definition CONTENTENCODING : bytes := str "Content-Encoding".
Definition ACCEPTENCODING : bytes := str "Accept-Encoding".

Abbreviation headers_t := (gmap bytes bytes).

(** ** Requests *)

Record HttpRequest := mkRequest { req_headers : headers_t; postdata : bytes }.

(** [insert], and an assignment when the key was there. *)
Definition req_set (k v : bytes) (r : HttpRequest) : HttpRequest :=
  match req_headers r !! k with
  | None => mkRequest (<[k := v]> (req_headers r)) (postdata r)
  | Some _ => mkRequest (<[k := v]> (req_headers r)) (postdata r)
  end.
Definition req_get (k : bytes) (r : HttpRequest) : bytes := default [] (req_headers r !! k).

Definition isGzip (r : HttpRequest) : bool := contains (req_get CONTENTENCODING r) (str "gzip").
Definition isResponseNeedGzip (r : HttpRequest) : bool := contains (req_get ACCEPTENCODING r) (str "gzip").
Definition path_info (r : HttpRequest) : bytes := req_get REQ_URI r.
Definition request_method (r : HttpRequest) : bytes := req_get QUERYMETHOD r.
Definition query_string (r : HttpRequest) : bytes := req_get QUERYSTRING r.
Definition http_cookie (r : HttpRequest) : bytes := req_get COOKIE r.
Definition http_user_agent (r : HttpRequest) : bytes := req_get USERAGENT r.
Definition remote_addr (r : HttpRequest) : bytes := req_get REMOTEADDR r.
Definition http_referer (r : HttpRequest) : bytes := req_get REFERER r.
Definition set_post_data (d : bytes) (r : HttpRequest) : HttpRequest := mkRequest (req_headers r) d.
Definition raw_post_data (r : HttpRequest) : bytes := postdata r.

(** ** Responses *)

Record HttpResponse := mkResponse {
  respStatus : Z; statusMsg : bytes; headers : headers_t; body : bytes; bodyStream : bytes; needGzipResponse : bool;
}.

Definition setResponseGzip (t : bool) (r : HttpResponse) : HttpResponse :=
  mkResponse (respStatus r) (statusMsg r) (headers r) (body r) (bodyStream r) t.
Definition set_header (k v : bytes) (r : HttpResponse) : HttpResponse :=
  mkResponse (respStatus r) (statusMsg r) (<[k := v]> (headers r)) (body r) (bodyStream r) (needGzipResponse r).
Definition get_header (k : bytes) (r : HttpResponse) : bytes := default [] (headers r !! k).
Definition status (code : Z) (msg : bytes) (r : HttpResponse) : HttpResponse :=
  mkResponse code msg (headers r) (body r) (bodyStream r) (needGzipResponse r).
Definition set_content_header (t : bytes) (r : HttpResponse) : HttpResponse := set_header CONTENTTYPE t r.
Definition content_header (r : HttpResponse) : bytes := get_header CONTENTTYPE r.
Definition cookies (r : HttpResponse) : bytes := get_header SETCOOKIE r.

(** An empty text leaves the body as it was. *)
Definition set_body (m : bytes) (r : HttpResponse) : HttpResponse :=
  match m with
  | [] => r
  | _ => mkResponse (respStatus r) (statusMsg r) (headers r) m (bodyStream r) (needGzipResponse r)
  end.
Definition get_body (r : HttpResponse) : bytes := body r.
Definition append_debug (more : bytes) (r : HttpResponse) : HttpResponse :=
  mkResponse (respStatus r) (statusMsg r) (headers r) (body r) (bodyStream r ++ more) (needGzipResponse r).
Definition get_debug_message (r : HttpResponse) : bytes := bodyStream r.

Lemma get_set_header k v r : get_header k (set_header k v r) = v.
Proof. unfold get_header, set_header. cbn [headers]. by rewrite lookup_insert_eq. Qed.

Lemma get_header_body k m r : get_header k (set_body m r) = get_header k r.
Proof. by destruct m. Qed.

Lemma status_body m r : respStatus (set_body m r) = respStatus r.
Proof. by destruct m. Qed.

(** ** Messages as text *)

(** The order of [std::map<std::string, ...>]: texts are compared as unsigned bytes. *)
Fixpoint text_leb (a b : bytes) : bool :=
  match a, b with
  | [], _ => true
  | _, [] => false
  | x :: a, y :: b => (x <? y) || ((x =? y) && text_leb a b)
  end.
Definition key_le (p q : bytes * bytes) : Prop := text_leb p.1 q.1 = true.
#[global] Instance key_le_dec : RelDecision key_le.
Proof. intros p q. unfold key_le. apply _. Defined.

Definition CRLF : bytes := [13; 10].
Definition header_line (p : bytes * bytes) : bytes :=
  match p with
  | ([], _) | (_, []) => []
  | (k, v) => k ++ str ":" ++ v ++ CRLF
  end.
Definition header_text (m : headers_t) : bytes := flat_map header_line (merge_sort key_le (map_to_list m)).
Definition body_text (b : bytes) : bytes := match b with [] => [] | _ => CRLF ++ b end.

Definition req_to_string (r : HttpRequest) : bytes := header_text (req_headers r) ++ body_text (postdata r).
Definition resp_to_string (r : HttpResponse) : bytes :=
  str "HTTP/1.1 " ++ to_string (respStatus r) ++ str " " ++ statusMsg r ++ CRLF ++ header_text (headers r) ++ body_text (body r).

Lemma text_leb_total a b : text_leb a b = true \/ text_leb b a = true.
Proof.
  revert b. induction a as [|x a IH]; intros [|y b]; cbn [text_leb]; [by left|by left|by right|].
  destruct (Z.ltb_spec x y), (Z.ltb_spec y x); cbn [orb]; [by left..|by right|].
  assert (x = y) as -> by lia. rewrite Z.eqb_refl. apply IH.
Qed.

#[global] Instance key_le_total : Total key_le.
Proof. intros p q. apply text_leb_total. Qed.

(** The headers of a message are printed in the order of their names, each with a value once. *)
Lemma header_text_lines m :
  exists hs, header_text m = flat_map header_line hs /\ Sorted key_le hs /\ NoDup (map fst hs)
    /\ forall k v, (k, v) ∈ hs <-> m !! k = Some v.
Proof.
  exists (merge_sort key_le (map_to_list m)). split; [done|]. split; [apply Sorted_merge_sort, _|]. split.
  - change (map fst) with (fmap (M := list) (A := bytes * bytes) fst). rewrite merge_sort_Permutation. apply NoDup_fst_map_to_list.
  - intros k v. rewrite merge_sort_Permutation. apply elem_of_map_to_list.
Qed.

(** A message without a body ends without the empty line that closes the headers. *)
Example no_closing_line : resp_to_string (mkResponse 200 [] ∅ [] [] false) = str "HTTP/1.1 200 " ++ CRLF.
Proof. by vm_compute. Qed.
