(* ===== verification/QueryTask.v ===== *)
(** * QueryTask: the common part of every request (core/logic/abstract_query_task.cpp,
    core/logic/abstract_query_task.h)

    A task reads the query of a request into a parameter map, turns it into a log item with its
    prices, identifies the user by the query and the cookie, runs the logic of its module and
    sends the log item.  The request state is threaded by the monad [M], in which an exception
    keeps what was done before it, as the references of the code do.

    The user ids and the traffic control of mtty's library and the avro encoder are parameters;
    what kafka answers and the next user id are arguments. *)
From Stdlib Require Import SpecFloat.
From S2P Require Import Prelude CString UrlCodec UrlParams Cypher UrlHelper Rijndael RijndaelProofs SohuPrice.
From S2P Require Import LogPusher Double PriceDecode Pricing Http.

(** ** Log items (protocol/log/log.h)

    The fields that the tasks set; the others keep their initial values. *)

Record GeoInfo := mkGeo { country : Z; province : Z; city : Z }.

(** [cid], [bidEcpmPrice], [bidBasePrice], [adxuid], [offerPrice] and [bidSize], which only the modules
    for impressions and bids set. *)
Record SelectInfo := mkSelect { cid : Z; bidEcpmPrice : Z; bidBasePrice : Z; ad_adxuid : bytes; ad_offerPrice : Z; ad_bidSize : bytes }.

Record AdInfo := mkAd {
  areaId : bytes; advId : Z; cpid : Z; sid : Z; bannerId : Z; clickId : bytes; adxid : Z; mid : Z;
  pid : bytes; imp_id : bytes; landingUrl : bytes; adxpid : bytes; priceType : Z; ppid : Z; orderId : Z;
  bill : billing; select : SelectInfo;
}.

(** [tags] are [tag1] to [tag10]. *)
Record TraceInfo := mkTrace { version : bytes; deviceType : bytes; sourceid : bytes; tags : list bytes }.

(** [device] without its [deviceID], and what only bids set. *)
Record DeviceInfo := mkDevice { dev_flowType : Z; dev_deviceType : Z; dev_netWork : Z; dev_os : Z; dev_make : bytes }.
Record FlowInfo := mkFlow {
  dealIds : list bytes; keyWords : bytes; mediaType : Z; contentTypes : list Z; log_device : DeviceInfo; deviceInfo : bytes;
}.

Record LogItem := mkLog {
  timeStamp : Z; logType : LogPhaseType; reqStatus : Z; reqMethod : Z; proxy : bytes; referer : bytes;
  userId : bytes; userAgent : bytes; geoInfo : GeoInfo; adInfo : AdInfo; clickx : Z; clicky : Z; deviceID : bytes;
  traceId : Z; traceInfo : TraceInfo; flow : FlowInfo;
}.

Definition ad0 : AdInfo := mkAd [] 0 0 0 0 [] 0 0 [] [] [] [] 0 0 0 (mkBilling 0 0 []) (mkSelect 0 0 0 [] 0 []).
Definition trace0 : TraceInfo := mkTrace [] [] [] (replicate 10 []).
Definition flow0 : FlowInfo := mkFlow [] [] 0 [] (mkDevice 0 0 0 0 []) [].
Definition log0 : LogItem := mkLog 0 BID 0 0 [] [] [] [] (mkGeo 0 0 0) ad0 0 0 [] 0 trace0 flow0.

Definition set_ad (a : AdInfo) (l : LogItem) : LogItem :=
  mkLog (timeStamp l) (logType l) (reqStatus l) (reqMethod l) (proxy l) (referer l) (userId l) (userAgent l)
    (geoInfo l) a (clickx l) (clicky l) (deviceID l) (traceId l) (traceInfo l) (flow l).
Definition set_reqStatus (s : Z) (l : LogItem) : LogItem :=
  mkLog (timeStamp l) (logType l) s (reqMethod l) (proxy l) (referer l) (userId l) (userAgent l)
    (geoInfo l) (adInfo l) (clickx l) (clicky l) (deviceID l) (traceId l) (traceInfo l) (flow l).
Definition set_user (u ip : bytes) (l : LogItem) : LogItem :=
  mkLog (timeStamp l) (logType l) (reqStatus l) (reqMethod l) ip (referer l) u (userAgent l)
    (geoInfo l) (adInfo l) (clickx l) (clicky l) (deviceID l) (traceId l) (traceInfo l) (flow l).
Definition set_bill (b : billing) (a : AdInfo) : AdInfo :=
  mkAd (areaId a) (advId a) (cpid a) (sid a) (bannerId a) (clickId a) (adxid a) (mid a) (pid a) (imp_id a)
    (landingUrl a) (adxpid a) (priceType a) (ppid a) (orderId a) b (select a).
Definition set_landing (u : bytes) (a : AdInfo) : AdInfo :=
  mkAd (areaId a) (advId a) (cpid a) (sid a) (bannerId a) (clickId a) (adxid a) (mid a) (pid a) (imp_id a)
    u (adxpid a) (priceType a) (ppid a) (orderId a) (bill a) (select a).

(** ** Parameters *)

(** mtty/constants.h *)
Class TaskConst := {
  URL_LONG_INPUT_PARAMETER : nat;
  COOKIES_MTTY_ID : bytes; COOKIES_MTTY_DOMAIN : bytes;
  HTTP_REQUEST_GET : Z;
}.

(** [MT::User::UserID]: from a cipher text, from a plain one, or from a sequence number and a time. *)
Class UserIds := {
  UserID : Type;
  uid_decipher : bytes -> UserID;
  uid_of_text : bytes -> UserID;
  uid_new : Z -> Z -> UserID;
  isValid : UserID -> bool;
  uid_text : UserID -> bytes;
  uid_cipher : UserID -> bytes;
}.

(** [writeAvroObject] *)
Class Avro := { avro_encode : LogItem -> bytes }.

(** The calls of [TrafficControllProxy]. *)
Inductive traffic : Type :=
| RecordCPMShow (sid advId : Z) (price : double) | RecordCPCShow (sid : Z)
| RecordCPMClick (sid : Z) | RecordCPCClick (sid advId : Z) (price : double).

(** The requests to the aerospike database, in the order they are made. *)
Inductive db_op : Type :=
| DbIncr (set key bin : bytes) | DbPutSource (sourceId : bytes) (params : ParamMap) (log : LogItem)
| DbPutIndex (key sourceId : bytes)
| DbPut (set key : bytes) (ttl : Z) (bins : gmap bytes bytes)
| DbNewCounter (key : bytes) (banner group solution ttl : Z)   (* UserShowCounter *)
| DbCountShow (key : bytes) (banner group solution : Z).         (* ASMapOperation *)

(** ** The request state and its monad *)

Record task_state := mkState {
  params : ParamMap; log : LogItem; resp : HttpResponse; needLog : bool;
  logs : log_state; trafficCalls : list traffic; db : list db_op;
}.

Inductive result (A : Type) : Type := RVal (a : A) (s : task_state) | RExc (e : exn) (s : task_state) | RUndef.
Arguments RVal {A} _ _.
Arguments RExc {A} _ _.
Arguments RUndef {A}.

Definition M (A : Type) : Type := task_state -> result A.

#[global] Instance M_ret : MRet M := fun A a s => RVal a s.
#[global] Instance M_bind : MBind M :=
  fun A B f m s => match m s with RVal a s => f a s | RExc e s => RExc e s | RUndef => RUndef end.

(** A computation that does not touch the state. *)
Definition lift {A} (m : outcome A) : M A :=
  fun s => match m with Val a => RVal a s | Exc e => RExc e s | Undef => RUndef end.
Definition gets {A} (f : task_state -> A) : M A := fun s => RVal (f s) s.

Definition put_params (m : ParamMap) : M unit := fun s =>
  RVal tt (mkState m (log s) (resp s) (needLog s) (logs s) (trafficCalls s) (db s)).
Definition put_log (l : LogItem) : M unit := fun s =>
  RVal tt (mkState (params s) l (resp s) (needLog s) (logs s) (trafficCalls s) (db s)).
Definition put_resp (r : HttpResponse) : M unit := fun s =>
  RVal tt (mkState (params s) (log s) r (needLog s) (logs s) (trafficCalls s) (db s)).
Definition put_logs (l : log_state) : M unit := fun s =>
  RVal tt (mkState (params s) (log s) (resp s) (needLog s) l (trafficCalls s) (db s)).
Definition add_traffic (t : traffic) : M unit := fun s =>
  RVal tt (mkState (params s) (log s) (resp s) (needLog s) (logs s) (trafficCalls s ++ [t]) (db s)).
Definition add_db (d : db_op) : M unit := fun s =>
  RVal tt (mkState (params s) (log s) (resp s) (needLog s) (logs s) (trafficCalls s) (db s ++ [d])).
Definition put_needLog (b : bool) : M unit := fun s =>
  RVal tt (mkState (params s) (log s) (resp s) b (logs s) (trafficCalls s) (db s)).
Definition mod_resp (f : HttpResponse -> HttpResponse) : M unit := r ← gets resp; put_resp (f r).

(** [try { m } catch (std::exception & e) { h }] *)
Definition catch_std {A} (m : M A) (h : exn -> M A) : M A :=
  fun s => match m s with
           | RExc e s' => if is_std_exception e then h e s' else RExc e s'
           | r => r
           end.

Lemma run_lift {A B} (m : outcome A) a (k : A -> M B) s : m = Val a -> (lift m ≫= k) s = k a s.
Proof. by intros ->. Qed.
Lemma run_bind {A B} (m : M A) (k : A -> M B) s a s' : m s = RVal a s' -> (m ≫= k) s = k a s'.
Proof. unfold mbind, M_bind. by intros ->. Qed.
Lemma bind_run {A B} (m : M A) (k : A -> M B) s :
  (m ≫= k) s = match m s with RVal a s => k a s | RExc e s => RExc e s | RUndef => RUndef end.
Proof. done. Qed.
Lemma run_gets {A B} (f : task_state -> A) (k : A -> M B) s : (gets f ≫= k) s = k (f s) s.
Proof. done. Qed.
Lemma run_mod {B} f (k : unit -> M B) s :
  (mod_resp f ≫= k) s = k tt (mkState (params s) (log s) (f (resp s)) (needLog s) (logs s) (trafficCalls s) (db s)).
Proof. done. Qed.

(** [paramMap[key]]: an absent key is inserted with an empty text. *)
Definition at_key (k : bytes) : M bytes :=
  m ← gets params; match m !! k with Some v => mret v | None => put_params (<[k := []]> m);; mret [] end.

Section task.
Context `{UrlNames, MapOrder, Base64, CryptoPP, OpenSSL, BoostBase64, Aes}.
Context `{AdxConst, PriceMemory, TaskConst, UserIds, Avro, LogConst}.

(** ** From the query to the log item *)

Definition countedUserIp (adxId : Z) (ip : bytes) (m : ParamMap) : bytes :=
  if adx_is adxId [ADX_TENCENT_GDT; ADX_GDT_MOBILE] then default ip (m !! url_name URL_IP) else ip.

(** [URLParamMap::stringToInt] returns zero for what is not a number. *)
Definition to_int (v : bytes) : Z := match stringToInt v with Val n => n | _ => 0 end.

(** The value of a parameter, converted, or the old one when it is absent. *)
Definition param {A : Type} (m : ParamMap) (k : url_key) (f : bytes -> A) (old : A) : A :=
  match m !! url_name k with Some v => f v | None => old end.

Definition int32_param (m : ParamMap) (k : url_key) (old : Z) : Z := param m k (fun v => s32 (to_int v)) old.
Definition int64_param (m : ParamMap) (k : url_key) (old : Z) : Z := param m k to_int old.
Definition text_param (m : ParamMap) (k : url_key) (old : bytes) : bytes := param m k id old.

(** [char buf[1024]] *)
Definition PARSE_BUFFER : Z := 1024.

(** The part of [parseObjectToLogItem] before the prices, which throws nothing: the landing
    page is the C string the decoder left in the buffer; the referer is decoded too, and the
    encoded text is stored. *)
Definition parse_ids (m : ParamMap) (l : LogItem) : outcome LogItem :=
  let a := adInfo l in
  landing ← param m URL_LANDING_URL (fun u => o ← urlDecode_f u PARSE_BUFFER; Val (c_str o)) (Val (landingUrl a));
  ref ← param m URL_REFERER (fun f => urlDecode_f f PARSE_BUFFER;; Val f) (Val (referer l));
  geo ← param m URL_AREA_ID (fun t => '(x, y, z) ← extractAreaInfo t; Val (mkGeo x y z)) (Val (geoInfo l));
  let advId' := int64_param m URL_ADOWNER_ID (advId a) in
  let pid0 := param m URL_ADPLACE_ID (fun _ => str "0") (pid a) in
  Val (mkLog (timeStamp l) (logType l) (reqStatus l) (reqMethod l) (proxy l) ref (userId l) (userAgent l) geo
    (mkAd (text_param m URL_AREA_ID (areaId a)) advId' (param m URL_ADOWNER_ID (fun _ => advId') (cpid a))
       (int64_param m URL_EXEC_ID (sid a)) (int64_param m URL_CREATIVE_ID (bannerId a))
       (text_param m URL_CLICK_ID (clickId a)) (int32_param m URL_ADX_ID (adxid a)) (int64_param m URL_SITE_ID (mid a))
       (text_param m URL_MTTYADPLACE_ID pid0) (text_param m URL_EXPOSE_ID (imp_id a)) landing
       (text_param m URL_ADPLACE_ID (adxpid a)) (int32_param m URL_PRICE_TYPE 0) (ppid a)
       (int64_param m URL_ORDER_ID (orderId a)) (bill a) (select a))
    (int32_param m URL_CLICK_X (clickx l)) (int32_param m URL_CLICK_Y (clicky l)) (deviceID l) (traceId l) (traceInfo l) (flow l)).

(** The prices: the exchange's decoder may throw. *)
Definition parse_price (m : ParamMap) (l : LogItem) : outcome LogItem :=
  let a := adInfo l in
  feeRate ← feeRate_of (m !! url_name URL_FEE_RATE);
  offerPrice ← param m URL_BID_PRICE (fun v => decodeOfferPrice v false) (Val 0);
  adplaceBuyType ← param m URL_ADPLACE_BUY_TYPE safe_stoi (Val PRICETYPE_RRTB_CPM);
  let feeRateDetail := text_param m URL_FEE_RATE_STRS [] in
  b ← param m URL_EXCHANGE_PRICE
        (fun price =>
           decodePrice ← decodeAdxExchangePrice (adxid a) price;
           let isDeal := param m URL_DEAL_ID (fun d => negb (bool_decide (d = []))) false in
           calcPrice (adxid a) isDeal decodePrice offerPrice feeRate feeRateDetail (bill a) (logType l)
             (priceType a) adplaceBuyType)
        (calcPrice (adxid a) false 0 offerPrice feeRate feeRateDetail (bill a) (logType l) (priceType a) adplaceBuyType);
  Val (set_ad (set_bill b a) l).

(** The product package and the device ids. *)
Definition device_text (m : ParamMap) (k : url_key) (name : string) : bytes :=
  param m k (fun v => str name ++ v ++ str ",") [].

Definition parse_device (m : ParamMap) (l : LogItem) : LogItem :=
  let a := adInfo l in
  mkLog (timeStamp l) (logType l) (reqStatus l) (reqMethod l) (proxy l) (referer l) (userId l) (userAgent l) (geoInfo l)
    (mkAd (areaId a) (advId a) (cpid a) (sid a) (bannerId a) (clickId a) (adxid a) (mid a) (pid a) (imp_id a)
       (landingUrl a) (adxpid a) (priceType a) (int32_param m URL_PRODUCTPACKAGE_ID (ppid a)) (orderId a) (bill a) (select a))
    (clickx l) (clicky l)
    (deviceID l ++ device_text m URL_DEVICE_IDFA "idfa:" ++ device_text m URL_DEVICE_IMEI "imei:"
     ++ device_text m URL_DEVICE_ANDOROIDID "androidid:" ++ device_text m URL_DEVICE_MAC "mac:") (traceId l) (traceInfo l) (flow l).

(** What was parsed before an exception stays in the log item, with the status of an error. *)
Definition parseObjectToLogItem (m : ParamMap) (l : LogItem) : outcome LogItem :=
  l ← parse_ids m l;
  try_std (l ← parse_price m l; Val (parse_device m l)) (fun _ => Val (set_reqStatus 500 l)).

(** ** The user *)

Definition plantNewCookie (cookieUid : bytes) : M unit :=
  mod_resp (set_header SETCOOKIE
    (COOKIES_MTTY_ID ++ str "=" ++ cookieUid ++ str ";Domain=." ++ COOKIES_MTTY_DOMAIN ++ str ";Max-Age=2617488000;")).

(** [idSeq] is the sequence number and time a new id would get. *)
Definition userCookieLogic (userCookies : bytes) (idSeq : Z * Z) : M bytes :=
  cookieEncUid ← lift (extractCookiesParam COOKIES_MTTY_ID userCookies);
  m ← gets params;
  let serverEncUid := default [] (m !! url_name URL_MTTY_UID) in
  let clientUid := uid_decipher cookieEncUid in
  let serverUid := uid_decipher serverEncUid in
  if isValid clientUid && isValid serverUid then
    (if bool_decide (cookieEncUid <> serverEncUid) then plantNewCookie (uid_cipher serverUid) else mret tt);;
    mret (uid_text serverUid)
  else if negb (isValid clientUid) && isValid serverUid then
    plantNewCookie (uid_cipher serverUid);; mret (uid_text serverUid)
  else if isValid clientUid && negb (isValid serverUid) then mret (uid_text clientUid)
  else
    let newUid := uid_new (fst idSeq) (snd idSeq) in
    plantNewCookie (uid_cipher newUid);; mret (uid_text newUid).

(** ** The virtual methods of a module *)

Record TaskOps := mkOps {
  currentPhase : LogPhaseType;
  expectedReqStatus : Z;
  task_filter : ParamMap -> ParamMap;    (* filterParamMapSafe *)
  getPostParam : M unit;
  customLogic : M unit;
}.

(** The members the constructor copies from the request, and the answers of the outside. *)
Record task_env := mkTaskEnv {
  data : bytes; isPost : bool; userCookies : bytes; env_userAgent : bytes; userIp : bytes; env_referer : bytes;
  now : Z; idSeq : Z * Z;
  logger : option logger_id; loggerName : bytes; loggerLocal : bool;
  send_answer : SendResult; thread_created : bool; fresh : producer_id;
}.

Definition filterParamMapSafe (m : ParamMap) : ParamMap :=
  (fun v => stringSafeInput v URL_LONG_INPUT_PARAMETER) <$> m.

(** The parameters of a query: those of the plain text, or those of its ciphered part. *)
Definition query_params (phase : LogPhaseType) (data : bytes) : outcome ParamMap :=
  m ← getParamv2_str ∅ data;
  match m !! ENCODE_HOLDER with
  | None => Val m
  | Some _ =>
    h ← make_url_data [] [] [] [] data true;
    let m' := paramMap h in
    Val (if bool_decide (m' !! url_name URL_EXCHANGE_PRICE = None) && bool_decide (phase = SHOW)
         then <[url_name URL_EXCHANGE_PRICE := default [] (m !! url_name URL_EXCHANGE_PRICE)]> m' else m')
  end.

Definition commonLogic (ops : TaskOps) (e : task_env) : M unit :=
  l ← gets log;
  let l := mkLog (now e) (currentPhase ops) (expectedReqStatus ops) HTTP_REQUEST_GET (proxy l) (env_referer e)
             (userId l) (env_userAgent e) (geoInfo l) (adInfo l) (clickx l) (clicky l) (deviceID l) (traceId l) (traceInfo l) (flow l) in
  put_log l;;
  (if negb (isPost e) then
     m ← lift (query_params (currentPhase ops) (data e));
     let m := task_filter ops m in
     put_params m;;
     l ← lift (parseObjectToLogItem m l);
     put_log l;;
     u ← userCookieLogic (userCookies e) (idSeq e);
     m ← gets params;
     put_log (set_user u (countedUserIp (adxid (adInfo l)) (userIp e) m) l)
   else
     getPostParam ops;;
     l ← gets log; put_log (set_user (userId l) (userIp e) l));;
  mod_resp (set_content_header (str "text/html")).

(** ** Sending the log item *)

Definition isBussinessLogImportant (p : LogPhaseType) : bool :=
  match p with CLICK | SHOW | TRACK => true | _ => false end.

(** [bidPrice / 1000.0] *)
Definition thousandth (p : Z) : double := ddiv (double_of_Z p) (double_of_Z 1000).

Definition record_traffic (l : LogItem) : M unit :=
  let a := adInfo l in
  let by_impression := (priceType a =? PRICETYPE_RRTB_CPM) || (priceType a =? PRICETYPE_RTB) in
  let by_click := (priceType a =? PRICETYPE_RCPC) || (priceType a =? PRICETYPE_RRTB_CPC) in
  match logType l with
  | SHOW =>
    if by_impression then add_traffic (RecordCPMShow (sid a) (advId a) (thousandth (bidPrice (bill a))))
    else if by_click then add_traffic (RecordCPCShow (sid a)) else mret tt
  | CLICK =>
    if by_impression then add_traffic (RecordCPMClick (sid a))
    else if by_click then add_traffic (RecordCPCClick (sid a) (advId a) (thousandth (bidPrice (bill a)))) else mret tt
  | _ => mret tt
  end.

Definition doLog (e : task_env) : M unit :=
  l ← gets log;
  let logString := avro_encode l in
  s ← gets logs;
  let '(i, s) := match logger e with
                 | Some i => (i, s)
                 | None => getLogger (loggerName e) (loggerLocal e) (fresh e) s
                 end in
  s ← lift (push i logString (isBussinessLogImportant (logType l)) (send_answer e) (thread_created e) (fresh e) s);
  put_logs s;; record_traffic l.

(** ** The task *)

(** The constructor. *)
Definition task_of (r : HttpRequest) (t : Z) (ids : Z * Z) (lg : option logger_id) (n : bytes) (local : bool)
    (a : SendResult) (created : bool) (f : producer_id) : task_env :=
  let post := bool_decide (request_method r = str "POST") in
  mkTaskEnv (if post then raw_post_data r else query_string r) post (http_cookie r) (http_user_agent r)
    (remote_addr r) (http_referer r) t ids lg n local a created f.

(** [operator()]: [onError] of the modules only writes a log line. *)
Definition run_task (ops : TaskOps) (e : task_env) : M unit :=
  catch_std
    (mod_resp (status (expectedReqStatus ops) []);;
     commonLogic ops e;;
     customLogic ops;;
     b ← gets needLog;
     if (b : bool) then doLog e else mret tt)
    (fun _ => mod_resp (fun r => set_content_header (str "text/html") (status 500 (str "error") r))).

Definition start (r : HttpResponse) (s : log_state) : task_state := mkState ∅ log0 r true s [] [].
End task.

(** ** Properties *)

(** *** Ciphered queries *)

Lemma encode_f_char_plain c :
  is_ascii c -> Forall (fun x => x <> 0 /\ x <> ch "&") (encode_f_char c) \/ c = 0.
Proof.
  intros Hc. destruct (Z.eq_dec c 0) as [|Hz]; [by right|left].
  by_table 128%nat (fun c => (c =? 0) || forallb (fun x => negb (x =? 0) && negb (x =? ch "&")) (encode_f_char c)).
  specialize (H c Hc). apply orb_true_iff in H as [H|H]; [lia|].
  apply List.Forall_forall. intros x Hx. rewrite forallb_forall in H. specialize (H x Hx). lia.
Qed.

Lemma encode_f_char_head c :
  is_ascii c -> c <> ch " " -> exists x t, encode_f_char c = x :: t /\ x <> ch " ".
Proof.
  intros Hc Hs.
  by_table 128%nat (fun c => (c =? ch " ") || (match encode_f_char c with x :: _ => negb (x =? ch " ") | [] => false end)).
  specialize (H c Hc). apply orb_true_iff in H as [H|H]; [lia|].
  destruct (encode_f_char c) as [|x t]; [done|]. exists x, t. split; [done|lia].
Qed.

Section cipher.
Context `{UrlNamesLaws} `{MapOrderLaws} `{Base64Laws} `{LogConst}.

(** The exchange appends the price it has replaced its macro by. *)
Definition price_tail (price : option bytes) : bytes :=
  match price with Some p => str "&" ++ url_name URL_EXCHANGE_PRICE ++ str "=" ++ p | None => [] end.

Definition price_ok (h : URLHelper) (price : option bytes) : Prop :=
  plain_tail h (price_tail price) /\ forall p, price = Some p -> p <> [] /\ wf_param (ch "&") (url_name URL_EXCHANGE_PRICE, p).

Lemma cipher_text_wf h :
  cipherable h -> Forall (fun c => c <> 0 /\ c <> ch "&") (macro_text (enum (checked_macros h))) ->
  exists v, cipher_text h = ENCODE_HOLDER ++ str "=" ++ v /\ v <> [] /\ wf_param (ch "&") (ENCODE_HOLDER, v).
Proof.
  intros Hc Hm. unfold cipher_text. rewrite (app_assoc (flat_map _ _)).
  set (v := (flat_map encode_f_char _ ++ _) ++ _). exists v. pose proof (b64_ok h Hc) as Hb.
  assert (Forall (fun c => c <> 0 /\ c <> ch "&") v) as Hv.
  { unfold v. rewrite !Forall_app. split_and!; [|done|by_decide]. apply List.Forall_forall. intros x Hx.
    apply in_flat_map in Hx as (c & Hc' & Hx). rewrite List.Forall_forall in Hb. specialize (Hb c Hc').
    destruct (encode_f_char_plain c) as [Hf| ->]; [tauto| |tauto]. rewrite List.Forall_forall in Hf. auto. }
  split; [done|]. split.
  { unfold v. intros E. apply app_eq_nil in E as [_ E]. discriminate E. }
  constructor; cbn [fst snd]; [discriminate|by_decide|discriminate|done|].
  unfold v. destruct (b64_encode (serialized h)) as [|c t] eqn:E; [by apply b64_nonempty in E; [|apply serialized_ne]|].
  inversion Hb as [|? ? (Ha & _ & _ & Hz & _ & Hs)]; subst. cbn [flat_map].
  destruct (encode_f_char_head c Ha Hs) as (x & t' & -> & Hx). exact Hx.
Qed.

Lemma cipher_text_params h price :
  cipherable h -> Forall (fun c => c <> 0 /\ c <> ch "&") (macro_text (enum (checked_macros h))) -> price_ok h price ->
  exists v, getParamv2_str ∅ (cipher_text h ++ price_tail price)
    = Val (match price with Some p => <[url_name URL_EXCHANGE_PRICE := p]> {[ENCODE_HOLDER := v]} | None => {[ENCODE_HOLDER := v]} end).
Proof.
  intros Hc Hm [_ Hp]. destruct (cipher_text_wf h Hc Hm) as (v & -> & Hv & Hwf). exists v. destruct price as [p|]; cbn [price_tail].
  - destruct (Hp p eq_refl) as [Hpne Hpwf].
    replace ((ENCODE_HOLDER ++ str "=" ++ v) ++ str "&" ++ url_name URL_EXCHANGE_PRICE ++ str "=" ++ p)
      with (join (ch "&") [(ENCODE_HOLDER, v); (url_name URL_EXCHANGE_PRICE, p)]) by (cbn [join]; unfold pair_text; cbn [fst snd]; by rewrite <- !app_assoc).
    apply getParamv2_str_join; [done|constructor; [done|]; by constructor|]. cbn. by intros k [= _ ?].
  - rewrite app_nil_r. by apply getParamv2_single.
Qed.

Lemma query_params_cipher (phase : LogPhaseType) h price :
  cipherable h -> url_name URL_EXCHANGE_PRICE <> ENCODE_HOLDER ->
  Forall (fun c => c <> 0 /\ c <> ch "&") (macro_text (enum (checked_macros h))) -> price_ok h price ->
  query_params phase (cipher_text h ++ price_tail price)
  = Val (if bool_decide (recovered h !! url_name URL_EXCHANGE_PRICE = None) && bool_decide (phase = SHOW)
         then <[url_name URL_EXCHANGE_PRICE := default [] price]> (recovered h) else recovered h).
Proof.
  intros Hc Hn Hm Hp. unfold query_params. destruct (cipher_text_params h price Hc Hm Hp) as [v ->].
  destruct Hp as [Ht _]. cbn [mbind outcome_bind]. set (m := match price with Some p => _ | None => _ end).
  assert (m !! ENCODE_HOLDER = Some v) as ->.
  { unfold m. destruct price; [rewrite lookup_insert_ne by done|]; apply lookup_singleton_eq. }
  assert (m !! url_name URL_EXCHANGE_PRICE = price) as ->.
  { unfold m. destruct price; [apply lookup_insert_eq|]. by rewrite lookup_singleton_ne by congruence. }
  unfold make_url_data, processParamDataWithRetry.
  destruct (Nat.leb_spec 2048 (length (cipher_text h ++ price_tail price))); [destruct Ht as (_ & _ & ?); lia|].
  rewrite processParamData_cipher by done. cbn [mbind outcome_bind with_params paramMap].
  by do 2 case_bool_decide.
Qed.
End cipher.

(** The user of a request is found without touching the parameters and the log, and is the one of the query when that is valid. *)
Lemma userCookieLogic_run `{UserIds, UrlNames, TaskConst} sent seq s enc :
  extractCookiesParam COOKIES_MTTY_ID sent = Val enc ->
  exists u r, userCookieLogic sent seq s = RVal u (mkState (params s) (log s) r (needLog s) (logs s) (trafficCalls s) (db s))
    /\ forall uid, uid = uid_decipher (default [] (params s !! url_name URL_MTTY_UID)) -> isValid uid = true -> u = uid_text uid.
Proof.
  intros Henc. unfold userCookieLogic. rewrite (run_lift _ _ _ _ Henc), run_gets. set (server := default [] _).
  assert (s = mkState (params s) (log s) (resp s) (needLog s) (logs s) (trafficCalls s) (db s)) as Es by by destruct s.
  destruct (isValid (uid_decipher enc)), (isValid (uid_decipher server)) eqn:Ev; cbn [andb negb].
  - case_bool_decide; do 2 eexists; (split; [|by intros ? ->]); [reflexivity|rewrite Es at 1; reflexivity].
  - do 2 eexists. split; [rewrite Es at 1; reflexivity|]. intros ? ->. congruence.
  - do 2 eexists. split; [reflexivity|]. by intros ? ->.
  - do 2 eexists. split; [reflexivity|]. intros ? ->. congruence.
Qed.

Lemma filter_lookup `{TaskConst} m k : filterParamMapSafe m !! k = take URL_LONG_INPUT_PARAMETER <$> m !! k.
Proof.
  unfold filterParamMapSafe. rewrite lookup_fmap. destruct (m !! k) as [v|]; [|done]. cbn. f_equal. unfold stringSafeInput.
  destruct (Nat.ltb_spec URL_LONG_INPUT_PARAMETER (length v)); [done|]. by rewrite take_ge.
Qed.

Section common.
Context `{UrlNames, MapOrder, Base64, CryptoPP, OpenSSL, BoostBase64, Aes}.
Context `{AdxConst, PriceMemory, TaskConst, UserIds}.

(** The run of the common part on a query, with the parameters that were read. *)
Lemma commonLogic_get ops e s m l enc :
  isPost e = false -> query_params (currentPhase ops) (data e) = Val m -> extractCookiesParam COOKIES_MTTY_ID (userCookies e) = Val enc ->
  parseObjectToLogItem (task_filter ops m)
    (mkLog (now e) (currentPhase ops) (expectedReqStatus ops) HTTP_REQUEST_GET (proxy (log s)) (env_referer e) (userId (log s))
       (env_userAgent e) (geoInfo (log s)) (adInfo (log s)) (clickx (log s)) (clicky (log s)) (deviceID (log s)) (traceId (log s))
       (traceInfo (log s)) (flow (log s))) = Val l ->
  exists u r, commonLogic ops e s
    = RVal tt (mkState (task_filter ops m) (set_user u (countedUserIp (adxid (adInfo l)) (userIp e) (task_filter ops m)) l)
                 (set_content_header (str "text/html") r) (needLog s) (logs s) (trafficCalls s) (db s))
    /\ forall uid, uid = uid_decipher (default [] (task_filter ops m !! url_name URL_MTTY_UID)) -> isValid uid = true -> u = uid_text uid.
Proof.
  intros Hg Hq Hc Hl. unfold commonLogic. rewrite run_gets, Hg. cbn [negb].
  set (l0 := mkLog _ _ _ _ _ _ _ _ _ _ _ _ _ _ _ _) in *.
  set (s1 := mkState (task_filter ops m) l (resp s) (needLog s) (logs s) (trafficCalls s) (db s)).
  destruct (userCookieLogic_run (userCookies e) (idSeq e) s1 enc Hc) as (u & r & Eu & Hu).
  exists u, r. split; [|exact Hu]. rewrite (run_bind (put_log l0) _ s tt _ eq_refl).
  match goal with |- (?m ≫= ?k) ?st = _ => set (s0 := st) end.
  assert ((m ← lift (query_params (currentPhase ops) (data e)); put_params (task_filter ops m);;
           l ← lift (parseObjectToLogItem (task_filter ops m) l0); put_log l;;
           u ← userCookieLogic (userCookies e) (idSeq e); m ← gets params;
           put_log (set_user u (countedUserIp (adxid (adInfo l)) (userIp e) m) l)) s0
          = RVal tt (mkState (task_filter ops m) (set_user u (countedUserIp (adxid (adInfo l)) (userIp e) (task_filter ops m)) l) r
                       (needLog s) (logs s) (trafficCalls s) (db s))) as E.
  { rewrite (run_lift _ _ _ _ Hq), (run_bind (put_params _) _ s0 tt _ eq_refl), (run_lift _ _ _ _ Hl), (run_bind (put_log l) _ _ tt _ eq_refl).
    etrans; [exact (run_bind _ _ _ _ _ Eu)|]. reflexivity. }
  rewrite (run_bind _ _ _ _ _ E). reflexivity.
Qed.
End common.


(** *** Errors *)

(** The part of a task that can throw. *)
Definition task_body `{UrlNames, MapOrder, Base64, CryptoPP, OpenSSL, BoostBase64, Aes}
    `{AdxConst, PriceMemory, TaskConst, UserIds, Avro, LogConst} (ops : TaskOps) (e : task_env) : M unit :=
  mod_resp (status (expectedReqStatus ops) []);; commonLogic ops e;; customLogic ops;;
  b ← gets needLog; if (b : bool) then doLog e else mret tt.

(** No standard exception leaves a task: when the common part, the module or the logging
    throws one, the response is a 500 with its headers and body as far as they were set, and the
    logs are those at the throw; otherwise the task ends as its parts do. *)
Theorem run_task_error `{UrlNames, MapOrder, Base64, CryptoPP, OpenSSL, BoostBase64, Aes}
    `{AdxConst, PriceMemory, TaskConst, UserIds, Avro, LogConst} (ops : TaskOps) (e : task_env) s :
  match task_body ops e s with
  | RExc x s' =>
    if is_std_exception x then
      exists s'', run_task ops e s = RVal tt s'' /\ respStatus (resp s'') = 500 /\ content_header (resp s'') = str "text/html"
        /\ body (resp s'') = body (resp s') /\ cookies (resp s'') = cookies (resp s') /\ logs s'' = logs s'
    else run_task ops e s = RExc x s'
  | r => run_task ops e s = r
  end.
Proof.
  assert (run_task ops e = catch_std (task_body ops e)
    (fun _ => mod_resp (fun r => set_content_header (str "text/html") (status 500 (str "error") r)))) as -> by reflexivity.
  unfold catch_std. destruct (task_body ops e s) as [[] s'|x s'|]; [done| |done].
  destruct (is_std_exception x); [|done]. eexists. split; [reflexivity|]. cbn.
  unfold content_header, cookies, get_header, set_content_header, set_header. cbn [headers status].
  rewrite lookup_insert_eq, (lookup_insert_ne _ CONTENTTYPE SETCOOKIE) by discriminate. done.
Qed.

(** *** Users *)

Class UserIdsLaws (U : UserIds) : Prop := {
  uid_cipher_valid i t : isValid (uid_new i t) = true;
  uid_roundtrip u : isValid u = true -> uid_text (uid_decipher (uid_cipher u)) = uid_text u;
}.

(** The cookie the browser holds after the response: the one the response sets, or the one it sent. *)
Definition cookie_text `{TaskConst} (uid : bytes) : bytes :=
  COOKIES_MTTY_ID ++ str "=" ++ uid ++ str ";Domain=." ++ COOKIES_MTTY_DOMAIN ++ str ";Max-Age=2617488000;".

(** The user of a request: the id that is logged is the id of the cookie the browser holds
    after the response, the one this response sets or else the one the browser sent; and it is
    the id of the query whenever that is valid. *)
Theorem userCookieLogic_identity `{UserIdsLaws} `{UrlNames, TaskConst} sent seq s enc :
  extractCookiesParam COOKIES_MTTY_ID sent = Val enc ->
  headers (resp s) !! SETCOOKIE = None ->
  exists u s', userCookieLogic sent seq s = RVal u s' /\ params s' = params s
    /\ match headers (resp s') !! SETCOOKIE with
       | Some c => exists uid, c = cookie_text (uid_cipher uid) /\ isValid uid = true /\ uid_text (uid_decipher (uid_cipher uid)) = u
       | None => isValid (uid_decipher enc) = true /\ uid_text (uid_decipher enc) = u
       end
    /\ (isValid (uid_decipher (default [] (params s !! url_name URL_MTTY_UID))) = true ->
        u = uid_text (uid_decipher (default [] (params s !! url_name URL_MTTY_UID)))).
Proof.
  intros Henc Hh. unfold userCookieLogic. rewrite (run_lift _ _ _ _ Henc), run_gets. set (server := default [] _).
  destruct (isValid (uid_decipher enc)) eqn:Ec, (isValid (uid_decipher server)) eqn:Es; cbn [andb negb].
  - case_bool_decide as Hd.
    + do 2 eexists. split; [reflexivity|]. split; [done|]. cbn. rewrite lookup_insert_eq. split; [|done].
      eexists. split; [reflexivity|]. split; [done|]. by apply uid_roundtrip.
    + do 2 eexists. split; [reflexivity|]. split; [done|]. rewrite Hh.
      assert (enc = server) as -> by (destruct (decide (enc = server)); [done|tauto]). auto.
  - do 2 eexists. split; [reflexivity|]. split; [done|]. rewrite Hh. done.
  - do 2 eexists. split; [reflexivity|]. split; [done|]. cbn. rewrite lookup_insert_eq. split; [|done].
    eexists. split; [reflexivity|]. split; [done|]. by apply uid_roundtrip.
  - do 2 eexists. split; [reflexivity|]. split; [done|]. cbn. rewrite lookup_insert_eq. split; [|done].
    eexists. split; [reflexivity|]. split; [apply uid_cipher_valid|]. apply uid_roundtrip, uid_cipher_valid.
Qed.

(** *** Prices *)

Lemma adx_is_other `{AdxConstLaws} n names : n ∉ names -> adx_is (adx_id n) names = false.
Proof.
  intros Hn. unfold adx_is. apply not_true_iff_false. rewrite existsb_exists. intros (x & Hx & E).
  apply Z.eqb_eq, adx_id_inj in E. subst. apply Hn. by apply list_elem_of_In.
Qed.

Lemma adx_is_one `{AdxConst} n names : n ∈ names -> adx_is (adx_id n) names = true.
Proof.
  intros Hn. unfold adx_is. apply existsb_exists. exists n. split; [by apply list_elem_of_In|apply Z.eqb_refl].
Qed.

Lemma web_text_nil x : Forall is_byte x -> web_text x = [] -> x = [].
Proof.
  intros Hx E. destruct (web_text_standard x Hx) as [Es _]. rewrite E in Es. cbn [map] in Es.
  pose proof (b64_enc_ge x) as Hg. rewrite <- Es in Hg. by destruct x; [|cbn in Hg; lia].
Qed.

Section baidu_show.
Context `{AdxConstLaws} `{OpenSSLLaws} `{PriceMemory, BoostBase64, Base64, Aes, CryptoPP, UrlNames}.

Lemma decode_baidu (iv pad hash : bytes) (price : Z) :
  message_ok iv pad (be_bytes price) (take 4 hash) -> 0 <= price < 2 ^ 31 ->
  HMAC EVP_sha1 baidu_encryption_key iv = Some pad ->
  HMAC EVP_sha1 baidu_integrity_key (be_bytes price ++ iv) = Some hash ->
  decodeAdxExchangePrice (adx_id ADX_BAIDU) (web_text (signed_message iv pad (be_bytes price) (take 4 hash))) = Val price.
Proof.
  intros Hm Hp Ep Eh.
  assert (decodeAdxExchangePrice (adx_id ADX_BAIDU) (web_text (signed_message iv pad (be_bytes price) (take 4 hash)))
    = as_int (baidu_price_decode (web_text (signed_message iv pad (be_bytes price) (take 4 hash))))) as ->.
  { unfold decodeAdxExchangePrice. rewrite (adx_is_other ADX_BAIDU [ADX_TANX; ADX_TANX_MOBILE]), (adx_is_other ADX_BAIDU [ADX_YOUKU; ADX_YOUKU_MOBILE]),
      (adx_is_one ADX_BAIDU [ADX_BAIDU; ADX_BAIDU_MOBILE]) by by_decide.
    destruct (web_text _) as [|c t] eqn:E; [|done]. exfalso.
    pose proof (signed_message_length _ _ _ _ Hm) as Hl.
    apply web_text_nil in E; [by rewrite E in Hl|by apply signed_message_bytes]. }
  unfold baidu_price_decode. rewrite (price_decode_message _ _ _ _ _ _ hash) by (done || lia).
  rewrite bool_decide_eq_true_2 by done. unfold as_int. cbn [mbind outcome_bind]. f_equal. apply swrap_small; lia.
Qed.
End baidu_show.

(** From the query to the bill: an impression on Baidu whose exchange price is a message signed by
    the exchange, on an order settled and bought by impressions and without a deal, is logged with
    the price of the message as its cost, and billed at least that and at most the cost times the
    fee rate of the query, rounded up. *)
Lemma baidu_show_billed `{AdxConstLaws} `{OpenSSLLaws} `{PriceMemory, BoostBase64, Base64, Aes, CryptoPP, UrlNames}
    (iv pad hash : bytes) (price : Z) (m : ParamMap) (l : LogItem) (offer : Z) (mt : positive) (e buy : Z) :
  message_ok iv pad (be_bytes price) (take 4 hash) -> 0 <= price < 2 ^ 31 ->
  HMAC EVP_sha1 baidu_encryption_key iv = Some pad ->
  HMAC EVP_sha1 baidu_integrity_key (be_bytes price ++ iv) = Some hash ->
  m !! url_name URL_EXCHANGE_PRICE = Some (web_text (signed_message iv pad (be_bytes price) (take 4 hash))) ->
  m !! url_name URL_DEAL_ID = None ->
  feeRate_of (m !! url_name URL_FEE_RATE) = Val (S754_finite false mt e) -> 2 ^ 52 <= Zpos mt < 2 ^ 53 -> -52 <= e <= -22 ->
  price * Zpos mt <= INT_MAX * 2 ^ (- e) ->
  param m URL_BID_PRICE (fun v => decodeOfferPrice v false) (Val 0) = Val offer ->
  param m URL_ADPLACE_BUY_TYPE safe_stoi (Val PRICETYPE_RRTB_CPM) = Val buy -> buy = 0 \/ buy = PRICETYPE_RRTB_CPM ->
  logType l = SHOW -> adxid (adInfo l) = adx_id ADX_BAIDU -> settled_by_click (priceType (adInfo l)) = false ->
  exists bl, parse_price m l = Val (set_ad (set_bill bl (adInfo l)) l) /\ cost bl = price
    /\ price <= bidPrice bl <= - (- (price * Zpos mt) / 2 ^ (- e)).
Proof.
  intros Hm Hp Ep Eh Hx Hd Hf Hmt He Hfit Ho Hb Hbuy Hl Ha Hs. unfold parse_price. rewrite Hf, Ho, Hb.
  cbn [mbind outcome_bind]. unfold param at 1. rewrite Hx, Ha, decode_baidu by done. cbn [mbind outcome_bind].
  unfold param at 1. rewrite Hd, Hl.
  destruct (calc_show_margin (adx_id ADX_BAIDU) price offer mt e (text_param m URL_FEE_RATE_STRS []) (bill (adInfo l))
    (priceType (adInfo l)) buy) as (b' & -> & Hc & Hbid); [done..|apply adx_is_other; by_decide|done|done|].
  cbn [mbind outcome_bind]. exists b'. done.
Qed.


(** ** Instances *)

(** A user id is its own cipher; only the empty text is not valid. *)
Definition toy_users : UserIds := {|
  UserID := bytes; uid_decipher c := c; uid_of_text c := c; uid_new i t := str "u" ++ to_string i ++ to_string t;
  isValid u := negb (bool_decide (u = [])); uid_text u := u; uid_cipher u := u |}.

Definition toy_const : TaskConst := {|
  URL_LONG_INPUT_PARAMETER := 1000; COOKIES_MTTY_ID := str "mtty"; COOKIES_MTTY_DOMAIN := str "mtty.com"; HTTP_REQUEST_GET := 1 |}.

Definition toy_crypto : CryptoPP := {|
  md5_hex x := x; aes_ecb_encrypt k x := x; OFFERPRICE_ENCODE_KEY := str "0123456789abcdef" |}.

Definition toy_memory : PriceMemory := {| sohu_after := replicate 16 0; youku_key_array := replicate 32 0 |}.

Import UrlHelper.Concrete.
#[local] Existing Instance toy_users.
#[local] Existing Instance toy_const.
#[local] Existing Instance toy_crypto.
#[local] Existing Instance toy_memory.
#[local] Existing Instance toy_adx.
#[local] Existing Instance toy_adx_laws.
#[local] Existing Instance toy_openssl.
#[local] Existing Instance toy_openssl_laws.
#[local] Existing Instance toy_boost.
#[local] Existing Instance toy_aes.

#[local] Instance toy_users_laws : UserIdsLaws toy_users.
Proof. constructor; done. Qed.

Definition click_request : task_env :=
  mkTaskEnv (cipher_text sample ++ price_tail (Some (str "x7"))) false (str "mtty=client") (str "agent") (str "1.2.3.4") [] 5 (7, 9)
    None (str "logger") true SEND_OK true 1%nat.
Definition click_only : TaskOps := mkOps CLICK 302 filterParamMapSafe (mret tt) (mret tt).


Definition cookie_state : task_state :=
  mkState {[url_name URL_MTTY_UID := str "server"]} log0 (mkResponse 200 [] ∅ [] [] false) true log_state0 [] [].

Lemma userCookieLogic_identity_witness :
  exists u s', userCookieLogic (str "mtty=client") (7, 9) cookie_state = RVal u s' /\ u = str "server"
    /\ headers (resp s') !! SETCOOKIE = Some (cookie_text (str "server")).
Proof.
  destruct (userCookieLogic_identity (str "mtty=client") (7, 9) cookie_state (str "client"))
    as (u & s' & E & _ & _ & Hu); [by vm_compute|done|].
  exists u, s'. split; [exact E|]. rewrite Hu by done. split; [done|].
  assert (userCookieLogic (str "mtty=client") (7, 9) cookie_state
    = RVal (str "server") (mkState (params cookie_state) log0
        (set_header SETCOOKIE (cookie_text (str "server")) (resp cookie_state)) true log_state0 [] [])) as E' by reflexivity.
  rewrite E' in E. injection E as _ <-. reflexivity.
Defined.

