(* ===== verification/ClickTask.v ===== *)
(** * ClickTask: clicks (core/logic/click_query_task.cpp, core/model/source_id.cpp)

    A click is redirected to the landing page of its query, after the variables of the page were
    replaced by the parameters of the click; the click is stored under a new source id for the
    tracking module, and counted for its order.  What aerospike answers is an argument; the
    lookup of the area of an address is one too, and is [getAreaCodeStrByIp] of IpManager.v. *)
From Stdlib Require Import SpecFloat.
From S2P Require Import Prelude CString UrlCodec UrlParams Cypher UrlHelper LogPusher Pricing Http QueryTask.

(** ** The landing page *)

(** [char buffer[1024]], [char result[1024]] *)
Definition LANDING_BUFFER : nat := 1024.

(** [*p++ = c] for each byte, inside [result]. *)
Definition emit_text (s out : bytes) : outcome bytes :=
  check (length out + length s <=? LANDING_BUFFER)%nat;; Val (out ++ s).

(** The loop over [buffer]: text up to a brace is copied; a name up to the closing brace is
    replaced by its parameter; an open brace without a closing one ends the text.  Reading
    [paramMap[name]] inserts an absent name. *)
Fixpoint landing_loop (fuel : nat) (p1 out : bytes) (m : ParamMap) : outcome (bytes * ParamMap) :=
  match fuel with
  | O => Undef
  | S fuel =>
    let lit := take_while (fun c => negb (c =? ch "{")) p1 in
    out ← emit_text lit out;
    match skip_while (fun c => negb (c =? ch "{")) p1 with
    | [] => Val (out, m)
    | _ :: p1 =>
      let name := take_while (fun c => negb (c =? ch "}")) p1 in
      match skip_while (fun c => negb (c =? ch "}")) p1 with
      | [] => Val (out, m)
      | _ :: p1 =>
        let v := default [] (m !! name) in
        let m := match m !! name with Some _ => m | None => <[name := []]> m end in
        out ← emit_text (c_str v) out;
        match p1 with [] => Val (out, m) | _ => landing_loop fuel p1 out m end
      end
    end
  end.

(** [replace(str, from, to)]: the first occurrence. *)
Definition replace_first (s from to : bytes) : bytes :=
  match find s from 0 with None => s | Some i => replace s i (length from) to end.

(** [paramMap[k]] as an expression: an absent key is inserted. *)
Definition touch (k : bytes) (m : ParamMap) : ParamMap :=
  match m !! k with Some _ => m | None => <[k := []]> m end.

(** [paramMap[n] = paramMap[k]] *)
Definition alias (m : ParamMap) (nk : bytes * bytes) : ParamMap :=
  let m := touch nk.2 m in <[nk.1 := default [] (m !! nk.2)]> m.

(** The values of bins, and [as_record_set_int64] and [as_record_set_str], which refuse a new bin
    when the capacity of the record is used up. *)
Inductive as_val : Type := AsInt (n : Z) | AsStr (s : bytes).
Abbreviation as_record := (gmap bytes as_val).

Definition as_record_set (cap : nat) (r : as_record) (b : bytes * as_val) : as_record :=
  if bool_decide (is_Some (r !! b.1)) || (size r <? cap)%nat then <[b.1 := b.2]> r else r.

Section click.
Context `{UrlNames}.

(** The names the click adds for the landing page. *)
Definition landing_params (userIp : bytes) (m : ParamMap) : ParamMap :=
  let m := foldl alias m
    [ (str "advid", url_name URL_ADOWNER_ID); (str "pid", url_name URL_MTTYADPLACE_ID);
      (str "adxpid", url_name URL_ADPLACE_ID); (str "bid", url_name URL_CREATIVE_ID); (str "sid", url_name URL_EXEC_ID);
      (str "idfa", url_name URL_DEVICE_IDFA); (str "imei", url_name URL_DEVICE_IMEI); (str "mac", url_name URL_DEVICE_MAC);
      (str "androidid", url_name URL_DEVICE_ANDOROIDID); (str "xid", url_name URL_ADX_ID) ] in
  alias (<[str "ip" := userIp]> m) (str "geoid", url_name URL_AREA_ID).

(** The url encoded variables, in both cases of the digits. *)
Definition landing_replace (m : ParamMap) (u : bytes) : bytes :=
  let get n := default [] (m !! str n) in
  foldl (fun u '(from, n) => replace_first u (str from) (get n)) u
    [ ("%7badvid%7d", "advid"); ("%7Badvid%7D", "advid"); ("%7bidfa%7d", "idfa"); ("%7Bidfa%7D", "idfa");
      ("%7bsource_id%7d", "source_id"); ("%7Bsource_id%7D", "source_id") ]%string.

(** The landing page for the parameters: what replaces it in the log item, and the map with the
    names that were read. *)
Definition landing_url (userIp landing : bytes) (m : ParamMap) : outcome (bytes * ParamMap) :=
  let m := landing_params userIp m in
  check (length landing <? LANDING_BUFFER)%nat;;
  let text := c_str landing in
  '(out, m) ← landing_loop (S (length text)) text [] m;
  check (length out <? LANDING_BUFFER)%nat;;
  let m := foldl (fun m n => touch n m) m [str "advid"; str "idfa"; str "source_id"] in
  Val (landing_replace m out, m).

Definition handleLandingUrl (userIp : bytes) : M unit :=
  l ← gets log; m ← gets params;
  '(u, m) ← lift (landing_url userIp (landingUrl (adInfo l)) m);
  put_params m;; put_log (set_ad (set_landing u (adInfo l)) l).

(** ** Source ids *)

(** [SourceId::record]: twelve hexadecimal digits of the counter; a missing counter is -1. *)
Definition source_id_text (val : Z) : bytes := zfill 12 (hex_string (u64 val)).

(** The answers of aerospike to one click: the counter ([None] is an exception; [Some (-1)] has no
    counter, and then no stored text either), and whether the source record was written; how the
    last two writes end makes no difference. *)
Record click_answers := mkAnswers { counter : option Z; put_source_ok : bool }.

Definition generateSourceId (a : click_answers) : bytes :=
  match counter a with Some v => if v =? -1 then [] else source_id_text v | None => [] end.

Definition recordSource (a : click_answers) : M unit :=
  l ← gets log;
  ownerId ← at_key (url_name URL_ADOWNER_ID);
  if bool_decide (userId l = []) || bool_decide (ownerId = []) then mret tt
  else
    let sourceId := generateSourceId a in
    if bool_decide (sourceId = []) then mret tt
    else
      m ← gets params;
      put_params (<[str "source_id" := sourceId]> m);;
      m ← gets params;
      add_db (DbPutSource sourceId m l);;
      if negb (put_source_ok a) then mret tt
      else add_db (DbPutIndex (c_str (userId l ++ ownerId)) sourceId).

(** ** The module *)

(** [std::stoll] *)
Definition stoll : bytes -> outcome Z := stol.

Definition count_order (a : click_answers) : M unit :=
  catch_std
    (o ← at_key (url_name URL_ORDER_ID);
     orderId ← lift (stoll o);
     add_db (DbIncr (str "order-counter") (to_string orderId) (str "c")))
    (fun _ => mret tt).

(** The comparison of the areas only writes a log line. *)
Definition click_customLogic (userIp : bytes) (a : click_answers) (area : bytes -> outcome bytes) : M unit :=
  l ← gets log;
  (if negb (bool_decide (landingUrl (adInfo l) = [])) then
     recordSource a;;
     handleLandingUrl userIp;;
     l ← gets log;
     mod_resp (status 302 (str "OK"));;
     mod_resp (set_header (str "Location") (landingUrl (adInfo l)));;
     mod_resp (set_body (str "m"));;
     count_order a
   else mod_resp (status 400 (str "Error,empty landing url")));;
  lift (area (c_str userIp));;
  at_key (url_name URL_AREA_ID);; mret tt.

(** [HandleClickQueryTask] *)
Definition click_ops `{TaskConst} (userIp : bytes) (a : click_answers) (area : bytes -> outcome bytes) : TaskOps :=
  mkOps CLICK 302 filterParamMapSafe (mret tt) (click_customLogic userIp a area).

(** ** The stored record *)

(** The capacity [SourceRecord] asks for, and the bins it sets. *)
Definition SOURCE_BINS : nat := 16.
Definition source_bins (m : ParamMap) (l : LogItem) : list (bytes * as_val) :=
  let get k := AsStr (c_str (default [] (m !! url_name k))) in
  [ (str "latest_time", AsInt (timeStamp l)); (str "adv_id", get URL_ADOWNER_ID); (str "sid", get URL_EXEC_ID);
    (str "adx_id", get URL_ADX_ID); (str "mt_uid", AsStr (c_str (userId l))); (str "pid", get URL_MTTYADPLACE_ID);
    (str "adxpid", get URL_ADPLACE_ID); (str "request_id", get URL_EXPOSE_ID); (str "create_id", get URL_CREATIVE_ID);
    (str "geo_id", get URL_AREA_ID); (str "referer_url", get URL_REFERER); (str "bid_price", get URL_BID_PRICE);
    (str "ppid", get URL_PRODUCTPACKAGE_ID); (str "oid", get URL_ORDER_ID); (str "pricetype", get URL_PRICE_TYPE);
    (str "mid", get URL_SITE_ID); (str "impid", get URL_EXPOSE_ID) ].

Definition source_record (m : ParamMap) (l : LogItem) : as_record := foldl (as_record_set SOURCE_BINS) ∅ (source_bins m l).
End click.

(** ** Properties *)

(** *** Landing pages *)

(** A page: literal text and a variable, repeated, and the text at the end. *)
Definition page (segs : list (bytes * bytes)) (fin : bytes) : bytes :=
  flat_map (fun '(lit, n) => lit ++ ch "{" :: n ++ [ch "}"]) segs ++ fin.

Definition expand (m : ParamMap) (segs : list (bytes * bytes)) (fin : bytes) : bytes :=
  flat_map (fun '(lit, n) => lit ++ c_str (default [] (m !! n))) segs ++ fin.

Definition no_open (s : bytes) : Prop := Forall (fun c => c <> 0 /\ negb (c =? ch "{") = true) s.
Definition no_close (s : bytes) : Prop := Forall (fun c => c <> 0 /\ negb (c =? ch "}") = true) s.
Definition page_ok (segs : list (bytes * bytes)) (fin : bytes) : Prop :=
  Forall (fun '(lit, n) => no_open lit /\ no_close n) segs /\ no_open fin.

(** Two maps that read the same, where an absent name reads as the empty text. *)
Definition same_values (m m' : ParamMap) : Prop := forall k, default [] (m !! k) = default [] (m' !! k).

#[global] Instance same_values_equiv : Equivalence same_values.
Proof. split; [by intros m k|by intros m m' E k|intros m1 m2 m3 E1 E2 k; by rewrite E1]. Qed.

Lemma touch_same k m : same_values (touch k m) m.
Proof.
  intros j. unfold touch. destruct (m !! k) eqn:E; [done|]. destruct (decide (k = j)) as [->|].
  - by rewrite lookup_insert_eq, E.
  - by rewrite lookup_insert_ne.
Qed.

#[global] Instance expand_proper : Proper (same_values ==> eq ==> eq ==> eq) expand.
Proof.
  intros m m' Em segs ? <- fin ? <-. unfold expand. f_equal. induction segs as [|[lit n] segs IH]; [done|].
  cbn [flat_map]. by rewrite IH, Em.
Qed.

#[global] Instance landing_replace_proper : Proper (same_values ==> eq ==> eq) landing_replace.
Proof. intros m m' Em u ? <-. unfold landing_replace. cbn [foldl]. by rewrite !Em. Qed.

Lemma scan_until p s c t :
  Forall (fun x => x <> 0 /\ p x = true) s -> p c = false ->
  take_while p (s ++ c :: t) = s /\ skip_while p (s ++ c :: t) = c :: t.
Proof.
  intros Hs Hc. induction Hs as [|x s [_ Hx] Hs [IH1 IH2]]; cbn [app take_while skip_while]; [by rewrite Hc|].
  rewrite Hx. by rewrite IH1.
Qed.

Lemma scan_all p s : Forall (fun x => x <> 0 /\ p x = true) s -> take_while p s = s /\ skip_while p s = [].
Proof. induction 1 as [|x s [_ Hx] Hs [IH1 IH2]]; cbn; [done|]. rewrite Hx. by rewrite IH1. Qed.

Lemma page_cons lit n segs fin : page ((lit, n) :: segs) fin = lit ++ ch "{" :: n ++ ch "}" :: page segs fin.
Proof. unfold page. cbn [flat_map]. rewrite <- !app_assoc. cbn [app]. by rewrite <- app_assoc. Qed.

Lemma page_no_nul segs fin : page_ok segs fin -> no_nul (page segs fin).
Proof.
  assert (forall p s, Forall (fun x : Z => x <> 0 /\ p x = true) s -> no_nul s) as Hw.
  { intros p s Hs. eapply Forall_impl; [exact Hs|]. by intros x [? ?]. }
  intros [Hs Hf]. induction Hs as [|[lit n] segs [Hl Hn] Hs IH]; [exact (Hw _ _ Hf)|].
  rewrite page_cons. unfold no_nul in *. rewrite Forall_app, Forall_cons, Forall_app, Forall_cons.
  split_and!; [exact (Hw _ _ Hl)|done|exact (Hw _ _ Hn)|done|exact IH].
Qed.

Lemma emit_text_app {A} a b out (k : bytes -> outcome A) :
  (o ← emit_text a out; o' ← emit_text b o; k o') = (o' ← emit_text (a ++ b) out; k o').
Proof.
  unfold emit_text. rewrite !length_app.
  destruct (Nat.leb_spec (length out + length a) LANDING_BUFFER); cbn [check mbind outcome_bind].
  - rewrite length_app, app_assoc.
    destruct (Nat.leb_spec (length out + length a + length b) LANDING_BUFFER),
      (Nat.leb_spec (length out + (length a + length b)) LANDING_BUFFER); try lia; done.
  - destruct (Nat.leb_spec (length out + (length a + length b)) LANDING_BUFFER); [lia|done].
Qed.

Lemma expand_cons m lit n segs fin :
  expand m ((lit, n) :: segs) fin = lit ++ c_str (default [] (m !! n)) ++ expand m segs fin.
Proof. unfold expand. cbn [flat_map]. by rewrite <- !app_assoc. Qed.

Lemma page_nil segs fin m : page segs fin = [] -> expand m segs fin = [].
Proof.
  destruct segs as [|[lit n] segs]; [done|]. rewrite page_cons. intros E. apply app_eq_nil in E as [_ E]. discriminate E.
Qed.

(** The loop writes the expansion of the page. *)
Lemma landing_loop_ok segs fin fuel out m :
  page_ok segs fin -> (length (page segs fin) < fuel)%nat ->
  exists m', same_values m' m
    /\ landing_loop fuel (page segs fin) out m = (o ← emit_text (expand m segs fin) out; Val (o, m')).
Proof.
  intros [Hsegs Hfin]. revert fuel out m. induction Hsegs as [|[lit n] segs [Hl Hn] Hsegs IH]; intros [|fuel] out m Hf;
    try lia.
  - cbn [landing_loop]. change (page [] fin) with fin. destruct (scan_all _ _ Hfin) as [-> ->]. by exists m.
  - rewrite page_cons in Hf |- *. cbn [landing_loop].
    destruct (scan_until (fun c => negb (c =? ch "{")) lit (ch "{") (n ++ ch "}" :: page segs fin) Hl) as [-> ->]; [done|].
    destruct (scan_until (fun c => negb (c =? ch "}")) n (ch "}") (page segs fin) Hn) as [-> ->]; [done|].
    fold (touch n m). rewrite emit_text_app, expand_cons, (app_assoc lit).
    assert (length (page segs fin) < fuel)%nat as Hf' by (rewrite !length_app in Hf; cbn [length] in Hf; rewrite length_app in Hf; cbn in Hf; lia).
    destruct (page segs fin) as [|c0 t0] eqn:Ep.
    + rewrite (page_nil segs fin m Ep), app_nil_r. exists (touch n m). split; [apply touch_same|done].
    + destruct (emit_text (lit ++ c_str (default [] (m !! n))) out) as [o| |] eqn:Eo.
      * destruct (IH fuel o (touch n m) Hf') as (m' & Hm' & E). exists m'. split; [by rewrite Hm', touch_same|].
        rewrite <- emit_text_app, Eo. cbn [mbind outcome_bind]. by rewrite E, (touch_same n m).
      * unfold emit_text in Eo. by destruct (_ <=? _)%nat.
      * exists m. split; [done|]. by rewrite <- emit_text_app, Eo.
Qed.

Lemma landing_url_spec_core `{UrlNames} ip segs fin m :
  page_ok segs fin -> (length (page segs fin) < LANDING_BUFFER)%nat ->
  let text := expand (landing_params ip m) segs fin in
  if (length text <? LANDING_BUFFER)%nat
  then exists m', landing_url ip (page segs fin) m = Val (landing_replace (landing_params ip m) text, m')
         /\ same_values m' (landing_params ip m)
  else landing_url ip (page segs fin) m = Undef.
Proof.
  intros Hp Hl text. unfold landing_url. set (m0 := landing_params ip m) in *.
  destruct (Nat.ltb_spec (length (page segs fin)) LANDING_BUFFER); [|lia]. cbn [check mbind outcome_bind].
  rewrite c_str_id by by apply page_no_nul.
  destruct (landing_loop_ok segs fin (S (length (page segs fin))) [] m0 Hp ltac:(lia)) as (m' & Hm' & ->).
  fold text. unfold emit_text. cbn [length app Nat.add].
  destruct (Nat.ltb_spec (length text) LANDING_BUFFER) as [Ht|Ht].
  - destruct (Nat.leb_spec (length text) LANDING_BUFFER); [|lia]. cbn [check mbind outcome_bind].
    destruct (Nat.ltb_spec (length text) LANDING_BUFFER); [|lia]. cbn [check mbind outcome_bind].
    eexists. split; [f_equal; f_equal; apply landing_replace_proper; [|done]|]; cbn [foldl]; by rewrite !touch_same.
  - destruct (Nat.leb_spec (length text) LANDING_BUFFER); cbn [check mbind outcome_bind]; [|done].
    by destruct (Nat.ltb_spec (length text) LANDING_BUFFER); [lia|].
Qed.

(** The value of a variable of the page: the names the click adds stand for parameters of the url, or
    for the address; any other name is a parameter itself.  An absent parameter is empty. *)
Definition param_value (m : ParamMap) (k : bytes) : bytes := default [] (m !! k).

Definition landing_names `{UrlNames} : list (bytes * bytes) :=
  [ (str "advid", url_name URL_ADOWNER_ID); (str "pid", url_name URL_MTTYADPLACE_ID); (str "adxpid", url_name URL_ADPLACE_ID);
    (str "bid", url_name URL_CREATIVE_ID); (str "sid", url_name URL_EXEC_ID); (str "idfa", url_name URL_DEVICE_IDFA);
    (str "imei", url_name URL_DEVICE_IMEI); (str "mac", url_name URL_DEVICE_MAC); (str "androidid", url_name URL_DEVICE_ANDOROIDID);
    (str "xid", url_name URL_ADX_ID); (str "geoid", url_name URL_AREA_ID) ].

Definition landing_value `{UrlNames} (ip : bytes) (m : ParamMap) (n : bytes) : bytes :=
  if bool_decide (n = str "ip") then ip
  else match (list_to_map landing_names : gmap bytes bytes) !! n with
       | Some k => param_value m k
       | None => param_value m n
       end.

(** No added name is the url name of a parameter that another one stands for. *)
Definition names_apart (ps : list (bytes * bytes)) : Prop :=
  forall n k n' k', (n, k) ∈ ps -> (n', k') ∈ ps -> k' = n -> n' = n.

Lemma alias_value m n k j : param_value (alias m (n, k)) j = if bool_decide (j = n) then param_value m k else param_value m j.
Proof.
  unfold param_value, alias. cbn [fst snd]. case_bool_decide as Hj.
  - subst. rewrite lookup_insert_eq. apply (touch_same k m k).
  - rewrite lookup_insert_ne by done. apply (touch_same k m j).
Qed.

Lemma aliases_value ps m j :
  NoDup ps.*1 -> names_apart ps ->
  param_value (foldl alias m ps) j = match (list_to_map ps : gmap bytes bytes) !! j with Some k => param_value m k | None => param_value m j end.
Proof.
  revert m. induction ps as [|[n k] ps IH]; intros m Hn Ha; [done|].
  cbn [foldl fmap list_fmap fst] in *. apply NoDup_cons in Hn as [Hin Hn].
  rewrite IH; [|done|intros n1 k1 n2 k2 ??; apply (Ha n1 k1 n2 k2); by right].
  rewrite list_to_map_cons. destruct (decide (j = n)) as [->|Hj].
  - rewrite lookup_insert_eq, not_elem_of_list_to_map_1, alias_value by done. by rewrite bool_decide_true.
  - rewrite lookup_insert_ne by done. destruct (list_to_map ps !! j) as [k'|] eqn:E; rewrite alias_value; [|by rewrite bool_decide_false].
    rewrite bool_decide_false; [done|]. intros ->. apply elem_of_list_to_map_2 in E.
    destruct Hj. apply (Ha n k j n); [by left|by right|done].
Qed.

Lemma list_to_map_snoc (ps : list (bytes * bytes)) a b n :
  (list_to_map (ps ++ [(a, b)]) : gmap bytes bytes) !! n
  = match (list_to_map ps : gmap bytes bytes) !! n with Some k => Some k | None => if bool_decide (n = a) then Some b else None end.
Proof.
  rewrite list_to_map_app, lookup_union. destruct (list_to_map ps !! n); [by destruct (list_to_map _ !! n)|].
  rewrite list_to_map_cons, (left_id None _). case_bool_decide as E; [subst; apply lookup_insert_eq|by rewrite lookup_insert_ne].
Qed.

Section landing_names.
Context `{UrlNames}.

(** All of the names but the last, which is added after the address. *)
Definition first_names : list (bytes * bytes) := take 10 landing_names.
Lemma landing_names_split : landing_names = first_names ++ [(str "geoid", url_name URL_AREA_ID)].
Proof. reflexivity. Qed.
Lemma first_names_in p : p ∈ first_names -> p ∈ landing_names.
Proof. rewrite landing_names_split. set_solver. Qed.
Lemma geoid_in : (str "geoid", url_name URL_AREA_ID) ∈ landing_names.
Proof. rewrite landing_names_split. set_solver. Qed.
Lemma first_names_NoDup : NoDup first_names.*1.
Proof. cbn [first_names take landing_names fmap list_fmap fst]. by_decide. Qed.
Lemma geoid_not_first : str "geoid" ∉ first_names.*1.
Proof. cbn [first_names take landing_names fmap list_fmap fst]. by_decide. Qed.
Lemma landing_params_eq ip m :
  landing_params ip m = alias (<[str "ip" := ip]> (foldl alias m first_names)) (str "geoid", url_name URL_AREA_ID).
Proof. reflexivity. Qed.
Lemma geoid_not_ip : str "geoid" <> str "ip".
Proof. by_decide. Qed.

Lemma landing_params_value ip m n :
  names_apart landing_names -> (forall n k, (n, k) ∈ landing_names -> k <> str "ip") ->
  param_value (landing_params ip m) n = landing_value ip m n.
Proof.
  intros Ha Hip. rewrite landing_params_eq, alias_value. unfold landing_value.
  assert (forall j, param_value (foldl alias m first_names) j
          = match (list_to_map first_names : gmap bytes bytes) !! j with Some k => param_value m k | None => param_value m j end) as E1.
  { intros j. apply aliases_value; [apply first_names_NoDup|]. intros n1 k1 n2 k2 H1%first_names_in H2%first_names_in.
    by apply (Ha n1 k1 n2 k2). }
  pose proof geoid_in as Hgeo. pose proof geoid_not_first as Hg. pose proof first_names_NoDup as Hnd. pose proof first_names_in as Hin.
  pose proof geoid_not_ip as Hgi. rewrite landing_names_split at 1. rewrite list_to_map_snoc.
  generalize dependent first_names. intros ps E1 Hg Hnd Hin. generalize dependent (str "geoid"). intros geoid ?.
  generalize dependent (str "ip"). intros ip_ Hip Hgi. case_bool_decide as En; intros Hg.
  - subst n. rewrite bool_decide_false by done. rewrite not_elem_of_list_to_map_1 by done.
    unfold param_value at 1. rewrite lookup_insert_ne by (intros E; by apply (Hip _ _ Hgeo)).
    etrans; [apply (E1 (url_name URL_AREA_ID))|].
    destruct ((list_to_map ps : gmap bytes bytes) !! url_name URL_AREA_ID) as [k|] eqn:Ek; [|done]. exfalso.
    apply elem_of_list_to_map_2 in Ek. pose proof (Ha _ _ _ _ (Hin _ Ek) Hgeo eq_refl) as ->.
    apply Hg. apply list_elem_of_fmap. eexists. split; [|exact Ek]. done.
  - case_bool_decide as Hn; unfold param_value at 1; [subst; by rewrite lookup_insert_eq|].
    rewrite lookup_insert_ne by done. etrans; [apply (E1 n)|]. by destruct (_ !! n).
Qed.
End landing_names.

(** The page with its variables filled in. *)
Definition filled_in (value : bytes -> bytes) (segs : list (bytes * bytes)) (fin : bytes) : bytes :=
  flat_map (fun '(lit, n) => lit ++ c_str (value n)) segs ++ fin.

(** The first occurrence of a text, if there is one, replaced; and texts replaced one after the other. *)
Definition replaced_once (from to s s' : bytes) : Prop :=
  (exists a t, s = a ++ from ++ t /\ s' = a ++ to ++ t /\ forall a' t', s = a' ++ from ++ t' -> (length a <= length a')%nat)
  \/ (forall a t, s <> a ++ from ++ t) /\ s' = s.
Fixpoint replaced_in_turn (steps : list (bytes * bytes)) (s s' : bytes) : Prop :=
  match steps with
  | [] => s' = s
  | (from, to) :: steps => exists s1, replaced_once from to s s1 /\ replaced_in_turn steps s1 s'
  end.

Lemma replace_first_once s from to : replaced_once from to s (replace_first s from to).
Proof.
  unfold replace_first, find. cbn [Nat.leb]. rewrite drop_0. destruct (find_at from s 0) as [j|] eqn:E.
  - apply find_at_Some in E as (a & t & -> & -> & Hm). left. exists a, t. split; [done|]. split; [|done]. apply (replace_mid a from t to).
  - right. split; [|done]. intros a t. by apply (find_at_None _ _ 0).
Qed.

Lemma landing_replace_turn m u :
  replaced_in_turn
    [ (str "%7badvid%7d", param_value m (str "advid")); (str "%7Badvid%7D", param_value m (str "advid"));
      (str "%7bidfa%7d", param_value m (str "idfa")); (str "%7Bidfa%7D", param_value m (str "idfa"));
      (str "%7bsource_id%7d", param_value m (str "source_id")); (str "%7Bsource_id%7D", param_value m (str "source_id")) ]
    u (landing_replace m u).
Proof. unfold landing_replace. cbn [foldl replaced_in_turn]. do 6 (eexists; split; [apply replace_first_once|]). done. Qed.

Lemma filled_expand (value : bytes -> bytes) m segs fin :
  (forall n, param_value m n = value n) -> expand m segs fin = filled_in value segs fin.
Proof.
  intros Ev. unfold expand, filled_in. f_equal. induction segs as [|[lit n] segs IH]; [done|].
  cbn [flat_map]. rewrite IH. by rewrite <- Ev.
Qed.

(** C37: The landing page of a click.  A page in which every open brace is closed is expanded when it is
    shorter than the 1024 byte array it is copied to and its expansion is shorter than the 1024
    byte array it is built in: every variable is replaced by its value, the parameter of the click
    it stands for, the address of the user or nothing, the text between them is kept, and then the
    url encoded variables, in both cases of the digits, are replaced, each at its first occurrence.
    A page or an expansion of 1024 bytes and more writes past the end of an array. *)
Theorem landing_url_spec `{UrlNames} ip segs fin m :
  page_ok segs fin -> names_apart landing_names -> (forall n k, (n, k) ∈ landing_names -> k <> str "ip") ->
  let value n := landing_value ip m n in
  let text := filled_in value segs fin in
  ((length (page segs fin) < 1024)%nat /\ (length text < 1024)%nat ->
   exists u m', landing_url ip (page segs fin) m = Val (u, m')
     /\ replaced_in_turn
          [ (str "%7badvid%7d", value (str "advid")); (str "%7Badvid%7D", value (str "advid"));
            (str "%7bidfa%7d", value (str "idfa")); (str "%7Bidfa%7D", value (str "idfa"));
            (str "%7bsource_id%7d", value (str "source_id")); (str "%7Bsource_id%7D", value (str "source_id")) ] text u)
  /\ ((1024 <= length (page segs fin))%nat \/ (1024 <= length text)%nat -> landing_url ip (page segs fin) m = Undef).
Proof.
  intros Hp Ha Hip value text. pose proof (landing_url_spec_core ip segs fin m Hp) as Hc. cbn zeta in Hc.
  pose proof (fun n => landing_params_value ip m n Ha Hip) as Ev. fold value in Ev.
  rewrite (filled_expand value _ segs fin Ev) in Hc. fold text in Hc. fold LANDING_BUFFER. split.
  - intros [H1 H2]. specialize (Hc H1). destruct (Nat.ltb_spec (length text) LANDING_BUFFER); [|lia].
    destruct Hc as (m' & E & _). eexists _, m'. split; [exact E|].
    pose proof (landing_replace_turn (landing_params ip m) text) as Ht. rewrite !Ev in Ht. exact Ht.
  - intros Hl. destruct (Nat.le_gt_cases LANDING_BUFFER (length (page segs fin))) as [Hge|Hlt].
    + unfold landing_url. by destruct (Nat.ltb_spec (length (page segs fin)) LANDING_BUFFER); [lia|].
    + specialize (Hc Hlt). destruct (Nat.ltb_spec (length text) LANDING_BUFFER); [lia|done].
Qed.

(** *** The click *)

Lemma stoll_defined x : stoll x <> Undef.
Proof. unfold stoll, stol, sto. destruct (scan_int _) as [n ds]. destruct ds; [done|]. by destruct (_ && _). Qed.

Section click_properties.
Context `{UrlNames}.

(** What [recordSource] stores, and the parameters after it. *)
Definition source_stored (a : click_answers) (l : LogItem) (m : ParamMap) : bool :=
  negb (bool_decide (userId l = [])) && negb (bool_decide (default [] (m !! url_name URL_ADOWNER_ID) = []))
  && negb (bool_decide (generateSourceId a = [])).

Definition source_params (a : click_answers) (l : LogItem) (m : ParamMap) : ParamMap :=
  let m' := touch (url_name URL_ADOWNER_ID) m in
  if source_stored a l m then <[str "source_id" := generateSourceId a]> m' else m'.

Definition source_ops (a : click_answers) (l : LogItem) (m : ParamMap) : list db_op :=
  if source_stored a l m then
    DbPutSource (generateSourceId a) (source_params a l m) l
    :: (if put_source_ok a
        then [DbPutIndex (c_str (userId l ++ default [] (m !! url_name URL_ADOWNER_ID))) (generateSourceId a)] else [])
  else [].

Definition order_ops (m : ParamMap) : list db_op :=
  match stoll (default [] (m !! url_name URL_ORDER_ID)) with
  | Val o => [DbIncr (str "order-counter") (to_string o) (str "c")]
  | _ => []
  end.

Lemma at_key_run k s :
  at_key k s = RVal (default [] (params s !! k))
    (mkState (touch k (params s)) (log s) (resp s) (needLog s) (logs s) (trafficCalls s) (db s)).
Proof.
  unfold at_key. rewrite run_gets. unfold touch. destruct (params s !! k) eqn:E; [by destruct s|]. done.
Qed.

Lemma recordSource_run a s :
  recordSource a s = RVal tt (mkState (source_params a (log s) (params s)) (log s) (resp s) (needLog s) (logs s)
    (trafficCalls s) (db s ++ source_ops a (log s) (params s))).
Proof.
  unfold recordSource. rewrite run_gets, (run_bind _ _ _ _ _ (at_key_run _ _)).
  unfold source_ops, source_params, source_stored. destruct s as [m l r nl lg tc d]. cbn [params log resp needLog logs trafficCalls db].
  do 2 case_bool_decide; cbn [orb negb andb]; try (by rewrite app_nil_r).
  case_bool_decide; cbn [negb]; [by rewrite app_nil_r|].
  destruct (put_source_ok a); cbn [negb]; unfold mbind, M_bind, gets, put_params, add_db;
    cbn [params log resp needLog logs trafficCalls db]; rewrite <- ?app_assoc; done.
Qed.

Lemma count_order_run a s :
  count_order a s = RVal tt (mkState (touch (url_name URL_ORDER_ID) (params s)) (log s) (resp s) (needLog s) (logs s)
    (trafficCalls s) (db s ++ order_ops (params s))).
Proof.
  unfold count_order, catch_std. rewrite (run_bind _ _ _ _ _ (at_key_run _ _)). unfold order_ops.
  destruct (stoll (default [] (params s !! url_name URL_ORDER_ID))) as [o|e|] eqn:E; [done| |by apply stoll_defined in E].
  unfold mbind at 1, M_bind at 1, lift at 1.
  assert (is_std_exception e = true) as ->.
  { unfold stoll, stol, sto in E. destruct (scan_int _) as [n ds]. destruct ds; [by injection E as <-|].
    destruct (_ && _); [done|by injection E as <-]. }
  by rewrite app_nil_r.
Qed.
End click_properties.

(** The branch of a click with a landing page. *)
Lemma redirect_run `{UrlNames} ip a s u m' :
  landing_url ip (landingUrl (adInfo (log s))) (source_params a (log s) (params s)) = Val (u, m') ->
  (recordSource a;; handleLandingUrl ip;;
   l ← gets log;
   mod_resp (status 302 (str "OK"));;
   mod_resp (set_header (str "Location") (landingUrl (adInfo l)));;
   mod_resp (set_body (str "m"));;
   count_order a) s
  = RVal tt (mkState (touch (url_name URL_ORDER_ID) m') (set_ad (set_landing u (adInfo (log s))) (log s))
      (set_body (str "m") (set_header (str "Location") u (status 302 (str "OK") (resp s)))) (needLog s) (logs s)
      (trafficCalls s) (db s ++ source_ops a (log s) (params s) ++ order_ops m')).
Proof.
  intros E. rewrite (run_bind _ _ _ _ _ (recordSource_run _ _)). erewrite run_bind.
  2:{ unfold handleLandingUrl. rewrite !run_gets. cbn [log params]. rewrite (run_lift _ _ _ _ E). reflexivity. }
  rewrite run_gets, !run_mod, count_order_run.
  cbn [params log resp needLog logs trafficCalls db adInfo set_ad landingUrl set_landing]. by rewrite <- app_assoc.
Qed.

(** C22: Every click with a landing page is redirected to it, whatever the database answers: the
    response is a 302 to the expanded page, the source record is sent to the database when the
    click has a user and an advertiser and the counter gave an id, and its index after it if
    that was stored, and the order of the click is counted once if its id is a number. *)
Theorem click_redirects `{UrlNames} ip a (area : bytes -> outcome bytes) s segs fin code :
  let m1 := landing_params ip (source_params a (log s) (params s)) in
  let text := expand m1 segs fin in
  landingUrl (adInfo (log s)) = page segs fin -> page segs fin <> [] -> page_ok segs fin ->
  (length (page segs fin) < LANDING_BUFFER)%nat -> (length text < LANDING_BUFFER)%nat ->
  area (c_str ip) = Val code ->
  exists s', click_customLogic ip a area s = RVal tt s'
    /\ respStatus (resp s') = 302 /\ get_header (str "Location") (resp s') = landing_replace m1 text
    /\ db s' = db s ++ source_ops a (log s) (params s) ++ order_ops m1.
Proof.
  intros m1 text Hland Hne Hok Hl Ht Harea. unfold click_customLogic. rewrite run_gets, Hland.
  rewrite bool_decide_eq_false_2 by done. cbn [negb].
  pose proof (landing_url_spec_core ip segs fin (source_params a (log s) (params s)) Hok Hl) as E.
  cbn zeta in E. fold m1 text in E. destruct (Nat.ltb_spec (length text) LANDING_BUFFER); [|lia].
  destruct E as (m' & E & Hm'). rewrite <- Hland in E.
  erewrite run_bind by (by apply redirect_run). cbv beta.
  rewrite (run_lift _ _ _ _ Harea), (run_bind _ _ _ _ _ (at_key_run _ _)). eexists. split; [reflexivity|].
  cbn [resp db]. split; [by rewrite status_body|]. split.
  - by rewrite get_header_body, get_set_header.
  - do 2 f_equal. unfold order_ops. by rewrite (Hm' (url_name URL_ORDER_ID)).
Qed.

(** Of bins with different names a record keeps as many as it has room for. *)
Lemma fill_record (cap : nat) (bs : list (bytes * as_val)) (r : as_record) :
  NoDup bs.*1 -> Forall (fun b => r !! b.1 = None) bs -> (size r <= cap)%nat ->
  foldl (as_record_set cap) r bs = list_to_map (take (cap - size r) bs) ∪ r.
Proof.
  revert r. induction bs as [|[n v] bs IH]; intros r Hnd Hr Hs.
  - rewrite take_nil. cbn [foldl]. by rewrite list_to_map_nil, map_empty_union.
  - apply NoDup_cons in Hnd as [Hn Hnd]. apply Forall_cons in Hr as [Hn0 Hr]. cbn [foldl fst] in *. unfold as_record_set at 2.
    cbn [fst snd]. rewrite Hn0, bool_decide_eq_false_2 by by intros [? ?]. cbn [orb].
    destruct (Nat.ltb_spec (size r) cap) as [Hlt|Hge].
    + rewrite IH; [|done| |rewrite map_size_insert_None by done; lia].
      * rewrite map_size_insert_None by done. replace (cap - size r)%nat with (S (cap - S (size r))) by lia.
        cbn [take]. rewrite list_to_map_cons, <- insert_union_l, insert_union_r; [done|].
        apply not_elem_of_list_to_map_1. intros Hin. apply Hn. apply list_elem_of_fmap in Hin as ([n' v'] & -> & Hin).
        apply list_elem_of_fmap. exists (n', v'). split; [done|]. apply elem_of_take in Hin as (i & Hi & _).
        by eapply list_elem_of_lookup_2.
      * rewrite Forall_forall in Hr |- *. intros b Hb. rewrite lookup_insert_ne; [by apply Hr|]. intros ->. apply Hn.
        apply list_elem_of_fmap. by exists b.
    + rewrite IH by done. replace (cap - size r)%nat with 0%nat by lia. done.
Qed.

Lemma source_names_NoDup `{UrlNames} m l : NoDup (source_bins m l).*1.
Proof. unfold source_bins. cbn [fmap list_fmap fst]. by_decide. Qed.

Lemma source_record_eq `{UrlNames} m l : source_record m l = list_to_map (take SOURCE_BINS (source_bins m l)).
Proof.
  unfold source_record. rewrite fill_record; [|apply source_names_NoDup| |rewrite map_size_empty; lia].
  - by rewrite map_size_empty, (right_id_L ∅ (∪)).
  - apply Forall_forall. intros b _. apply lookup_empty.
Qed.

(** The record of a click has one bin more than it asks room for; the last, which is the
    impression id, is not stored. *)
Lemma source_record_overfull `{UrlNames} m l :
  length (source_bins m l) = S SOURCE_BINS /\ last (source_bins m l).*1 = Some (str "impid")
  /\ source_record m l !! str "impid" = None.
Proof.
  split_and!; [done|done|]. rewrite source_record_eq. apply not_elem_of_list_to_map_1.
  unfold source_bins, SOURCE_BINS. cbn [take fmap list_fmap fst]. by_decide.
Qed.

Lemma source_record_lookup `{UrlNames} m l n v :
  (n, v) ∈ take SOURCE_BINS (source_bins m l) -> source_record m l !! n = Some v.
Proof.
  intros Hin. rewrite source_record_eq. apply elem_of_list_to_map_1; [|done].
  unfold source_bins, SOURCE_BINS. cbn [take fmap list_fmap fst]. by_decide.
Qed.

(** ** Instances *)

Import UrlHelper.Concrete.

Definition landing_segs : list (bytes * bytes) := [(str "http://a.com/?u=", str "idfa"); (str "&s=", str "source_id")].
Definition click_params : ParamMap :=
  {[url_name URL_DEVICE_IDFA := str "F1"; url_name URL_ADOWNER_ID := str "12"; url_name URL_ORDER_ID := str "77"]}.

Lemma landing_segs_ok : page_ok landing_segs (str "&x=1").
Proof. split; [repeat constructor; by_decide|by_decide]. Qed.

Lemma concrete_names_apart : names_apart landing_names.
Proof.
  intros n k n' k' H1 H2 ->. revert n k n' H1 H2.
  assert (Forall (fun p => Forall (fun q => q.2 = p.1 -> q.1 = p.1) landing_names) landing_names) as Hall by by_decide.
  intros n k n' H1 H2. rewrite Forall_forall in Hall. specialize (Hall _ H1). rewrite Forall_forall in Hall. by apply (Hall _ H2).
Qed.
Lemma concrete_names_not_ip n k : (n, k) ∈ landing_names -> k <> str "ip".
Proof.
  assert (Forall (fun p => p.2 <> str "ip") landing_names) as Hall by by_decide.
  intros Hin. rewrite Forall_forall in Hall. by apply (Hall _ Hin).
Qed.

Lemma landing_url_spec_witness :
  (exists u m', landing_url (str "1.2.3.4") (page landing_segs (str "&x=1")) click_params = Val (u, m'))
  /\ landing_url (str "1.2.3.4") (page [] (replicate 2000 (ch "a"))) click_params = Undef.
Proof.
  split.
  - destruct (landing_url_spec (str "1.2.3.4") landing_segs (str "&x=1") click_params landing_segs_ok concrete_names_apart
      concrete_names_not_ip) as [Hv _].
    destruct Hv as (u & m' & E & _); [split; apply Nat.ltb_lt; by vm_compute|]. by exists u, m'.
  - apply (landing_url_spec (str "1.2.3.4") [] (replicate 2000 (ch "a")) click_params);
      [split; [constructor|apply Forall_replicate; by_decide]|exact concrete_names_apart|exact concrete_names_not_ip|].
    left. apply Nat.leb_le. by vm_compute.
Defined.

Definition click_log : LogItem :=
  mkLog 5 CLICK 302 1 [] [] (str "user") [] (mkGeo 0 0 0) (set_landing (page landing_segs (str "&x=1")) ad0) 0 0 [] 0 trace0 flow0.
Definition click_state : task_state :=
  mkState click_params click_log (mkResponse 302 [] ∅ [] [] false) true log_state0 [] [].
Definition answers : click_answers := mkAnswers (Some 255) true.

Lemma click_redirects_witness :
  exists s', click_customLogic (str "1.2.3.4") answers (fun _ => Val (str "0086-0-0")) click_state = RVal tt s'
    /\ respStatus (resp s') = 302
    /\ get_header (str "Location") (resp s') = str "http://a.com/?u=F1&s=0000000000ff&x=1".
Proof.
  destruct (click_redirects (str "1.2.3.4") answers (fun _ => Val (str "0086-0-0")) click_state landing_segs (str "&x=1")
    (str "0086-0-0")) as (s' & E & Hs & Hl & _);
    [reflexivity|discriminate|exact landing_segs_ok|apply Nat.ltb_lt; by vm_compute|apply Nat.ltb_lt; by vm_compute|reflexivity|].
  exists s'. split; [exact E|]. split; [exact Hs|]. rewrite Hl. by_decide.
Defined.
