(* ===== verification/CookieMapping.v ===== *)
(** * CookieMapping: the ids of users across exchanges and devices (core/core_cm_manager.cpp,
    core/core_cm_manager.h, core/model/user.cpp, core/model/idseq.cpp,
    core/logic/mapping_query_task.cpp and the mapping of protocol/base/abstract_bidding_handler.cpp)

    A record of the database maps an outer id, the cookie id of an exchange or a device id, to a
    user.  A bid looks its outer ids up, and afterwards creates, repairs or refreshes the records;
    the mapping module creates the record of a browser.

    The database is the interface [RecordStore] with its laws.  Asynchronous requests wait in a
    list until they are delivered; a request that is lost is delivered without effect. *)
From S2P Require Import Prelude CString UrlCodec UrlParams Cypher UrlHelper Double Pricing Http LogPusher QueryTask.

Abbreviation bins := (gmap bytes bytes).

(** ** Interfaces *)

(** Aerospike: [write] sets the given bins of a record and keeps the others, [refresh] only
    changes the time to live; [getStr] of mtty's [ASEntity] reads a bin of a record. *)
Class RecordStore := {
  store : Type;
  contents : store -> bytes -> bytes -> option bins;
  write : store -> bytes -> bytes -> Z -> bins -> store;
  refresh : store -> bytes -> bytes -> Z -> store;
  getStr : bins -> bytes -> bytes;
}.

Class RecordStoreLaws (R : RecordStore) : Prop := {
  contents_write d s k t b : contents (write d s k t b) s k = Some (b ∪ default ∅ (contents d s k));
  contents_write_ne d s k t b s' k' : (s, k) <> (s', k') -> contents (write d s k t b) s' k' = contents d s' k';
  contents_refresh d s k t s' k' : contents (refresh d s k t) s' k' = contents d s' k';
  getStr_present b n v : b !! n = Some v -> getStr b n = v;
  getStr_absent b n : b !! n = None -> getStr b n = [];
}.

(** How a read ends: with an answer, after the time limit, or with another error. *)
Inductive read_answer : Set := Answered | TimedOut | Failed.

(** [DAY_SECOND] of mtty/constants.h. *)
Class CmConst := { DAY_SECOND : Z }.

(** The order in which the devices of an [std::unordered_map] are visited. *)
Class DeviceOrder := { devices : gmap bytes (bytes * bytes) -> list (bytes * (bytes * bytes)) }.
Class DeviceOrderLaws (O : DeviceOrder) : Prop := { devices_perm m : devices m ≡ₚ map_to_list m }.

(** ** Mappings (core/model/user.cpp) *)

Definition MAPPING_KEY_IDFA : bytes := str "idfa".
Definition MAPPING_KEY_IMEI : bytes := str "imei".
Definition MAPPING_KEY_MAC : bytes := str "mac".
Definition MAPPING_KEY_ANDROIDID : bytes := str "androidId".
Definition MAPPING_KEY_USER : bytes := str "user_id".
Definition MAPPING_OUTER_ORIGINID : bytes := str "origin_id".

Definition adxUidKey (adxId : Z) : bytes := str "adxuid_" ++ to_string adxId.

Record MtUserMapping := mkMapping {
  um_userId : bytes; outerUserKey : bytes; outerUserId : bytes; outerUserOriginId : bytes;
  cypherUserId : bytes; needDeviceOriginId : bool; um_ttl : Z;
}.

(** [as_record_set_str] on a record with room for [cap] bins. *)
Definition set_bin (cap : nat) (name value : bytes) (b : bins) : bins :=
  if bool_decide (is_Some (b !! name)) || (size b <? cap)%nat then <[name := c_str value]> b else b.

Section mapping.
Context `{RecordStore, CmConst, UserIds}.

(** The default member values, which are also those of [reset]. *)
Definition mapping0 : MtUserMapping := mkMapping [] [] [] [] [] false (DAY_SECOND * 30).
Definition um_isValid (m : MtUserMapping) : bool := negb (bool_decide (um_userId m = [])).
Definition um_reset (m : MtUserMapping) : MtUserMapping := mapping0.

(** The text, and the object with the text it caches. *)
Definition cypherUid (m : MtUserMapping) : bytes * MtUserMapping :=
  if bool_decide (cypherUserId m = []) then
    let uId := uid_of_text (um_userId m) in
    let m := if isValid uId
             then mkMapping (um_userId m) (outerUserKey m) (outerUserId m) (outerUserOriginId m) (uid_cipher uId)
                    (needDeviceOriginId m) (um_ttl m)
             else m in
    (cypherUserId m, m)
  else (cypherUserId m, m).

(** [record], which fills the object from a stored record. *)
Definition um_read (r : bins) (m : MtUserMapping) : MtUserMapping :=
  mkMapping (getStr r MAPPING_KEY_USER) (outerUserKey m) (getStr r (outerUserKey m))
    (if needDeviceOriginId m then getStr r MAPPING_OUTER_ORIGINID else outerUserOriginId m)
    (cypherUserId m) (needDeviceOriginId m) (um_ttl m).

(** [record], which builds the record to store, of an object that has no record yet. *)
Definition um_record (m : MtUserMapping) : bins :=
  let cap := if needDeviceOriginId m then 3%nat else 2%nat in
  let set n v b := if bool_decide (v = []) then b else set_bin cap n v b in
  set MAPPING_OUTER_ORIGINID (outerUserOriginId m)
    (set (outerUserKey m) (outerUserId m) (set MAPPING_KEY_USER (um_userId m) ∅)).

(** [QueryWhereCallback] for one row; the entity has no outer key. *)
Definition QueryWhereCallback (row : option bins) (udata : list MtUserMapping) : list MtUserMapping :=
  match row with
  | Some r => udata ++ [um_read r (mkMapping [] [] [] [] [] true (DAY_SECOND * 30))]
  | None => udata
  end.

(** ** Sequence ids (core/model/idseq.cpp) *)

(** [id_ = id > 0 ? id : -id], an [int16_t]. *)
Definition setId (id : Z) : Z := swrap 16 (if 0 <? id then id else - id).

(** ** The manager (core/core_cm_manager.cpp) *)

Inductive as_request : Type :=
| PutReq (set key : bytes) (ttl : Z) (b : bins)
| TouchReq (set key : bytes) (ttl : Z) (userId originId : bytes).

(** The mapping, and whether the read timed out; a record that is not there is an exception too. *)
Definition getUserMappingByKey (d : store) (k v : bytes) (isDevice : bool) (a : read_answer) : MtUserMapping * bool :=
  let mapping := mkMapping [] k [] [] [] isDevice (DAY_SECOND * 30) in
  match a with
  | TimedOut => (mapping, true)
  | Failed => (mapping, false)
  | Answered => (match contents d k (c_str v) with Some r => um_read r mapping | None => mapping end, false)
  end.

(** [rows] are those the query found before it ended. *)
Definition getUserDeviceMappingByBin (rows : list (option bins)) : MtUserMapping :=
  match foldl (fun u r => QueryWhereCallback r u) [] rows with m :: _ => m | [] => mapping0 end.

(** The body the two functions for exchange ids share. *)
Definition adxuid_mapping (userId : bytes) (adxId : Z) (value : bytes) (ttl : Z) : MtUserMapping :=
  mkMapping userId (adxUidKey adxId) value [] [] false ttl.

Definition updateMappingAdxUid (ok : bool) (userId : bytes) (adxId : Z) (value : bytes) (ttl : Z) : M bool :=
  let m := adxuid_mapping userId adxId value ttl in
  add_db (DbPut (outerUserKey m) value ttl (um_record m));; mret ok.

Definition updateMappingAdxUidAsync (userId : bytes) (adxId : Z) (value : bytes) (ttl : Z) : as_request :=
  let m := adxuid_mapping userId adxId value ttl in PutReq (outerUserKey m) value ttl (um_record m).

Definition updateMappingDeviceAsync (userId deviceIdType value originDeviceValue : bytes) (ttl : Z) : as_request :=
  let m := if bool_decide (originDeviceValue = [])
           then mkMapping userId deviceIdType value [] [] false ttl
           else mkMapping userId deviceIdType value originDeviceValue [] true ttl in
  PutReq deviceIdType value ttl (um_record m).

(** [randomInt] and the clock are arguments. *)
Definition newIdSeq (uniqueIdSeq rand now : Z) : Z * Z :=
  (setId (swrap 16 (Z.land (if uniqueIdSeq =? 0 then rand else uniqueIdSeq) 0xFFFF)), now).

Definition touchMapping (k value userId originId : bytes) (ttl : Z) : as_request := TouchReq k value ttl userId originId.

(** What [touchMappingAsyncCallback] asks for when the record was not there. *)
Definition touchMappingAsyncCallback (k value userId originId : bytes) : as_request :=
  updateMappingDeviceAsync userId k value originId (DAY_SECOND * 30).

(** *** Delivery *)

Record cm_state := mkCm { records : store; pending : list as_request }.

Definition deliver (done : bool) (s : cm_state) : cm_state :=
  match pending s with
  | [] => s
  | PutReq st k t b :: q => mkCm (if done then write (records s) st k t b else records s) q
  | TouchReq st k t u o :: q =>
    if negb done then mkCm (records s) q
    else match contents (records s) st k with
         | Some _ => mkCm (refresh (records s) st k t) q
         | None => mkCm (records s) (q ++ [touchMappingAsyncCallback st k u o])
         end
  end.

Fixpoint drain (n : nat) (s : cm_state) : cm_state :=
  match n with O => s | S n => drain n (deliver true s) end.
End mapping.

(** ** The ids of a bid (core/core_cm_manager.h) *)

Record CookieMappingQueryKeyValue := mkKV {
  kv_key : bytes; kv_value : bytes; deviceMappings : gmap bytes (bytes * bytes); isAdxCookie : bool;
}.

Definition rebind (k v : bytes) (adxCookie : bool) (q : CookieMappingQueryKeyValue) : CookieMappingQueryKeyValue :=
  mkKV k v (deviceMappings q) adxCookie.
Definition clearDeviceMapping (q : CookieMappingQueryKeyValue) : CookieMappingQueryKeyValue :=
  mkKV [] [] ∅ (isAdxCookie q).
(** [insert] keeps an entry that is already there. *)
Definition rebindDevice (k v v2 : bytes) (q : CookieMappingQueryKeyValue) : CookieMappingQueryKeyValue :=
  if negb (bool_decide (k = [])) && negb (bool_decide (v = [])) then
    let fresh := bool_decide (kv_key q = []) || bool_decide (kv_value q = []) in
    mkKV (if fresh then k else kv_key q) (if fresh then v else kv_value q)
      (match deviceMappings q !! k with Some _ => deviceMappings q | None => <[k := (v, v2)]> (deviceMappings q) end) false
  else mkKV (kv_key q) (kv_value q) (deviceMappings q) false.
Definition kv_isNull (q : CookieMappingQueryKeyValue) : bool := bool_decide (kv_key q = []) || bool_decide (kv_value q = []).

(** ** The mapping of a bid (protocol/base/abstract_bidding_handler.cpp) *)

Definition excludeIDFAs : list bytes :=
  [str "9F89C84A559F573636A47FF8DAED0D33"; str "00000000-0000-0000-0000-000000000000"].
Definition excludeIMEIs : list bytes :=
  [str "5284047F4FFB4E04824A2FD1D1F0CD62"; str "000000000000000"; str "21371D265B5711B289344B479F583909";
   str "012345678912345"; str "0"; str "111111111111111"].
Definition excludeMACs : list bytes :=
  [str "02:00:00:00:00:00"; str "0F607264FC6318A92B9E13C65DB7CD3C"; str "00:00:00:00:00:00";
   str "528C8E6CD4A3C6598999A0E9DF15AD32"].
Definition excludeAndroidIds : list bytes := [str "9774d56d682e549c"].

Definition filterIDFA (x : bytes) : bool := bool_decide (x ∈ excludeIDFAs).
Definition filterIMEI (x : bytes) : bool := bool_decide (x ∈ excludeIMEIs).
Definition filterMAC (x : bytes) : bool := bool_decide (x ∈ excludeMACs).
Definition filterAndroidID (x : bytes) : bool := bool_decide (x ∈ excludeAndroidIds).

Record BidCookieMappingInfo := mkInfo {
  queryKV : CookieMappingQueryKeyValue; userMapping : MtUserMapping;
  needReMapping : bool; needTouchMapping : bool; needFixMapping : bool;
}.

Definition with_kv (q : CookieMappingQueryKeyValue) (c : BidCookieMappingInfo) : BidCookieMappingInfo :=
  mkInfo q (userMapping c) (needReMapping c) (needTouchMapping c) (needFixMapping c).

(** The device ids of a request: as it sends them, in [AdSelectCondition], and as they are looked up. *)
Record device_ids := mkIds { idfa : bytes; imei : bytes; androidId : bytes; mac : bytes }.

Definition mobile_kv (ids raw : device_ids) (appAdxId : Z) (appUserId : bytes) (q : CookieMappingQueryKeyValue)
    : CookieMappingQueryKeyValue :=
  rebindDevice (adxUidKey appAdxId) appUserId []
    (rebindDevice MAPPING_KEY_MAC (if filterMAC (mac raw) then [] else mac ids) (mac raw)
    (rebindDevice MAPPING_KEY_ANDROIDID (if filterAndroidID (androidId raw) then [] else androidId ids) (androidId raw)
    (rebindDevice MAPPING_KEY_IMEI (if filterIMEI (imei raw) then [] else imei ids) (imei raw)
    (rebindDevice MAPPING_KEY_IDFA (if filterIDFA (idfa raw) then [] else idfa ids) (idfa raw)
    (clearDeviceMapping q))))).

Definition cookieMappingKeyMobile (ids raw : device_ids) (appAdxId : Z) (appUserId : bytes) (c : BidCookieMappingInfo)
    : BidCookieMappingInfo := with_kv (mobile_kv ids raw appAdxId appUserId (queryKV c)) c.

Definition cookieMappingKeyPC (adxId : Z) (cookie : bytes) (c : BidCookieMappingInfo) : BidCookieMappingInfo :=
  with_kv (rebind (adxUidKey adxId) cookie true (queryKV c)) c.

Section bid.
Context `{RecordStore, CmConst, UserIds, DeviceOrder}.

(** [mtUserId] is the user of the select condition; every caller passes [cmInfo.queryKV]. *)
Definition queryCookieMapping (disabledCookieMapping : bool) (d : store) (a : read_answer) (mtUserId : bytes)
    (c : BidCookieMappingInfo) : BidCookieMappingInfo * bytes :=
  let q := queryKV c in
  if disabledCookieMapping then (mkInfo q (userMapping c) false false false, mtUserId)
  else if negb (kv_isNull q) then
    let '(m, isGetTimeout) := getUserMappingByKey d (kv_key q) (kv_value q) (negb (isAdxCookie q)) a in
    if um_isValid m then
      let fix_ := negb (isAdxCookie q) && bool_decide (outerUserOriginId m = []) in
      (mkInfo q m false (negb fix_) fix_, um_userId m)
    else (mkInfo q m (negb isGetTimeout) false false, mtUserId)
  else (mkInfo q (um_reset (userMapping c)) (isAdxCookie q) false false, mtUserId).

(** The time to live of the record of an outer id. *)
Definition isAdxKey (k : bytes) : bool := contains k (str "adx").
Definition device_ttl (k : bytes) : Z := if isAdxKey k then DAY_SECOND * 30 else DAY_SECOND * 900.

Definition remap_requests (userId : bytes) (q : CookieMappingQueryKeyValue) : list as_request :=
  map (fun '(k, (v, o)) => updateMappingDeviceAsync userId k v o (device_ttl k)) (devices (deviceMappings q)).
Definition touch_requests (userId : bytes) (q : CookieMappingQueryKeyValue) : list as_request :=
  map (fun '(k, (v, o)) => touchMapping k v userId (if isAdxKey k then [] else o) (device_ttl k)) (devices (deviceMappings q)).

(** The id of a new user. *)
Definition new_user (uniqueIdSeq rand now : Z) : UserID :=
  uid_new (swrap 16 (Z.land (if uniqueIdSeq =? 0 then rand else uniqueIdSeq) 0x7FFF)) now.

(** The text for the image tag, the handler and the asynchronous requests.  The early return of
    a browser keeps the flag. *)
Definition redoCookieMapping (uniqueIdSeq rand now adxId : Z) (adxCookieMappingUrl : bytes) (c : BidCookieMappingInfo)
    : bytes * BidCookieMappingInfo * list as_request :=
  let q := queryKV c in
  let m := userMapping c in
  if needReMapping c then
    let userId := new_user uniqueIdSeq rand now in
    let m := mkMapping (uid_text userId) (outerUserKey m) (outerUserId m) (outerUserOriginId m) (uid_cipher userId)
               (needDeviceOriginId m) (um_ttl m) in
    if isAdxCookie q then
      if negb (bool_decide (adxCookieMappingUrl = []))
      then (adxCookieMappingUrl ++ str "&u=" ++ uid_cipher userId ++ str "&x=" ++ to_string adxId,
            mkInfo q m true (needTouchMapping c) (needFixMapping c), [])
      else ([], mkInfo q m false (needTouchMapping c) (needFixMapping c), [])
    else ([], mkInfo q m false (needTouchMapping c) (needFixMapping c), remap_requests (um_userId m) q)
  else if needTouchMapping c then
    ([], c, if isAdxCookie q then [touchMapping (kv_key q) (kv_value q) (um_userId m) [] (DAY_SECOND * 30)]
            else touch_requests (um_userId m) q)
  else if needFixMapping c then ([], c, remap_requests (um_userId m) q)
  else ([], c, []).
End bid.

(** ** The mapping module (core/logic/mapping_query_task.cpp) *)

Section module.
Context `{AdxConst, CmConst}.

Definition getAdxMappingKey (adxId : Z) : bytes :=
  if adx_is adxId [ADX_TANX; ADX_TANX_MOBILE] then str "tanx_tid"
  else if adx_is adxId [ADX_YOUKU; ADX_YOUKU_MOBILE] then str "mzid"
  else if adx_is adxId [ADX_SOHU_PC; ADX_SOHU_MOBILE] then str "suid"
  else if adx_is adxId [ADX_360_MAX_PC; ADX_360_MAX_MOBILE] then str "mvuid"
  else if adx_is adxId [ADX_BAIDU; ADX_BAIDU_MOBILE] then str "baidu_user_id"
  else [].

Definition checkAdxId (userAgent : bytes) (adxId : Z) : Z :=
  if contains userAgent (str "Mobile") then
    if adx_is adxId [ADX_TANX] then adx_id ADX_TANX_MOBILE
    else if adx_is adxId [ADX_YOUKU] then adx_id ADX_YOUKU_MOBILE
    else if adx_is adxId [ADX_SOHU_PC] then adx_id ADX_SOHU_MOBILE
    else if adx_is adxId [ADX_360_MAX_PC] then adx_id ADX_360_MAX_MOBILE
    else adxId
  else adxId.

Definition isAdxUidValid (adxId : Z) (uid : bytes) : bool :=
  negb (adx_is adxId [ADX_360_MAX_PC; ADX_360_MAX_MOBILE] && bool_decide (uid = str "E0")).

Definition P3P : bytes := str "CP=" ++ [34] ++ str "CURa ADMa DEVa PSAo PSDo OUR BUS UNI PUR INT DEM STA PRE COM NAV OTC NOI DSP COR" ++ [34].

(** The redirection to the pixel. *)
Definition answer_pixel : M unit :=
  put_needLog false;;
  mod_resp (status 302 (str "OK"));;
  mod_resp (set_header (str "Location") (str "http://mtty-cdn.mtty.com/1x1.gif"));;
  mod_resp (set_body (str "m"));;
  mod_resp (set_header (str "Pragma") (str "no-cache"));;
  mod_resp (set_header (str "Cache-Control") (str "no-cache,no-store;must-revalidate"));;
  mod_resp (set_header (str "P3p") P3P).

(** [put_ok] is the answer of the database. *)
Definition mapping_customLogic (userAgent : bytes) (put_ok : bool) : M unit :=
  catch_std
    (l ← gets log;
     m ← gets params;
     let adxId := checkAdxId userAgent (adxid (adInfo l)) in
     let adxUid := default [] (m !! getAdxMappingKey adxId) in
     (if negb (bool_decide (adxUid = [])) && isAdxUidValid adxId adxUid then
        decodeAdxUid ← lift (urlDecode_f adxUid 1024);
        updateMappingAdxUid put_ok (userId l) adxId decodeAdxUid (DAY_SECOND * 30);; mret tt
      else mret tt);;
     answer_pixel)
    (fun _ => l ← gets log; put_log (set_reqStatus 500 l)).

(** [HandleMappingQueryTask] *)
Definition mapping_ops `{TaskConst} (userAgent : bytes) (put_ok : bool) : TaskOps :=
  mkOps MAPPING 200 filterParamMapSafe (mret tt) (mapping_customLogic userAgent put_ok).
End module.

(** ** Properties *)

(** *** Records *)

(** The sets of outer ids are named after no bin of their own. *)
Definition outer_key (k : bytes) : Prop := k <> MAPPING_KEY_USER /\ k <> MAPPING_OUTER_ORIGINID.

Lemma set_bin_room cap n v b : (size b < cap)%nat -> set_bin cap n v b = <[n := c_str v]> b.
Proof. intros Hs. unfold set_bin. apply Nat.ltb_lt in Hs as ->. by rewrite orb_true_r. Qed.

Lemma set_bin_lookup_ne cap n v b n' : n <> n' -> set_bin cap n v b !! n' = b !! n'.
Proof. intros Hn. unfold set_bin. destruct (_ || _); [|done]. by rewrite lookup_insert_ne. Qed.

Lemma bins_lookup u k v (o : option bytes) cap t :
  outer_key k -> u <> [] -> cap = (match o with Some _ => 3 | None => 2 end)%nat ->
  let b := um_record (mkMapping u k v (default [] o) [] (bool_decide (cap = 3%nat)) t) in
  b !! MAPPING_KEY_USER = Some (c_str u) /\ (v <> [] -> b !! k = Some (c_str v))
  /\ (default [] o <> [] -> b !! MAPPING_OUTER_ORIGINID = Some (c_str (default [] o))).
Proof.
  intros [Hku Hko] Hu Hcap b. unfold b, um_record.
  cbn [um_userId outerUserKey outerUserId outerUserOriginId needDeviceOriginId].
  replace (if bool_decide (cap = 3%nat) then 3%nat else 2%nat) with cap by (subst cap; by destruct o).
  rewrite (bool_decide_eq_false_2 (u = [])) by done.
  assert (2 <= cap)%nat as Hc by (subst cap; destruct o; lia).
  rewrite (set_bin_room cap MAPPING_KEY_USER u ∅) by (rewrite map_size_empty; lia).
  assert (exists b1 : bins, <[MAPPING_KEY_USER := c_str u]> (∅ : bins) = b1 /\ b1 !! MAPPING_KEY_USER = Some (c_str u)
    /\ size b1 = 1%nat /\ b1 !! k = None) as (b1 & -> & L1 & S1 & N1).
  { eexists. split; [reflexivity|]. split; [apply lookup_insert_eq|].
    rewrite map_size_insert_None, map_size_empty by apply lookup_empty. split; [reflexivity|].
    rewrite lookup_insert_ne by congruence. apply lookup_empty. }
  assert (exists b2 : bins, (if bool_decide (v = []) then b1 else set_bin cap k v b1) = b2
    /\ b2 !! MAPPING_KEY_USER = Some (c_str u) /\ (size b2 <= 2)%nat /\ (v <> [] -> b2 !! k = Some (c_str v)))
    as (b2 & -> & L2 & S2 & V2).
  { eexists. split; [reflexivity|]. case_bool_decide; [split; [exact L1|]; split; [lia|congruence]|].
    rewrite set_bin_room by lia. rewrite lookup_insert_ne, lookup_insert_eq by congruence. split; [exact L1|].
    split; [|reflexivity]. rewrite map_size_insert_None by exact N1. lia. }
  destruct (decide (default [] o = [])) as [Ho|Ho].
  - rewrite Ho, bool_decide_eq_true_2 by reflexivity. split; [exact L2|]. split; [exact V2|]. intros F. by destruct F.
  - rewrite bool_decide_eq_false_2 by exact Ho. destruct o as [o|]; [|by destruct Ho]. cbn [default] in *.
    rewrite set_bin_room by lia. rewrite !lookup_insert_ne by (congruence || by_decide).
    split; [exact L2|]. split; [exact V2|]. intros _. apply lookup_insert_eq.
Qed.

Lemma device_bins `{CmConst} u k v o t :
  outer_key k -> u <> [] ->
  exists b, updateMappingDeviceAsync u k v o t = PutReq k v t b
    /\ b !! MAPPING_KEY_USER = Some (c_str u) /\ (v <> [] -> b !! k = Some (c_str v))
    /\ (o <> [] -> b !! MAPPING_OUTER_ORIGINID = Some (c_str o)).
Proof.
  intros Hk Hu. unfold updateMappingDeviceAsync. eexists. split; [done|]. case_bool_decide as Ho.
  - destruct (bins_lookup u k v None 2 t Hk Hu eq_refl) as (A & B & _). by split_and!.
  - exact (bins_lookup u k v (Some o) 3 t Hk Hu eq_refl).
Qed.

(** *** Delivery ends *)

Definition request_weight (r : as_request) : nat := match r with PutReq _ _ _ _ => 1 | TouchReq _ _ _ _ _ => 2 end.
Definition request_load (q : list as_request) : nat := sum_list_with request_weight q.

Section delivery.
Context `{RecordStoreLaws} `{CmConst}.

Lemma deliver_load ok (s : cm_state) : (request_load (pending (deliver ok s)) <= request_load (pending s) - 1)%nat.
Proof.
  destruct s as [d [|[st k t b|st k t u o] q]]; unfold deliver; cbn [pending records negb]; [cbn; lia|..]; unfold request_load; cbn [sum_list_with request_weight].
  - cbn [pending]. lia.
  - destruct ok; cbn [negb]; [|cbn [pending]; lia]. destruct (contents d st k); cbn [pending]; [lia|].
    rewrite sum_list_with_app. unfold touchMappingAsyncCallback, updateMappingDeviceAsync. cbn [sum_list_with request_weight]. lia.
Qed.

Lemma request_load_nil q : request_load q = 0%nat -> q = [].
Proof. destruct q as [|[] q]; unfold request_load; cbn; [done|lia|lia]. Qed.

Lemma request_load_length q : (request_load q <= 2 * length q)%nat.
Proof. induction q as [|[] q IH]; unfold request_load in *; cbn; lia. Qed.

Lemma drain_ends n (s : cm_state) : (request_load (pending s) <= n)%nat -> pending (drain n s) = [].
Proof.
  revert s. induction n as [|n IH]; intros s Hn; cbn [drain]; [apply request_load_nil; lia|].
  apply IH. pose proof (deliver_load true s). lia.
Qed.

Lemma drain_app n m (s : cm_state) : drain (n + m) s = drain m (drain n s).
Proof. revert s. induction n as [|n IH]; intros s; [done|]. cbn [Nat.add drain]. apply IH. Qed.

Lemma drain_idle n (s : cm_state) : pending s = [] -> drain n s = s.
Proof. intros E. induction n as [|n IH]; [done|]. cbn [drain]. unfold deliver at 1. by rewrite E. Qed.
End delivery.

(** *** A known user is kept *)

(** The record of an outer id names the user. *)
Definition names_user `{RecordStore} (u k v : bytes) (d : store) : Prop :=
  exists r, contents d k v = Some r /\ r !! MAPPING_KEY_USER = Some u.

(** A request that can only write this user. *)
Definition carries (u : bytes) (r : as_request) : Prop :=
  match r with
  | PutReq _ _ _ b => b !! MAPPING_KEY_USER = Some u
  | TouchReq k _ _ u' _ => outer_key k /\ u' = u
  end.

Section identity.
Context `{RecordStoreLaws} `{CmConst} (u : bytes) (Hu : u <> []) (Hn : no_nul u).

Lemma device_carries k v o t : outer_key k -> carries u (updateMappingDeviceAsync u k v o t).
Proof.
  intros Hk. destruct (device_bins u k v o t Hk Hu) as (b & -> & E & _). unfold carries. by rewrite E, c_str_id.
Qed.

Lemma write_names k v d st ky t b :
  b !! MAPPING_KEY_USER = Some u -> names_user u k v d \/ (st, ky) = (k, v) -> names_user u k v (write d st ky t b).
Proof.
  intros Hb Hor. destruct (decide ((st, ky) = (k, v))) as [E|E].
  - injection E as -> ->. eexists. split; [apply contents_write|]. by apply lookup_union_Some_l.
  - destruct Hor as [(r & Er & Ur)|?]; [|done]. exists r. split; [|done]. by rewrite contents_write_ne.
Qed.

Lemma deliver_carries ok (s : cm_state) : Forall (carries u) (pending s) -> Forall (carries u) (pending (deliver ok s)).
Proof.
  destruct s as [d [|[st k t b|st k t u' o] q]]; unfold deliver; cbn [pending records negb]; intros Hq; [done|by apply Forall_cons in Hq as [_ ?]|].
  apply Forall_cons in Hq as [[Hk ->] Hq']. destruct ok; cbn [negb]; [|done].
  destruct (contents d st k); cbn [pending]; [done|]. apply Forall_app. split; [done|]. constructor; [|done].
  by apply device_carries.
Qed.

Lemma deliver_names ok k v (s : cm_state) :
  Forall (carries u) (pending s) -> names_user u k v (records s) -> names_user u k v (records (deliver ok s)).
Proof.
  destruct s as [d [|[st ky t b|st ky t u' o] q]]; unfold deliver; cbn [pending records negb]; intros Hq Hd; [done|..].
  - apply Forall_cons in Hq as [Hb _]. destruct ok; cbn [records]; [|done]. apply write_names; auto.
  - destruct ok; cbn [negb]; [|done]. destruct (contents d st ky); cbn [records]; [|done].
    destruct Hd as (r & E & U). exists r. by rewrite contents_refresh.
Qed.

Lemma run_names oks k v (s : cm_state) :
  Forall (carries u) (pending s) -> names_user u k v (records s) ->
  names_user u k v (records (foldl (fun s ok => deliver ok s) s oks)).
Proof.
  revert s. induction oks as [|ok oks IH]; intros s Hq Hd; [done|].
  cbn [foldl]. apply IH; [by apply deliver_carries|by apply deliver_names].
Qed.
End identity.

(** A lookup that finds the record. *)
Lemma query_names `{RecordStoreLaws} `{CmConst} u d mt c :
  u <> [] -> kv_isNull (queryKV c) = false -> no_nul (kv_value (queryKV c)) ->
  names_user u (kv_key (queryKV c)) (kv_value (queryKV c)) d ->
  exists m fix_, queryCookieMapping false d Answered mt c = (mkInfo (queryKV c) m false (negb fix_) fix_, u)
    /\ um_userId m = u /\ fix_ = negb (isAdxCookie (queryKV c)) && bool_decide (outerUserOriginId m = [])
    /\ (isAdxCookie (queryKV c) = false ->
        forall r, contents d (kv_key (queryKV c)) (kv_value (queryKV c)) = Some r ->
        outerUserOriginId m = getStr r MAPPING_OUTER_ORIGINID).
Proof.
  intros Hu Hnull Hv (r & Er & Ur). unfold queryCookieMapping, getUserMappingByKey. rewrite Hnull, c_str_id, Er by done.
  cbn [negb]. set (m := um_read _ _).
  assert (um_userId m = u) as Em by (unfold m, um_read; cbn [um_userId]; by apply getStr_present).
  unfold um_isValid. rewrite Em, bool_decide_eq_false_2 by done. cbn [negb].
  exists m. eexists. split; [reflexivity|]. split; [done|]. split; [done|]. intros Hadx r' E'.
  unfold m, um_read. cbn [outerUserOriginId needDeviceOriginId]. rewrite Hadx. cbn [negb]. congruence.
Qed.

(** The requests of a bid whose user is known. *)
Lemma redo_carries `{RecordStore} `{CmConst, UserIds} `{DeviceOrderLaws} uniq rand now adx url c :
  needReMapping c = false -> um_userId (userMapping c) <> [] -> no_nul (um_userId (userMapping c)) ->
  outer_key (kv_key (queryKV c)) -> (forall k, is_Some (deviceMappings (queryKV c) !! k) -> outer_key k) ->
  Forall (carries (um_userId (userMapping c))) (snd (redoCookieMapping uniq rand now adx url c)).
Proof.
  intros Hr Hu Hn Hk Hd. unfold redoCookieMapping. rewrite Hr.
  assert (forall (f : bytes * (bytes * bytes) -> as_request),
    (forall k v o, outer_key k -> carries (um_userId (userMapping c)) (f (k, (v, o)))) ->
    Forall (carries (um_userId (userMapping c))) (map f (devices (deviceMappings (queryKV c))))) as All.
  { intros f Hf. apply Forall_map, Forall_forall. intros [k [v o]] Hin. apply Hf, Hd.
    rewrite devices_perm in Hin. apply elem_of_map_to_list in Hin. by rewrite Hin. }
  destruct (needTouchMapping c); [|destruct (needFixMapping c)]; cbn [snd].
  - destruct (isAdxCookie _); [apply Forall_singleton; by split|]. apply All. by split.
  - apply All. intros. by apply device_carries.
  - apply Forall_nil_2.
Qed.

Lemma query_found `{RecordStoreLaws} `{CmConst} d mt c c1 u :
  queryCookieMapping false d Answered mt c = (c1, u) -> um_isValid (userMapping c1) = true ->
  no_nul (kv_value (queryKV c)) ->
  kv_isNull (queryKV c) = false /\ names_user u (kv_key (queryKV c)) (kv_value (queryKV c)) d
  /\ um_userId (userMapping c1) = u /\ queryKV c1 = queryKV c /\ u <> [] /\ needReMapping c1 = false.
Proof.
  unfold queryCookieMapping, getUserMappingByKey. destruct (kv_isNull (queryKV c)) eqn:Hnull; cbn [negb].
  { intros [= <- <-]. cbn. discriminate. }
  intros E Hval Hv. rewrite c_str_id in E by done.
  destruct (contents d (kv_key (queryKV c)) (kv_value (queryKV c))) as [r|] eqn:Er.
  2:{ cbn in E. injection E as <- <-. cbn in Hval. discriminate Hval. }
  set (m := um_read _ _) in E. destruct (um_isValid m) eqn:Em.
  2:{ injection E as <- <-. cbn [userMapping] in Hval. congruence. }
  injection E as <- <-. unfold um_isValid in Em. apply negb_true_iff, bool_decide_eq_false in Em.
  split_and!; [done| |done|done|done|done]. exists r. split; [done|].
  unfold m, um_read in Em |- *. cbn [um_userId] in *. destruct (r !! MAPPING_KEY_USER) as [x|] eqn:Ex.
  - by rewrite (getStr_present _ _ _ Ex).
  - by rewrite (getStr_absent _ _ Ex) in Em.
Qed.

(** C27: A user keeps his id: when the lookup of a bid finds a user, then whatever the bid asks
    of the database afterwards and whichever of these requests are lost, the next lookup of the
    same outer id finds the same user. *)
Theorem known_user_kept `{RecordStoreLaws} `{DeviceOrderLaws} `{CmConst, UserIds} d mt c c1 u oks uniq rand now adx url mt' :
  queryCookieMapping false d Answered mt c = (c1, u) -> um_isValid (userMapping c1) = true ->
  no_nul (kv_value (queryKV c)) -> no_nul u -> outer_key (kv_key (queryKV c)) ->
  (forall k, is_Some (deviceMappings (queryKV c) !! k) -> outer_key k) ->
  let s := foldl (fun s ok => deliver ok s) (mkCm d (snd (redoCookieMapping uniq rand now adx url c1))) oks in
  exists c2, queryCookieMapping false (records s) Answered mt' c = (c2, u)
    /\ um_userId (userMapping c2) = u /\ needReMapping c2 = false.
Proof.
  intros E Hval Hv Hn Hk Hd s. destruct (query_found _ _ _ _ _ E Hval Hv) as (Hnull & Hnames & Eu & Eq & Hu & Hr).
  destruct (query_names u (records s) mt' c Hu Hnull Hv) as (m & f & -> & Em & _).
  - unfold s. apply run_names; [done|done| |done]. cbn [pending]. rewrite <- Eu.
    apply redo_carries; rewrite ?Eu, ?Eq; done.
  - eexists. split; [reflexivity|]. done.
Qed.

(** *** Devices *)

(** The entries of a bid: a device id that is not empty, under the key of its kind, with the raw
    id, which is not one of those that many devices share. *)
Definition device_entry (ids raw : device_ids) (app : Z) (appUser k v o : bytes) : Prop :=
  v <> [] /\
  (k = MAPPING_KEY_IDFA /\ (v, o) = (idfa ids, idfa raw) /\ idfa raw ∉ excludeIDFAs
   \/ k = MAPPING_KEY_IMEI /\ (v, o) = (imei ids, imei raw) /\ imei raw ∉ excludeIMEIs
   \/ k = MAPPING_KEY_ANDROIDID /\ (v, o) = (androidId ids, androidId raw) /\ androidId raw ∉ excludeAndroidIds
   \/ k = MAPPING_KEY_MAC /\ (v, o) = (mac ids, mac raw) /\ mac raw ∉ excludeMACs
   \/ k = adxUidKey app /\ (v, o) = (appUser, [])).

(** The key of the lookup is one of the entries. *)
Definition kv_ok (P : bytes -> bytes -> bytes -> Prop) (q : CookieMappingQueryKeyValue) : Prop :=
  (forall k v o, deviceMappings q !! k = Some (v, o) -> P k v o)
  /\ (kv_key q = [] /\ kv_value q = [] /\ deviceMappings q = ∅
      \/ kv_isNull q = false /\ exists o, deviceMappings q !! kv_key q = Some (kv_value q, o)).

Lemma rebindDevice_ok (P : bytes -> bytes -> bytes -> Prop) k v o q :
  kv_ok P q -> (k <> [] -> v <> [] -> P k v o) -> kv_ok P (rebindDevice k v o q).
Proof.
  intros [HP Hq] Hkv. unfold rebindDevice. destruct (bool_decide_reflect (k = [])) as [|Hk]; [by split|].
  destruct (bool_decide_reflect (v = [])) as [|Hv]; [by split|]. cbn [negb andb]. split; cbn [deviceMappings kv_key kv_value].
  - intros k' v' o'. destruct (deviceMappings q !! k) eqn:E; [apply HP|].
    destruct (decide (k = k')) as [<-|]; [rewrite lookup_insert_eq; intros [= <- <-]; auto|].
    rewrite lookup_insert_ne by done. apply HP.
  - right. destruct Hq as [(-> & -> & ->)|[Hn [o' Ho]]].
    + rewrite lookup_empty. rewrite bool_decide_eq_true_2 by done. cbn [orb]. unfold kv_isNull. cbn [kv_key kv_value].
      rewrite !bool_decide_eq_false_2 by done. split; [done|]. exists o. by rewrite lookup_insert_eq.
    + unfold kv_isNull in *. rewrite Hn. cbn [kv_key kv_value]. split; [done|].
      destruct (deviceMappings q !! k) eqn:E; [by exists o'|]. exists o'. rewrite lookup_insert_ne by congruence. done.
Qed.

Lemma mobile_kv_ok ids raw app appUser q :
  kv_ok (device_entry ids raw app appUser) (mobile_kv ids raw app appUser q)
  /\ isAdxCookie (mobile_kv ids raw app appUser q) = false.
Proof.
  split.
  - unfold mobile_kv. unfold filterMAC, filterAndroidID, filterIMEI, filterIDFA.
    repeat (apply rebindDevice_ok; [|intros _; unfold device_entry; try case_bool_decide; [done|] || idtac; intros ?; split; [done|]; tauto]).
    split; [intros ???; cbn; by rewrite lookup_empty|]. left. done.
  - unfold mobile_kv, rebindDevice at 1. by destruct (_ && _).
Qed.

Lemma device_entry_key ids raw app appUser k v o : device_entry ids raw app appUser k v o -> outer_key k.
Proof.
  intros (_ & [(-> & _)|[(-> & _)|[(-> & _)|[(-> & _)|(-> & _)]]]]); split; by_decide.
Qed.

Lemma mobile_key `{UserIds} ids raw app appUser c :
  let q := queryKV (cookieMappingKeyMobile ids raw app appUser c) in
  (forall k, is_Some (deviceMappings q !! k) -> outer_key k) /\ (kv_isNull q = false -> outer_key (kv_key q)).
Proof.
  destruct (mobile_kv_ok ids raw app appUser (queryKV c)) as [[HP Hq] _]. cbn [cookieMappingKeyMobile with_kv queryKV].
  assert (forall k, is_Some (deviceMappings (mobile_kv ids raw app appUser (queryKV c)) !! k) -> outer_key k) as Hall.
  { intros k [[v o] E]. eapply device_entry_key. by apply HP. }
  split; [done|]. intros Hn. destruct Hq as [(Ek & _)|[_ [o E]]]; [|apply Hall; by rewrite E].
  unfold kv_isNull in Hn. by rewrite Ek in Hn.
Qed.

(** Requests that store records, one after the other. *)
Section puts.
Context `{RecordStoreLaws} `{CmConst} (u : bytes) (Hu : u <> []) (Hn : no_nul u).

Abbreviation put_of := (fun '(k, (v, o)) => updateMappingDeviceAsync u k v o (device_ttl k)).

Lemma drain_puts_keep l d k v :
  (k : bytes) ∉ map fst l -> exists d', drain (length l) (mkCm d (map put_of l)) = mkCm d' []
    /\ contents d' k v = contents d k v.
Proof.
  revert d. induction l as [|[k' [v' o']] l IH]; intros d Hk; [by exists d|].
  cbn [map length drain]. cbn [map fst] in Hk. apply not_elem_of_cons in Hk as [Hne Hk].
  unfold deliver. cbn [pending records]. unfold updateMappingDeviceAsync at 1.
  destruct (IH (write d k' v' (device_ttl k') (um_record (if bool_decide (o' = []) then mkMapping u k' v' [] [] false (device_ttl k')
    else mkMapping u k' v' o' [] true (device_ttl k')))) Hk) as (d' & -> & E).
  exists d'. split; [done|]. rewrite E, contents_write_ne by congruence. done.
Qed.

Lemma drain_puts_store l d k v o :
  NoDup (map fst l) -> (k, (v, o)) ∈ l -> outer_key k ->
  exists d' b r, drain (length l) (mkCm d (map put_of l)) = mkCm d' [] /\ contents d' k v = Some (b ∪ r)
    /\ b !! MAPPING_KEY_USER = Some u /\ (o <> [] -> b !! MAPPING_OUTER_ORIGINID = Some (c_str o)).
Proof.
  revert d. induction l as [|[k' [v' o']] l IH]; intros d Hnd Hin Hk; [by apply elem_of_nil in Hin|].
  cbn [map fst] in Hnd. apply NoDup_cons in Hnd as [Hnot Hnd]. cbn [map length drain].
  apply elem_of_cons in Hin as [E|Hin].
  - injection E as <- <- <-. destruct (device_bins u k v o (device_ttl k) Hk Hu) as (b & -> & B1 & _ & B2).
    unfold deliver. cbn [pending records].
    destruct (drain_puts_keep l (write d k v (device_ttl k) b) k v Hnot) as (d' & -> & E').
    exists d', b, (default ∅ (contents d k v)). rewrite E', contents_write. rewrite c_str_id in B1 by done. by split_and!.
  - unfold deliver at 1. unfold updateMappingDeviceAsync at 1. cbn [pending records]. by apply IH.
Qed.
End puts.

(** C26: All devices of a user lead to him: when a bid finds no record for the device ids of a
    request, it gives the user a new id and asks to store a record for each of the ids, and once
    these requests are delivered, which ends, a lookup by any one of the ids finds that user; a
    record that holds the raw device id is then only refreshed. *)
Theorem devices_identify `{RecordStoreLaws} `{DeviceOrderLaws} `{CmConst, UserIds}
    ids raw app appUser c0 d mt uniq rand now adx url k v o c' mt' :
  let c := cookieMappingKeyMobile ids raw app appUser c0 in
  let c1 := fst (queryCookieMapping false d Answered mt c) in
  let u := uid_text (new_user uniq rand now) in
  let reqs := snd (redoCookieMapping uniq rand now adx url c1) in
  let s := drain (2 * length reqs) (mkCm d reqs) in
  needReMapping c1 = true -> u <> [] -> no_nul u ->
  deviceMappings (queryKV c) !! k = Some (v, o) -> no_nul v ->
  kv_key (queryKV c') = k -> kv_value (queryKV c') = v -> isAdxCookie (queryKV c') = false ->
  pending s = []
  /\ exists c2, queryCookieMapping false (records s) Answered mt' c' = (c2, u)
       /\ um_userId (userMapping c2) = u /\ needReMapping c2 = false /\ (c_str o <> [] -> needTouchMapping c2 = true).
Proof.
  intros c c1 u reqs s Hre Hu Hn Hkv Hv Ek Ev Ea.
  destruct (mobile_kv_ok ids raw app appUser (queryKV c0)) as [[HP _] Hadx].
  pose proof (HP _ _ _ Hkv) as Hent. pose proof (device_entry_key _ _ _ _ _ _ _ Hent) as Hk.
  assert (queryKV c1 = queryKV c) as Eq.
  { unfold c1, queryCookieMapping. repeat (case_match; simplify_eq/=); done. }
  assert (reqs = remap_requests u (queryKV c)) as Er.
  { unfold reqs, redoCookieMapping. rewrite Hre, Eq. change (isAdxCookie (queryKV c)) with
      (isAdxCookie (mobile_kv ids raw app appUser (queryKV c0))). by rewrite Hadx. }
  pose proof (devices_perm (deviceMappings (queryKV c))) as Hperm.
  assert (NoDup (map fst (devices (deviceMappings (queryKV c))))) as Hnd.
  { change (map fst) with (@fmap list _ _ _ (@fst bytes (bytes * bytes))). rewrite Hperm. apply NoDup_fst_map_to_list. }
  assert ((k, (v, o)) ∈ devices (deviceMappings (queryKV c))) as Hin by (rewrite Hperm; by apply elem_of_map_to_list).
  destruct (drain_puts_store u Hu Hn _ d k v o Hnd Hin Hk) as (d' & b & r & Ed & Ec & Bu & Bo).
  assert (s = mkCm d' []) as Es.
  { unfold s. rewrite Er. unfold remap_requests. rewrite length_map. set (l := devices _) in *.
    replace (2 * length l)%nat with (length l + length l)%nat by lia. rewrite drain_app.
    etrans; [apply f_equal; exact Ed|]. by apply drain_idle. }
  rewrite Es. split; [done|]. cbn [records].
  assert (names_user u k v d') as Hnames by (exists (b ∪ r); split; [done|]; by apply lookup_union_Some_l).
  destruct (query_names u d' mt' c' Hu) as (m & f & -> & Em & Ef & Eo); rewrite ?Ek, ?Ev; try done.
  { unfold kv_isNull. rewrite Ek, Ev. destruct Hent as [Hv0 _]. rewrite !bool_decide_eq_false_2; [done|done|].
    intros ->. destruct (HP [] v o Hkv) as (_ & F). repeat destruct F as [(F & _)|F]; [..|destruct F as [F _]]; discriminate F. }
  eexists. split; [reflexivity|]. cbn [userMapping needReMapping needTouchMapping]. split_and!; [done|done|].
  intros Ho. rewrite Ef, Ea, (Eo Ea (b ∪ r)) by (by rewrite Ek, Ev).
  assert (o <> []) as Ho' by (intros ->; by apply Ho).
  rewrite (getStr_present _ _ (c_str o)) by (apply lookup_union_Some_l; auto).
  by rewrite bool_decide_eq_false_2.
Qed.

(** *** Browsers *)

(** The effect of a request of the mapping module on the database. *)
Definition apply_put `{RecordStore} (op : db_op) (d : store) : store :=
  match op with DbPut st k t b => write d st k t b | _ => d end.

Lemma adxUidKey_outer adx : outer_key (adxUidKey adx).
Proof. split; by_decide. Qed.

Lemma adxuid_bins u adx v t : u <> [] -> um_record (adxuid_mapping u adx v t) !! MAPPING_KEY_USER = Some (c_str u).
Proof.
  intros Hu. destruct (bins_lookup u (adxUidKey adx) v None 2 t (adxUidKey_outer adx) Hu eq_refl) as (E & _).
  replace (bool_decide (2%nat = 3%nat)) with false in E by done. exact E.
Qed.

Lemma answer_pixel_run s :
  exists r, answer_pixel s = RVal tt (mkState (params s) (log s) r false (logs s) (trafficCalls s) (db s)) /\ respStatus r = 302.
Proof. eexists. split; [reflexivity|]. reflexivity. Qed.

(** C28: The cookie of a browser leads to its user: the mapping module answers with the pixel and
    without logging, and asks to store the decoded id of the exchange for the user of the
    request, whatever the database answers; when it was stored, a later bid of that exchange
    with that id finds the user, and only refreshes the record. *)
Theorem mapping_then_bid `{AdxConst, CmConst} `{RecordStoreLaws} (ua : bytes) (ok : bool) s uid cookie :
  let adx := checkAdxId ua (adxid (adInfo (log s))) in
  params s !! getAdxMappingKey adx = Some uid -> uid <> [] -> isAdxUidValid adx uid = true ->
  urlDecode_f uid 1024 = Val cookie -> cookie <> [] -> no_nul cookie ->
  userId (log s) <> [] -> no_nul (userId (log s)) ->
  exists s' op, mapping_customLogic ua ok s = RVal tt s' /\ needLog s' = false /\ respStatus (resp s') = 302
    /\ log s' = log s /\ db s' = db s ++ [op]
    /\ forall d c mt, exists c1,
         queryCookieMapping false (apply_put op d) Answered mt (cookieMappingKeyPC adx cookie c) = (c1, userId (log s))
         /\ needTouchMapping c1 = true /\ needReMapping c1 = false.
Proof.
  intros adx Hp Huid Hvalid Hdec Hc Hcn Hu Hun.
  set (op := DbPut (adxUidKey adx) cookie (DAY_SECOND * 30) (um_record (adxuid_mapping (userId (log s)) adx cookie (DAY_SECOND * 30)))).
  assert ((if negb (bool_decide (uid = [])) && isAdxUidValid adx uid then
        decodeAdxUid ← lift (urlDecode_f uid 1024);
        updateMappingAdxUid ok (userId (log s)) adx decodeAdxUid (DAY_SECOND * 30);; mret tt
      else mret tt) s
    = RVal tt (mkState (params s) (log s) (resp s) (needLog s) (logs s) (trafficCalls s) (db s ++ [op]))) as E.
  { rewrite bool_decide_eq_false_2, Hvalid by done. cbn [negb andb]. by rewrite (run_lift _ _ _ _ Hdec). }
  destruct (answer_pixel_run (mkState (params s) (log s) (resp s) (needLog s) (logs s) (trafficCalls s) (db s ++ [op])))
    as (r & Er & Hr).
  exists (mkState (params s) (log s) r false (logs s) (trafficCalls s) (db s ++ [op])), op. split.
  { unfold mapping_customLogic, catch_std. rewrite !run_gets. fold adx. rewrite Hp. cbn [default from_option id].
    rewrite (run_bind _ _ _ _ _ E), Er. reflexivity. }
  cbn [needLog resp log db]. split_and!; [reflexivity|exact Hr|reflexivity|reflexivity|].
  intros d c mt. set (c0 := cookieMappingKeyPC adx cookie c).
  destruct (query_names (userId (log s)) (apply_put op d) mt c0 Hu) as (m & f & -> & _ & -> & _); [|done| |].
  - unfold kv_isNull. cbn [c0 cookieMappingKeyPC with_kv queryKV rebind kv_key kv_value].
    rewrite !bool_decide_eq_false_2; [done|done|]. discriminate.
  - unfold op, apply_put. apply write_names; [|by right]. rewrite adxuid_bins by done. by rewrite c_str_id.
  - eexists. split; [reflexivity|]. done.
Qed.

(** *** Reads that fail *)

Lemma redo_remap `{CmConst, UserIds} `{DeviceOrder} uniq rand now adx url c text c2 reqs :
  redoCookieMapping uniq rand now adx url c = (text, c2, reqs) -> needReMapping c = true ->
  um_userId (userMapping c2) = uid_text (new_user uniq rand now).
Proof. unfold redoCookieMapping. intros E Hr. rewrite Hr in E. repeat (case_match; simplify_eq/=); done. Qed.

(** What a lookup decides: at most one of the three follow ups is due; with mapping switched
    off, or when the read timed out, none is and the requests that follow write nothing, so a
    slow database never costs a user his id; every other read that finds no user leads to a new
    id. *)
Theorem query_decides `{RecordStore} `{CmConst, UserIds} `{DeviceOrder} off d a mt c uniq rand now adx url :
  let c1 := fst (queryCookieMapping off d a mt c) in
  let '(text, c2, reqs) := redoCookieMapping uniq rand now adx url c1 in
  (needReMapping c1 = true -> needTouchMapping c1 = false /\ needFixMapping c1 = false)
  /\ (needTouchMapping c1 = true -> needFixMapping c1 = false)
  /\ (off = true \/ a = TimedOut /\ kv_isNull (queryKV c) = false -> text = [] /\ reqs = [] /\ c2 = c1)
  /\ (off = false -> a <> TimedOut -> kv_isNull (queryKV c) = false -> um_isValid (userMapping c1) = false ->
      needReMapping c1 = true /\ um_userId (userMapping c2) = uid_text (new_user uniq rand now)).
Proof.
  intros c1. destruct (redoCookieMapping uniq rand now adx url c1) as [[text c2] reqs] eqn:Er.
  unfold c1, queryCookieMapping, getUserMappingByKey in *. destruct off; cbn [fst] in *.
  { unfold redoCookieMapping in Er. cbn in Er. injection Er as <- <- <-. cbn. split_and!; try done. }
  destruct (kv_isNull (queryKV c)) eqn:Hnull; cbn [negb] in *.
  { cbn [fst needReMapping needTouchMapping needFixMapping]. split_and!; try done. intros [|[_ F]]; done. }
  destruct a; cbn [negb] in *.
  - destruct (um_isValid _) eqn:Ev; cbn [fst needReMapping needTouchMapping needFixMapping userMapping] in *.
    + split_and!; try done; [by intros ->%negb_true_iff|by intros [|[? _]]|congruence].
    + split_and!; try done; [by intros [|[? _]]|]. intros _ _ _ _. split; [done|].
      by apply redo_remap in Er.
  - change (um_isValid _) with false in *. cbn [fst] in *. unfold redoCookieMapping in Er.
    cbn [needReMapping needTouchMapping needFixMapping negb] in *. injection Er as <- <- <-. split_and!; done.
  - change (um_isValid _) with false in *. cbn [fst negb needReMapping needTouchMapping needFixMapping userMapping] in *.
    split_and!; try done; [by intros [|[? _]]|]. intros _ _ _ _. split; [done|].
    by apply redo_remap in Er.
Qed.

(** A read that ended with an error other than a time limit counts as one that found nothing:
    the user gets a new id although his record is there. *)
Lemma failed_read_remaps `{RecordStoreLaws} `{CmConst, UserIds} `{DeviceOrder} u d mt c :
  kv_isNull (queryKV c) = false -> names_user u (kv_key (queryKV c)) (kv_value (queryKV c)) d ->
  needReMapping (fst (queryCookieMapping false d Failed mt c)) = true.
Proof. intros Hn _. unfold queryCookieMapping. by rewrite Hn. Qed.

(** The record of a device that has expired is stored anew for 30 days instead of 900. *)
Lemma touch_fallback_ttl `{RecordStore} `{CmConst} d k v u o t :
  contents d k v = None -> exists b, pending (deliver true (mkCm d [touchMapping k v u o t])) = [PutReq k v (DAY_SECOND * 30) b].
Proof. intros E. unfold deliver. cbn [pending records touchMapping negb]. rewrite E. by eexists. Qed.

(** The rows of a query by user have no outer key, so the outer id is never read. *)
Lemma bin_query_no_outer `{RecordStoreLaws} `{CmConst} rows :
  (forall r, Some r ∈ rows -> r !! [] = None) -> outerUserId (getUserDeviceMappingByBin rows) = [].
Proof.
  intros Hr. unfold getUserDeviceMappingByBin.
  assert (forall l, Forall (fun m => outerUserId m = []) l ->
    Forall (fun m => outerUserId m = []) (foldl (fun u r => QueryWhereCallback r u) l rows)) as Hall.
  { induction rows as [|[r|] rows IH]; intros l Hl; cbn [foldl]; [done| |].
    - apply IH; [set_solver|]. cbn [QueryWhereCallback]. apply Forall_app. split; [done|]. apply Forall_singleton.
      cbn [um_read outerUserId outerUserKey]. apply getStr_absent, Hr. set_solver.
    - apply IH; [set_solver|done]. }
  specialize (Hall [] (Forall_nil_2 _)). destruct (foldl _ [] rows) as [|m l]; [done|]. by apply Forall_cons in Hall as [? _].
Qed.

(** *** Sequence ids *)

(** A sequence id is the low 16 bits of its source as a signed number without its sign: it is
    between 0 and 32767, except that 0x8000 stays negative. *)
Theorem newIdSeq_range uniq rand now :
  let bits := Z.land (if uniq =? 0 then rand else uniq) 0xFFFF in
  let '(id, t) := newIdSeq uniq rand now in
  t = now /\ id = (if bits <=? 32768 then swrap 16 bits else 65536 - bits)
  /\ (0 <= id <= 32767 \/ bits = 32768 /\ id = -32768).
Proof.
  intros bits. assert (0 <= bits < 65536) as Hb.
  { unfold bits. change 0xFFFF with (Z.ones 16). rewrite Z.land_ones by lia. by apply Z.mod_pos_bound. }
  unfold newIdSeq, setId. fold bits. split; [done|]. unfold swrap. cbn [Z.sub Z.pow].
  change (2 ^ (16 - 1)) with 32768. change (2 ^ 16) with 65536.
  destruct (Z.leb_spec bits 32768).
  - destruct (Z.eq_dec bits 32768) as [->|]; [by split; [|right]|].
    rewrite (Z.mod_small (bits + 32768)) by lia. replace (bits + 32768 - 32768) with bits by lia.
    destruct (Z.ltb_spec 0 bits); [rewrite Z.mod_small by lia; lia|]. assert (bits = 0) as -> by lia. by split; [|left].
  - assert ((bits + 32768) mod 65536 = bits - 32768) as ->
      by (symmetry; apply (Z.mod_unique_pos _ _ 1); lia).
    destruct (Z.ltb_spec 0 (bits - 32768 - 32768)); [lia|]. rewrite Z.mod_small by lia. lia.
Qed.

(** ** Instances *)

(** A database as a map from sets and keys to the time to live and the bins. *)
Definition map_store : RecordStore := {|
  store := gmap (bytes * bytes) (Z * bins);
  contents d s k := snd <$> d !! (s, k);
  write d s k t b := <[(s, k) := (t, b ∪ default ∅ (snd <$> d !! (s, k)))]> d;
  refresh d s k t := alter (fun '(_, b) => (t, b)) (s, k) d;
  getStr b n := default [] (b !! n) |}.

Definition map_devices : DeviceOrder := {| devices := map_to_list |}.
Definition day : CmConst := {| DAY_SECOND := 86400 |}.

#[local] Existing Instance map_store.
#[local] Existing Instance map_devices.
#[local] Existing Instance day.
#[local] Existing Instance toy_users.
#[local] Existing Instance toy_adx.

#[local] Instance map_store_laws : RecordStoreLaws map_store.
Proof.
  constructor; cbn; intros.
  - by rewrite lookup_insert_eq.
  - by rewrite lookup_insert_ne.
  - destruct (decide ((s, k) = (s', k'))) as [->|]; [|by rewrite lookup_alter_ne].
    rewrite lookup_alter_eq. by destruct (d !! (s', k')) as [[]|].
  - by rewrite H.
  - by rewrite H.
Qed.

#[local] Instance map_devices_laws : DeviceOrderLaws map_devices.
Proof. by constructor. Qed.

Definition phone : device_ids := mkIds (str "A1B2") [] (str "77aa") [].
Definition phone_raw : device_ids := mkIds (str "raw-a1") (str "0") (str "raw-77") [].
Definition info0 : BidCookieMappingInfo := mkInfo (mkKV [] [] ∅ false) mapping0 false false false.
Definition other_bid : BidCookieMappingInfo := with_kv (mkKV MAPPING_KEY_ANDROIDID (str "77aa") ∅ false) info0.
Definition no_store : store := ∅.

Definition phone_bid : BidCookieMappingInfo := cookieMappingKeyMobile phone phone_raw 7 (str "app") info0.
Definition phone_requests : list as_request :=
  snd (redoCookieMapping 0 5 9 7 [] (fst (queryCookieMapping false no_store Answered [] phone_bid))).

Lemma devices_identify_witness :
  let s := drain (2 * length phone_requests) (mkCm no_store phone_requests) in
  pending s = [] /\ exists c2, queryCookieMapping false (records s) Answered [] other_bid = (c2, uid_text (new_user 0 5 9))
    /\ um_userId (userMapping c2) = uid_text (new_user 0 5 9) /\ needReMapping c2 = false
    /\ (c_str (str "raw-77") <> [] -> needTouchMapping c2 = true).
Proof.
  apply (devices_identify phone phone_raw 7 (str "app") info0 no_store [] 0 5 9 7 [] MAPPING_KEY_ANDROIDID (str "77aa")
    (str "raw-77") other_bid []); [by vm_compute|discriminate|by_decide|by vm_compute|by_decide|done|done|done].
Defined.

Definition known_store : store := {[(MAPPING_KEY_ANDROIDID, str "77aa") := (1, {[MAPPING_KEY_USER := str "u1"]})]}.
Definition known_bid : BidCookieMappingInfo := fst (queryCookieMapping false known_store Answered [] other_bid).

Lemma known_user_kept_witness :
  let s := foldl (fun s ok => deliver ok s) (mkCm known_store (snd (redoCookieMapping 0 5 9 7 [] known_bid))) [true; false] in
  exists c2, queryCookieMapping false (records s) Answered [] other_bid = (c2, str "u1")
    /\ um_userId (userMapping c2) = str "u1" /\ needReMapping c2 = false.
Proof.
  apply (known_user_kept known_store [] other_bid known_bid (str "u1") [true; false] 0 5 9 7 [] []);
    [by vm_compute|by vm_compute|by_decide|by_decide|split; by_decide|].
  intros k. cbn. rewrite lookup_empty. by intros [? [=]].
Defined.

Definition browser : task_state :=
  mkState {[str "tanx_tid" := str "t%41x"]}
    (set_user (str "u3") [] (set_ad (mkAd [] 0 0 0 0 [] (adx_id ADX_TANX) 0 [] [] [] [] 0 0 0 (mkBilling 0 0 []) (mkSelect 0 0 0 [] 0 [])) log0))
    (mkResponse 200 [] ∅ [] [] false) true log_state0 [] [].

Lemma mapping_then_bid_witness :
  exists s' op, mapping_customLogic (str "Mozilla") true browser = RVal tt s' /\ needLog s' = false /\ respStatus (resp s') = 302
    /\ log s' = log browser /\ db s' = db browser ++ [op]
    /\ forall d c mt, exists c1,
         queryCookieMapping false (apply_put op d) Answered mt (cookieMappingKeyPC (adx_id ADX_TANX) (str "tAx") c) = (c1, str "u3")
         /\ needTouchMapping c1 = true /\ needReMapping c1 = false.
Proof.
  apply (mapping_then_bid (str "Mozilla") true browser (str "t%41x") (str "tAx"));
    [by vm_compute|discriminate|by vm_compute|by vm_compute|discriminate|by_decide|discriminate|by_decide].
Defined.
