(* ===== verification/TraceTask.v ===== *)
(** * TraceTask: conversions (core/logic/trace_task.cpp, core/model/source_id.cpp)

    The pages of an advertiser report what a user does after a click.  The task finds the click by
    its source id, or by the user and the advertiser, copies the ad of the click into its log item
    and forwards the report to a log service.

    The tables of sources of the database are the interface [SourceStore]; whether a read succeeds,
    the device records of a user and what the log service answers are arguments.  The counters of
    requests are left out. *)
From S2P Require Import Prelude CString UrlCodec UrlParams Cypher UrlHelper Double Pricing Http LogPusher QueryTask.
From S2P Require Import ClickTask CookieMapping.

(** ** The database *)

(** [put_record] sets the bins of a record and keeps its others; [get_int64] is
    [as_record_get_int64], [get_str] is [getStr] of mtty's [ASEntity]. *)
Class SourceStore := {
  sstore : Type;
  get_record : sstore -> bytes -> bytes -> option as_record;
  put_record : sstore -> bytes -> bytes -> as_record -> sstore;
  get_int64 : as_record -> bytes -> Z -> Z;
  get_str : as_record -> bytes -> bytes;
}.

Class SourceStoreLaws (S : SourceStore) : Prop := {
  get_put d s k r : get_record (put_record d s k r) s k = Some (r ∪ default ∅ (get_record d s k));
  get_put_ne d s k r s' k' : (s, k) <> (s', k') -> get_record (put_record d s k r) s' k' = get_record d s' k';
  get_int64_present r n v def : r !! n = Some (AsInt v) -> get_int64 r n def = v;
  get_int64_absent r n def : r !! n = None -> get_int64 r n def = def;
  get_str_present r n v : r !! n = Some (AsStr v) -> get_str r n = v;
  get_str_absent r n : r !! n = None -> get_str r n = [];
}.

(** ** Sources (core/model/source_id.cpp) *)

Record SourceRecord := mkSource {
  sr_time : Z; sr_advId : bytes; sr_sid : bytes; sr_adxId : bytes; sr_mtUid : bytes; sr_pid : bytes; sr_adxPid : bytes;
  sr_requestId : bytes; sr_createId : bytes; sr_geoId : bytes; sr_refererUrl : bytes; sr_bidPrice : bytes;
  sr_ppId : bytes; sr_oId : bytes; sr_priceType : bytes; sr_mId : bytes; sr_impId : bytes;
}.

Definition source0 : SourceRecord := mkSource 0 [] [] [] [] [] [] [] [] [] [] [] [] [] [] [] [].

(** The sets of the two tables. *)
Definition SOURCE_SET : bytes := str "source_id".
Definition INDEX_SET : bytes := str "source_id_index".

Section source.
Context `{SourceStore}.

(** [SourceId::record] *)
Definition read_source_id (r : as_record) : bytes :=
  let val := get_int64 r (str "val") (-1) in
  if negb (val =? -1) then source_id_text val else get_str r (str "source_id").

(** [SourceRecord::record] *)
Definition read_source (r : as_record) : SourceRecord :=
  let get n := get_str r (str n) in
  mkSource (get_int64 r (str "latest_time") (-1)) (get "adv_id") (get "sid") (get "adx_id") (get "mt_uid") (get "pid")
    (get "adxpid") (get "request_id") (get "create_id") (get "geo_id") (get "referer_url") (get "bid_price")
    (get "ppid") (get "oid") (get "pricetype") (get "mid") (get "impid").

(** What the requests of a click do to the tables. *)
Definition apply_click_op `{UrlNames} (d : sstore) (op : db_op) : sstore :=
  match op with
  | DbPutSource id m l => put_record d SOURCE_SET id (source_record m l)
  | DbPutIndex k id => put_record d INDEX_SET k {[str "source_id" := AsStr id]}
  | _ => d
  end.
Definition apply_click `{UrlNames} (d : sstore) (ops : list db_op) : sstore := foldl apply_click_op d ops.
End source.

(** ** The log item *)

Definition TRACE_ID_ARRIVE : Z := 5.
Definition URL_VERSION : bytes := str "v".
Definition URL_DEVICE_TYPE : bytes := str "k".
Definition URL_REQUEST_TYPE : bytes := str "y".
Definition URL_SOURCE_ID : bytes := str "g".
Definition URL_USER_OR_ORDER_ID : bytes := str "t1".
Definition URL_USER_OR_PRODUCT_NAME : bytes := str "t2".
(** [t1] to [t10] *)
Definition URL_TAGS : list bytes :=
  [URL_USER_OR_ORDER_ID; URL_USER_OR_PRODUCT_NAME; str "t3"; str "t4"; str "t5"; str "t6"; str "t7"; str "t8"; str "t9"; str "t10"].
Definition deviceTypes : list bytes := [str "idfa"; str "imei"; str "androidId"; str "mac"].

Definition set_traceId (t : Z) (l : LogItem) : LogItem :=
  mkLog (timeStamp l) (logType l) (reqStatus l) (reqMethod l) (proxy l) (referer l) (userId l) (userAgent l)
    (geoInfo l) (adInfo l) (clickx l) (clicky l) (deviceID l) t (traceInfo l) (flow l).
Definition set_traceInfo (i : TraceInfo) (l : LogItem) : LogItem :=
  mkLog (timeStamp l) (logType l) (reqStatus l) (reqMethod l) (proxy l) (referer l) (userId l) (userAgent l)
    (geoInfo l) (adInfo l) (clickx l) (clicky l) (deviceID l) (traceId l) i (flow l).
Definition set_geo (g : GeoInfo) (l : LogItem) : LogItem :=
  mkLog (timeStamp l) (logType l) (reqStatus l) (reqMethod l) (proxy l) (referer l) (userId l) (userAgent l)
    g (adInfo l) (clickx l) (clicky l) (deviceID l) (traceId l) (traceInfo l) (flow l).

(** [safeconvert] never throws. *)
Definition number (v : bytes) : Z := match safe_stoi v with Val n => n | _ => 0 end.

(** The ad of a source. *)
Definition source_ad (r : SourceRecord) (a : AdInfo) : AdInfo :=
  mkAd (sr_geoId r) (number (sr_advId r)) (cpid a) (number (sr_sid r)) (number (sr_createId r)) (clickId a)
    (number (sr_adxId r)) (number (sr_mId r)) (sr_pid r) (sr_impId r) (landingUrl a) (sr_adxPid r)
    (number (sr_priceType r)) (number (sr_ppId r)) (number (sr_oId r)) (set_bid (number (sr_bidPrice r)) (bill a)) (select a).

Definition at_keys (ks : list bytes) : M (list bytes) := mapM at_key ks.

(** Nothing in the [try] block throws. *)
Definition fillLog (r : SourceRecord) (version device sourceId : bytes) : M unit :=
  tags ← at_keys URL_TAGS;
  l ← gets log;
  let l := set_traceInfo (mkTrace version device sourceId tags) l in
  put_log l;;
  if sr_time r =? 0 then mret tt
  else
    let l := set_ad (source_ad r (adInfo l)) l in
    put_log l;;
    '(country, province, city) ← lift (extractAreaInfo (areaId (adInfo l)));
    put_log (set_geo (mkGeo country province city) l).

(** ** The report *)

Definition ALI_LOG_URL : bytes :=
  str "http://mtty.cn-beijing-vpc.log.aliyuncs.com/logstores/mt-log/track.gif?APIVersion=0.6.0&t=".

(** [if (!v.empty()) result += name + v] for each. *)
Definition add_fields (fields : list (bytes * bytes)) : bytes :=
  flat_map (fun '(name, v) => if bool_decide (v = []) then [] else name ++ v) fields.

Definition tag_names : list bytes := [str "&t1="; str "&t2="; str "&t3="; str "&t4="; str "&t5="; str "&t6="; str "&t7="; str "&t8="; str "&t9="; str "&t10="].

Definition aliLog (l : LogItem) (r : SourceRecord) (ownerId sourceId requestTypeStr : bytes) : bytes :=
  let i := traceInfo l in
  ALI_LOG_URL ++ to_string (timeStamp l)
  ++ add_fields [(str "&v=", version i); (str "&d=", ownerId); (str "&k=", deviceType i);
                 (str "&y=", if traceId l =? TRACE_ID_ARRIVE then to_string (traceId l) else requestTypeStr); (str "&g=", sourceId)]
  ++ add_fields (zip tag_names (tags i))
  ++ add_fields [(str "&a=", sr_geoId r); (str "&b=", sr_bidPrice r); (str "&c=", sr_createId r); (str "&e=", sr_sid r);
                 (str "&r=", sr_requestId r); (str "&s=", sr_adxPid r); (str "&x=", sr_adxId r); (str "&o=", sr_pid r);
                 (str "&ep=", sr_ppId r); (str "&od=", sr_oId r); (str "&pt=", sr_priceType r); (str "&u=", userId l)].

(** ** The module *)

(** Whether the reads of the index and of the source end without an exception, the records a query
    by user finds in the table of a kind of device, and the answer to the report. *)
Record trace_answers := mkTraceAnswers {
  index_ok : bool; source_ok : bool; device_rows : bytes -> list (option bins); http_get : bytes -> bytes;
}.

Section trace.
Context `{UrlNames, SourceStore, RecordStore, CmConst}.

(** A record that is not there is an exception too. *)
Definition read_record (d : sstore) (ok : bool) (set k : bytes) : option as_record :=
  if ok then get_record d set k else None.

Definition find_source_id (d : sstore) (a : trace_answers) (userId ownerId : bytes) : bytes :=
  match read_record d (index_ok a) INDEX_SET (c_str (userId ++ ownerId)) with Some r => read_source_id r | None => [] end.

(** The first kind of device with a record of the user. *)
Fixpoint find_device (a : trace_answers) (kinds : list bytes) : option (bytes * bytes) :=
  match kinds with
  | [] => None
  | t :: kinds =>
    let temp := getUserDeviceMappingByBin (device_rows a t) in
    if negb (bool_decide (outerUserId temp = [])) || negb (bool_decide (outerUserOriginId temp = []))
    then Some (if bool_decide (outerUserOriginId temp = []) then outerUserId temp else outerUserOriginId temp, t)
    else find_device a kinds
  end.

(** The block for a request whose source id is known. *)
Definition load_source (d : sstore) (a : trace_answers) (l : LogItem) (requestTypeStr sourceId : bytes) : M SourceRecord :=
  let '(r, arrived) :=
    match read_record d (source_ok a) SOURCE_SET (c_str sourceId) with
    | Some rec => let r := read_source rec in
                  (r, bool_decide (requestTypeStr = str "6") && (timeStamp l - sr_time r <=? 10))
    | None => (source0, false)
    end in
  (if (arrived : bool) then put_log (set_traceId TRACE_ID_ARRIVE l) else mret tt);;
  (if bool_decide (requestTypeStr = str "14") && negb (bool_decide (sr_mtUid r = [])) then
     match find_device a deviceTypes with
     | Some (v, t) =>
       m ← gets params;
       put_params (<[URL_USER_OR_PRODUCT_NAME := t]> (<[URL_USER_OR_ORDER_ID := v]> m))
     | None => mret tt
     end
   else mret tt);;
  mret r.

Definition trace_customLogic (d : sstore) (a : trace_answers) : M unit :=
  l ← gets log;
  ownerId ← at_key (url_name URL_ADOWNER_ID);
  requestTypeStr ← at_key URL_REQUEST_TYPE;
  version ← at_key URL_VERSION;
  device ← at_key URL_DEVICE_TYPE;
  g ← at_key URL_SOURCE_ID;
  let sourceId := if bool_decide (g = []) then find_source_id d a (userId l) ownerId else g in
  put_log (set_traceId (number requestTypeStr) l);;
  r ← (if negb (bool_decide (sourceId = [])) then load_source d a l requestTypeStr sourceId else mret source0);
  fillLog r version device sourceId;;
  l ← gets log;
  let aliLogUrl := aliLog l r ownerId sourceId requestTypeStr in
  mod_resp (status 200 (str "OK"));;
  mod_resp (set_body (http_get a (c_str aliLogUrl))).

(** [HandleTraceTask] *)
Definition trace_ops `{TaskConst} (d : sstore) (a : trace_answers) : TaskOps :=
  mkOps TRACK 302 filterParamMapSafe (mret tt) (trace_customLogic d a).
End trace.

(** ** Properties *)

(** *** The run of the task *)

Section run.
Context `{UrlNames}.

(** A state whose parameters read as before. *)
Definition with_params' (m : ParamMap) (s : task_state) : task_state :=
  mkState m (log s) (resp s) (needLog s) (logs s) (trafficCalls s) (db s).

Definition pval (m : ParamMap) (k : bytes) : bytes := default [] (m !! k).

Lemma at_key_reads {B} k (f : bytes -> M B) s :
  exists m, same_values m (params s) /\ (at_key k ≫= f) s = f (pval (params s) k) (with_params' m s).
Proof.
  exists (touch k (params s)). split; [apply touch_same|]. by rewrite (run_bind _ _ _ _ _ (at_key_run k s)).
Qed.

Lemma at_keys_reads {B} ks (f : list bytes -> M B) s :
  exists m, same_values m (params s) /\ (at_keys ks ≫= f) s = f (pval (params s) <$> ks) (with_params' m s).
Proof.
  revert f s. induction ks as [|k ks IH]; intros f s.
  - exists (params s). split; [done|]. by destruct s.
  - destruct (IH (fun vs => f (pval (params s) k :: vs)) (with_params' (touch k (params s)) s)) as (m & Hm & E).
    exists m. split; [rewrite Hm; apply touch_same|].
    assert ((at_keys (k :: ks) ≫= f) s
      = (at_keys ks ≫= (fun vs => f (pval (params s) k :: vs))) (with_params' (touch k (params s)) s)) as ->.
    { unfold at_keys. cbn [mapM]. unfold mbind at 1 2, M_bind at 1 2. rewrite at_key_run. unfold mbind, M_bind.
      unfold with_params'. by destruct (mapM at_key ks _). }
    rewrite E. cbn [fmap list_fmap]. do 2 f_equal. apply map_ext. intros j. apply (touch_same k (params s) j).
Qed.

(** The log item with the report and the ad of its source; [None] when the area of the source
    cannot be read. *)
Definition filled (r : SourceRecord) (i : TraceInfo) (l : LogItem) : option LogItem :=
  let l := set_traceInfo i l in
  if sr_time r =? 0 then Some l
  else match extractAreaInfo (sr_geoId r) with
       | Val (country, province, city) => Some (set_geo (mkGeo country province city) (set_ad (source_ad r (adInfo l)) l))
       | _ => None
       end.

Definition with_log (l : LogItem) (s : task_state) : task_state :=
  mkState (params s) l (resp s) (needLog s) (logs s) (trafficCalls s) (db s).

Lemma extractAreaInfo_no_exc x e : extractAreaInfo x <> Exc e.
Proof.
  unfold extractAreaInfo. destruct (next_field_dashes (c_str x)) as [[_ ->]|(t & -> & _)]; cbn [mbind outcome_bind]; [done|].
  by destruct (next_field_dashes t) as [[_ ->]|(t' & -> & _)].
Qed.

Lemma fillLog_run r v k g s :
  exists m, same_values m (params s)
    /\ fillLog r v k g s = match filled r (mkTrace v k g (pval (params s) <$> URL_TAGS)) (log s) with
                           | Some l => RVal tt (with_log l (with_params' m s))
                           | None => RUndef
                           end.
Proof.
  unfold fillLog.
  match goal with |- context [at_keys URL_TAGS ≫= ?f] => destruct (at_keys_reads URL_TAGS f s) as (m & Hm & ->) end.
  exists m. split; [done|]. unfold filled. rewrite run_gets. cbn [with_params' log]. set (i := mkTrace _ _ _ _).
  unfold mbind at 1, M_bind at 1, put_log at 1. destruct (sr_time r =? 0); [done|].
  unfold mbind at 1, M_bind at 1, put_log at 1. cbn [areaId adInfo set_ad source_ad set_traceInfo].
  destruct (extractAreaInfo (sr_geoId r)) as [[[x y] z]|e|] eqn:E; [done|by apply extractAreaInfo_no_exc in E|done].
Qed.
End run.

Section trace_run.
Context `{UrlNames, SourceStore, RecordStore, CmConst}.

(** What the task works with. *)
Definition trace_source_id (d : sstore) (a : trace_answers) (s : task_state) : bytes :=
  let g := pval (params s) URL_SOURCE_ID in
  if bool_decide (g = []) then find_source_id d a (userId (log s)) (pval (params s) (url_name URL_ADOWNER_ID)) else g.

Definition trace_record (d : sstore) (a : trace_answers) (s : task_state) : option SourceRecord :=
  let id := trace_source_id d a s in
  if bool_decide (id = []) then None else read_source <$> read_record d (source_ok a) SOURCE_SET (c_str id).

Definition trace_source (d : sstore) (a : trace_answers) (s : task_state) : SourceRecord := default source0 (trace_record d a s).

(** A page view within ten seconds of its click is an arrival. *)
Definition trace_kind (d : sstore) (a : trace_answers) (s : task_state) : Z :=
  let y := pval (params s) URL_REQUEST_TYPE in
  match trace_record d a s with
  | Some r => if bool_decide (y = str "6") && (timeStamp (log s) - sr_time r <=? 10) then TRACE_ID_ARRIVE else number y
  | None => number y
  end.

Definition trace_device (d : sstore) (a : trace_answers) (s : task_state) : option (bytes * bytes) :=
  if bool_decide (pval (params s) URL_REQUEST_TYPE = str "14") && negb (bool_decide (sr_mtUid (trace_source d a s) = []))
  then find_device a deviceTypes else None.

Definition add_device (dev : option (bytes * bytes)) (m : ParamMap) : ParamMap :=
  match dev with Some (v, t) => <[URL_USER_OR_PRODUCT_NAME := t]> (<[URL_USER_OR_ORDER_ID := v]> m) | None => m end.

#[global] Instance add_device_proper dev : Proper (same_values ==> same_values) (add_device dev).
Proof.
  intros m m' E k. destruct dev as [[v t]|]; [|apply E]. cbn [add_device]. rewrite !lookup_insert.
  by repeat case_decide.
Qed.

#[global] Instance pval_proper : Proper (same_values ==> eq ==> eq) pval.
Proof. intros m m' E k ? <-. apply E. Qed.

Definition trace_info (d : sstore) (a : trace_answers) (s : task_state) : TraceInfo :=
  mkTrace (pval (params s) URL_VERSION) (pval (params s) URL_DEVICE_TYPE) (trace_source_id d a s)
    (pval (add_device (trace_device d a s) (params s)) <$> URL_TAGS).

Lemma pval_same m m' k : same_values m m' -> pval m k = pval m' k.
Proof. intros E. apply E. Qed.

Lemma tags_same m m' : same_values m m' -> pval m <$> URL_TAGS = pval m' <$> URL_TAGS.
Proof. intros E. apply map_ext. intros k. by rewrite E. Qed.

Definition trace_state (l : LogItem) (m : ParamMap) (s : task_state) : task_state :=
  mkState m l (resp s) (needLog s) (logs s) (trafficCalls s) (db s).

(** The source is found, and its device and kind are noted. *)
Lemma load_source_run d a s m :
  let id := trace_source_id d a s in
  (if negb (bool_decide (id = [])) then load_source d a (log s) (pval (params s) URL_REQUEST_TYPE) id else mret source0)
    (trace_state (set_traceId (number (pval (params s) URL_REQUEST_TYPE)) (log s)) m s)
  = RVal (trace_source d a s) (trace_state (set_traceId (trace_kind d a s) (log s)) (add_device (trace_device d a s) m) s).
Proof.
  intros id. unfold trace_source, trace_kind, trace_device, trace_source, trace_record. fold id.
  case_bool_decide; cbn [negb default]; [by rewrite andb_false_r|]. unfold load_source.
  destruct (read_record d (source_ok a) SOURCE_SET (c_str id)) as [rec|]; cbn [fmap option_fmap option_map default];
    [|by rewrite andb_false_r].
  destruct (bool_decide (pval (params s) URL_REQUEST_TYPE = str "6") && _);
    destruct (bool_decide (pval (params s) URL_REQUEST_TYPE = str "14") && _); try done;
    by destruct (find_device a deviceTypes) as [[v t]|].
Qed.

Lemma trace_run d a s :
  exists m,
    let text l := aliLog l (trace_source d a s) (pval (params s) (url_name URL_ADOWNER_ID)) (trace_source_id d a s)
                  (pval (params s) URL_REQUEST_TYPE) in
    trace_customLogic d a s
    = match filled (trace_source d a s) (trace_info d a s) (set_traceId (trace_kind d a s) (log s)) with
      | Some l => RVal tt (mkState m l (set_body (http_get a (c_str (text l))) (status 200 (str "OK") (resp s)))
                    (needLog s) (logs s) (trafficCalls s) (db s))
      | None => RUndef
      end.
Proof.
  unfold trace_customLogic. rewrite run_gets.
  do 5 match goal with |- context [(at_key ?k ≫= ?f) ?s0] =>
    let m := fresh "m" in let Hm := fresh "Hm" in destruct (at_key_reads k f s0) as (m & Hm & ->) end.
  cbn [with_params' params log] in Hm, Hm0, Hm1, Hm2, Hm3 |- *.
  assert (same_values m0 (params s)) as E0 by by rewrite Hm0, Hm. assert (same_values m1 (params s)) as E1 by by rewrite Hm1.
  assert (same_values m2 (params s)) as E2 by by rewrite Hm2. assert (same_values m3 (params s)) as E3 by by rewrite Hm3.
  rewrite !(pval_same _ _ _ Hm), !(pval_same _ _ _ E0), !(pval_same _ _ _ E1), !(pval_same _ _ _ E2). fold (trace_source_id d a s).
  unfold mbind at 1, M_bind at 1, put_log at 1. cbn [with_params' resp needLog logs trafficCalls db].
  rewrite (run_bind _ _ _ _ _ (load_source_run d a s m3)).
  match goal with |- context [fillLog ?r ?v ?k ?g] => destruct (fillLog_run r v k g
    (trace_state (set_traceId (trace_kind d a s) (log s)) (add_device (trace_device d a s) m3) s)) as (m' & _ & E) end.
  cbn [trace_state params log] in E. rewrite (tags_same _ (add_device (trace_device d a s) (params s))) in E by by rewrite E3.
  fold (trace_info d a s) in E. exists m'. unfold mbind at 1, M_bind at 1. rewrite E. by destruct (filled _ _ _).
Qed.
End trace_run.

(** *** From the click to the conversion *)

Section attribution.
Context `{UrlNames} `{SourceStoreLaws} `{RecordStore, CmConst}.

(** The source a click leaves; its impression id is lost. *)
Definition click_source (m : ParamMap) (l : LogItem) : SourceRecord :=
  let get k := c_str (default [] (m !! url_name k)) in
  mkSource (timeStamp l) (get URL_ADOWNER_ID) (get URL_EXEC_ID) (get URL_ADX_ID) (c_str (userId l)) (get URL_MTTYADPLACE_ID)
    (get URL_ADPLACE_ID) (get URL_EXPOSE_ID) (get URL_CREATIVE_ID) (get URL_AREA_ID) (get URL_REFERER) (get URL_BID_PRICE)
    (get URL_PRODUCTPACKAGE_ID) (get URL_ORDER_ID) (get URL_PRICE_TYPE) (get URL_SITE_ID) [].

Lemma read_source_click m l : read_source (source_record m l) = click_source m l.
Proof.
  assert (forall n v, (n, AsStr v) ∈ take SOURCE_BINS (source_bins m l) -> get_str (source_record m l) n = v) as Hs.
  { intros n v Hin. by apply get_str_present, source_record_lookup. }
  unfold read_source, click_source. f_equal.
  1:{ apply get_int64_present, source_record_lookup. left. }
  16:{ apply get_str_absent, source_record_overfull. }
  all: apply Hs; unfold source_bins, SOURCE_BINS; cbn [take]; repeat (left || right).
Qed.

(** The tables after a click whose source was stored. *)
Lemma click_tables ca l m d :
  source_stored ca l m = true -> put_source_ok ca = true ->
  get_record d SOURCE_SET (generateSourceId ca) = None ->
  (forall r, get_record d INDEX_SET (c_str (userId l ++ pval m (url_name URL_ADOWNER_ID))) = Some r -> r !! str "val" = None) ->
  let d' := apply_click d (source_ops ca l m) in
  get_record d' SOURCE_SET (generateSourceId ca) = Some (source_record (source_params ca l m) l)
  /\ exists r, get_record d' INDEX_SET (c_str (userId l ++ pval m (url_name URL_ADOWNER_ID))) = Some r
       /\ read_source_id r = generateSourceId ca.
Proof.
  intros Hst Hok Hfresh Hidx d'. unfold d', apply_click, source_ops. rewrite Hst, Hok. cbn [foldl apply_click_op].
  fold (pval m (url_name URL_ADOWNER_ID)). set (k := c_str _) in *. split.
  - rewrite get_put_ne by discriminate. rewrite get_put, Hfresh. cbn [default]. by rewrite map_union_empty.
  - rewrite get_put, get_put_ne by discriminate. eexists. split; [done|]. unfold read_source_id.
    rewrite get_int64_absent.
    + cbn [Z.eqb Pos.eqb negb]. apply get_str_present. by apply lookup_union_Some_l, lookup_singleton_eq.
    + apply lookup_union_None. split; [by apply lookup_singleton_ne|].
      destruct (get_record d INDEX_SET k) eqn:E; [by apply Hidx|apply lookup_empty].
Qed.
Lemma generateSourceId_no_nul ca : no_nul (generateSourceId ca).
Proof.
  unfold generateSourceId. destruct (counter ca) as [v|]; [|constructor]. destruct (v =? -1); [constructor|].
  unfold source_id_text, zfill, no_nul. apply Forall_app. split; [by apply Forall_replicate|].
  unfold hex_string. apply Forall_map. eapply Forall_impl; [apply digits_range; [lia|apply Z.mod_pos_bound; lia]|].
  intros c Hc. cbn beta in Hc. unfold hex_char. destruct (c <? 10); lia.
Qed.

(** What a conversion of the user and the advertiser finds after the click. *)
Lemma click_found ca l m d a s :
  source_stored ca l m = true -> put_source_ok ca = true ->
  get_record d SOURCE_SET (generateSourceId ca) = None ->
  (forall r, get_record d INDEX_SET (c_str (userId l ++ pval m (url_name URL_ADOWNER_ID))) = Some r -> r !! str "val" = None) ->
  index_ok a = true -> source_ok a = true -> userId (log s) = userId l ->
  pval (params s) (url_name URL_ADOWNER_ID) = pval m (url_name URL_ADOWNER_ID) -> pval (params s) URL_SOURCE_ID = [] ->
  let d' := apply_click d (source_ops ca l m) in
  trace_source_id d' a s = generateSourceId ca
  /\ trace_record d' a s = Some (click_source (source_params ca l m) l).
Proof.
  intros Hst Hok Hfresh Hidx Hio Hso Hu How Hg d'.
  destruct (click_tables ca l m d Hst Hok Hfresh Hidx) as (Hsrc & r & Hr & Hid). fold d' in Hsrc, Hr.
  assert (trace_source_id d' a s = generateSourceId ca) as Eid.
  { unfold trace_source_id. rewrite Hg, bool_decide_eq_true_2 by done. unfold find_source_id, read_record.
    by rewrite Hio, Hu, How, Hr. }
  split; [done|]. unfold trace_record. rewrite Eid, c_str_id by apply generateSourceId_no_nul.
  assert (generateSourceId ca <> []) as Hne.
  { unfold source_stored in Hst. intros E. rewrite E in Hst. cbn in Hst. by rewrite andb_false_r in Hst. }
  rewrite bool_decide_eq_false_2 by done. unfold read_record. rewrite Hso, Hsrc. cbn [fmap option_fmap option_map].
  by rewrite read_source_click.
Qed.
End attribution.

(** C23: A click is credited with what follows it: once the source and the index of a click are
    stored, a report of the same user for the same advertiser, without a source id of its own, is
    answered and logged with the source id, the advertiser, the solution, the banner, the exchange,
    the places, the site, the order, the product package, the price and the area of the click.  A
    page view is an arrival exactly when it is at most ten seconds after the click.  The impression
    id is lost, because the record of the click has no room for it. *)
Theorem click_then_trace `{UrlNames} `{SourceStoreLaws} `{RecordStore, CmConst} ca l m d a s x y z :
  let m' := source_params ca l m in
  let get k := c_str (pval m' (url_name k)) in
  source_stored ca l m = true -> put_source_ok ca = true ->
  get_record d SOURCE_SET (generateSourceId ca) = None ->
  (forall r, get_record d INDEX_SET (c_str (userId l ++ pval m (url_name URL_ADOWNER_ID))) = Some r -> r !! str "val" = None) ->
  index_ok a = true -> source_ok a = true -> userId (log s) = userId l ->
  pval (params s) (url_name URL_ADOWNER_ID) = pval m (url_name URL_ADOWNER_ID) -> pval (params s) URL_SOURCE_ID = [] ->
  timeStamp l <> 0 -> extractAreaInfo (pval m' (url_name URL_AREA_ID)) = Val (x, y, z) ->
  exists s', trace_customLogic (apply_click d (source_ops ca l m)) a s = RVal tt s' /\ respStatus (resp s') = 200
    /\ sourceid (traceInfo (log s')) = generateSourceId ca
    /\ adInfo (log s') = mkAd (get URL_AREA_ID) (number (get URL_ADOWNER_ID)) (cpid (adInfo (log s))) (number (get URL_EXEC_ID))
         (number (get URL_CREATIVE_ID)) (clickId (adInfo (log s))) (number (get URL_ADX_ID)) (number (get URL_SITE_ID))
         (get URL_MTTYADPLACE_ID) [] (landingUrl (adInfo (log s))) (get URL_ADPLACE_ID) (number (get URL_PRICE_TYPE))
         (number (get URL_PRODUCTPACKAGE_ID)) (number (get URL_ORDER_ID)) (set_bid (number (get URL_BID_PRICE)) (bill (adInfo (log s))))
         (select (adInfo (log s)))
    /\ geoInfo (log s') = mkGeo x y z
    /\ traceId (log s') = (let t := pval (params s) URL_REQUEST_TYPE in
         if bool_decide (t = str "6") && (timeStamp (log s) - timeStamp l <=? 10) then TRACE_ID_ARRIVE else number t).
Proof.
  intros m' get Hst Hok Hfresh Hidx Hio Hso Hu How Hg Ht Harea. set (d' := apply_click _ _).
  destruct (click_found ca l m d a s Hst Hok Hfresh Hidx Hio Hso Hu How Hg) as [Eid Erec]. fold d' in Eid, Erec.
  destruct (trace_run d' a s) as (mp & Erun). cbn zeta in Erun.
  assert (trace_source d' a s = click_source m' l) as Esrc by (unfold trace_source; by rewrite Erec).
  assert (extractAreaInfo (sr_geoId (click_source m' l)) = Val (x, y, z)) as Ea.
  { cbn [click_source sr_geoId]. rewrite <- Harea. unfold extractAreaInfo. by rewrite (c_str_id (c_str _)) by apply c_str_no_nul. }
  unfold filled in Erun. rewrite Esrc, Ea in Erun. cbn [sr_time click_source] in Erun.
  destruct (Z.eqb_spec (timeStamp l) 0); [done|]. eexists. split; [exact Erun|]. cbn [resp log]. split_and!; try done.
  - by rewrite status_body.
  - cbn [set_geo set_ad set_traceInfo set_traceId traceId]. unfold trace_kind. by rewrite Erec.
Qed.

(** The click without an area is stored with an empty one, which the conversion reads past its end. *)
Lemma click_without_area `{UrlNames} `{SourceStoreLaws} `{RecordStore, CmConst} ca l m d a s :
  source_stored ca l m = true -> put_source_ok ca = true ->
  get_record d SOURCE_SET (generateSourceId ca) = None ->
  (forall r, get_record d INDEX_SET (c_str (userId l ++ pval m (url_name URL_ADOWNER_ID))) = Some r -> r !! str "val" = None) ->
  index_ok a = true -> source_ok a = true -> userId (log s) = userId l ->
  pval (params s) (url_name URL_ADOWNER_ID) = pval m (url_name URL_ADOWNER_ID) -> pval (params s) URL_SOURCE_ID = [] ->
  timeStamp l <> 0 -> pval (source_params ca l m) (url_name URL_AREA_ID) = [] ->
  trace_customLogic (apply_click d (source_ops ca l m)) a s = RUndef.
Proof.
  intros Hst Hok Hfresh Hidx Hio Hso Hu How Hg Ht Harea. set (d' := apply_click _ _).
  destruct (click_found ca l m d a s Hst Hok Hfresh Hidx Hio Hso Hu How Hg) as [Eid Erec]. fold d' in Eid, Erec.
  destruct (trace_run d' a s) as (mp & Erun). cbn zeta in Erun. rewrite Erun. unfold filled, trace_source. rewrite Erec.
  unfold pval in Harea. cbn [default id click_source sr_time sr_geoId]. rewrite Harea.
  by destruct (Z.eqb_spec (timeStamp l) 0).
Qed.

(** Numbers that do not fit an [int] are lost. *)
Lemma large_id_lost : number (str "3000000000") = 0.
Proof. by vm_compute. Qed.

(** Every report is answered, whatever the database does: with a source whose area has its
    three parts, with one that cannot be read and with none, the task ends with status 200 and the
    answer of the log service to the report.  Without a source the ad of the log item is that of
    the query. *)
Theorem trace_answers_all `{UrlNames, SourceStore, RecordStore, CmConst} d a s :
  sr_time (trace_source d a s) = 0 \/ (2 <= dashes (c_str (sr_geoId (trace_source d a s))))%nat ->
  exists s', trace_customLogic d a s = RVal tt s'
    /\ resp s' = set_body (http_get a (c_str (aliLog (log s') (trace_source d a s) (pval (params s) (url_name URL_ADOWNER_ID))
         (trace_source_id d a s) (pval (params s) URL_REQUEST_TYPE)))) (status 200 (str "OK") (resp s))
    /\ traceInfo (log s') = trace_info d a s /\ traceId (log s') = trace_kind d a s
    /\ (trace_record d a s = None -> adInfo (log s') = adInfo (log s) /\ traceId (log s') = number (pval (params s) URL_REQUEST_TYPE)).
Proof.
  intros Hok. destruct (trace_run d a s) as (m & E). cbn zeta in E.
  assert (exists l, filled (trace_source d a s) (trace_info d a s) (set_traceId (trace_kind d a s) (log s)) = Some l
    /\ traceInfo l = trace_info d a s /\ traceId l = trace_kind d a s
    /\ (trace_record d a s = None -> adInfo l = adInfo (log s))) as (l & El & Hi & Ht & Ha).
  { unfold filled. destruct (Z.eqb_spec (sr_time (trace_source d a s)) 0) as [|Hne]; [by eexists|].
    destruct Hok as [|Hd]; [done|].
    destruct (extractAreaInfo (sr_geoId (trace_source d a s))) as [[[x y] z]|e|] eqn:Ea.
    - eexists. split_and!; [done..|]. intros Hn. exfalso. apply Hne. unfold trace_source. by rewrite Hn.
    - by apply extractAreaInfo_no_exc in Ea.
    - apply (extractAreaInfo_spec 0 0 0) in Ea; lia. }
  rewrite El in E. eexists. split; [exact E|]. cbn [resp log]. split; [done|].
  split_and!; [done|done|]. intros Hn. split; [by apply Ha|]. rewrite Ht. unfold trace_kind. by rewrite Hn.
Qed.

(** ** Instances *)

Module SourceInstance.
Import UrlHelper.Concrete.

#[local] Instance map_sources : SourceStore := {
  sstore := gmap (bytes * bytes) as_record;
  get_record d s k := d !! (s, k);
  put_record d s k r := <[(s, k) := r ∪ default ∅ (d !! (s, k))]> d;
  get_int64 r n def := match r !! n with Some (AsInt v) => v | _ => def end;
  get_str r n := match r !! n with Some (AsStr v) => v | _ => [] end;
}.

#[local] Instance map_sources_laws : SourceStoreLaws map_sources.
Proof.
  constructor; cbn; intros; try (by rewrite H).
  - by rewrite lookup_insert_eq.
  - by rewrite lookup_insert_ne.
Qed.

#[local] Instance trace_cm : CmConst := { DAY_SECOND := 86400 }.
#[local] Instance no_devices : RecordStore := {
  store := unit; contents _ _ _ := None; write d _ _ _ _ := d; refresh d _ _ _ := d; getStr b n := default [] (b !! n);
}.

Definition tracked_params : ParamMap :=
  {[url_name URL_ADOWNER_ID := str "12"; url_name URL_AREA_ID := str "1156-44-3"; url_name URL_EXEC_ID := str "31"]}.
Definition tracked_log : LogItem :=
  mkLog 1000 CLICK 302 1 [] [] (str "user") [] (mkGeo 0 0 0) ad0 0 0 [] 0 trace0 flow0.
Definition page_report : task_state :=
  mkState {[url_name URL_ADOWNER_ID := str "12"; URL_REQUEST_TYPE := str "6"]}
    (mkLog 1007 TRACK 302 1 [] [] (str "user") [] (mkGeo 0 0 0) ad0 0 0 [] 0 trace0 flow0)
    (mkResponse 302 [] ∅ [] [] false) true log_state0 [] [].
Definition all_fine : trace_answers := mkTraceAnswers true true (fun _ => []) (fun _ => str "gif").
Definition no_sources : sstore := ∅.

Lemma click_then_trace_witness :
  exists s', trace_customLogic (apply_click no_sources (source_ops answers tracked_log tracked_params)) all_fine page_report = RVal tt s'
    /\ traceId (log s') = TRACE_ID_ARRIVE /\ sid (adInfo (log s')) = 31 /\ geoInfo (log s') = mkGeo 1156 44 3.
Proof.
  destruct (click_then_trace answers tracked_log tracked_params no_sources all_fine page_report 1156 44 3)
    as (s' & E & _ & _ & Ha & Hg & Ht);
    [by vm_compute|reflexivity|reflexivity|discriminate|reflexivity|reflexivity|reflexivity|by vm_compute|by vm_compute|discriminate|by vm_compute|].
  exists s'. split; [exact E|]. split; [|split; [|exact Hg]].
  - rewrite Ht. by vm_compute.
  - rewrite Ha. by vm_compute.
Defined.

Lemma trace_answers_all_witness :
  exists s', trace_customLogic no_sources all_fine page_report = RVal tt s' /\ traceId (log s') = 6.
Proof.
  destruct (trace_answers_all no_sources all_fine page_report) as (s' & E & _ & _ & _ & H); [left; by vm_compute|].
  exists s'. split; [exact E|]. destruct H as [_ ->]; by vm_compute.
Defined.
End SourceInstance.
