(* ===== verification/BidUrl.v ===== *)
(** * BidUrl: the urls and texts of a bid (protocol/base/abstract_bidding_handler.cpp)

    A won bid returns a show and a click url whose parameters carry the ad through the browser to
    the impression and the click: [getShowPara] and [getClickPara] write them, the tasks of
    QueryTask.v read them.  The formats of the snippets, which are macros of mtty/constants.h, are
    the parameter [Snippets]: a function from the arguments of [snprintf] to the whole text. *)
From Stdlib Require Import SpecFloat.
From S2P Require Import Prelude CString UrlCodec UrlParams Cypher UrlHelper Rijndael RijndaelProofs SohuPrice.
From S2P Require Import LogPusher Double PriceDecode Pricing Http QueryTask ClickTask CookieMapping.

(** ** Small texts *)

(** [%02d] *)
Definition pad2 (n : Z) : bytes := if n <? 0 then to_string n else zfill 2 (to_string n).

(** The quotients are those of C. *)
Definition durationStr (duration : Z) : bytes :=
  pad2 (s32 (Z.quot duration 3600)) ++ str ":" ++ pad2 (s32 (Z.quot (Z.rem duration 3600) 60)) ++ str ":"
  ++ pad2 (s32 (Z.rem duration 60)).

Definition extractSize (size : bytes) : Z * Z :=
  let start := c_str size in
  match skip_while (fun c => negb (c =? ch "x")) start with
  | [] => (0, 0)
  | _ :: p => (atoi start, atoi p)
  end.

(** Two numbers of at most eleven characters always fit the buffer of 64. *)
Definition makeBidSize (width height : Z) : bytes := to_string width ++ str "x" ++ to_string height.

(** [p1] is the text from [p1] on, where a turn of the loop begins with [p2 = p1]. *)
Fixpoint extractRealValue_loop (fuel : nat) (p1 : bytes) (targetAdx : Z) : bytes :=
  match fuel with
  | O => str "0"
  | S fuel =>
    match skip_while (fun c => negb (c =? ch "|")) p1 with
    | [] => str "0"
    | _ :: p2 =>
      if atoi p1 =? targetAdx then take_while (fun c => negb (c =? ch "|")) p2
      else match skip_while (fun c => negb (c =? ch "|")) p2 with
           | [] => str "0"
           | _ :: p2 => extractRealValue_loop fuel p2 targetAdx
           end
    end
  end.

Definition extractRealValue (input : bytes) (targetAdx : Z) : bytes :=
  extractRealValue_loop (S (length (c_str input))) (c_str input) targetAdx.

(** ** The state of a handler *)

(** [adInfo], the fields of it that only the urls carry, [adFlowExtraInfo] and the user. *)
Record bid_info := mkBid {
  bid_ad : AdInfo; bid_cid : Z; bid_offerPrice : Z; bid_flowType : Z; deviceIds : ParamMap;
  feeRate : double; feerRateDetails : bytes; bid_user : MtUserMapping;
}.

Definition with_user (u : MtUserMapping) (b : bid_info) : bid_info :=
  mkBid (bid_ad b) (bid_cid b) (bid_offerPrice b) (bid_flowType b) (deviceIds b) (feeRate b) (feerRateDetails b) u.
Definition with_devices (d : ParamMap) (b : bid_info) : bid_info :=
  mkBid (bid_ad b) (bid_cid b) (bid_offerPrice b) (bid_flowType b) d (feeRate b) (feerRateDetails b) (bid_user b).

(** mtty/constants.h *)
Class Snippets := {
  SNIPPET_IFRAME : Z -> Z -> bytes -> bytes -> bytes -> bytes -> bytes;
  SNIPPET_IFRAME_SUPPORT_CM : Z -> Z -> bytes -> bytes -> bytes -> bytes -> bytes;
  SNIPPET_SCRIPT : Z -> Z -> bytes -> bytes -> bytes -> bytes -> bytes -> bytes -> bytes;
}.

(** [snprintf] into a buffer of [cap] bytes, and [std::string(buffer, buffer + len)] of it, where
    [len] is the length the text would need. *)
Definition printed (cap : nat) (text : bytes) : outcome bytes :=
  check (length text <=? cap)%nat;;
  Val (if (length text <? cap)%nat then text else take (cap - 1) text ++ [0]).

Section urls.
Context `{UrlNames, MapOrder, Base64, CryptoPP, UserIds, Snippets}.

Definition add_params (ps : list (bytes * bytes)) (h : URLHelper) : URLHelper :=
  foldl (fun h '(k, v) => UrlHelper.add k v h) h ps.

(** [adFlowExtraInfo.deviceIds[key]] *)
Definition device (b : bid_info) (k : url_key) : bytes := default [] (deviceIds b !! url_name k).
Definition device_keys : list url_key := [URL_DEVICE_IDFA; URL_DEVICE_IMEI; URL_DEVICE_ANDOROIDID; URL_DEVICE_MAC].
(** The entries that reading inserts. *)
Definition touch_devices (b : bid_info) : bid_info :=
  with_devices (foldl (fun m k => touch (url_name k) m) (deviceIds b) device_keys) b.

(** [tm] is [time(NULL)]. *)
Definition getShowPara (b : bid_info) (tm : Z) (showUrl : URLHelper) : bid_info * URLHelper :=
  let a := bid_ad b in
  let '(u, user) := cypherUid (bid_user b) in
  (touch_devices (with_user user b), add_params
    ([(str "a", areaId a); (str "b", encodePrice (bid_offerPrice b) false); (str "c", to_string (bannerId a));
      (str "d", to_string (advId a)); (str "e", to_string (sid a)); (str "s", adxpid a); (str "o", pid a);
      (str "x", to_string (adxid a)); (str "r", imp_id a); (str "u", u); (str "tm", to_string tm);
      (str "pt", to_string (priceType a)); (str "od", to_string (orderId a)); (str "ep", to_string (ppid a));
      (url_name URL_SITE_ID, to_string (mid a)); (url_name URL_CHANNEL, to_string (bid_cid b));
      (url_name URL_FLOWTYPE, to_string (bid_flowType b))]
     ++ map (fun k => (url_name k, device b k)) device_keys
     ++ [(url_name URL_FEE_RATE, to_string_double (feeRate b)); (url_name URL_FEE_RATE_STRS, feerRateDetails b)]) showUrl).

Definition getClickPara (b : bid_info) (ref landingUrl : bytes) (clickUrl : URLHelper) : outcome (bid_info * URLHelper) :=
  let a := bid_ad b in
  encodedLandingUrl ← urlEncode_f landingUrl 1024;
  encodedReferer ← (match ref with [] => Val [] | _ => urlEncode_f ref 1024 end);
  Val (touch_devices b, add_params
    ([(str "s", adxpid a); (str "o", pid a); (str "b", encodePrice (bid_offerPrice b) false);
      (str "x", to_string (adxid a)); (str "r", imp_id a); (str "d", to_string (advId a));
      (str "e", to_string (sid a)); (str "ep", to_string (ppid a)); (str "c", to_string (bannerId a));
      (str "f", encodedReferer); (str "h", str "000"); (str "a", areaId a); (str "u", cypherUserId (bid_user b));
      (str "pt", to_string (priceType a)); (str "od", to_string (orderId a)); (str "url", encodedLandingUrl);
      (url_name URL_SITE_ID, to_string (mid a)); (url_name URL_CHANNEL, to_string (bid_cid b))]
     ++ map (fun k => (url_name k, device b k)) device_keys
     ++ [(url_name URL_FEE_RATE, to_string_double (feeRate b)); (url_name URL_FEE_RATE_STRS, feerRateDetails b)]) clickUrl).

(** The show url of a snippet, with the parameters of the caller. *)
Definition snippet_params (b : bid_info) (tm : Z) (ext : bytes) : outcome (bid_info * bytes) :=
  let '(b, showUrlParam) := getShowPara b tm empty_helper in
  extParamMap ← getParamv2_str ∅ ext;
  '(text, _) ← cipherParam (add_params (enum extParamMap) showUrlParam);
  Val (b, c_str text).

Definition generateHtmlSnippet (b : bid_info) (tm width height : Z) (baseUrl extShowBuf cookieMappingUrl : bytes)
    : outcome (bid_info * bytes) :=
  '(b, params) ← snippet_params b tm extShowBuf;
  html ← printed 4096 (SNIPPET_IFRAME width height baseUrl [] params cookieMappingUrl);
  Val (b, html).

Definition generateScript (b : bid_info) (tm width height : Z) (scriptUrl clickMacro extParam : bytes)
    : outcome (bid_info * bytes) :=
  '(b, params) ← snippet_params b tm extParam;
  script ← printed 4096 (SNIPPET_SCRIPT width height scriptUrl params [] [] [] clickMacro);
  Val (b, script).
End urls.

(** ** Properties *)

(** *** Sizes and lists of values *)

Lemma take_skip_until (p : Z -> bool) s c t :
  Forall (fun x => p x = true) s -> p c = false ->
  take_while p (s ++ c :: t) = s /\ skip_while p (s ++ c :: t) = c :: t.
Proof.
  intros Hs Hc. induction Hs as [|x s Hx _ IH]; cbn [app take_while skip_while]; [by rewrite Hc|].
  rewrite Hx. destruct IH as [-> ->]. done.
Qed.

Lemma to_string_no_char n c : 0 <= n -> is_digit c = false -> c <> 45 -> Forall (fun x => negb (x =? c) = true) (to_string n).
Proof.
  intros Hn Hc H45. eapply Forall_impl; [by apply to_string_none|]. intros x Hx. by rewrite Hx.
Qed.

(** A size that was printed is read back. *)
Theorem extractSize_makeBidSize w h : 0 <= w < 2 ^ 31 -> 0 <= h < 2 ^ 31 -> extractSize (makeBidSize w h) = (w, h).
Proof.
  intros Hw Hh. unfold extractSize, makeBidSize. rewrite c_str_id.
  2:{ unfold no_nul. rewrite !Forall_app. split_and!; [apply to_string_no_nul; lia|by_decide|apply to_string_no_nul; lia]. }
  change (str "x" ++ to_string h) with (ch "x" :: to_string h).
  destruct (take_skip_until (fun c => negb (c =? ch "x")) (to_string w) (ch "x") (to_string h)) as [_ ->];
    [by apply to_string_no_char; [lia|..]|done|].
  f_equal; [by apply atoi_number|]. rewrite <- (app_nil_r (to_string h)). by apply atoi_number.
Qed.

(** A list of values by exchange. *)
Definition value_list (vs : list (Z * bytes)) : bytes :=
  flat_map (fun '(a, v) => to_string a ++ str "|" ++ v ++ str "|") vs.

Definition value_ok (av : Z * bytes) : Prop :=
  0 <= av.1 < 2 ^ 31 /\ Forall (fun c => c <> 0 /\ negb (c =? ch "|") = true) av.2.

Lemma value_list_cons a v vs : value_list ((a, v) :: vs) = to_string a ++ ch "|" :: v ++ ch "|" :: value_list vs.
Proof. unfold value_list. cbn [flat_map]. by rewrite <- !app_assoc. Qed.

Lemma value_list_no_nul vs : Forall value_ok vs -> no_nul (value_list vs).
Proof.
  induction 1 as [|[a v] vs [Ha Hv] Hvs IH]; [constructor|]. rewrite value_list_cons. cbn [fst snd] in *.
  unfold no_nul in *. rewrite Forall_app. split; [apply to_string_no_nul; lia|]. constructor; [done|].
  rewrite Forall_app. split; [eapply Forall_impl; [exact Hv|]; by intros ? [? _]|]. by constructor.
Qed.

Lemma extractRealValue_ok vs fuel target :
  Forall value_ok vs -> (length vs < fuel)%nat ->
  extractRealValue_loop fuel (value_list vs) target
  = match list_find (fun av => av.1 = target) vs with Some (_, (_, v)) => v | None => str "0" end.
Proof.
  intros Hvs. revert fuel. induction Hvs as [|[a v] vs [Ha Hv] Hvs IH]; intros fuel Hf; (destruct fuel as [|fuel]; [cbn in Hf; lia|]).
  - done.
  - cbn [fst snd] in *. cbn [extractRealValue_loop]. rewrite value_list_cons.
    destruct (take_skip_until (fun c => negb (c =? ch "|")) (to_string a) (ch "|") (v ++ ch "|" :: value_list vs)) as [_ ->];
      [by apply to_string_no_char; [lia|..]|done|].
    rewrite (atoi_number a) by done. cbn [list_find fst].
    destruct (take_skip_until (fun c => negb (c =? ch "|")) v (ch "|") (value_list vs)) as [-> ->];
      [eapply Forall_impl; [exact Hv|]; by intros ? [_ ?]|done|].
    destruct (Z.eqb_spec a target) as [->|Hne]; [by rewrite decide_True|]. rewrite decide_False by done.
    rewrite IH by (cbn in Hf; lia). by destruct (list_find _ vs) as [[? [? ?]]|].
Qed.

(** The value of an exchange in a list of values is the first that is given for it; without one it is [0]. *)
Theorem extractRealValue_spec vs target :
  Forall value_ok vs ->
  extractRealValue (value_list vs) target
  = match list_find (fun av => av.1 = target) vs with Some (_, (_, v)) => v | None => str "0" end.
Proof.
  intros Hvs. unfold extractRealValue. rewrite c_str_id by by apply value_list_no_nul. apply extractRealValue_ok; [done|].
  enough (length vs <= length (value_list vs))%nat by lia. clear. induction vs as [|[a v] vs IH]; [done|].
  rewrite value_list_cons, length_app. cbn [length]. rewrite length_app. cbn [length]. lia.
Qed.

(** *** From the show url to the impression *)

(** The names the writer uses are the constants the reader uses. *)
Class UrlLiterals (N : UrlNames) : Prop := {
  name_a : url_name URL_AREA_ID = str "a"; name_b : url_name URL_BID_PRICE = str "b";
  name_c : url_name URL_CREATIVE_ID = str "c"; name_d : url_name URL_ADOWNER_ID = str "d";
  name_e : url_name URL_EXEC_ID = str "e"; name_s : url_name URL_ADPLACE_ID = str "s";
  name_o : url_name URL_MTTYADPLACE_ID = str "o"; name_x : url_name URL_ADX_ID = str "x";
  name_r : url_name URL_EXPOSE_ID = str "r"; name_u : url_name URL_MTTY_UID = str "u";
  name_tm : url_name URL_TIMEM = str "tm"; name_pt : url_name URL_PRICE_TYPE = str "pt";
  name_od : url_name URL_ORDER_ID = str "od"; name_ep : url_name URL_PRODUCTPACKAGE_ID = str "ep";
}.

Section show_url.
Context `{Names : UrlNames} `{!UrlNamesLaws Names} `{!UrlLiterals Names} `{MapOrderLaws} `{Base64Laws} `{CryptoPP} `{UserIds} `{TaskConst}.

(** The parameters of a show url, by the names of the reader. *)
Definition show_fields (b : bid_info) (tm : Z) : list (url_key * bytes) :=
  let a := bid_ad b in
  [(URL_AREA_ID, areaId a); (URL_BID_PRICE, to_string (bid_offerPrice b)); (URL_CREATIVE_ID, to_string (bannerId a));
   (URL_ADOWNER_ID, to_string (advId a)); (URL_EXEC_ID, to_string (sid a)); (URL_ADPLACE_ID, adxpid a);
   (URL_MTTYADPLACE_ID, pid a); (URL_ADX_ID, to_string (adxid a)); (URL_EXPOSE_ID, imp_id a);
   (URL_MTTY_UID, fst (cypherUid (bid_user b))); (URL_TIMEM, to_string tm); (URL_PRICE_TYPE, to_string (priceType a));
   (URL_ORDER_ID, to_string (orderId a)); (URL_PRODUCTPACKAGE_ID, to_string (ppid a)); (URL_SITE_ID, to_string (mid a));
   (URL_CHANNEL, to_string (bid_cid b)); (URL_FLOWTYPE, to_string (bid_flowType b));
   (URL_DEVICE_IDFA, device b URL_DEVICE_IDFA); (URL_DEVICE_IMEI, device b URL_DEVICE_IMEI);
   (URL_DEVICE_ANDOROIDID, device b URL_DEVICE_ANDOROIDID); (URL_DEVICE_MAC, device b URL_DEVICE_MAC);
   (URL_FEE_RATE, to_string_double (feeRate b)); (URL_FEE_RATE_STRS, feerRateDetails b)].

Definition field (k : url_key) (fs : list (url_key * bytes)) : bytes :=
  match list_find (fun f => f.1 = k) fs with Some (_, (_, v)) => v | None => [] end.

Lemma getShowPara_fields b tm :
  snd (getShowPara b tm empty_helper) = add_params (map (fun '(k, v) => (url_name k, v)) (show_fields b tm)) empty_helper.
Proof.
  unfold getShowPara, show_fields. destruct (cypherUid (bid_user b)) as [u user] eqn:Eu. cbn [snd fst map device_keys app].
  by rewrite name_a, name_b, name_c, name_d, name_e, name_s, name_o, name_x, name_r, name_u, name_tm, name_pt, name_od, name_ep.
Qed.

Lemma add_params_lookup fs h k :
  NoDup fs.*1 ->
  paramMap (add_params (map (fun '(k, v) => (url_name k, v)) fs) h) !! url_name k
  = match list_find (fun f => f.1 = k) fs with Some (_, (_, v)) => Some v | None => paramMap h !! url_name k end.
Proof.
  unfold add_params. revert h. induction fs as [|[k' v'] fs IH]; intros h Hnd; [done|]. cbn [fmap list_fmap fst] in Hnd.
  apply NoDup_cons in Hnd as [Hni Hnd]. cbn [map foldl].
  rewrite IH by done. cbn [list_find fst]. destruct (decide (k' = k)) as [->|Hne].
  - assert (list_find (fun f => f.1 = k) fs = None) as ->.
    { apply list_find_None, Forall_forall. intros [k2 v2] Hin E. cbn in E. subst. apply Hni.
      apply list_elem_of_fmap. by exists (k, v2). }
    unfold UrlHelper.add, with_params. cbn [paramMap]. apply lookup_insert_eq.
  - destruct (list_find _ fs) as [[? [? ?]]|]; cbn [option_map prod_map]; [done|].
    unfold UrlHelper.add, with_params. cbn [paramMap]. apply lookup_insert_ne. intros E. by apply (inj url_name) in E.
Qed.

Lemma add_params_macros ps h : macroParamMap (add_params ps h) = macroParamMap h.
Proof. unfold add_params. revert h. induction ps as [|[k v] ps IH]; intros h; [done|]. cbn [foldl]. by rewrite IH. Qed.

(** The keys of the table, with their types. *)
Definition typed (k : url_key) (t : PARAM_TYPE) : Prop := (url_name k, t) ∈ paramBindingTable.

Lemma recovered_lookup h k t :
  typed k t -> macroParamMap h !! url_name k = None -> (forall k, url_name k <> MACRO_HOLDER) ->
  recovered h !! url_name k = normal t (default [] (paramMap h !! url_name k)).
Proof.
  intros Ht Hm Hh. unfold recovered. rewrite lookup_union, restore_lookup, lookup_empty by apply table_names_NoDup.
  assert (checked_macros h !! url_name k = None) as ->.
  { unfold checked_macros. by rewrite lookup_insert_ne by (intros E; by apply (Hh k)). }
  rewrite (right_id_L None (∪)).
  assert (exists i, list_find (fun e => e.1 = url_name k) paramBindingTable = Some (i, (url_name k, t))) as [i ->]; [|done].
  destruct (list_find_elem_of (fun e => e.1 = url_name k) paramBindingTable (url_name k, t)) as [[i [n t']] E]; [done|done|].
  exists i. rewrite E. apply list_find_Some in E as (E1 & E2 & _). cbn in E2. subst n. do 3 f_equal.
  pose proof table_names_NoDup as Hnd. apply list_elem_of_lookup in Ht as [j Ej].
  assert (i = j) as ->; [|congruence].
  eapply NoDup_lookup; [exact Hnd| |]; rewrite list_lookup_fmap; [by rewrite E1|by rewrite Ej].
Qed.

Lemma macro_text_check h :
  macroParamMap h = ∅ -> Forall (fun c => c <> 0 /\ c <> ch "&") (macro_text (enum (checked_macros h))).
Proof.
  intros Hm. unfold checked_macros. rewrite Hm.
  assert (enum (<[MACRO_HOLDER := hex_string (check_word h)]> ∅) = [(MACRO_HOLDER, hex_string (check_word h))]) as ->.
  { apply Permutation_singleton_r. rewrite enum_perm. by rewrite (map_to_list_insert ∅), map_to_list_empty by apply lookup_empty. }
  unfold macro_text. cbn [flat_map]. rewrite app_nil_r, !Forall_app. split_and!; [by_decide|by_decide|by_decide|].
  unfold hex_string. apply Forall_map. eapply Forall_impl; [apply digits_range; [lia|apply check_word_nonneg]|].
  intros d Hd. cbn beta in Hd. unfold hex_char. change (ch "&") with 38. destruct (d <? 10); split; lia.
Qed.

(** *** Reading a parameter *)

Lemma normal_int n : 0 <= n < 2 ^ 63 -> normal PARAM_INT (to_string n) = if n =? 0 then None else Some (to_string n).
Proof.
  intros Hn. unfold normal, int_value. destruct (to_string n) as [|c t] eqn:E; [by apply to_string_ne in E|]. rewrite <- E.
  unfold stringToInt, stol. rewrite sto_to_string by (unfold LONG_MIN, LONG_MAX; lia). done.
Qed.

Lemma to_int_to_string n : 0 <= n < 2 ^ 63 -> to_int (to_string n) = n.
Proof. intros Hn. unfold to_int, stringToInt, stol. by rewrite sto_to_string by (unfold LONG_MIN, LONG_MAX; lia). Qed.

Lemma int64_field m k n : 0 <= n < 2 ^ 63 -> m !! url_name k = normal PARAM_INT (to_string n) -> int64_param m k 0 = n.
Proof.
  intros Hn E. unfold int64_param, param. rewrite E, normal_int by done.
  destruct (Z.eqb_spec n 0) as [->|]; [done|]. by apply to_int_to_string.
Qed.

Lemma int32_field m k n : 0 <= n < 2 ^ 31 -> m !! url_name k = normal PARAM_INT (to_string n) -> int32_param m k 0 = n.
Proof.
  intros Hn E. unfold int32_param, param. rewrite E, normal_int by lia.
  destruct (Z.eqb_spec n 0) as [->|]; [done|]. rewrite to_int_to_string by lia. apply swrap_small; lia.
Qed.

Lemma text_field m k v : m !! url_name k = normal PARAM_STRING v -> text_param m k [] = v.
Proof. intros E. unfold text_param, param. rewrite E. by destruct v. Qed.

Lemma absent_field {A : Type} m k (f : bytes -> A) old : m !! url_name k = normal PARAM_STRING [] -> param m k f old = old.
Proof. intros E. unfold param. by rewrite E. Qed.

(** A parameter that is shorter than the limit passes the filter. *)
Lemma filter_short m k v :
  m !! k = Some v -> (length v <= URL_LONG_INPUT_PARAMETER)%nat -> filterParamMapSafe m !! k = Some v.
Proof.
  intros E Hl. unfold filterParamMapSafe. rewrite lookup_fmap, E. cbn. unfold stringSafeInput.
  destruct (Nat.ltb_spec URL_LONG_INPUT_PARAMETER (length v)); [lia|done].
Qed.

Lemma filter_none m k : m !! k = None -> filterParamMapSafe m !! k = None.
Proof. intros E. unfold filterParamMapSafe. by rewrite lookup_fmap, E. Qed.
End show_url.

Ltac typed_tac := unfold typed, paramBindingTable; cbn [map]; repeat (apply elem_of_cons; first [left; reflexivity|right]).

(** *** The impression *)

(** The parameters that the handlers add to those of a show url: the price and the kind of the
    impression, and further the address and the deal. *)
Definition price_keys : list url_key := [URL_EXCHANGE_PRICE; URL_IMP_OF].
Definition overlay : list url_key := [URL_EXCHANGE_PRICE; URL_IMP_OF; URL_IP; URL_DEAL_ID].

Lemma not_overlaid (ks : list url_key) k : ks ⊆ overlay -> k ∉ overlay -> k ∉ ks.
Proof. intros Hs Hk Hin. by apply Hk, Hs. Qed.

Lemma price_keys_overlay : price_keys ⊆ overlay.
Proof. by_decide. Qed.

(** The side conditions of reading a parameter. *)
Ltac elem_tac := cbv [show_fields]; repeat (apply elem_of_cons; first [left; reflexivity|right]).
Ltac read_tac :=
  match goal with
  | |- typed _ _ => typed_tac
  | |- _ ∈ show_fields _ _ => elem_tac
  | |- field _ _ = [] => reflexivity
  | |- _ ∉ price_keys => by_decide
  | H : ?e ⊆ overlay |- _ ∉ ?e => apply (not_overlaid _ _ H); by_decide
  | |- _ => (assumption || lia)
  end.

(** The log item names the ad of the bid. *)
Definition same_ad (a a' : AdInfo) : Prop :=
  areaId a = areaId a' /\ advId a = advId a' /\ cpid a = advId a' /\ sid a = sid a' /\ bannerId a = bannerId a'
  /\ adxid a = adxid a' /\ mid a = mid a' /\ pid a = pid a' /\ imp_id a = imp_id a' /\ adxpid a = adxpid a'
  /\ priceType a = priceType a' /\ orderId a = orderId a'.

(** The numbers of a bid fit their types and are not negative, and it names its place and area. *)
Record bid_ok (b : bid_info) : Prop := {
  ok_ids : Forall (fun n => 0 <= n < 2 ^ 63) [advId (bid_ad b); sid (bid_ad b); bannerId (bid_ad b); mid (bid_ad b); orderId (bid_ad b)];
  ok_small : Forall (fun n => 0 <= n < 2 ^ 31) [adxid (bid_ad b); priceType (bid_ad b); bid_offerPrice b; ppid (bid_ad b)];
  ok_place : pid (bid_ad b) <> [] /\ areaId (bid_ad b) <> [];
}.

(** Everything [parse_ids] reads of the show url. *)
Record reads_ad `{UrlNames} (a : AdInfo) (m : ParamMap) : Prop := {
  r_landing : m !! url_name URL_LANDING_URL = normal PARAM_STRING [];
  r_referer : m !! url_name URL_REFERER = normal PARAM_STRING [];
  r_area : m !! url_name URL_AREA_ID = normal PARAM_STRING (areaId a);
  r_place : m !! url_name URL_MTTYADPLACE_ID = normal PARAM_STRING (pid a);
  r_imp : m !! url_name URL_EXPOSE_ID = normal PARAM_STRING (imp_id a);
  r_adxpid : m !! url_name URL_ADPLACE_ID = normal PARAM_STRING (adxpid a);
  r_adv : m !! url_name URL_ADOWNER_ID = normal PARAM_INT (to_string (advId a));
  r_sid : m !! url_name URL_EXEC_ID = normal PARAM_INT (to_string (sid a));
  r_banner : m !! url_name URL_CREATIVE_ID = normal PARAM_INT (to_string (bannerId a));
  r_adx : m !! url_name URL_ADX_ID = normal PARAM_INT (to_string (adxid a));
  r_site : m !! url_name URL_SITE_ID = normal PARAM_INT (to_string (mid a));
  r_type : m !! url_name URL_PRICE_TYPE = normal PARAM_INT (to_string (priceType a));
  r_order : m !! url_name URL_ORDER_ID = normal PARAM_INT (to_string (orderId a));
}.

Section reading.
Context `{Names : UrlNames} `{!UrlNamesLaws Names} `{!UrlLiterals Names} `{MapOrderLaws} `{Base64Laws}.
Context `{CryptoPP} `{Aes} `{UserIds} `{TaskConst} (b : bid_info) (tm : Z).

(** Parameters that carry those of a show url, and may carry others under the keys [ks]. *)
Definition carries_bid (ks : list url_key) (m : ParamMap) : Prop :=
  forall k t, typed k t -> k ∉ ks -> m !! url_name k = normal t (field k (show_fields b tm)).

Context (ks : list url_key) (m : ParamMap) (Hm : carries_bid ks m) (Hshort : Forall (fun f => (length f.2 <= URL_LONG_INPUT_PARAMETER)%nat) (show_fields b tm)).

Lemma show_fields_NoDup : NoDup (show_fields b tm).*1.
Proof. cbn. by_decide. Qed.

Lemma field_short k : (length (field k (show_fields b tm)) <= URL_LONG_INPUT_PARAMETER)%nat.
Proof.
  unfold field. destruct (list_find _ _) as [[i [k' v]]|] eqn:E; [|cbn; lia].
  apply list_find_Some in E as (E & _). by apply (Forall_lookup_1 _ _ _ _ Hshort) in E.
Qed.

Lemma field_elem k v : (k, v) ∈ show_fields b tm -> field k (show_fields b tm) = v.
Proof.
  intros Hin. unfold field. destruct (list_find_elem_of (fun f => f.1 = k) (show_fields b tm) (k, v)) as [[i [k' v']] E]; [done|done|].
  rewrite E. apply list_find_Some in E as (E1 & E2 & _). cbn in E2. subst k'.
  apply list_elem_of_lookup in Hin as [j Ej]. assert (i = j) as ->; [|congruence].
  eapply NoDup_lookup; [exact show_fields_NoDup| |]; rewrite list_lookup_fmap; [by rewrite E1|by rewrite Ej].
Qed.

(** What the task reads under a name. *)
Lemma shown_field_text k :
  typed k PARAM_STRING -> k ∉ ks ->
  filterParamMapSafe m !! url_name k = normal PARAM_STRING (field k (show_fields b tm)).
Proof.
  intros Ht Hk. pose proof (Hm k _ Ht Hk) as E.
  pose proof (field_short k) as Hl. destruct (field k (show_fields b tm)) as [|c v]; [by apply filter_none|].
  by apply filter_short.
Qed.

Lemma shown_text k v :
  typed k PARAM_STRING -> (k, v) ∈ show_fields b tm -> k ∉ ks ->
  filterParamMapSafe m !! url_name k = normal PARAM_STRING v.
Proof. intros Ht Hin Hk. rewrite shown_field_text by done. by rewrite (field_elem _ _ Hin). Qed.

Lemma shown_missing k t :
  typed k t -> field k (show_fields b tm) = [] -> k ∉ ks -> filterParamMapSafe m !! url_name k = None.
Proof. intros Ht Hf Hk. apply filter_none. rewrite (Hm k t Ht Hk), Hf. by destruct t. Qed.

Lemma shown_absent k :
  typed k PARAM_STRING -> field k (show_fields b tm) = [] -> k ∉ ks ->
  filterParamMapSafe m !! url_name k = normal PARAM_STRING [].
Proof. apply shown_missing. Qed.

Lemma shown_int k n :
  typed k PARAM_INT -> (k, to_string n) ∈ show_fields b tm -> 0 <= n < 2 ^ 63 -> k ∉ ks ->
  filterParamMapSafe m !! url_name k = normal PARAM_INT (to_string n).
Proof.
  intros Ht Hin Hr Hk. pose proof (field_elem _ _ Hin) as Hf. pose proof (Hm k _ Ht Hk) as E. rewrite Hf in E.
  pose proof (field_short k) as Hl. rewrite Hf in Hl. rewrite normal_int in * by done.
  destruct (n =? 0); [by apply filter_none|by apply filter_short].
Qed.

Lemma shown_reads : ks ⊆ overlay -> bid_ok b -> reads_ad (bid_ad b) (filterParamMapSafe m).
Proof.
  intros Hks [Hids Hsmall _]. repeat (rewrite Forall_cons in Hids). repeat (rewrite Forall_cons in Hsmall).
  destruct Hids as (I1 & I2 & I3 & I4 & I5 & _), Hsmall as (S1 & S2 & S3 & S4 & _).
  constructor; first [apply shown_absent; read_tac | apply shown_text; read_tac | apply shown_int; read_tac].
Qed.

Lemma reads_ids fm (l : LogItem) x y z :
  bid_ok b -> reads_ad (bid_ad b) fm -> extractAreaInfo (areaId (bid_ad b)) = Val (x, y, z) -> adInfo l = ad0 ->
  exists l', parse_ids fm l = Val l' /\ same_ad (adInfo l') (bid_ad b)
    /\ geoInfo l' = mkGeo x y z /\ logType l' = logType l /\ ppid (adInfo l') = 0 /\ bill (adInfo l') = bill (adInfo l).
Proof.
  intros [Hids Hsmall [Hpid Harea]] R Hext Hl. unfold parse_ids. rewrite Hl.
  repeat (rewrite Forall_cons in Hids). repeat (rewrite Forall_cons in Hsmall).
  destruct Hids as (I1 & I2 & I3 & I4 & I5 & _), Hsmall as (S1 & S2 & S3 & S4 & _), R.
  rewrite (absent_field _ URL_LANDING_URL) by done. cbn [mbind outcome_bind].
  rewrite (absent_field _ URL_REFERER) by done. cbn [mbind outcome_bind].
  assert (forall (A : Type) (f : bytes -> A) old, param fm URL_AREA_ID f old = f (areaId (bid_ad b))) as Ep.
  { intros. unfold param. rewrite r_area0. by destruct (areaId (bid_ad b)). }
  rewrite Ep, Hext. cbn [mbind outcome_bind].
  eexists. split; [reflexivity|]. cbn [adInfo geoInfo logType ppid bill ad0]. split; [|by split_and!].
  unfold same_ad. cbn [areaId advId cpid sid bannerId adxid mid pid imp_id adxpid priceType orderId ad0].
  rewrite (int64_field fm URL_ADOWNER_ID (advId (bid_ad b))) by done.
  split_and!; try (by apply text_field); try (by apply int64_field); try (by apply int32_field); [done| |].
  - unfold param. rewrite r_adv0, normal_int by done. by destruct (Z.eqb_spec (advId (bid_ad b)) 0).
  - unfold text_param, param at 1. rewrite r_place0. by destruct (pid (bid_ad b)).
Qed.

Lemma shown_offer : ks ⊆ overlay -> bid_ok b ->
  param (filterParamMapSafe m) URL_BID_PRICE (fun v => decodeOfferPrice v false) (Val 0) = Val (bid_offerPrice b).
Proof.
  intros Hks [_ Hsmall _]. repeat (rewrite Forall_cons in Hsmall). destruct Hsmall as (_ & _ & S3 & _).
  unfold param. rewrite (shown_int URL_BID_PRICE (bid_offerPrice b)) by read_tac. rewrite normal_int by lia.
  destruct (Z.eqb_spec (bid_offerPrice b) 0) as [->|]; [done|]. unfold decodeOfferPrice. unfold stoi.
  rewrite sto_to_string by (unfold INT_MIN, INT_MAX; lia). cbn [mbind outcome_bind try_std].
  destruct (Z.ltb_spec (bid_offerPrice b) 0); [lia|done].
Qed.
End reading.

Section impression.
Context `{Names : UrlNames} `{!UrlNamesLaws Names} `{!UrlLiterals Names} `{MapOrderLaws} `{Base64Laws}.
Context `{CryptoPP} `{Aes} `{UserIds} `{TaskConst} (b : bid_info) (tm : Z) (price : option bytes).

Definition show_url : URLHelper := snd (getShowPara b tm empty_helper).
Definition shown : ParamMap := <[url_name URL_EXCHANGE_PRICE := default [] price]> (recovered show_url).

Context (Hc : cipherable show_url) (Hn : url_name URL_EXCHANGE_PRICE <> ENCODE_HOLDER) (Hp : price_ok show_url price).

Lemma show_url_macros : macroParamMap show_url = ∅.
Proof. unfold show_url. by rewrite getShowPara_fields, add_params_macros. Qed.

Lemma show_url_lookup k : default [] (paramMap show_url !! url_name k) = field k (show_fields b tm).
Proof.
  unfold show_url, field. rewrite getShowPara_fields, add_params_lookup by apply show_fields_NoDup.
  destruct (list_find _ _) as [[? [? ?]]|]; [done|]. cbn [empty_helper paramMap]. by rewrite lookup_empty.
Qed.

Lemma recovered_show k t : typed k t -> recovered show_url !! url_name k = normal t (field k (show_fields b tm)).
Proof.
  intros Ht. rewrite (recovered_lookup _ _ _ Ht); [by rewrite show_url_lookup|by rewrite show_url_macros|exact (c_holder _ Hc)].
Qed.

Lemma show_query : query_params SHOW (cipher_text show_url ++ price_tail price) = Val shown.
Proof.
  rewrite (query_params_cipher SHOW show_url price Hc Hn (macro_text_check _ show_url_macros) Hp).
  rewrite (recovered_show URL_EXCHANGE_PRICE PARAM_STRING) by typed_tac.
  change (normal PARAM_STRING (field URL_EXCHANGE_PRICE (show_fields b tm))) with (@None bytes).
  rewrite !bool_decide_eq_true_2 by reflexivity. cbn [andb].
  unfold shown. reflexivity.
Qed.

Lemma shown_carries : carries_bid b tm price_keys shown.
Proof.
  intros k t Ht Hk. unfold shown. rewrite lookup_insert_ne by (intros E; apply (inj url_name) in E; subst k; by apply Hk; by_decide). by apply recovered_show.
Qed.

Lemma shown_price : (length (default [] price) <= URL_LONG_INPUT_PARAMETER)%nat ->
  filterParamMapSafe shown !! url_name URL_EXCHANGE_PRICE = Some (default [] price).
Proof. intros Hl. apply filter_short; [apply lookup_insert_eq|done]. Qed.

End impression.

(** *** Macros the exchange fills in *)

(** The traversal of a map does not depend on the value of a key. *)
Definition order_by_keys `{MapOrder} (k v v' : bytes) (m : ParamMap) : Prop :=
  enum (<[k := v']> m) = map (fun kv => if decide (kv.1 = k) then (k, v') else kv) (enum (<[k := v]> m)).

Lemma macro_text_app l1 l2 : macro_text (l1 ++ l2) = macro_text l1 ++ macro_text l2.
Proof. unfold macro_text. apply flat_map_app. Qed.

Lemma map_other (k v' : bytes) (l : list (bytes * bytes)) :
  k ∉ l.*1 -> map (fun kv => if decide (kv.1 = k) then (k, v') else kv) l = l.
Proof.
  induction l as [|[a b] l IH]; [done|]. cbn [fmap list_fmap fst map]. intros [Hk Hl]%not_elem_of_cons.
  rewrite decide_False by (cbn; congruence). f_equal. auto.
Qed.

(** The text of a map with another value of a key is that of the map with the value replaced. *)
Lemma macro_text_replaced `{MapOrderLaws} k v v' m :
  order_by_keys k v v' m ->
  exists A B, macro_text (enum (<[k := v]> m)) = A ++ v ++ B /\ macro_text (enum (<[k := v']> m)) = A ++ v' ++ B.
Proof.
  intros Ho. assert ((k, v) ∈ enum (<[k := v]> m)) as Hin.
  { rewrite enum_perm. apply elem_of_map_to_list, lookup_insert_eq. }
  assert (NoDup (enum (<[k := v]> m)).*1) as Hnd by (rewrite enum_perm; apply NoDup_fst_map_to_list).
  rewrite Ho. apply list_elem_of_split in Hin as (l1 & l2 & E). rewrite E in *.
  rewrite fmap_app, NoDup_app in Hnd. destruct Hnd as (_ & Hd & Hnd). cbn [fmap list_fmap fst] in Hd, Hnd.
  apply NoDup_cons in Hnd as [Hk2 _].
  assert (k ∉ l1.*1) as Hk1 by (intros Hk; apply (Hd k Hk); apply elem_of_cons; by left).
  rewrite map_app. cbn [map fst]. rewrite decide_True by done. rewrite !map_other by done.
  exists (macro_text l1 ++ str "%7c" ++ k ++ str "%7c"), (macro_text l2).
  assert (forall x, macro_text (l1 ++ (k, x) :: l2) = macro_text l1 ++ (str "%7c" ++ k ++ str "%7c" ++ x) ++ macro_text l2) as Et
    by (intros x; by rewrite macro_text_app).
  rewrite !Et, <- !app_assoc. done.
Qed.

Section filled.
Context `{Names : UrlNames} `{!UrlNamesLaws Names} `{MapOrderLaws} `{Base64Laws}.

(** The text of a url whose macro the exchange filled in is that of the url with the value itself. *)
Lemma cipherParam_macro h k macro value :
  cipherable (addMacro k value h) -> (length (cipher_text (addMacro k macro h)) < 2048)%nat -> k <> MACRO_HOLDER ->
  order_by_keys k macro value (<[MACRO_HOLDER := hex_string (check_word h)]> (macroParamMap h)) ->
  exists pre post h', cipherParam (addMacro k macro h) = Val (pre ++ macro ++ post, h') /\ cipher_text (addMacro k value h) = pre ++ value ++ post
    /\ cipher_text (addMacro k macro h) = pre ++ macro ++ post.
Proof.
  intros Hc Hq Hk Ho. destruct (macro_text_replaced _ _ _ _ Ho) as (pre & post & EA & EB).
  assert (forall v, checked_macros (addMacro k v h) = <[k := v]> (<[MACRO_HOLDER := hex_string (check_word h)]> (macroParamMap h))) as Em.
  { intros v. unfold checked_macros, addMacro. unfold check_word. cbn [with_macros macroParamMap paramMap].
    by apply insert_insert_ne, not_eq_sym. }
  assert (forall v, serialized (addMacro k v h) = serialized h) as Es by done.
  exists (ENCODE_HOLDER ++ str "=" ++ flat_map encode_f_char (b64_encode (serialized h)) ++ pre), (post ++ str "%7c"),
    (with_macros (checked_macros (addMacro k macro h)) (addMacro k macro h)).
  pose proof (b64_ok _ Hc) as Hb64. split.
  - unfold cipherParam. rewrite urlParamSerialize_ok by exact (c_buffer _ Hc). cbn [mbind outcome_bind].
    unfold base64encode. cbn [app]. unfold urlEncode_f. rewrite urlEncode_f_loop_ok.
    + cbn [mbind outcome_bind macroParamMap with_macros]. rewrite Em, EA. by rewrite <- !app_assoc.
    + eapply Forall_impl; [exact Hb64|]. naive_solver.
    + unfold cipher_text in Hq. rewrite !length_app in Hq. simpl. lia.
  - unfold cipher_text. rewrite !Em, EA, EB. by rewrite <- !app_assoc.
Qed.
End filled.

Section monitor.
Context `{Names : UrlNames} `{!UrlNamesLaws Names} `{!UrlLiterals Names} `{MapOrderLaws} `{Base64Laws}.
Context `{CryptoPP} `{Aes} `{UserIds} `{TaskConst} (b : bid_info) (tm : Z) (kind price : bytes).

(** A url that reports an impression of a kind, with the price in place of the macro of the exchange. *)
Definition monitor_url : URLHelper :=
  addMacro (url_name URL_EXCHANGE_PRICE) price (UrlHelper.add (url_name URL_IMP_OF) kind (show_url b tm)).

Context (Hc : cipherable monitor_url) (Hn : url_name URL_EXCHANGE_PRICE <> ENCODE_HOLDER).

Lemma monitor_macros : macroParamMap monitor_url = {[url_name URL_EXCHANGE_PRICE := price]}.
Proof. unfold monitor_url, addMacro, UrlHelper.add. cbn [with_macros with_params macroParamMap]. by rewrite show_url_macros. Qed.

Lemma monitor_lookup k : k <> URL_IMP_OF -> paramMap monitor_url !! url_name k = paramMap (show_url b tm) !! url_name k.
Proof.
  intros Hk. unfold monitor_url, addMacro, UrlHelper.add. cbn [with_macros with_params paramMap].
  apply lookup_insert_ne. intros E. by apply (inj url_name) in E.
Qed.

Lemma monitor_carries : carries_bid b tm price_keys (recovered monitor_url).
Proof.
  intros k t Ht Hk. assert (k <> URL_EXCHANGE_PRICE /\ k <> URL_IMP_OF) as [Hp Hi] by (split; intros ->; by apply Hk; by_decide).
  rewrite (recovered_lookup _ _ _ Ht); [|rewrite monitor_macros|exact (c_holder _ Hc)].
  - by rewrite monitor_lookup, show_url_lookup.
  - apply lookup_singleton_ne. intros E. by apply (inj url_name) in E.
Qed.

Lemma monitor_price : recovered monitor_url !! url_name URL_EXCHANGE_PRICE = Some price.
Proof.
  unfold recovered. rewrite lookup_union, restore_lookup, lookup_empty by apply table_names_NoDup.
  assert (checked_macros monitor_url !! url_name URL_EXCHANGE_PRICE = Some price) as ->.
  { unfold checked_macros. rewrite lookup_insert_ne by (intros E; by apply (c_holder _ Hc URL_EXCHANGE_PRICE)).
    rewrite monitor_macros. apply lookup_singleton_eq. }
  destruct (list_find _ paramBindingTable) as [[i [n t]]|] eqn:E; [|done].
  apply list_find_Some in E as (_ & En & _). cbn in En. subst n.
  rewrite monitor_lookup, show_url_lookup by discriminate. by destruct t.
Qed.

Lemma monitor_query :
  Forall (fun c => c <> 0 /\ c <> ch "&") (macro_text (enum (checked_macros monitor_url))) ->
  query_params SHOW (cipher_text monitor_url) = Val (recovered monitor_url).
Proof.
  intros Hm. rewrite <- (app_nil_r (cipher_text monitor_url)). change [] with (price_tail None).
  rewrite (query_params_cipher SHOW monitor_url None Hc Hn Hm).
  - by rewrite monitor_price.
  - split; [by apply plain_tail_nil|done].
Qed.
End monitor.

(** The ad of a won bid reaches the log of its impression: the parameters [getShowPara]
    writes can be ciphered, and an impression whose query is that text, with the price the
    exchange appends, is logged with the area, the advertiser, the solution, the banner, the
    places, the exchange, the site, the impression id, the order and the price type of the bid,
    and finds its offered price and the price of the exchange unchanged. *)
Theorem bid_to_impression `{Names : UrlNames} `{!UrlNamesLaws Names} `{!UrlLiterals Names} `{MapOrderLaws} `{Base64Laws}
    `{CryptoPP} `{Aes} `{UserIds} `{TaskConst} b tm price (l : LogItem) x y z :
  let h := snd (getShowPara b tm empty_helper) in
  cipherable h -> url_name URL_EXCHANGE_PRICE <> ENCODE_HOLDER -> price_ok h price -> bid_ok b ->
  Forall (fun f => (length f.2 <= URL_LONG_INPUT_PARAMETER)%nat) (show_fields b tm) ->
  (length (default [] price) <= URL_LONG_INPUT_PARAMETER)%nat ->
  extractAreaInfo (areaId (bid_ad b)) = Val (x, y, z) -> adInfo l = ad0 ->
  exists text h' m l', cipherParam h = Val (text, h') /\ query_params SHOW (text ++ price_tail price) = Val m
    /\ parse_ids (filterParamMapSafe m) l = Val l' /\ same_ad (adInfo l') (bid_ad b) /\ geoInfo l' = mkGeo x y z
    /\ filterParamMapSafe m !! url_name URL_EXCHANGE_PRICE = Some (default [] price)
    /\ param (filterParamMapSafe m) URL_BID_PRICE (fun v => decodeOfferPrice v false) (Val 0) = Val (bid_offerPrice b).
Proof.
  intros h Hc Hn Hp Hb Hs Hl Hx Hl0. destruct (reads_ids b _ l x y z Hb (shown_reads b tm _ _ (shown_carries b tm price Hc) Hs price_keys_overlay Hb) Hx Hl0) as (l' & Hl' & Ha & Hg & _).
  do 4 eexists. split; [by apply cipherParam_ok|]. split; [by apply show_query|]. split; [exact Hl'|].
  split; [exact Ha|]. split; [exact Hg|]. split; [by apply shown_price|apply (shown_offer b tm price_keys); [by apply shown_carries|done|exact price_keys_overlay|done]].
Qed.

Lemma to_string_double_ne x : to_string_double x <> [].
Proof.
  unfold to_string_double. destruct x as [s|s| |s m e]; intros E.
  1,2: by destruct s. { discriminate. }
  apply app_eq_nil in E as [_ E]. apply app_eq_nil in E as [_ E]. discriminate E.
Qed.

(** C6: From the bid to the bill: an impression of an ad won on Baidu, settled by impressions,
    whose query is the ciphered show url of the bid with the price message of the exchange, is
    logged with the ids of the bid and with the price of the message as its cost; the advertiser
    is billed at least that and at most the cost times the fee rate of the bid, rounded up. *)
Theorem bid_to_bill `{Names : UrlNames} `{!UrlNamesLaws Names} `{!UrlLiterals Names} `{MapOrderLaws} `{Base64Laws}
    `{CryptoPP} `{Aes} `{UserIds} `{TaskConst} `{AdxConstLaws} `{OpenSSLLaws} `{PriceMemory} `{BoostBase64}
    b tm iv pad hash price mt e (l : LogItem) x y z :
  let h := snd (getShowPara b tm empty_helper) in
  let message := web_text (signed_message iv pad (be_bytes price) (take 4 hash)) in
  cipherable h -> url_name URL_EXCHANGE_PRICE <> ENCODE_HOLDER -> price_ok h (Some message) -> bid_ok b ->
  Forall (fun f => (length f.2 <= URL_LONG_INPUT_PARAMETER)%nat) (show_fields b tm) ->
  (length message <= URL_LONG_INPUT_PARAMETER)%nat ->
  extractAreaInfo (areaId (bid_ad b)) = Val (x, y, z) -> adInfo l = ad0 -> logType l = SHOW ->
  adxid (bid_ad b) = adx_id ADX_BAIDU -> settled_by_click (priceType (bid_ad b)) = false ->
  message_ok iv pad (be_bytes price) (take 4 hash) -> 0 <= price < 2 ^ 31 ->
  HMAC EVP_sha1 baidu_encryption_key iv = Some pad ->
  HMAC EVP_sha1 baidu_integrity_key (be_bytes price ++ iv) = Some hash ->
  feeRate_of (Some (to_string_double (feeRate b))) = Val (S754_finite false mt e) ->
  2 ^ 52 <= Zpos mt < 2 ^ 53 -> -52 <= e <= -22 -> price * Zpos mt <= INT_MAX * 2 ^ (- e) ->
  exists m l', query_params SHOW (cipher_text h ++ price_tail (Some message)) = Val m
    /\ parseObjectToLogItem (filterParamMapSafe m) l = Val l' /\ same_ad (adInfo l') (bid_ad b)
    /\ cost (bill (adInfo l')) = price
    /\ price <= bidPrice (bill (adInfo l')) <= - (- (price * Zpos mt) / 2 ^ (- e)).
Proof.
  intros h message Hc Hn Hp Hb Hs Hl Hx Hl0 Hshow Hadx Hset Hm Hpr Hpad Hhash Hfee Hmt He Hfit.
  pose proof (shown_carries b tm (Some message) Hc) as Hcar. pose proof (shown_reads b tm _ _ Hcar Hs price_keys_overlay Hb) as R.
  pose proof (shown_price b tm (Some message) Hl) as Ep. pose proof (shown_offer b tm _ _ Hcar Hs price_keys_overlay Hb) as Eo.
  assert (filterParamMapSafe (shown b tm (Some message)) !! url_name URL_DEAL_ID = None) as Ed
    by (apply (shown_missing b tm _ _ Hcar _ PARAM_INT); read_tac).
  assert (filterParamMapSafe (shown b tm (Some message)) !! url_name URL_ADPLACE_BUY_TYPE = None) as Ebuy
    by (apply (shown_missing b tm _ _ Hcar _ PARAM_INT); read_tac).
  assert (filterParamMapSafe (shown b tm (Some message)) !! url_name URL_FEE_RATE = Some (to_string_double (feeRate b))) as Ef.
  { rewrite (shown_text b tm _ _ Hcar Hs URL_FEE_RATE (to_string_double (feeRate b))) by read_tac.
    pose proof (to_string_double_ne (feeRate b)). by destruct (to_string_double (feeRate b)). }
  exists (shown b tm (Some message)). generalize dependent (filterParamMapSafe (shown b tm (Some message))). intros fm R Ep Eo Ed Ebuy Ef.
  destruct (reads_ids b fm l x y z Hb R Hx Hl0) as (l1 & El1 & Ha & _ & Hlt & _).
  destruct (Ha) as (_ & _ & _ & _ & _ & Hadx1 & _ & _ & _ & _ & Hpt1 & _).
  destruct (baidu_show_billed iv pad hash price fm l1 (bid_offerPrice b) mt e PRICETYPE_RRTB_CPM)
    as (bl & Epp & Hcost & Hbill); try done.
  { by rewrite Ef. } { unfold param. by rewrite Ebuy. } { by right. } { by rewrite Hlt. } { congruence. } { by rewrite Hpt1. }
  exists (parse_device fm (set_ad (set_bill bl (adInfo l1)) l1)).
  split; [by apply show_query|]. split; [unfold parseObjectToLogItem; rewrite El1; cbn [mbind outcome_bind]; by rewrite Epp|].
  split; [exact Ha|]. split; [exact Hcost|exact Hbill].
Qed.

(** The click url carries the cached cipher of the user id, not [cypherUid]: before the show url
    of a known user was written it is empty, and the click is anonymous. *)
Lemma click_before_show_anonymous `{CmConst} `{UserIds} `{RecordStore} r m :
  cypherUserId m = [] -> isValid (uid_of_text (um_userId (um_read r m))) = true ->
  cypherUserId (um_read r m) = [] /\ fst (cypherUid (um_read r m)) = uid_cipher (uid_of_text (um_userId (um_read r m))).
Proof.
  intros Hm Hv. split; [done|]. unfold cypherUid. change (cypherUserId (um_read r m)) with (cypherUserId m).
  rewrite Hm, bool_decide_eq_true_2 by done. by rewrite Hv.
Qed.

(** A snippet that does not fit is read past the end of its buffer. *)
Lemma snippet_overflow text : (4096 < length text)%nat -> printed 4096 text = Undef.
Proof. intros Hl. unfold printed. destruct (Nat.leb_spec (length text) 4096); [lia|done]. Qed.

(** ** Instances *)

(** The names of the writer; the other names are one byte above the letters. *)
Definition literal_names : UrlNames := {|
  url_name k := match k with
                | URL_AREA_ID => str "a" | URL_BID_PRICE => str "b" | URL_CREATIVE_ID => str "c" | URL_ADOWNER_ID => str "d"
                | URL_EXEC_ID => str "e" | URL_ADPLACE_ID => str "s" | URL_MTTYADPLACE_ID => str "o" | URL_ADX_ID => str "x"
                | URL_EXPOSE_ID => str "r" | URL_MTTY_UID => str "u" | URL_TIMEM => str "tm" | URL_PRICE_TYPE => str "pt"
                | URL_ORDER_ID => str "od" | URL_PRODUCTPACKAGE_ID => str "ep" | k => [160 + key_index k]
                end |}.

#[local] Existing Instance literal_names.
#[local] Existing Instance list_order.
#[local] Existing Instance list_order_laws.
#[local] Existing Instance base64_reference.
#[local] Existing Instance base64_reference_laws.
#[local] Existing Instance toy_crypto.
#[local] Existing Instance toy_users.
#[local] Existing Instance toy_const.
#[local] Existing Instance toy_adx.
#[local] Existing Instance toy_adx_laws.
#[local] Existing Instance toy_openssl.
#[local] Existing Instance toy_openssl_laws.
#[local] Existing Instance toy_boost.
#[local] Existing Instance toy_aes.
#[local] Existing Instance toy_memory.
#[local] Existing Instance day.

#[local] Instance literal_names_laws : UrlNamesLaws literal_names.
Proof. constructor. intros [] []; cbn; intros E; try reflexivity; discriminate E. Qed.
#[local] Instance literal_names_literals : UrlLiterals literal_names.
Proof. by constructor. Qed.

(** A bid on Baidu with a fee rate of 1.25. *)
Definition sample_bid : bid_info :=
  mkBid (mkAd (str "0086-110000-110100") 8 8 10843 10326 [] (adx_id ADX_BAIDU) 3 (str "6636") (str "83ca1a") [] (str "com.x") 4 10000 77
           (mkBilling 0 0 []) (mkSelect 0 0 0 [] 0 [])) 5 130 1 ∅ (S754_finite false 5629499534213120 (-52)) (str "1.0")
    (mkMapping (str "u9") [] [] [] [] false 0).

Definition pad0 : bytes := hmac_of baidu_encryption_key iv0.
Definition hash0 : bytes := hmac_of baidu_integrity_key (be_bytes 8500 ++ iv0).
Abbreviation price_message := (web_text (signed_message iv0 pad0 (be_bytes 8500) (take 4 hash0))).
Definition show_log : LogItem := mkLog 0 SHOW 200 1 [] [] [] [] (mkGeo 0 0 0) ad0 0 0 [] 0 trace0 flow0.

Lemma sample_bid_cipherable : cipherable (snd (getShowPara sample_bid 1476779974 empty_helper)).
Proof.
  constructor.
  - by_decide.
  - repeat constructor; vm_compute; congruence.
  - apply map_Forall_empty.
  - vm_compute. discriminate.
  - vm_compute. lia.
  - intros []; discriminate.
Qed.

Lemma sample_bid_ok : bid_ok sample_bid.
Proof. constructor; [by_decide|by_decide|split; discriminate]. Qed.

Lemma sample_price_ok : price_ok (snd (getShowPara sample_bid 1476779974 empty_helper)) (Some price_message).
Proof.
  split; [split; [by_decide|]; split; [by_decide|vm_compute; lia]|].
  intros p E. injection E as <-. split; [vm_compute; discriminate|]. constructor; cbn [fst snd]; (discriminate || by_decide).
Qed.

Lemma bid_to_impression_witness :
  exists text h' m l', cipherParam (snd (getShowPara sample_bid 1476779974 empty_helper)) = Val (text, h')
    /\ query_params SHOW (text ++ price_tail (Some price_message)) = Val m
    /\ parse_ids (filterParamMapSafe m) show_log = Val l' /\ same_ad (adInfo l') (bid_ad sample_bid)
    /\ geoInfo l' = mkGeo 86 110000 110100
    /\ filterParamMapSafe m !! url_name URL_EXCHANGE_PRICE = Some (default [] (Some price_message))
    /\ param (filterParamMapSafe m) URL_BID_PRICE (fun v => decodeOfferPrice v false) (Val 0) = Val 130.
Proof.
  apply (bid_to_impression sample_bid 1476779974 (Some price_message) show_log 86 110000 110100);
    [exact sample_bid_cipherable|discriminate|exact sample_price_ok|exact sample_bid_ok|by_decide|vm_compute; lia|by vm_compute|reflexivity].
Defined.

Lemma bid_to_bill_witness :
  exists m l', query_params SHOW (cipher_text (snd (getShowPara sample_bid 1476779974 empty_helper)) ++ price_tail (Some price_message)) = Val m
    /\ parseObjectToLogItem (filterParamMapSafe m) show_log = Val l' /\ same_ad (adInfo l') (bid_ad sample_bid)
    /\ cost (bill (adInfo l')) = 8500
    /\ 8500 <= bidPrice (bill (adInfo l')) <= - (- (8500 * 5629499534213120) / 2 ^ 52).
Proof.
  apply (bid_to_bill sample_bid 1476779974 iv0 pad0 hash0 8500 5629499534213120 (-52) show_log 86 110000 110100);
    [exact sample_bid_cipherable|discriminate|exact sample_price_ok|exact sample_bid_ok|by_decide|vm_compute; lia|by vm_compute
    |reflexivity|reflexivity|reflexivity|by vm_compute|message_tac|lia|by vm_compute|by vm_compute|by vm_compute|lia|lia|unfold INT_MAX; lia].
Defined.
