(* ===== verification/Md5.v ===== *)
(** * Md5: the digest of libutil (libutil/AdMd5.h, libutil/AdMd5.cpp)

    [AdMd5] keeps the bits counted so far in two words, the four words of the digest and a buffer of
    64 bytes.  [Md5Update] may be called with pieces of any length; the theorem says that a run
    gives the digest of RFC 1321.  The RFC is written a second time here, from its text and without
    the definitions of the code: its four functions as truth tables on the bits of the words, the
    order of the words and the rotations by formulas, the constants from the sine series. *)
From S2P Require Import Prelude CString.

(** ** The macros of the header *)

Definition not32 (x : Z) : Z := Z.lxor x 0xFFFFFFFF.
Definition F (x y z : Z) : Z := Z.lor (Z.land x y) (Z.land (not32 x) z).
Definition G (x y z : Z) : Z := Z.lor (Z.land x z) (Z.land y (not32 z)).
Definition H (x y z : Z) : Z := Z.lxor (Z.lxor x y) z.
Definition I (x y z : Z) : Z := Z.lxor y (Z.lor x (not32 z)).
Definition ROTATE_LEFT (x n : Z) : Z := Z.lor (u32 (Z.shiftl x n)) (Z.shiftr x (32 - n)).

Inductive macro : Set := FF | GG | HH | II.
Definition mix (m : macro) : Z -> Z -> Z -> Z := match m with FF => F | GG => G | HH => H | II => I end.

(** The four words; a macro call changes the first of its arguments. *)
Definition words : Type := Z * Z * Z * Z.
Definition apply_macro (m : macro) (a b c d x s ac : Z) : Z :=
  let a := u32 (a + u32 (u32 (mix m b c d + x) + ac)) in
  let a := ROTATE_LEFT a s in
  u32 (a + b).

(** ** [Md5Decode] and [Md5Encode] *)

Fixpoint Md5Decode (input : bytes) (n : nat) {struct n} : outcome (list Z) :=
  match n, input with
  | O, _ => Val []
  | S n, b0 :: b1 :: b2 :: b3 :: rest =>
    t ← Md5Decode rest n;
    Val (Z.lor (Z.lor (Z.lor b0 (Z.shiftl b1 8)) (Z.shiftl b2 16)) (Z.shiftl b3 24) :: t)
  | _, _ => Undef
  end.
Definition encode_word (w : Z) : bytes :=
  [Z.land w 0xFF; Z.land (Z.shiftr w 8) 0xFF; Z.land (Z.shiftr w 16) 0xFF; Z.land (Z.shiftr w 24) 0xFF].
Definition Md5Encode (input : list Z) : bytes := flat_map encode_word input.

(** ** [Md5Transform] *)

(** The calls in their order: the macro, the word of the block, the rotation and the constant.  The
    first arguments of the calls are [a], [d], [c], [b] and again. *)
Definition calls : list (macro * Z * Z * Z) :=
  [ (FF,0,7,0xd76aa478); (FF,1,12,0xe8c7b756); (FF,2,17,0x242070db); (FF,3,22,0xc1bdceee);
    (FF,4,7,0xf57c0faf); (FF,5,12,0x4787c62a); (FF,6,17,0xa8304613); (FF,7,22,0xfd469501);
    (FF,8,7,0x698098d8); (FF,9,12,0x8b44f7af); (FF,10,17,0xffff5bb1); (FF,11,22,0x895cd7be);
    (FF,12,7,0x6b901122); (FF,13,12,0xfd987193); (FF,14,17,0xa679438e); (FF,15,22,0x49b40821);
    (GG,1,5,0xf61e2562); (GG,6,9,0xc040b340); (GG,11,14,0x265e5a51); (GG,0,20,0xe9b6c7aa);
    (GG,5,5,0xd62f105d); (GG,10,9,0x2441453); (GG,15,14,0xd8a1e681); (GG,4,20,0xe7d3fbc8);
    (GG,9,5,0x21e1cde6); (GG,14,9,0xc33707d6); (GG,3,14,0xf4d50d87); (GG,8,20,0x455a14ed);
    (GG,13,5,0xa9e3e905); (GG,2,9,0xfcefa3f8); (GG,7,14,0x676f02d9); (GG,12,20,0x8d2a4c8a);
    (HH,5,4,0xfffa3942); (HH,8,11,0x8771f681); (HH,11,16,0x6d9d6122); (HH,14,23,0xfde5380c);
    (HH,1,4,0xa4beea44); (HH,4,11,0x4bdecfa9); (HH,7,16,0xf6bb4b60); (HH,10,23,0xbebfbc70);
    (HH,13,4,0x289b7ec6); (HH,0,11,0xeaa127fa); (HH,3,16,0xd4ef3085); (HH,6,23,0x4881d05);
    (HH,9,4,0xd9d4d039); (HH,12,11,0xe6db99e5); (HH,15,16,0x1fa27cf8); (HH,2,23,0xc4ac5665);
    (II,0,6,0xf4292244); (II,7,10,0x432aff97); (II,14,15,0xab9423a7); (II,5,21,0xfc93a039);
    (II,12,6,0x655b59c3); (II,3,10,0x8f0ccc92); (II,10,15,0xffeff47d); (II,1,21,0x85845dd1);
    (II,8,6,0x6fa87e4f); (II,15,10,0xfe2ce6e0); (II,6,15,0xa3014314); (II,13,21,0x4e0811a1);
    (II,4,6,0xf7537e82); (II,11,10,0xbd3af235); (II,2,15,0x2ad7d2bb); (II,9,21,0xeb86d391) ].

(** A call on [(a, b, c, d)] and the next on [(d, a, b, c)]: the words are turned after each. *)
Fixpoint run_calls (cs : list (macro * Z * Z * Z)) (x : list Z) (w : words) : outcome words :=
  match cs with
  | [] => Val w
  | (m, i, s, ac) :: cs =>
    let '(a, b, c, d) := w in
    v ← rd x i;
    run_calls cs x (d, apply_macro m a b c d v s ac, b, c)
  end.

Definition Md5Transform (state : words) (block : bytes) : outcome words :=
  x ← Md5Decode block 16;
  '(a, b, c, d) ← run_calls calls x state;
  let '(s0, s1, s2, s3) := state in
  Val (u32 (s0 + a), u32 (s1 + b), u32 (s2 + c), u32 (s3 + d)).

(** ** The context *)

Record AdMd5 := mkMd5 { count0 : Z; count1 : Z; state : words; buffer : bytes }.

(** The buffer keeps what it had. *)
Definition Md5Init (c : AdMd5) : AdMd5 := mkMd5 0 0 (0x67452301, 0xEFCDAB89, 0x98BADCFE, 0x10325476) (buffer c).

Definition memcpy (dst : bytes) (at_ : Z) (src : bytes) (from n : Z) : outcome bytes :=
  check ((0 <=? at_) && (0 <=? from) && (0 <=? n) && (at_ + n <=? Z.of_nat (length dst)) && (from + n <=? Z.of_nat (length src)));;
  Val (take (Z.to_nat at_) dst ++ take (Z.to_nat n) (drop (Z.to_nat from) src) ++ drop (Z.to_nat (at_ + n)) dst).

(** [for (i = partlen; i + 64 <= inputlen; i += 64)], in unsigned arithmetic; every block lies in
    the input, which bounds the number of passes. *)
Fixpoint update_loop (fuel : nat) (input : bytes) (inputlen i : Z) (st : words) : outcome (Z * words) :=
  match fuel with
  | O => Undef
  | S fuel =>
    if u32 (i + 64) <=? inputlen then
      check (i + 64 <=? Z.of_nat (length input));;
      st ← Md5Transform st (take 64 (drop (Z.to_nat i) input));
      update_loop fuel input inputlen (u32 (i + 64)) st
    else Val (i, st)
  end.

Definition Md5Update (input : bytes) (inputlen : Z) (c : AdMd5) : outcome AdMd5 :=
  let index := Z.land (Z.shiftr (count0 c) 3) 0x3F in
  let partlen := 64 - index in
  let bits := u32 (Z.shiftl inputlen 3) in
  let n0 := u32 (count0 c + bits) in
  let n1 := u32 (count1 c + (if n0 <? bits then 1 else 0)) in
  let n1 := u32 (n1 + Z.shiftr inputlen 29) in
  '(i, index, st, buf) ←
    (if partlen <=? inputlen then
       buf ← memcpy (buffer c) index input 0 partlen;
       st ← Md5Transform (state c) buf;
       '(i, st) ← update_loop (S (length input)) input inputlen partlen st;
       Val (i, 0, st, buf)
     else Val (0, index, state c, buffer c));
  buf ← memcpy buf index input i (inputlen - i);
  Val (mkMd5 n0 n1 st buf).

Definition PADDING : bytes := 0x80 :: replicate 63 0.

Definition Md5Final (c : AdMd5) : outcome (bytes * AdMd5) :=
  let index := Z.land (Z.shiftr (count0 c) 3) 0x3F in
  let padlen := if index <? 56 then 56 - index else 120 - index in
  let bits := Md5Encode [count0 c; count1 c] in
  c ← Md5Update PADDING padlen c;
  c ← Md5Update bits 8 c;
  let '(s0, s1, s2, s3) := state c in
  Val (Md5Encode [s0; s1; s2; s3], c).

(** Both entries; the length of the second is an [int]. *)
Definition AdMd5Run_len (src : bytes) (len : Z) (c : AdMd5) : outcome (bytes * AdMd5) :=
  c ← Md5Update src (u32 len) (Md5Init c); Md5Final c.
Definition AdMd5Run (src : bytes) (c : AdMd5) : outcome (bytes * AdMd5) :=
  AdMd5Run_len src (Z.of_nat (length (c_str src))) c.

(** ** RFC 1321 *)

(** The constants are the first 32 bits of the sines of 1 to 64, summed with 200 bits of fraction;
    the terms of the series are below the last bit after 120 of them. *)
Fixpoint sine_sum (n : nat) (k : Z) (i t acc : Z) : Z :=
  match n with
  | O => acc
  | S n => sine_sum n (k + 1) i (- (t * (i * i)) / ((2 * k + 2) * (2 * k + 3))) (acc + t)
  end.
Definition sine_word (i : Z) : Z := Z.abs (sine_sum 120 0 i (i * 2 ^ 200) 0) / 2 ^ 168.

Definition rfc_macro (i : Z) : macro :=
  if i <? 16 then FF else if i <? 32 then GG else if i <? 48 then HH else II.
Definition rfc_word (i : Z) : Z :=
  (if i <? 16 then i else if i <? 32 then 5 * i + 1 else if i <? 48 then 3 * i + 5 else 7 * i) mod 16.
Definition rfc_shift (i : Z) : Z :=
  nth (Z.to_nat (i mod 4)) (nth (Z.to_nat (i / 16)) [[7; 12; 17; 22]; [5; 9; 14; 20]; [4; 11; 16; 23]; [6; 10; 15; 21]] []) 0.

(** The functions of the four rounds on the bits of the words: [F] is the conditional "if X then Y else Z",
    [G] is "if Z then X else Y", [H] the parity of the three bits, and [I] the bit [Y] turned unless
    [Z] is set and [X] is not. *)
Definition rfc_bit (i : Z) (x y z : bool) : bool :=
  if i <? 16 then (if x then y else z)
  else if i <? 32 then (if z then x else y)
  else if i <? 48 then Nat.odd (Nat.b2n x + Nat.b2n y + Nat.b2n z)
  else (if z && negb x then y else negb y).
Fixpoint bitwise (n : nat) (f : bool -> bool -> bool -> bool) (x y z : Z) : Z :=
  match n with
  | O => 0
  | S n => 2 * bitwise n f (x / 2) (y / 2) (z / 2) + Z.b2z (f (Z.odd x) (Z.odd y) (Z.odd z))
  end.

Definition rotate (x n : Z) : Z := (x * 2 ^ n) mod 2 ^ 32 + x mod 2 ^ 32 / 2 ^ (32 - n).
Definition rfc_step (x : list Z) (w : words) (i : Z) : words :=
  let '(a, b, c, d) := w in
  (d, (b + rotate (a + bitwise 32 (rfc_bit i) b c d + nth (Z.to_nat (rfc_word i)) x 0 + sine_word (i + 1)) (rfc_shift i)) mod 2 ^ 32, b, c).

(** The value of a little endian text and the text of a value. *)
Definition le_value (bs : bytes) : Z := value 256 (rev bs).
Definition le_bytes (n : nat) (v : Z) : bytes := map (fun k => v / 256 ^ Z.of_nat k mod 256) (seq 0 n).

Definition block_words (block : bytes) : list Z := map (fun k => le_value (take 4 (drop (4 * k) block))) (seq 0 16).
Definition compress (w : words) (block : bytes) : words :=
  let '(a, b, c, d) := w in
  let '(a', b', c', d') := foldl (rfc_step (block_words block)) w (map Z.of_nat (seq 0 64)) in
  ((a + a') mod 2 ^ 32, (b + b') mod 2 ^ 32, (c + c') mod 2 ^ 32, (d + d') mod 2 ^ 32).

Fixpoint absorb (n : nat) (w : words) (m : bytes) : words :=
  match n with O => w | S n => absorb n (compress w (take 64 m)) (drop 64 m) end.

Definition IV : words := (0x67452301, 0xEFCDAB89, 0x98BADCFE, 0x10325476).
(** A one bit, zeros up to eight bytes before the end of a block, and the length in bits. *)
Definition padding (len : Z) : bytes := 0x80 :: replicate (Z.to_nat ((55 - len) mod 64)) 0 ++ le_bytes 8 (8 * len).
Definition digest (w : words) : bytes := let '(a, b, c, d) := w in le_bytes 4 a ++ le_bytes 4 b ++ le_bytes 4 c ++ le_bytes 4 d.
Definition md5 (m : bytes) : bytes :=
  let p := m ++ padding (Z.of_nat (length m)) in digest (absorb (length p / 64) IV p).

Lemma md5_size m : length (md5 m) = 16%nat /\ Forall is_byte (md5 m).
Proof.
  assert (forall n v, Forall is_byte (le_bytes n v)) as Hb.
  { intros n v. apply List.Forall_forall. intros x Hx. apply in_map_iff in Hx as (k & <- & _). apply Z.mod_pos_bound. lia. }
  unfold md5. destruct (absorb _ _ _) as [[[a b] c] d]. split; [done|]. unfold digest. rewrite !Forall_app. auto.
Qed.

(** ** The rounds *)

Lemma calls_rfc : calls = map (fun i => (rfc_macro i, rfc_word i, rfc_shift i, sine_word (i + 1))) (map Z.of_nat (seq 0 64)).
Proof. by vm_compute. Qed.

Lemma rotate_left x n : 0 <= x < 2 ^ 32 -> 0 < n < 32 -> ROTATE_LEFT x n = rotate x n.
Proof.
  intros Hx Hn. unfold ROTATE_LEFT, rotate, uwrap. rewrite Z.shiftl_mul_pow2, Z.shiftr_div_pow2 by lia.
  rewrite (Z.mod_small x) by lia.
  assert (0 < 2 ^ (32 - n)) by (apply Z.pow_pos_nonneg; lia). assert (0 < 2 ^ n) by (apply Z.pow_pos_nonneg; lia).
  assert (2 ^ 32 = 2 ^ (32 - n) * 2 ^ n) as E by (rewrite <- Z.pow_add_r by lia; f_equal; lia).
  rewrite E, Z.mul_mod_distr_r by lia. apply lor_add; [lia|]. split; [apply Z.div_pos; lia|].
  apply Z.div_lt_upper_bound; lia.
Qed.

Lemma rotate_mod x n : rotate (x mod 2 ^ 32) n = rotate x n.
Proof. unfold rotate. rewrite Z.mul_mod_idemp_l, Z.mod_mod by lia. done. Qed.

Lemma apply_macro_rfc m a b c d x s ac :
  0 < s < 32 -> apply_macro m a b c d x s ac = (b + rotate (a + mix m b c d + x + ac) s) mod 2 ^ 32.
Proof.
  intros Hs. unfold apply_macro. rewrite rotate_left by (try apply uwrap_range; lia). unfold uwrap.
  rewrite rotate_mod. rewrite <- (rotate_mod (a + _)), <- (rotate_mod (a + mix m b c d + x + ac)).
  rewrite Zplus_mod_idemp_r. replace (a + ((mix m b c d + x) mod 2 ^ 32 + ac)) with ((mix m b c d + x) mod 2 ^ 32 + (a + ac)) by lia.
  rewrite Zplus_mod_idemp_l, Z.add_comm. do 4 f_equal. lia.
Qed.

Lemma bitwise_testbit n f x y z k :
  0 <= k -> Z.testbit (bitwise n f x y z) k = (k <? Z.of_nat n) && f (Z.testbit x k) (Z.testbit y k) (Z.testbit z k).
Proof.
  revert x y z k. induction n as [|n IH]; intros x y z k Hk.
  - rewrite Z.testbit_0_l. by destruct (Z.ltb_spec k (Z.of_nat 0)); [lia|].
  - cbn [bitwise]. destruct (Z.eq_dec k 0) as [->|Hk0]; [by rewrite Z.testbit_0_r, !Z.bit0_odd|].
    replace k with (Z.succ (k - 1)) by lia. rewrite Z.testbit_succ_r, IH by lia. rewrite !Z.div2_bits by lia || rewrite <- !Z.div2_div, !Z.div2_bits by lia.
    f_equal. destruct (Z.ltb_spec (k - 1) (Z.of_nat n)), (Z.ltb_spec (Z.succ (k - 1)) (Z.of_nat (S n))); (done || lia).
Qed.

Lemma not32_bit x k : 0 <= k < 32 -> Z.testbit (not32 x) k = negb (Z.testbit x k).
Proof.
  intros Hk. unfold not32. rewrite Z.lxor_spec. change 0xFFFFFFFF with (Z.ones 32).
  rewrite Z.ones_spec_low by lia. apply xorb_true_r.
Qed.

(** The macros of the header compute the functions of the RFC. *)
Lemma mix_rfc i x y z : mix (rfc_macro i) x y z mod 2 ^ 32 = bitwise 32 (rfc_bit i) x y z.
Proof.
  apply Z.bits_inj'. intros k Hk. rewrite bitwise_testbit by done. change (Z.of_nat 32) with 32.
  destruct (Z.ltb_spec k 32) as [Hl|Hg]; [rewrite Z.mod_pow2_bits_low by lia|by rewrite Z.mod_pow2_bits_high by lia].
  unfold rfc_macro, rfc_bit. destruct (i <? 16); [|destruct (i <? 32); [|destruct (i <? 48)]];
    cbn [mix andb]; unfold F, G, H, I; rewrite ?Z.lor_spec, ?Z.land_spec, ?Z.lxor_spec, ?Z.lor_spec, ?not32_bit by lia;
    by destruct (Z.testbit x k), (Z.testbit y k), (Z.testbit z k).
Qed.

Lemma rotate_mix i a x y z v s : rotate (a + mix (rfc_macro i) x y z + v) s = rotate (a + bitwise 32 (rfc_bit i) x y z + v) s.
Proof.
  rewrite <- mix_rfc, <- (rotate_mod (a + mix _ _ _ _ + v)), <- (rotate_mod (a + _ mod _ + v)). f_equal.
  rewrite <- !Z.add_assoc, <- (Z.add_mod_idemp_r a (_ mod _ + v)), Z.add_mod_idemp_l, Z.add_mod_idemp_r by lia. done.
Qed.

Lemma rfc_shift_range i : 0 <= i < 64 -> 0 < rfc_shift i < 32.
Proof.
  intros Hi. by_table 64%nat (fun i => (0 <? rfc_shift i) && (rfc_shift i <? 32)).
  match goal with Ht : forall z, _ |- _ => specialize (Ht i Hi) end. lia.
Qed.

Lemma rfc_word_range i : 0 <= rfc_word i < 16.
Proof. unfold rfc_word. apply Z.mod_pos_bound. lia. Qed.

Lemma run_calls_rfc x ks w :
  length x = 16%nat -> Forall (fun i => 0 <= i < 64) ks ->
  run_calls (map (fun i => (rfc_macro i, rfc_word i, rfc_shift i, sine_word (i + 1))) ks) x w = Val (foldl (rfc_step x) w ks).
Proof.
  intros Hx Hks. revert w. induction Hks as [|i ks Hi _ IH]; intros [[[a b] c] d]; [done|].
  cbn [map run_calls foldl]. rewrite (rd_nth _ _ 0) by (pose proof (rfc_word_range i); lia).
  cbn [mbind outcome_bind]. rewrite IH, apply_macro_rfc by (by apply rfc_shift_range). cbn [rfc_step].
  rewrite <- !(Z.add_assoc (_ + _)), rotate_mix, !Z.add_assoc. done.
Qed.

(** ** Words and bytes *)

Lemma le_value_cons b bs : le_value (b :: bs) = b + 256 * le_value bs.
Proof. unfold le_value. cbn [rev]. rewrite value_app. cbn. lia. Qed.

Lemma decode_word b0 b1 b2 b3 :
  is_byte b0 -> is_byte b1 -> is_byte b2 -> is_byte b3 ->
  Z.lor (Z.lor (Z.lor b0 (Z.shiftl b1 8)) (Z.shiftl b2 16)) (Z.shiftl b3 24) = le_value [b0; b1; b2; b3].
Proof.
  unfold is_byte. intros. rewrite !Z.shiftl_mul_pow2 by lia. rewrite !le_value_cons. unfold le_value. cbn [rev].
  rewrite (Z.lor_comm b0), lor_add by lia. rewrite (Z.lor_comm _ (b2 * _)), lor_add by lia.
  rewrite (Z.lor_comm _ (b3 * _)), lor_add by lia. cbn. lia.
Qed.

Lemma Md5Decode_words n input :
  Forall is_byte input -> (4 * n <= length input)%nat ->
  Md5Decode input n = Val (map (fun k => le_value (take 4 (drop (4 * k) input))) (seq 0 n)).
Proof.
  revert input. induction n as [|n IH]; intros input Hb Hl; [done|].
  destruct input as [|b0 [|b1 [|b2 [|b3 rest]]]]; cbn [length] in Hl; try lia.
  decompose_Forall_hyps. cbn [Md5Decode]. rewrite IH by (done || lia). cbn [mbind outcome_bind].
  rewrite decode_word by done. cbn [seq map]. rewrite <- seq_shift, map_map. do 2 f_equal.
  apply map_ext. intros k. by replace (S k + (S k + (S k + (S k + 0))))%nat with (4 + (k + (k + (k + (k + 0)))))%nat by lia.
Qed.

Lemma transform_calls block w :
  run_calls calls (block_words block) w = Val (foldl (rfc_step (block_words block)) w (map Z.of_nat (seq 0 64))).
Proof.
  rewrite calls_rfc. apply run_calls_rfc.
  - unfold block_words. by rewrite length_map, length_seq.
  - apply Forall_map, Forall_seq. lia.
Qed.

Lemma add_words cs block w x r :
  Md5Decode block 16 = Val x -> run_calls cs x w = Val r ->
  (x ← Md5Decode block 16;
   '(a, b, c, d) ← run_calls cs x w;
   let '(s0, s1, s2, s3) := w in
   Val (u32 (s0 + a), u32 (s1 + b), u32 (s2 + c), u32 (s3 + d)))
  = Val (let '(a, b, c, d) := w in let '(a', b', c', d') := r in
         ((a + a') mod 2 ^ 32, (b + b') mod 2 ^ 32, (c + c') mod 2 ^ 32, (d + d') mod 2 ^ 32)).
Proof. intros -> E. cbn [mbind outcome_bind]. rewrite E. by destruct w as [[[? ?] ?] ?], r as [[[? ?] ?] ?]. Qed.

Lemma Md5Transform_rfc w block : Forall is_byte block -> length block = 64%nat -> Md5Transform w block = Val (compress w block).
Proof.
  intros Hb Hl. refine (add_words calls block w (block_words block) _ _ (transform_calls block w)).
  apply Md5Decode_words; [done|lia].
Qed.

Lemma encode_word_le w : encode_word w = le_bytes 4 w.
Proof.
  unfold encode_word, le_bytes. cbn [seq map]. rewrite !(Z.land_ones _ 8) by lia.
  rewrite !Z.shiftr_div_pow2 by lia. by rewrite Z.div_1_r.
Qed.


(** ** Pieces of a message *)

Lemma absorb_add n k w m : absorb (n + k) w m = absorb k (absorb n w m) (drop (64 * n) m).
Proof.
  revert w m. induction n as [|n IH]; intros w m; [by rewrite Nat.mul_0_r|].
  cbn [Nat.add absorb]. rewrite IH, drop_drop. do 2 f_equal. lia.
Qed.

Lemma absorb_prefix n w m t : (64 * n <= length m)%nat -> absorb n w (m ++ t) = absorb n w m.
Proof.
  revert w m. induction n as [|n IH]; intros w m Hl; [done|]. cbn [absorb].
  rewrite take_app_le, drop_app_le by lia. apply IH. rewrite length_drop. lia.
Qed.

(** The context after the pieces of [m]: whole blocks are in the words, the rest in the buffer. *)
Record holds (c : AdMd5) (m : bytes) : Prop := {
  holds_count : count0 c + 2 ^ 32 * count1 c = (8 * Z.of_nat (length m)) mod 2 ^ 64;
  holds_count0 : 0 <= count0 c < 2 ^ 32;
  holds_count1 : 0 <= count1 c < 2 ^ 32;
  holds_state : state c = absorb (length m / 64) IV m;
  holds_buffer : length (buffer c) = 64%nat;
  holds_rest : take (length m mod 64) (buffer c) = drop (64 * (length m / 64)) m;
}.

Lemma holds_index c m : holds c m -> Z.land (Z.shiftr (count0 c) 3) 0x3F = Z.of_nat (length m mod 64).
Proof.
  intros [Hc H0 _ _ _ _]. rewrite (Z.land_ones _ 6), Z.shiftr_div_pow2, Nat2Z.inj_mod by lia.
  change (Z.of_nat 64) with 64. dlia.
Qed.

Lemma update_count n0 n1 len inputlen :
  0 <= n0 < 2 ^ 32 -> 0 <= n1 < 2 ^ 32 -> 0 <= inputlen < 2 ^ 32 -> n0 + 2 ^ 32 * n1 = (8 * len) mod 2 ^ 64 ->
  let bits := u32 (Z.shiftl inputlen 3) in
  let n0' := u32 (n0 + bits) in
  let n1' := u32 (u32 (n1 + (if n0' <? bits then 1 else 0)) + Z.shiftr inputlen 29) in
  n0' + 2 ^ 32 * n1' = (8 * (len + inputlen)) mod 2 ^ 64 /\ 0 <= n0' < 2 ^ 32 /\ 0 <= n1' < 2 ^ 32.
Proof.
  intros H0 H1 Hl E bits n0' n1'. split; [|split; apply uwrap_range; lia].
  unfold n1', n0', bits, uwrap. clear n1' n0' bits. rewrite Z.shiftl_mul_pow2, Z.shiftr_div_pow2 by lia.
  destruct (Z.ltb_spec ((n0 + (inputlen * 2 ^ 3) mod 2 ^ 32) mod 2 ^ 32) ((inputlen * 2 ^ 3) mod 2 ^ 32)); dlia.
Qed.

Lemma update_loop_run fuel input inputlen i w :
  Forall is_byte input -> inputlen = Z.of_nat (length input) -> inputlen < 2 ^ 32 - 64 -> 0 <= i <= inputlen ->
  inputlen - i < 64 * Z.of_nat fuel ->
  let k := Z.to_nat ((inputlen - i) / 64) in
  update_loop fuel input inputlen i w = Val (i + 64 * Z.of_nat k, absorb k w (drop (Z.to_nat i) input)).
Proof.
  intros Hb -> Hl. revert i w. induction fuel as [|fuel IH]; intros i w Hi Hf k; [lia|]. cbn [update_loop].
  rewrite uwrap_small by lia. destruct (Z.leb_spec (i + 64) (Z.of_nat (length input))) as [Hle|Hgt].
  - cbn [check mbind outcome_bind]. rewrite Md5Transform_rfc.
    + cbn [mbind outcome_bind]. rewrite IH by lia.
      assert (k = S (Z.to_nat ((Z.of_nat (length input) - (i + 64)) / 64))) as -> by (subst k; dlia).
      cbn [absorb]. rewrite drop_drop. do 2 f_equal; [lia|]. f_equal. f_equal. lia.
    + by apply Forall_take, Forall_drop.
    + rewrite length_take, length_drop. lia.
  - assert (k = 0%nat) as -> by (subst k; dlia). cbn [absorb]. do 2 f_equal. lia.
Qed.

Lemma memcpy_run dst at_ src from n :
  0 <= at_ -> 0 <= from -> 0 <= n -> at_ + n <= Z.of_nat (length dst) -> from + n <= Z.of_nat (length src) ->
  memcpy dst at_ src from n
  = Val (take (Z.to_nat at_) dst ++ take (Z.to_nat n) (drop (Z.to_nat from) src) ++ drop (Z.to_nat (at_ + n)) dst).
Proof.
  intros. unfold memcpy. assert (forall b, b = true -> check b = Val tt) as E by (by intros ? ->).
  rewrite E; [done|]. rewrite !andb_true_iff, !Z.leb_le. lia.
Qed.

(** A piece that does not fill the buffer, and one that does. *)
Lemma update_short c m inp :
  holds c m -> (length m mod 64 + length inp < 64)%nat ->
  exists buf, memcpy (buffer c) (Z.of_nat (length m mod 64)) inp 0 (Z.of_nat (length inp) - 0) = Val buf
    /\ length buf = 64%nat /\ take (length (m ++ inp) mod 64) buf = drop (64 * (length (m ++ inp) / 64)) (m ++ inp)
    /\ state c = absorb (length (m ++ inp) / 64) IV (m ++ inp).
Proof.
  intros Hc Hs. pose proof (holds_buffer _ _ Hc) as Hb. rewrite memcpy_run by lia. eexists. split; [reflexivity|].
  rewrite Z.sub_0_r, !Nat2Z.id. change (Z.to_nat 0) with 0%nat. rewrite drop_0.
  rewrite (take_ge inp) by lia. rewrite !(length_app m).
  assert ((length m + length inp) / 64 = length m / 64)%nat as Eq.
  { rewrite (Nat.div_mod_eq (length m) 64) at 1. rewrite <- Nat.add_assoc, Nat.mul_comm, Nat.div_add_l by lia.
    rewrite (Nat.div_small (_ + _)) by lia. lia. }
  assert ((length m + length inp) mod 64 = length m mod 64 + length inp)%nat as Er.
  { pose proof (Nat.div_mod_eq (length m) 64). pose proof (Nat.div_mod_eq (length m + length inp) 64). lia. }
  pose proof (Nat.div_mod_eq (length m) 64).
  split_and!.
  - rewrite !length_app, length_take, length_drop. lia.
  - rewrite Eq, Er, drop_app_le by lia. rewrite <- (holds_rest _ _ Hc). rewrite app_assoc, take_app_length'; [done|].
    rewrite length_app, length_take. lia.
  - rewrite Eq, absorb_prefix by lia. apply Hc.
Qed.

Lemma update_full c m inp :
  holds c m -> Forall is_byte m -> Forall is_byte inp -> (64 <= length m mod 64 + length inp)%nat -> Z.of_nat (length inp) < 2 ^ 32 - 64 ->
  let part := 64 - Z.of_nat (length m mod 64) in
  let total := m ++ inp in
  exists buf st i, memcpy (buffer c) (Z.of_nat (length m mod 64)) inp 0 part = Val buf
    /\ Md5Transform (state c) buf = Val st
    /\ update_loop (S (length inp)) inp (Z.of_nat (length inp)) part st = Val (i, absorb (length total / 64) IV total)
    /\ length buf = 64%nat /\ 0 <= i /\ Z.of_nat (length inp) - i = Z.of_nat (length total mod 64)
    /\ drop (Z.to_nat i) inp = drop (64 * (length total / 64)) total.
Proof.
  intros Hc Hm Hi Hs Hl part total. pose proof (holds_buffer _ _ Hc) as Hb. pose proof (Nat.div_mod_eq (length m) 64) as Eqr.
  pose proof (Nat.mod_upper_bound (length m) 64 ltac:(lia)) as Hr.
  rewrite memcpy_run by lia. change (Z.to_nat 0) with 0%nat. rewrite drop_0, Nat2Z.id.
  replace (Z.to_nat part) with (64 - length m mod 64)%nat by lia.
  rewrite (drop_ge (buffer c)), app_nil_r, (holds_rest _ _ Hc) by lia.
  assert (drop (64 * (length m / 64)) m ++ take (64 - length m mod 64) inp = take 64 (drop (64 * (length m / 64)) total)) as Eb.
  { unfold total. rewrite drop_app_le by lia. rewrite take_app, length_drop. rewrite (take_ge (drop _ _)) by (rewrite length_drop; lia).
    do 2 f_equal. lia. }
  rewrite Eb. assert (length total = length m + length inp)%nat as Et by (unfold total; by rewrite length_app).
  assert (drop (64 * S (length m / 64)) total = drop (64 - length m mod 64) inp) as Ed.
  { unfold total. rewrite drop_app_ge by lia. f_equal. lia. }
  eexists _, _, _. split; [reflexivity|]. split.
  { apply Md5Transform_rfc; [by apply Forall_take, Forall_drop, Forall_app|]. rewrite length_take, length_drop. lia. }
  rewrite update_loop_run by (done || lia).
  replace (Z.to_nat part) with (64 - length m mod 64)%nat by lia. rewrite <- Ed.
  set (k := Z.to_nat ((Z.of_nat (length inp) - part) / 64)).
  assert (length total / 64 = S (length m / 64) + k)%nat as Ek .
  { subst k part. apply Nat2Z.inj. rewrite Nat2Z.inj_add, Nat2Z.inj_succ, !Nat2Z.inj_div, Et, Nat2Z.inj_add, Nat2Z.inj_mod.
    change (Z.of_nat 64) with 64. rewrite Z2Nat.id by dlia. clear -Hs. dlia. }
  split_and!.
  - rewrite Ek, absorb_add. replace (S (length m / 64)) with (length m / 64 + 1)%nat at 2 by lia.
    rewrite (absorb_add _ 1). cbn [absorb]. rewrite (holds_state _ _ Hc). unfold total at 4 5. do 3 f_equal.
    by rewrite absorb_prefix by lia.
  - rewrite length_take, length_drop. lia.
  - lia.
  - pose proof (Nat.div_mod_eq (length total) 64). lia.
  - rewrite Ek. replace (64 * (S (length m / 64) + k))%nat with (64 * S (length m / 64) + 64 * k)%nat by lia.
    rewrite <- drop_drop, Ed, drop_drop. f_equal. lia.
Qed.

Lemma Md5Update_holds c m inp :
  holds c m -> Forall is_byte m -> Forall is_byte inp -> Z.of_nat (length inp) < 2 ^ 32 - 64 ->
  exists c', Md5Update inp (Z.of_nat (length inp)) c = Val c' /\ holds c' (m ++ inp).
Proof.
  intros Hc Hm Hi Hl. unfold Md5Update. rewrite (holds_index _ _ Hc).
  destruct (update_count (count0 c) (count1 c) (Z.of_nat (length m)) (Z.of_nat (length inp))) as (E & R0 & R1);
    [apply Hc|apply Hc|lia|apply Hc|]. rewrite <- Nat2Z.inj_add, <- length_app in E.
  destruct (Z.leb_spec (64 - Z.of_nat (length m mod 64)) (Z.of_nat (length inp))) as [Hle|Hgt].
  - destruct (update_full c m inp) as (buf & st & i & E1 & E2 & E3 & Lb & Hi0 & En & Ed); [done..|lia|done|].
    rewrite E1. cbn [mbind outcome_bind]. rewrite E2. cbn [mbind outcome_bind]. rewrite E3. cbn [mbind outcome_bind].
    pose proof (Nat.mod_upper_bound (length (m ++ inp)) 64 ltac:(lia)).
    rewrite memcpy_run by lia. eexists. split; [reflexivity|]. split; cbn [count0 count1 state buffer]; try done.
    + rewrite !length_app, !length_take, !length_drop. lia.
    + change (Z.to_nat 0) with 0%nat. rewrite take_0, app_nil_l, En, Nat2Z.id, Ed, take_app_length'.
      * apply take_ge. rewrite length_drop. pose proof (Nat.div_mod_eq (length (m ++ inp)) 64). lia.
      * rewrite length_take, length_drop. pose proof (Nat.div_mod_eq (length (m ++ inp)) 64). lia.
  - destruct (update_short c m inp) as (buf & E1 & Lb & Er & Es); [done|lia|].
    cbn [mbind outcome_bind]. rewrite E1. eexists. split; [reflexivity|]. by split.
Qed.

(** The bytes behind the stated length are not read. *)
Lemma memcpy_prefix dst at_ src t from n buf : memcpy dst at_ src from n = Val buf -> memcpy dst at_ (src ++ t) from n = Val buf.
Proof.
  unfold memcpy. intros E. apply bind_Val_iff in E as ([] & Ec & E). apply check_Val in Ec.
  rewrite !andb_true_iff, !Z.leb_le in Ec. rewrite <- E.
  assert (forall b, b = true -> check b = Val tt) as Et by (by intros ? ->). rewrite Et.
  - cbn [mbind outcome_bind]. do 3 f_equal. rewrite drop_app_le, take_app_le; [done|rewrite length_drop|]; lia.
  - rewrite !andb_true_iff, !Z.leb_le, length_app. lia.
Qed.

Lemma update_loop_prefix fuel fuel' inp t n i w r :
  (fuel <= fuel')%nat -> 0 <= i -> update_loop fuel inp n i w = Val r -> update_loop fuel' (inp ++ t) n i w = Val r.
Proof.
  revert fuel' i w. induction fuel as [|fuel IH]; intros [|fuel'] i w Hf Hi E; try (done || lia). cbn [update_loop] in *.
  destruct (u32 (i + 64) <=? n); [|done]. apply bind_Val_iff in E as ([] & Ec & E). apply check_Val, Z.leb_le in Ec.
  destruct (Z.leb_spec (i + 64) (Z.of_nat (length (inp ++ t)))) as [_|Hn]; [|rewrite length_app in Hn; lia].
  cbn [check mbind outcome_bind]. rewrite drop_app_le, take_app_le by (rewrite ?length_drop; lia).
  apply bind_Val_iff in E as (w' & E1 & E). rewrite E1. cbn [mbind outcome_bind].
  apply IH; [lia| |done]. apply uwrap_range. lia.
Qed.

Lemma Md5Update_prefix inp t n c c' :
  0 <= count0 c -> Md5Update inp n c = Val c' -> Md5Update (inp ++ t) n c = Val c'.
Proof.
  intros H0. unfold Md5Update. set (index := Z.land _ _).
  assert (0 <= 64 - index) as Hp.
  { subst index. rewrite (Z.land_ones _ 6), Z.shiftr_div_pow2 by lia. dlia. }
  destruct (64 - index <=? n).
  - intros E. apply bind_Val_iff in E as ([[[i ix] st] buf] & E & Ef).
    apply bind_Val_iff in E as (b1 & E1 & E). apply bind_Val_iff in E as (s1 & E2 & E).
    apply bind_Val_iff in E as ([i1 s2] & E3 & E). injection E as -> <- -> ->.
    rewrite (memcpy_prefix _ _ _ _ _ _ _ E1). cbn [mbind outcome_bind]. rewrite E2. cbn [mbind outcome_bind].
    rewrite (update_loop_prefix (S (length inp)) (S (length (inp ++ t))) inp t _ _ _ _ ltac:(rewrite length_app; lia) Hp E3).
    cbn [mbind outcome_bind].
    apply bind_Val_iff in Ef as (b2 & E4 & Ef). rewrite (memcpy_prefix _ _ _ _ _ _ _ E4). exact Ef.
  - cbn [mbind outcome_bind]. intros E. apply bind_Val_iff in E as (b2 & E4 & Ef).
    rewrite (memcpy_prefix _ _ _ _ _ _ _ E4). exact Ef.
Qed.

(** ** The end of a message *)

Lemma seq_shift_add n k : seq n k = map (Nat.add n) (seq 0 k).
Proof.
  induction n as [|n IH]; [by rewrite map_id|]. rewrite <- seq_shift, IH, map_map. done.
Qed.

Lemma le_bytes_join n k a b :
  0 <= a < 256 ^ Z.of_nat n -> le_bytes n a ++ le_bytes k b = le_bytes (n + k) (a + 256 ^ Z.of_nat n * b).
Proof.
  intros Ha. unfold le_bytes. rewrite seq_app, map_app. f_equal.
  - apply map_ext_in. intros i Hi%in_seq. assert (0 < 256 ^ Z.of_nat i) by (apply Z.pow_pos_nonneg; lia).
    replace (256 ^ Z.of_nat n) with (256 ^ Z.of_nat (n - i - 1) * 256 * 256 ^ Z.of_nat i).
    + replace (a + _ * _ * _ * b) with (a + (256 ^ Z.of_nat (n - i - 1) * b * 256) * 256 ^ Z.of_nat i) by ring.
      by rewrite Z.div_add, Z.mod_add by lia.
    + rewrite <- (Z.pow_1_r 256) at 2. rewrite <- !Z.pow_add_r by lia. f_equal. lia.
  - cbn [Nat.add]. rewrite (seq_shift_add n k), map_map. apply map_ext_in. intros i Hi%in_seq.
    assert (0 < 256 ^ Z.of_nat i) by (apply Z.pow_pos_nonneg; lia).
    rewrite Nat2Z.inj_add, Z.pow_add_r, <- Z.div_div, (Z.mul_comm (256 ^ Z.of_nat n)) by lia.
    rewrite Z.div_add, (Z.div_small a) by lia. by rewrite Z.add_0_l.
Qed.

Lemma le_bytes_mod n v : le_bytes n (v mod 256 ^ Z.of_nat n) = le_bytes n v.
Proof.
  assert (0 < 256 ^ Z.of_nat n) as Hp by (apply Z.pow_pos_nonneg; lia).
  rewrite (Z.div_mod v (256 ^ Z.of_nat n)) at 2 by lia.
  pose proof (le_bytes_join n 0 (v mod 256 ^ Z.of_nat n) (v / 256 ^ Z.of_nat n) (Z.mod_pos_bound _ _ Hp)) as E.
  rewrite app_nil_r, Nat.add_0_r in E. rewrite E. f_equal. lia.
Qed.

Lemma encode_count c m : holds c m -> Md5Encode [count0 c; count1 c] = le_bytes 8 (8 * Z.of_nat (length m)).
Proof.
  intros [Hc H0 H1 _ _ _]. unfold Md5Encode. cbn [flat_map]. rewrite !encode_word_le, app_nil_r.
  rewrite le_bytes_join by (change (256 ^ Z.of_nat 4) with (2 ^ 32); lia). change (256 ^ Z.of_nat 4) with (2 ^ 32).
  rewrite Hc. apply (le_bytes_mod 8).
Qed.

Lemma padding_split len :
  let r := len mod 64 in
  let padlen := if r <? 56 then 56 - r else 120 - r in
  padding len = take (Z.to_nat padlen) PADDING ++ le_bytes 8 (8 * len) /\ 0 < padlen <= 64.
Proof.
  intros r padlen. assert (0 <= r < 64) as Hr by (apply Z.mod_pos_bound; lia).
  assert (0 < padlen <= 64 /\ (55 - len) mod 64 = padlen - 1) as [Hp E].
  { subst padlen. destruct (Z.ltb_spec r 56); subst r; dlia. }
  split; [|done]. unfold padding, PADDING. rewrite E. replace (Z.to_nat padlen) with (S (Z.to_nat (padlen - 1))) by lia.
  rewrite firstn_cons, take_replicate. cbn [app]. do 3 f_equal. clearbody padlen. lia.
Qed.

Lemma Md5Final_holds c m :
  holds c m -> Forall is_byte m -> exists c', Md5Final c = Val (md5 m, c').
Proof.
  intros Hc Hm. unfold Md5Final. rewrite (holds_index _ _ Hc), Nat2Z.inj_mod, (encode_count _ _ Hc).
  change (Z.of_nat 64) with 64. destruct (padding_split (Z.of_nat (length m))) as [Ep Hp]. set (padlen := if _ <? _ then _ else _) in *.
  set (pad := take (Z.to_nat padlen) PADDING) in *.
  assert (length pad = Z.to_nat padlen) as Lp.
  { unfold pad. rewrite length_take. unfold PADDING. cbn [length]. rewrite length_replicate. lia. }
  assert (Forall is_byte pad) as Hpb by (apply Forall_take, Forall_forall; unfold PADDING, is_byte; set_solver by lia).
  destruct (Md5Update_holds c m pad) as (c1 & E1 & H1); [done..|lia|].
  replace (Z.of_nat (length pad)) with padlen in E1 by lia.
  assert (PADDING = pad ++ drop (Z.to_nat padlen) PADDING) as EP by (unfold pad; by rewrite take_drop). rewrite EP.
  rewrite (Md5Update_prefix pad _ _ c c1 ltac:(apply Hc) E1). cbn [mbind outcome_bind].
  set (bits := le_bytes 8 _) in *.
  assert (Forall is_byte bits) as Hbb.
  { unfold bits, le_bytes. apply Forall_map, Forall_true. intros k. apply Z.mod_pos_bound. lia. }
  destruct (Md5Update_holds c1 (m ++ pad) bits) as (c2 & E2 & H2); [done|by apply Forall_app|done|done|].
  change 8 with (Z.of_nat (length bits)) at 1. rewrite E2. cbn [mbind outcome_bind].
  unfold md5. rewrite Ep, app_assoc. pose proof (holds_state _ _ H2) as Es.
  assert (forall w, (let '(s0, s1, s2, s3) := w in Val (Md5Encode [s0; s1; s2; s3], c2)) = Val (digest w, c2)) as Ed.
  { intros [[[? ?] ?] ?]. unfold Md5Encode, digest. cbn [flat_map]. by rewrite !encode_word_le, app_nil_r. }
  rewrite Ed, Es. eauto.
Qed.

(** Feeding pieces one after the other. *)
Fixpoint update_all (pieces : list bytes) (c : AdMd5) : outcome AdMd5 :=
  match pieces with [] => Val c | p :: ps => c ← Md5Update p (Z.of_nat (length p)) c; update_all ps c end.

Lemma update_all_holds pieces c m :
  holds c m -> Forall is_byte m -> Forall (fun p => Forall is_byte p /\ Z.of_nat (length p) < 2 ^ 32 - 64) pieces ->
  exists c', update_all pieces c = Val c' /\ holds c' (m ++ concat pieces).
Proof.
  intros Hc Hm Hp. revert c m Hc Hm. induction Hp as [|p ps [Hb Hl] _ IH]; intros c m Hc Hm.
  - exists c. by rewrite app_nil_r.
  - destruct (Md5Update_holds c m p Hc Hm Hb Hl) as (c1 & E1 & H1). cbn [update_all concat]. rewrite E1. cbn [mbind outcome_bind].
    rewrite app_assoc. apply IH; [done|]. by apply Forall_app.
Qed.

Lemma Md5Init_holds c : length (buffer c) = 64%nat -> holds (Md5Init c) [].
Proof. intros Hb. by split. Qed.

Lemma c_str_prefix s : exists t, s = c_str s ++ t.
Proof.
  induction s as [|b s [t IH]]; [by exists []|]. cbn [c_str]. destruct (b =? 0); [by exists (b :: s)|]. exists t. cbn [app]. by f_equal.
Qed.

(** C35: The digest is the MD5 of RFC 1321, whose functions, rounds, constants and padding are
    specified apart from the code: [F], [G], [H] and [I] by their truth tables, the 64 constants from
    the sine.  Whatever the context held before, a message that is fed
    in pieces of any lengths, empty ones included, has the digest of the whole message, and so have
    the two entries of the class, on a length and on a text up to its terminator. *)
Theorem md5_rfc1321 c pieces src :
  length (buffer c) = 64%nat ->
  Forall (fun p => Forall is_byte p /\ Z.of_nat (length p) < 2 ^ 32 - 64) pieces ->
  Forall is_byte src -> Z.of_nat (length src) < 2 ^ 31 ->
  (exists c', (c ← update_all pieces (Md5Init c); Md5Final c) = Val (md5 (concat pieces), c'))
  /\ (exists c', AdMd5Run_len src (Z.of_nat (length src)) c = Val (md5 src, c'))
  /\ (exists c', AdMd5Run src c = Val (md5 (c_str src), c')).
Proof.
  intros Hb Hp Hs Hl. pose proof (Md5Init_holds c Hb) as Hi. split_and!.
  - destruct (update_all_holds pieces _ [] Hi) as (c1 & E & H1); [done..|]. rewrite E. cbn [mbind outcome_bind].
    apply Md5Final_holds; [done|]. apply Forall_concat. eapply Forall_impl; [exact Hp|]. by intros ? [? _].
  - unfold AdMd5Run_len. rewrite uwrap_small by lia.
    destruct (Md5Update_holds (Md5Init c) [] src Hi) as (c1 & E & H1); [done..|lia|]. rewrite E. cbn [mbind outcome_bind].
    by apply Md5Final_holds.
  - unfold AdMd5Run, AdMd5Run_len. destruct (c_str_prefix src) as [t Et]. set (p := c_str src) in *.
    assert (Forall is_byte p) as Hpb by (rewrite Et in Hs; by apply Forall_app in Hs as [? _]).
    assert (length p <= length src)%nat as Hlp by (rewrite Et, length_app; lia). rewrite uwrap_small by lia.
    destruct (Md5Update_holds (Md5Init c) [] p Hi) as (c1 & E & H1); [done..|lia|].
    rewrite Et. rewrite (Md5Update_prefix p t _ _ c1) by done. cbn [mbind outcome_bind]. by apply Md5Final_holds.
Qed.

Definition fresh_md5 : AdMd5 := mkMd5 7 9 (1, 2, 3, 4) (replicate 64 255).

Lemma md5_rfc1321_witness :
  (exists c', (c ← update_all [str "mess"; []; str "age digest"] (Md5Init fresh_md5); Md5Final c) = Val (md5 (str "message digest"), c'))
  /\ (exists c', AdMd5Run_len (str "abc") 3 fresh_md5 = Val (md5 (str "abc"), c'))
  /\ (exists c', AdMd5Run (str "abc") fresh_md5 = Val (md5 (c_str (str "abc")), c')).
Proof.
  apply (md5_rfc1321 fresh_md5 [str "mess"; []; str "age digest"] (str "abc")).
  - reflexivity.
  - apply (bool_decide_unpack _). by vm_compute.
  - apply (bool_decide_unpack _). by vm_compute.
  - by vm_compute.
Defined.

(** Digests of the appendix of the RFC. *)
Definition hex_digest (src : bytes) : bytes :=
  match AdMd5Run src fresh_md5 with
  | Val (d, _) => flat_map (fun b => [hex_char (b / 16); hex_char (b mod 16)]) d
  | _ => []
  end.
Example md5_vectors :
  hex_digest [] = str "d41d8cd98f00b204e9800998ecf8427e"
  /\ hex_digest (str "message digest") = str "f96b697d7cb7938d525a2f31aaf161d0"
  /\ hex_digest (str "12345678901234567890123456789012345678901234567890123456789012345678901234567890")
     = str "57edf4a22be3c955ac49da2e2107b67a".
Proof. by vm_compute. Qed.
