(* ===== verification/TanxDevice.v ===== *)
(** * TanxDevice: the device ids of Tanx (protocol/tanx/tanx_device_id.cpp)

    Tanx sends the ids of a device encrypted: a version byte, the length of the id, the id combined
    with the digest of a key, and four bytes of a digest over all of it.  The base64 filter and the
    digest of OpenSSL are the parameter [OpenSSL].  The buffers of the code have 1024 and 64 bytes;
    what was not written to them is not known. *)
From S2P Require Import Md5.
From S2P Require Import Prelude CString UrlCodec Cypher Rijndael RijndaelProofs SohuPrice Double PriceDecode.

Definition device_key : bytes :=
  [0x01; 0xd5; 0xba; 0xaf; 0x00; 0x9c; 0x4d; 0xd6; 0xbb; 0x01; 0xb7; 0x11; 0xfc; 0x74; 0x92; 0x92].

Definition KEY_LENGTH : nat := 16.
Definition DEVICEID_LENGTH : nat := 1.
Definition DEVICE_VERSION_LENGTH : nat := 1.
Definition DEVICE_CRC_LENGTH : nat := 4.
Definition ENCODEDEVICEID_OFFSITE : nat := 2.
Definition device_buffer : nat := 64.

Definition base64DecodedLength (len : Z) : Z := (len + 3) / 4 * 3.

(** [n] bytes of a buffer of which [s] was written. *)
Definition bytes_at (s : bytes) (i n : nat) : outcome bytes := check (i + n <=? length s)%nat;; Val (take n (drop i s)).

Section device.
Context `{OpenSSL}.

(** [pXor] is what is left of the digest [ctx]; the result is written to 64 bytes. *)
Fixpoint xor_loop (src : bytes) (ctx pXor : bytes) (i : Z) (n : nat) (deviceId : bytes) : outcome bytes :=
  match n with
  | O => Val deviceId
  | S n =>
    let pXor := match pXor with [] => ctx | _ => pXor end in
    c ← rd src (Z.of_nat ENCODEDEVICEID_OFFSITE + i);
    x ← rd pXor 0;
    check (length deviceId <? device_buffer)%nat;;
    xor_loop src ctx (tail pXor) (i + 1) n (deviceId ++ [Z.lxor c x])
  end.

(** The text of [realDeviceId] when the result is true. *)
Definition decodeDeviceId (src : bytes) : outcome (option bytes) :=
  v ← rd src 0;
  if negb (v =? 1) then Val None
  else
    len ← rd src (Z.of_nat DEVICE_VERSION_LENGTH);
    let len := Z.to_nat len in
    let ctxBuf := MD5 device_key in
    deviceId ← xor_loop src ctxBuf ctxBuf 0 len [];
    check (len <? device_buffer)%nat;;
    head ← bytes_at src 0 (DEVICE_VERSION_LENGTH + DEVICEID_LENGTH);
    check (DEVICE_VERSION_LENGTH + DEVICEID_LENGTH + len + KEY_LENGTH <=? device_buffer)%nat;;
    let ctxBuf := MD5 (head ++ deviceId ++ device_key) in
    crc ← bytes_at src (ENCODEDEVICEID_OFFSITE + len) DEVICE_CRC_LENGTH;
    Val (if bool_decide (take DEVICE_CRC_LENGTH ctxBuf = crc) then Some (c_str deviceId) else None).

(** Without a decoded byte nothing of [orig] was written. *)
Definition tanxDeviceId (src : bytes) : outcome bytes :=
  match src with
  | [] => Val []
  | _ =>
    let orig := default [] (BIO_read_base64 src (base64DecodedLength (Z.of_nat (length src)))) in
    check (length orig <=? 1024)%nat;;
    o ← decodeDeviceId orig;
    Val (default [] o)
  end.
End device.

(** ** Properties *)

Ltac sizes := unfold DEVICE_VERSION_LENGTH, DEVICEID_LENGTH, KEY_LENGTH, ENCODEDEVICEID_OFFSITE, device_buffer in *; lia.

(** The digest repeated, from a position. *)
Definition key_stream (ctx : bytes) (i n : nat) : bytes := map (fun i => nth (i mod KEY_LENGTH) ctx 0) (seq i n).

(** What Tanx sends for an id. *)
Definition device_message `{OpenSSL} (id sig : bytes) : bytes :=
  [1; Z.of_nat (length id)] ++ xor_bytes id (key_stream (MD5 device_key) 0 (length id)) ++ sig.
Definition device_sig `{OpenSSL} (id : bytes) : bytes := take 4 (MD5 ([1; Z.of_nat (length id)] ++ id ++ device_key)).

Section decoding.
Context `{OpenSSLLaws}.

Lemma length_key_stream ctx i n : length (key_stream ctx i n) = n.
Proof. unfold key_stream. by rewrite length_map, length_seq. Qed.

Lemma key_stream_bytes i n : Forall is_byte (key_stream (MD5 device_key) i n).
Proof.
  apply List.Forall_forall. intros x Hx. apply in_map_iff in Hx as (j & <- & _).
  destruct (MD5_size device_key) as [Hl Hb]. rewrite List.Forall_forall in Hb. apply Hb, nth_In. rewrite Hl.
  by apply Nat.mod_upper_bound.
Qed.

Lemma next_position i :
  (S (i mod KEY_LENGTH) = KEY_LENGTH /\ S i mod KEY_LENGTH = 0)%nat
  \/ (S (i mod KEY_LENGTH) < KEY_LENGTH /\ S i mod KEY_LENGTH = S (i mod KEY_LENGTH))%nat.
Proof.
  unfold KEY_LENGTH. pose proof (Nat.div_mod_eq i 16). pose proof (Nat.mod_upper_bound i 16 ltac:(done)).
  destruct (decide (S (i mod 16) = 16)%nat) as [E|E]; [left|right].
  - split; [done|]. symmetry. apply (Nat.mod_unique _ _ (S (i / 16))%nat); lia.
  - split; [lia|]. symmetry. apply (Nat.mod_unique _ _ (i / 16)%nat); lia.
Qed.

(** The pointer into the digest is that of the position. *)
Definition left_of (ctx : bytes) (i : nat) (p : bytes) : Prop := match p with [] => ctx | _ => p end = drop (i mod KEY_LENGTH) ctx.

Lemma left_of_next ctx i x p : length ctx = KEY_LENGTH -> x :: p = drop (i mod KEY_LENGTH) ctx -> left_of ctx (S i) p.
Proof.
  intros Hl Hp. assert (p = drop (S (i mod KEY_LENGTH)) ctx) as Ep by (by rewrite <- Nat.add_1_r, <- drop_drop, <- Hp).
  pose proof (length_drop ctx (S (i mod KEY_LENGTH))) as Hd. rewrite <- Ep in Hd. unfold left_of.
  destruct (next_position i) as [[E ->]|[E ->]]; destruct p; cbn [length] in Hd; try done; lia.
Qed.

Lemma xor_loop_spec ctx y : length ctx = KEY_LENGTH -> forall pre a b p,
  (length pre + length y <= device_buffer)%nat -> left_of ctx (length pre) p -> length a = (ENCODEDEVICEID_OFFSITE + length pre)%nat ->
  xor_loop (a ++ y ++ b) ctx p (Z.of_nat (length pre)) (length y) pre = Val (pre ++ xor_bytes y (key_stream ctx (length pre) (length y))).
Proof.
  intros Hl. induction y as [|c y IH]; intros pre a b p Hd Hp Ha; cbn [xor_loop length]; [by rewrite app_nil_r|].
  cbn [length] in Hd. red in Hp. pose proof (length_drop ctx (length pre mod KEY_LENGTH)) as Hn.
  pose proof (Nat.mod_upper_bound (length pre) KEY_LENGTH ltac:(done)) as Hk.
  change ((c :: y) ++ b) with (c :: y ++ b). rewrite Hp, rd_mid by lia. destruct (drop (length pre mod KEY_LENGTH) ctx) as [|x q] eqn:Ed; [cbn [length] in Hn; lia|].
  change (rd (x :: q) 0) with (Val x). destruct (Nat.ltb_spec (length pre) device_buffer); [|lia].
  cbn [mbind outcome_bind check tail]. specialize (IH (pre ++ [Z.lxor c x]) (a ++ [c]) b q).
  rewrite !length_app in IH. cbn [length] in IH. rewrite Nat2Z.inj_add, <- app_assoc in IH. cbn [app] in IH.
  change (Z.of_nat 1) with 1 in IH. rewrite IH; [|lia| |lia].
  - rewrite <- app_assoc, Nat.add_1_r. f_equal. f_equal. cbn [key_stream seq map xor_bytes app]. f_equal. f_equal.
    rewrite <- (Nat.add_0_r (length pre mod KEY_LENGTH)), <- nth_skipn. by rewrite Ed.
  - rewrite Nat.add_1_r. by eapply left_of_next.
Qed.

Lemma bytes_at_mid (a b c : bytes) i n : i = length a -> n = length b -> bytes_at (a ++ b ++ c) i n = Val b.
Proof.
  intros -> ->. unfold bytes_at. rewrite !length_app. destruct (Nat.leb_spec (length a + length b) (length a + (length b + length c))); [|lia].
  cbn [check mbind outcome_bind]. by rewrite drop_app_length, take_app_length.
Qed.

Lemma decodeDeviceId_message id sig :
  (length id <= 46)%nat -> length sig = 4%nat ->
  decodeDeviceId (device_message id sig) = Val (if bool_decide (device_sig id = sig) then Some (c_str id) else None).
Proof.
  intros Hi Hs. destruct (MD5_size device_key) as [Ml _]. unfold decodeDeviceId, device_message.
  set (y := xor_bytes id _). assert (length y = length id) as Hy by (apply xor_bytes_length; by rewrite length_key_stream).
  change (rd _ 0) with (Val 1) at 1. change (rd _ (Z.of_nat DEVICE_VERSION_LENGTH)) with (Val (Z.of_nat (length id))) at 1.
  cbn [mbind outcome_bind negb Z.eqb Pos.eqb]. rewrite Nat2Z.id, <- Hy.
  rewrite (xor_loop_spec (MD5 device_key) y Ml [] [1; Z.of_nat (length y)] sig); [|unfold device_buffer; cbn [length]; lia|by destruct (MD5 device_key)|done].
  cbn [app mbind outcome_bind]. replace (xor_bytes y _) with id.
  2:{ rewrite Hy. unfold y. rewrite (xor_bytes_comm id). symmetry. apply xor_bytes_cancel. by rewrite length_key_stream. }
  rewrite Hy. destruct (Nat.ltb_spec (length id) device_buffer); [|sizes].
  destruct (Nat.leb_spec (DEVICE_VERSION_LENGTH + DEVICEID_LENGTH + length id + KEY_LENGTH) device_buffer); [|sizes].
  cbn [check mbind outcome_bind]. change (bytes_at _ 0 _) with (Val [1; Z.of_nat (length id)]). cbn [mbind outcome_bind].
  pose proof (bytes_at_mid ([1; Z.of_nat (length id)] ++ y) sig [] (ENCODEDEVICEID_OFFSITE + length id) DEVICE_CRC_LENGTH) as E.
  rewrite app_nil_r in E. change (1 :: Z.of_nat (length id) :: y ++ sig) with (([1; Z.of_nat (length id)] ++ y) ++ sig).
  rewrite E by (rewrite ?length_app, ?Hy; done). done.
Qed.

Lemma xor_loop_no_exc src ctx p i n d e : xor_loop src ctx p i n d <> Exc e.
Proof.
  revert p i d. induction n as [|n IH]; intros p i d; cbn [xor_loop]; [done|].
  destruct (rd src _) as [c| |] eqn:E1; [|by apply rd_no_exc in E1|done]. cbn [mbind outcome_bind].
  destruct (rd _ 0) as [x| |] eqn:E2; [|by apply rd_no_exc in E2|done]. cbn [mbind outcome_bind].
  destruct (_ <? _)%nat; [apply IH|done].
Qed.

(** A length that the buffers have no room for is not refused. *)
Lemma decodeDeviceId_overflow len y : 46 < len -> decodeDeviceId ([1; len] ++ y) = Undef.
Proof.
  intros Hl. unfold decodeDeviceId. change (rd _ 0) with (Val 1) at 1. change (rd _ (Z.of_nat DEVICE_VERSION_LENGTH)) with (Val len).
  cbn [mbind outcome_bind negb Z.eqb Pos.eqb]. destruct (xor_loop _ _ _ _ _ _) as [d|e|] eqn:E; [|exfalso|done].
  - cbn [mbind outcome_bind]. destruct (_ <? _)%nat; [|done]. cbn [check mbind outcome_bind]. change (bytes_at _ 0 _) with (Val [1; len]).
    cbn [mbind outcome_bind]. destruct (Nat.leb_spec (DEVICE_VERSION_LENGTH + DEVICEID_LENGTH + Z.to_nat len + KEY_LENGTH) device_buffer); [|done].
    sizes.
  - by apply xor_loop_no_exc in E.
Qed.
End decoding.

(** The device ids of Tanx.  The text of an id of at most 46 bytes without NUL is decoded to the
    id when the four bytes after it are the checksum of the id, and to the empty text when they are
    not. *)
Theorem tanx_device_id `{OpenSSLLaws} id sig :
  Forall is_byte id -> no_nul id -> (length id <= 46)%nat -> Forall is_byte sig -> length sig = 4%nat ->
  tanxDeviceId (b64_enc (device_message id sig)) = Val (if bool_decide (device_sig id = sig) then id else []).
Proof.
  intros Hi Hn Hl Hs Hsl. pose proof (key_stream_bytes 0 (length id)) as Hk.
  assert (length (device_message id sig) = 6 + length id)%nat as Hm.
  { unfold device_message. rewrite !length_app, xor_bytes_length by (by rewrite length_key_stream). cbn [length]. lia. }
  assert (Forall is_byte (device_message id sig)) as Hb.
  { unfold device_message. apply Forall_app. split; [repeat constructor; unfold is_byte; lia|].
    apply Forall_app. split; [|done]. by apply xor_bytes_byte. }
  destruct (length_b64_enc (device_message id sig)) as (_ & _ & L2 & _). unfold tanxDeviceId.
  destruct (b64_enc (device_message id sig)) as [|c t] eqn:E; [cbn [length] in L2; lia|]. rewrite <- E in *. clear E c t.
  rewrite BIO_read_b64; [|done|intros E; rewrite E in Hm; cbn [length] in Hm; lia|apply b64_room].
  change (default [] (Some (device_message id sig))) with (device_message id sig). destruct (Nat.leb_spec (length (device_message id sig)) 1024); [|lia]. cbn [check mbind outcome_bind].
  rewrite decodeDeviceId_message by done. cbn [mbind outcome_bind]. case_bool_decide; [|done]. f_equal. by apply c_str_id.
Qed.

(** ** Instances *)

Module DeviceInstance.
(** The digest of RFC 1321. *)
#[local] Instance rfc_openssl : OpenSSL := {|
  HMAC md k d := Some (sum_digest 20 k d); MD5 d := md5 d; BIO_read_base64 s n := Some (take (Z.to_nat n) (b64_dec s)) |}.
#[local] Instance rfc_openssl_laws : OpenSSLLaws rfc_openssl.
Proof.
  constructor.
  - intros k d h [= <-]. apply sum_digest_ok.
  - intros d. apply md5_size.
  - intros x n Hx _ Hn. cbn. rewrite b64_dec_enc, take_ge by (done || lia). done.
Qed.

Definition an_imei : bytes := str "493002407599521".

Example imei_text : b64_enc (device_message an_imei (device_sig an_imei)) = str "AQ8hfxmjRu1eQh/my5Z2XU+04MyU".
Proof. by vm_compute. Qed.

Lemma tanx_device_id_witness :
  tanxDeviceId (b64_enc (device_message an_imei (device_sig an_imei))) = Val an_imei
  /\ tanxDeviceId (b64_enc (device_message an_imei [1; 2; 3; 4])) = Val [].
Proof.
  split.
  - rewrite (tanx_device_id an_imei (device_sig an_imei)); [by vm_compute|by_decide|by_decide|by apply Nat.leb_le|by_decide|by vm_compute].
  - rewrite (tanx_device_id an_imei [1; 2; 3; 4]); [by vm_compute|by_decide|by_decide|by apply Nat.leb_le|by_decide|by vm_compute].
Defined.

(** Fifty bytes after a version and their number overflow the buffers. *)
Example long_id_overflows : tanxDeviceId (b64_enc ([1; 50] ++ replicate 60 65)) = Undef.
Proof. by vm_compute. Qed.
End DeviceInstance.
