(* ===== verification/Acbm.v ===== *)
(** * Acbm: the matcher of many patterns (libutil/AdAcbm.h, libutil/AdAcbm.cpp)

    [AdAcbm] keeps its patterns in a tree with one step per letter, in which capital and small
    letters share their nodes, and searches a text from its end.  A node is named by the letters
    that lead to it, in place of its address: the code allocates a node only where there is none.
    [AdAcbmTreeBuild], which computes how far the search may jump, is modelled too; the service
    never calls it. *)
From S2P Require Import Prelude CString Double.

Definition lower (s : bytes) : bytes := map to_lower s.

(** ** The tree *)

Record ADACBMNODE_S := mkNode {
  m_iLabel : Z; m_iDepth : Z; m_ucVal : Z; m_iGSShift : Z; m_iChild : Z; m_ucChild : Z; m_pstChild : gmap Z bytes;
}.

(** The parser that uses the matcher is a static object, whose shifts begin as zeros. *)
Definition AD_ACBM : nat := 256.
Record AdAcbmTree := mkTree {
  m_iPtnCount : Z; m_iMaxDepth : Z; m_iMinPtnSize : Z; m_iBCShift : list Z; m_pstRoot : bool;
  nodes : gmap bytes ADACBMNODE_S; m_vStr : list bytes; m_mData : gmap Z (list Z);
}.
Definition tree0 : AdAcbmTree := mkTree 0 0 512 (replicate AD_ACBM 0) false ∅ [] ∅.

(** [clear] frees the nodes and sets the shifts to zero. *)
Definition clear (t : AdAcbmTree) : AdAcbmTree := tree0.

(** ** Adding a pattern *)

(** The node after the letters of the pattern that are in the tree, and the other letters. *)
Fixpoint descend (h : gmap bytes ADACBMNODE_S) (parent : bytes) (s : bytes) : bytes * bytes :=
  match s with
  | [] => (parent, [])
  | c :: s' =>
    match h !! parent ≫= fun n => m_pstChild n !! to_lower c with
    | None => (parent, s)
    | Some child => descend h child s'
    end
  end.

Definition add_child (uc : Z) (child : bytes) (n : ADACBMNODE_S) : ADACBMNODE_S :=
  let cs := <[uc := child]> (m_pstChild n) in
  let cs := if (97 <=? uc) && (uc <=? 122) then <[uc - 32 := child]> cs else cs in
  mkNode (m_iLabel n) (m_iDepth n) (m_ucVal n) (m_iGSShift n) (m_iChild n + 1) uc cs.

(** A new node below [p]. *)
Definition with_child (p : bytes) (uc depth : Z) (h : gmap bytes ADACBMNODE_S) : gmap bytes ADACBMNODE_S :=
  alter (add_child uc (p ++ [uc])) p (<[p ++ [uc] := mkNode (-1) (depth + 1) uc 0 0 0 ∅]> h).

(** New nodes for the other letters; [malloc] says which of the allocations succeed. *)
Fixpoint grow (malloc : bytes -> bool) (h : gmap bytes ADACBMNODE_S) (parent : bytes) (depth : Z) (s : bytes)
    : option (gmap bytes ADACBMNODE_S * bytes) :=
  match s with
  | [] => Some (h, parent)
  | c :: s =>
    let uc := to_lower c in
    let child := parent ++ [uc] in
    if malloc child then
      grow malloc (with_child parent uc depth h) child (depth + 1) s
    else None
  end.

Definition set_label (k : Z) (n : ADACBMNODE_S) : ADACBMNODE_S :=
  mkNode k (m_iDepth n) (m_ucVal n) (m_iGSShift n) (m_iChild n) (m_ucChild n) (m_pstChild n).
Definition label_at (h : gmap bytes ADACBMNODE_S) (p : bytes) : Z := from_option m_iLabel 0 (h !! p).

Definition root0 : ADACBMNODE_S := mkNode (-2) 0 0 0 0 0 ∅.

(** A failure, also of an empty pattern, clears the tree. *)
Definition AdAcbmTreeAdd (malloc : bytes -> bool) (sStr : bytes) (pData : Z) (t : AdAcbmTree) : AdAcbmTree * bool :=
  let root := m_pstRoot t || malloc [] in
  let h := if m_pstRoot t then nodes t else <[[] := root0]> (nodes t) in
  let len := Z.of_nat (length sStr) in
  if negb root || (len =? 0) then (clear t, false)
  else
    let '(parent, rest) := descend h [] sStr in
    match grow malloc h parent (len - Z.of_nat (length rest)) rest with
    | None => (clear t, false)
    | Some (h, parent) =>
      let fresh := label_at h parent <? 0 in
      let h := if fresh then alter (set_label (m_iPtnCount t)) parent h else h in
      let k := label_at h parent in
      (mkTree (if fresh then m_iPtnCount t + 1 else m_iPtnCount t)
              (Z.max (m_iMaxDepth t) len) (Z.min (m_iMinPtnSize t) len) (m_iBCShift t) true h
              (m_vStr t ++ [sStr]) (<[k := default [] (m_mData t !! k) ++ [pData]]> (m_mData t)), true)
    end.

(** ** Searching *)

Abbreviation results := (gmap Z (list bytes)).
Definition report (t : AdAcbmTree) (k : Z) (r : results) : outcome results :=
  foldl (fun r d => r ← r; s ← rd (m_vStr t) k; Val (<[d := default [] (r !! d) ++ [s]]> r)) (Val r) (default [] (m_mData t !! k)).

(** The inner loop, from a node and the text at [iCur], which is not empty: the last node, the text
    that was not read and the matches. *)
Fixpoint follow (t : AdAcbmTree) (node : bytes) (text : bytes) (iMatch : Z) (r : results) : outcome (bytes * bytes * Z * results) :=
  match text with
  | [] => Val (node, [], iMatch, r)
  | c :: text' =>
    match nodes t !! node with
    | None => Undef
    | Some n =>
      match m_pstChild n !! c with
      | None => Val (node, text, iMatch, r)
      | Some child =>
        let k := label_at (nodes t) child in
        if 0 <=? k then r ← report t k r; follow t child text' (iMatch + 1) r
        else follow t child text' iMatch r
      end
    end
  end.

(** How far the base moves. *)
Definition next_shift (t : AdAcbmTree) (node rest : bytes) (read : Z) : outcome Z :=
  match nodes t !! node with
  | None => Undef
  | Some n =>
    if 0 <? m_iChild n then
      match m_pstChild n !! m_ucChild n ≫= fun child => nodes t !! child with
      | None => Undef
      | Some child =>
        bc ← match rest with c :: _ => b ← rd (m_iBCShift t) c; Val (b - read) | [] => Val 1 end;
        let shift := if bc <? m_iGSShift child then bc else m_iGSShift child in
        Val (if shift <=? 0 then 1 else shift)
      end
    else Val 1
  end.

(** The base moves down by at least one in each pass. *)
Fixpoint search_loop (fuel : nat) (t : AdAcbmTree) (sStr : bytes) (iBase : Z) (iMatch : Z) (r : results) : outcome (Z * results) :=
  if iBase <? 0 then Val (iMatch, r)
  else
    match fuel with
    | O => Undef
    | S fuel =>
      let text := drop (Z.to_nat iBase) sStr in
      check (m_pstRoot t && negb (bool_decide (text = [])));;
      '(node, rest, iMatch, r) ← follow t [] text iMatch r;
      shift ← next_shift t node rest (Z.of_nat (length text - length rest));
      search_loop fuel t sStr (iBase - shift) iMatch r
    end.

Definition AdAcbmSearch (t : AdAcbmTree) (sStr : bytes) (r : results) : outcome (Z * results) :=
  let iBase := Z.of_nat (length sStr) - m_iMinPtnSize t in
  if iBase <? 0 then Val (0, r) else search_loop (S (length sStr)) t sStr iBase 0 r.

(** ** Building the shifts *)

Definition upd_bc (f : list Z -> list Z) (t : AdAcbmTree) : AdAcbmTree :=
  mkTree (m_iPtnCount t) (m_iMaxDepth t) (m_iMinPtnSize t) (f (m_iBCShift t)) (m_pstRoot t) (nodes t) (m_vStr t) (m_mData t).
Definition upd_nodes (h : gmap bytes ADACBMNODE_S) (t : AdAcbmTree) : AdAcbmTree :=
  mkTree (m_iPtnCount t) (m_iMaxDepth t) (m_iMinPtnSize t) (m_iBCShift t) (m_pstRoot t) h (m_vStr t) (m_mData t).

(** One letter of [AdAcbmBCShift]; the capital of [a] and [z] is left out. *)
Definition bc_letter (iOne : Z) (s : bytes) (bc : list Z) : outcome (list Z) :=
  c ← rd s iOne;
  let uc := to_lower c in
  bc ← wr bc uc iOne;
  if (97 <? uc) && (uc <? 122) then wr bc (uc - 32) iOne else Val bc.

Fixpoint bc_patterns (iOne : Z) (strs : list bytes) (bc : list Z) : outcome (list Z) :=
  match strs with [] => Val bc | s :: strs => bc ← bc_letter iOne s bc; bc_patterns iOne strs bc end.
(** [for (iOne = min - 1; iOne > 0; iOne--)] *)
Fixpoint bc_loop (n : nat) (strs : list bytes) (bc : list Z) : outcome (list Z) :=
  match n with
  | O => Val bc
  | S n => bc ← bc_patterns (Z.of_nat (S n)) strs bc; bc_loop n strs bc
  end.
Definition AdAcbmBCShift (t : AdAcbmTree) : outcome AdAcbmTree :=
  check (m_iPtnCount t <=? Z.of_nat (length (m_vStr t)));;
  bc ← bc_loop (Z.to_nat (m_iMinPtnSize t - 1)) (take (Z.to_nat (m_iPtnCount t)) (m_vStr t)) (replicate AD_ACBM (m_iMinPtnSize t));
  Val (upd_bc (fun _ => bc) t).

Definition set_gs (s : Z) (n : ADACBMNODE_S) : ADACBMNODE_S :=
  mkNode (m_iLabel n) (m_iDepth n) (m_ucVal n) s (m_iChild n) (m_ucChild n) (m_pstChild n).

(** The recursion goes down the tree, whose depth bounds it. *)
Fixpoint AdAcbmGSShiftInitCore (fuel : nat) (node : bytes) (iShift : Z) (h : gmap bytes ADACBMNODE_S) : outcome (gmap bytes ADACBMNODE_S) :=
  match fuel, h !! node with
  | S fuel, Some n =>
    let h := if m_iLabel n =? -2 then h else alter (set_gs iShift) node h in
    foldl (fun h c => h ← h;
             if (65 <=? c) && (c <=? 90) then Val h
             else match m_pstChild n !! c with Some child => AdAcbmGSShiftInitCore fuel child iShift h | None => Val h end)
          (Val h) (map Z.of_nat (seq 0 AD_ACBM))
  | _, _ => Undef
  end.
Definition AdAcbmGSShiftInit (t : AdAcbmTree) : outcome AdAcbmTree :=
  h ← AdAcbmGSShiftInitCore (S (Z.to_nat (m_iMaxDepth t))) [] (m_iMinPtnSize t) (nodes t); Val (upd_nodes h t).

(** [AdAcbmSetGSShift1]: the shift of the node after [iDepth] letters is lowered; [str[size()]] is
    a zero. *)
Fixpoint node_after (h : gmap bytes ADACBMNODE_S) (node : bytes) (s : bytes) (iDepth : nat) : outcome (option bytes) :=
  match iDepth with
  | O => Val (Some node)
  | S d =>
    match h !! node, s with
    | None, _ => Undef
    | Some n, c :: s => match m_pstChild n !! c with Some child => node_after h child s d | None => Val None end
    | Some n, [] => match m_pstChild n !! 0 with Some _ => Undef | None => Val None end
    end
  end.
Definition AdAcbmSetGSShift1 (sStr : bytes) (iDepth : nat) (iShift : Z) (h : gmap bytes ADACBMNODE_S) : outcome (gmap bytes ADACBMNODE_S) :=
  p ← node_after h [] sStr iDepth;
  match p with
  | None => Val h
  | Some node => Val (alter (fun n => set_gs (if m_iGSShift n <? iShift then m_iGSShift n else iShift) n) node h)
  end.

(** How many letters are compared, the one that differs included. *)
Fixpoint compared (s1 s2 : bytes) : nat :=
  match s1, s2 with
  | a :: s1, b :: s2 => S (if to_lower a =? to_lower b then compared s1 s2 else 0)
  | _, _ => 0
  end.

Fixpoint set_depths (n : nat) (s : bytes) (d : nat) (iShift : Z) (h : gmap bytes ADACBMNODE_S) : outcome (gmap bytes ADACBMNODE_S) :=
  match n with O => Val h | S n => h ← AdAcbmSetGSShift1 s d iShift h; set_depths n s (S d) iShift h end.

(** The while loop, at [iCount1]; [tail] is the second pattern from there. *)
Fixpoint gs_loop (iMin first : Z) (s1 : bytes) (iCount1 : Z) (tail : bytes) (h : gmap bytes ADACBMNODE_S) : outcome (gmap bytes ADACBMNODE_S) :=
  match tail with
  | [] => Val h
  | c :: tail' =>
    if to_lower c =? first then
      if iMin <? iCount1 then Val h
      else
        let n := compared s1 tail in
        h ← (if (n =? length tail)%nat then set_depths (length s1 - n) s1 (S n) iCount1 h else AdAcbmSetGSShift1 s1 (S n) iCount1 h);
        gs_loop iMin first s1 (iCount1 + 1) tail' h
    else gs_loop iMin first s1 (iCount1 + 1) tail' h
  end.

Definition AdAcbmSetGSShift2 (iMin : Z) (s1 s2 : bytes) (h : gmap bytes ADACBMNODE_S) : outcome (gmap bytes ADACBMNODE_S) :=
  match s1 with
  | [] => Undef
  | c :: _ =>
    let first := to_lower c in
    let same := length (take_while (fun b => to_lower b =? first) (drop 1 s2)) in
    h ← AdAcbmSetGSShift1 s1 1 (1 + Z.of_nat same) h;
    gs_loop iMin first s1 1 (drop 1 s2) h
  end.

Fixpoint gs_pairs (iMin : Z) (pairs : list (bytes * bytes)) (h : gmap bytes ADACBMNODE_S) : outcome (gmap bytes ADACBMNODE_S) :=
  match pairs with [] => Val h | (s1, s2) :: pairs => h ← AdAcbmSetGSShift2 iMin s1 s2 h; gs_pairs iMin pairs h end.
Definition AdAcbmGSShift (t : AdAcbmTree) : outcome AdAcbmTree :=
  let strs := take (Z.to_nat (m_iPtnCount t)) (m_vStr t) in
  h ← gs_pairs (m_iMinPtnSize t) (list_prod strs strs) (nodes t); Val (upd_nodes h t).

Definition AdAcbmTreeBuild (t : AdAcbmTree) : outcome AdAcbmTree :=
  t ← AdAcbmBCShift t; t ← AdAcbmGSShiftInit t; AdAcbmGSShift t.

(** ** What the matcher finds *)

(** The patterns without regard to capital letters, each once, in the order of their first
    addition; a pattern's label is its place there. *)
Definition distinct (ps : list (bytes * Z)) : list bytes :=
  foldl (fun D p => if bool_decide (lower (fst p) ∈ D) then D else D ++ [lower (fst p)]) [] ps.
Definition place (D : list bytes) (p : bytes) : option nat := fst <$> list_find (eq p) D.

(** The labels of the prefixes of a text, shortest first, behind the letters [p]. *)
Definition hits (D : list bytes) (p text : bytes) : list nat :=
  omap (fun len => place D (p ++ lower (take len text))) (seq 1 (length text)).
(** All occurrences, from the end of the text to its beginning. *)
Definition occurrences (D : list bytes) (s : bytes) : list nat :=
  flat_map (fun base => hits D [] (drop base s)) (rev (seq 0 (length s))).

(** The data of a label, and what an occurrence adds to the results. *)
Definition data_of (ps : list (bytes * Z)) (k : nat) : list Z :=
  map snd (filter (fun p => place (distinct ps) (lower (fst p)) = Some k) ps).
Definition add_hit (ps : list (bytes * Z)) (r : results) (k : nat) : results :=
  foldl (fun r d => <[d := default [] (r !! d) ++ [nth k (map fst ps) []]]> r) r (data_of ps k).

Lemma place_Some D p k : place D p = Some k <-> D !! k = Some p /\ forall j, (j < k)%nat -> D !! j <> Some p.
Proof.
  unfold place. rewrite fmap_Some. split.
  - intros ([k' x] & E & ->). apply list_find_Some in E as (E & <- & Hf). split; [done|].
    intros j Hj E'. by apply (Hf j p E' Hj).
  - intros [E Hf]. exists (k, p). split; [|done]. apply list_find_Some. split_and!; [done..|].
    intros j y E' Hj ->. by apply (Hf j Hj).
Qed.
Lemma place_None D p : place D p = None <-> p ∉ D.
Proof. unfold place. rewrite fmap_None, list_find_None, Forall_forall. naive_solver. Qed.

Lemma place_elem D p : is_Some (place D p) <-> p ∈ D.
Proof. rewrite <- not_eq_None_Some, place_None. destruct (decide (p ∈ D)); naive_solver. Qed.

Lemma place_app D p l : place (D ++ [l]) p = match place D p with Some k => Some k | None => if bool_decide (p = l) then Some (length D) else None end.
Proof.
  unfold place. destruct (list_find (eq p) D) as [[k x]|] eqn:E.
  - by rewrite (list_find_app_l _ _ _ _ _ E).
  - rewrite (list_find_app_r _ _ _ E). cbn. case_decide; subst;
      [rewrite bool_decide_eq_true_2 by done|rewrite bool_decide_eq_false_2 by done]; cbn; [f_equal; lia|done].
Qed.

Lemma distinct_app ps p :
  distinct (ps ++ [p]) = if bool_decide (lower (fst p) ∈ distinct ps) then distinct ps else distinct ps ++ [lower (fst p)].
Proof. unfold distinct. by rewrite foldl_app. Qed.

Lemma distinct_elem ps l : l ∈ distinct ps <-> exists p, p ∈ ps /\ l = lower (fst p).
Proof.
  induction ps as [|p ps IH] using rev_ind; [set_solver|]. rewrite distinct_app.
  case_bool_decide; rewrite ?elem_of_app, ?list_elem_of_singleton, IH; set_solver.
Qed.

Lemma length_distinct ps : (length (distinct ps) <= length ps)%nat.
Proof.
  induction ps as [|p ps IH] using rev_ind; [done|]. rewrite distinct_app, length_app. cbn.
  case_bool_decide; rewrite ?length_app; cbn; lia.
Qed.

Lemma lower_app a b : lower (a ++ b) = lower a ++ lower b.
Proof. apply map_app. Qed.
Lemma length_lower s : length (lower s) = length s.
Proof. apply length_map. Qed.

(** ** The tree of the patterns *)

Lemma to_lower_idem c : to_lower (to_lower c) = to_lower c.
Proof. unfold to_lower. destruct (Z.leb_spec 65 c), (Z.leb_spec c 90); cbn [andb]; zcase; try done; lia. Qed.
Lemma lower_idem s : lower (lower s) = lower s.
Proof. unfold lower. rewrite map_map. apply map_ext. apply to_lower_idem. Qed.

Lemma to_lower_child c uc (A : Type) (x : A) (cs : gmap Z A) :
  to_lower uc = uc ->
  (let cs := <[uc := x]> cs in if (97 <=? uc) && (uc <=? 122) then <[uc - 32 := x]> cs else cs) !! c
  = if bool_decide (to_lower c = uc) then Some x else cs !! c.
Proof.
  intros Hu. cbn zeta. case_bool_decide as Hc.
  - destruct (decide (c = uc)) as [->|Hne].
    + destruct (_ && _); [rewrite lookup_insert_ne by lia|]; by rewrite lookup_insert_eq.
    + assert (c = uc - 32 /\ (97 <=? uc) && (uc <=? 122) = true) as [-> ->]; [|by rewrite lookup_insert_eq].
      unfold to_lower in Hc. destruct (Z.leb_spec 65 c), (Z.leb_spec c 90); cbn [andb] in Hc; try lia.
  - assert (c <> uc) by (intros ->; done).
    destruct ((97 <=? uc) && (uc <=? 122)) eqn:E; [|by rewrite lookup_insert_ne].
    rewrite !lookup_insert_ne; [done|done|]. intros <-. destruct Hc. unfold to_lower.
    destruct (Z.leb_spec 65 (uc - 32)), (Z.leb_spec (uc - 32) 90); cbn [andb]; lia.
Qed.

(** The nodes are linked: a child pointer is there, for both cases of a letter, exactly when the
    node is; the labels are given by a function; no shift was computed. *)
Record linked (lab : bytes -> Z) (h : gmap bytes ADACBMNODE_S) : Prop := {
  link_root : is_Some (h !! []);
  link_closed p c : is_Some (h !! (p ++ [c])) -> is_Some (h !! p);
  link_child p n c : h !! p = Some n ->
    m_pstChild n !! c = if bool_decide (is_Some (h !! (p ++ [to_lower c]))) then Some (p ++ [to_lower c]) else None;
  link_label p n : h !! p = Some n -> m_iLabel n = lab p;
  link_gs p n : h !! p = Some n -> m_iGSShift n = 0;
  link_uc p n : h !! p = Some n -> 0 <= m_iChild n /\ (0 < m_iChild n -> is_Some (m_pstChild n !! m_ucChild n));
}.

Lemma linked_root lab : lab [] = -2 -> linked lab {[ [] := root0 ]}.
Proof.
  intros Hl. assert (forall p (c : Z), p ++ [c] <> []) as Hne by (intros p c E; by apply app_eq_nil in E as [_ E]). split.
  - rewrite lookup_singleton_eq. eauto.
  - intros p c [n E]. apply lookup_singleton_Some in E as [E _]. by destruct (Hne p c).
  - intros p n c [<- <-]%lookup_singleton_Some. cbn [root0 m_pstChild app]. rewrite lookup_empty, bool_decide_eq_false_2; [done|].
    intros [n E]. by apply lookup_singleton_Some in E as [E _].
  - by intros p n [<- <-]%lookup_singleton_Some.
  - by intros p n [<- <-]%lookup_singleton_Some.
  - intros p n [<- <-]%lookup_singleton_Some. cbn. lia.
Qed.

Lemma descend_spec lab h p s :
  linked lab h -> is_Some (h !! p) ->
  exists s1 s2, s = s1 ++ s2 /\ descend h p s = (p ++ lower s1, s2) /\ is_Some (h !! (p ++ lower s1))
    /\ match s2 with [] => True | c :: _ => h !! (p ++ lower s1 ++ [to_lower c]) = None end.
Proof.
  intros Hl. revert p. induction s as [|c s IH]; intros p [n E].
  - exists [], []. cbn. rewrite app_nil_r. rewrite E. eauto.
  - cbn [descend]. rewrite E. cbn [mbind option_bind]. rewrite (link_child _ _ Hl p n _ E), to_lower_idem.
    case_bool_decide as Hc.
    + destruct (IH _ Hc) as (s1 & s2 & -> & E1 & Hs & H2). exists (c :: s1), s2.
      change (lower (c :: s1)) with ([to_lower c] ++ lower s1). rewrite E1. rewrite <- !app_assoc in *. split_and!; [done..|].
      destruct s2; [done|]. by rewrite <- !app_assoc in *.
    + exists [], (c :: s). cbn. rewrite app_nil_r, E. split_and!; eauto. by apply eq_None_not_Some.
Qed.

Lemma child_lookup h p n uc depth q :
  h !! p = Some n ->
  with_child p uc depth h !! q
  = if bool_decide (q = p ++ [uc]) then Some (mkNode (-1) (depth + 1) uc 0 0 0 ∅)
    else if bool_decide (q = p) then Some (add_child uc (p ++ [uc]) n) else h !! q.
Proof.
  intros E. unfold with_child. set (child := p ++ [uc]) in *.
  assert (child <> p) as Hcp by (unfold child; intros E'; apply (f_equal length) in E'; rewrite length_app in E'; cbn in E'; lia).
  case_bool_decide as H1; [subst q; by rewrite lookup_alter_ne, lookup_insert_eq|].
  case_bool_decide as H2; [subst q; rewrite lookup_alter_eq, lookup_insert_ne by done; by rewrite E|].
  by rewrite lookup_alter_ne, lookup_insert_ne.
Qed.

Lemma child_dom h p n uc depth q :
  h !! p = Some n -> is_Some (with_child p uc depth h !! q) <-> is_Some (h !! q) \/ q = p ++ [uc].
Proof.
  intros E. rewrite (child_lookup _ _ n) by done. case_bool_decide; [naive_solver|]. case_bool_decide; [subst; rewrite E|]; naive_solver.
Qed.

Lemma linked_child lab h p n uc depth :
  linked lab h -> h !! p = Some n -> to_lower uc = uc -> h !! (p ++ [uc]) = None -> lab (p ++ [uc]) = -1 ->
  linked lab (with_child p uc depth h).
Proof.
  intros Hl E Hu Hnone Hlab. pose proof (fun q => child_dom h p n uc depth q E) as Hd.
  assert (forall q n' (P : Prop), with_child p uc depth h !! q = Some n' ->
    (q = p ++ [uc] -> n' = mkNode (-1) (depth + 1) uc 0 0 0 ∅ -> P) -> (q = p -> n' = add_child uc (p ++ [uc]) n -> P) ->
    (q <> p -> h !! q = Some n' -> P) -> P) as Hcases.
  { intros q n' P Hq. rewrite (child_lookup _ _ n) in Hq by done.
    destruct (bool_decide_reflect (q = p ++ [uc])); [naive_solver|]. destruct (bool_decide_reflect (q = p)); naive_solver. }
  assert (forall q c, bool_decide (is_Some (with_child p uc depth h !! (q ++ [to_lower c])))
            = bool_decide (is_Some (h !! (q ++ [to_lower c]))) || (bool_decide (q = p) && bool_decide (to_lower c = uc))) as Hb.
  { intros q c. apply eq_true_iff_eq. rewrite orb_true_iff, andb_true_iff, !bool_decide_eq_true, Hd.
    split; intros [?|H1]; auto; right; [by apply app_inj_tail in H1|destruct H1; by subst]. }
  split.
  - apply Hd. left. apply Hl.
  - intros q c Hq. apply Hd. left. apply Hd in Hq as [Hq|Hq]; [by eapply link_closed|].
    apply app_inj_tail in Hq as [-> _]. by rewrite E.
  - intros q n' c Hq. rewrite Hb. apply (Hcases q n' _ Hq); [intros -> ->|intros -> ->|intros Hne Hq'].
    + cbn [m_pstChild]. rewrite lookup_empty, (bool_decide_eq_false_2 (is_Some _)), (bool_decide_eq_false_2 (_ = p)); [done|..].
      * intros E'. apply (f_equal length) in E'. rewrite length_app in E'. cbn in E'. lia.
      * intros Hs. apply (link_closed _ _ Hl) in Hs. rewrite Hnone in Hs. by destruct Hs.
    + cbn [add_child m_pstChild]. rewrite (to_lower_child c uc _ (p ++ [uc])) by done. rewrite (bool_decide_eq_true_2 (p = p)) by done.
      cbn [andb]. rewrite (link_child _ _ Hl p n c E). case_bool_decide as Hcu; [rewrite Hcu; by rewrite orb_true_r|]. by rewrite orb_false_r.
    + rewrite (link_child _ _ Hl q n' c Hq'), (bool_decide_eq_false_2 (q = p)) by done. by rewrite orb_false_r.
  - intros q n' Hq. apply (Hcases q n' _ Hq); [by intros -> ->|intros -> ->; exact (link_label _ _ Hl p n E)|intros _; by apply (link_label _ _ Hl)].
  - intros q n' Hq. apply (Hcases q n' _ Hq); [by intros -> ->|intros -> ->; exact (link_gs _ _ Hl p n E)|intros _; by apply (link_gs _ _ Hl)].
  - intros q n' Hq. apply (Hcases q n' _ Hq); [intros -> ->; cbn; lia|intros -> ->|intros _ Hq'; by apply (link_uc _ _ Hl q)].
    destruct (link_uc _ _ Hl p n E) as [Hi _]. cbn [add_child m_iChild m_ucChild m_pstChild].
    rewrite (to_lower_child uc uc _ (p ++ [uc])) by done. rewrite bool_decide_eq_true_2 by done. split; [lia|eauto].
Qed.

Lemma grow_spec lab h p s depth :
  linked lab h -> is_Some (h !! p) -> match s with [] => True | c :: _ => h !! (p ++ [to_lower c]) = None end ->
  (forall k, (0 < k <= length s)%nat -> lab (p ++ lower (take k s)) = -1) ->
  exists h', grow (fun _ => true) h p depth s = Some (h', p ++ lower s) /\ linked lab h'
    /\ forall q, is_Some (h' !! q) <-> is_Some (h !! q) \/ exists k, (k <= length s)%nat /\ q = p ++ lower (take k s).
Proof.
  revert h p depth. induction s as [|c s IH]; intros h p depth Hl [n E] Hnone Hlab.
  - exists h. cbn. rewrite app_nil_r. split_and!; [done..|]. intros q. split; [by left|]. intros [?|(k & _ & ->)]; [done|].
    rewrite take_nil, app_nil_r, E. eauto.
  - cbn [grow]. assert (linked lab (with_child p (to_lower c) depth h)) as Hl'.
    { apply (linked_child _ _ _ n); [done|done|apply to_lower_idem|done|]. apply (Hlab 1%nat). cbn. lia. }
    pose proof (fun q => child_dom h p n (to_lower c) depth q E) as Hd.
    destruct (IH (with_child p (to_lower c) depth h) (p ++ [to_lower c]) (depth + 1)) as (h' & E' & Hl'' & Hd'); [done|apply Hd; by right|..].
    + destruct s as [|d s]; [done|]. apply eq_None_not_Some. intros [Hs|Hs]%Hd.
      * apply (link_closed _ _ Hl) in Hs. rewrite Hnone in Hs. by destruct Hs.
      * apply (f_equal length) in Hs. rewrite !length_app in Hs. cbn in Hs. lia.
    + intros k Hk. rewrite <- app_assoc. apply (Hlab (S k)). cbn. lia.
    + exists h'. rewrite E'. change (lower (c :: s)) with ([to_lower c] ++ lower s). rewrite <- app_assoc. split_and!; [done..|].
      intros q. rewrite Hd', Hd. split.
      * intros [[?| ->]|(k & Hk & ->)]; [by left|right; exists 1%nat; cbn; split; [lia|done]|right; exists (S k)].
        rewrite <- app_assoc. cbn. split; [lia|done].
      * intros [?|(k & Hk & ->)]; [by left; left|]. destruct k as [|k].
        -- left. left. cbn. rewrite app_nil_r, E. eauto.
        -- right. exists k. rewrite <- app_assoc. cbn in *. split; [lia|done].
Qed.

Lemma linked_relabel lab h l k :
  linked lab h -> linked (fun p => if bool_decide (p = l) then k else lab p) (alter (set_label k) l h).
Proof.
  intros Hl. set (h' := alter _ _ _).
  assert (forall q, is_Some (h' !! q) <-> is_Some (h !! q)) as Hd by (intros q; unfold h'; by rewrite lookup_alter_is_Some).
  assert (forall q n', h' !! q = Some n' -> exists n, h !! q = Some n /\ (n' = n /\ q <> l \/ n' = set_label k n /\ q = l)) as Hc.
  { intros q n' Hq. unfold h' in Hq. destruct (decide (q = l)) as [->|Hne].
    - rewrite lookup_alter_eq in Hq. destruct (h !! l) as [n|]; [|done]. injection Hq as <-. eauto 6.
    - rewrite lookup_alter_ne in Hq by done. eauto. }
  split.
  - apply Hd, Hl.
  - intros p c. rewrite !Hd. apply (link_closed _ _ Hl).
  - intros p n' c Hp. apply Hc in Hp as (n & Hp & Hn). rewrite (bool_decide_ext _ _ (Hd _)).
    destruct Hn as [[-> _]|[-> _]]; apply (link_child _ _ Hl p n c Hp).
  - intros p n' Hp. apply Hc in Hp as (n & Hp & [[-> Hne]|[-> ->]]).
    + rewrite bool_decide_eq_false_2 by done. by apply (link_label _ _ Hl).
    + by rewrite bool_decide_eq_true_2.
  - intros p n' Hp. apply Hc in Hp as (n & Hp & [[-> _]|[-> _]]); apply (link_gs _ _ Hl p n Hp).
  - intros p n' Hp. apply Hc in Hp as (n & Hp & [[-> _]|[-> _]]); apply (link_uc _ _ Hl p n Hp).
Qed.

Lemma linked_ext lab lab' h : (forall p, is_Some (h !! p) -> lab p = lab' p) -> linked lab h -> linked lab' h.
Proof.
  intros He [? ? ? Hlab ? ?]. split; [done..| |done|done]. intros p n Hp. rewrite (Hlab p n Hp). apply He. by rewrite Hp.
Qed.

(** The labels of a list of patterns: -2 at the root, the place of a pattern at its end. *)
Definition labels (D : list bytes) (p : bytes) : Z :=
  match p with [] => -2 | _ => match place D p with Some k => Z.of_nat k | None => -1 end end.

(** The tree of the patterns [ps]. *)
Record trie (t : AdAcbmTree) (ps : list (bytes * Z)) : Prop := {
  trie_root : m_pstRoot t = true;
  trie_count : m_iPtnCount t = Z.of_nat (length (distinct ps));
  trie_vstr : m_vStr t = map fst ps;
  trie_bc : m_iBCShift t = replicate AD_ACBM 0;
  trie_min : m_iMinPtnSize t = foldr Z.min 512 (map (fun p => Z.of_nat (length (fst p))) ps);
  trie_nodes : linked (labels (distinct ps)) (nodes t);
  trie_dom p : is_Some (nodes t !! p) <-> p = [] \/ exists l, l ∈ distinct ps /\ p `prefix_of` l;
  trie_data k : m_mData t !! Z.of_nat k = match data_of ps k with [] => None | ds => Some ds end;
  trie_nonempty : Forall (fun p => fst p <> []) ps;
}.

Lemma place_distinct_app ps x p : p ∈ ps -> place (distinct (ps ++ [x])) (lower (fst p)) = place (distinct ps) (lower (fst p)).
Proof.
  intros Hp. rewrite distinct_app. case_bool_decide; [done|]. rewrite place_app.
  destruct (place (distinct ps) (lower (fst p))) eqn:E; [done|]. apply place_None in E. destruct E. apply distinct_elem. eauto.
Qed.

Lemma filter_ext_in {A} (P Q : A -> Prop) `{!forall x, Decision (P x), !forall x, Decision (Q x)} (l : list A) :
  (forall x, x ∈ l -> P x <-> Q x) -> filter P l = filter Q l.
Proof.
  induction l as [|x l IH]; intros He; [done|]. rewrite !filter_cons, IH by (intros; apply He; set_solver).
  pose proof (He x ltac:(set_solver)). repeat case_decide; naive_solver.
Qed.

Lemma data_of_app ps s d k :
  data_of (ps ++ [(s, d)]) k = data_of ps k ++ (if bool_decide (place (distinct (ps ++ [(s, d)])) (lower s) = Some k) then [d] else []).
Proof.
  unfold data_of. rewrite filter_app, map_app. f_equal.
  - f_equal. apply filter_ext_in. intros p Hp. by rewrite place_distinct_app.
  - rewrite filter_cons. cbn [fst]. case_decide as H1; [rewrite bool_decide_eq_true_2 by done|rewrite bool_decide_eq_false_2 by done]; done.
Qed.

Lemma data_of_bound ps k : (length (distinct ps) <= k)%nat -> data_of ps k = [].
Proof.
  intros Hk. unfold data_of. assert (filter (fun p => place (distinct ps) (lower p.1) = Some k) ps = []) as ->; [|done].
  rewrite (filter_ext_in _ (fun _ => False)); [clear; by induction ps|].
  intros p _. split; [|done]. intros [E _]%place_Some. apply lookup_lt_Some in E. lia.
Qed.

Lemma labels_app D l p :
  l <> [] -> l ∉ D -> labels (D ++ [l]) p = if bool_decide (p = l) then Z.of_nat (length D) else labels D p.
Proof.
  intros Hne Hl. unfold labels. destruct p as [|c p]; [by rewrite bool_decide_eq_false_2|].
  rewrite place_app. case_bool_decide as E.
  - rewrite E in *. apply place_None in Hl. by rewrite Hl.
  - by destruct (place D (c :: p)).
Qed.

Lemma prefix_lower q s : q `prefix_of` lower s -> q = lower (take (length q) s).
Proof. intros [r E]. unfold lower in *. by rewrite <- firstn_map, E, take_app_length. Qed.

(** Adding keeps the tree of the patterns: the nodes of the new pattern, its end's label, its data. *)
Lemma add_nodes t ps s :
  trie t ps -> s <> [] ->
  exists h p rest, descend (nodes t) [] s = (p, rest) /\ grow (fun _ => true) (nodes t) p (Z.of_nat (length s) - Z.of_nat (length rest)) rest = Some (h, lower s)
    /\ linked (labels (distinct ps)) h
    /\ forall q, is_Some (h !! q) <-> q = [] \/ exists l, (l ∈ distinct ps \/ l = lower s) /\ q `prefix_of` l.
Proof.
  intros Ht Hs. pose proof (trie_nodes _ _ Ht) as Hl.
  destruct (descend_spec _ _ [] s Hl) as (s1 & s2 & -> & E1 & Hs1 & H2); [apply Hl|]. cbn [app] in *.
  destruct (grow_spec _ (nodes t) (lower s1) s2 (Z.of_nat (length (s1 ++ s2)) - Z.of_nat (length s2)) Hl Hs1) as (h & E2 & Hl' & Hd).
  { by destruct s2. }
  { intros k Hk. destruct s2 as [|c s2]; cbn [length] in Hk; [lia|]. destruct k as [|k]; [lia|]. unfold labels.
    destruct (lower s1 ++ lower (take (S k) (c :: s2))) eqn:E; [destruct (lower s1); done|]. rewrite <- E.
    destruct (place _ _) eqn:Epl; [|done]. apply eq_None_not_Some in H2. destruct H2. apply (trie_dom _ _ Ht). right.
    eexists. split; [apply place_elem; by rewrite Epl|]. exists (lower (take k s2)). rewrite <- app_assoc. done. }
  rewrite <- lower_app in E2. exists h, (lower s1), s2. split_and!; [done..|].
  intros q. rewrite Hd, (trie_dom _ _ Ht). split.
  - intros [[->|(l & ? & ?)]|(k & Hk & ->)]; [by left|right; eauto|]. right. exists (lower (s1 ++ s2)). split; [by right|].
    rewrite <- (take_drop k s2) at 2. rewrite !lower_app, app_assoc. by apply prefix_app_r.
  - intros [->|(l & [?| ->] & Hp)]; [by left; left|left; right; eauto|].
    apply prefix_lower in Hp as Eq. destruct (decide (length q <= length s1)%nat) as [Hle|Hgt].
    + rewrite take_app_le in Eq by done. left. apply (trie_dom _ _ Ht) in Hs1.
      assert (q `prefix_of` lower s1) as Hq by (rewrite Eq; exists (lower (drop (length q) s1)); by rewrite <- lower_app, take_drop).
      destruct Hs1 as [E0|(l & ? & ?)]; [left; rewrite E0 in Hq; by apply prefix_nil_inv|right; exists l; split; [done|by etrans]].
    + right. exists (length q - length s1)%nat. split.
      * apply prefix_length in Hp. rewrite length_lower, length_app in Hp. lia.
      * rewrite Eq at 1. rewrite take_app, take_ge by lia. apply lower_app.
Qed.

Lemma foldr_min_app xs x : foldr Z.min 512 (xs ++ [x]) = Z.min (foldr Z.min 512 xs) x.
Proof. induction xs as [|y xs IH]; cbn; [lia|]. rewrite IH. lia. Qed.

Lemma labels_place D l k : l <> [] -> place D l = Some k -> labels D l = Z.of_nat k.
Proof. intros Hne E. unfold labels. destruct l; [done|]. by rewrite E. Qed.
Lemma labels_none D l : l <> [] -> l ∉ D -> labels D l = -1.
Proof. intros Hne E%place_None. unfold labels. destruct l; [done|]. by rewrite E. Qed.

(** The data after an addition under the label [k0] of the pattern. *)
Lemma add_data (md : gmap Z (list Z)) ps s d k0 :
  (forall k, md !! Z.of_nat k = match data_of ps k with [] => None | ds => Some ds end) ->
  place (distinct (ps ++ [(s, d)])) (lower s) = Some k0 ->
  forall k, <[Z.of_nat k0 := default [] (md !! Z.of_nat k0) ++ [d]]> md !! Z.of_nat k
            = match data_of (ps ++ [(s, d)]) k with [] => None | ds => Some ds end.
Proof.
  intros Hmd E k. rewrite data_of_app, E. destruct (decide (k = k0)) as [->|Hne].
  - rewrite lookup_insert_eq, Hmd, bool_decide_eq_true_2 by done. by destruct (data_of ps k0).
  - rewrite lookup_insert_ne, Hmd, bool_decide_eq_false_2, app_nil_r by (congruence || lia). done.
Qed.

Lemma add_trie t ps s d :
  trie t ps -> s <> [] ->
  exists t', AdAcbmTreeAdd (fun _ => true) s d t = (t', true) /\ trie t' (ps ++ [(s, d)]).
Proof.
  intros Ht Hs. destruct (add_nodes t ps s Ht Hs) as (h & p & rest & E1 & E2 & Hl & Hd).
  unfold AdAcbmTreeAdd. rewrite (trie_root _ _ Ht). cbn [orb negb].
  destruct (Z.eqb_spec (Z.of_nat (length s)) 0) as [E|_]; [by destruct s|]. rewrite E1, E2.
  assert (lower s <> []) as Hne by (by destruct s).
  assert (is_Some (h !! lower s)) as [n En] by (apply Hd; right; exists (lower s); auto).
  assert (label_at h (lower s) = labels (distinct ps) (lower s)) as El.
  { unfold label_at. rewrite En. apply (link_label _ _ Hl _ _ En). }
  rewrite El. pose proof (distinct_app ps (s, d)) as ED. cbn [fst] in ED.
  destruct (place (distinct ps) (lower s)) as [k0|] eqn:Epl.
  - rewrite (labels_place _ _ _ Hne Epl). destruct (Z.ltb_spec (Z.of_nat k0) 0) as [|_]; [lia|]. rewrite El, (labels_place _ _ _ Hne Epl).
    rewrite bool_decide_eq_true_2 in ED by (apply place_elem; by rewrite Epl).
    eexists. split; [reflexivity|]. split; cbn [m_pstRoot m_iPtnCount m_vStr m_iBCShift m_iMinPtnSize nodes m_mData]; rewrite ?ED; try apply Ht; try done.
    + rewrite map_app. by rewrite (trie_vstr _ _ Ht).
    + rewrite map_app. cbn [map fst]. by rewrite foldr_min_app, (trie_min _ _ Ht).
    + intros q. rewrite Hd. split; [|naive_solver]. intros [->|(l & [?| ->] & ?)]; [by left|right; eauto|right; exists (lower s)].
      split; [apply place_elem; by rewrite Epl|done].
    + apply add_data; [apply Ht|]. by rewrite ED.
    + apply Forall_app. split; [apply Ht|by constructor].
  - pose proof Epl as Hni. apply place_None in Hni. rewrite (labels_none _ _ Hne Hni). cbn [Z.ltb Z.compare].
    rewrite bool_decide_eq_false_2 in ED by done. rewrite (trie_count _ _ Ht).
    unfold label_at at 1 2. rewrite lookup_alter_eq, En. cbn [fmap option_fmap option_map from_option set_label m_iLabel].
    eexists. split; [reflexivity|]. split; cbn [m_pstRoot m_iPtnCount m_vStr m_iBCShift m_iMinPtnSize nodes m_mData]; rewrite ?ED; try apply Ht; try done.
    + rewrite length_app. cbn. lia.
    + rewrite map_app. by rewrite (trie_vstr _ _ Ht).
    + rewrite map_app. cbn [map fst]. by rewrite foldr_min_app, (trie_min _ _ Ht).
    + eapply linked_ext; [|by apply linked_relabel]. intros q _. by rewrite labels_app.
    + intros q. rewrite lookup_alter_is_Some, Hd. set_solver.
    + apply add_data; [apply Ht|]. rewrite ED, place_app, Epl. by rewrite bool_decide_eq_true_2.
    + apply Forall_app. split; [apply Ht|by constructor].
Qed.

(** The matcher with the patterns [ps]. *)
Definition matcher (ps : list (bytes * Z)) : AdAcbmTree :=
  foldl (fun t p => fst (AdAcbmTreeAdd (fun _ => true) (fst p) (snd p) t)) tree0 ps.

Definition rooted0 : AdAcbmTree := mkTree 0 0 512 (replicate AD_ACBM 0) true {[ [] := root0 ]} [] ∅.

Lemma rooted0_trie : trie rooted0 [].
Proof.
  split; try done.
  - by apply linked_root.
  - intros p. cbn [nodes rooted0]. destruct (decide (p = [])) as [->|Hne].
    + rewrite lookup_singleton_eq. naive_solver.
    + rewrite lookup_singleton_ne by done. split; [intros [? [=]]|]. intros [?|(l & Hl & _)]; [done|]. set_solver.
Qed.

Lemma matcher_trie ps : ps <> [] -> Forall (fun p => fst p <> []) ps -> trie (matcher ps) ps.
Proof.
  intros Hne Hps. induction ps as [|[s d] ps IH] using rev_ind; [done|]. apply Forall_app in Hps as [Hps Hs].
  apply Forall_cons_1 in Hs as [Hs _]. unfold matcher in *. rewrite foldl_app. cbn [foldl fst snd] in *.
  assert (exists t0, trie t0 ps /\ AdAcbmTreeAdd (fun _ => true) s d (foldl (fun t p => fst (AdAcbmTreeAdd (fun _ => true) (fst p) (snd p) t)) tree0 ps)
            = AdAcbmTreeAdd (fun _ => true) s d t0) as (t0 & Ht0 & ->).
  { destruct ps as [|p0 ps]; [exists rooted0; split; [apply rooted0_trie|done]|]. eexists. split; [by apply IH|done]. }
  destruct (add_trie t0 ps s d Ht0 Hs) as (t' & E & Ht'). by rewrite E.
Qed.

(** ** The search *)

Lemma omap_map {A B C} (f : B -> option C) (g : A -> B) (l : list A) : omap f (map g l) = omap (fun x => f (g x)) l.
Proof. induction l as [|x l IH]; [done|]. cbn. destruct (f (g x)); by rewrite IH. Qed.
Lemma omap_ext_in {A B} (f g : A -> option B) (l : list A) : (forall x, f x = g x) -> omap f l = omap g l.
Proof. intros He. induction l as [|x l IH]; [done|]. cbn. rewrite He. destruct (g x); by rewrite IH. Qed.
Lemma omap_cons {A B} (f : A -> option B) x (l : list A) :
  omap f (x :: l) = match f x with Some y => [y] | None => [] end ++ omap f l.
Proof. cbn. by destruct (f x). Qed.

Section search.
Context (t : AdAcbmTree) (ps : list (bytes * Z)) (Ht : trie t ps).
Notation D := (distinct ps).

Lemma report_run k r : (k < length D)%nat -> report t (Z.of_nat k) r = Val (add_hit ps r k).
Proof.
  intros Hk. unfold report, add_hit. assert (default [] (m_mData t !! Z.of_nat k) = data_of ps k) as ->.
  { rewrite (trie_data _ _ Ht). by destruct (data_of ps k). }
  assert (rd (m_vStr t) (Z.of_nat k) = Val (nth k (map fst ps) [])) as E.
  { rewrite (trie_vstr _ _ Ht). rewrite (rd_nth _ _ []), Nat2Z.id; [done|]. rewrite length_map. pose proof (length_distinct ps). lia. }
  revert r. induction (data_of ps k) as [|d ds IH]; intros r; [done|]. cbn [foldl]. rewrite <- IH. f_equal.
  cbn [mbind outcome_bind]. by rewrite E.
Qed.

Lemma hits_cons p c text :
  hits D p (c :: text) = match place D (p ++ [to_lower c]) with Some k => [k] | None => [] end ++ hits D (p ++ [to_lower c]) text.
Proof.
  unfold hits. cbn [length seq]. rewrite <- seq_shift, omap_cons, omap_map.
  rewrite (omap_ext_in _ (fun len => place D ((p ++ [to_lower c]) ++ lower (take len text)))); [|intros; by rewrite <- app_assoc].
  cbn [take]. rewrite take_0. change (lower [c]) with [to_lower c]. by destruct (place D (p ++ [to_lower c])).
Qed.

(** Behind letters that lead to no node there is no match. *)
Lemma hits_none p text : ~ is_Some (nodes t !! p) -> hits D p text = [].
Proof.
  intros Hp. unfold hits. induction (seq 1 (length text)) as [|len l IH]; [done|]. rewrite omap_cons, IH.
  destruct (place D _) eqn:E; [|done]. destruct Hp. apply (trie_dom _ _ Ht). right. eexists. split; [apply place_elem; by rewrite E|].
  by apply prefix_app_r.
Qed.

Lemma follow_run p text i r :
  is_Some (nodes t !! p) ->
  exists p' rest, follow t p text i r = Val (p', rest, i + Z.of_nat (length (hits D p text)), foldl (add_hit ps) r (hits D p text))
    /\ is_Some (nodes t !! p') /\ exists read, text = read ++ rest.
Proof.
  revert p i r. induction text as [|c text IH]; intros p i r [n E].
  - exists p, []. cbn. rewrite E, Z.add_0_r. split_and!; eauto. by exists [].
  - cbn [follow]. rewrite E, (link_child _ _ (trie_nodes _ _ Ht) p n c E), hits_cons. case_bool_decide as Hc.
    + destruct Hc as [n' E']. assert (label_at (nodes t) (p ++ [to_lower c]) = labels D (p ++ [to_lower c])) as ->.
      { unfold label_at. rewrite E'. apply (link_label _ _ (trie_nodes _ _ Ht) _ _ E'). }
      assert (p ++ [to_lower c] <> []) as Hne by (intros E0; by apply app_eq_nil in E0 as [_ E0]).
      destruct (place D (p ++ [to_lower c])) as [k|] eqn:Epl.
      * rewrite (labels_place _ _ _ Hne Epl). destruct (Z.leb_spec 0 (Z.of_nat k)) as [_|]; [|lia].
        rewrite report_run by (apply place_Some in Epl as [Epl _]; by apply lookup_lt_Some in Epl). cbn [mbind outcome_bind].
        destruct (IH (p ++ [to_lower c]) (i + 1) (add_hit ps r k)) as (p' & rest & E1 & Hp' & read & ->); [by rewrite E'|].
        exists p', rest. rewrite E1. cbn [app length foldl]. split_and!; [do 3 f_equal; lia|done|by exists (c :: read)].
      * rewrite labels_none by (done || by apply place_None). cbn [Z.leb Z.compare].
        destruct (IH (p ++ [to_lower c]) i r) as (p' & rest & E1 & Hp' & read & ->); [by rewrite E'|].
        exists p', rest. rewrite E1. cbn [app]. split_and!; [done|done|by exists (c :: read)].
    + rewrite (hits_none (p ++ [to_lower c])) by done. destruct (place D _) eqn:Epl.
      * destruct Hc. apply (trie_dom _ _ Ht). right. eexists. split; [apply place_elem; by rewrite Epl|done].
      * exists p, (c :: text). cbn. rewrite E, Z.add_0_r. split_and!; eauto. by exists [].
Qed.

(** Without computed shifts the base moves by one. *)
Lemma next_shift_one p rest read :
  is_Some (nodes t !! p) -> Forall is_byte rest -> next_shift t p rest read = Val 1.
Proof.
  intros [n E] Hr. unfold next_shift. rewrite E. destruct (link_uc _ _ (trie_nodes _ _ Ht) p n E) as [_ Hu].
  destruct (Z.ltb_spec 0 (m_iChild n)) as [Hi|]; [|done]. destruct (Hu Hi) as [child Ec]. rewrite Ec. cbn [mbind option_bind].
  rewrite (link_child _ _ (trie_nodes _ _ Ht) p n _ E) in Ec. case_bool_decide as Hc; [|done]. injection Ec as <-.
  destruct Hc as [n' En']. rewrite En', (link_gs _ _ (trie_nodes _ _ Ht) _ _ En').
  assert (exists bc, match rest with c :: _ => b ← rd (m_iBCShift t) c; Val (b - read) | [] => Val 1 end = Val bc) as [bc ->].
  { destruct Hr as [|c rest Hb _]; [eauto|]. rewrite (trie_bc _ _ Ht), (rd_nth _ _ 0); [cbn; eauto|].
    rewrite length_replicate. unfold is_byte in Hb. unfold AD_ACBM. lia. }
  cbn [mbind outcome_bind]. destruct (Z.ltb_spec bc 0); [destruct (Z.leb_spec bc 0); [done|lia]|done].
Qed.

Definition hits_below (s : bytes) (n : nat) : list nat := flat_map (fun base => hits D [] (drop base s)) (rev (seq 0 n)).

Lemma search_loop_run fuel s base i r :
  Forall is_byte s -> -1 <= base < Z.of_nat (length s) -> base < Z.of_nat fuel ->
  search_loop fuel t s base i r
  = Val (i + Z.of_nat (length (hits_below s (Z.to_nat (base + 1)))), foldl (add_hit ps) r (hits_below s (Z.to_nat (base + 1)))).
Proof.
  intros Hs. revert base i r. induction fuel as [|fuel IH]; intros base i r Hb Hf.
  - assert (base = -1) as -> by lia. cbn. by rewrite Z.add_0_r.
  - cbn [search_loop]. destruct (Z.ltb_spec base 0).
    + assert (base = -1) as -> by lia. cbn. by rewrite Z.add_0_r.
    + rewrite (trie_root _ _ Ht), (bool_decide_eq_false_2 (drop _ s = [])); cycle 1.
      { intros E. apply (f_equal length) in E. rewrite length_drop in E. cbn in E. lia. }
      cbn [andb negb check mbind outcome_bind].
      destruct (follow_run [] (drop (Z.to_nat base) s) i r) as (p' & rest & -> & Hp' & read & Er); [apply (trie_nodes _ _ Ht)|].
      cbn [mbind outcome_bind]. rewrite next_shift_one; [|done|].
      2:{ apply (Forall_drop _ (Z.to_nat base)) in Hs. rewrite Er in Hs. by apply Forall_app in Hs as [_ ?]. }
      cbn [mbind outcome_bind]. rewrite IH by lia.
      replace (Z.to_nat (base + 1)) with (S (Z.to_nat (base - 1 + 1))) by lia. unfold hits_below.
      rewrite seq_S, rev_app_distr. cbn [rev app flat_map Nat.add]. rewrite length_app, foldl_app.
      replace (Z.to_nat (base - 1 + 1)) with (Z.to_nat base) by lia. do 2 f_equal. lia.
Qed.

Lemma hits_short s b : (length (drop b s) < Z.to_nat (m_iMinPtnSize t))%nat -> hits D [] (drop b s) = [].
Proof.
  intros Hl. unfold hits. induction (seq 1 (length (drop b s))) as [|len l IH]; [done|]. rewrite omap_cons, IH. cbn [app].
  destruct (place D _) eqn:E; [|done]. assert (lower (take len (drop b s)) ∈ D) as Hin by (apply place_elem; by rewrite E).
  apply distinct_elem in Hin as (p & Hp & Ep). apply (f_equal length) in Ep. rewrite !length_lower, length_take in Ep.
  rewrite (trie_min _ _ Ht) in Hl.
  assert (foldr Z.min 512 (map (fun p => Z.of_nat (length p.1)) ps) <= Z.of_nat (length (fst p))); [|lia].
  clear -Hp. induction Hp as [|p q ps _ IH]; cbn; lia.
Qed.

Lemma hits_all s :
  (1 <= m_iMinPtnSize t) -> occurrences D s = hits_below s (Z.to_nat (Z.of_nat (length s) - m_iMinPtnSize t + 1)).
Proof.
  intros Hm. unfold occurrences, hits_below. set (n := Z.to_nat _). assert (n <= length s)%nat as Hn by lia.
  replace (length s) with (n + (length s - n))%nat by lia. rewrite seq_app, rev_app_distr, flat_map_app. cbn [Nat.add].
  assert (forall l, (forall b, b ∈ l -> (n <= b)%nat) -> flat_map (fun b => hits D [] (drop b s)) l = []) as ->; [|done|].
  - intros l Hl. induction l as [|b l IH]; [done|]. cbn [flat_map]. rewrite IH by set_solver. rewrite hits_short; [done|].
    rewrite length_drop. specialize (Hl b ltac:(set_solver)). lia.
  - intros b Hb. apply list_elem_of_In, in_rev, in_seq in Hb. lia.
Qed.
End search.

Lemma min_positive ps : Forall (fun p : bytes * Z => fst p <> []) ps -> 1 <= foldr Z.min 512 (map (fun p => Z.of_nat (length (fst p))) ps).
Proof. induction 1 as [|p ps Hp _ IH]; cbn; [lia|]. destruct (fst p); [done|]. cbn. lia. Qed.

(** C34: The matcher finds every occurrence of every pattern, whatever the capital letters: a search
    of the tree that the additions built is defined on every text, it counts the occurrences a scan
    of all positions and lengths finds, and it reports each with the data given with its pattern,
    from the end of the text to its beginning. *)
Theorem search_finds_all ps s r :
  ps <> [] -> Forall (fun p => fst p <> []) ps -> Forall is_byte s ->
  AdAcbmSearch (matcher ps) s r
  = Val (Z.of_nat (length (occurrences (distinct ps) s)), foldl (add_hit ps) r (occurrences (distinct ps) s)).
Proof.
  intros Hne Hps Hs. pose proof (matcher_trie ps Hne Hps) as Ht. pose proof (min_positive ps Hps) as Hm.
  rewrite <- (trie_min _ _ Ht) in Hm. unfold AdAcbmSearch. rewrite (hits_all _ _ Ht s Hm).
  destruct (Z.ltb_spec (Z.of_nat (length s) - m_iMinPtnSize (matcher ps)) 0).
  - replace (Z.to_nat _) with 0%nat by lia. done.
  - rewrite (search_loop_run _ _ Ht) by (done || lia). done.
Qed.

Lemma search_finds_all_witness :
  AdAcbmSearch (matcher [(str "MSIE", 1); (str "Edge", 2)]) (str "msie; EDGE") ∅
  = Val (2, foldl (add_hit [(str "MSIE", 1); (str "Edge", 2)]) ∅ [1%nat; 0%nat]).
Proof.
  apply (search_finds_all [(str "MSIE", 1); (str "Edge", 2)] (str "msie; EDGE") ∅).
  - done.
  - by repeat constructor.
  - apply (bool_decide_unpack _). by vm_compute.
Defined.

(** What the results have entries for. *)
Lemma occurrences_elem D s k :
  k ∈ occurrences D s <-> exists a x b, s = a ++ x ++ b /\ x <> [] /\ place D (lower x) = Some k.
Proof.
  unfold occurrences, hits. rewrite list_elem_of_In, in_flat_map. split.
  - intros (base & _ & Hk). apply list_elem_of_In, list_elem_of_omap in Hk as (len & Hl & Hp). apply list_elem_of_In, in_seq in Hl.
    exists (take base s), (take len (drop base s)), (drop len (drop base s)). rewrite take_drop, take_drop. split_and!; [done| |done].
    intros E. apply (f_equal length) in E. rewrite length_take in E. cbn in E. lia.
  - intros (a & x & b & -> & Hx & Hp). exists (length a). split.
    + rewrite <- in_rev, in_seq, !length_app. destruct x; [done|]. cbn. lia.
    + apply list_elem_of_In, list_elem_of_omap. exists (length x). rewrite drop_app_length. split.
      * apply list_elem_of_In, in_seq. rewrite length_app. destruct x; [done|]. cbn. lia.
      * cbn [app]. by rewrite take_app_length.
Qed.

Lemma push_elem ps r k d : is_Some (add_hit ps r k !! d) <-> is_Some (r !! d) \/ d ∈ data_of ps k.
Proof.
  unfold add_hit. revert r. induction (data_of ps k) as [|d' ds IH]; intros r; cbn [foldl]; [set_solver|].
  rewrite IH, lookup_insert_is_Some', elem_of_cons. naive_solver.
Qed.

Lemma results_elem ps s d :
  Forall (fun p => fst p <> []) ps ->
  is_Some (foldl (add_hit ps) ∅ (occurrences (distinct ps) s) !! d) <-> exists p, p ∈ ps /\ snd p = d /\ contains (lower s) (lower (fst p)) = true.
Proof.
  intros Hps. trans (exists k, k ∈ occurrences (distinct ps) s /\ d ∈ data_of ps k).
  { generalize (occurrences (distinct ps) s). intros l. trans (is_Some ((∅ : results) !! d) \/ exists k, k ∈ l /\ d ∈ data_of ps k).
    - generalize (∅ : results). induction l as [|k l IH]; intros r; cbn [foldl]; [set_solver|]. rewrite IH, push_elem. set_solver.
    - rewrite lookup_empty. split; [intros [[? [=]]|?]; done|by right]. }
  unfold data_of. split.
  - intros (k & (a & x & b & -> & Hx & Ek)%occurrences_elem & ([s0 d0] & Hd & Hp)%list_elem_of_In%in_map_iff).
    apply list_elem_of_In, list_elem_of_filter in Hp as [Ep Hp]. exists (s0, d0). split_and!; [done..|].
    cbn [fst] in *. assert (lower s0 = lower x) as ->.
    { apply place_Some in Ep as [E1 _]. apply place_Some in Ek as [E2 _]. congruence. }
    rewrite !lower_app. apply contains_spec. eauto.
  - intros ([s0 d0] & Hp & <- & (a & b & E)%contains_spec). cbn [fst snd] in *.
    assert (is_Some (place (distinct ps) (lower s0))) as [k Ek] by (apply place_elem, distinct_elem; eauto).
    exists k. split; [|apply list_elem_of_In, in_map_iff; exists (s0, d0); split; [done|]; apply list_elem_of_In, list_elem_of_filter; done].
    apply occurrences_elem. exists (take (length a) s), (take (length s0) (drop (length a) s)), (drop (length s0) (drop (length a) s)).
    assert (lower (take (length s0) (drop (length a) s)) = lower s0) as El.
    { unfold lower in *. rewrite <- firstn_map, <- skipn_map, E, drop_app_length. rewrite <- (length_map to_lower s0) at 1. apply take_app_length. }
    rewrite !take_drop. split_and!; [done| |by rewrite El]. intros E0. rewrite E0 in El.
    apply (f_equal length) in El. rewrite length_lower in El. rewrite Forall_forall in Hps. apply Hps in Hp. by destruct s0.
Qed.

(** ** Additions that fail *)

Lemma grow_all malloc h p depth s x : grow malloc h p depth s = Some x -> grow (fun _ => true) h p depth s = Some x.
Proof.
  revert h p depth. induction s as [|c s IH]; intros h p depth; [done|]. cbn [grow]. destruct (malloc _); [|done]. apply IH.
Qed.

(** A tree that the additions can build, with its patterns. *)
Definition well_formed (t : AdAcbmTree) (ps : list (bytes * Z)) : Prop := (t = tree0 /\ ps = []) \/ (ps <> [] /\ trie t ps).

(** C36: Every addition leaves a well formed tree, whatever memory there is: one that succeeds leaves
    the tree of all patterns, in which every child pointer leads to a node and both cases of a
    letter to the same one, and one that fails leaves the empty tree.  An addition fails exactly
    for an empty pattern and when memory for the root or for a new node is missing. *)
Theorem add_well_formed malloc s d t ps :
  well_formed t ps ->
  let '(t', ok) := AdAcbmTreeAdd malloc s d t in
  well_formed t' (if ok then ps ++ [(s, d)] else [])
  /\ ((forall p, malloc p = true) -> ok = negb (bool_decide (s = [])))
  /\ (s = [] -> ok = false).
Proof.
  intros Hw. assert (exists t0, trie t0 ps /\ AdAcbmTreeAdd (fun _ => true) s d t = AdAcbmTreeAdd (fun _ => true) s d t0) as (t0 & Ht0 & E0).
  { destruct Hw as [[-> ->]|[_ Ht]]; [exists rooted0; split; [apply rooted0_trie|done]|by exists t]. }
  assert (s <> [] -> exists t', AdAcbmTreeAdd (fun _ => true) s d t = (t', true) /\ well_formed t' (ps ++ [(s, d)])) as Hok.
  { intros Hs. destruct (add_trie t0 ps s d Ht0 Hs) as (t' & E & Ht'). rewrite E0, E. exists t'. split; [done|]. right. by split; [destruct ps|]. }
  clear t0 Ht0 E0. unfold AdAcbmTreeAdd in *. destruct (Z.eqb_spec (Z.of_nat (length s)) 0) as [Es|Es].
  - assert (s = []) as -> by (by destruct s). rewrite orb_true_r. split_and!; [by left|done|done].
  - assert (s <> []) as Hs by (by destruct s). rewrite (bool_decide_eq_false_2 (s = [])) by done.
    destruct (Hok Hs) as (t' & E & Ht'). rewrite orb_true_r in E. cbn [negb orb] in E.
    destruct (m_pstRoot t || malloc []) eqn:Em; cbn [negb orb].
    + destruct (descend _ [] s) as [p rest] eqn:Ed. destruct (grow malloc _ _ _ _) as [[h q]|] eqn:Eg.
      * apply grow_all in Eg. rewrite Eg in E. injection E as <-. split_and!; [done|done|by intros ->].
      * split_and!; [by left|intros Hm|done]. exfalso.
        assert (forall h p depth x, grow malloc h p depth x = grow (fun _ => true) h p depth x) as Egm.
        { intros h0 p0 d0 x. revert h0 p0 d0. induction x; intros; cbn [grow]; [done|]. by rewrite Hm. }
        rewrite Egm in Eg. by rewrite Eg in E.
    + split_and!; [by left|intros Hm; by rewrite Hm, orb_true_r in Em|done].
Qed.

Lemma add_well_formed_witness :
  let '(t', ok) := AdAcbmTreeAdd (fun p => (length p <? 3)%nat) (str "edge") 2 (matcher [(str "MSIE", 1)]) in
  well_formed t' (if ok then [(str "MSIE", 1)] ++ [(str "edge", 2)] else [])
  /\ ((forall p : bytes, (length p <? 3)%nat = true) -> ok = negb (bool_decide (str "edge" = [])))
  /\ (str "edge" = [] -> ok = false).
Proof.
  apply (add_well_formed (fun p => (length p <? 3)%nat) (str "edge") 2 (matcher [(str "MSIE", 1)]) [(str "MSIE", 1)]).
  right. split; [done|]. apply matcher_trie; [done|by repeat constructor].
Defined.

(** ** Defects *)

(** A search in the empty tree reads through the null root when the text has 512 bytes. *)
Lemma search_empty_undefined s r : (512 <= length s)%nat -> AdAcbmSearch tree0 s r = Undef.
Proof. intros Hs. unfold AdAcbmSearch. cbn [m_iMinPtnSize tree0]. destruct (Z.ltb_spec (Z.of_nat (length s) - 512) 0); [lia|].
  cbn [search_loop]. by destruct (Z.ltb_spec (Z.of_nat (length s) - 512) 0); [lia|]. Qed.

(** With the shifts that [AdAcbmTreeBuild] computes the search misses an occurrence: the table has
    no entry for the capitals of [a] and [z]. *)
Lemma build_misses :
  (t ← AdAcbmTreeBuild (matcher [(str "bba", 1)]); AdAcbmSearch t (str "bbAa") ∅) = Val (0, ∅)
  /\ AdAcbmSearch (matcher [(str "bba", 1)]) (str "bbAa") ∅ = Val (1, {[ 1 := [str "bba"] ]}).
Proof. by vm_compute. Qed.

(** A pattern that is added twice shifts the texts that later patterns are reported with. *)
Lemma duplicate_shifts :
  AdAcbmSearch (matcher [(str "ab", 1); (str "AB", 2); (str "cd", 3)]) (str "cd") ∅ = Val (1, {[ 3 := [str "AB"] ]}).
Proof. by vm_compute. Qed.
