(* ===== verification/UserClient.v ===== *)
(** * UserClient: what a user agent says about the device (utility/userclient.cpp, libutil/AdUaParser.h)

    The operating system, the kind of mobile device and the brand, by words of the text, and the
    browsers, by the matcher of [Acbm].  The codes of mtty/constants.h are the parameters [UaConst]
    and [BrowserConst]. *)
From S2P Require Import Prelude CString Double Acbm.

Inductive os_name : Set :=
| SOLUTION_OS_WINDOWS | SOLUTION_OS_IOS | SOLUTION_OS_MAC | SOLUTION_OS_ANDROID | SOLUTION_OS_LINUX | SOLUTION_OS_OTHER.
Inductive device_name : Set :=
| SOLUTION_DEVICE_IPAD | SOLUTION_DEVICE_IPHONE | SOLUTION_DEVICE_ANDROID | SOLUTION_DEVICE_ANDROIDPAD
| SOLUTION_DEVICE_WINDOWSPHONE | SOLUTION_DEVICE_OTHER.
Inductive brand_name : Set :=
| SOLUTION_BRAND_IPHONE | SOLUTION_BRAND_HUAWEI | SOLUTION_BRAND_XIAOMI | SOLUTION_BRAND_OPPO | SOLUTION_BRAND_VIVO
| SOLUTION_BRAND_MEIZU | SOLUTION_BRAND_LESHI | SOLUTION_BRAND_SAMSUNG | SOLUTION_BRAND_COOLPAD | SOLUTION_BRAND_GN
| SOLUTION_BRAND_HAIER | SOLUTION_BRAND_LENOVO | SOLUTION_BRAND_CHUIZI | SOLUTION_BRAND_OTHER.

Class UaConst := { os_id : os_name -> Z; device_id : device_name -> Z; brand_id : brand_name -> Z }.

Section ua.
Context `{UaConst}.

Definition getOSTypeFromUA (userAgent : bytes) : Z :=
  let has s := contains userAgent (str s) in
  os_id (if has "NT " then SOLUTION_OS_WINDOWS
         else if has "Mac" then if has "iPhone" || has "iPad" then SOLUTION_OS_IOS else SOLUTION_OS_MAC
         else if has "Linux" then if has "Android" then SOLUTION_OS_ANDROID else SOLUTION_OS_LINUX
         else SOLUTION_OS_OTHER).

Definition getMobileTypeFromUA (userAgent : bytes) : Z :=
  let has s := contains userAgent (str s) in
  device_id (if has "iPad" then SOLUTION_DEVICE_IPAD
             else if has "iPhone " then SOLUTION_DEVICE_IPHONE
             else if has "Android" then if has "Mobile" then SOLUTION_DEVICE_ANDROID else SOLUTION_DEVICE_ANDROIDPAD
             else SOLUTION_DEVICE_OTHER).

Definition brandFlag : gmap bytes brand_name :=
  list_to_map (map (fun '(s, b) => (str s, b))
  [ ("ipad", SOLUTION_BRAND_IPHONE); ("ios", SOLUTION_BRAND_IPHONE); ("iphone", SOLUTION_BRAND_IPHONE);
    ("huawei", SOLUTION_BRAND_HUAWEI); ("hw", SOLUTION_BRAND_HUAWEI); ("huaweipe", SOLUTION_BRAND_HUAWEI);
    ("huaweiknt", SOLUTION_BRAND_HUAWEI); ("huaweiedition", SOLUTION_BRAND_HUAWEI); ("huaweifrd", SOLUTION_BRAND_HUAWEI);
    ("honorplk", SOLUTION_BRAND_HUAWEI); ("honorbln", SOLUTION_BRAND_HUAWEI); ("honorche", SOLUTION_BRAND_HUAWEI);
    ("honornem", SOLUTION_BRAND_HUAWEI); ("honorchm", SOLUTION_BRAND_HUAWEI); ("honor", SOLUTION_BRAND_HUAWEI);
    ("honorh30", SOLUTION_BRAND_HUAWEI); ("xiaomi", SOLUTION_BRAND_XIAOMI); ("mi", SOLUTION_BRAND_XIAOMI);
    ("redmi", SOLUTION_BRAND_XIAOMI); ("miui", SOLUTION_BRAND_XIAOMI); ("oppo", SOLUTION_BRAND_OPPO);
    ("vivo", SOLUTION_BRAND_VIVO); ("meizu", SOLUTION_BRAND_MEIZU); ("mz", SOLUTION_BRAND_MEIZU);
    ("m1", SOLUTION_BRAND_MEIZU); ("m2", SOLUTION_BRAND_MEIZU); ("mx4", SOLUTION_BRAND_MEIZU);
    ("mx5", SOLUTION_BRAND_MEIZU); ("le", SOLUTION_BRAND_LESHI); ("letv", SOLUTION_BRAND_LESHI);
    ("samesung", SOLUTION_BRAND_SAMSUNG); ("sm", SOLUTION_BRAND_SAMSUNG); ("coolpad", SOLUTION_BRAND_COOLPAD);
    ("zte", SOLUTION_BRAND_COOLPAD); ("gn", SOLUTION_BRAND_GN); ("haier", SOLUTION_BRAND_HAIER);
    ("lenovo", SOLUTION_BRAND_LENOVO); ("sm701", SOLUTION_BRAND_CHUIZI); ("sm801", SOLUTION_BRAND_CHUIZI);
    ("sm919", SOLUTION_BRAND_CHUIZI); ("yq601", SOLUTION_BRAND_CHUIZI) ]%string).

Definition ua_words (userAgent : bytes) : list bytes := split_on (fun c => existsb (Z.eqb c) (str " /;-()")) userAgent.

Fixpoint first_brand (words : list bytes) : brand_name :=
  match words with
  | [] => SOLUTION_BRAND_OTHER
  | s :: words =>
    match s, brandFlag !! map to_lower s with
    | _ :: _, Some b => b
    | _, _ => first_brand words
    end
  end.

Definition getDeviceBrandFromUA (userAgent : bytes) : Z := brand_id (first_brand (ua_words userAgent)).
End ua.

(** ** Browsers *)

Inductive browser_name : Set :=
| SOLUTION_BROWSER_IE | SOLUTION_BROWSER_EDGE | SOLUTION_BROWSER_360 | SOLUTION_BROWSER_CHROME | SOLUTION_BROWSER_FIREFOX
| SOLUTION_BROWSER_SAFARI | SOLUTION_BROWSER_AOYOU | SOLUTION_BROWSER_QQ | SOLUTION_BROWSER_LIEBAO | SOLUTION_BROWSER_OTHER.
Class BrowserConst := { browser_id : browser_name -> Z; SOLUTION_BROWSER_ALL : Z }.
Class BrowserLaws (B : BrowserConst) : Prop :=
  browser_range b : 0 <= SOLUTION_BROWSER_ALL <= browser_id b /\ browser_id b <= browser_id SOLUTION_BROWSER_OTHER <= INT_MAX.

Section browser.
Context `{BrowserConst}.

(** [m_Global], a [std::map], in the order of its keys. *)
Definition m_Global : list (bytes * browser_name) :=
  map (fun '(s, b) => (str s, b))
  [ ("360SE", SOLUTION_BROWSER_360); ("Chrome", SOLUTION_BROWSER_CHROME); ("Edge", SOLUTION_BROWSER_EDGE);
    ("Firefox", SOLUTION_BROWSER_FIREFOX); ("LBBROWSER", SOLUTION_BROWSER_LIEBAO); ("MSIE", SOLUTION_BROWSER_IE);
    ("Maxthon", SOLUTION_BROWSER_AOYOU); ("QQBrowser", SOLUTION_BROWSER_QQ); ("Safari", SOLUTION_BROWSER_SAFARI) ]%string.
(** The codes are cast to pointers. *)
Definition as_pointer (v : Z) : Z := u64 v.
Definition ua_patterns : list (bytes * Z) := map (fun '(s, b) => (s, as_pointer (browser_id b))) m_Global.

(** [AdUserAgentParser], whose constructor adds the patterns, and [parse]. *)
Definition ua_parser : AdAcbmTree := matcher ua_patterns.
Definition parse (ua : bytes) (r : results) : outcome (Z * results) :=
  '(ret, r) ← AdAcbmSearch ua_parser ua r;
  Val (ret, if ret =? 0 then <[as_pointer (browser_id SOLUTION_BROWSER_OTHER) := []]> r else r).

(** [NumberStringTable::get]; its assertion fails outside the range. *)
Definition table_get (i : Z) : outcome bytes :=
  check ((SOLUTION_BROWSER_ALL <=? i) && (i <=? browser_id SOLUTION_BROWSER_OTHER));; Val (to_string i).

Fixpoint print_ids (keys : list Z) : outcome bytes :=
  match keys with
  | [] => Val []
  | k :: keys => num ← table_get (s32 (s64 k)); t ← print_ids keys; Val (ch "," :: c_str num ++ t)
  end.

(** The results are a [std::map] of pointers, which is iterated in their order; the text is written
    with its terminator into 256 bytes. *)
Definition getBrowserTypeFromUA (userAgent : bytes) : outcome bytes :=
  '(_, result) ← parse userAgent ∅;
  text ← print_ids (merge_sort Z.le (map fst (map_to_list result)));
  check (length text <? 256)%nat;;
  Val (match text with [] => [] | _ :: t => c_str t end).

Definition browser_words (browserStr : bytes) : list bytes := split_on (fun c => existsb (Z.eqb c) (str " ,")) browserStr.

(** [std::stoi] of the words that are not empty; an exception keeps the ids before it. *)
Fixpoint push_ids (words : list bytes) (ids : list Z) : outcome (list Z) :=
  match words with
  | [] => Val ids
  | s :: words =>
    if (0 <? length s)%nat then
      match stoi s with
      | Val i => push_ids words (ids ++ [i])
      | Exc _ => Val (ids ++ [browser_id SOLUTION_BROWSER_OTHER])
      | Undef => Undef
      end
    else push_ids words ids
  end.
Definition getBrowserTypeFromUAAll (userAgent : bytes) : outcome (list Z) :=
  browserStr ← getBrowserTypeFromUA userAgent; push_ids (browser_words browserStr) [].

Fixpoint first_id (words : list bytes) : outcome Z :=
  match words with
  | [] => Val (browser_id SOLUTION_BROWSER_OTHER)
  | s :: words =>
    if (0 <? length s)%nat then try_all (stoi s) (Val (browser_id SOLUTION_BROWSER_OTHER)) else first_id words
  end.
Definition getBrowserTypeFromUAOne (userAgent : bytes) : outcome Z :=
  browserStr ← getBrowserTypeFromUA userAgent; first_id (browser_words browserStr).
End browser.

(** ** Properties *)

(** The brand is that of the first word, in any case of letters, that names one; without such a
    word it is [SOLUTION_BRAND_OTHER]. *)
Lemma first_brand_spec words :
  match list_find (fun s => is_Some (brandFlag !! map to_lower s)) words with
  | Some (_, s) => brandFlag !! map to_lower s = Some (first_brand words)
  | None => first_brand words = SOLUTION_BRAND_OTHER
  end.
Proof.
  assert (brandFlag !! map to_lower [] = None) as E0 by by vm_compute.
  induction words as [|s words IH]; [done|]. cbn [list_find first_brand]. case_decide as Hs.
  - destruct Hs as [b Hb]. destruct s as [|c s]; [by rewrite E0 in Hb|]. by rewrite Hb.
  - assert (brandFlag !! map to_lower s = None) as E.
    { destruct (brandFlag !! map to_lower s) eqn:E; [|done]. destruct Hs. by eexists. }
    destruct s as [|c s]; [|rewrite E]; by destruct (list_find _ words) as [[i s']|].
Qed.

(** A phone that calls itself by the maker's name is not recognised: the table has the word
    [samesung]. *)
Lemma samsung_unknown : first_brand (ua_words (str "Linux; Android 7.0; SAMSUNG GT (KHTML)")) = SOLUTION_BRAND_OTHER.
Proof. by vm_compute. Qed.

(** ** The browsers *)

Definition commas (ids : list Z) : bytes := flat_map (fun i => ch "," :: to_string i) ids.
Definition named (ua s : bytes) : bool := contains (lower ua) (lower s).

Section browser_proofs.
Context `{B : BrowserConst} `{!BrowserLaws B}.

Lemma as_pointer_id b : as_pointer (browser_id b) = browser_id b.
Proof. destruct (browser_range b). unfold as_pointer, INT_MAX in *. apply uwrap_small. lia. Qed.

Lemma ua_patterns_elem p : p ∈ ua_patterns <-> exists s b, (s, b) ∈ m_Global /\ p = (s, browser_id b).
Proof.
  unfold ua_patterns. rewrite list_elem_of_In, in_map_iff. split.
  - intros ([s b] & <- & Hin). exists s, b. rewrite as_pointer_id. by rewrite list_elem_of_In.
  - intros (s & b & Hin & ->). exists (s, b). rewrite as_pointer_id. by rewrite <- list_elem_of_In.
Qed.

Lemma ua_patterns_ne : Forall (fun p => fst p <> []) ua_patterns.
Proof. by repeat constructor. Qed.

(** The codes of the browsers a user agent names. *)
Definition expected (ua : bytes) (i : Z) : Prop :=
  (exists s b, (s, b) ∈ m_Global /\ i = browser_id b /\ named ua s = true)
  \/ (i = browser_id SOLUTION_BROWSER_OTHER /\ forall s b, (s, b) ∈ m_Global -> named ua s = false).

Lemma parse_keys ua : Forall is_byte ua -> exists n r, parse ua ∅ = Val (n, r) /\ forall i, is_Some (r !! i) <-> expected ua i.
Proof.
  intros Hua. unfold parse, ua_parser. rewrite search_finds_all; [|done|apply ua_patterns_ne|done]. cbn [mbind outcome_bind].
  pose proof (fun d => results_elem ua_patterns ua d ua_patterns_ne) as Hr. eexists _, _. split; [reflexivity|]. intros i.
  assert ((exists p, p ∈ ua_patterns /\ snd p = i /\ contains (lower ua) (lower (fst p)) = true)
    <-> exists s b, (s, b) ∈ m_Global /\ i = browser_id b /\ named ua s = true) as Hp.
  { unfold named. split; [intros (p & (s & b & Hin & ->)%ua_patterns_elem & <- & Hc)|intros (s & b & Hin & -> & Hc)]; [by eauto|].
    exists (s, browser_id b). split_and!; [apply ua_patterns_elem; eauto|done|done]. }
  destruct (Z.eqb_spec (Z.of_nat (length (occurrences (distinct ua_patterns) ua))) 0) as [E0|E0]; unfold expected; rewrite <- Hp.
  - destruct (occurrences (distinct ua_patterns) ua) as [|] eqn:E; [|done]. cbn [foldl] in *.
    assert (forall s b, (s, b) ∈ m_Global -> named ua s = false) as Hn.
    { intros s b Hin. apply not_true_iff_false. intros Hc. destruct (Hr (browser_id b)) as [_ Hr'].
      destruct Hr' as [? Hs]; [exists (s, browser_id b); split_and!; [apply ua_patterns_elem; eauto|done|done]|]. by rewrite lookup_empty in Hs. }
    rewrite as_pointer_id, lookup_insert_is_Some', Hr. naive_solver.
  - rewrite Hr. split; [by left|]. intros [?|[-> Hn]]; [done|]. exfalso.
    destruct (occurrences (distinct ua_patterns) ua) as [|k l] eqn:E; [done|].
    assert (k ∈ occurrences (distinct ua_patterns) ua) as Hk by (rewrite E; by left).
    apply occurrences_elem in Hk as (a & x & b & Eua & Hx & Ek).
    assert (lower x ∈ distinct ua_patterns) as ([s d] & (s' & b' & Hin & [= -> ->])%ua_patterns_elem & Ex)%distinct_elem by (apply place_elem; by rewrite Ek).
    specialize (Hn s' b' Hin). unfold named in Hn. rewrite Eua, !lower_app, Ex in Hn. cbn [fst] in Hn.
    apply not_true_iff_false in Hn. destruct Hn. apply contains_spec. eauto.
Qed.

Lemma expected_range ua i : expected ua i -> 0 <= SOLUTION_BROWSER_ALL <= i /\ i <= browser_id SOLUTION_BROWSER_OTHER <= INT_MAX.
Proof. intros [(s & b & _ & -> & _)|[-> _]]; apply browser_range. Qed.

Lemma expected_some ua : exists i, expected ua i.
Proof.
  destruct (existsb (fun p => named ua (fst p)) m_Global) eqn:E.
  - apply existsb_exists in E as ([s b] & Hin & Hc). exists (browser_id b). left. exists s, b. by rewrite list_elem_of_In.
  - exists (browser_id SOLUTION_BROWSER_OTHER). right. split; [done|]. intros s b Hin. apply not_true_iff_false. intros Hc.
    apply not_true_iff_false in E. destruct E. apply existsb_exists. exists (s, b). by rewrite <- list_elem_of_In.
Qed.

(** The codes are printed, each once, and fit the buffer. *)
Lemma print_ids_run ids :
  Forall (fun i => 0 <= SOLUTION_BROWSER_ALL <= i /\ i <= browser_id SOLUTION_BROWSER_OTHER <= INT_MAX) ids -> print_ids ids = Val (commas ids).
Proof.
  induction 1 as [|i ids [Ha Ho] _ IH]; [done|]. cbn [print_ids commas flat_map]. unfold INT_MAX in *.
  rewrite (swrap_small 64), (swrap_small 32) by lia. unfold table_get.
  destruct (Z.leb_spec SOLUTION_BROWSER_ALL i), (Z.leb_spec i (browser_id SOLUTION_BROWSER_OTHER)); try lia.
  cbn [andb check mbind outcome_bind]. rewrite IH. cbn [mbind outcome_bind]. by rewrite c_str_id by (apply to_string_no_nul; lia).
Qed.

Lemma length_commas ids : Forall (fun i => 0 <= i <= INT_MAX) ids -> (length (commas ids) <= 11 * length ids)%nat.
Proof.
  induction 1 as [|i ids Hi _ IH]; [done|]. cbn [commas flat_map length app]. rewrite length_app. fold (commas ids).
  pose proof (length_to_string_pow i 10 ltac:(lia) ltac:(unfold INT_MAX in Hi; lia)). lia.
Qed.

Lemma expected_count ua ids : NoDup ids -> (forall i, i ∈ ids -> expected ua i) -> (length ids <= 10)%nat.
Proof.
  intros Hd Hi. change 10%nat with (length (browser_id SOLUTION_BROWSER_OTHER :: map (fun p => browser_id (snd p)) m_Global)).
  apply NoDup_incl_length; [by apply NoDup_ListNoDup|]. intros i Hin%list_elem_of_In. destruct (Hi i Hin) as [(s & b & Hm & -> & _)|[-> _]]; [right|by left].
  apply in_map_iff. exists (s, b). by rewrite <- list_elem_of_In.
Qed.

Lemma commas_no_nul ids : Forall (fun i => 0 <= i) ids -> no_nul (commas ids).
Proof.
  induction 1 as [|i ids Hi _ IH]; [by constructor|]. cbn [commas flat_map]. apply Forall_app. split; [|done].
  constructor; [done|]. by apply to_string_no_nul.
Qed.

(** Reading the codes back. *)
Lemma browser_words_commas i ids : browser_words (to_string i ++ commas ids) = map to_string (i :: ids).
Proof.
  assert (forall n, Forall (fun c => existsb (Z.eqb c) (str " ,") = false) (to_string n)) as Hn.
  { intros n. eapply Forall_impl; [apply Forall_and; split; [by apply (to_string_none n 32)|by apply (to_string_none n 44)]|].
    intros c [H1 H2]. change ((c =? 32) || ((c =? 44) || false) = false). by rewrite H1, H2. }
  unfold browser_words. revert i. induction ids as [|j ids IH]; intros i; cbn [commas flat_map app].
  - rewrite app_nil_r. by apply split_on_none.
  - rewrite (split_on_delim _ _ (ch ",")) by (done || apply Hn). cbn [map]. f_equal. apply IH.
Qed.

Lemma push_ids_run ids acc :
  Forall (fun i => 0 <= i <= INT_MAX) ids -> push_ids (map to_string ids) acc = Val (acc ++ ids).
Proof.
  intros Hi. revert acc. induction Hi as [|i ids Hi _ IH]; intros acc; cbn [map push_ids]; [by rewrite app_nil_r|].
  pose proof (to_string_ne i). destruct (Nat.ltb_spec 0 (length (to_string i))); [|destruct (to_string i); cbn in *; [done|lia]].
  unfold stoi. rewrite sto_to_string by (unfold INT_MIN, INT_MAX in *; lia). rewrite IH. by rewrite <- app_assoc.
Qed.
End browser_proofs.

Lemma strict_of_sorted (l : list Z) : StronglySorted Z.le l -> NoDup l -> StronglySorted Z.lt l.
Proof.
  induction 1 as [|x l Hs IH Hx]; intros Hd; [constructor|]. apply NoDup_cons in Hd as [Hni Hd]. constructor; [by apply IH|].
  apply Forall_forall. intros y Hy. rewrite Forall_forall in Hx. specialize (Hx y Hy). assert (x <> y) by (by intros ->). lia.
Qed.

(** What a user agent says about the browser.  Whatever its text, the codes of exactly the
    browsers whose name occurs in it, in any case of letters, are printed in increasing order, each
    once, and the code of the others when no name occurs; the printed text fits its buffer.  The
    two other functions return the same codes and the first of them. *)
Theorem browsers_found `{B : BrowserConst} `{!BrowserLaws B} ua :
  Forall is_byte ua ->
  exists i ids, StronglySorted Z.lt (i :: ids)
    /\ (forall j, j ∈ i :: ids <->
          (exists s b, (s, b) ∈ m_Global /\ j = browser_id b /\ contains (map to_lower ua) (map to_lower s) = true)
          \/ (j = browser_id SOLUTION_BROWSER_OTHER /\ forall s b, (s, b) ∈ m_Global -> contains (map to_lower ua) (map to_lower s) = false))
    /\ getBrowserTypeFromUA ua = Val (to_string i ++ flat_map (fun j => ch "," :: to_string j) ids)
    /\ getBrowserTypeFromUAAll ua = Val (i :: ids) /\ getBrowserTypeFromUAOne ua = Val i.
Proof.
  intros Hua. destruct (parse_keys ua Hua) as (n & r & Ep & Hr). set (keys := merge_sort Z.le (map fst (map_to_list r))).
  assert (NoDup keys) as Hnd by (unfold keys; rewrite merge_sort_Permutation; apply NoDup_fst_map_to_list).
  assert (forall j, j ∈ keys <-> expected ua j) as Hk.
  { intros j. rewrite <- Hr. unfold keys. rewrite merge_sort_Permutation, list_elem_of_In, in_map_iff. split.
    - intros ([k v] & <- & Hin). exists v. by apply elem_of_map_to_list, list_elem_of_In.
    - intros [v Hv]. exists (j, v). split; [done|]. by apply list_elem_of_In, elem_of_map_to_list. }
  assert (StronglySorted Z.lt keys) as Hs by (apply strict_of_sorted; [apply Sorted_StronglySorted; [intros x y z; lia|apply Sorted_merge_sort, _]|done]).
  assert (getBrowserTypeFromUA ua = Val (drop 1 (commas keys))) as E.
  { unfold getBrowserTypeFromUA. rewrite Ep. cbn [mbind outcome_bind]. fold keys. rewrite print_ids_run; cycle 1.
    { apply Forall_forall. intros j Hj. by apply (expected_range ua), Hk. }
    assert (Forall (fun j => 0 <= j <= INT_MAX) keys) as Hr0 by (apply Forall_forall; intros j Hj; apply Hk, expected_range in Hj; lia).
    pose proof (length_commas keys Hr0). pose proof (expected_count ua keys Hnd (fun j => proj1 (Hk j))). cbn [mbind outcome_bind].
    destruct (Nat.ltb_spec (length (commas keys)) 256) as [_|]; [|lia]. cbn [check mbind outcome_bind].
    pose proof (commas_no_nul keys ltac:(eapply Forall_impl; [exact Hr0|cbn; lia])) as Hnn. destruct (commas keys) as [|c t]; [done|].
    rewrite c_str_id; [done|]. by apply Forall_cons_1 in Hnn as [_ ?]. }
  assert (Forall (fun j => 0 <= j <= INT_MAX) keys) as Hr0 by (apply Forall_forall; intros j Hj; apply Hk, expected_range in Hj; lia).
  destruct keys as [|i ids] eqn:Ek.
  { destruct (expected_some ua) as [i Hi]. apply Hk in Hi. by apply not_elem_of_nil in Hi. }
  exists i, ids. split_and!; [done|exact Hk|exact E|..].
  - unfold getBrowserTypeFromUAAll. rewrite E. cbn [mbind outcome_bind]. change (drop 1 (commas (i :: ids))) with (to_string i ++ commas ids).
    rewrite browser_words_commas. by apply push_ids_run.
  - unfold getBrowserTypeFromUAOne. rewrite E. cbn [mbind outcome_bind]. change (drop 1 (commas (i :: ids))) with (to_string i ++ commas ids).
    rewrite browser_words_commas. cbn [map first_id]. pose proof (to_string_ne i). apply Forall_cons_1 in Hr0 as [Hi _].
    destruct (Nat.ltb_spec 0 (length (to_string i))); [|destruct (to_string i); cbn in *; [done|lia]].
    unfold stoi. by rewrite sto_to_string by (unfold INT_MIN, INT_MAX in *; lia).
Qed.

Module BrowserInstance.
(** The codes 1 to 9 and 10. *)
#[local] Instance browser_codes : BrowserConst := {
  browser_id b := match b with
    | SOLUTION_BROWSER_IE => 1 | SOLUTION_BROWSER_EDGE => 2 | SOLUTION_BROWSER_360 => 3 | SOLUTION_BROWSER_CHROME => 4
    | SOLUTION_BROWSER_FIREFOX => 5 | SOLUTION_BROWSER_SAFARI => 6 | SOLUTION_BROWSER_AOYOU => 7 | SOLUTION_BROWSER_QQ => 8
    | SOLUTION_BROWSER_LIEBAO => 9 | SOLUTION_BROWSER_OTHER => 10 end;
  SOLUTION_BROWSER_ALL := 0;
}.
#[local] Instance browser_codes_laws : BrowserLaws browser_codes.
Proof. intros b. by destruct b. Qed.

Definition chrome : bytes := str "Mozilla/5.0 (X11; Linux) AppleWebKit/537.36 (KHTML, like Gecko) Chrome/58.0 Safari/537.36".

Lemma browsers_found_witness :
  exists i ids, StronglySorted Z.lt (i :: ids)
    /\ (forall j, j ∈ i :: ids <->
          (exists s b, (s, b) ∈ m_Global /\ j = browser_id b /\ contains (map to_lower chrome) (map to_lower s) = true)
          \/ (j = browser_id SOLUTION_BROWSER_OTHER /\ forall s b, (s, b) ∈ m_Global -> contains (map to_lower chrome) (map to_lower s) = false))
    /\ getBrowserTypeFromUA chrome = Val (to_string i ++ flat_map (fun j => ch "," :: to_string j) ids)
    /\ getBrowserTypeFromUAAll chrome = Val (i :: ids) /\ getBrowserTypeFromUAOne chrome = Val i.
Proof. apply browsers_found. apply (bool_decide_unpack _). by vm_compute. Defined.

Example chrome_codes : getBrowserTypeFromUAAll chrome = Val [4; 6].
Proof. by vm_compute. Qed.
End BrowserInstance.
