(* ===== verification/AdSelect.v ===== *)
(** * AdSelect: creatives and the selection of ads (core/adselectv2/ad_select_interface.h)

    What the modules for bids and impressions share: the JSON values of cppcms, formats, the records
    of the ad selection, which is a service of its own, and the condition it is asked with. *)
From Stdlib Require Import SpecFloat.
From S2P Require Import Prelude CString UrlCodec UrlParams Double CookieMapping.

(** ** JSON values *)

Inductive json : Type :=
| JUndefined | JNull | JBool (b : bool) | JNum (x : double) | JStr (s : bytes) | JArr (vs : list json)
| JObj (ms : list (bytes * json)).

(** [json_parse] is [JUndefined] on a text that cannot be parsed. *)
Class Json := { json_parse : bytes -> json; json_print : json -> bytes }.

(** [value[key]] of a value that is no object makes it an empty one. *)
Definition members (v : json) : list (bytes * json) := match v with JObj ms => ms | _ => [] end.

Fixpoint assoc (k : bytes) (ms : list (bytes * json)) : option json :=
  match ms with [] => None | (k', v) :: ms => if bool_decide (k = k') then Some v else assoc k ms end.
Fixpoint assoc_set (k : bytes) (v : json) (ms : list (bytes * json)) : list (bytes * json) :=
  match ms with
  | [] => [(k, v)]
  | (k', v') :: ms => if bool_decide (k = k') then (k, v) :: ms else (k', v') :: assoc_set k v ms
  end.

Definition set_member (k : bytes) (x v : json) : json := JObj (assoc_set k x (members v)).
Definition get_member (k : bytes) (v : json) : json := default JUndefined (assoc k (members v)).

(** [array()] and [str()] throw on other values; [get(key, "")] does not. *)
Definition as_array (v : json) : outcome (list json) := match v with JArr vs => Val vs | _ => Exc BadCast end.
Definition as_str (v : json) : outcome bytes := match v with JStr s => Val s | _ => Exc BadCast end.
Definition get_text (k : bytes) (v : json) : bytes :=
  match v with JObj ms => match assoc k ms with Some (JStr s) => s | _ => [] end | _ => [] end.

(** [array[0]] of an empty [std::vector] is undefined. *)
Definition head_of (vs : list json) : outcome (json * list json) := match vs with [] => Undef | v :: vs => Val (v, vs) end.

(** ** Formats *)

(** [snprintf] for formats of [%s] and [%%]; an argument too few is undefined, another directive is
    left open. *)
Fixpoint format (fmt : bytes) (args : list bytes) : outcome bytes :=
  match fmt with
  | [] => Val []
  | c :: fmt =>
    if c =? ch "%" then
      match fmt with
      | d :: fmt =>
        if d =? ch "%" then t ← format fmt args; Val (ch "%" :: t)
        else if d =? ch "s" then
          match args with a :: args => t ← format fmt args; Val (c_str a ++ t) | [] => Undef end
        else Undef
      | [] => Undef
      end
    else t ← format fmt args; Val (c :: t)
  end.

(** ** Parameters *)

Inductive ssp_key : Set :=
| URL_SSP_PID | URL_SSP_ADX_PID | URL_SSP_DEVICE | URL_SSP_PLATFORM | URL_SSP_USERAGENT | URL_SSP_LONGITUDE | URL_SSP_LATITUDE.

(** mtty/constants.h *)
Class ShowConst := {
  ssp_name : ssp_key -> bytes;
  OF_DSP : bytes; OF_SSP : bytes; OF_DSP_MOBILE_SHOW : bytes; OF_DSP_MOBILE_LOG : bytes; OF_SSP_MOBILE : bytes;
  ADX_MACRO_SUFFIX : bytes;
  BANNER_TYPE_PRIMITIVE : Z; BANNER_TYPE_VIDEO : Z; BANNER_TYPE_PIC : Z; BANNER_TYPE_MOBILE : Z;
  SOLUTION_FLOWTYPE_UNKNOWN : Z; SOLUTION_FLOWTYPE_MOBILE : Z; SOLUTION_FLOWTYPE_PC : Z;
  DEFAULT_PRODUCT_PACKAGE_ID : Z;
  SSP_DEVICE_UNKNOWN : bytes; SSP_DEVICE_MOBILEPHONE : bytes; SSP_DEVICE_PAD : bytes;
  SSP_PLATFORM_UNKNOWN : bytes; SSP_PLATFORM_IOS : bytes; SSP_PLATFORM_ANDROID : bytes; SSP_PLATFORM_WINDOWSPHONE : bytes;
}.

(** ** The selection *)

(** The records of mtty's library, as far as the modules read them. *)
Record Banner := mkBanner {
  bId : Z; bgId : Z; banner_json : bytes; bannerType : Z; width : Z; height : Z; adxIndustryType : bytes;
  adxAdvId : bytes;
}.
Record Solution := mkSolution { sol_sId : Z; sol_advId : Z; sol_priceType : Z; sol_dDealId : bytes }.
Record ADPlace := mkPlace {
  pl_pId : Z; pl_adxPId : bytes; pl_adxId : Z; pl_mId : Z; pl_cId : Z; pl_priceType : Z; pl_basePrice : Z;
}.
(** [cost_detail] is [getDetailStr(1.0)], [final_rate] is [getFinalFeeRate()]. *)
Record SelectResult := mkResult {
  res_solution : Solution; res_banner : Banner; res_place : ADPlace; res_ppid : Z; res_orderId : Z;
  res_bidPrice : Z; res_feePrice : Z; spend : double; final_rate : double; cost_detail : bytes;
}.

(** [AdSelectCondition] in three parts: the place and its flow, the client, and what the selection
    itself is asked for; the fields that the modules set.  [adplaceInfo] is the [sizeArray] of
    [pAdplaceInfo], if it is set.  [deviceBrand] and [scenario] have no initial value; [None] is a field that was
    never written. *)
Record cond_place := mkCondPlace {
  cond_adxpid : bytes; cond_mttyPid : Z; cond_adxid : Z; cond_basePrice : Z; cond_width : Z; cond_height : Z;
  cond_bannerType : Z; mttyContentType : Z; cond_mediaType : Z; cond_dealId : bytes; keywords : list bytes;
  adplaceInfo : option (list (Z * Z)); requiredCreativeLevel : Z;
}.
Record cond_client := mkClient {
  cond_ids : device_ids; cond_mobileDevice : Z; cond_flowType : Z; cond_pcOS : Z; mobileNetwork : Z; mobileNetWorkProvider : Z;
  deviceMaker : bytes; mobileModel : bytes; cond_geo : double * double; deviceBrand : option Z;
  pcBrowserStr : bytes;
}.
Record AdSelectCondition := mkCondition {
  at_place : cond_place; of_client : cond_client; cond_ip : bytes; cond_mtUserId : bytes;
  cond_dGeo : Z; cond_dHour : bytes; scenario : option Z; bannedSolutions : list Z; isFromSSP : bool;
}.

Definition place0 : cond_place := mkCondPlace [] 0 0 0 0 0 0 0 0 [] [] None 99.
Definition client0 : cond_client :=
  mkClient (mkIds [] [] [] []) 0 0 0 0 0 [] [] (S754_zero false, S754_zero false) None [].
Definition condition0 : AdSelectCondition := mkCondition place0 client0 [] [] 0 [] None [] false.
