(* ===== verification/AdClient.v ===== *)
(** * AdClient: the client of the ad selection (core/adselectv2/ad_select_client.cpp, core/adselectv2/ad_select_client.h)

    The selection is a service that is asked over a request socket of ZeroMQ.  A condition is turned
    into named values, sent as one message behind a byte with its kind, and the answer is waited
    for.

    The encoders of the messages, which are mtty's, are the parameter [SelectWire].  ZeroMQ is the
    parameter [ZmqReq], whose socket holds what the network will do, and [ZmqReqLaws] is what the
    manual of ZeroMQ says of a request socket: it sends only when the last answer has come and
    receives only after it has sent, otherwise it fails with [EFSM]; a closed socket fails with
    [ENOTSOCK]. *)
From Stdlib Require Import SpecFloat.
From S2P Require Import Scenario IpManager.
From S2P Require Import Prelude CString UrlCodec UrlParams Double CookieMapping UserClient AdSelect.

(** ** Requests *)

(** The values of [MT::common::SourceType]. *)
Inductive source_value : Type :=
| SInt (n : Z) | SText (t : bytes) | SSizes (l : list (Z * Z)) | SPoint (p : double * double) | SIds (l : list Z).

Record SelectRequest := mkSelectRequest {
  source : list (bytes * source_value); nativeAdFlow : bool; fromSSP : bool; rq_mttyPid : Z; rq_adxId : Z; rq_adxPid : bytes; baseEcpm : Z;
}.

(** [MT::common::MessageType] *)
Inductive message_type : Set := ADSELECT_REQUEST | ADSELECT_DEBUG | GET_BANNER_REQUEST | PUSH_REQUEST_COUNT.

(** [debug_request] wraps the kind and the text of a message, [debug_response] unwraps an answer. *)
Class SelectWire := {
  type_byte : message_type -> Z;
  serialize_request : SelectRequest -> bytes;
  deserialize_result : bytes -> SelectResult -> outcome SelectResult;
  read_banner : bytes -> outcome Banner;                (* boost's text archive *)
  debug_request : Z -> bytes -> bytes;
  debug_response : bytes -> outcome bytes;
  string2vecint : bytes -> list Z;
  SOLUTION_BROWSER_OTHER_ID : Z;
}.

(** A field that was never written holds whatever the memory has. *)
Class CondMemory := { brand_uninit : Z; scenario_uninit : Z }.

(** [std::unordered_map::insert] *)
Definition source_insert (k : string) (v : source_value) (m : list (bytes * source_value)) : list (bytes * source_value) :=
  if bool_decide (str k ∈ m.*1) then m else m ++ [(str k, v)].
Definition source_value_of (k : string) (m : list (bytes * source_value)) : option source_value :=
  snd ∘ snd <$> list_find (fun e => fst e = str k) m.

(** ** ZeroMQ *)

(** A call returns, throws a [zmq::error_t] with its number, or throws another exception. *)
Inductive zmq_result (A : Type) : Type := ZOk (a : A) | ZError (num : Z) | ZException.
Arguments ZOk {A} _.
Arguments ZError {A} _.
Arguments ZException {A}.

(** The calls on a socket.  [zmq_socket] assigns a new request socket of the same context to a closed one;
    [zmq_pollAndRecv] returns no message when none came in time. *)
Class ZmqReq := {
  zsocket : Type;
  zmq_send : bytes -> zsocket -> zmq_result unit * zsocket;
  zmq_recv : zsocket -> zmq_result bytes * zsocket;
  zmq_pollAndRecv : Z -> zsocket -> zmq_result (option bytes) * zsocket;
  zmq_close : zsocket -> zsocket;
  zmq_socket : zsocket -> zmq_result unit * zsocket;
  zmq_connect : bytes -> zsocket -> zmq_result unit * zsocket;
}.

Definition EFSM : Z := 156384763.
Definition ENOTSOCK : Z := 88.

(** The state of a request socket: it can send, it waits for an answer, or it is closed. *)
Inductive req_state : Set := Ready | Awaiting | Closed.

(** A call that failed left the state of the socket as it was, unless it found the socket closed. *)
Definition failed_state {A} (old : req_state) (r : zmq_result A) (new : req_state) : Prop :=
  new = match r with ZError n => if n =? ENOTSOCK then Closed else old | _ => old end.
Definition is_ok {A} (r : zmq_result A) : bool := match r with ZOk _ => true | _ => false end.

(** zmq_socket(3) of a request socket, and the errors of zmq_send(3), zmq_msg_recv(3) and zmq_close(3). *)
Class ZmqReqLaws (Z_ : ZmqReq) := {
  state_of : zsocket -> req_state;
  send_ready m s : state_of s = Ready -> let '(r, s') := zmq_send m s in
    if is_ok r then state_of s' = Awaiting else failed_state Ready r (state_of s');
  send_awaiting m s : state_of s = Awaiting -> let '(r, s') := zmq_send m s in r = ZError EFSM /\ state_of s' = Awaiting;
  send_closed m s : state_of s = Closed -> let '(r, s') := zmq_send m s in r = ZError ENOTSOCK /\ state_of s' = Closed;
  recv_awaiting s : state_of s = Awaiting -> let '(r, s') := zmq_recv s in
    if is_ok r then state_of s' = Ready else failed_state Awaiting r (state_of s');
  poll_awaiting t s : state_of s = Awaiting -> let '(r, s') := zmq_pollAndRecv t s in
    match r with ZOk (Some _) => state_of s' = Ready | ZOk None => state_of s' = Awaiting | _ => failed_state Awaiting r (state_of s') end;
  close_closes s : state_of (zmq_close s) = Closed;
  socket_opens s : state_of s = Closed -> let '(r, s') := zmq_socket s in state_of s' = if is_ok r then Ready else Closed;
  connect_keeps url s : state_of (snd (zmq_connect url s)) = state_of s;
}.

(** An operation gives its answer, which may be an exception, the socket, and the message it sent. *)
Record op_result `{ZmqReq} (A : Type) := mkOp { answer : outcome A; socket : zsocket; sent_message : option bytes }.
Arguments mkOp {_ A} _ _ _.
Arguments answer {_ A} _.
Arguments socket {_ A} _.
Arguments sent_message {_ A} _.

Section client.
Context `{Memory, IpConst, SelectWire, CondMemory, ZmqReq}.

(** [pAdplaceInfo->isAdFlow], [adplaceType] and [displayNumber] are never set. *)
Definition place_values (p : cond_place) : list (string * source_value) :=
  match adplaceInfo p with
  | None => [ ("height", SInt (cond_height p)); ("width", SInt (cond_width p)); ("sizes", SSizes [(cond_width p, cond_height p)]) ]%string
  | Some szs => [ ("sizes", SSizes szs) ]%string
  end.

Definition browser_value (c : cond_client) : Z := match string2vecint (pcBrowserStr c) with b :: _ => b | [] => SOLUTION_BROWSER_OTHER_ID end.

Definition request_values (now hour ip : Z) (c : AdSelectCondition) : list (string * source_value) :=
  let p := at_place c in let d := of_client c in
  [ ("d_adplacetype", SInt 0); ("d_adexchange", SInt (cond_adxid p)); ("d_adplace", SInt (cond_mttyPid p)); ("n_adplace", SInt (cond_mttyPid p));
    ("d_adxpid", SText (cond_adxpid p)); ("d_dealid", SText (cond_dealId p));
    ("d_countrygeo", SInt (cond_dGeo c - Z.rem (cond_dGeo c) AREACODE_MARGIN)); ("d_geo", SInt (cond_dGeo c)); ("n_geo", SInt (cond_dGeo c));
    ("d_hour", SInt hour); ("d_displaynumber", SInt 0); ("d_flowtype", SInt (cond_flowType d)) ]%string
  ++ place_values p ++
  [ ("d_device", SInt (cond_mobileDevice d)); ("d_mediatype", SInt (cond_mediaType p)); ("d_network", SInt (mobileNetwork d)); ("d_ip", SInt ip);
    ("d_os", SInt (cond_pcOS d)); ("d_contenttype", SInt (mttyContentType p)); ("time", SInt now); ("overflow_hour", SInt (Z.rem hour 100));
    ("banner_type", SInt (cond_bannerType p)); ("mtuser", SText (cond_mtUserId c)); ("max_creative_level", SInt (requiredCreativeLevel p));
    ("gpsgeo", SPoint (cond_geo d)); ("d_brand", SInt (default brand_uninit (deviceBrand d)));
    ("d_scenario", SInt (default scenario_uninit (scenario c))); ("d_browser", SInt (browser_value d));
    ("isp", SInt (mobileNetWorkProvider d)); ("banned_sids", SIds (bannedSolutions c)) ]%string.

Definition makeRequest (now : Z) (isSSP : bool) (c : AdSelectCondition) : outcome SelectRequest :=
  hour ← stol (cond_dHour c);
  ip ← ipStringToInt (cond_ip c);
  let p := at_place c in
  Val (mkSelectRequest (foldl (fun m '(k, v) => source_insert k v m) [] (request_values now hour ip c)) false (isSSP || isFromSSP c)
         (cond_mttyPid p) (cond_adxid p) (cond_adxpid p) (cond_basePrice p)).

(** ** The socket *)

(** [socket_.close(); socket_ = zmq::socket_t(context_, ZMQ_REQ); socket_.connect(serverUrl_)] *)
Definition reopen (serverUrl : bytes) (s : zsocket) : zmq_result unit * zsocket :=
  match zmq_socket (zmq_close s) with
  | (ZOk _, s) => zmq_connect serverUrl s
  | (e, s) => (e, s)
  end.

(** An exception that leaves the operation. *)
Definition thrown {A} (r : zmq_result unit) (a : A) : outcome A :=
  match r with ZOk _ => Val a | _ => Exc (RuntimeError "zmq") end.

(** The kind and the text of a message, in a debugging session wrapped in one of its own. *)
Definition filterDebugSessionRequest (inDebugSession : bool) (flag : Z) (requestBin : bytes) : Z * bytes :=
  if inDebugSession then (type_byte ADSELECT_DEBUG, debug_request flag requestBin) else (flag, requestBin).
Definition filterDebugSessionResponse (inDebugSession : bool) (responseBin : bytes) : outcome bytes :=
  if inDebugSession then debug_response responseBin else Val responseBin.

(** The answer without its first byte, [reply.size() - 1] bytes: the size of an empty reply wraps. *)
Definition reply_text (reply : bytes) : outcome bytes := match reply with [] => Exc LengthError | _ :: t => Val t end.

(** ** Operations *)

(** The time a search waits for its answer, in milliseconds. *)
Definition SEARCH_TIMEOUT : Z := 5000.

(** [result] is the object the caller passes, which an answer fills.  The socket is replaced when the
    send finds it closed, outside of the try block, and when no answer came in time, inside of one. *)
Definition search (debug : bool) (serverUrl : bytes) (now : Z) (isSSP : bool) (c : AdSelectCondition) (result : SelectResult)
    (s : zsocket) : op_result (bool * SelectResult) :=
  match makeRequest now isSSP c with
  | Exc x => mkOp (Exc x) s None
  | Undef => mkOp Undef s None
  | Val request =>
    let '(flag, bin) := filterDebugSessionRequest debug (type_byte ADSELECT_REQUEST) (serialize_request request) in
    let message := flag :: bin in
    match zmq_send message s with
    | (ZError n, s) =>
      if n =? ENOTSOCK then let '(r, s) := reopen serverUrl s in mkOp (thrown r (false, result)) s None
      else mkOp (Val (false, result)) s None
    | (ZException, s) => mkOp (Val (false, result)) s None
    | (ZOk _, s) =>
      match zmq_pollAndRecv SEARCH_TIMEOUT s with
      | (ZOk None, s) => mkOp (Val (false, result)) (snd (reopen serverUrl s)) (Some message)
      | (ZError _, s) | (ZException, s) => mkOp (Val (false, result)) s (Some message)
      | (ZOk (Some reply), s) =>
        mkOp (response ← reply_text reply;
              response ← filterDebugSessionResponse debug response;
              r ← deserialize_result response result;
              Val ((0 <? bId (res_banner r)) && (0 <? sol_sId (res_solution r)), r)) s (Some message)
      end
    end
  end.

(** The bytes of an [int64_t], least significant first. *)
Definition int64_bytes (n : Z) : bytes := map (fun k => Z.land (Z.shiftr (u64 n) (8 * k)) 0xFF) [0; 1; 2; 3; 4; 5; 6; 7].

(** [memcpy] into a message of [size] bytes. *)
Definition fill_message (size : nat) (flag : Z) (bin : bytes) : outcome bytes :=
  check (length bin + 1 <=? size)%nat;; Val (flag :: bin).

(** The message is allocated before the text is wrapped.  All exceptions end in [false]. *)
Definition getBannerById (debug : bool) (bannerId : Z) (s : zsocket) : op_result (option Banner) :=
  let bin := int64_bytes bannerId in
  let size := (length bin + 1)%nat in
  let '(flag, bin) := filterDebugSessionRequest debug (type_byte GET_BANNER_REQUEST) bin in
  match fill_message size flag bin with
  | Exc x => mkOp (Exc x) s None
  | Undef => mkOp Undef s None
  | Val message =>
    match zmq_send message s with
    | (ZError _, s) | (ZException, s) => mkOp (Val None) s None
    | (ZOk _, s) =>
      match zmq_recv s with
      | (ZOk reply, s) =>
        mkOp (try_std (response ← reply_text reply;
                       response ← filterDebugSessionResponse debug response;
                       match response with [] => Val None | _ => b ← read_banner response; Val (Some b) end)
                (fun _ => Val None)) s (Some message)
      | (_, s) => mkOp (Val None) s (Some message)
      end
    end
  end.

(** One turn of [pushRequestCounter], on a socket of its own, at second [now]. *)
Definition push_turn (now : Z) (content : bytes) (s : zsocket) : zsocket * option bytes :=
  if negb (now mod 60 =? 0) then (s, None)
  else match zmq_send (type_byte PUSH_REQUEST_COUNT :: content) s with
       | (ZOk _, s) => (snd (zmq_recv s), Some (type_byte PUSH_REQUEST_COUNT :: content))
       | (_, s) => (s, None)
       end.
End client.

(** ** Properties *)

(** *** Requests *)

Lemma source_inserts (ps : list (string * source_value)) m :
  NoDup (m.*1 ++ map (fun '(k, _) => str k) ps) ->
  foldl (fun m '(k, v) => source_insert k v m) m ps = m ++ map (fun '(k, v) => (str k, v)) ps.
Proof.
  revert m. induction ps as [|[k v] ps IH]; intros m Hnd; [by rewrite app_nil_r|]. cbn [foldl map] in *.
  assert (str k ∉ m.*1) as Hk.
  { apply NoDup_app in Hnd as (_ & Hd & _). intros Hk. apply (Hd _ Hk). apply elem_of_cons. by left. }
  unfold source_insert at 2. rewrite bool_decide_eq_false_2 by done. rewrite IH; [by rewrite <- app_assoc|].
  rewrite fmap_app. cbn [fmap list_fmap fst]. rewrite <- app_assoc. exact Hnd.
Qed.

(** What a request says of its condition, name by name. *)
Record request_asks_for `{IpConst, SelectWire, CondMemory} (now hour ip : Z) (c : AdSelectCondition) (value : string -> option source_value) : Prop := {
  (* the place *)
  asks_exchange : value "d_adexchange"%string = Some (SInt (cond_adxid (at_place c)));
  asks_place : value "d_adplace"%string = Some (SInt (cond_mttyPid (at_place c)));
  asks_next_place : value "n_adplace"%string = Some (SInt (cond_mttyPid (at_place c)));
  asks_exchange_place : value "d_adxpid"%string = Some (SText (cond_adxpid (at_place c)));
  asks_deal : value "d_dealid"%string = Some (SText (cond_dealId (at_place c)));
  asks_media : value "d_mediatype"%string = Some (SInt (cond_mediaType (at_place c)));
  asks_content : value "d_contenttype"%string = Some (SInt (mttyContentType (at_place c)));
  asks_banner_type : value "banner_type"%string = Some (SInt (cond_bannerType (at_place c)));
  asks_level : value "max_creative_level"%string = Some (SInt (requiredCreativeLevel (at_place c)));
  asks_place_type : value "d_adplacetype"%string = Some (SInt 0) /\ value "d_displaynumber"%string = Some (SInt 0);
  asks_one_size : adplaceInfo (at_place c) = None ->
    value "width"%string = Some (SInt (cond_width (at_place c))) /\ value "height"%string = Some (SInt (cond_height (at_place c)))
    /\ value "sizes"%string = Some (SSizes [(cond_width (at_place c), cond_height (at_place c))]);
  asks_sizes szs : adplaceInfo (at_place c) = Some szs ->
    value "sizes"%string = Some (SSizes szs) /\ value "width"%string = None /\ value "height"%string = None;
  (* the user *)
  asks_device : value "d_device"%string = Some (SInt (cond_mobileDevice (of_client c)));
  asks_network : value "d_network"%string = Some (SInt (mobileNetwork (of_client c)));
  asks_flow : value "d_flowtype"%string = Some (SInt (cond_flowType (of_client c)));
  asks_os : value "d_os"%string = Some (SInt (cond_pcOS (of_client c)));
  asks_isp : value "isp"%string = Some (SInt (mobileNetWorkProvider (of_client c)));
  asks_gps : value "gpsgeo"%string = Some (SPoint (cond_geo (of_client c)));
  asks_brand : forall b, deviceBrand (of_client c) = Some b -> value "d_brand"%string = Some (SInt b);
  asks_browser : value "d_browser"%string
    = Some (SInt (hd SOLUTION_BROWSER_OTHER_ID (string2vecint (pcBrowserStr (of_client c)))));
  asks_user : value "mtuser"%string = Some (SText (cond_mtUserId c));
  (* where and when *)
  asks_ip : value "d_ip"%string = Some (SInt ip);
  asks_area : value "d_geo"%string = Some (SInt (cond_dGeo c)) /\ value "n_geo"%string = Some (SInt (cond_dGeo c));
  asks_country : value "d_countrygeo"%string = Some (SInt (Z.quot (cond_dGeo c) AREACODE_MARGIN * AREACODE_MARGIN));
  asks_scenario : forall n, scenario c = Some n -> value "d_scenario"%string = Some (SInt n);
  asks_hour : value "d_hour"%string = Some (SInt hour) /\ value "overflow_hour"%string = Some (SInt (Z.rem hour 100));
  asks_time : value "time"%string = Some (SInt now);
  (* the solutions that must not be bid *)
  asks_banned : value "banned_sids"%string = Some (SIds (bannedSolutions c));
}.

Section requests.
Context `{Memory, IpConst, SelectWire, CondMemory}.

(** Every value of a condition arrives under its name. *)
Lemma makeRequest_source now isSSP c hour ip :
  stol (cond_dHour c) = Val hour -> ipStringToInt (cond_ip c) = Val ip ->
  exists r, makeRequest now isSSP c = Val r /\ source r = map (fun '(k, v) => (str k, v)) (request_values now hour ip c)
    /\ rq_adxId r = cond_adxid (at_place c) /\ rq_adxPid r = cond_adxpid (at_place c) /\ rq_mttyPid r = cond_mttyPid (at_place c)
    /\ baseEcpm r = cond_basePrice (at_place c) /\ fromSSP r = (isSSP || isFromSSP c) /\ nativeAdFlow r = false.
Proof.
  intros Eh Ei. unfold makeRequest. rewrite Eh. cbn [mbind outcome_bind]. rewrite Ei. cbn [mbind outcome_bind]. eexists. split; [done|].
  split; [|done]. cbn [source]. rewrite source_inserts; [done|]. cbn [fmap list_fmap app].
  unfold request_values, place_values. destruct (adplaceInfo (at_place c)); cbn [map app]; by_decide.
Qed.

Lemma request_asks now hour ip c :
  request_asks_for now hour ip c (fun k => source_value_of k (map (fun '(k, v) => (str k, v)) (request_values now hour ip c))).
Proof.
  assert (cond_dGeo c - Z.rem (cond_dGeo c) AREACODE_MARGIN = Z.quot (cond_dGeo c) AREACODE_MARGIN * AREACODE_MARGIN) as Eg
    by (pose proof (Z.quot_rem' (cond_dGeo c) AREACODE_MARGIN); lia).
  unfold request_values, place_values, browser_value. rewrite Eg.
  destruct (adplaceInfo (at_place c)) as [szs|] eqn:Ep; (split; try done; try by rewrite Ep); intros;
    simplify_eq; repeat match goal with E : _ = Some _ |- _ => rewrite E; clear E end; try done.
  all: by destruct (string2vecint _).
Qed.
End requests.

(** C20: What the selection is asked and what its answer means.  A search whose hour and address can be
    read sends one message, the byte of its kind and an encoded request.  The request holds under its
    name each value of the condition: the place with its ids, deal, sizes and limits, the device, system,
    browser and network of the user, the address, the area and its country, the scenario, the hour, and
    the solutions that must not be bid.  When the message is sent and its answer comes, the search finds an
    ad exactly when the answer names a banner and a solution. *)
Theorem search_asks `{Memory, IpConst, SelectWire, CondMemory, ZmqReq} url now isSSP c hour ip :
  stol (cond_dHour c) = Val hour -> ipStringToInt (cond_ip c) = Val ip ->
  exists request, request_asks_for now hour ip c (fun k => source_value_of k (source request))
    /\ rq_adxId request = cond_adxid (at_place c) /\ rq_adxPid request = cond_adxpid (at_place c)
    /\ rq_mttyPid request = cond_mttyPid (at_place c)
    /\ baseEcpm request = cond_basePrice (at_place c) /\ fromSSP request = (isSSP || isFromSSP c) /\ nativeAdFlow request = false
    /\ forall result s s1 s2 b reply r,
         zmq_send (type_byte ADSELECT_REQUEST :: serialize_request request) s = (ZOk tt, s1) ->
         zmq_pollAndRecv 5000 s1 = (ZOk (Some (b :: reply)), s2) -> deserialize_result reply result = Val r ->
         search false url now isSSP c result s
         = mkOp (Val (bool_decide (0 < bId (res_banner r) /\ 0 < sol_sId (res_solution r)), r)) s2
             (Some (type_byte ADSELECT_REQUEST :: serialize_request request)).
Proof.
  intros Eh Ei. destruct (makeRequest_source now isSSP c hour ip Eh Ei) as (rq & Em & Es & A1 & A2 & A3 & A4 & A5 & A6).
  exists rq. split; [rewrite Es; apply request_asks|]. do 6 (split; [done|]). intros result s s1 s2 b reply r E1 E2 Er.
  unfold search, SEARCH_TIMEOUT. rewrite Em. cbn [filterDebugSessionRequest]. rewrite E1, E2.
  cbn [reply_text mbind outcome_bind filterDebugSessionResponse]. rewrite Er. cbn [mbind outcome_bind]. do 3 f_equal.
  destruct (Z.ltb_spec 0 (bId (res_banner r))), (Z.ltb_spec 0 (sol_sId (res_solution r))); cbn [andb]; symmetry;
    first [apply bool_decide_eq_true_2; lia|apply bool_decide_eq_false_2; lia].
Qed.

(** *** The socket *)

Section socket.
Context `{Memory, IpConst, SelectWire, CondMemory, ZmqReqLaws} (url : bytes).

(** The operations of a client. *)
Inductive client_op : Type :=
| DoSearch (now : Z) (isSSP : bool) (c : AdSelectCondition) (result : SelectResult)
| DoBanner (bannerId : Z).

Definition run_op (s : zsocket) (o : client_op) : zsocket :=
  match o with
  | DoSearch now ssp c r => socket (search false url now ssp c r s)
  | DoBanner b => socket (getBannerById false b s)
  end.
Definition run_ops (s : zsocket) (ops : list client_op) : zsocket := foldl run_op s ops.

(** The call failed, and not because the socket was closed. *)
Definition broken {A} (r : zmq_result A) : Prop := is_ok r = false /\ r <> ZError ENOTSOCK.

(** The operation sent its message, and then failed to receive. *)
Definition reply_lost (s : zsocket) (o : client_op) : Prop :=
  match o with
  | DoSearch now ssp c _ => exists rq s1, makeRequest now ssp c = Val rq
      /\ zmq_send (type_byte ADSELECT_REQUEST :: serialize_request rq) s = (ZOk tt, s1) /\ broken (fst (zmq_pollAndRecv 5000 s1))
  | DoBanner b => exists s1, zmq_send (type_byte GET_BANNER_REQUEST :: int64_bytes b) s = (ZOk tt, s1) /\ broken (fst (zmq_recv s1))
  end.

Lemma reopen_state s : let '(r, s') := reopen url s in
  state_of s' <> Awaiting /\ (is_ok (fst (zmq_socket (zmq_close s))) = true -> state_of s' = Ready) /\ (is_ok r = true -> state_of s' = Ready).
Proof.
  unfold reopen. pose proof (socket_opens _ (close_closes s)) as Ho. destruct (zmq_socket (zmq_close s)) as [[[]|n|] s1]; cbn [is_ok fst] in *;
    try (split; [congruence|done]).
  pose proof (connect_keeps url s1) as Hk. destruct (zmq_connect url s1) as [r s2]. cbn [snd] in Hk. split; [congruence|]. by rewrite Hk.
Qed.

(** A failed call leaves a socket that waits waiting, unless it found it closed; it does not leave any other one waiting. *)
Lemma failed_awaiting {A} (r : zmq_result A) st : is_ok r = false -> failed_state Awaiting r st -> st = Awaiting <-> broken r.
Proof.
  unfold failed_state, broken. intros Hr ->. destruct r as [a|n|]; [done| |by split].
  destruct (Z.eqb_spec n ENOTSOCK) as [->|Hn]; split; (done || naive_solver congruence).
Qed.
Lemma failed_ready {A} (r : zmq_result A) st : failed_state Ready r st -> st <> Awaiting.
Proof. unfold failed_state. intros ->. destruct r as [a|n|]; [done| |done]. by destruct (n =? ENOTSOCK). Qed.

Lemma sent_awaiting m s s1 : zmq_send m s = (ZOk tt, s1) -> state_of s1 = Awaiting /\ state_of s = Ready.
Proof.
  intros E. destruct (state_of s) eqn:Es.
  - pose proof (send_ready m s Es) as Hs. rewrite E in Hs. done.
  - pose proof (send_awaiting m s Es) as Hs. rewrite E in Hs. by destruct Hs.
  - pose proof (send_closed m s Es) as Hs. rewrite E in Hs. by destruct Hs.
Qed.

Lemma not_sent m s r s1 : zmq_send m s = (r, s1) -> is_ok r = false -> state_of s <> Awaiting -> state_of s1 <> Awaiting.
Proof.
  intros E Hr Hs. destruct (state_of s) eqn:Es; [| done |].
  - pose proof (send_ready m s Es) as H'. rewrite E, Hr in H'. by apply (failed_ready r).
  - pose proof (send_closed m s Es) as H'. rewrite E in H'. destruct H' as [_ ->]. done.
Qed.

Lemma search_states now ssp c r s :
  state_of s <> Awaiting -> state_of (run_op s (DoSearch now ssp c r)) = Awaiting <-> reply_lost s (DoSearch now ssp c r).
Proof.
  intros Hs. cbn [run_op reply_lost]. unfold search. destruct (makeRequest now ssp c) as [rq|x|]; cbn [socket];
    [|split; [done|naive_solver]..]. cbn [filterDebugSessionRequest].
  destruct (zmq_send _ s) as [[[]|n|] s1] eqn:E1.
  - destruct (sent_awaiting _ _ _ E1) as [Hw _]. pose proof (poll_awaiting SEARCH_TIMEOUT s1 Hw) as Hp. unfold SEARCH_TIMEOUT in *.
    assert ((exists rq0 s0, Val rq = Val rq0 /\ zmq_send (type_byte ADSELECT_REQUEST :: serialize_request rq0) s = (ZOk tt, s0)
        /\ broken (fst (zmq_pollAndRecv 5000 s0))) <-> broken (fst (zmq_pollAndRecv 5000 s1))) as Hex.
    { split; [intros (rq0 & s0 & [= <-] & E0 & Hb); congruence|intros Hb; exists rq, s1; done]. }
    rewrite Hex. destruct (zmq_pollAndRecv 5000 s1) as [[[reply|]|n|] s2] eqn:E2; cbn [fst socket] in *.
    + split; [congruence|by intros [? _]].
    + pose proof (reopen_state s2) as Hr. destruct (reopen url s2) as [r' s3]. destruct Hr as [Hr _]. split; [done|by intros [? _]].
    + by apply failed_awaiting.
    + by apply failed_awaiting.
  - pose proof (not_sent _ _ _ _ E1 ltac:(done) Hs) as Hw.
    assert (~ exists rq0 s0, Val rq = Val rq0 /\ zmq_send (type_byte ADSELECT_REQUEST :: serialize_request rq0) s = (ZOk tt, s0)
        /\ broken (fst (zmq_pollAndRecv 5000 s0))) as Hno by (intros (rq0 & s0 & [= <-] & E0 & Hb); congruence).
    destruct (n =? ENOTSOCK); cbn [socket]; [|tauto]. pose proof (reopen_state s1) as Hr. destruct (reopen url s1) as [r' s2].
    destruct Hr as [Hr _]. cbn [socket]. tauto.
  - pose proof (not_sent _ _ _ _ E1 ltac:(done) Hs) as Hw. cbn [socket]. split; [done|].
    intros (rq0 & s0 & [= <-] & E0 & Hb). congruence.
Qed.

Lemma banner_message flag b : fill_message (length (int64_bytes b) + 1) flag (int64_bytes b) = Val (flag :: int64_bytes b).
Proof. reflexivity. Qed.

Lemma banner_states b s : state_of s <> Awaiting -> state_of (run_op s (DoBanner b)) = Awaiting <-> reply_lost s (DoBanner b).
Proof.
  intros Hs. cbn [run_op reply_lost]. unfold getBannerById. cbn [filterDebugSessionRequest]. rewrite banner_message.
  destruct (zmq_send _ s) as [r s1] eqn:E1. destruct r as [[]|n|]; cbn [socket];
    [|pose proof (not_sent _ _ _ _ E1 eq_refl Hs) as Hw; split; [done|by intros (? & [=] & _)]..].
  destruct (sent_awaiting _ _ _ E1) as [Hw _]. pose proof (recv_awaiting s1 Hw) as Hp.
  assert (forall P : zsocket -> Prop, (exists s0, (ZOk (), s1) = (ZOk (), s0) /\ P s0) <-> P s1) as Hex by (intros P; split; naive_solver).
  rewrite (Hex (fun s0 => broken (fst (zmq_recv s0)))). destruct (zmq_recv s1) as [[reply|n|] s2] eqn:E2; cbn [fst socket is_ok] in *.
  - split; [congruence|by intros [? _]].
  - by apply failed_awaiting.
  - by apply failed_awaiting.
Qed.

Lemma search_stuck now ssp c r s rq :
  state_of s = Awaiting -> makeRequest now ssp c = Val rq ->
  exists s', search false url now ssp c r s = mkOp (Val (false, r)) s' None /\ state_of s' = Awaiting.
Proof.
  intros Hs E. unfold search. rewrite E. cbn [filterDebugSessionRequest].
  match goal with |- context [zmq_send ?m s] => pose proof (send_awaiting m s Hs) as Ha; destruct (zmq_send m s) as [z s1] end.
  destruct Ha as [-> Ha]. by exists s1.
Qed.

Lemma banner_stuck b s : state_of s = Awaiting -> exists s', getBannerById false b s = mkOp (Val None) s' None /\ state_of s' = Awaiting.
Proof.
  intros Hs. unfold getBannerById. cbn [filterDebugSessionRequest]. rewrite banner_message.
  match goal with |- context [zmq_send ?m s] => pose proof (send_awaiting m s Hs) as Ha; destruct (zmq_send m s) as [z s1] end.
  destruct Ha as [-> Ha]. by exists s1.
Qed.

Lemma run_ops_stuck ops s : state_of s = Awaiting -> state_of (run_ops s ops) = Awaiting.
Proof.
  revert s. induction ops as [|o ops IH]; intros s Hs; [done|]. apply IH. destruct o as [now ssp c r|b]; cbn [run_op].
  - destruct (makeRequest now ssp c) as [rq|x|] eqn:E; [by destruct (search_stuck now ssp c r s rq Hs E) as (s' & -> & ?)|unfold search; by rewrite E..].
  - by destruct (banner_stuck b s Hs) as (s' & -> & ?).
Qed.

(** A search on a closed socket opens a new one. *)
Lemma search_closed now ssp c r s rq :
  state_of s = Closed -> makeRequest now ssp c = Val rq ->
  exists s1, state_of s1 = Closed /\ search false url now ssp c r s = mkOp (thrown (fst (reopen url s1)) (false, r)) (snd (reopen url s1)) None.
Proof.
  intros Hs E. unfold search. rewrite E. cbn [filterDebugSessionRequest].
  match goal with |- context [zmq_send ?m s] => pose proof (send_closed m s Hs) as Ha; destruct (zmq_send m s) as [z s1] end.
  destruct Ha as [-> Ha]. exists s1. split; [done|]. cbn. by destruct (reopen url s1).
Qed.
End socket.

(** C19: When the client can be asked, for any library that keeps the rules of a request socket.  From a
    socket that does not wait for an answer, an operation leaves one that does exactly when its message
    was sent and receiving then failed with an error other than [ENOTSOCK]: failures to send, answers that
    do not come in time and answers of any content never do.  From then on, whatever the network and
    the service do, every search finds nothing, no banner is found and nothing is sent, for ever.  A
    search on a socket that was found closed opens a new one, and once that succeeds the client can
    send again. *)
Theorem client_availability `{Memory, IpConst, SelectWire, CondMemory, ZmqReqLaws} url s o :
  (state_of s <> Awaiting -> state_of (run_op url s o) = Awaiting <-> reply_lost s o)
  /\ (state_of s = Awaiting -> forall ops,
       state_of (run_ops url s ops) = Awaiting
       /\ (forall now ssp c r rq, makeRequest now ssp c = Val rq ->
             answer (search false url now ssp c r (run_ops url s ops)) = Val (false, r)
             /\ sent_message (search false url now ssp c r (run_ops url s ops)) = None)
       /\ forall b, answer (getBannerById false b (run_ops url s ops)) = Val None
            /\ sent_message (getBannerById false b (run_ops url s ops)) = None)
  /\ (state_of s = Closed -> forall now ssp c r rq, makeRequest now ssp c = Val rq ->
       let o := search false url now ssp c r s in
       sent_message o = None /\ (forall v, answer o = Val v -> v = (false, r) /\ state_of (socket o) = Ready)).
Proof.
  split_and!.
  - destruct o; [apply search_states|apply banner_states].
  - intros Hs ops. pose proof (run_ops_stuck url ops s Hs) as Ha. split; [done|]. split.
    + intros now ssp c r rq E. by destruct (search_stuck url now ssp c r _ rq Ha E) as (s' & -> & _).
    + intros b. by destruct (banner_stuck b _ Ha) as (s' & -> & _).
  - intros Hs now ssp c r rq E. destruct (search_closed url now ssp c r s rq Hs E) as (s1 & Hs1 & ->). cbn zeta. cbn [sent_message answer socket].
    split; [done|]. intros v Ev. pose proof (reopen_state url s1) as Hr. destruct (reopen url s1) as [[[]|n|] s2]; try done. cbn [fst snd] in *.
    injection Ev as <-. split; [done|]. by apply Hr.
Qed.

(** *** Limits *)

(** In a debugging session the wrapped request for a banner is copied past the end of its message. *)
Lemma banner_debug_overflow `{SelectWire, ZmqReq} b s :
  (8 < length (debug_request (type_byte GET_BANNER_REQUEST) (int64_bytes b)))%nat -> answer (getBannerById true b s) = Undef.
Proof.
  intros Hl. unfold getBannerById. cbn [filterDebugSessionRequest]. unfold fill_message, int64_bytes in *. cbn [map length Nat.add] in *.
  match goal with |- context [(?x <=? ?y)%nat] => destruct (Nat.leb_spec x y); [lia|done] end.
Qed.

(** A brand or scenario that was never set is sent as the memory holds it. *)
Lemma uninitialised_sent `{SelectWire, CondMemory, IpConst} now hour ip c :
  deviceBrand (of_client c) = None -> scenario c = None ->
  source_value_of "d_brand" (map (fun '(k, v) => (str k, v)) (request_values now hour ip c)) = Some (SInt brand_uninit)
  /\ source_value_of "d_scenario" (map (fun '(k, v) => (str k, v)) (request_values now hour ip c)) = Some (SInt scenario_uninit).
Proof. intros Eb Es. unfold request_values, place_values. rewrite Eb, Es. by destruct (adplaceInfo (at_place c)). Qed.

(** An answer without a single byte throws an exception that a search does not catch. *)
Lemma empty_reply_throws `{Memory, IpConst, SelectWire, CondMemory, ZmqReq} url now ssp c r s s1 s2 rq :
  makeRequest now ssp c = Val rq -> zmq_send (type_byte ADSELECT_REQUEST :: serialize_request rq) s = (ZOk tt, s1) ->
  zmq_pollAndRecv 5000 s1 = (ZOk (Some []), s2) -> answer (search false url now ssp c r s) = Exc LengthError.
Proof. intros E E1 E2. unfold search, SEARCH_TIMEOUT. rewrite E. cbn [filterDebugSessionRequest]. by rewrite E1, E2. Qed.

(** ** Instances *)

Module ClientInstance.
#[local] Instance wire : SelectWire := {
  type_byte t := match t with ADSELECT_REQUEST => 1 | ADSELECT_DEBUG => 2 | GET_BANNER_REQUEST => 3 | PUSH_REQUEST_COUNT => 4 end;
  serialize_request r := to_string (rq_adxId r);
  deserialize_result t _ := Val (mkResult (mkSolution (Z.of_nat (length t)) 1 1 []) (mkBanner 1 1 [] 1 1 1 [] []) (mkPlace 1 [] 1 1 1 1 1) 1 1 1 1
                                   (S754_zero false) (S754_zero false) []);
  read_banner _ := Exc (RuntimeError "archive"); debug_request _ t := t ++ t; debug_response t := Val t;
  string2vecint _ := []; SOLUTION_BROWSER_OTHER_ID := 9 }.
#[local] Instance cond_memory : CondMemory := { brand_uninit := 0; scenario_uninit := 0 }.
#[local] Instance ip_const : IpConst := { AREACODE_MARGIN := 1000000; IP_UNKNOWN := 0 }.
#[local] Instance memory : Memory := { after _ := [0]; uninit _ := [0; 0; 0; 0] }.

Definition cond : AdSelectCondition :=
  mkCondition place0 client0 (str "1.2.3.4") [] 86110000 (str "312") (Some 1) [7] false.
Definition res0 : SelectResult :=
  mkResult (mkSolution 0 0 0 []) (mkBanner 0 0 [] 0 0 0 [] []) (mkPlace 0 [] 0 0 0 0 0) 0 0 0 0 (S754_zero false) (S754_zero false) [].

(** A socket with the script of what the network does: one event for each call that reaches it. *)
Inductive net_event : Type := EvDone | EvReply (t : bytes) | EvNothing | EvError (num : Z).
Record toy_socket := mkToy { toy_state : req_state; script : list net_event }.
Definition next (s : toy_socket) : net_event := hd EvDone (script s).
Definition step_to (st : req_state) (s : toy_socket) : toy_socket := mkToy st (tl (script s)).
Definition after_error (n : Z) (old : req_state) : req_state := if n =? ENOTSOCK then Closed else old.

Definition toy_send (s : toy_socket) : zmq_result unit * toy_socket :=
  match toy_state s with
  | Ready => match next s with EvError n => (ZError n, step_to (after_error n Ready) s) | _ => (ZOk tt, step_to Awaiting s) end
  | Awaiting => (ZError EFSM, s)
  | Closed => (ZError ENOTSOCK, s)
  end.
Definition toy_poll (s : toy_socket) : zmq_result (option bytes) * toy_socket :=
  match toy_state s with
  | Awaiting => match next s with
                | EvError n => (ZError n, step_to (after_error n Awaiting) s)
                | EvReply t => (ZOk (Some t), step_to Ready s)
                | _ => (ZOk None, step_to Awaiting s)
                end
  | Ready => (ZError EFSM, s)
  | Closed => (ZError ENOTSOCK, s)
  end.
Definition toy_recv (s : toy_socket) : zmq_result bytes * toy_socket :=
  match toy_state s with
  | Awaiting => match next s with
                | EvError n => (ZError n, step_to (after_error n Awaiting) s)
                | EvReply t => (ZOk t, step_to Ready s)
                | _ => (ZOk [], step_to Ready s)
                end
  | Ready => (ZError EFSM, s)
  | Closed => (ZError ENOTSOCK, s)
  end.
#[local] Instance toy_zmq : ZmqReq := {
  zsocket := toy_socket; zmq_send _ := toy_send; zmq_recv := toy_recv; zmq_pollAndRecv _ := toy_poll;
  zmq_close s := mkToy Closed (script s); zmq_socket s := (ZOk tt, mkToy Ready (script s)); zmq_connect _ s := (ZOk tt, s) }.
#[local] Instance toy_zmq_laws : ZmqReqLaws toy_zmq.
Proof.
  refine {| state_of := toy_state : zsocket -> req_state |}; cbn.
  - intros _ s E. unfold toy_send. rewrite E. by destruct (next s).
  - intros _ s E. unfold toy_send. by rewrite E.
  - intros _ s E. unfold toy_send. by rewrite E.
  - intros s E. unfold toy_recv. rewrite E. by destruct (next s).
  - intros _ s E. unfold toy_poll. rewrite E. by destruct (next s).
  - done.
  - done.
  - done.
Defined.

Definition url : bytes := str "tcp://127.0.0.1:5555".

Lemma search_asks_witness :
  exists request, source_value_of "banned_sids" (source request) = Some (SIds [7])
    /\ source_value_of "d_geo" (source request) = Some (SInt 86110000)
    /\ sent_message (search false url 5 false cond res0 (mkToy Ready [EvDone; EvReply (str "!abc")])) = Some (1 :: serialize_request request).
Proof.
  destruct (search_asks url 5 false cond 312 16909060) as (rq & Ha & _ & _ & _ & _ & _ & _ & Hs); [by vm_compute|by vm_compute|].
  exists rq. split; [apply (asks_banned _ _ _ _ _ Ha)|]. split; [apply (asks_area _ _ _ _ _ Ha)|].
  rewrite (Hs res0 (mkToy Ready [EvDone; EvReply (str "!abc")]) (mkToy Awaiting [EvReply (str "!abc")]) (mkToy Ready []) 33 (str "abc")
    (match deserialize_result (str "abc") res0 with Val r => r | _ => res0 end)); reflexivity.
Defined.

(** A banner whose answer is interrupted by a signal ([EINTR]); and a socket that was found closed. *)
Lemma client_availability_witness :
  toy_state (run_op url (mkToy Ready [EvDone; EvError 4]) (DoBanner 1)) = Awaiting
  /\ answer (search false url 5 false cond res0 (mkToy Awaiting [EvDone; EvReply (str "!abc")])) = Val (false, res0)
  /\ toy_state (socket (search false url 5 false cond res0 (mkToy Closed []))) = Ready.
Proof.
  destruct (makeRequest_source 5 false cond 312 16909060) as (rq & Em & _); [by vm_compute|by vm_compute|].
  destruct (client_availability url (mkToy Ready [EvDone; EvError 4] : @zsocket toy_zmq) (DoBanner 1)) as [H1 _].
  destruct (client_availability url (mkToy Awaiting [EvDone; EvReply (str "!abc")] : @zsocket toy_zmq) (DoBanner 1)) as (_ & H2 & _).
  destruct (client_availability url (mkToy Closed [] : @zsocket toy_zmq) (DoBanner 1)) as (_ & _ & H3).
  split; [|split].
  - apply H1; [discriminate|]. exists (mkToy Awaiting [EvError 4]). split; [reflexivity|]. split; [reflexivity|discriminate].
  - destruct (H2 eq_refl []) as (_ & Hs & _). exact (proj1 (Hs _ _ _ _ rq Em)).
  - destruct (H3 eq_refl 5 false cond res0 rq Em) as [_ Hv]. refine (proj2 (Hv (false, res0) _)). by vm_compute.
Defined.
End ClientInstance.
