(* ===== verification/ShowTask.v ===== *)
(** * ShowTask: impressions (core/logic/show_query_task.cpp and [bannerJson2HttpsIOS] of
    protocol/base/abstract_bidding_handler.cpp)

    An impression of an ad won on an exchange answers with the creative of its banner, in which the
    click url carries the parameters of the impression and the landing page of the banner.  An
    impression of a place of the service's own (SSP) selects an ad first.  Both count the order and
    the user's frequency.

    The JSON of cppcms is the type [json]; its parser and printer are the parameter [Json].  The ad
    selection, the area of an address and the answers of the database are members of [show_env].
    The counters of requests, which are only logged, are left out. *)
From Stdlib Require Import SpecFloat.
From S2P Require Import Prelude CString UrlCodec UrlParams Cypher UrlHelper Double Template LogPusher PriceDecode Pricing Http.
From S2P Require Import Rijndael RijndaelProofs SohuPrice QueryTask ClickTask CookieMapping TraceTask BidUrl UserClient AdSelect.

(** ** Small functions *)

(** [tripslash] and [tripslash2], which differ in the quote; the text is moved in place. *)
Fixpoint strip_escapes (q : Z) (s : bytes) : bytes :=
  match s with
  | [] => []
  | c :: s' =>
    match s' with
    | d :: s'' => if (c =? 92) && (d =? q) then d :: strip_escapes q s'' else c :: strip_escapes q s'
    | [] => [c]
    end
  end.
Definition tripslash (str : bytes) : bytes := strip_escapes 39 (c_str str).
Definition tripslash2 (str : bytes) : bytes := strip_escapes 34 (c_str str).

(** [char buffer[8192]], printed to with the bound 8191; the caller takes as many bytes as the text
    has, at most 8192; [junk] is what the last byte of the array holds. *)
Definition SHOW_BUFFER : nat := 8192.
Definition response_text (junk : Z) (text : bytes) : bytes :=
  if (length text <? SHOW_BUFFER - 1)%nat then text
  else take (SHOW_BUFFER - 2) text ++ (if (length text <? SHOW_BUFFER)%nat then [0] else [0; junk]).

(** ** Parameters *)

(** The members of the task and the configuration the code reads, and the answers of the outside:
    the ad selection, the areas of an address, the time, the sequence id of an impression, the last
    byte of the buffer, and whether the frequency records of the user exist ([None] is an exception). *)
Record show_env := mkShowEnv {
  sh_task : task_env; sh_agent : bytes; sslClickUrl : bytes; adxTemplate : bytes; sspTemplate : bytes;
  search : AdSelectCondition -> bool * SelectResult; getBannerById : Z -> option Banner;
  areaByIp : bytes -> outcome Z; areaCodeStrByIp : bytes -> outcome bytes; areaCodeByIp : bytes -> outcome (Z * Z * Z);
  hourCode : bytes; impSeq : Z * Z; stack_byte : Z; daily_exists : option bool; hourly_exists : option bool; day_left : Z;
}.

(** ** Templates *)

Record template_state := mkTemplates { initialized : bool; showAdxTemplate : bytes; showSspTemplate : bytes }.

(** A template is written with its terminator into an array of 1024 bytes. *)
Definition load_template (file : option bytes) (old : bytes) : outcome bytes :=
  match loadFile_buf file with
  | None => Val old
  | Some t => check (length t <=? 1024)%nat;; Val (c_str t)
  end.
Definition loadTemplates (adx ssp : option bytes) (s : template_state) : outcome template_state :=
  if initialized s then Val s
  else a ← load_template adx (showAdxTemplate s); b ← load_template ssp (showSspTemplate s); Val (mkTemplates true a b).

Section show.
Context `{UrlNames, MapOrder, Base64, CryptoPP, OpenSSL, BoostBase64, Aes}.
Context `{AdxConst, PriceMemory, TaskConst, UserIds, Avro, LogConst}.
Context `{ShowConst, UaConst, Json}.

(** ** The kinds of impressions *)

(** [HandleShowQueryTask::filterParamMapSafe] *)
Definition show_filter (m : ParamMap) : ParamMap :=
  let number k m := match m !! k with Some v => <[k := stringSafeNumber_ref v]> m | None => m end in
  number (ssp_name URL_SSP_PID) (number (url_name URL_CREATIVE_ID) (filterParamMapSafe m)).

Definition isShowForSSP (m : ParamMap) : bool :=
  match m !! url_name URL_IMP_OF with
  | None => false
  | Some v => bool_decide (v = OF_SSP) || bool_decide (v = OF_SSP_MOBILE)
  end.

Definition isShowForMobile (m : ParamMap) : bool :=
  match m !! url_name URL_IMP_OF with
  | None => false
  | Some v => bool_decide (v = OF_DSP_MOBILE_SHOW) || bool_decide (v = OF_DSP_MOBILE_LOG)
  end.

(** [showCreative] and [shouldLog] keep their values for another kind. *)
Definition dspSetParam (m : ParamMap) (flags : bool * bool) : bool * bool :=
  match m !! url_name URL_IMP_OF with
  | None => (true, true)
  | Some v => if bool_decide (v = OF_DSP) then (true, true)
              else if bool_decide (v = OF_DSP_MOBILE_SHOW) then (true, false)
              else if bool_decide (v = OF_DSP_MOBILE_LOG) then (false, true)
              else flags
  end.

(** ** The creative of an exchange *)

(** [mtAdInfo[name] = paramMap[key]], or a text. *)
Fixpoint fill_fields (fs : list (string * (url_key + bytes))) (ad : json) : M json :=
  match fs with
  | [] => mret ad
  | (n, inl k) :: fs => v ← at_key (url_name k); fill_fields fs (set_member (str n) (JStr v) ad)
  | (n, inr v) :: fs => fill_fields fs (set_member (str n) (JStr v) ad)
  end.

(** [clickUrl.add(key, paramMap[key])] *)
Fixpoint add_from_params (ks : list url_key) (h : URLHelper) : M URLHelper :=
  match ks with
  | [] => mret h
  | k :: ks => v ← at_key (url_name k); add_from_params ks (UrlHelper.add (url_name k) v h)
  end.

(** The landing page of a creative. *)
Definition landing_member (b : Banner) : bytes := if bannerType b =? BANNER_TYPE_PRIMITIVE then str "p9" else str "p1".

(** The click url of the creative: the parameters of the impression and the landing page. *)
Definition dsp_click_url (e : show_env) (b : Banner) (adxMacro : bytes) (ad : json) : M URLHelper :=
  h ← lift (fromUrl (sslClickUrl e));
  m ← gets params;
  let h := add_params (enum m) h in
  let h := UrlHelper.add (url_name URL_ADX_MACRO) adxMacro (UrlHelper.add (url_name URL_IMP_OF) OF_DSP h) in
  h ← add_from_params [URL_DEVICE_IDFA; URL_DEVICE_IMEI; URL_DEVICE_ANDOROIDID; URL_DEVICE_MAC; URL_EXCHANGE_PRICE; URL_FEE_RATE] h;
  mtls ← lift (as_array (get_member (str "mtls") ad));
  '(first, _) ← lift (head_of mtls);
  let landingUrl := snd (url_replace (get_text (landing_member b) first) (str "{{click}}") []) in
  encodedLandingUrl ← lift (urlEncode_f landingUrl 1024);
  mret (UrlHelper.add (url_name URL_LANDING_URL) encodedLandingUrl h).

Definition dsp_fields (b : Banner) (adxMacro : bytes) : list (string * (url_key + bytes)) :=
  [ ("pid", inl URL_MTTYADPLACE_ID); ("adxpid", inl URL_ADPLACE_ID); ("impid", inl URL_EXPOSE_ID); ("unid", inl URL_ADX_ID);
    ("plid", inr []); ("gpid", inl URL_EXEC_ID); ("arid", inl URL_AREA_ID); ("xcurl", inr adxMacro); ("of", inr OF_DSP);
    ("pricetype", inl URL_PRICE_TYPE); ("price", inl URL_BID_PRICE); ("ppid", inl URL_PRODUCTPACKAGE_ID);
    ("width", inr (to_string (width b))); ("height", inr (to_string (height b))); ("oid", inl URL_ORDER_ID) ]%string.

Definition flow_type (m : ParamMap) : outcome Z :=
  match m !! url_name URL_FLOWTYPE with Some v => stoi v | None => Val SOLUTION_FLOWTYPE_UNKNOWN end.

Definition buildResponseForDsp (e : show_env) (b : Banner) : M bytes :=
  let ad := json_parse (c_str (banner_json b)) in
  macro ← at_key (url_name URL_ADX_MACRO);
  adxMacro ← lift (urlDecode_f macro 1024);
  let adxMacro := adxMacro ++ ADX_MACRO_SUFFIX in
  ad ← fill_fields (dsp_fields b adxMacro) ad;
  m ← gets params;
  flowType ← lift (flow_type m);
  let ad := if flowType =? SOLUTION_FLOWTYPE_MOBILE then set_member (str "rs") (JBool true) ad else ad in
  h ← dsp_click_url e b adxMacro ad;
  '(url, _) ← lift (cipherUrl h);
  text ← lift (format (adxTemplate e) [json_print (set_member (str "clickurl") (JStr url) ad)]);
  mret (response_text (stack_byte e) text).

(** ** The creative of an own place *)

(** protocol/base/abstract_bidding_handler.cpp: all urls are made secure but the landing page. *)
Definition bannerJson2HttpsIOS (isIOS : bool) (bannerJson : bytes) (primitive : bool) : outcome json :=
  let banner := json_parse (c_str bannerJson) in
  let name := if primitive then str "p9" else str "p1" in
  target ← (if isIOS then
              match url_replace_all bannerJson (str "http://") (str "https://") with
              | Some text => Val (json_parse (c_str text))
              | None => Undef
              end
            else Val banner);
  origin ← as_array (get_member (str "mtls") banner);
  mtls ← as_array (get_member (str "mtls") target);
  '(first, _) ← head_of origin;
  destUrl ← as_str (get_member name first);
  '(slot, rest) ← head_of mtls;
  let destUrl := snd (url_replace destUrl (str "{{click}}") []) in
  Val (set_member (str "mtls") (JArr (set_member name (JStr destUrl) slot :: rest)) target).

(** [clickUrl.add] for a list of parameters. *)
Definition add_keys (fs : list (url_key * bytes)) (h : URLHelper) : URLHelper :=
  add_params (map (fun '(k, v) => (url_name k, v)) fs) h.

Definition ssp_base_fields (e : show_env) (r : SelectResult) (address impId : bytes) : list (url_key * bytes) :=
  let s := res_solution r in let p := res_place r in let pid := to_string (pl_pId p) in
  [ (URL_ADPLACE_ID, pid); (URL_MTTYADPLACE_ID, pid); (URL_ADX_ID, to_string (pl_adxId p));
    (URL_EXPOSE_ID, impId); (URL_ADOWNER_ID, to_string (s32 (sol_advId s))); (URL_EXEC_ID, to_string (sol_sId s));
    (URL_PRODUCTPACKAGE_ID, to_string (res_ppid r)); (URL_PRICE_TYPE, to_string (sol_priceType s));
    (URL_BID_PRICE, encodePrice (res_feePrice r) false); (URL_CREATIVE_ID, to_string (s32 (bId (res_banner r))));
    (URL_REFERER, env_referer (sh_task e)); (URL_CLICK_ID, str "000"); (URL_AREA_ID, address);
    (URL_SITE_ID, to_string (pl_mId p)); (URL_ORDER_ID, to_string (res_orderId r)) ].

(** A place that is bought by the click has its price in the click url. *)
Definition ssp_cost_fields (r : SelectResult) : outcome (list (url_key * bytes)) :=
  let p := res_place r in
  if pl_priceType p =? PRICETYPE_RRTB_CPC then
    c ← int_op (pl_basePrice p * 100);
    Val [(URL_ADPLACE_BUY_TYPE, to_string PRICETYPE_RRTB_CPC); (URL_EXCHANGE_PRICE, to_string c)]
  else Val [].

(** A solution that is settled by the click has its fees there. *)
Definition ssp_fee_fields (r : SelectResult) : list (url_key * bytes) :=
  if settled_by_click (sol_priceType (res_solution r))
  then [(URL_FEE_RATE_STRS, cost_detail r); (URL_FEE_RATE, to_string_double (spend r))] else [].

Definition ssp_click_url (e : show_env) (r : SelectResult) (address impId landing : bytes) : outcome URLHelper :=
  h ← fromUrl (sslClickUrl e);
  let h := add_keys (ssp_base_fields e r address impId) h in
  cs ← ssp_cost_fields r;
  let h := add_keys (ssp_fee_fields r) (add_keys cs h) in
  encodedLandingUrl ← urlEncode_f landing 1024;
  Val (UrlHelper.add (url_name URL_LANDING_URL) encodedLandingUrl h).

Definition ssp_json (r : SelectResult) (address impId : bytes) (ad : json) : json :=
  let s := res_solution r in let p := res_place r in let b := res_banner r in
  let text n v ad := set_member (str n) (JStr v) ad in
  let num n v ad := set_member (str n) (JNum (double_of_Z v)) ad in
  let ad := text "impid" impId (text "adxpid" (to_string (pl_pId p)) (text "pid" (to_string (pl_pId p)) ad)) in
  let ad := text "gpid" (to_string (sol_sId s)) (text "plid" [] (text "unid" (to_string (pl_adxId p)) ad)) in
  let ad := text "width" (to_string (width b)) (text "xcurl" [] (text "arid" address ad)) in
  let ad := text "pricetype" (to_string (sol_priceType s)) (text "height" (to_string (height b)) ad) in
  let ad := text "ppid" (to_string (res_ppid r)) (text "price" (encodePrice (res_feePrice r) false) ad) in
  num "ctype" (bannerType b) (num "oid" (res_orderId r) ad).

Definition buildResponseForSsp (e : show_env) (r : SelectResult) (ad : json) (impId : bytes) : M bytes :=
  let b := res_banner r in
  address ← lift (areaCodeStrByIp e (userIp (sh_task e)));
  let ad := ssp_json r address impId ad in
  mtls ← lift (as_array (get_member (str "mtls") ad));
  '(first, rest) ← lift (head_of mtls);
  h ← lift (ssp_click_url e r address impId (get_text (landing_member b) first));
  '(url, h) ← lift (cipherUrl h);
  let slot := if bannerType b =? BANNER_TYPE_PRIMITIVE then str "p9" else str "p5" in
  let ad := set_member (str "mtls") (JArr (set_member slot (JStr url) first :: rest)) ad in
  kind ← at_key (url_name URL_IMP_OF);
  if bool_decide (kind = OF_SSP_MOBILE) then mret (response_text (stack_byte e) (c_str (json_print ad)))
  else
    '(url, _) ← lift (cipherUrl h);
    callback ← at_key (str "callback");
    text ← lift (format (sspTemplate e) [callback; json_print (set_member (str "clickurl") (JStr url) ad)]);
    mret (response_text (stack_byte e) text).

(** ** Selecting an ad *)

Definition getDeviceTypeForSsp (m : ParamMap) : Z :=
  let devType := default SSP_DEVICE_UNKNOWN (m !! ssp_name URL_SSP_DEVICE) in
  let platform := default SSP_PLATFORM_UNKNOWN (m !! ssp_name URL_SSP_PLATFORM) in
  device_id
    (if bool_decide (devType = SSP_DEVICE_MOBILEPHONE) then
       if bool_decide (platform = SSP_PLATFORM_IOS) then SOLUTION_DEVICE_IPHONE
       else if bool_decide (platform = SSP_PLATFORM_ANDROID) then SOLUTION_DEVICE_ANDROID
       else if bool_decide (platform = SSP_PLATFORM_WINDOWSPHONE) then SOLUTION_DEVICE_WINDOWSPHONE
       else SOLUTION_DEVICE_OTHER
     else if bool_decide (devType = SSP_DEVICE_PAD) then
       if bool_decide (platform = SSP_PLATFORM_IOS) then SOLUTION_DEVICE_IPAD
       else if bool_decide (platform = SSP_PLATFORM_ANDROID) then SOLUTION_DEVICE_ANDROIDPAD
       else SOLUTION_DEVICE_OTHER
     else SOLUTION_DEVICE_OTHER).

Definition safe_stod (s : bytes) : double := match stod s with Val x => x | _ => S754_zero false end.
Definition getSSPGeo (m : ParamMap) : double * double :=
  (safe_stod (default (str "0") (m !! ssp_name URL_SSP_LONGITUDE)), safe_stod (default (str "0") (m !! ssp_name URL_SSP_LATITUDE))).

(** The place of the request: its own id, or that of the exchange, which is also written to the
    parameter the reference names; [None] when both are empty. *)
Definition ssp_place : M (option (bytes * bool)) :=
  queryPid ← at_key (ssp_name URL_SSP_PID);
  if bool_decide (queryPid = []) || bool_decide (queryPid = str "0") then
    v ← at_key (ssp_name URL_SSP_ADX_PID);
    m ← gets params;
    put_params (<[ssp_name URL_SSP_PID := v]> m);;
    mret (if bool_decide (v = []) then None else Some (v, true))
  else mret (Some (queryPid, false)).

Definition ssp_condition (e : show_env) (queryPid : bytes) (isAdxPid : bool) : M AdSelectCondition :=
  mttyPid ← lift (if isAdxPid then Val 0 else stoi queryPid);
  l ← gets log; m ← gets params;
  dGeo ← lift (areaByIp e (c_str (proxy l)));
  agent ← lift (match sh_agent e, m !! ssp_name URL_SSP_USERAGENT with
                | [], Some v => urlDecode_f v 1024
                | a, _ => Val a
                end);
  let dev := getDeviceTypeForSsp m in
  let dev := if dev =? device_id SOLUTION_DEVICE_OTHER then getMobileTypeFromUA agent else dev in
  let mobile := negb (dev =? device_id SOLUTION_DEVICE_OTHER) in
  mret (mkCondition
    (mkCondPlace (if isAdxPid then queryPid else []) mttyPid (adx_id (if mobile then ADX_SSP_MOBILE else ADX_SSP_PC)) 0 0 0 0 0 0 [] [] None 99)
    (mkClient (mkIds [] [] [] []) dev (if mobile then SOLUTION_FLOWTYPE_MOBILE else SOLUTION_FLOWTYPE_PC) (getOSTypeFromUA agent) 0 0
       [] [] (getSSPGeo m) None [])
    (proxy l) (userId l) dGeo (hourCode e) None [] true).

(** ** The module *)

Definition set_logType (p : LogPhaseType) (l : LogItem) : LogItem :=
  mkLog (timeStamp l) p (reqStatus l) (reqMethod l) (proxy l) (referer l) (userId l) (userAgent l)
    (geoInfo l) (adInfo l) (clickx l) (clicky l) (deviceID l) (traceId l) (traceInfo l) (flow l).

(** The ad of a selection that failed. *)
Definition failed_ad (adx : Z) (p : ADPlace) (a : AdInfo) : AdInfo :=
  mkAd (areaId a) (advId a) (cpid a) (sid a) (bannerId a) (clickId a) adx (mid a) (to_string (pl_pId p)) (imp_id a)
    (landingUrl a) (pl_adxPId p) (priceType a) (ppid a) (orderId a) (bill a) (select a).

(** Cost and billing of the impression; a buying price of another type leaves the cost. *)
Definition ssp_bill (r : SelectResult) (b : billing) : outcome billing :=
  let s := res_solution r in let p := res_place r in
  let click := settled_by_click (sol_priceType s) in
  let bid := if click then 0 else res_feePrice r in
  c ← (if (pl_priceType p =? PRICETYPE_RRTB_CPM) || (pl_priceType p =? 0) then int_op (pl_basePrice p * 100)
       else Val (if pl_priceType p =? PRICETYPE_RRTB_CPC then 0 else cost b));
  Val (mkBilling c bid
         (if click then feeDetail b
          else costdetailVec (cost_detail r) (ddiv (double_of_Z bid) (dadd one (final_rate r))))).

Definition selected_ad (r : SelectResult) (b : billing) (a : AdInfo) : AdInfo :=
  let s := res_solution r in let p := res_place r in
  mkAd (areaId a) (sol_advId s) (cpid a) (sol_sId s) (bId (res_banner r)) (clickId a) (pl_adxId p) (pl_mId p)
    (to_string (pl_pId p)) (imp_id a) (landingUrl a) (pl_adxPId p) (sol_priceType s) (res_ppid r) (res_orderId r) b
    (mkSelect (pl_cId p) (res_bidPrice r) (pl_basePrice p) (ad_adxuid (select a)) (ad_offerPrice (select a)) (ad_bidSize (select a))).

Definition set_imp (i : bytes) (a : AdInfo) : AdInfo :=
  mkAd (areaId a) (advId a) (cpid a) (sid a) (bannerId a) (clickId a) (adxid a) (mid a) (pid a) i
    (landingUrl a) (adxpid a) (priceType a) (ppid a) (orderId a) (bill a) (select a).

(** The selected ad is logged as an impression; the task logs it as a bid afterwards. *)
Definition show_selected (e : show_env) (cond : AdSelectCondition) (r : SelectResult) : M (bytes * Z) :=
  l ← gets log;
  b ← lift (ssp_bill r (bill (adInfo l)));
  put_log (set_ad (selected_ad r b (adInfo l)) l);;
  '(x, y, z) ← lift (areaCodeByIp e (c_str (cond_ip cond)));
  l ← gets log; put_log (set_geo (mkGeo x y z) l);;
  ad ← lift (bannerJson2HttpsIOS true (banner_json (res_banner r)) (bannerType (res_banner r) =? BANNER_TYPE_PRIMITIVE));
  let impId := to_string (snd (impSeq e)) ++ to_string (fst (impSeq e)) in
  l ← gets log; put_log (set_ad (set_imp impId (adInfo l)) l);;
  body ← buildResponseForSsp e r ad impId;
  doLog (sh_task e);;
  l ← gets log; put_log (set_logType BID l);;
  mret (body, bgId (res_banner r)).

(** The text of the response and the group of the banner; [None] is an early return. *)
Definition show_ssp (e : show_env) : M (option (bytes * Z)) :=
  place ← ssp_place;
  match place with
  | None => mret None
  | Some (queryPid, isAdxPid) =>
    cond ← ssp_condition e queryPid isAdxPid;
    match search e cond with
    | (false, r) =>
      l ← gets log;
      put_log (set_reqStatus 500 (set_ad (failed_ad (cond_adxid (at_place cond)) (res_place r) (adInfo l)) (set_logType BID l)));;
      mret None
    | (true, r) => x ← show_selected e cond r; mret (Some x)
    end
  end.

Definition set_banner (b : Z) (a : AdInfo) : AdInfo :=
  mkAd (areaId a) (advId a) (cpid a) (sid a) b (clickId a) (adxid a) (mid a) (pid a) (imp_id a)
    (landingUrl a) (adxpid a) (priceType a) (ppid a) (orderId a) (bill a) (select a).

Definition show_dsp (e : show_env) : M (option (bytes * Z)) :=
  m ← gets params; log_it ← gets needLog;
  let '(showCreative, log_it) := dspSetParam m (true, log_it) in
  put_needLog log_it;;
  c ← at_key (url_name URL_CREATIVE_ID);
  id ← lift (stoll c);
  match getBannerById e id with
  | None =>
    if (showCreative : bool) then
      l ← gets log; put_log (set_reqStatus 500 (set_ad (set_banner 0 (adInfo l)) l));; mret None
    else mret (Some ([], -1))
  | Some b =>
    if showCreative then body ← buildResponseForDsp e b; mret (Some (body, bgId b))
    else mret (Some ([], bgId b))
  end.

(** ** Counting *)

Definition count_show_order : M unit :=
  b ← gets needLog; l ← gets log;
  if b && negb (ppid (adInfo l) =? DEFAULT_PRODUCT_PACKAGE_ID)
  then add_db (DbIncr (str "order-counter") (to_string (orderId (adInfo l))) (str "s")) else mret tt.

(** One frequency record: created when it is not there, otherwise counted up.  An exception of a query for
    a record ends the block; the writes are asynchronous, and that starting one throws is left out. *)
Definition count_user (e : show_env) (bgid : Z) : M unit :=
  b ← gets needLog; l ← gets log;
  if negb (bool_decide (userId l = [])) && b then
    let a := adInfo l in
    let one key (present : bool) ttl :=
      add_db (if present then DbCountShow key (bannerId a) bgid (sid a) else DbNewCounter key (bannerId a) bgid (sid a) ttl) in
    match daily_exists e with
    | None => mret tt
    | Some present =>
      one (userId l ++ str "d") present (day_left e);;
      match hourly_exists e with
      | None => mret tt
      | Some present => one (userId l ++ str "h") present (60 * 60)
      end
    end
  else mret tt.

Definition P3P_POLICY : bytes :=
  str "CP=" ++ [34] ++ str "CURa ADMa DEVa PSAo PSDo OUR BUS UNI PUR INT DEM STA PRE COM NAV OTC NOI DSP COR" ++ [34].

Definition show_response (respBody : bytes) : M unit :=
  mod_resp (set_body respBody);;
  mod_resp (set_content_header (str "text/html; charset=utf-8"));;
  mod_resp (set_header (str "Pragma") (str "no-cache"));;
  mod_resp (set_header (str "Cache-Control") (str "no-cache,no-store;must-revalidate"));;
  mod_resp (set_header (str "P3p") P3P_POLICY).

Definition show_customLogic (e : show_env) : M unit :=
  m ← gets params;
  r ← (if isShowForSSP m then show_ssp e else show_dsp e);
  match r with
  | None => mret tt
  | Some (respBody, bgid) => count_show_order;; count_user e bgid;; show_response respBody
  end.

(** [HandleShowQueryTask] *)
Definition show_ops (e : show_env) : TaskOps := mkOps SHOW 200 show_filter (mret tt) (show_customLogic e).
End show.

(** ** Properties *)

(** *** The run of an impression of an exchange *)

Section dsp_run.
Context `{UrlNames, MapOrder, Base64, CryptoPP, ShowConst, Json}.

Definition touched (ks : list url_key) (m : ParamMap) : ParamMap := foldl (fun m k => touch (url_name k) m) m ks.

Lemma touched_same ks m : same_values (touched ks m) m.
Proof. unfold touched. revert m. induction ks as [|k ks IH]; intros m; [done|]. cbn [foldl]. rewrite IH. apply touch_same. Qed.

Definition field_keys (fs : list (string * (url_key + bytes))) : list url_key :=
  flat_map (fun '(_, f) => match f with inl k => [k] | inr _ => [] end) fs.

(** The object with the fields. *)
Definition json_fields (m : ParamMap) (fs : list (string * (url_key + bytes))) (ad : json) : json :=
  foldl (fun ad '(n, f) => set_member (str n) (JStr (match f with inl k => pval m (url_name k) | inr v => v end)) ad) ad fs.

Lemma json_fields_same m m' fs ad : same_values m m' -> json_fields m fs ad = json_fields m' fs ad.
Proof.
  intros E. revert ad. unfold json_fields. induction fs as [|[n [k|v]] fs IH]; intros ad; [done| |]; cbn [foldl]; [|apply IH].
  rewrite (pval_same m m') by done. apply IH.
Qed.

Lemma fill_fields_run fs ad s :
  fill_fields fs ad s = RVal (json_fields (params s) fs ad) (with_params' (touched (field_keys fs) (params s)) s).
Proof.
  revert ad s. induction fs as [|[n [k|v]] fs IH]; intros ad s; cbn [fill_fields].
  - by destruct s.
  - rewrite (run_bind _ _ _ _ _ (at_key_run (url_name k) s)), IH. cbn [params].
    rewrite (json_fields_same (touch (url_name k) (params s)) (params s)) by apply touch_same. done.
  - rewrite IH. done.
Qed.

Definition param_values (m : ParamMap) (ks : list url_key) : list (bytes * bytes) :=
  map (fun k => (url_name k, pval m (url_name k))) ks.

Lemma param_values_same m m' ks : same_values m m' -> param_values m ks = param_values m' ks.
Proof. intros E. apply map_ext. intros k. by rewrite (pval_same m m'). Qed.

Lemma add_from_params_run ks h s :
  add_from_params ks h s = RVal (add_params (param_values (params s) ks) h) (with_params' (touched ks (params s)) s).
Proof.
  revert h s. induction ks as [|k ks IH]; intros h s; cbn [add_from_params].
  - by destruct s.
  - rewrite (run_bind _ _ _ _ _ (at_key_run (url_name k) s)), IH. cbn [params].
    by rewrite (param_values_same (touch (url_name k) (params s)) (params s)) by apply touch_same.
Qed.

Definition copied_keys : list url_key :=
  [URL_DEVICE_IDFA; URL_DEVICE_IMEI; URL_DEVICE_ANDOROIDID; URL_DEVICE_MAC; URL_EXCHANGE_PRICE; URL_FEE_RATE].

(** The click url: the parameters [m] of the impression over those of the configured url [h0]. *)
Definition click_helper (m : ParamMap) (adxMacro encodedLanding : bytes) (h0 : URLHelper) : URLHelper :=
  UrlHelper.add (url_name URL_LANDING_URL) encodedLanding
    (add_params (param_values m copied_keys)
       (UrlHelper.add (url_name URL_ADX_MACRO) adxMacro (UrlHelper.add (url_name URL_IMP_OF) OF_DSP (add_params (enum m) h0)))).

(** The landing page of a banner whose creative is [ad]. *)
Definition banner_landing (b : Banner) (ad : json) : option bytes :=
  match get_member (str "mtls") ad with
  | JArr (first :: _) => Some (snd (url_replace (get_text (landing_member b) first) (str "{{click}}") []))
  | _ => None
  end.

Lemma dsp_click_url_run e b adxMacro ad s h0 landing enc :
  fromUrl (sslClickUrl e) = Val h0 -> banner_landing b ad = Some landing -> urlEncode_f landing 1024 = Val enc ->
  dsp_click_url e b adxMacro ad s
  = RVal (click_helper (params s) adxMacro enc h0) (with_params' (touched copied_keys (params s)) s).
Proof.
  intros Eh El Ee. unfold dsp_click_url. rewrite (run_lift _ _ _ _ Eh), run_gets.
  rewrite (run_bind _ _ _ _ _ (add_from_params_run _ _ _)). unfold banner_landing in El.
  destruct (get_member (str "mtls") ad) as [| | | | |[|first rest]|]; try discriminate El. injection El as <-.
  rewrite (run_lift (as_array _) (first :: rest)), (run_lift (head_of _) (first, rest)) by done. by rewrite (run_lift _ _ _ _ Ee).
Qed.
End dsp_run.

Lemma assoc_set_ne k k' x ms : k <> k' -> assoc k (assoc_set k' x ms) = assoc k ms.
Proof.
  intros Hk. induction ms as [|[k2 v] ms IH]; cbn [assoc_set assoc]; [by rewrite bool_decide_eq_false_2|].
  case_bool_decide as E; cbn [assoc]; [|by rewrite IH]. subst. by rewrite !(bool_decide_eq_false_2 (k = k2)).
Qed.

Lemma assoc_set_eq k x ms : assoc k (assoc_set k x ms) = Some x.
Proof.
  induction ms as [|[k2 v] ms IH]; cbn [assoc_set assoc]; [by rewrite bool_decide_eq_true_2|].
  case_bool_decide as E; cbn [assoc]; [by rewrite bool_decide_eq_true_2|]. by rewrite bool_decide_eq_false_2.
Qed.

Lemma get_set_member_ne k k' x v : k <> k' -> get_member k (set_member k' x v) = get_member k v.
Proof. intros Hk. unfold get_member, set_member. cbn [members]. by rewrite assoc_set_ne. Qed.
Lemma get_set_member k x v : get_member k (set_member k x v) = x.
Proof. unfold get_member, set_member. cbn [members]. by rewrite assoc_set_eq. Qed.

Section dsp_response.
Context `{Names : UrlNames} `{!UrlNamesLaws Names} `{MapOrderLaws} `{Base64Laws} `{CryptoPP} `{ShowConst, Json}.

(** The keys the response of an exchange reads before the click url is built. *)
Definition dsp_keys : list url_key :=
  [URL_ADX_MACRO; URL_MTTYADPLACE_ID; URL_ADPLACE_ID; URL_EXPOSE_ID; URL_ADX_ID; URL_EXEC_ID; URL_AREA_ID; URL_PRICE_TYPE;
   URL_BID_PRICE; URL_PRODUCTPACKAGE_ID; URL_ORDER_ID].

(** The creative without its click url. *)
Definition dsp_creative (m : ParamMap) (b : Banner) (adxMacro : bytes) (flowType : Z) : json :=
  let ad := json_fields m (dsp_fields b adxMacro) (json_parse (c_str (banner_json b))) in
  if flowType =? SOLUTION_FLOWTYPE_MOBILE then set_member (str "rs") (JBool true) ad else ad.

Lemma touched_ne ks m k : k ∉ ks -> touched ks m !! url_name k = m !! url_name k.
Proof.
  unfold touched. revert m. induction ks as [|k' ks IH]; intros m Hk; [done|]. cbn [foldl]. rewrite IH by set_solver.
  unfold touch. destruct (m !! url_name k'); [done|]. rewrite lookup_insert_ne; [done|].
  intros E. apply (inj url_name) in E. set_solver.
Qed.

Lemma dsp_creative_mtls m b adxMacro ft :
  get_member (str "mtls") (dsp_creative m b adxMacro ft) = get_member (str "mtls") (json_parse (c_str (banner_json b))).
Proof.
  unfold dsp_creative. set (ad := json_fields _ _ _).
  assert (get_member (str "mtls") ad = get_member (str "mtls") (json_parse (c_str (banner_json b)))) as <-.
  { unfold ad, json_fields, dsp_fields. cbn [foldl]. by rewrite !get_set_member_ne by discriminate. }
  destruct (ft =? _); [|done]. by rewrite get_set_member_ne by discriminate.
Qed.

Lemma cipherUrl_ok h : cipherable h ->
  cipherUrl h = Val (url_prefix h ++ str "?" ++ cipher_text h, with_macros (checked_macros h) h).
Proof.
  intros Hc. unfold cipherUrl. rewrite cipherParam_ok by done. cbn [mbind outcome_bind try_std].
  assert (cipher_text h <> []) as Hne by (unfold cipher_text; discriminate).
  by destruct (cipher_text h) as [|c s]; [done|].
Qed.

Lemma buildResponseForDsp_run e b s mc ft h0 landing enc text :
  let m := params s in
  let adxMacro := mc ++ ADX_MACRO_SUFFIX in
  let h := click_helper (touched dsp_keys m) adxMacro enc h0 in
  urlDecode_f (pval m (url_name URL_ADX_MACRO)) 1024 = Val mc -> flow_type m = Val ft ->
  fromUrl (sslClickUrl e) = Val h0 -> banner_landing b (json_parse (c_str (banner_json b))) = Some landing ->
  urlEncode_f landing 1024 = Val enc -> cipherable h ->
  format (adxTemplate e) [json_print (set_member (str "clickurl") (JStr (url_prefix h ++ str "?" ++ cipher_text h))
                            (dsp_creative m b adxMacro ft))] = Val text ->
  exists m', buildResponseForDsp e b s = RVal (response_text (stack_byte e) text) (with_params' m' s).
Proof.
  intros m adxMacro h Em Ef Eh El Ee Hc Et. unfold buildResponseForDsp.
  rewrite (run_bind _ _ _ _ _ (at_key_run _ s)), (run_lift _ _ _ _ Em).
  rewrite (run_bind _ _ _ _ _ (fill_fields_run _ _ _)), run_gets. cbn [params with_params'].
  change (touched (field_keys (dsp_fields b (mc ++ ADX_MACRO_SUFFIX))) (touch (url_name URL_ADX_MACRO) (params s)))
    with (touched dsp_keys m).
  rewrite (json_fields_same (touch (url_name URL_ADX_MACRO) (params s)) m) by apply touch_same.
  assert (flow_type (touched dsp_keys m) = Val ft) as Ef' by (unfold flow_type; by rewrite touched_ne by by_decide).
  rewrite (run_lift _ _ _ _ Ef'). fold adxMacro.
  fold (dsp_creative m b adxMacro ft).
  erewrite run_bind. 2:{ apply (dsp_click_url_run _ _ _ _ _ h0 landing enc Eh); [|exact Ee]. unfold banner_landing.
    by rewrite dsp_creative_mtls. }
  cbn [params with_params']. fold h. rewrite (run_lift _ _ _ _ (cipherUrl_ok h Hc)), (run_lift _ _ _ _ Et). by eexists.
Qed.
End dsp_response.

(** *** From the impression to the click *)

Section show_click.
Context `{Names : UrlNames} `{!UrlNamesLaws Names} `{MapOrderLaws} `{Base64Laws} `{CryptoPP} `{ShowConst, Json} `{TaskConst}.

Lemma add_params_assigned ps h : paramMap (add_params ps h) = assigned (paramMap h) ps.
Proof.
  unfold add_params, assigned. revert h. induction ps as [|[k v] ps IH]; intros h; [done|]. cbn [foldl]. by rewrite IH.
Qed.

Lemma assigned_values M m ks k :
  pval M (url_name k) = pval m (url_name k) -> pval (assigned M (param_values m ks)) (url_name k) = pval m (url_name k).
Proof.
  unfold assigned, param_values. revert M. induction ks as [|k' ks IH]; intros M HM; [done|]. cbn [map foldl]. apply IH.
  unfold pval. destruct (decide (k' = k)) as [->|Hk]; [by rewrite lookup_insert_eq|].
  rewrite lookup_insert_ne by (intros E; by apply (inj url_name) in E). exact HM.
Qed.

(** The click url has the parameters of the impression, but for the landing page, the kind and the
    macro of the exchange. *)
Lemma click_helper_value m adxMacro enc h0 k :
  paramMap h0 = ∅ -> k ∉ [URL_LANDING_URL; URL_ADX_MACRO; URL_IMP_OF] ->
  pval (paramMap (click_helper m adxMacro enc h0)) (url_name k) = pval m (url_name k).
Proof.
  intros Hh Hk. unfold click_helper. cbn [UrlHelper.add with_params paramMap].
  assert (forall k', k' ∈ [URL_LANDING_URL; URL_ADX_MACRO; URL_IMP_OF] -> url_name k' <> url_name k) as Hne.
  { intros k' Hin E. apply (inj url_name) in E. by subst. }
  unfold pval at 1. rewrite lookup_insert_ne by (apply Hne; set_solver). fold (pval (paramMap (add_params (param_values m copied_keys)
    (UrlHelper.add (url_name URL_ADX_MACRO) adxMacro (UrlHelper.add (url_name URL_IMP_OF) OF_DSP (add_params (enum m) h0))))) (url_name k)).
  rewrite add_params_assigned. apply assigned_values. cbn [UrlHelper.add with_params paramMap].
  unfold pval. rewrite !lookup_insert_ne by (apply Hne; set_solver).
  by rewrite add_params_assigned, assigned_enum, Hh, map_union_empty.
Qed.

Lemma click_helper_landing m adxMacro enc h0 :
  paramMap (click_helper m adxMacro enc h0) !! url_name URL_LANDING_URL = Some enc.
Proof. apply lookup_insert_eq. Qed.

Lemma click_helper_macros m adxMacro enc h0 : macroParamMap (click_helper m adxMacro enc h0) = macroParamMap h0.
Proof.
  unfold click_helper. cbn [UrlHelper.add with_params macroParamMap]. rewrite add_params_macros.
  cbn [UrlHelper.add with_params macroParamMap]. by rewrite add_params_macros.
Qed.

(** What the parameters [m2] of the click say of the parameters [m] of the impression. *)
Record carried (m m2 : ParamMap) (enc : bytes) : Prop := {
  ca_text k : typed k PARAM_STRING -> k ∉ [URL_LANDING_URL; URL_ADX_MACRO; URL_IMP_OF] ->
    m2 !! url_name k = normal PARAM_STRING (pval m (url_name k));
  ca_int k : typed k PARAM_INT -> k ∉ [URL_LANDING_URL; URL_ADX_MACRO; URL_IMP_OF] ->
    m2 !! url_name k = normal PARAM_INT (pval m (url_name k)) /\ 0 <= int_value (pval m (url_name k));
  ca_landing : m2 !! url_name URL_LANDING_URL = normal PARAM_STRING enc;
}.

Lemma int_value_to_int v : int_value v = to_int v.
Proof. unfold int_value, to_int. destruct v; [by vm_compute|]. done. Qed.

Lemma int64_param_value m k : int64_param m k 0 = int_value (pval m (url_name k)).
Proof. rewrite int_value_to_int. unfold int64_param, param, pval. destruct (m !! url_name k); [done|]. by vm_compute. Qed.

Lemma int32_param_value m k : int32_param m k 0 = s32 (int_value (pval m (url_name k))).
Proof. rewrite int_value_to_int. unfold int32_param, param, pval. destruct (m !! url_name k); [done|]. by vm_compute. Qed.

Lemma text_param_value m k : text_param m k [] = pval m (url_name k).
Proof. unfold text_param, param, pval. by destruct (m !! url_name k). Qed.

Lemma carried_int m m2 enc k : carried m m2 enc -> typed k PARAM_INT -> k ∉ [URL_LANDING_URL; URL_ADX_MACRO; URL_IMP_OF] ->
  int_value (pval m2 (url_name k)) = int_value (pval m (url_name k)).
Proof.
  intros C Ht Hk. destruct (ca_int _ _ _ C k Ht Hk) as [E Hn]. pose proof (int_value_range (pval m (url_name k))) as [_ Hr].
  unfold pval at 1. rewrite E. unfold normal. destruct (Z.eqb_spec (int_value (pval m (url_name k))) 0) as [->|]; [done|].
    cbn [from_option id]. by rewrite (int_value_to_int (to_string _)), to_int_to_string.
Qed.

Lemma carried_text m m2 enc k : carried m m2 enc -> typed k PARAM_STRING -> k ∉ [URL_LANDING_URL; URL_ADX_MACRO; URL_IMP_OF] ->
  pval m2 (url_name k) = pval m (url_name k).
Proof. intros C Ht Hk. unfold pval at 1. rewrite (ca_text _ _ _ C k Ht Hk). by destruct (pval m (url_name k)). Qed.

(** The parameters the click task works with. *)
Lemma click_carried m adxMacro enc h0 :
  let h := click_helper m adxMacro enc h0 in
  paramMap h0 = ∅ -> macroParamMap h0 = ∅ -> cipherable h -> url_name URL_EXCHANGE_PRICE <> ENCODE_HOLDER ->
  (forall k, (length (pval m (url_name k)) <= URL_LONG_INPUT_PARAMETER)%nat) -> (length enc <= URL_LONG_INPUT_PARAMETER)%nat ->
  (19 <= URL_LONG_INPUT_PARAMETER)%nat ->
  exists m2, query_params CLICK (cipher_text h) = Val m2 /\ carried m (filterParamMapSafe m2) enc.
Proof.
  intros h Hp Hm Hc Hx Hl Hle H20. exists (recovered h).
  assert (macroParamMap h = ∅) as Hmh by (unfold h; by rewrite click_helper_macros).
  assert (forall k t, typed k t -> recovered h !! url_name k = normal t (pval (paramMap h) (url_name k))) as Hrec.
  { intros k t Ht. apply recovered_lookup; [done|by rewrite Hmh|apply (c_holder h Hc)]. }
  assert (forall k, typed k PARAM_INT -> k ∉ [URL_LANDING_URL; URL_ADX_MACRO; URL_IMP_OF] -> 0 <= int_value (pval m (url_name k))) as ca_nonneg.
  { intros k Ht Hk. pose proof (c_ints h Hc) as Hi. unfold nonneg_ints in Hi. rewrite Forall_forall in Hi. specialize (Hi _ Ht eq_refl).
    fold (pval (paramMap h) (url_name k)) in Hi. unfold h in Hi. by rewrite click_helper_value in Hi. }
  split.
  - pose proof (query_params_cipher CLICK h None Hc Hx (macro_text_check h Hmh)) as E. cbn [price_tail] in E.
    rewrite app_nil_r in E. rewrite E; [by rewrite andb_false_r|]. split; [by apply plain_tail_nil|done].
  - constructor.
    + intros k Ht Hk. specialize (Hrec k _ Ht). unfold h in Hrec. rewrite click_helper_value in Hrec by done. fold h in Hrec.
      destruct (pval m (url_name k)) as [|c v] eqn:E; [by apply filter_none|]. apply filter_short; [done|]. rewrite <- E. apply Hl.
    + intros k Ht Hk. specialize (Hrec k _ Ht). unfold h in Hrec. rewrite click_helper_value in Hrec by done. fold h in Hrec. split; [|by apply ca_nonneg].
      unfold normal in *. destruct (int_value _ =? 0); [by apply filter_none|]. apply filter_short; [done|].
        pose proof (int_value_range (pval m (url_name k))). pose proof (ca_nonneg k Ht Hk). enough (length (to_string (int_value (pval m (url_name k)))) <= 19)%nat by lia.
        apply length_to_string_pow; [lia|]. change (10 ^ Z.of_nat 19) with 10000000000000000000. lia.
    + specialize (Hrec URL_LANDING_URL PARAM_STRING ltac:(typed_tac)). unfold pval in Hrec. unfold h in Hrec at 2.
      rewrite click_helper_landing in Hrec. cbn [from_option id] in Hrec. destruct enc; [by apply filter_none|by apply filter_short].
Qed.
End show_click.

(** *** The click reads the ad of the impression *)

Section click_reads.
Context `{Names : UrlNames} `{!UrlNamesLaws Names} `{MapOrderLaws} `{Base64Laws} `{CryptoPP} `{ShowConst, Json} `{TaskConst}.

(** The ad of the click is the ad of the impression. *)
Definition click_ad (a a' : AdInfo) : Prop :=
  areaId a = areaId a' /\ advId a = advId a' /\ sid a = sid a' /\ bannerId a = bannerId a' /\ adxid a = adxid a'
  /\ mid a = mid a' /\ imp_id a = imp_id a' /\ adxpid a = adxpid a' /\ priceType a = priceType a' /\ orderId a = orderId a'.

Ltac carried_tac :=
  match goal with
  | |- typed _ _ => typed_tac
  | |- _ ∉ _ => by_decide
  | |- carried _ _ _ => eassumption
  end.

Lemma click_parse m m2 landing enc (l lc l1 : LogItem) :
  carried m m2 enc -> urlDecode_f enc PARSE_BUFFER = Val landing -> no_nul landing -> enc <> [] ->
  parse_ids m l = Val l1 -> adInfo l = ad0 -> adInfo lc = ad0 ->
  exists l2, parse_ids m2 lc = Val l2 /\ landingUrl (adInfo l2) = landing /\ click_ad (adInfo l2) (adInfo l1).
Proof.
  intros C Hd Hn Hne El Hl Hlc. unfold parse_ids in El |- *. rewrite Hl in El. rewrite Hlc.
  assert (forall (f : bytes -> outcome bytes) o, param m2 URL_LANDING_URL f o = f enc) as Eland.
  { intros f o. unfold param. rewrite (ca_landing _ _ _ C). by destruct enc. }
  rewrite Eland, Hd. cbn [mbind outcome_bind]. rewrite c_str_id by done.
  destruct (param m URL_LANDING_URL _ _) as [?| |]; try discriminate El. cbn [mbind outcome_bind] in El.
  destruct (param m URL_REFERER _ _) as [ref| |] eqn:Er; try discriminate El. cbn [mbind outcome_bind] in El.
  destruct (param m URL_AREA_ID _ _) as [geo| |] eqn:Ea; try discriminate El. cbn [mbind outcome_bind] in El. injection El as <-.
  assert (exists r, param m2 URL_REFERER (fun f => urlDecode_f f PARSE_BUFFER;; Val f) (Val (referer lc)) = Val r) as [r ->].
  { unfold param in Er |- *. rewrite (ca_text _ _ _ C URL_REFERER) by carried_tac. unfold pval.
    destruct (m !! url_name URL_REFERER) as [[|c x]|]; cbn [from_option id normal]; by eexists. }
  assert (exists g, param m2 URL_AREA_ID (fun t => '(x, y, z) ← extractAreaInfo t; Val (mkGeo x y z)) (Val (geoInfo lc)) = Val g) as [g ->].
  { unfold param in Ea |- *. rewrite (ca_text _ _ _ C URL_AREA_ID) by carried_tac. unfold pval.
    destruct (m !! url_name URL_AREA_ID) as [[|c x]|]; cbn [from_option id normal]; by eexists. }
  cbn [mbind outcome_bind]. eexists. split; [reflexivity|]. split; [done|].
  unfold click_ad. cbn [adInfo areaId advId sid bannerId adxid mid imp_id adxpid priceType orderId ad0].
  rewrite !text_param_value, !int64_param_value, !int32_param_value.
  split_and!; first [eapply carried_text; carried_tac | eapply carried_int; carried_tac | f_equal; eapply carried_int; carried_tac].
Qed.
End click_reads.

(** *** Counting *)

Section counting.
Context `{ShowConst}.

(** The requests to the database of an impression that is logged. *)
Definition order_count (l : LogItem) : list db_op :=
  if ppid (adInfo l) =? DEFAULT_PRODUCT_PACKAGE_ID then []
  else [DbIncr (str "order-counter") (to_string (orderId (adInfo l))) (str "s")].

Definition user_count (e : show_env) (bgid : Z) (l : LogItem) : list db_op :=
  let a := adInfo l in
  let one key (present : bool) ttl :=
    if present then DbCountShow key (bannerId a) bgid (sid a) else DbNewCounter key (bannerId a) bgid (sid a) ttl in
  if bool_decide (userId l = []) then []
  else match daily_exists e, hourly_exists e with
       | None, _ => []
       | Some d, None => [one (userId l ++ str "d") d (day_left e)]
       | Some d, Some h => [one (userId l ++ str "d") d (day_left e); one (userId l ++ str "h") h (60 * 60)]
       end.

Definition show_counts (e : show_env) (bgid : Z) (counted : bool) (l : LogItem) : list db_op :=
  if counted then order_count l ++ user_count e bgid l else [].

Definition show_headers (respBody : bytes) (r : HttpResponse) : HttpResponse :=
  set_header (str "P3p") P3P_POLICY (set_header (str "Cache-Control") (str "no-cache,no-store;must-revalidate")
    (set_header (str "Pragma") (str "no-cache") (set_content_header (str "text/html; charset=utf-8") (set_body respBody r)))).

Lemma show_tail_run e bgid respBody s :
  (count_show_order;; count_user e bgid;; show_response respBody) s
  = RVal tt (mkState (params s) (log s) (show_headers respBody (resp s)) (needLog s) (logs s) (trafficCalls s)
      (db s ++ show_counts e bgid (needLog s) (log s))).
Proof.
  destruct s as [m l r b lg tc d]. unfold show_counts, order_count, user_count, count_show_order, count_user.
  unfold mbind, M_bind, gets, mret, M_ret, add_db. cbn [params log resp needLog logs trafficCalls db].
  destruct b; cbn [andb]; [|rewrite andb_false_r, app_nil_r; done].
  destruct (ppid (adInfo l) =? DEFAULT_PRODUCT_PACKAGE_ID); cbn [negb app];
    cbn [params log resp needLog logs trafficCalls db]; rewrite andb_true_r;
    (case_bool_decide; cbn [negb params log resp needLog logs trafficCalls db app]; [by rewrite ?app_nil_r|]);
    destruct (daily_exists e) as [p|]; cbn [params log resp needLog logs trafficCalls db]; try (by rewrite ?app_nil_r);
    destruct (hourly_exists e) as [q|]; cbn [params log resp needLog logs trafficCalls db]; by rewrite <- ?app_assoc.
Qed.
End counting.

(** *** The whole impression *)

Section dsp_outcomes.
Context `{UrlNames, MapOrder, Base64, CryptoPP, OpenSSL, BoostBase64, Aes}.
Context `{AdxConst, PriceMemory, TaskConst, UserIds, Avro, LogConst}.
Context `{ShowConst, UaConst, Json}.

(** The state after the kind of the impression and its creative id were read. *)
Definition dsp_started (s : task_state) : task_state :=
  mkState (touch (url_name URL_CREATIVE_ID) (params s)) (log s) (resp s) (snd (dspSetParam (params s) (true, needLog s)))
    (logs s) (trafficCalls s) (db s).

Lemma show_dsp_run e s id :
  isShowForSSP (params s) = false -> stoll (pval (params s) (url_name URL_CREATIVE_ID)) = Val id ->
  show_customLogic e s
  = (r ← (match getBannerById e id with
          | None => if fst (dspSetParam (params s) (true, needLog s))
                    then l ← gets log; put_log (set_reqStatus 500 (set_ad (set_banner 0 (adInfo l)) l));; mret None
                    else mret (Some ([], -1))
          | Some b => if fst (dspSetParam (params s) (true, needLog s))
                      then body ← buildResponseForDsp e b; mret (Some (body, bgId b)) else mret (Some ([], bgId b))
          end);
     match r with
     | None => mret tt
     | Some (respBody, bgid) => count_show_order;; count_user e bgid;; show_response respBody
     end) (dsp_started s).
Proof.
  intros Hk Hid. unfold show_customLogic. rewrite run_gets, Hk.
  assert (show_dsp e s = (match getBannerById e id with
          | None => if fst (dspSetParam (params s) (true, needLog s))
                    then l ← gets log; put_log (set_reqStatus 500 (set_ad (set_banner 0 (adInfo l)) l));; mret None
                    else mret (Some ([], -1))
          | Some b => if fst (dspSetParam (params s) (true, needLog s))
                      then body ← buildResponseForDsp e b; mret (Some (body, bgId b)) else mret (Some ([], bgId b))
          end) (dsp_started s)) as E.
  { unfold show_dsp. rewrite !run_gets. unfold dsp_started. destruct (dspSetParam (params s) (true, needLog s)) as [c b]. cbn [fst snd].
    unfold mbind at 1, M_bind at 1, put_needLog. rewrite (run_bind _ _ _ _ _ (at_key_run _ _)), (run_lift _ _ _ _ Hid).
    by destruct (getBannerById e id), c. }
  unfold mbind at 1, M_bind at 1. rewrite E. done.
Qed.
End dsp_outcomes.

(** C38: An impression of an exchange on every branch.  A creative id that is no number is an
    exception, before anything was logged, counted or answered, also for an impression that only
    logs.  When the banner is not found and is to be shown, the log has the status 500 and no
    banner, and nothing is counted or answered.  An impression that only logs is answered with an
    empty page and counted.  One whose banner is found is answered with the creative and counted;
    an error of the creative ends it with nothing counted. *)
Theorem dsp_impression_cases `{UrlNames, MapOrder, Base64, CryptoPP, OpenSSL, BoostBase64, Aes}
    `{AdxConst, PriceMemory, TaskConst, UserIds, Avro, LogConst} `{ShowConst, UaConst, Json} e s :
  isShowForSSP (params s) = false ->
  let '(showCreative, counted) := dspSetParam (params s) (true, needLog s) in
  match stoll (pval (params s) (url_name URL_CREATIVE_ID)) with
  | Undef => False
  | Exc x => exists s', show_customLogic e s = RExc x s' /\ log s' = log s /\ resp s' = resp s /\ db s' = db s
  | Val id =>
    match getBannerById e id, showCreative with
    | None, true => exists s', show_customLogic e s = RVal tt s' /\ reqStatus (log s') = 500 /\ bannerId (adInfo (log s')) = 0
        /\ resp s' = resp s /\ db s' = db s
    | b, false => exists s', show_customLogic e s = RVal tt s' /\ log s' = log s /\ resp s' = show_headers [] (resp s)
        /\ db s' = db s ++ show_counts e (from_option bgId (-1) b) counted (log s)
    | Some b, true =>
      match buildResponseForDsp e b (dsp_started s) with
      | RVal text s1 => exists s', show_customLogic e s = RVal tt s' /\ log s' = log s1 /\ resp s' = show_headers text (resp s1)
          /\ db s' = db s1 ++ show_counts e (bgId b) (needLog s1) (log s1)
      | RExc x s1 => show_customLogic e s = RExc x s1
      | RUndef => show_customLogic e s = RUndef
      end
    end
  end.
Proof.
  intros Hk. destruct (dspSetParam (params s) (true, needLog s)) as [c b] eqn:Ef.
  destruct (stoll (pval (params s) (url_name URL_CREATIVE_ID))) as [id|x|] eqn:Eid.
  - rewrite (show_dsp_run e s id Hk Eid). unfold dsp_started. rewrite Ef. cbn [fst snd].
    destruct (getBannerById e id) as [bn|], c; cbn [from_option].
    + destruct (buildResponseForDsp e bn _) as [text s1|x s1|] eqn:Eb;
        rewrite bind_run, (bind_run (buildResponseForDsp e bn)), Eb; [|done|done].
      unfold mret at 1, M_ret at 1. rewrite show_tail_run. by eexists.
    + unfold mbind at 1, M_bind at 1, mret, M_ret. rewrite show_tail_run. by eexists.
    + by eexists.
    + unfold mbind at 1, M_bind at 1, mret, M_ret. rewrite show_tail_run. by eexists.
  - unfold show_customLogic. rewrite run_gets, Hk. eexists. split_and!.
    { unfold show_dsp. unfold mbind at 1, M_bind at 1. rewrite !run_gets, Ef. unfold mbind at 1, M_bind at 1, put_needLog.
      rewrite (run_bind _ _ _ _ _ (at_key_run _ _)). unfold mbind at 1, M_bind at 1, lift at 1.
      cbn [params]. fold (pval (params s) (url_name URL_CREATIVE_ID)). rewrite Eid. reflexivity. }
    all: done.
  - by apply stoll_defined in Eid.
Qed.

Lemma landing_roundtrip landing :
  ascii_str landing -> 3 * Z.of_nat (length landing) < 1024 -> landing <> [] ->
  urlEncode_f landing 1024 = Val (flat_map encode_f_char landing)
  /\ urlDecode_f (flat_map encode_f_char landing) 1024 = Val landing /\ flat_map encode_f_char landing <> [].
Proof.
  intros Ha Hl Hne. pose proof (length_encode_f landing Ha). assert (urlDecode_f (flat_map encode_f_char landing) 1024 = Val landing) as Hd
    by by apply urlDecode_f_escaped.
  split_and!; [|done|].
  - unfold urlEncode_f. rewrite urlEncode_f_loop_ok; [done|done|simpl; lia].
  - intros E. rewrite E in Hd. by injection Hd.
Qed.

Lemma response_text_short junk text : (length text < SHOW_BUFFER - 1)%nat -> response_text junk text = text.
Proof. intros Hl. unfold response_text. by destruct (Nat.ltb_spec (length text) (SHOW_BUFFER - 1)); [|lia]. Qed.

(** A response that does not fit the buffer is sent with a zero byte inside and, when it is longer
    still, with a byte that was never written. *)
Lemma response_text_long junk text :
  (SHOW_BUFFER - 1 <= length text)%nat ->
  response_text junk text !! (SHOW_BUFFER - 2)%nat = Some 0
  /\ ((SHOW_BUFFER <= length text)%nat -> response_text junk text !! (SHOW_BUFFER - 1)%nat = Some junk).
Proof.
  intros Hl. unfold response_text. destruct (Nat.ltb_spec (length text) (SHOW_BUFFER - 1)); [lia|].
  assert (length (take (SHOW_BUFFER - 2) text) = SHOW_BUFFER - 2)%nat as Ht by (rewrite length_take; lia).
  split.
  - rewrite lookup_app_r, Ht by (rewrite Ht; lia). rewrite Nat.sub_diag. by destruct (length text <? SHOW_BUFFER)%nat.
  - intros Hge. destruct (Nat.ltb_spec (length text) SHOW_BUFFER); [lia|].
    rewrite lookup_app_r, Ht by (rewrite Ht; unfold SHOW_BUFFER; lia). done.
Qed.

(** C24: From the impression to the click.  An impression of an exchange whose banner is found is
    answered with the template filled with the creative, in which the click url is the configured
    one with a ciphered query.  A click on that url is read back with the parameters of the
    impression, so that it is logged for the same ad as the impression, and its landing page is the
    one of the banner. *)
Theorem show_then_click `{Names : UrlNames} `{!UrlNamesLaws Names} `{MapOrderLaws} `{Base64Laws} `{CryptoPP, OpenSSL, BoostBase64, Aes}
    `{AdxConst, PriceMemory, TaskConst, UserIds, Avro, LogConst} `{ShowConst, UaConst, Json} e s b id mc ft h0 landing text (l lc l1 : LogItem) :
  let m := params s in
  let adxMacro := mc ++ ADX_MACRO_SUFFIX in
  let h := click_helper (touched dsp_keys m) adxMacro (flat_map encode_f_char landing) h0 in
  let url := url_prefix h ++ str "?" ++ cipher_text h in
  isShowForSSP m = false -> fst (dspSetParam m (true, needLog s)) = true ->
  stoll (pval m (url_name URL_CREATIVE_ID)) = Val id -> getBannerById e id = Some b ->
  urlDecode_f (pval m (url_name URL_ADX_MACRO)) 1024 = Val mc -> flow_type m = Val ft ->
  fromUrl (sslClickUrl e) = Val h0 -> paramMap h0 = ∅ -> macroParamMap h0 = ∅ ->
  banner_landing b (json_parse (c_str (banner_json b))) = Some landing ->
  ascii_str landing -> no_nul landing -> landing <> [] -> 3 * Z.of_nat (length landing) < 1024 ->
  format (adxTemplate e) [json_print (set_member (str "clickurl") (JStr url) (dsp_creative m b adxMacro ft))] = Val text ->
  (length text < SHOW_BUFFER - 1)%nat -> text <> [] ->
  cipherable h -> url_name URL_EXCHANGE_PRICE <> ENCODE_HOLDER -> (19 <= URL_LONG_INPUT_PARAMETER)%nat ->
  (forall k, (length (pval m (url_name k)) <= URL_LONG_INPUT_PARAMETER)%nat) ->
  (length (flat_map encode_f_char landing) <= URL_LONG_INPUT_PARAMETER)%nat ->
  parse_ids m l = Val l1 -> adInfo l = ad0 -> adInfo lc = ad0 ->
  exists s' m2 l2, show_customLogic e s = RVal tt s' /\ body (resp s') = text
    /\ query_params CLICK (cipher_text h) = Val m2 /\ parse_ids (filterParamMapSafe m2) lc = Val l2
    /\ landingUrl (adInfo l2) = landing /\ click_ad (adInfo l2) (adInfo l1).
Proof.
  intros m adxMacro h url Hk Hc Hid Hb Hmc Hft Hh0 Hp0 Hm0 Hland Ha Hnul Hne H1024 Hfmt Hlen Htne Hcip Hx H19 Hshort Hshort2 Hparse Hl Hlc.
  destruct (landing_roundtrip landing Ha H1024 Hne) as (Eenc & Edec & Hene).
  assert (touch (url_name URL_CREATIVE_ID) m = m) as Et.
  { unfold touch. destruct (m !! url_name URL_CREATIVE_ID) eqn:E; [done|]. unfold pval in Hid. rewrite E in Hid. discriminate Hid. }
  assert (params (dsp_started s) = m) as Ep by (unfold dsp_started; cbn [params]; exact Et).
  destruct (buildResponseForDsp_run e b (dsp_started s) mc ft h0 landing (flat_map encode_f_char landing) text) as [m' Eb];
    rewrite ?Ep; try done.
  destruct (click_carried (touched dsp_keys m) adxMacro (flat_map encode_f_char landing) h0) as (m2 & Eq & C); try done.
  { intros k. rewrite (pval_same _ m) by apply touched_same. apply Hshort. }
  assert (carried m (filterParamMapSafe m2) (flat_map encode_f_char landing)) as C'.
  { pose proof (touched_same dsp_keys m) as Es. destruct C as [C1 C2 C3].
    constructor; [intros k Ht Hn|intros k Ht Hn|done]; rewrite <- (pval_same _ _ _ Es); auto. }
  destruct (click_parse m _ landing _ l lc l1 C' Edec Hnul Hene Hparse Hl Hlc) as (l2 & El2 & Hl2 & Had).
  eexists. exists m2, l2. split_and!; [| |exact Eq|exact El2|exact Hl2|exact Had].
  - unfold m in Hc. rewrite (show_dsp_run e s id Hk Hid), Hb, Hc, bind_run, (bind_run (buildResponseForDsp e b)), Eb.
    unfold mret at 1, M_ret at 1. rewrite show_tail_run. reflexivity.
  - cbn [resp]. rewrite response_text_short by done. unfold show_headers, set_content_header, set_header. cbn [body].
    by destruct text.
Qed.

(** *** The money of an own place *)

Section ssp_money.
Context `{Names : UrlNames} `{!UrlNamesLaws Names} `{MapOrderLaws} `{Base64Laws} `{CryptoPP, OpenSSL, BoostBase64, Aes}.
Context `{AdxConstLaws} `{PriceMemory, TaskConst} `{ShowConst}.

Lemma decode_ssp n x : n = ADX_SSP_PC \/ n = ADX_SSP_MOBILE -> x <> [] -> decodeAdxExchangePrice (adx_id n) x = safe_stoi x.
Proof.
  intros Hn Hx. unfold decodeAdxExchangePrice. destruct x as [|c x]; [done|].
  destruct Hn as [-> | ->];
    repeat match goal with
    | |- context [adx_is (adx_id ?a) ?l] =>
      first [rewrite (adx_is_other a l) by by_decide | rewrite (adx_is_one a l) by by_decide]
    end; done.
Qed.

Lemma feeRate_of_defined t : exists x, feeRate_of t = Val x.
Proof.
  destruct t as [t|]; [|by eexists]. unfold feeRate_of, stod, sto_float. destruct (scan_double (c_str t)) as [[neg nt]|]; [|by eexists].
  destruct (strtod_value binary64 neg nt) as [x []]; by eexists.
Qed.

Lemma add_params_app ps qs h : add_params (ps ++ qs) h = add_params qs (add_params ps h).
Proof. unfold add_params. by rewrite foldl_app. Qed.

Lemma add_keys_app fs gs h : add_keys (fs ++ gs) h = add_keys gs (add_keys fs h).
Proof. unfold add_keys. by rewrite map_app, add_params_app. Qed.

(** The click url as one list of parameters. *)
Lemma ssp_click_url_fields e r address impId landing h :
  ssp_click_url e r address impId landing = Val h ->
  exists h0 cs enc, fromUrl (sslClickUrl e) = Val h0 /\ ssp_cost_fields r = Val cs
    /\ h = add_keys (ssp_base_fields e r address impId ++ cs ++ ssp_fee_fields r ++ [(URL_LANDING_URL, enc)]) h0.
Proof.
  unfold ssp_click_url. destruct (fromUrl (sslClickUrl e)) as [h0| |]; try discriminate. cbn [mbind outcome_bind].
  destruct (ssp_cost_fields r) as [cs| |]; try discriminate. cbn [mbind outcome_bind].
  destruct (urlEncode_f landing 1024) as [enc| |]; try discriminate. cbn [mbind outcome_bind]. intros [= <-].
  exists h0, cs, enc. split_and!; [done|done|]. by rewrite !add_keys_app.
Qed.
Lemma add_keys_value fs h0 k :
  paramMap h0 = ∅ -> NoDup fs.*1 -> pval (paramMap (add_keys fs h0)) (url_name k) = field k fs.
Proof.
  intros Hp Hnd. unfold pval, add_keys, field. rewrite add_params_lookup by done.
  destruct (list_find _ fs) as [[? [? ?]]|]; [done|]. by rewrite Hp, lookup_empty.
Qed.

(** What a task reads of a ciphered url with the parameters [fs]. *)
Lemma fields_read fs h0 k t :
  let h := add_keys fs h0 in
  paramMap h0 = ∅ -> macroParamMap h0 = ∅ -> NoDup fs.*1 -> cipherable h -> (19 <= URL_LONG_INPUT_PARAMETER)%nat ->
  (length (field k fs) <= URL_LONG_INPUT_PARAMETER)%nat -> typed k t ->
  filterParamMapSafe (recovered h) !! url_name k = normal t (field k fs).
Proof.
  intros h Hp Hm Hnd Hc H19 Hl Ht.
  assert (macroParamMap h = ∅) as Hmh by (unfold h, add_keys; by rewrite add_params_macros).
  assert (pval (paramMap h) (url_name k) = field k fs) as Ev.
  { by apply add_keys_value. }
  assert (recovered h !! url_name k = normal t (field k fs)) as Er.
  { rewrite <- Ev. apply recovered_lookup; [done|by rewrite Hmh|apply (c_holder h Hc)]. }
  destruct t; cbn [normal] in *.
  - destruct (int_value (field k fs) =? 0); [by apply filter_none|]. apply filter_short; [done|].
    pose proof (c_ints h Hc) as Hi. unfold nonneg_ints in Hi. rewrite Forall_forall in Hi. specialize (Hi _ Ht eq_refl).
    fold (pval (paramMap h) (url_name k)) in Hi. rewrite Ev in Hi. pose proof (int_value_range (field k fs)).
    enough (length (to_string (int_value (field k fs))) <= 19)%nat by lia.
    apply length_to_string_pow; [lia|]. change (10 ^ Z.of_nat 19) with 10000000000000000000. lia.
  - destruct (field k fs); [by apply filter_none|by apply filter_short].
Qed.

Lemma offer_read m n : 0 <= n < 2 ^ 31 -> m !! url_name URL_BID_PRICE = normal PARAM_INT (to_string n) ->
  param m URL_BID_PRICE (fun v => decodeOfferPrice v false) (Val 0) = Val n.
Proof.
  intros Hn E. unfold param. rewrite E, normal_int by lia. destruct (Z.eqb_spec n 0) as [->|]; [done|].
  unfold decodeOfferPrice, stoi. rewrite sto_to_string by (unfold INT_MIN, INT_MAX; lia). cbn [mbind outcome_bind try_std].
  destruct (Z.ltb_spec n 0); [lia|done].
Qed.

Lemma ssp_bill_once r :
  let base := pl_basePrice (res_place r) in
  let byClick := pl_priceType (res_place r) =? PRICETYPE_RRTB_CPC in
  0 <= base * 100000 <= INT_MAX ->
  (byClick = true \/ pl_priceType (res_place r) = PRICETYPE_RRTB_CPM \/ pl_priceType (res_place r) = 0) -> PRICETYPE_RRTB_CPC <> 0 ->
  exists b, ssp_bill r (mkBilling 0 0 []) = Val b /\ cost b = (if byClick then 0 else base * 100)
    /\ bidPrice b = (if settled_by_click (sol_priceType (res_solution r)) then 0 else res_feePrice r).
Proof.
  intros base byClick Hbase Htype Hcpc. destruct price_types_distinct as (Hd & _ & _). unfold ssp_bill. fold base.
  destruct (Z.eqb_spec (pl_priceType (res_place r)) PRICETYPE_RRTB_CPC) as [Ec|Ec]; unfold byClick in *.
  - rewrite Ec. destruct (Z.eqb_spec PRICETYPE_RRTB_CPC PRICETYPE_RRTB_CPM); [congruence|].
    destruct (Z.eqb_spec PRICETYPE_RRTB_CPC 0); [congruence|]. cbn [orb mbind outcome_bind]. by eexists.
  - assert (((pl_priceType (res_place r) =? PRICETYPE_RRTB_CPM) || (pl_priceType (res_place r) =? 0)) = true) as ->.
    { destruct Htype as [|[->| ->]]; [done|by rewrite Z.eqb_refl|by rewrite orb_true_r]. }
    rewrite int_op_in by (unfold INT_MIN, INT_MAX in *; lia). cbn [mbind outcome_bind]. by eexists.
Qed.

Lemma safe_stoi_number n : 0 <= n < 2 ^ 31 -> safe_stoi (to_string n) = Val n.
Proof. intros Hn. unfold safe_stoi, stoi. by rewrite sto_to_string by (unfold INT_MIN, INT_MAX; lia). Qed.
(** The billing of a click of an own place. *)
Lemma ssp_calc_click n d offer rate det pt (byClick : bool) :
  n = ADX_SSP_PC \/ n = ADX_SSP_MOBILE -> PRICETYPE_RRTB_CPC <> 0 -> 0 <= d * 1000 <= INT_MAX -> 0 <= offer * 1000 <= INT_MAX ->
  exists b, calcPrice (adx_id n) false d offer rate det (mkBilling 0 0 []) CLICK pt (if byClick then PRICETYPE_RRTB_CPC else PRICETYPE_RRTB_CPM) = Val b
    /\ cost b = (if byClick then d * 1000 else 0) /\ bidPrice b = (if settled_by_click pt then offer * 1000 else 0).
Proof.
  intros Hn Hc Hd Ho. destruct price_types_distinct as (Hne & _ & Hz). unfold calcPrice.
  assert (adx_is (adx_id n) [ADX_NETEASE_MOBILE; ADX_YIDIAN] = false) as ->.
  { destruct Hn as [-> | ->]; apply adx_is_other; by_decide. }
  cbn [orb]. set (bt := if (if byClick then _ else _) =? 0 then _ else _).
  assert ((bt =? PRICETYPE_RRTB_CPM) = negb byClick) as ->.
  { unfold bt. destruct byClick.
    - destruct (Z.eqb_spec PRICETYPE_RRTB_CPC 0); [done|]. by apply Z.eqb_neq.
    - destruct (Z.eqb_spec PRICETYPE_RRTB_CPM 0); [done|]. apply Z.eqb_refl. }
  cbn [set_cost cost]. destruct byClick; cbn [negb];
    rewrite !int_op_in by (unfold INT_MIN, INT_MAX in *; lia); cbn [mbind outcome_bind];
    (destruct (settled_by_click pt); [destruct det|]); (eexists; split; [reflexivity|done]).
Qed.

Lemma ssp_click_price m (lc : LogItem) (price : option Z) offer n :
  m !! url_name URL_DEAL_ID = None -> param m URL_BID_PRICE (fun v => decodeOfferPrice v false) (Val 0) = Val offer ->
  m !! url_name URL_EXCHANGE_PRICE = option_map to_string price ->
  param m URL_ADPLACE_BUY_TYPE safe_stoi (Val PRICETYPE_RRTB_CPM) = Val (if price then PRICETYPE_RRTB_CPC else PRICETYPE_RRTB_CPM) ->
  n = ADX_SSP_PC \/ n = ADX_SSP_MOBILE -> logType lc = CLICK -> adxid (adInfo lc) = adx_id n ->
  bill (adInfo lc) = mkBilling 0 0 [] -> PRICETYPE_RRTB_CPC <> 0 ->
  0 <= default 0 price * 1000 <= INT_MAX -> 0 <= offer * 1000 <= INT_MAX ->
  exists l2, parse_price m lc = Val l2 /\ cost (bill (adInfo l2)) = default 0 price * 1000
    /\ bidPrice (bill (adInfo l2)) = (if settled_by_click (priceType (adInfo lc)) then offer * 1000 else 0).
Proof.
  intros Hdeal Hoff Hex Hbuy Hn Hl Ha Hb Hc Hp Ho. unfold parse_price.
  destruct (feeRate_of_defined (m !! url_name URL_FEE_RATE)) as [rate ->]. rewrite Hoff, Hbuy, Hb, Hl, Ha. cbn [mbind outcome_bind].
  unfold param at 1. rewrite Hex.
  destruct (ssp_calc_click n (default 0 price) offer rate (text_param m URL_FEE_RATE_STRS []) (priceType (adInfo lc))
    (if price then true else false) Hn Hc Hp Ho) as (b & Eb & Hcost & Hbid).
  destruct price as [p|]; cbn [option_map from_option id] in *.
  - rewrite decode_ssp; [|done|by apply to_string_ne]. rewrite safe_stoi_number by (unfold INT_MAX in Hp; lia).
    cbn [mbind outcome_bind]. unfold param at 1. rewrite Hdeal, Eb. cbn [mbind outcome_bind]. eexists. split; [reflexivity|done].
  - rewrite Eb. cbn [mbind outcome_bind]. eexists. split; [reflexivity|done].
Qed.
End ssp_money.

(** C25: The money of an ad on a place of the service's own is booked once.  The price of a place
    that is bought by impressions is the cost of the impression, and the click has none; the price
    of one that is bought by clicks is the cost of the click, which reads it from its url, and the
    impression has none.  In the same way the advertiser is billed on the impression or, when the
    solution is settled by clicks, on the click.  A click is booked in thousandths of the unit of
    an impression. *)
Theorem ssp_booked_once `{Names : UrlNames} `{!UrlNamesLaws Names} `{MapOrderLaws} `{Base64Laws} `{CryptoPP, OpenSSL, BoostBase64, Aes}
    `{AdxConstLaws} `{PriceMemory, TaskConst, ShowConst} e r address impId landing h0 h n (lc : LogItem) :
  let base := pl_basePrice (res_place r) in
  let byClick := pl_priceType (res_place r) =? PRICETYPE_RRTB_CPC in
  let settled := settled_by_click (sol_priceType (res_solution r)) in
  fromUrl (sslClickUrl e) = Val h0 -> paramMap h0 = ∅ -> macroParamMap h0 = ∅ ->
  ssp_click_url e r address impId landing = Val h -> cipherable h -> (19 <= URL_LONG_INPUT_PARAMETER)%nat ->
  (forall k, (length (pval (paramMap h) (url_name k)) <= URL_LONG_INPUT_PARAMETER)%nat) ->
  0 <= base * 100000 <= INT_MAX -> 0 <= res_feePrice r * 1000 <= INT_MAX -> 0 < PRICETYPE_RRTB_CPC < 2 ^ 31 ->
  n = ADX_SSP_PC \/ n = ADX_SSP_MOBILE -> pl_adxId (res_place r) = adx_id n ->
  (byClick = true \/ pl_priceType (res_place r) = PRICETYPE_RRTB_CPM \/ pl_priceType (res_place r) = 0) ->
  logType lc = CLICK -> adxid (adInfo lc) = pl_adxId (res_place r) -> priceType (adInfo lc) = sol_priceType (res_solution r) ->
  bill (adInfo lc) = mkBilling 0 0 [] ->
  exists b l2, ssp_bill r (mkBilling 0 0 []) = Val b /\ parse_price (filterParamMapSafe (recovered h)) lc = Val l2
    /\ cost b = (if byClick then 0 else base * 100) /\ cost (bill (adInfo l2)) = (if byClick then base * 100 * 1000 else 0)
    /\ bidPrice b = (if settled then 0 else res_feePrice r)
    /\ bidPrice (bill (adInfo l2)) = (if settled then res_feePrice r * 1000 else 0).
Proof.
  intros base byClick settled Eh0 Hp Hm Eh Hc H19 Hshort Hbase Hfee Hcpc Hn Hadx Htype Hl Hla Hlt Hbill.
  destruct (ssp_click_url_fields _ _ _ _ _ _ Eh) as (h0' & cs & enc & E0 & Ecs & Efs).
  assert (h0' = h0) as -> by congruence. set (fs := _ ++ cs ++ _) in Efs.
  assert (NoDup fs.*1) as Hnd.
  { unfold fs, ssp_fee_fields. unfold ssp_cost_fields in Ecs. fold byClick in Ecs. fold settled.
    destruct byClick; [destruct (int_op _) as [c| |]; try discriminate Ecs; cbn [mbind outcome_bind] in Ecs|];
      injection Ecs as <-; destruct settled; cbn [ssp_base_fields app fmap list_fmap fst]; by_decide. }
  assert (forall k t, typed k t -> filterParamMapSafe (recovered h) !! url_name k = normal t (field k fs)) as R.
  { intros k t Ht. rewrite Efs in Hc |- *. apply fields_read; try done. rewrite <- (add_keys_value fs h0 k Hp Hnd), <- Efs. apply Hshort. }
  clear Efs. generalize dependent (filterParamMapSafe (recovered h)). intros m R.
  destruct (ssp_bill_once r Hbase Htype ltac:(lia)) as (b & Eb & Hcb & Hbb).
  assert (field URL_DEAL_ID fs = [] /\ field URL_BID_PRICE fs = to_string (res_feePrice r)
    /\ field URL_EXCHANGE_PRICE fs = (if byClick then to_string (base * 100) else [])
    /\ field URL_ADPLACE_BUY_TYPE fs = (if byClick then to_string PRICETYPE_RRTB_CPC else [])) as (F1 & F2 & F3 & F4).
  { unfold fs, ssp_fee_fields. unfold ssp_cost_fields in Ecs. fold byClick base in Ecs. fold settled.
    destruct byClick; [rewrite int_op_in in Ecs by (unfold INT_MIN, INT_MAX in *; lia); cbn [mbind outcome_bind] in Ecs|];
      injection Ecs as <-; destruct settled; done. }
  destruct (ssp_click_price m lc (if byClick then Some (base * 100) else None) (res_feePrice r) n) as (l2 & El & Hcl & Hbl);
    try done; try lia.
  - rewrite (R URL_DEAL_ID PARAM_INT) by typed_tac. by rewrite F1.
  - apply offer_read; [unfold INT_MAX in Hfee; lia|]. rewrite (R URL_BID_PRICE PARAM_INT) by typed_tac. by rewrite F2.
  - rewrite (R URL_EXCHANGE_PRICE PARAM_STRING) by typed_tac. rewrite F3. destruct byClick; [|done]. cbn [normal option_map].
    pose proof (to_string_ne (base * 100)). by destruct (to_string (base * 100)).
  - unfold param. rewrite (R URL_ADPLACE_BUY_TYPE PARAM_INT) by typed_tac. rewrite F4. destruct byClick; [|done].
    rewrite normal_int by lia. destruct (Z.eqb_spec PRICETYPE_RRTB_CPC 0); [lia|]. apply safe_stoi_number. lia.
  - destruct byClick; cbn [from_option id]; unfold INT_MAX in *; lia.
  - exists b, l2. split_and!; try done; [destruct byClick; done|]. rewrite Hbl, Hlt. done.
Qed.

(** The condition of an own place leaves the brand and the scenario unset, which the client of the selection sends. *)
Lemma ssp_condition_unset `{UrlNames, AdxConst, ShowConst, UaConst, TaskConst, Base64, MapOrder, CryptoPP} e q b s c s' :
  ssp_condition e q b s = RVal c s' -> deviceBrand (of_client c) = None /\ scenario c = None.
Proof.
  unfold ssp_condition. rewrite bind_run. unfold lift. destruct (if b then _ else _) as [p| |]; [|done..]. rewrite !run_gets, bind_run.
  destruct (areaByIp _ _) as [g| |]; [|done..]. rewrite bind_run.
  destruct (sh_agent e); [destruct (params s !! ssp_name URL_SSP_USERAGENT); [destruct (urlDecode_f _ _)|]|]; try done; by intros [= <- _].
Qed.

(** ** Instances *)

Module ShowInstance.
#[local] Existing Instance literal_names.
#[local] Existing Instance literal_names_laws.
#[local] Existing Instance list_order.
#[local] Existing Instance list_order_laws.
#[local] Existing Instance base64_reference.
#[local] Existing Instance base64_reference_laws.
#[local] Existing Instance toy_crypto.
#[local] Existing Instance toy_users.
#[local] Existing Instance toy_const.
#[local] Existing Instance toy_adx.
#[local] Existing Instance toy_adx_laws.
#[local] Existing Instance toy_openssl.
#[local] Existing Instance toy_boost.
#[local] Existing Instance toy_aes.
#[local] Existing Instance toy_memory.
#[local] Existing Instance LogConcrete.log_const.
#[local] Instance no_avro : Avro := { avro_encode _ := [] }.

#[local] Instance show_const : ShowConst := {
  ssp_name k := match k with
                | URL_SSP_PID => str "ssp_pid" | URL_SSP_ADX_PID => str "ssp_apid" | URL_SSP_DEVICE => str "ssp_dev"
                | URL_SSP_PLATFORM => str "ssp_os" | URL_SSP_USERAGENT => str "ssp_ua" | URL_SSP_LONGITUDE => str "ssp_lon"
                | URL_SSP_LATITUDE => str "ssp_lat"
                end;
  OF_DSP := str "0"; OF_SSP := str "1"; OF_DSP_MOBILE_SHOW := str "2"; OF_DSP_MOBILE_LOG := str "3"; OF_SSP_MOBILE := str "4";
  ADX_MACRO_SUFFIX := []; BANNER_TYPE_PRIMITIVE := 5; BANNER_TYPE_VIDEO := 2; BANNER_TYPE_PIC := 1; BANNER_TYPE_MOBILE := 3;
  SOLUTION_FLOWTYPE_UNKNOWN := 0; SOLUTION_FLOWTYPE_MOBILE := 2; SOLUTION_FLOWTYPE_PC := 1; DEFAULT_PRODUCT_PACKAGE_ID := 1;
  SSP_DEVICE_UNKNOWN := str "0"; SSP_DEVICE_MOBILEPHONE := str "1"; SSP_DEVICE_PAD := str "2";
  SSP_PLATFORM_UNKNOWN := str "0"; SSP_PLATFORM_IOS := str "1"; SSP_PLATFORM_ANDROID := str "2"; SSP_PLATFORM_WINDOWSPHONE := str "3";
}.
#[local] Instance ua_const : UaConst := { os_id _ := 0; device_id _ := 0; brand_id _ := 0 }.

Definition the_banner : Banner := mkBanner 10326 12 (str "{}") 1 300 250 [] [].
Definition the_page : bytes := str "http://shop.cn/?a=1".
(** A parser that knows one creative, and a printer that shows the click url. *)
#[local] Instance one_creative : Json := {
  json_parse _ := JObj [(str "mtls", JArr [JObj [(str "p1", JStr the_page)]])];
  json_print v := get_text (str "clickurl") v;
}.

Definition show_params : ParamMap :=
  {[url_name URL_CREATIVE_ID := str "10326"; url_name URL_ADOWNER_ID := str "8"; url_name URL_AREA_ID := str "0086-110000-110100";
    url_name URL_EXEC_ID := str "10843"; url_name URL_ORDER_ID := str "77"; url_name URL_EXPOSE_ID := str "83ca1a"]}.
Definition the_answers : SelectResult :=
  mkResult (mkSolution 10843 8 3 []) the_banner (mkPlace 6636 (str "x") (adx_id ADX_SSP_PC) 3 4 0 20) 2 77 100 90
    (double_of_Z 1) (S754_zero false) (str "1.0").
Definition the_env : show_env :=
  mkShowEnv (mkTaskEnv [] false [] [] (str "1.2.3.4") [] 0 (0, 0) None [] false SEND_OK true 0%nat) [] (str "http://c.cn/c")
    (str "<%s>") (str "%s(%s)") (fun _ => (true, the_answers)) (fun _ => Some the_banner) (fun _ => Val 0)
    (fun _ => Val (str "0086-0-0")) (fun _ => Val (86, 0, 0)) (str "101") (7, 1000) 0 (Some true) (Some false) 3600.
Definition show_state : task_state :=
  mkState show_params show_log (mkResponse 200 [] ∅ [] [] false) true log_state0 [] [].
Definition the_base : URLHelper := mkURLHelper ∅ ∅ (str "http") (str "c.cn") [] (str "/c").
Abbreviation the_click := (click_helper (touched dsp_keys show_params) ([] ++ ADX_MACRO_SUFFIX) (flat_map encode_f_char the_page) the_base).

Lemma the_click_cipherable : cipherable the_click.
Proof.
  constructor.
  - by_decide.
  - repeat constructor; vm_compute; congruence.
  - apply map_Forall_empty.
  - vm_compute. discriminate.
  - vm_compute. lia.
  - intros []; discriminate.
Qed.

Definition shown_log : LogItem := match parse_ids show_params show_log with Val l => l | _ => show_log end.

Lemma show_then_click_witness :
  exists s' m2 l2, show_customLogic the_env show_state = RVal tt s'
    /\ body (resp s') = str "<" ++ (url_prefix the_click ++ str "?" ++ cipher_text the_click) ++ str ">"
    /\ query_params CLICK (cipher_text the_click) = Val m2 /\ parse_ids (filterParamMapSafe m2) show_log = Val l2
    /\ landingUrl (adInfo l2) = the_page /\ click_ad (adInfo l2) (adInfo shown_log).
Proof.
  apply (show_then_click the_env show_state the_banner 10326 [] 0 the_base the_page
    (str "<" ++ (url_prefix the_click ++ str "?" ++ cipher_text the_click) ++ str ">") show_log show_log shown_log);
    first [by vm_compute | exact the_click_cipherable | by_decide | discriminate | reflexivity | (vm_compute; lia) | idtac].
  intros []; vm_compute; lia.
Defined.

Lemma dsp_impression_cases_witness :
  exists s', show_customLogic the_env (mkState (<[url_name URL_IMP_OF := str "3"]> show_params) show_log (mkResponse 200 [] ∅ [] [] false)
      true log_state0 [] []) = RVal tt s'
    /\ db s' = [DbIncr (str "order-counter") (str "0") (str "s")].
Proof.
  pose proof (dsp_impression_cases the_env (mkState (<[url_name URL_IMP_OF := str "3"]> show_params) show_log
    (mkResponse 200 [] ∅ [] [] false) true log_state0 [] [])) as E.
  destruct E as (s' & E & _ & _ & Ed); [by vm_compute|]. exists s'. split; [exact E|]. rewrite Ed. by vm_compute.
Defined.
(** A place bought by clicks, with a solution settled by impressions. *)
Definition the_selection : SelectResult :=
  mkResult (mkSolution 10843 8 1 []) the_banner (mkPlace 6636 (str "x") (adx_id ADX_SSP_PC) 3 4 2 20) 2 77 100 90
    (double_of_Z 1) (S754_zero false) (str "1.0").
Definition ssp_url : URLHelper :=
  match ssp_click_url the_env the_selection (str "0086-0-0") (str "i1") the_page with Val h => h | _ => empty_helper end.
Definition ssp_click_log : LogItem :=
  mkLog 0 CLICK 302 1 [] [] [] [] (mkGeo 0 0 0)
    (mkAd [] 0 0 0 0 [] (adx_id ADX_SSP_PC) 0 [] [] [] [] 1 0 0 (mkBilling 0 0 []) (mkSelect 0 0 0 [] 0 [])) 0 0 [] 0 trace0 flow0.

Lemma ssp_url_cipherable : cipherable ssp_url.
Proof.
  constructor.
  - by_decide.
  - repeat constructor; vm_compute; congruence.
  - by_decide.
  - vm_compute. discriminate.
  - vm_compute. lia.
  - intros []; discriminate.
Qed.

Lemma ssp_booked_once_witness :
  exists b l2, ssp_bill the_selection (mkBilling 0 0 []) = Val b
    /\ parse_price (filterParamMapSafe (recovered ssp_url)) ssp_click_log = Val l2
    /\ cost b = 0 /\ cost (bill (adInfo l2)) = 2000000 /\ bidPrice b = 90 /\ bidPrice (bill (adInfo l2)) = 0.
Proof.
  destruct (ssp_booked_once the_env the_selection (str "0086-0-0") (str "i1") the_page the_base ssp_url ADX_SSP_PC ssp_click_log)
    as (b & l2 & Eb & El & Hc1 & Hc2 & Hb1 & Hb2);
    [by vm_compute|reflexivity|reflexivity|by vm_compute|exact ssp_url_cipherable|by apply Nat.leb_le| |cbn; unfold INT_MAX; lia
    |cbn; unfold INT_MAX; lia|cbn; lia|by left|reflexivity|by left|reflexivity|reflexivity|reflexivity|reflexivity|].
  - intros []; apply Nat.leb_le; by vm_compute.
  - exists b, l2. split; [exact Eb|]. split; [exact El|]. split; [exact Hc1|]. split; [exact Hc2|]. split; [exact Hb1|exact Hb2].
Defined.
End ShowInstance.
