(* ===== verification/BidBase.v ===== *)
(** * BidBase: the state a bidding handler keeps (protocol/base/abstract_bidding_handler.cpp, protocol/base/abstract_bidding_handler.h)

    The members of [AbstractBiddingHandler] and what the handlers of all exchanges share: the ad a
    bid was built from, the flow it came from, the user it was mapped to, and the log item of a
    round.  The asynchronous requests to the database that a handler sent are kept in its state.

    The clocks and random numbers of one round are the arguments of [round_clock]. *)
From Stdlib Require Import SpecFloat.
From S2P Require Import Prelude CString UrlCodec UrlParams Cypher UrlHelper Rijndael RijndaelProofs SohuPrice Template.
From S2P Require Import LogPusher Double PriceDecode Pricing Http QueryTask ClickTask CookieMapping TraceTask BidUrl UserClient AdSelect ShowTask.

(** ** State *)

(** [devInfo] without its [deviceID], which is [ex_deviceID]. *)
Record BiddingFlowExtraInfo := mkExtra {
  ex_mediaType : Z; ex_flowType : Z; ex_keyWords : bytes; ex_deviceIds : ParamMap; ex_dealIds : list bytes;
  ex_contentType : list Z; ex_devInfo : DeviceInfo; ex_deviceID : bytes; ex_feeRate : double; ex_feerRateDetails : bytes;
}.

Record base := mkBase {
  isBidAccepted : bool; base_ad : AdInfo; extra : BiddingFlowExtraInfo; cmInfo : BidCookieMappingInfo; sent : list as_request;
}.

Definition set_accepted (b : bool) (h : base) : base := mkBase b (base_ad h) (extra h) (cmInfo h) (sent h).
Definition set_base_ad (a : AdInfo) (h : base) : base := mkBase (isBidAccepted h) a (extra h) (cmInfo h) (sent h).
Definition set_extra (x : BiddingFlowExtraInfo) (h : base) : base := mkBase (isBidAccepted h) (base_ad h) x (cmInfo h) (sent h).
Definition set_cm (c : BidCookieMappingInfo) (h : base) : base := mkBase (isBidAccepted h) (base_ad h) (extra h) c (sent h).
Definition send_requests (q : list as_request) (h : base) : base := mkBase (isBidAccepted h) (base_ad h) (extra h) (cmInfo h) (sent h ++ q).

Definition bidFailedReturn (h : base) : base := set_accepted false h.
Definition bidSuccessReturn (h : base) : base := set_accepted true h.

(** What the urls are made of, and the members that writing them changes. *)
Definition info_of (h : base) : bid_info :=
  mkBid (base_ad h) (cid (select (base_ad h))) (ad_offerPrice (select (base_ad h))) (ex_flowType (extra h)) (ex_deviceIds (extra h))
    (ex_feeRate (extra h)) (ex_feerRateDetails (extra h)) (userMapping (cmInfo h)).
Definition put_info (b : bid_info) (h : base) : base :=
  let x := extra h in let c := cmInfo h in
  set_cm (mkInfo (queryKV c) (bid_user b) (needReMapping c) (needTouchMapping c) (needFixMapping c))
    (set_extra (mkExtra (ex_mediaType x) (ex_flowType x) (ex_keyWords x) (deviceIds b) (ex_dealIds x) (ex_contentType x) (ex_devInfo x)
       (ex_deviceID x) (ex_feeRate x) (ex_feerRateDetails x)) h).

(** The time of the impression id and of a new user in milliseconds, that of the show url in seconds,
    the random numbers of a process without id, and what the buffer of [randomId] holds. *)
Record round_clock := mkClock { ms_imp : Z; ms_user : Z; secs : Z; rand_user : Z; rands_imp : list Z; rand_buffer : bytes }.

(** [mtls.get(key, d)] *)
Definition get_or (k d : bytes) (v : json) : bytes :=
  match v with JObj ms => match assoc k ms with Some (JStr s) => s | _ => d end | _ => d end.

Section base.
Context `{UrlNames, MapOrder, Base64, CryptoPP, UserIds, Snippets, CmConst, RecordStore, DeviceOrder}.

(** ** The flow *)

Definition buildFlowExtraInfo (c : AdSelectCondition) (x : BiddingFlowExtraInfo) : BiddingFlowExtraInfo :=
  let p := at_place c in let d := of_client c in let ids := cond_ids d in
  let m := insert_new (url_name URL_DEVICE_ANDOROIDID) (androidId ids)
             (insert_new (url_name URL_DEVICE_IMEI) (imei ids) (insert_new (url_name URL_DEVICE_IDFA) (idfa ids) ∅)) in
  mkExtra (cond_mediaType p) (cond_flowType d) (ex_keyWords x)
    (if bool_decide (mac ids = str "02:00:00:00:00:00") then m else insert_new (url_name URL_DEVICE_MAC) (mac ids) m)
    (if bool_decide (cond_dealId p = []) then [] else [cond_dealId p]) [mttyContentType p]
    (mkDevice (cond_flowType d) (cond_mobileDevice d) (mobileNetwork d) (cond_pcOS d)
       (if bool_decide (deviceMaker d = []) then mobileModel d else deviceMaker d))
    [] one (ex_feerRateDetails x).

(** ** The ad of a bid *)

Definition impression_id (uniqueIdSeq : Z) (k : round_clock) : outcome bytes :=
  tail ← (if uniqueIdSeq =? 0 then randomId 1 (rands_imp k) (rand_buffer k) else Val (to_string (Z.land uniqueIdSeq 0x7FFF)));
  Val (to_string (ms_imp k) ++ tail).

(** A rate of at most one is not believed. *)
Definition fee_rate (r : SelectResult) : double := let x := dadd one (final_rate r) in if dle x one then one else x.

Definition bid_ad_info (c : AdSelectCondition) (r : SelectResult) (adxUser area imp : bytes) (a : AdInfo) : AdInfo :=
  let s := res_solution r in let p := res_place r in let b := res_banner r in
  mkAd area (sol_advId s) (sol_advId s) (sol_sId s) (bId b) (clickId a) (cond_adxid (at_place c)) (pl_mId p)
    (to_string (pl_pId p)) imp (landingUrl a) (cond_adxpid (at_place c)) (sol_priceType s) (res_ppid r) (res_orderId r) (bill a)
    (mkSelect (pl_cId p) (res_bidPrice r) (cond_basePrice (at_place c)) adxUser (res_feePrice r) (makeBidSize (width b) (height b))).

(** [area] is [IpManager::getAreaCodeStrByIp]. *)
Definition fillAdInfo (area : bytes -> outcome bytes) (uniqueIdSeq : Z) (k : round_clock) (c : AdSelectCondition) (r : SelectResult)
    (adxUser : bytes) (h : base) : outcome base :=
  let s := res_solution r in
  areaId ← area (c_str (cond_ip c));
  imp ← impression_id uniqueIdSeq k;
  let x := buildFlowExtraInfo c (extra h) in
  deviceId ← urlEncode_f (ex_deviceID x) 1024;
  let deals := if negb (bool_decide (cond_dealId (at_place c) = [])) && negb (bool_decide (sol_dDealId s = str "0"))
               then [sol_dDealId s] else ex_dealIds x in
  Val (set_extra (mkExtra (ex_mediaType x) (ex_flowType x) (ex_keyWords x) (ex_deviceIds x) deals (ex_contentType x) (ex_devInfo x)
         deviceId (fee_rate r) (cost_detail r))
       (set_base_ad (bid_ad_info c r adxUser areaId imp (base_ad h)) h)).

(** ** The user of a bid *)

(** [queryCookieMapping(cmInfo.queryKV, condition)]. *)
Definition query_user (disabled : bool) (d : store) (a : read_answer) (mtUserId : bytes) (h : base) : base * bytes :=
  let '(c, u) := queryCookieMapping disabled d a mtUserId (cmInfo h) in (set_cm c h, u).

Definition redo_mapping (uniqueIdSeq : Z) (k : round_clock) (adxId : Z) (url : bytes) (h : base) : bytes * base :=
  let '(u, c, q) := redoCookieMapping uniqueIdSeq (rand_user k) (ms_user k) adxId url (cmInfo h) in
  (u, send_requests q (set_cm c h)).

(** ** Urls *)

(** [url_config] of the process. *)
Record UrlConfig := mkUrls { sslShowUrl : bytes; nonSSLShowUrl : bytes; sslClick : bytes; nonSSLClickUrl : bytes }.
Definition getShowBaseUrl (u : UrlConfig) (ssl : bool) : bytes := if ssl then sslShowUrl u else nonSSLShowUrl u.
Definition getClickBaseUrl (u : UrlConfig) (ssl : bool) : bytes := if ssl then sslClick u else nonSSLClickUrl u.

Definition show_para (k : round_clock) (h : base) (url : URLHelper) : base * URLHelper :=
  let '(b, url) := getShowPara (info_of h) (secs k) url in (put_info b h, url).
Definition click_para (h : base) (ref landing : bytes) (url : URLHelper) : outcome (base * URLHelper) :=
  '(b, url) ← getClickPara (info_of h) ref landing url; Val (put_info b h, url).

(** [prefix + "?" + url.cipherParam()] *)
Definition ciphered_at (prefix : bytes) (url : URLHelper) : outcome bytes :=
  '(text, _) ← cipherParam url; Val (prefix ++ str "?" ++ text).

(** ** Video *)

Definition prepareVast (te : TemplateEngine) (width height : Z) (mtls : json) (tvm cm : bytes) : outcome bytes :=
  let duration := number (get_or (str "p17") (str "15") mtls) in
  let pm := foldl (fun m '(k, v) => insert_new (str k) v m) (∅ : ParamMap)
    [ ("title", get_text (str "p0") mtls); ("impressionUrl", tvm); ("duration", durationStr duration); ("clickThrough", cm);
      ("bitrate", str "300"); ("videoWidth", to_string width); ("videoHeight", to_string height);
      ("videoUrl", get_text (str "p16") mtls); ("endcard", get_text (str "p6") mtls) ]%string in
  bindFast te pm.

(** ** The log item of a round *)

Definition commas (ks : list bytes) : bytes := flat_map (fun k => k ++ str ",") ks.

(** What a lost round logs of its place, with [adInfo] cleared before. *)
Definition lost_ad (c : AdSelectCondition) : AdInfo :=
  let p := at_place c in
  mkAd [] 0 0 0 0 [] (cond_adxid p) 0 (to_string (cond_mttyPid p)) [] [] (cond_adxpid p) 0 0 0 (mkBilling 0 0 [])
    (mkSelect 0 0 (cond_basePrice p) [] 0 (makeBidSize (cond_width p) (cond_height p))).

Definition won_ad (c : AdSelectCondition) (b a : AdInfo) : AdInfo :=
  mkAd (areaId b) (advId b) (cpid b) (sid b) (bannerId b) (clickId a) (cond_adxid (at_place c)) (mid b) (pid b) (imp_id b)
    (landingUrl a) (adxpid b) (priceType b) (ppid b) (orderId b) (bill a)
    (mkSelect (cid (select b)) (bidEcpmPrice (select b)) (cond_basePrice (at_place c)) (ad_adxuid (select b)) (ad_offerPrice (select b))
       (ad_bidSize (select b))).

(** [fillSpecificLog] is the handler's. *)
Definition fillLogItem (fillSpecificLog : AdSelectCondition -> LogItem -> bool -> base -> outcome (bool * LogItem * base)) (c : AdSelectCondition)
    (l : LogItem) (isAccepted : bool) (h : base) : outcome (bool * LogItem * base) :=
  let h := if isAccepted then h else set_extra (buildFlowExtraInfo c (extra h)) h in
  let x := extra h in
  let f := flow l in
  let user := if bool_decide (um_userId (userMapping (cmInfo h)) = []) then userId l else um_userId (userMapping (cmInfo h)) in
  let types := if mttyContentType (at_place c) =? 0 then contentTypes f else contentTypes f ++ [mttyContentType (at_place c)] in
  let keys := if bool_decide (keywords (at_place c) = []) then keyWords f else commas (keywords (at_place c)) in
  geo ← (if isAccepted then extractAreaInfo (areaId (base_ad h)) else Val (country (geoInfo l), province (geoInfo l), city (geoInfo l)));
  let '(x1, x2, x3) := geo in
  let l := mkLog (timeStamp l) (logType l) 200 (reqMethod l) (proxy l) (referer l) user (userAgent l) (mkGeo x1 x2 x3)
             (if isAccepted then won_ad c (base_ad h) (adInfo l) else lost_ad c) (clickx l) (clicky l) (ex_deviceID x) (traceId l) (traceInfo l)
             (mkFlow (ex_dealIds x) keys (if isAccepted then ex_mediaType x else mediaType f) (if isAccepted then ex_contentType x else types)
                (ex_devInfo x) (deviceInfo f)) in
  fillSpecificLog c l isAccepted h.

(** What the handlers read of the process: the areas of addresses, its id, the clocks of the rounds,
    the urls, the mapping database with its answer, and the template of creatives. *)
Record handler_env := mkHandlerEnv {
  area_code : bytes -> outcome bytes; uniqueIdSeq : Z; clock : Z -> round_clock; urlConfig : UrlConfig;
  disabledCookieMapping : bool; mapping_store : store; mapping_answer : read_answer; creative_template : bytes;
}.
End base.

(** [boost::lexical_cast<int>]: the whole text is a number of the type. *)
Definition lexical_int (s : bytes) : outcome Z :=
  let '(neg, ds) := match s with
                    | c :: t => if c =? ch "-" then (true, t) else if c =? ch "+" then (false, t) else (false, s)
                    | [] => (false, [])
                    end in
  let v := signed_value neg ds in
  if negb (bool_decide (ds = [])) && forallb is_digit ds && (INT_MIN <=? v) && (v <=? INT_MAX) then Val v else Exc BadCast.

(** [boost::algorithm::to_upper] in the locale of the process, "C". *)
Definition upper_char (c : Z) : Z := if (97 <=? c) && (c <=? 122) then c - 32 else c.
Definition upper (s : bytes) : bytes := map upper_char s.

(** Networks of mtty/constants.h. *)
Inductive network_name : Set :=
| SOLUTION_NETWORK_ALL | SOLUTION_NETWORK_WIFI | SOLUTION_NETWORK_2G | SOLUTION_NETWORK_3G | SOLUTION_NETWORK_4G | SOLUTION_NETWORK_OTHER.
Inductive provider_name : Set :=
| SOLUTION_NETWORK_PROVIDER_ALL | SOLUTION_NETWORK_PROVIDER_CHINAMOBILE | SOLUTION_NETWORK_PROVIDER_CHINAUNICOM
| SOLUTION_NETWORK_PROVIDER_CHINATELECOM.
Class NetConst := { network_id : network_name -> Z; provider_id : provider_name -> Z }.

(** [MT::common::stoi_safe] *)
Class MtCommon := { stoi_safe : bytes -> Z }.

(** [snprintf] into a buffer that is read as a C text. *)
Definition printed_c (cap : nat) (text : bytes) : bytes := c_str (take (cap - 1) text).

(** ** What several handlers do alike *)

Section shared.
Context `{CryptoPP, ShowConst, UaConst, Json}.

Definition is_ios (c : AdSelectCondition) : bool :=
  let d := cond_mobileDevice (of_client c) in (d =? device_id SOLUTION_DEVICE_IPHONE) || (d =? device_id SOLUTION_DEVICE_IPAD).

Definition upper_ids (d : device_ids) : device_ids := mkIds (upper (idfa d)) (upper (imei d)) (upper (androidId d)) (upper (mac d)).
Definition md5_ids (d : device_ids) : device_ids :=
  mkIds (md5_encode (idfa d)) (md5_encode (imei d)) (md5_encode (androidId d)) (md5_encode (mac d)).

Definition set_place_adx (a : Z) (pid : bytes) (content : Z) (p : cond_place) : cond_place :=
  mkCondPlace pid (cond_mttyPid p) a (cond_basePrice p) (cond_width p) (cond_height p) (cond_bannerType p) content (cond_mediaType p)
    (cond_dealId p) (keywords p) (adplaceInfo p) (requiredCreativeLevel p).

(** The creative of a mobile page; [macro] is that of the click. *)
Definition page_json (macro : bytes) (c : AdSelectCondition) (r : SelectResult) (a : AdInfo) (clickUrl : bytes) (ad : json) : json :=
  let text n v ad := set_member (str n) (JStr v) ad in
  let num n v ad := set_member (str n) (JNum (double_of_Z v)) ad in
  let s := res_solution r in
  let ad := text "arid" (areaId a) (text "adxpid" (adxpid a) (num "advid" (sol_advId s) ad)) in
  let ad := num "ppid" (ppid a) (text "pid" (pid a) (num "gpid" (sol_sId s) ad)) in
  let ad := num "unid" (adxid a) (num "pricetype" (priceType a) (num "price" (ad_offerPrice (select a)) ad)) in
  let ad := num "height" (height (res_banner r)) (num "width" (width (res_banner r)) (text "of" (str "0") ad)) in
  let ad := set_member (str "rs") (JBool (cond_flowType (of_client c) =? SOLUTION_FLOWTYPE_MOBILE)) (text "xcurl" macro ad) in
  text "clickurl" clickUrl ad.

End shared.

(** ** Properties *)

Section log.
Context `{UrlNames, CmConst, RecordStore}.
Context (specific : AdSelectCondition -> LogItem -> bool -> base -> outcome (bool * LogItem * base)).
Context (Hspecific : forall c l a h, exists l' h', specific c l a h = Val (true, l', h') /\ adInfo l' = adInfo l /\ contentTypes (flow l') = contentTypes (flow l)).

(** A lost round is logged with its place alone: the media owner that the task has set before is erased. *)
Lemma lost_mid_erased c l h :
  exists l' h', fillLogItem specific c l false h = Val (true, l', h') /\ adInfo l' = lost_ad c /\ mid (adInfo l') = 0.
Proof.
  unfold fillLogItem. cbn [mbind outcome_bind]. match goal with |- context [specific c ?x false ?b] => destruct (Hspecific c x false b) as (l' & h' & -> & E & _) end.
  do 2 eexists. split; [done|]. rewrite E. done.
Qed.

(** The content types of lost rounds pile up in the log item of the request. *)
Lemma lost_types_pile_up c l h :
  mttyContentType (at_place c) <> 0 ->
  exists l' h', fillLogItem specific c l false h = Val (true, l', h')
    /\ contentTypes (flow l') = contentTypes (flow l) ++ [mttyContentType (at_place c)].
Proof.
  intros Ht. unfold fillLogItem. cbn [mbind outcome_bind].
  match goal with |- context [specific c ?x false ?b] => destruct (Hspecific c x false b) as (l' & h' & -> & _ & E) end.
  do 2 eexists. split; [done|]. rewrite E. cbn [flow contentTypes]. by rewrite (proj2 (Z.eqb_neq _ _) Ht).
Qed.
End log.

(** *** Urls *)

(** [H] says that a sequence returned: [x] is what its first step returned. *)
Ltac bind_in H x E := apply bind_Val_iff in H as (x & E & H); cbn beta iota in H.

Section urls.
Context `{Names : UrlNames} `{!UrlNamesLaws Names} `{!UrlLiterals Names} `{MapOrderLaws} `{Base64Laws}.
Context `{CryptoPP} `{Aes} `{UserIds} `{TaskConst}.

Lemma touch_lookup (m : ParamMap) k k' : default [] (touch k m !! k') = default [] (m !! k').
Proof.
  unfold touch. destruct (m !! k) eqn:E; [done|]. destruct (decide (k = k')) as [<-|Hk].
  - by rewrite lookup_insert_eq, E.
  - by rewrite lookup_insert_ne.
Qed.

(** Writing a url leaves what the next one is made of. *)
Lemma show_fields_kept b b' tm :
  bid_ad b' = bid_ad b -> bid_cid b' = bid_cid b -> bid_offerPrice b' = bid_offerPrice b -> bid_flowType b' = bid_flowType b ->
  feeRate b' = feeRate b -> feerRateDetails b' = feerRateDetails b -> (forall k, device b' k = device b k) ->
  fst (cypherUid (bid_user b')) = fst (cypherUid (bid_user b)) -> show_fields b' tm = show_fields b tm.
Proof. intros E1 E2 E3 E4 E5 E6 E7 E8. unfold show_fields. by rewrite E1, E2, E3, E4, E5, E6, !E7, E8. Qed.

Lemma cypherUid_cached u : fst (cypherUid (snd (cypherUid u))) = fst (cypherUid u).
Proof.
  unfold cypherUid at 2 3. destruct (bool_decide (cypherUserId u = [])) eqn:E; cbn [snd fst]; [|unfold cypherUid; by rewrite E].
  destruct (isValid (uid_of_text (um_userId u))) eqn:V; unfold cypherUid; cbn [cypherUserId um_userId].
  - rewrite V. by match goal with |- context [if ?b then _ else _] => destruct b end.
  - by rewrite E, V.
Qed.

Lemma touched_device b u k : device (touch_devices (with_user u b)) k = device b k.
Proof. unfold device, touch_devices, device_keys. cbn [with_devices deviceIds with_user foldl]. by rewrite !touch_lookup. Qed.

Lemma shown_fields_kept b tm tm' url : show_fields (fst (getShowPara b tm url)) tm' = show_fields b tm'.
Proof.
  unfold getShowPara. destruct (cypherUid (bid_user b)) as [u user] eqn:E. cbn [fst].
  apply show_fields_kept; try done; [intros k; apply touched_device|].
  cbn [touch_devices with_devices with_user bid_user]. replace user with (snd (cypherUid (bid_user b))) by (by rewrite E).
  apply cypherUid_cached.
Qed.

(** The urls are made of the same ad. *)
Definition same_urls (h h' : base) : Prop := base_ad h' = base_ad h /\ forall tm, show_fields (info_of h') tm = show_fields (info_of h) tm.

Lemma same_urls_trans h1 h2 h3 : same_urls h1 h2 -> same_urls h2 h3 -> same_urls h1 h3.
Proof. intros [A1 A2] [B1 B2]. split; [by rewrite B1|]. intros tm. by rewrite B2. Qed.

Lemma click_para_kept h ref landing url h' url' : click_para h ref landing url = Val (h', url') -> same_urls h h'.
Proof.
  unfold click_para. intros E. bind_in E x E1. destruct x as [b u]. injection E as <- <-.
  unfold getClickPara in E1. bind_in E1 e1 E2. bind_in E1 e2 E3. injection E1 as <- <-.
  split; [done|]. intros tm. apply show_fields_kept; try done. intros k.
  change (device (touch_devices (with_user (bid_user (info_of h)) (info_of h))) k = device (info_of h) k). apply touched_device.
Qed.

Lemma show_para_kept k h h' url :
  show_para k h empty_helper = (h', url) -> same_urls h h' /\ url = show_url (info_of h') (secs k).
Proof.
  unfold show_para. destruct (getShowPara (info_of h) (secs k) empty_helper) as [b u] eqn:Eg. intros [= <- <-].
  assert (same_urls h (put_info b h)) as Hs.
  { split; [done|]. intros tm. rewrite <- (shown_fields_kept (info_of h) (secs k) tm empty_helper), Eg. cbn [fst].
    assert (b = touch_devices (with_user (bid_user b) (info_of h))) as ->.
    { unfold getShowPara in Eg. destruct (cypherUid _) as [u' user]. by injection Eg as <- _. }
    by apply show_fields_kept. }
  split; [done|]. unfold show_url. by rewrite getShowPara_fields, (proj2 Hs), <- getShowPara_fields, Eg.
Qed.

Lemma won_same c r user area imp a0 a1 a :
  same_ad a (bid_ad_info c r user area imp a0) -> same_ad a (won_ad c (bid_ad_info c r user area imp a0) a1).
Proof. intros S. unfold same_ad in *. cbn in *. tauto. Qed.
(** What the report of an impression needs: the url with the price the exchange puts in place of
    [macro] fits its buffers and the checks of the codec, and the ids of the ad are in their ranges. *)
Record reportable (b : bid_info) (tm : Z) (macro price : bytes) (geo : Z * Z * Z) : Prop := {
  rp_cipherable : cipherable (monitor_url b tm (str "3") price);
  rp_short : (length (cipher_text (monitor_url b tm (str "3") macro)) < 2048)%nat;
  rp_order : order_by_keys (url_name URL_EXCHANGE_PRICE) macro price
    {[MACRO_HOLDER := hex_string (check_word (UrlHelper.add (url_name URL_IMP_OF) (str "3") (show_url b tm)))]};
  rp_plain : Forall (fun c => c <> 0 /\ c <> ch "&") (macro_text (enum (checked_macros (monitor_url b tm (str "3") price))));
  rp_name : url_name URL_EXCHANGE_PRICE <> ENCODE_HOLDER;
  rp_bid : bid_ok b;
  rp_fields : Forall (fun f => (length f.2 <= URL_LONG_INPUT_PARAMETER)%nat) (show_fields b tm);
  rp_price : (length price <= URL_LONG_INPUT_PARAMETER)%nat;
  rp_area : extractAreaInfo (areaId (bid_ad b)) = Val geo;
}.

(** The impression that [query] reports is logged with the ad [a] and the area [g], and finds [price]. *)
Definition reports (query : bytes) (l : LogItem) (a : AdInfo) (g : GeoInfo) (price : bytes) : Prop :=
  exists m ls, query_params SHOW query = Val m /\ parse_ids (filterParamMapSafe m) l = Val ls
    /\ same_ad (adInfo ls) a /\ geoInfo ls = g /\ filterParamMapSafe m !! url_name URL_EXCHANGE_PRICE = Some price.

Lemma monitor_reports b tm macro price x y z l t u :
  reportable b tm macro price (x, y, z) -> adInfo l = ad0 -> cipherParam (monitor_url b tm (str "3") macro) = Val (t, u) ->
  exists pre post, t = pre ++ macro ++ post /\ t = cipher_text (monitor_url b tm (str "3") macro) /\ reports (pre ++ price ++ post) l (bid_ad b) (mkGeo x y z) price.
Proof.
  intros [Hc Hq Ho Hm Hn Hok Hs Hl Hx] Hl0 Ht. set (h0 := UrlHelper.add (url_name URL_IMP_OF) (str "3") (show_url b tm)) in *.
  destruct (cipherParam_macro h0 (url_name URL_EXCHANGE_PRICE) macro price Hc Hq (c_holder _ Hc _)) as (pre & post & u' & Ec & Et & Em).
  { assert (macroParamMap h0 = ∅) as -> by (unfold h0, UrlHelper.add; cbn [with_params macroParamMap]; apply show_url_macros). exact Ho. }
  change (addMacro (url_name URL_EXCHANGE_PRICE) macro h0) with (monitor_url b tm (str "3") macro) in Ec.
  rewrite Ht in Ec. injection Ec as -> _. change (cipher_text (monitor_url b tm (str "3") price) = pre ++ price ++ post) in Et.
  destruct (reads_ids b _ l x y z Hok (shown_reads b tm _ _ (monitor_carries b tm (str "3") price Hc) Hs price_keys_overlay Hok) Hx Hl0)
    as (ls & Els & Hsame & Hgeo & _).
  exists pre, post. split; [done|]. split; [symmetry; exact Em|]. exists (recovered (monitor_url b tm (str "3") price)), ls.
  split; [rewrite <- Et; by apply monitor_query|]. split; [done|]. split; [done|]. split; [done|].
  apply filter_short; [by apply monitor_price|done].
Qed.
End urls.

(** *** The log of a won round *)

Lemma fillLogItem_won `{UrlNames, CmConst, RecordStore} specific c l h x y z :
  extractAreaInfo (areaId (base_ad h)) = Val (x, y, z) ->
  exists l', BidBase.fillLogItem specific c l true h = specific c l' true h
    /\ adInfo l' = won_ad c (base_ad h) (adInfo l) /\ geoInfo l' = mkGeo x y z.
Proof. intros Hx. unfold fillLogItem. rewrite Hx. cbn [mbind outcome_bind]. by eexists. Qed.
