(* ===== verification/BidReport.v ===== *)
(** * BidReport: what the handlers of several exchanges write alike (protocol/tanx/tanx_bidding_handler.cpp, protocol/360/360max_bidding_handler.cpp)

    The handlers of Tanx and 360 repeat the same code around the macros of their exchange: the url
    that reports an impression, the click url, the snippet with the image of the cookie mapping, the
    log fields of a mobile device, and the names of networks.  It is modelled once, with the macros
    as arguments.  The last part reads back the parameters that Sohu and Tencent put into urls of
    their own. *)
From Stdlib Require Import SpecFloat.
From S2P Require Import Prelude CString UrlCodec UrlParams Cypher UrlHelper Rijndael RijndaelProofs SohuPrice Template.
From S2P Require Import LogPusher Double PriceDecode Pricing Http QueryTask ClickTask CookieMapping TraceTask BidUrl UserClient AdSelect ShowTask.
From S2P Require Import BidBase.

(** [!strcasecmp(s.c_str(), t)] *)
Definition same_letters (s : bytes) (t : string) : bool := bool_decide (map to_lower (c_str s) = map to_lower (str t)).

(** ** Networks *)

Definition getNetWork (network : Z) : network_name :=
  if network =? 0 then SOLUTION_NETWORK_ALL
  else if network =? 1 then SOLUTION_NETWORK_WIFI
  else if network =? 2 then SOLUTION_NETWORK_2G
  else if network =? 3 then SOLUTION_NETWORK_3G
  else if network =? 4 then SOLUTION_NETWORK_4G
  else SOLUTION_NETWORK_ALL.

Definition getNetworkProvider (isp : Z) : provider_name :=
  if isp =? 0 then SOLUTION_NETWORK_PROVIDER_ALL
  else if isp =? 1 then SOLUTION_NETWORK_PROVIDER_CHINAMOBILE
  else if isp =? 2 then SOLUTION_NETWORK_PROVIDER_CHINAUNICOM
  else if isp =? 3 then SOLUTION_NETWORK_PROVIDER_CHINATELECOM
  else SOLUTION_NETWORK_PROVIDER_ALL.

(** ** Answers *)

Definition octets (t : bytes) (r : HttpResponse) : HttpResponse :=
  set_body t (set_content_header (str "application/octet-stream") (status 200 [] r)).

(** The same for the exchanges that want another type. *)
Definition x_protobuf (t : bytes) (r : HttpResponse) : HttpResponse :=
  set_body t (set_content_header (str "application/x-protobuf") (status 200 [] r)).

(** ** Log items *)

Definition set_adxid (i : Z) (a : AdInfo) : AdInfo :=
  mkAd (areaId a) (advId a) (cpid a) (sid a) (bannerId a) (clickId a) i (mid a) (pid a) (imp_id a)
    (landingUrl a) (adxpid a) (priceType a) (ppid a) (orderId a) (bill a) (select a).

(** [adx] is the mobile exchange, [dev] the text of the device of an accepted mobile request. *)
Definition exchange_log (adx : Z) (ip url ua : bytes) (dev : option bytes) (l : LogItem) (h : base) : outcome (bool * LogItem * base) :=
  let f := flow l in
  let log a d :=
    mkLog (timeStamp l) (logType l) (reqStatus l) (reqMethod l) ip url (userId l)
      ua (geoInfo l) a (clickx l) (clicky l) (deviceID l) (traceId l) (traceInfo l)
      (mkFlow (dealIds f) (keyWords f) (mediaType f) (contentTypes f) (log_device f) d) in
  Val (match dev with
       | Some d => (true, log (set_adxid adx (adInfo l)) d, set_base_ad (set_adxid adx (base_ad h)) h)
       | None => (true, log (adInfo l) (deviceInfo f), h)
       end).

Section urls.
Context `{UrlNames, MapOrder, Base64, CryptoPP, UserIds, Snippets, CmConst, RecordStore, DeviceOrder}.
Context (e : handler_env).

(** ** Urls *)

(** [show.add(URL_IMP_OF, "3"); show.addMacro(URL_EXCHANGE_PRICE, macro)] *)
Definition reporting (macro : bytes) (url : URLHelper) : URLHelper :=
  addMacro (url_name URL_EXCHANGE_PRICE) macro (UrlHelper.add (url_name URL_IMP_OF) (str "3") url).

(** The url that reports an impression. *)
Definition report_at (https : bool) (macro : bytes) (k : round_clock) (h : base) : outcome (base * bytes) :=
  let '(h, url) := show_para k h empty_helper in
  text ← ciphered_at (getShowBaseUrl (urlConfig e) https) (reporting macro url);
  Val (h, text).

(** The same, written with [snprintf(feedbackUrl, 2048, "%s?%s", ...)]. *)
Definition feedback_text (https : bool) (params : bytes) : bytes :=
  printed_c 2048 (c_str (getShowBaseUrl (urlConfig e) https) ++ str "?" ++ c_str params).
Definition feedback (https : bool) (macro : bytes) (k : round_clock) (h : base) : outcome (base * bytes) :=
  let '(h, url) := show_para k h empty_helper in
  '(text, _) ← cipherParam (reporting macro url);
  Val (h, feedback_text https text).

Definition click_at (https : bool) (landing : bytes) (h : base) : outcome (base * bytes) :=
  '(h, url) ← click_para h [] landing empty_helper;
  text ← ciphered_at (getClickBaseUrl (urlConfig e) https) url;
  Val (h, text).

(** ** Snippets *)

Definition quoted (s : bytes) : bytes := [34] ++ s ++ [34].
Definition cm_image (cookieMappingUrl : bytes) : bytes :=
  match cookieMappingUrl with
  | [] => []
  | _ => str "<img width=" ++ quoted (str "0") ++ str " height=" ++ quoted (str "0") ++ str " src="
         ++ quoted cookieMappingUrl ++ str "/>"
  end.

(** The base, the feedback url and the snippet; the helper is used for both urls. *)
Definition generate_cm_snippet (priceMacro clickMacro : bytes) (k : round_clock) (width height : Z) (cookieMappingUrl : bytes)
    (https : bool) (h : base) : outcome (base * bytes * bytes) :=
  let '(h, url) := show_para k h empty_helper in
  '(text, url) ← cipherParam (reporting priceMacro url);
  let feedbackUrl := feedback_text https text in
  let url := addMacro (url_name URL_ADX_MACRO) clickMacro
               (removeMacro (url_name URL_EXCHANGE_PRICE) (UrlHelper.add (url_name URL_IMP_OF) (str "2") url)) in
  '(text, _) ← cipherParam url;
  html ← printed 4096 (SNIPPET_IFRAME_SUPPORT_CM width height (c_str (getShowBaseUrl (urlConfig e) https)) [] (c_str text)
                         (c_str cookieMappingUrl));
  Val (h, feedbackUrl, html).
End urls.

(** ** Properties *)

(** The item of a won round, whose exchange is that of its place. *)
Lemma exchange_log_won `{UrlNames, CmConst, RecordStore} adx ip url ua dev c l h x y z :
  extractAreaInfo (areaId (base_ad h)) = Val (x, y, z) -> adxid (base_ad h) = cond_adxid (at_place c) ->
  (is_Some dev -> cond_adxid (at_place c) = adx) ->
  exists lb, BidBase.fillLogItem (fun c l a h => exchange_log adx (ip c) url ua (if a then dev else None) l h) c l true h = Val (true, lb, h)
    /\ adInfo lb = won_ad c (base_ad h) (adInfo l) /\ geoInfo lb = mkGeo x y z.
Proof.
  intros Hx Ha Hd.
  destruct (fillLogItem_won (fun c l a h => exchange_log adx (ip c) url ua (if a then dev else None) l h) c l h x y z Hx) as (l' & -> & Hla & Hlg).
  unfold exchange_log. destruct dev as [d|]; [|by eexists]. specialize (Hd ltac:(by eexists)).
  assert (set_base_ad (set_adxid adx (base_ad h)) h = h) as -> by (rewrite <- Hd, <- Ha; by destruct h as [? [] ? ? ?]).
  eexists. split; [done|]. cbn [adInfo geoInfo]. split; [|done]. rewrite Hla, <- Hd. by destruct (adInfo l).
Qed.

Section kept.
Context `{Names : UrlNames} `{!UrlNamesLaws Names} `{!UrlLiterals Names} `{MapOrderLaws} `{Base64Laws}.
Context `{CryptoPP} `{Aes} `{UserIds} `{TaskConst} `{Snippets, CmConst, RecordStore, DeviceOrder}.
Context (e : handler_env).

Lemma click_at_kept https landing h h' text : click_at e https landing h = Val (h', text) -> same_urls h h'.
Proof.
  unfold click_at. intros E. bind_in E x E1. destruct x as [h1 url]. bind_in E t E2. injection E as <- <-. by eapply click_para_kept.
Qed.

(** The base when the url of an impression is written. *)
Definition at_show (k : round_clock) (h : base) : base := fst (show_para k h empty_helper).

Lemma reporting_monitor macro k h h' url :
  show_para k h empty_helper = (h', url) -> same_urls h h' /\ reporting macro url = monitor_url (info_of h') (secs k) (str "3") macro.
Proof. intros E. apply show_para_kept in E as [Hs ->]. done. Qed.

(** The parameters [t] of the report of an impression. *)
Definition report_of (macro : bytes) (k : round_clock) (h : base) (t : bytes) : Prop :=
  exists u, cipherParam (monitor_url (info_of h) (secs k) (str "3") macro) = Val (t, u).

Lemma report_at_kept https macro k h h' text :
  report_at e https macro k h = Val (h', text) ->
  same_urls h h' /\ exists t, text = getShowBaseUrl (urlConfig e) https ++ str "?" ++ t /\ report_of macro k h' t.
Proof.
  unfold report_at. destruct (show_para k h empty_helper) as [h1 url] eqn:Es. apply (reporting_monitor macro) in Es as [Hs Hu]. intros E.
  bind_in E x E1. injection E as <- <-. unfold ciphered_at in E1. bind_in E1 y E2. destruct y as [t u]. injection E1 as <-.
  split; [done|]. exists t. split; [done|]. exists u. by rewrite <- Hu.
Qed.

Lemma feedback_kept https macro k h h' text :
  feedback e https macro k h = Val (h', text) -> same_urls h h' /\ exists t, text = feedback_text e https t /\ report_of macro k h' t.
Proof.
  unfold feedback. destruct (show_para k h empty_helper) as [h1 url] eqn:Es. apply (reporting_monitor macro) in Es as [Hs ->]. intros E.
  bind_in E x E1. destruct x as [t u]. injection E as <- <-. split; [done|]. exists t. split; [done|]. by exists u.
Qed.

Lemma cm_snippet_kept pm cm k w v img https h h' fb html :
  generate_cm_snippet e pm cm k w v img https h = Val (h', fb, html) ->
  same_urls h h' /\ exists t, fb = feedback_text e https t /\ report_of pm k h' t.
Proof.
  unfold generate_cm_snippet. intros E.
  destruct (show_para k h empty_helper) as [h1 url] eqn:Es. apply (reporting_monitor pm) in Es as [Hs Hu].
  rewrite Hu in E. bind_in E y E2. destruct y as [t u]. bind_in E y E3. destruct y as [t' u']. bind_in E y E4. injection E as <- <- <-.
  split; [done|]. exists t. split; [done|]. by exists u.
Qed.

(** A report that fits its buffer is not cut. *)
Lemma feedback_text_fits https t :
  no_nul (getShowBaseUrl (urlConfig e) https ++ str "?" ++ t) -> (length (getShowBaseUrl (urlConfig e) https ++ str "?" ++ t) < 2048)%nat ->
  feedback_text e https t = getShowBaseUrl (urlConfig e) https ++ str "?" ++ t.
Proof.
  intros Hn Hl. unfold feedback_text, printed_c. apply Forall_app in Hn as [N1 N2]. pose proof N2 as N3. apply Forall_app in N2 as [_ N2].
  rewrite (c_str_id (getShowBaseUrl _ _)), (c_str_id t) by done. rewrite take_ge by lia. apply c_str_id. by apply Forall_app.
Qed.
End kept.

(** *** Reports without a macro *)

(** Some exchanges put the parameters of a show url, with a few more, into a url of their own, and
    append the price to it. *)
Section overlaid.
Context `{Names : UrlNames} `{!UrlNamesLaws Names} `{!UrlLiterals Names} `{MapOrderLaws} `{Base64Laws}.
Context `{CryptoPP} `{Aes} `{UserIds} `{TaskConst} (b : bid_info) (tm : Z) (fs : list (url_key * bytes)).

Definition overlaid_url : URLHelper := add_params (map (fun '(k, v) => (url_name k, v)) fs) (show_url b tm).

(** The price that an impression finds: that of the parameters, or else the one that was appended. *)
Definition found_price (price : option bytes) : bytes := match field URL_EXCHANGE_PRICE fs with [] => default [] price | v => v end.

Record overlay_ok (geo : Z * Z * Z) : Prop := {
  ov_keys : NoDup fs.*1; ov_overlay : fs.*1 ⊆ overlay;
  ov_cipherable : cipherable overlaid_url;
  ov_name : url_name URL_EXCHANGE_PRICE <> ENCODE_HOLDER;
  ov_bid : bid_ok b;
  ov_fields : Forall (fun f => (length f.2 <= URL_LONG_INPUT_PARAMETER)%nat) (show_fields b tm);
  ov_area : extractAreaInfo (areaId (bid_ad b)) = Val geo;
}.

Context (geo : Z * Z * Z) (Hok : overlay_ok geo).

Lemma overlaid_macros : macroParamMap overlaid_url = ∅.
Proof. unfold overlaid_url. rewrite add_params_macros. apply show_url_macros. Qed.

Lemma overlaid_lookup k t :
  typed k t ->
  recovered overlaid_url !! url_name k
  = normal t (match list_find (fun f => f.1 = k) fs with Some (_, (_, v)) => v | None => field k (show_fields b tm) end).
Proof.
  intros Ht. rewrite (recovered_lookup _ _ _ Ht); [|by rewrite overlaid_macros|exact (c_holder _ (ov_cipherable _ Hok))].
  unfold overlaid_url. rewrite add_params_lookup by apply Hok.
  destruct (list_find _ fs) as [[? [? ?]]|]; [done|]. by rewrite show_url_lookup.
Qed.

Lemma overlaid_carries : carries_bid b tm fs.*1 (recovered overlaid_url).
Proof.
  intros k t Ht Hk. rewrite (overlaid_lookup k t Ht).
  destruct (list_find _ fs) as [[i [k' v]]|] eqn:E; [|done]. apply list_find_Some in E as (E & Ek & _). cbn in Ek. subst k'.
  destruct Hk. apply list_elem_of_fmap. exists (k, v). split; [done|]. by eapply list_elem_of_lookup_2.
Qed.

Lemma overlaid_price :
  recovered overlaid_url !! url_name URL_EXCHANGE_PRICE = normal PARAM_STRING (field URL_EXCHANGE_PRICE fs).
Proof. rewrite (overlaid_lookup URL_EXCHANGE_PRICE PARAM_STRING) by typed_tac. unfold field. by destruct (list_find _ fs) as [[? [? ?]]|]. Qed.

(** The parameters of the impression. *)
Definition overlaid_params (price : option bytes) : ParamMap :=
  match field URL_EXCHANGE_PRICE fs with
  | [] => <[url_name URL_EXCHANGE_PRICE := default [] price]> (recovered overlaid_url)
  | _ => recovered overlaid_url
  end.

Lemma overlaid_query price :
  price_ok overlaid_url price -> query_params SHOW (cipher_text overlaid_url ++ price_tail price) = Val (overlaid_params price).
Proof.
  intros Hp.
  rewrite (query_params_cipher SHOW overlaid_url price (ov_cipherable _ Hok) (ov_name _ Hok) (macro_text_check _ overlaid_macros) Hp).
  rewrite overlaid_price. unfold overlaid_params. destruct (field URL_EXCHANGE_PRICE fs); [|done].
  cbn [normal]. by rewrite !bool_decide_eq_true_2.
Qed.

Lemma overlaid_params_carry price : carries_bid b tm (URL_EXCHANGE_PRICE :: fs.*1) (overlaid_params price).
Proof.
  intros k t Ht [Hk Hf]%not_elem_of_cons. unfold overlaid_params.
  destruct (field URL_EXCHANGE_PRICE fs); [rewrite lookup_insert_ne by (intros E; by apply (inj url_name) in E)|]; by apply overlaid_carries.
Qed.

Lemma overlaid_params_price price : overlaid_params price !! url_name URL_EXCHANGE_PRICE = Some (found_price price).
Proof.
  unfold overlaid_params, found_price. pose proof overlaid_price as E. destruct (field URL_EXCHANGE_PRICE fs) as [|c v]; [apply lookup_insert_eq|exact E].
Qed.

(** The impression is logged with the ad of the bid, and finds the price. *)
Lemma overlaid_reports price l x y z :
  geo = (x, y, z) -> price_ok overlaid_url price -> (length (found_price price) <= URL_LONG_INPUT_PARAMETER)%nat -> adInfo l = ad0 ->
  reports (cipher_text overlaid_url ++ price_tail price) l (bid_ad b) (mkGeo x y z) (found_price price).
Proof.
  intros Hg Hp Hl Hl0.
  assert (URL_EXCHANGE_PRICE :: fs.*1 ⊆ overlay) as Hks.
  { intros k [->|Hk]%elem_of_cons; [by_decide|by apply (ov_overlay _ Hok)]. }
  pose proof (ov_area _ Hok) as Hx. rewrite Hg in Hx.
  destruct (reads_ids b _ l x y z (ov_bid _ Hok)
    (shown_reads b tm _ _ (overlaid_params_carry price) (ov_fields _ Hok) Hks (ov_bid _ Hok)) Hx Hl0) as (ls & Els & Hsame & Hgeo & _).
  exists (overlaid_params price), ls. split; [by apply overlaid_query|]. split; [done|]. split; [done|]. split; [done|].
  by apply filter_short; [apply overlaid_params_price|].
Qed.
End overlaid.
