(* ===== verification/ToolTask.v ===== *)
(** * ToolTask: the tools of the operators (core/logic/tool_query_task.cpp, core/logic/tool_query_task.h)

    A request of the operators is a JSON object with the password, the name of a tool and its
    arguments: urls are ciphered and deciphered, and user ids translated.  The tools are a table by
    name.  A tool refuses an action with an exception of type [std::string], the router an unknown
    tool with one of type [const char *]. *)
From S2P Require Import Prelude CString UrlCodec UrlParams Cypher UrlHelper Rijndael RijndaelProofs SohuPrice Template.
From S2P Require Import LogPusher Double PriceDecode Pricing Http QueryTask ClickTask CookieMapping TraceTask BidUrl UserClient AdSelect ShowTask BidBase.

Definition TOOL_PARAM_ACTIONTYPE : bytes := str "action_type".
Definition TOOL_PARAM_ACTION : bytes := str "action".
Definition TOOL_PARAM_AUTH : bytes := str "auth".

(** How a tool ends: with a body, or by throwing a text. *)
Inductive tool_end : Type := Answer (body : bytes) | Refused (message : bytes).

Inductive tool_name : Set := urltool | useridtool.

Section tools.
Context `{UrlNames, MapOrder, Base64, CryptoPP, UserIds, TaskConst, Json}.

Definition not_supported (action : bytes) : tool_end := Refused (str "action not support,action:" ++ action).
Definition param_lines (ps : list (bytes * bytes)) : bytes := flat_map (fun '(k, v) => k ++ str ":" ++ v ++ [10]) ps.

Definition run_urltool (m : json) : outcome tool_end :=
  let action := get_text TOOL_PARAM_ACTION m in
  let uri := get_text (str "uri") m in
  if bool_decide (action = str "encode") then
    url1 ← fromUrl uri; '(text, _) ← cipherUrl url1; Val (Answer text)
  else if bool_decide (action = str "decode") then
    url1 ← fromCipherUrl uri; Val (Answer (toUrl url1 ++ [10] ++ param_lines (enum (paramMap url1))))
  else Val (not_supported action).

Definition run_useridtool (m : json) : outcome tool_end :=
  let action := get_text TOOL_PARAM_ACTION m in
  let input := get_text (str "input") m in
  Val (if bool_decide (action = str "decode") then Answer (uid_text (uid_decipher input))
       else if bool_decide (action = str "encode") then Answer (uid_cipher (uid_of_text input))
       else if bool_decide (action = str "encodedevice") then Answer (md5_encode (upper input))
       else not_supported action).

(** [ActionRouter]: the tools by their names. *)
Definition handlers : list (bytes * tool_name) := [(str "urltool", urltool); (str "useridtool", useridtool)].
Definition route (action : bytes) : option tool_name := snd ∘ snd <$> list_find (fun h => fst h = action) handlers.
Definition run_tool (t : tool_name) (m : json) : outcome tool_end :=
  match t with urltool => run_urltool m | useridtool => run_useridtool m end.

Definition authorized (auth : bytes) : bool :=
  negb (bool_decide (auth = [])) && bool_decide (md5_encode (upper auth) = md5_encode (upper (str "zhimakaimen"))).

Definition answer_status (code : Z) (reason body : bytes) : M unit := mod_resp (fun r => set_body body (status code reason r)).
Definition invalid_params : M unit := answer_status 400 (str "query param invalid") (str "query param invalid").

Definition tool_customLogic (data : bytes) : M unit :=
  let requestData := json_parse (c_str data) in
  match requestData with
  | JNull | JUndefined => invalid_params
  | _ =>
    if negb (authorized (get_text TOOL_PARAM_AUTH requestData))
    then answer_status 403 (str "forbidden") (str "wrong way to go dude ^_^")
    else
      let actionType := get_text TOOL_PARAM_ACTIONTYPE requestData in
      if bool_decide (actionType = []) then invalid_params
      else match route actionType with
           | None => invalid_params
           | Some t =>
             match run_tool t requestData with
             | Val (Answer b) => mod_resp (set_body b)
             | Val (Refused m) => answer_status 400 (str "query param invalid") m
             | Exc _ => invalid_params
             | Undef => fun _ => RUndef
             end
           end
  end.

(** [HandleToolQueryTask] *)
Definition tool_ops (data : bytes) : TaskOps := mkOps MAPPING 200 filterParamMapSafe (mret tt) (tool_customLogic data).
End tools.

(** ** Properties *)

Section properties.
Context `{Names : UrlNames} `{!UrlNamesLaws Names} `{MapOrderLaws} `{Base64Laws} `{CryptoPP} `{UserIds} `{TaskConst} `{Json}.

(** No password, or one whose digest is another. *)
Definition stranger (auth : bytes) : Prop := auth = [] \/ md5_encode (upper auth) <> md5_encode (str "ZHIMAKAIMEN").
Lemma stranger_refused auth : stranger auth -> authorized auth = false.
Proof.
  unfold authorized. intros [-> |Hne]; [done|]. rewrite (bool_decide_eq_false_2 (md5_encode _ = _)) by exact Hne. apply andb_false_r.
Qed.

(** A request for a tool. *)
Definition asks (data : bytes) (tool action : string) (name : string) (value : bytes) : Prop :=
  exists ms, json_parse (c_str data) = JObj ms /\ authorized (get_text TOOL_PARAM_AUTH (JObj ms)) = true
    /\ get_text TOOL_PARAM_ACTIONTYPE (JObj ms) = str tool /\ get_text TOOL_PARAM_ACTION (JObj ms) = str action
    /\ get_text (str name) (JObj ms) = value.

Lemma asks_url data action uri s :
  asks data "urltool" action "uri" uri ->
  tool_customLogic data s
  = match (if bool_decide (str action = str "encode") then url1 ← fromUrl uri; '(text, _) ← cipherUrl url1; Val (Answer text)
           else if bool_decide (str action = str "decode") then
             url1 ← fromCipherUrl uri; Val (Answer (toUrl url1 ++ [10] ++ param_lines (enum (paramMap url1))))
           else Val (not_supported (str action))) with
    | Val (Answer b) => mod_resp (set_body b) s
    | Val (Refused m) => answer_status 400 (str "query param invalid") m s
    | Exc _ => invalid_params s
    | Undef => RUndef
    end.
Proof.
  intros (ms & Ej & Ha & Ht & Hac & Hv). unfold tool_customLogic. rewrite Ej. cbn iota. rewrite Ha. cbn [negb]. rewrite Ht.
  rewrite (bool_decide_eq_false_2 (str "urltool" = [])) by discriminate.
  change (route (str "urltool")) with (Some urltool). cbn iota. cbn [run_tool]. unfold run_urltool. rewrite Hac, Hv.
  by destruct (if bool_decide _ then _ else _) as [[]| |].
Qed.

Lemma cipherUrl_ne h url h' : cipherable h -> cipherUrl h = Val (url, h') -> url <> [].
Proof.
  intros Hc. unfold cipherUrl. rewrite cipherParam_ok by done. cbn [mbind outcome_bind try_std]. intros [= <- _].
  unfold url_prefix. cbn. by destruct (protocolName h).
Qed.

Lemma set_body_ne b (r : HttpResponse) : b <> [] -> body (set_body b r) = b.
Proof. by destruct b. Qed.
End properties.

(** The tools are closed to strangers and invert each other.  A request without the password
    gets the answer 403 and nothing else happens; the answer to a request to cipher a url is a url
    which, deciphered with the tool, is printed as the same place with the parameters that the
    ciphered form carries, first as a url and then one to a line. *)
Theorem tool_encode_decode `{Names : UrlNames} `{!UrlNamesLaws Names} `{MapOrderLaws} `{Base64Laws} `{CryptoPP} `{UserIds} `{TaskConst} `{Json}
    data uri h (s : task_state) :
  fromUrl uri = Val h -> cipherable h -> wf_url h (ch "?" :: cipher_text h) -> asks data "urltool" "encode" "uri" uri ->
  (exists s1, tool_customLogic data s = RVal tt s1
     /\ forall data', asks data' "urltool" "decode" "uri" (body (resp s1)) ->
        exists s2, tool_customLogic data' s1 = RVal tt s2
          /\ body (resp s2) = toUrl (mkURLHelper (recovered h) ∅ (protocolName h) (host h) (port h) (path h)) ++ [10]
                               ++ param_lines (enum (recovered h)))
  /\ (forall data' ms, json_parse (c_str data') = JObj ms -> stranger (get_text TOOL_PARAM_AUTH (JObj ms)) ->
        tool_customLogic data' s
        = RVal tt (mkState (params s) (log s) (set_body (str "wrong way to go dude ^_^") (status 403 (str "forbidden") (resp s)))
                     (needLog s) (logs s) (trafficCalls s) (db s))).
Proof.
  intros Eu Hc Hw Ha. destruct (decipher_cipher _ _ _ _ _ _ h Hc Hw) as (url & h' & Ec & Ed). split.
  - exists (mkState (params s) (log s) (set_body url (resp s)) (needLog s) (logs s) (trafficCalls s) (db s)). split.
    { rewrite (asks_url _ _ _ _ Ha). rewrite bool_decide_eq_true_2 by done. rewrite Eu. cbn [mbind outcome_bind]. by rewrite Ec. }
    cbn [resp]. rewrite set_body_ne by (by eapply cipherUrl_ne). intros data' Hd. rewrite (asks_url _ _ _ _ Hd).
    rewrite bool_decide_eq_false_2, bool_decide_eq_true_2 by by_decide. rewrite Ed. cbn [mbind outcome_bind].
    eexists. split; [done|]. cbn. apply set_body_ne. intros [_ E]%app_eq_nil. discriminate E.
  - intros data' ms Ej Hauth. unfold tool_customLogic. rewrite Ej. cbn iota. by rewrite stranger_refused.
Qed.

(** ** Instances *)

Module ToolInstance.
Import UrlHelper.Concrete.
#[local] Existing Instance toy_crypto.
#[local] Existing Instance toy_users.
#[local] Existing Instance toy_const.

Definition the_uri : bytes := str "http://show.mtty.com/v?a=0086-110000-110100&x=7".
Definition the_url : URLHelper := match fromUrl the_uri with Val h => h | _ => empty_helper end.
Definition the_cipher : bytes := match cipherUrl the_url with Val (t, _) => t | _ => [] end.
Definition request (action : string) (uri : bytes) : json :=
  JObj [(TOOL_PARAM_AUTH, JStr (str "ZhimaKaimen")); (TOOL_PARAM_ACTIONTYPE, JStr (str "urltool")); (TOOL_PARAM_ACTION, JStr (str action));
        (str "uri", JStr uri)].
#[local] Instance two_requests : Json := {
  json_parse t := if bool_decide (t = str "1") then request "encode" the_uri else request "decode" the_cipher; json_print _ := [] }.
Definition tool_state : task_state := mkState ∅ log0 (mkResponse 200 [] ∅ [] [] false) true log_state0 [] [].

Lemma tool_encode_decode_witness :
  exists s1 s2, tool_customLogic (str "1") tool_state = RVal tt s1 /\ tool_customLogic (str "2") s1 = RVal tt s2
    /\ body (resp s2) = toUrl (mkURLHelper (recovered the_url) ∅ (str "http") (str "show.mtty.com") [] (str "/v")) ++ [10]
                        ++ param_lines (enum (recovered the_url)).
Proof.
  destruct (tool_encode_decode (str "1") the_uri the_url tool_state) as [(s1 & E1 & Hd) _].
  - by vm_compute.
  - constructor; [by_decide|repeat constructor; vm_compute; congruence|apply map_Forall_empty|vm_compute; discriminate|vm_compute; lia
      |intros []; discriminate].
  - constructor; [split; [discriminate|by_decide]|split_and!; [discriminate|by_decide|by_decide]|exists (str "v"); split; [reflexivity|by_decide]
      |right; split; [reflexivity|by_decide]|by vm_compute].
  - eexists. split; [reflexivity|]. by split_and!.
  - destruct (Hd (str "2")) as (s2 & E2 & Hb).
    + eexists. split; [reflexivity|]. split_and!; [reflexivity|reflexivity|reflexivity|].
      assert (tool_customLogic (str "1") tool_state = RVal tt (mkState ∅ log0 (mkResponse 200 [] ∅ the_cipher [] false) true log_state0 [] [])) as E
        by (by vm_compute).
      rewrite E in E1. by injection E1 as <-.
    + exists s1, s2. split; [exact E1|]. split; [exact E2|exact Hb].
Defined.
End ToolInstance.
