(* ===== verification/BidTask.v ===== *)
(** * BidTask: the auction of a bid request (core/logic/bid_query_task.cpp, core/logic/bid_query_task.h)

    The path of a request chooses the exchange and its handler.  The handler turns the request into
    conditions, one per place; for each the ad selection is asked, and what it finds is added to the
    handler's answer and logged.  A solution that was bid for one place is banned for the next.

    A handler is an interface ([BiddingHandler]): [filter] of the handlers prepares conditions, calls
    back once with them and keeps the verdict, so it is split at the call.  The ad selection, the
    areas and scenarios of addresses and the time are members of [bid_env].  The counters, which are
    only logged, are left out. *)
From S2P Require Import Prelude CString UrlCodec UrlParams Cypher UrlHelper Hash Rijndael RijndaelProofs SohuPrice.
From S2P Require Import LogPusher Double PriceDecode Pricing Http QueryTask CookieMapping AdSelect.

(** ** Modules *)

Inductive bid_module : Set :=
| BID_BAIDU | BID_TANX | BID_YOUKU | BID_GDT | BID_SOHU | BID_NETEASE | BID_GUANGYIN | BID_INMOBI | BID_NEX | BID_KUPAI
| BID_LIEBAO | BID_360MAX | BID_YIDIAN | BID_2345.

(** [BID_QUERY_PATH_*] of mtty/constants.h. *)
Class BidConst := { BID_QUERY_PATH : bid_module -> bytes }.

Record ModuleIndex := mkModule { moduleHash : Z; module_adxId : Z }.
Record module_table := mkModules { moduleIdx : list Z; moduleAdx : list ModuleIndex }.

(** The classes of handlers. *)
Inductive handler_class : Set :=
| TanxBiddingHandler | YoukuBiddingHandler | BaiduBiddingHandler | GdtBiddingHandler | SohuBiddingHandler | NetEaseBiddingHandler
| GuangyinBiddingHandler | InmobiBiddingHandler | NexBiddingHandler | KupaiBiddingHandler | LieBaoBiddingHandler
| JuxiaoMaxBiddingHandler | YidianBidingHandler | Adx2345BiddingHandler.

Section modules.
Context `{AdxConst, BidConst}.

Definition module_entries : list (bid_module * adx_name) :=
  [ (BID_BAIDU, ADX_BAIDU); (BID_TANX, ADX_TANX); (BID_YOUKU, ADX_YOUKU); (BID_GDT, ADX_TENCENT_GDT); (BID_SOHU, ADX_SOHU_PC);
    (BID_NETEASE, ADX_NETEASE_MOBILE); (BID_GUANGYIN, ADX_GUANGYIN); (BID_INMOBI, ADX_INMOBI); (BID_NEX, ADX_NEX_PC);
    (BID_KUPAI, ADX_KUPAI_MOBILE); (BID_LIEBAO, ADX_LIEBAO_MOBILE); (BID_360MAX, ADX_360_MAX_PC); (BID_YIDIAN, ADX_YIDIAN);
    (BID_2345, ADX_2345_PC) ].

(** [ADD_MODULE_ENTRY]; [strlen] of the name. *)
Definition module_entry (e : bid_module * adx_name) : outcome ModuleIndex :=
  let name := c_str (BID_QUERY_PATH (fst e)) in
  h ← fnv_hash name (Z.of_nat (length name)); Val (mkModule h (adx_id (snd e))).

Definition hash_at (t : list ModuleIndex) (i : Z) : Z := from_option moduleHash 0 (t !! Z.to_nat i).
Definition index_before (t : list ModuleIndex) (a b : Z) : Prop := hash_at t a <= hash_at t b.
#[global] Instance index_before_dec t a b : Decision (index_before t a b).
Proof. unfold index_before. apply _. Defined.

(** The first call fills the table. *)
Definition init (state : option module_table) : outcome module_table :=
  match state with
  | Some t => Val t
  | None =>
    ms ← mapM module_entry module_entries;
    Val (mkModules (merge_sort (index_before ms) (map Z.of_nat (seq 0 (length ms)))) ms)
  end.

Definition module_hash (t : module_table) (i : Z) : outcome Z :=
  k ← rd (moduleIdx t) i; m ← rd (moduleAdx t) k; Val (moduleHash m).

Fixpoint getAdxId_loop (fuel : nat) (t : module_table) (key l h : Z) : outcome Z :=
  if l <=? h then
    match fuel with
    | O => Undef
    | S fuel =>
      let mid := l + Z.shiftr (h - l) 1 in
      x ← module_hash t mid;
      if key <=? x then getAdxId_loop fuel t key l (mid - 1) else getAdxId_loop fuel t key (mid + 1) h
    end
  else Val l.

Definition getAdxId (t : module_table) (path : bytes) : outcome Z :=
  key ← fnv_hash path (Z.of_nat (length path));
  let cnt := Z.of_nat (length (moduleAdx t)) in
  l ← getAdxId_loop (S (Z.to_nat cnt)) t key 0 (cnt - 1);
  if (l <? 0) || (cnt <=? l) then Val 0
  else
    x ← module_hash t l;
    if x =? key then k ← rd (moduleIdx t) l; m ← rd (moduleAdx t) k; Val (s32 (module_adxId m)) else Val 0.

(** The cases of the switch, in its order. *)
Definition handler_cases : list (adx_name * handler_class) :=
  [ (ADX_TANX, TanxBiddingHandler); (ADX_YOUKU, YoukuBiddingHandler); (ADX_BAIDU, BaiduBiddingHandler);
    (ADX_TENCENT_GDT, GdtBiddingHandler); (ADX_SOHU_PC, SohuBiddingHandler); (ADX_NETEASE_MOBILE, NetEaseBiddingHandler);
    (ADX_GUANGYIN, GuangyinBiddingHandler); (ADX_INMOBI, InmobiBiddingHandler); (ADX_NEX_PC, NexBiddingHandler);
    (ADX_KUPAI_MOBILE, KupaiBiddingHandler); (ADX_LIEBAO_MOBILE, LieBaoBiddingHandler); (ADX_360_MAX_PC, JuxiaoMaxBiddingHandler);
    (ADX_YIDIAN, YidianBidingHandler); (ADX_2345_PC, Adx2345BiddingHandler) ].
Definition getBiddingHandler (adxId : Z) : option handler_class :=
  snd ∘ snd <$> list_find (fun c => adx_id (fst c) = adxId) handler_cases.

(** The handlers of a thread; a class without handler is remembered as the null pointer. *)
Definition updateBiddingHandler (adxId : Z) (cache : gmap Z (option handler_class)) : option handler_class * gmap Z (option handler_class) :=
  match cache !! adxId with
  | Some h => (h, cache)
  | None => let h := getBiddingHandler adxId in (h, <[adxId := h]> cache)
  end.
End modules.

(** ** Handlers *)

Class BiddingHandler := {
  handler : Type;
  parseRequestData : bytes -> handler -> outcome (bool * handler);
  (* [filter] up to the call: [None] when it returns before *)
  filter_conditions : handler -> outcome (handler * option (list AdSelectCondition));
  (* [filter] after the call, with the conditions as the callback left them *)
  filter_verdict : bool -> list AdSelectCondition -> handler -> handler;
  buildBidResult : AdSelectCondition -> SelectResult -> Z -> handler -> outcome handler;
  fillLogItem : AdSelectCondition -> LogItem -> bool -> handler -> outcome (bool * LogItem * handler);
  match_bid : HttpResponse -> handler -> outcome (HttpResponse * handler);
  reject_bid : HttpResponse -> handler -> outcome (HttpResponse * handler);
}.

(** What a request is given: the selection, what is known of an address, and the code of the hour, which
    is [adSelectTimeCodeUtc] of its time. *)
Record bid_env := mkBidEnv {
  bid_task : task_env; bid_search : AdSelectCondition -> bool * SelectResult;
  bid_area : bytes -> outcome Z; bid_hour : bytes; bid_scenario : bytes -> outcome Z;
}.

Definition set_mid (m : Z) (a : AdInfo) : AdInfo :=
  mkAd (areaId a) (advId a) (cpid a) (sid a) (bannerId a) (clickId a) (adxid a) m (pid a) (imp_id a)
    (landingUrl a) (adxpid a) (priceType a) (ppid a) (orderId a) (bill a) (select a).

(** What the selection is asked: the area, the time, the scenario and the solutions that were bid. *)
Definition asked (e : bid_env) (banned : list Z) (c : AdSelectCondition) : outcome AdSelectCondition :=
  dGeo ← bid_area e (c_str (cond_ip c));
  sc ← bid_scenario e (c_str (cond_ip c));
  Val (mkCondition (at_place c) (of_client c) (cond_ip c) (cond_mtUserId c) dGeo (bid_hour e) (Some sc)
         (match banned with [] => bannedSolutions c | _ => banned end) (isFromSSP c)).

(** The place a selection without an ad found. *)
Definition set_mttyPid (i : Z) (c : AdSelectCondition) : AdSelectCondition :=
  let p := at_place c in
  mkCondition (mkCondPlace (cond_adxpid p) i (cond_adxid p) (cond_basePrice p) (cond_width p) (cond_height p) (cond_bannerType p)
                 (mttyContentType p) (cond_mediaType p) (cond_dealId p) (keywords p) (adplaceInfo p) (requiredCreativeLevel p))
    (of_client c) (cond_ip c) (cond_mtUserId c) (cond_dGeo c) (cond_dHour c) (scenario c) (bannedSolutions c) (isFromSSP c).

Section task.
Context `{UrlNames, MapOrder, Base64, CryptoPP, OpenSSL, BoostBase64, Aes}.
Context `{AdxConst, PriceMemory, TaskConst, UserIds, Avro, LogConst}.
Context `{BiddingHandler}.

(** One condition after it was asked: the answer is added, and the item logged. *)
Definition conclude (e : bid_env) (c : AdSelectCondition) (ok : bool) (r : SelectResult) (idx : Z) (h : handler) : M handler :=
  h ← (if ok then lift (buildBidResult c r idx h) else mret h);
  l ← gets log;
  '(should, l, h) ← lift (fillLogItem c (set_ad (set_mid (pl_mId (res_place r)) (adInfo l)) l) ok h);
  put_log l;;
  (if (should : bool) then doLog (bid_task e) else mret tt);;
  mret h.

(** The callback: the verdict, the conditions as they are left, and the handler. *)
Fixpoint bid_loop (e : bid_env) (cs : list AdSelectCondition) (idx : Z) (banned : list Z) (result : bool) (h : handler)
    : M (bool * list AdSelectCondition * handler) :=
  match cs with
  | [] => mret (result, [], h)
  | c :: cs =>
    c ← lift (asked e banned c);
    let '(ok, r) := bid_search e c in
    let c := if (ok : bool) then c else set_mttyPid (pl_pId (res_place r)) c in
    h ← conclude e c ok r idx h;
    '(result, cs, h) ← bid_loop e cs (idx + 1) (if ok then banned ++ [sol_sId (res_solution r)] else banned) (result || ok) h;
    mret (result, c :: cs, h)
  end.

(** [customLogic] with the handler the request was parsed by. *)
Definition bid_customLogic (e : bid_env) (h : option handler) : M (option handler) :=
  match h with
  | Some h =>
    if isPost (bid_task e) then
      '(h, cs) ← lift (filter_conditions h);
      '(bidResult, h) ← match cs with
        | None => mret (false, h)
        | Some cs => '(result, cs, h) ← bid_loop e cs 0 [] false h; mret (result, filter_verdict result cs h)
        end;
      r ← gets resp;
      '(r, h) ← lift (if (bidResult : bool) then match_bid r h else reject_bid r h);
      put_resp r;;
      put_needLog false;;
      mret (Some h)
    else l ← gets log; put_log (set_reqStatus 500 l);; mod_resp (status 200 []);; mret (Some h)
  | None => l ← gets log; put_log (set_reqStatus 500 l);; mod_resp (status 200 []);; mret None
  end.

(** The module: [getPostParam] parses the data; a failure is only logged. *)
Definition parsed (e : bid_env) (h : option handler) : outcome (option handler) :=
  match h with None => Val None | Some h => '(_, h) ← parseRequestData (data (bid_task e)) h; Val (Some h) end.
Definition bid_ops (e : bid_env) (h : option handler) : TaskOps :=
  mkOps BID 300 filterParamMapSafe (lift (parsed e h);; mret tt)
    (h ← lift (if isPost (bid_task e) then parsed e h else Val h); bid_customLogic e h;; mret tt).
End task.

(** ** Properties *)

(** *** The table of modules *)

Definition hash (s : bytes) : Z := foldl fnv_step FNV_BASIS s.
Lemma fnv_hash_eq s : fnv_hash s (Z.of_nat (length s)) = Val (hash s).
Proof.
  unfold fnv_hash, hash. rewrite Nat2Z.id. generalize FNV_BASIS. induction s as [|b s IH]; intros h; [done|]. apply IH.
Qed.

Section routing.
Context `{AdxConst, BidConst}.

Definition entry_of (e : bid_module * adx_name) : ModuleIndex := mkModule (hash (c_str (BID_QUERY_PATH (fst e)))) (adx_id (snd e)).
Definition the_modules : list ModuleIndex := map entry_of module_entries.
Definition the_index : list Z := merge_sort (index_before the_modules) (map Z.of_nat (seq 0 (length the_modules))).
Definition the_table : module_table := mkModules the_index the_modules.

Lemma init_table : init None = Val the_table.
Proof.
  unfold init. assert (mapM module_entry module_entries = Val the_modules) as ->; [|done].
  unfold the_modules. induction module_entries as [|e es IH]; [done|]. cbn [mapM map].
  assert (module_entry e = Val (entry_of e)) as -> by (unfold module_entry; by rewrite fnv_hash_eq).
  cbn [mbind outcome_bind]. by rewrite IH.
Qed.

Lemma index_elem i : i ∈ the_index <-> 0 <= i < Z.of_nat (length the_modules).
Proof.
  unfold the_index. rewrite merge_sort_Permutation, list_elem_of_In, in_map_iff. split.
  - intros (k & <- & Hk%in_seq). lia.
  - intros Hi. exists (Z.to_nat i). rewrite Z2Nat.id, in_seq by lia. lia.
Qed.

Lemma length_index : length the_index = length the_modules.
Proof. unfold the_index. by rewrite merge_sort_Permutation, length_map, length_seq. Qed.

Definition hashes : list Z := map (hash_at the_modules) the_index.

Lemma hashes_sorted : sorted hashes.
Proof.
  assert (StronglySorted (index_before the_modules) the_index) as Hs.
  { apply Sorted_StronglySorted; [intros x y z; unfold index_before; lia|].
    apply Sorted_merge_sort. intros x y. unfold index_before. lia. }
  apply Sorted_sorted. unfold hashes. induction Hs as [|i l Hs IH Hi]; [constructor|]. cbn [map]. constructor; [done|].
  destruct l as [|j l]; [constructor|]. constructor. by apply Forall_cons_1 in Hi as [Hi _].
Qed.

Lemma module_hash_rd i : module_hash the_table i = rd hashes i.
Proof.
  unfold module_hash, hashes. cbn [moduleIdx moduleAdx the_table].
  destruct (Z.ltb_spec i 0) as [Hi|Hi]; [unfold rd; destruct (Z.ltb_spec i 0); [done|lia]|].
  destruct (the_index !! Z.to_nat i) as [k|] eqn:E.
  - assert (k ∈ the_index) as Hk by (by eapply list_elem_of_lookup_2). apply index_elem in Hk.
    destruct (lookup_lt_is_Some_2 the_modules (Z.to_nat k)) as [m Em]; [lia|].
    rewrite (rd_Some the_index i k) by done. cbn [mbind outcome_bind]. rewrite (rd_Some the_modules k m) by (lia || done).
    symmetry. apply rd_Some; [done|]. rewrite list_lookup_fmap, E. cbn [fmap option_fmap option_map]. unfold hash_at. by rewrite Em.
  - assert (forall A (l : list A), l !! Z.to_nat i = None -> rd l i = Undef) as Hn
      by (intros A l El; unfold rd; destruct (Z.ltb_spec i 0); [lia|]; by rewrite El).
    rewrite (Hn _ the_index E). symmetry. apply Hn. by rewrite list_lookup_fmap, E.
Qed.

Lemma getAdxId_loop_eq fuel key l h : getAdxId_loop fuel the_table key l h = bSearch_loop fuel hashes key l h.
Proof.
  revert l h. induction fuel as [|fuel IH]; intros l h; cbn [getAdxId_loop bSearch_loop]; [done|].
  destruct (l <=? h); [|done]. rewrite module_hash_rd. destruct (rd hashes _); [|done..]. cbn [mbind outcome_bind]. by rewrite !IH.
Qed.

(** The exchange of the module whose name has the hash of the path, or zero. *)
Lemma getAdxId_cases path :
  (exists i m, the_modules !! i = Some m /\ moduleHash m = hash path /\ getAdxId the_table path = Val (s32 (module_adxId m)))
  \/ ((forall m, m ∈ the_modules -> moduleHash m <> hash path) /\ getAdxId the_table path = Val 0).
Proof.
  unfold getAdxId. rewrite fnv_hash_eq. cbn [mbind outcome_bind the_table moduleAdx]. rewrite Nat2Z.id, getAdxId_loop_eq.
  assert (length hashes = length the_modules) as Hl by (unfold hashes; by rewrite length_map, length_index).
  destruct (bSearch_loop_spec (S (length the_modules)) hashes (hash path) 0 (Z.of_nat (length the_modules) - 1) hashes_sorted)
    as (r & -> & Hr & Hlo & Hhi); try lia.
  { intros i x Hi Ex. apply lookup_lt_Some in Ex. lia. }
  cbn [mbind outcome_bind]. rewrite module_hash_rd. rewrite Hl in Hr.
  assert (forall p k m, the_index !! p = Some k -> the_modules !! Z.to_nat k = Some m -> hashes !! p = Some (moduleHash m)) as Hat.
  { intros p k m Ep Em. unfold hashes. rewrite list_lookup_fmap, Ep. cbn [fmap option_fmap option_map]. unfold hash_at. by rewrite Em. }
  assert (forall m, m ∈ the_modules -> moduleHash m = hash path -> r < Z.of_nat (length the_modules) /\ hashes !! Z.to_nat r = Some (hash path)) as Hfound.
  { intros m Hm Eh. apply list_elem_of_lookup_1 in Hm as [i Ei]. pose proof (lookup_lt_Some _ _ _ Ei).
    assert (Z.of_nat i ∈ the_index) as Hi by (apply index_elem; lia). apply list_elem_of_lookup_1 in Hi as [p Ep].
    pose proof (Hat p (Z.of_nat i) m Ep ltac:(by rewrite Nat2Z.id)) as Ex. rewrite Eh in Ex. pose proof (lookup_lt_Some _ _ _ Ex).
    destruct (decide (Z.of_nat p < r)) as [Hlt|Hge]; [specialize (Hlo p _ Hlt Ex); lia|]. split; [lia|].
    destruct (lookup_lt_is_Some_2 hashes (Z.to_nat r)) as [x Er]; [lia|]. rewrite Er.
    specialize (Hhi (Z.to_nat r) x ltac:(lia) Er). pose proof (hashes_sorted (Z.to_nat r) p x _ Er Ex ltac:(lia)). f_equal. lia. }
  destruct (Z.ltb_spec r 0), (Z.leb_spec (Z.of_nat (length the_modules)) r); cbn [orb]; try lia.
  - right. split; [|done]. intros m Hm Eh. destruct (Hfound m Hm Eh). lia.
  - destruct (lookup_lt_is_Some_2 hashes (Z.to_nat r)) as [x Er]; [lia|]. rewrite (rd_Some hashes r x) by (lia || done).
    cbn [mbind outcome_bind]. destruct (Z.eqb_spec x (hash path)) as [->|Hne].
    + left. unfold hashes in Er. rewrite list_lookup_fmap in Er. apply fmap_Some in Er as (k & Ek & Ehk).
      assert (k ∈ the_index) as Hk by (by eapply list_elem_of_lookup_2). apply index_elem in Hk.
      destruct (lookup_lt_is_Some_2 the_modules (Z.to_nat k)) as [m Em]; [lia|]. exists (Z.to_nat k), m.
      unfold hash_at in Ehk. rewrite Em in Ehk. cbn [from_option] in Ehk. split_and!; [done|done|]. cbn [the_table moduleIdx].
      rewrite (rd_Some the_index r k) by (lia || done). cbn [mbind outcome_bind]. by rewrite (rd_Some the_modules k m) by (lia || done).
    + right. split; [|done]. intros m Hm Eh. destruct (Hfound m Hm Eh) as [_ E]. congruence.
Qed.

(** What each module is served by. *)
Definition module_adx (m : bid_module) : adx_name :=
  match m with
  | BID_BAIDU => ADX_BAIDU | BID_TANX => ADX_TANX | BID_YOUKU => ADX_YOUKU | BID_GDT => ADX_TENCENT_GDT | BID_SOHU => ADX_SOHU_PC
  | BID_NETEASE => ADX_NETEASE_MOBILE | BID_GUANGYIN => ADX_GUANGYIN | BID_INMOBI => ADX_INMOBI | BID_NEX => ADX_NEX_PC
  | BID_KUPAI => ADX_KUPAI_MOBILE | BID_LIEBAO => ADX_LIEBAO_MOBILE | BID_360MAX => ADX_360_MAX_PC | BID_YIDIAN => ADX_YIDIAN
  | BID_2345 => ADX_2345_PC
  end.
Definition module_class (m : bid_module) : handler_class :=
  match m with
  | BID_BAIDU => BaiduBiddingHandler | BID_TANX => TanxBiddingHandler | BID_YOUKU => YoukuBiddingHandler | BID_GDT => GdtBiddingHandler
  | BID_SOHU => SohuBiddingHandler | BID_NETEASE => NetEaseBiddingHandler | BID_GUANGYIN => GuangyinBiddingHandler
  | BID_INMOBI => InmobiBiddingHandler | BID_NEX => NexBiddingHandler | BID_KUPAI => KupaiBiddingHandler
  | BID_LIEBAO => LieBaoBiddingHandler | BID_360MAX => JuxiaoMaxBiddingHandler | BID_YIDIAN => YidianBidingHandler
  | BID_2345 => Adx2345BiddingHandler
  end.
Definition path_hash (m : bid_module) : Z := hash (c_str (BID_QUERY_PATH m)).

Lemma in_modules m : entry_of (m, module_adx m) ∈ the_modules.
Proof. apply list_elem_of_In, in_map. destruct m; cbn [module_adx module_entries In]; tauto. Qed.
Lemma from_modules x : x ∈ the_modules -> exists m, x = entry_of (m, module_adx m).
Proof.
  intros Hx. apply list_elem_of_In, in_map_iff in Hx as ([m a] & <- & Hm). exists m.
  cbn [module_entries In] in Hm. destruct_or!; try done; by injection Hm as <- <-.
Qed.

Lemma find_case `{!Inj (=) (=) adx_id} a (l : list (adx_name * handler_class)) :
  list_find (fun c => adx_id (fst c) = adx_id a) l = list_find (fun c => fst c = a) l.
Proof. apply list_find_ext. intros c. split; [apply (inj adx_id)|by intros ->]. Qed.
Lemma handler_of `{!Inj (=) (=) adx_id} m : getBiddingHandler (adx_id (module_adx m)) = Some (module_class m).
Proof. unfold getBiddingHandler. rewrite find_case. by destruct m. Qed.
Lemma no_handler adx : (forall a, adx_id a <> adx) -> getBiddingHandler adx = None.
Proof.
  intros Hadx. unfold getBiddingHandler.
  destruct (list_find _ handler_cases) as [[i c]|] eqn:E; [|done]. apply list_find_Some in E as (_ & E & _). by destruct (Hadx _ E).
Qed.

(** The handlers of a thread after a series of requests. *)
Definition handlers_after (ids : list Z) : gmap Z (option handler_class) :=
  foldl (fun c i => snd (updateBiddingHandler i c)) ∅ ids.
Lemma handlers_after_ok ids i h : handlers_after ids !! i = Some h -> h = getBiddingHandler i.
Proof.
  unfold handlers_after. assert (forall i h, (∅ : gmap Z (option handler_class)) !! i = Some h -> h = getBiddingHandler i) as Hempty by done.
  revert Hempty. generalize (∅ : gmap Z (option handler_class)). induction ids as [|j ids IH]; intros c Hc; [apply Hc|].
  cbn [foldl]. apply IH. intros k x. unfold updateBiddingHandler. destruct (c !! j) eqn:E; cbn [snd]; [apply Hc|].
  rewrite lookup_insert_Some. intros [[-> <-]|[_ Hk]]; [done|by apply Hc].
Qed.
Lemma updated_handler ids i : fst (updateBiddingHandler i (handlers_after ids)) = getBiddingHandler i.
Proof. unfold updateBiddingHandler. destruct (handlers_after ids !! i) eqn:E; [|done]. by apply handlers_after_ok in E. Qed.

(** C18: A bid request reaches the handler of its exchange.  The table of modules is filled once;
    when the hashes of the paths of the modules differ, the path of each module gives its exchange,
    and the thread, whatever requests it served before, hands the request to the handler of that
    exchange; a path with another hash gives no exchange and no handler. *)
Theorem bid_routes `{!AdxConstLaws _} :
  (forall a, - 2 ^ 31 <= adx_id a < 2 ^ 31 /\ adx_id a <> 0) -> Inj (=) (=) path_hash ->
  exists t, init None = Val t /\ init (Some t) = Val t
    /\ (forall m ids, getAdxId t (c_str (BID_QUERY_PATH m)) = Val (adx_id (module_adx m))
          /\ fst (updateBiddingHandler (adx_id (module_adx m)) (handlers_after ids)) = Some (module_class m))
    /\ (forall path ids, (forall m, path_hash m <> hash path) ->
          getAdxId t path = Val 0 /\ fst (updateBiddingHandler 0 (handlers_after ids)) = None).
Proof.
  intros Hid Hinj. exists the_table. split; [apply init_table|]. split; [done|]. split.
  - intros m ids. split; [|rewrite updated_handler; apply handler_of].
    destruct (getAdxId_cases (c_str (BID_QUERY_PATH m))) as [(i & x & Hx & Eh & ->)|[Hno _]].
    + apply list_elem_of_lookup_2, from_modules in Hx as [m' ->]. change (path_hash m' = path_hash m) in Eh. apply (inj path_hash) in Eh as ->. f_equal. apply swrap_small; [lia|apply Hid].
    + by destruct (Hno _ (in_modules m)).
  - intros path ids Hp. split; [|rewrite updated_handler; apply no_handler, Hid].
    destruct (getAdxId_cases path) as [(i & x & Hx & Eh & _)|[_ ->]]; [|done].
    apply list_elem_of_lookup_2, from_modules in Hx as [m ->]. by destruct (Hp m).
Qed.
End routing.

(** *** The auction *)

(** What became of a condition: what was asked, whether an ad was found, and the result. *)
Record round := mkRound { rd_cond : AdSelectCondition; rd_ok : bool; rd_result : SelectResult }.

Definition solution_of (r : round) : Z := sol_sId (res_solution (rd_result r)).
Definition won (rs : list round) : list Z := map solution_of (filter rd_ok rs).

Definition left_as (r : round) : AdSelectCondition :=
  if rd_ok r then rd_cond r else set_mttyPid (pl_pId (res_place (rd_result r))) (rd_cond r).

(** [r] is the round of [c] when the solutions of [banned] were bid before. *)
Definition is_round (e : bid_env) (banned : list Z) (c : AdSelectCondition) (r : round) : Prop :=
  asked e banned c = Val (rd_cond r) /\ bid_search e (rd_cond r) = (rd_ok r, rd_result r).

(** The rounds of conditions, one after the other. *)
Fixpoint rounds (e : bid_env) (banned : list Z) (cs : list AdSelectCondition) (rs : list round) : Prop :=
  match cs, rs with
  | [], [] => True
  | c :: cs, r :: rs => is_round e banned c r /\ rounds e (if rd_ok r then banned ++ [solution_of r] else banned) cs rs
  | _, _ => False
  end.

Definition address_known (e : bid_env) (c : AdSelectCondition) : Prop :=
  (exists a, bid_area e (c_str (cond_ip c)) = Val a) /\ (exists a, bid_scenario e (c_str (cond_ip c)) = Val a).

Lemma rounds_exist e cs banned : Forall (address_known e) cs -> exists rs, rounds e banned cs rs.
Proof.
  intros Hcs. revert banned. induction Hcs as [|c cs [[a Ea] [b Eb]] Hcs IH]; intros banned; [by exists []|].
  assert (exists c', asked e banned c = Val c') as [c' Ec] by (unfold asked; rewrite Ea; cbn [mbind outcome_bind]; rewrite Eb; eexists; done).
  destruct (bid_search e c') as [ok r] eqn:Er.
  destruct (IH (if ok then banned ++ [sol_sId (res_solution r)] else banned)) as [rs Hrs].
  by exists (mkRound c' ok r :: rs).
Qed.

Lemma rounds_length e banned cs rs : rounds e banned cs rs -> length rs = length cs.
Proof. revert banned rs. induction cs as [|c cs IH]; intros banned [|r rs]; cbn; try done. intros [_ Hrs]. f_equal. eauto. Qed.

Lemma won_cons r rs : won (r :: rs) = (if rd_ok r then [solution_of r] else []) ++ won rs.
Proof. unfold won. rewrite filter_cons. by destruct (rd_ok r). Qed.

Lemma rounds_at e banned cs rs i c r :
  rounds e banned cs rs -> cs !! i = Some c -> rs !! i = Some r -> is_round e (banned ++ won (take i rs)) c r.
Proof.
  revert banned rs i. induction cs as [|c0 cs IH]; intros banned [|r0 rs] i; cbn [rounds]; try done. intros [H0 Hrs].
  destruct i as [|i].
  - intros [= ->] [= ->]. by rewrite app_nil_r.
  - intros Hc Hr. cbn [take]. specialize (IH _ _ _ Hrs Hc Hr). rewrite won_cons, app_assoc. by destruct (rd_ok r0); rewrite ?app_nil_r.
Qed.

Definition respects_bans (e : bid_env) : Prop :=
  forall c r, bid_search e c = (true, r) -> sol_sId (res_solution r) ∉ bannedSolutions c.

Lemma asked_bans e banned c c' x : asked e banned c = Val c' -> x ∈ banned -> x ∈ bannedSolutions c'.
Proof.
  unfold asked. destruct (bid_area _ _); [|done..]. cbn [mbind outcome_bind]. destruct (bid_scenario _ _); [|done..].
  cbn [mbind outcome_bind]. intros [= <-]. cbn. by destruct banned; [intros []%elem_of_nil|].
Qed.

Lemma rounds_distinct e banned cs rs :
  respects_bans e -> NoDup banned -> rounds e banned cs rs -> NoDup (banned ++ won rs).
Proof.
  intros Hb. revert banned rs. induction cs as [|c cs IH]; intros banned [|r rs] Hn; cbn [rounds]; try done.
  - by rewrite app_nil_r.
  - intros [[Ha Hs] Hrs]. rewrite won_cons. destruct (rd_ok r) eqn:Eok; [|by apply IH].
    rewrite app_assoc. apply IH; [|done]. apply NoDup_app. split_and!; [done| |apply NoDup_singleton].
    intros x Hx ->%list_elem_of_singleton. apply (Hb _ _ Hs). by eapply asked_bans.
Qed.

Section auction.
Context `{UrlNames, MapOrder, Base64, CryptoPP, OpenSSL, BoostBase64, Aes}.
Context `{AdxConst, PriceMemory, TaskConst, UserIds, Avro, LogConst}.
Context `{BiddingHandler}.

(** The rounds concluded in their order. *)
Fixpoint concluded (e : bid_env) (rs : list round) (idx : Z) (h : handler) : M handler :=
  match rs with
  | [] => mret h
  | r :: rs => h ← conclude e (left_as r) (rd_ok r) (rd_result r) idx h; concluded e rs (idx + 1) h
  end.

Lemma bid_loop_rounds e cs rs idx banned result h s :
  rounds e banned cs rs ->
  bid_loop e cs idx banned result h s
  = (h ← concluded e rs idx h; mret (result || existsb rd_ok rs, map left_as rs, h)) s.
Proof.
  revert rs idx banned result h s. induction cs as [|c cs IH]; intros [|r rs] idx banned result h s; cbn [rounds]; try done.
  - intros _. cbn. by rewrite orb_false_r.
  - intros [[Ha Hs] Hrs]. cbn [bid_loop concluded existsb map]. rewrite (run_lift _ _ _ _ Ha), Hs.
    change (if rd_ok r then rd_cond r else _) with (left_as r). rewrite !bind_run.
    destruct (conclude e _ _ _ idx h s) as [h' s'| |]; [|done..].
    rewrite bind_run, (IH rs _ _ _ _ _ Hrs), !bind_run.
    destruct (concluded e rs _ h' s') as [h'' s''| |]; [|done..]. cbn. by rewrite orb_assoc.
Qed.

(** The answer to an auction. *)
Definition answered (rs : list round) (h : handler) : M (option handler) :=
  let ok := existsb rd_ok rs in
  r ← gets resp;
  '(r, h) ← lift ((if ok then match_bid else reject_bid) r (filter_verdict ok (map left_as rs) h));
  put_resp r;; put_needLog false;; mret (Some h).

(** *** The auction, step by step *)

(** What the selection is asked for a condition, when the solutions [bid] were bid before in the request. *)
Record asked_with (e : bid_env) (bid : list Z) (c c' : AdSelectCondition) : Prop := {
  af_area : bid_area e (c_str (cond_ip c)) = Val (cond_dGeo c');
  af_scenario : exists n, bid_scenario e (c_str (cond_ip c)) = Val n /\ scenario c' = Some n;
  af_hour : cond_dHour c' = bid_hour e;
  af_banned : bannedSolutions c' = if bool_decide (bid = []) then bannedSolutions c else bid;
  af_place : at_place c' = at_place c;
  af_client : of_client c' = of_client c;
  af_ip : cond_ip c' = cond_ip c;
  af_user : cond_mtUserId c' = cond_mtUserId c;
  af_ssp : isFromSSP c' = isFromSSP c;
}.

(** How a condition is left: as it was asked, but with the id of the place the selection found when it found no ad. *)
Record left_from (ok : bool) (pid : Z) (c c' : AdSelectCondition) : Prop := {
  lf_pid : cond_mttyPid (at_place c') = if ok then cond_mttyPid (at_place c) else pid;
  lf_place : cond_adxpid (at_place c') = cond_adxpid (at_place c) /\ cond_adxid (at_place c') = cond_adxid (at_place c)
    /\ cond_basePrice (at_place c') = cond_basePrice (at_place c) /\ cond_width (at_place c') = cond_width (at_place c)
    /\ cond_height (at_place c') = cond_height (at_place c) /\ cond_bannerType (at_place c') = cond_bannerType (at_place c)
    /\ mttyContentType (at_place c') = mttyContentType (at_place c) /\ cond_mediaType (at_place c') = cond_mediaType (at_place c)
    /\ cond_dealId (at_place c') = cond_dealId (at_place c) /\ keywords (at_place c') = keywords (at_place c)
    /\ adplaceInfo (at_place c') = adplaceInfo (at_place c) /\ requiredCreativeLevel (at_place c') = requiredCreativeLevel (at_place c);
  lf_rest : of_client c' = of_client c /\ cond_ip c' = cond_ip c /\ cond_mtUserId c' = cond_mtUserId c /\ cond_dGeo c' = cond_dGeo c
    /\ cond_dHour c' = cond_dHour c /\ scenario c' = scenario c /\ bannedSolutions c' = bannedSolutions c /\ isFromSSP c' = isFromSSP c;
}.

(** The log item with the site of the result: everything else is as it was. *)
Record sited (m : Z) (l l' : LogItem) : Prop := {
  sd_site : mid (adInfo l') = m;
  sd_ad : forall n, set_mid n (adInfo l') = set_mid n (adInfo l);
  sd_rest : forall a, set_ad a l' = set_ad a l;
}.

(** The state when an item is logged, and after. *)
Definition log_set (l : LogItem) (s : task_state) : task_state :=
  mkState (params s) l (resp s) (needLog s) (logs s) (trafficCalls s) (db s).

(** One round: the selection is asked, its ad is added to the handler, and the item the handler fills is logged. *)
Record round_done (e : bid_env) (idx : Z) (bid : list Z) (c : AdSelectCondition) (r : round) (left_ : AdSelectCondition)
    (h h' : handler) (s s' : task_state) : Prop := {
  rn_asked : asked_with e bid c (rd_cond r);
  rn_found : bid_search e (rd_cond r) = (rd_ok r, rd_result r);
  rn_left : left_from (rd_ok r) (pl_pId (res_place (rd_result r))) (rd_cond r) left_;
  rn_built : exists hb item shouldLog l,
    (if rd_ok r then buildBidResult left_ (rd_result r) idx h = Val hb else hb = h)
    /\ sited (pl_mId (res_place (rd_result r))) (log s) item
    /\ fillLogItem left_ item (rd_ok r) hb = Val (shouldLog, l, h')
    /\ if (shouldLog : bool) then doLog (bid_task e) (log_set l s) = RVal tt s' else s' = log_set l s;
}.

(** The rounds of the conditions, in their order; a solution that was bid is banned for the rounds after. *)
Inductive auction (e : bid_env) : Z -> list Z -> list AdSelectCondition -> handler -> task_state ->
    list round -> list AdSelectCondition -> handler -> task_state -> Prop :=
| auction_end idx bid h s : auction e idx bid [] h s [] [] h s
| auction_round idx bid c cs h s r cl h1 s1 rs cls h2 s2 :
    round_done e idx bid c r cl h h1 s s1 ->
    auction e (idx + 1) (bid ++ (if rd_ok r then [solution_of r] else [])) cs h1 s1 rs cls h2 s2 ->
    auction e idx bid (c :: cs) h s (r :: rs) (cl :: cls) h2 s2.

Lemma asked_iff e bid c c' : asked e bid c = Val c' <-> asked_with e bid c c'.
Proof.
  unfold asked. split.
  - destruct (bid_area e _) as [a| |] eqn:Ea; [|done..]. cbn [mbind outcome_bind].
    destruct (bid_scenario e _) as [n| |] eqn:En; [|done..]. cbn [mbind outcome_bind]. intros [= <-].
    constructor; cbn; try done; [by exists n|]. by destruct bid.
  - intros [Ea (n & En & Es) Eh Eb Ep Ec Ei Eu Ef]. rewrite Ea. cbn [mbind outcome_bind]. rewrite En. cbn [mbind outcome_bind].
    destruct c' as [p cl ip u g hr sc b f]; cbn in *. subst. do 2 f_equal. by destruct bid.
Qed.

Lemma left_iff (ok : bool) pid c c' : (if ok then c else set_mttyPid pid c) = c' <-> left_from ok pid c c'.
Proof.
  split.
  - intros <-. by destruct ok.
  - intros [Ep (? & ? & ? & ? & ? & ? & ? & ? & ? & ? & ? & ?) (? & ? & ? & ? & ? & ? & ? & ?)].
    destruct c as [[] ? ? ? ? ? ? ? ?], c' as [[] ? ? ? ? ? ? ? ?]; cbn in *. destruct ok; subst; done.
Qed.

Lemma sited_iff m l l' : set_ad (set_mid m (adInfo l)) l = l' <-> sited m l l'.
Proof.
  split; [by intros <-|]. intros [Em Ea Er]. specialize (Er (adInfo l')). specialize (Ea m).
  assert (set_mid m (adInfo l') = adInfo l') as E by (rewrite <- Em; by destruct (adInfo l')).
  rewrite <- Ea, E, <- Er. by destruct l'.
Qed.

Lemma conclude_iff e c (ok : bool) r idx h h' s s' :
  conclude e c ok r idx h s = RVal h' s' <->
  exists hb (shouldLog : bool) l, (if ok then buildBidResult c r idx h = Val hb else hb = h)
    /\ fillLogItem c (set_ad (set_mid (pl_mId (res_place r)) (adInfo (log s))) (log s)) ok hb = Val (shouldLog, l, h')
    /\ if shouldLog then doLog (bid_task e) (log_set l s) = RVal tt s' else s' = log_set l s.
Proof.
  unfold conclude. split.
  - intros E. rewrite bind_run in E.
    assert (exists hb, (if ok then buildBidResult c r idx h = Val hb else hb = h)
      /\ (if ok then lift (buildBidResult c r idx h) else mret h) s = RVal hb s) as (hb & Hb & E1).
    { destruct ok; [|by exists h]. destruct (buildBidResult c r idx h) as [hb| |]; [by exists hb|done..]. }
    rewrite E1, run_gets, bind_run in E. unfold lift in E. exists hb.
    destruct (fillLogItem c _ ok hb) as [[[b l] h1]| |] eqn:Ef; [|done..]. exists b, l. rewrite (run_bind (put_log l) _ s tt (log_set l s) eq_refl), bind_run in E.
    destruct b; [destruct (doLog (bid_task e) (log_set l s)) as [[] s1| |] eqn:Ed; [|done..]|]; by injection E as <- <-.
  - intros (hb & b & l & Hb & Hf & Hd). rewrite bind_run.
    assert ((if ok then lift (buildBidResult c r idx h) else mret h) s = RVal hb s) as -> by (destruct ok; [unfold lift; by rewrite Hb|by subst]).
    rewrite run_gets, (run_lift _ _ _ _ Hf), (run_bind (put_log l) _ s tt (log_set l s) eq_refl), bind_run.
    destruct b; [by rewrite Hd|]. by subst.
Qed.

Lemma round_iff e idx bid c r cl h h' s s' :
  round_done e idx bid c r cl h h' s s' <->
  is_round e bid c r /\ cl = left_as r /\ conclude e cl (rd_ok r) (rd_result r) idx h s = RVal h' s'.
Proof.
  unfold is_round, left_as. split.
  - intros [Ha Hf Hl (hb & item & b & l & Hb & Hs & Hi & Hd)]. apply asked_iff in Ha. apply left_iff in Hl. apply sited_iff in Hs. subst item.
    split; [done|]. split; [done|]. apply conclude_iff. by exists hb, b, l.
  - intros ([Ha Hf] & -> & (hb & b & l & Hb & Hi & Hd)%conclude_iff). apply asked_iff in Ha.
    constructor; [done|done|by apply left_iff|]. eexists hb, _, b, l. split; [done|]. split; [by apply sited_iff|done].
Qed.

(** The loop of the callback runs the auction. *)
Lemma bid_loop_auction e cs idx bid result h s out s' :
  bid_loop e cs idx bid result h s = RVal out s' ->
  exists rs cls h', auction e idx bid cs h s rs cls h' s' /\ out = (result || existsb rd_ok rs, cls, h').
Proof.
  revert idx bid result h s out s'. induction cs as [|c cs IH]; intros idx bid result h s out s' E.
  - cbn in E. injection E as <- <-. exists [], [], h. split; [constructor|]. cbn. by rewrite orb_false_r.
  - cbn [bid_loop] in E. rewrite bind_run in E. unfold lift in E.
    destruct (asked e bid c) as [c'| |] eqn:Ea; [|done..]. destruct (bid_search e c') as [ok r] eqn:Es. set (cl := if ok then c' else _) in *.
    rewrite bind_run in E. destruct (conclude e cl ok r idx h s) as [h1 s1| |] eqn:Ec; [|done..]. rewrite bind_run in E.
    destruct (bid_loop e cs _ _ _ h1 s1) as [[[res cls] h2] s2| |] eqn:El; [|done..]. cbn in E. injection E as <- <-.
    destruct (IH _ _ _ _ _ _ _ El) as (rs & cls' & h2' & Hr & [= -> -> ->]).
    exists (mkRound c' ok r :: rs), (cl :: cls'), h2'. split; [|cbn; by rewrite orb_assoc].
    eapply (auction_round e idx bid c cs h s (mkRound c' ok r) cl h1 s1).
    + by apply round_iff.
    + cbn [rd_ok]. unfold solution_of. cbn [rd_result]. destruct ok; [done|by rewrite app_nil_r].
Qed.

Lemma auction_loop e cs idx bid result h s rs cls h' s' :
  auction e idx bid cs h s rs cls h' s' -> bid_loop e cs idx bid result h s = RVal (result || existsb rd_ok rs, cls, h') s'.
Proof.
  intros Ha. revert result. induction Ha as [|idx bid c cs h s r cl h1 s1 rs cls h2 s2 Hr Ha IH]; intros result; [cbn; by rewrite orb_false_r|].
  apply round_iff in Hr as ([Hk Hs] & -> & Hc). cbn [bid_loop existsb]. rewrite (run_lift _ _ _ _ Hk), Hs.
  change (if rd_ok r then rd_cond r else _) with (left_as r). rewrite (run_bind _ _ _ _ _ Hc), bind_run.
  replace (if rd_ok r then bid ++ [_] else bid) with (bid ++ (if rd_ok r then [solution_of r] else []))
    by (destruct (rd_ok r); [done|by rewrite app_nil_r]).
  rewrite IH. cbn. by rewrite orb_assoc.
Qed.

(** The rounds of an auction, as a list. *)
Lemma auction_rounds e idx bid cs h s rs cls h' s' : auction e idx bid cs h s rs cls h' s' -> rounds e bid cs rs.
Proof.
  induction 1 as [|idx bid c cs h s r cl h1 s1 rs cls h2 s2 Hr Ha IH]; [done|]. apply round_iff in Hr as (Hr & _ & _). split; [done|].
  destruct (rd_ok r); [done|by rewrite app_nil_r in IH].
Qed.

(** C7: The auction of a request.  A request that is posted and has conditions ends with a handler and a state
    exactly when its rounds do: each condition is asked for once, in its order, with the area and the scenario
    of its address, the code of the hour and, once a solution was bid, the solutions that were bid before as
    the banned ones, and unchanged otherwise; an ad that is found is added to the handler's answer under the index
    of the round, else the place takes the id the selection gave it; the handler fills the log item, which holds
    the site of the result, and the item is logged when the handler says so.  After the rounds the handler is told
    whether an ad was found, and writes the response with its bids if one was and without bids if not; the request
    itself is not logged again.  When the ad selection never answers with a solution it is told to avoid, no solution
    is bid twice in a request. *)
Theorem bid_auction e h h1 cs s h' s' :
  isPost (bid_task e) = true -> filter_conditions h = Val (h1, Some cs) ->
  (bid_customLogic e (Some h) s = RVal h' s' <->
   exists rs cls h2 s2 resp' h3, auction e 0 [] cs h1 s rs cls h2 s2
     /\ (if existsb rd_ok rs then match_bid (resp s2) (filter_verdict true cls h2) else reject_bid (resp s2) (filter_verdict false cls h2))
        = Val (resp', h3)
     /\ h' = Some h3 /\ s' = mkState (params s2) (log s2) resp' false (logs s2) (trafficCalls s2) (db s2))
  /\ (respects_bans e -> forall rs cls h2 s2, auction e 0 [] cs h1 s rs cls h2 s2 -> NoDup (won rs)).
Proof.
  intros Hpost Hf. split; [|intros Hb rs cls h2 s2 Ha; apply (rounds_distinct e [] cs rs Hb); [constructor|by eapply auction_rounds]].
  unfold bid_customLogic. rewrite Hpost, (run_lift _ _ _ _ Hf), !bind_run. split.
  - destruct (bid_loop e cs 0 [] false h1 s) as [[[res cls] h2] s2| |] eqn:El; [|done..]. cbn [mret M_ret]. rewrite run_gets, bind_run.
    destruct (bid_loop_auction e cs 0 [] false h1 s _ _ El) as (rs & cls' & h2' & Ha & [= -> -> ->]).
    unfold lift. intros E. exists rs, cls', h2', s2.
    destruct (existsb rd_ok rs);
      [destruct (match_bid _ _) as [[r3 h3]| |] eqn:Em|destruct (reject_bid _ _) as [[r3 h3]| |] eqn:Em]; try done;
      cbn in E; injection E as <- <-; by exists r3, h3.
  - intros (rs & cls & h2 & s2 & r3 & h3 & Ha & Hr & -> & ->). rewrite (auction_loop e cs 0 [] false h1 s rs cls h2 s2 Ha).
    cbn [mret M_ret orb]. rewrite run_gets, (run_lift _ (r3, h3)) by (by destruct (existsb rd_ok rs)). reflexivity.
Qed.

(** A request that is no POST, or of no exchange, is answered with an empty page. *)
Lemma bid_refused e h s :
  isPost (bid_task e) = false \/ h = None ->
  bid_customLogic e h s
  = RVal h (mkState (params s) (set_reqStatus 500 (log s)) (status 200 [] (resp s)) (needLog s) (logs s) (trafficCalls s) (db s)).
Proof. unfold bid_customLogic. intros [Hp| ->]; [|done]. rewrite Hp. by destruct h. Qed.
End auction.

(** ** Instances *)

Module BidInstance.
#[local] Existing Instance toy_adx.
#[local] Existing Instance toy_adx_laws.
#[local] Instance the_paths : BidConst := {
  BID_QUERY_PATH m := match m with
    | BID_BAIDU => str "/baidu" | BID_TANX => str "/tanx" | BID_YOUKU => str "/youku" | BID_GDT => str "/gdt" | BID_SOHU => str "/sohu"
    | BID_NETEASE => str "/netease" | BID_GUANGYIN => str "/guangyin" | BID_INMOBI => str "/inmobi" | BID_NEX => str "/nex"
    | BID_KUPAI => str "/kupai" | BID_LIEBAO => str "/liebao" | BID_360MAX => str "/360max" | BID_YIDIAN => str "/yidian"
    | BID_2345 => str "/2345"
    end }.

Lemma bid_routes_witness :
  exists t, init None = Val t /\ getAdxId t (str "/sohu") = Val (adx_id ADX_SOHU_PC) /\ getAdxId t (str "/other") = Val 0
    /\ fst (updateBiddingHandler (adx_id ADX_SOHU_PC) (handlers_after [0; 101])) = Some SohuBiddingHandler.
Proof.
  destruct bid_routes as (t & E & _ & Hm & Hno).
  - intros []; cbn; lia.
  - intros [] []; first [reflexivity | intros E; vm_compute in E; discriminate E].
  - exists t. split; [exact E|]. split; [exact (proj1 (Hm BID_SOHU []))|]. split; [|exact (proj2 (Hm BID_SOHU [0; 101]))].
    refine (proj1 (Hno (str "/other") [] _)). intros []; vm_compute; discriminate.
Defined.

Import UrlHelper.Concrete.
#[local] Existing Instance toy_users.
#[local] Existing Instance toy_const.
#[local] Existing Instance toy_crypto.
#[local] Existing Instance toy_memory.
#[local] Existing Instance toy_openssl.
#[local] Existing Instance toy_boost.
#[local] Existing Instance toy_aes.
#[local] Existing Instance LogConcrete.log_const.
#[local] Instance no_avro : Avro := { avro_encode _ := [] }.

(** A handler of two places that writes down the solutions it bids. *)
#[local] Instance notes : BiddingHandler := {
  handler := list Z;
  parseRequestData _ h := Val (true, h);
  filter_conditions h := Val (h, Some [condition0; condition0]);
  filter_verdict _ _ h := h;
  buildBidResult _ r _ h := Val (h ++ [sol_sId (res_solution r)]);
  fillLogItem _ l _ h := Val (false, l, h);
  match_bid r h := Val (set_body (flat_map to_string h) r, h);
  reject_bid r h := Val (r, h);
}.

(** An ad selection with the solutions 7 and 8. *)
Definition pick (c : AdSelectCondition) : bool * SelectResult :=
  let found n := mkResult (mkSolution n 1 1 []) (mkBanner 1 1 [] 1 1 1 [] []) (mkPlace 1 [] 1 1 1 1 1) 1 1 1 1 one one [] in
  if decide (7 ∈ bannedSolutions c) then if decide (8 ∈ bannedSolutions c) then (false, found 0) else (true, found 8) else (true, found 7).
Definition two_places : bid_env :=
  mkBidEnv (mkTaskEnv [] true [] [] (str "1.2.3.4") [] 0 (0, 0) None [] false SEND_OK true 0%nat) pick
    (fun _ => Val 86) (str "101") (fun _ => Val 3).
Definition no_notes : handler := ([] : list Z).
Definition fresh_state : task_state := mkState ∅ log0 (mkResponse 200 [] ∅ [] [] false) true log_state0 [] [].

Lemma bid_auction_witness :
  exists rs cls h2 s2, auction two_places 0 [] [condition0; condition0] no_notes fresh_state rs cls h2 s2 /\ NoDup (won rs).
Proof.
  destruct (bid_customLogic two_places (Some no_notes) fresh_state) as [h' s'| |] eqn:E; [|discriminate E..].
  destruct (bid_auction two_places no_notes no_notes [condition0; condition0] fresh_state h' s') as [Hrun Hdist]; [reflexivity|reflexivity|].
  destruct (proj1 Hrun E) as (rs & cls & h2 & s2 & _ & _ & Ha & _). exists rs, cls, h2, s2. split; [exact Ha|]. refine (Hdist _ _ _ _ _ Ha).
  intros c r. cbn [bid_search two_places]. unfold pick.
  destruct (decide (7 ∈ bannedSolutions c)); [destruct (decide (8 ∈ bannedSolutions c))|]; intros E'; by inversion E'.
Defined.

Example two_places_answer :
  match bid_customLogic two_places (Some no_notes) fresh_state with RVal _ s => body (resp s) | _ => [] end = str "78".
Proof. reflexivity. Qed.
End BidInstance.
