(* ===== verification/BidAnswer.v ===== *)
(** * BidAnswer: the answer to a bid request, for every exchange (core/logic/bid_query_task.cpp)

    What the bid task promises of an answer depends on a few promises of the handler: adding the ad
    of a round adds one message to its response, logging leaves the response as it is, and the
    response that is written holds these messages.  [HandlerAnswers] states them.  The theorem of an
    exchange is [auction_answer] at the instance that its handler gives. *)
From Stdlib Require Import SpecFloat.
From S2P Require Import Prelude CString UrlCodec UrlParams Cypher UrlHelper Rijndael RijndaelProofs SohuPrice.
From S2P Require Import LogPusher Double PriceDecode Pricing Http QueryTask ClickTask CookieMapping TraceTask BidUrl UserClient AdSelect ShowTask BidBase BidTask.

(** The rounds that found an ad, with their positions. *)
Fixpoint winners (i : Z) (rs : list round) : list (Z * round) :=
  match rs with [] => [] | r :: rs => if rd_ok r then (i, r) :: winners (i + 1) rs else winners (i + 1) rs end.

Lemma winners_nil i rs : winners i rs = [] <-> existsb rd_ok rs = false.
Proof.
  revert i. induction rs as [|r rs IH]; intros i; [done|]. cbn [winners existsb]. destruct (rd_ok r); [done|]. apply IH.
Qed.

(** [request] is what the handler keeps of the request, [holds_ads] what its response holds,
    [round_ad] what the message of a round says, and [written] what a response becomes. *)
Class HandlerAnswers (BH : BiddingHandler) := {
  request_msg : Type; ad_msg : Type;
  request : handler -> request_msg;
  holds_ads : handler -> list ad_msg -> Prop;
  round_ad : request_msg -> Z * round -> ad_msg -> Prop;
  written : request_msg -> list ad_msg -> HttpResponse -> HttpResponse -> Prop;
  build_adds c r i h h' ms : buildBidResult c r i h = Val h' -> holds_ads h ms ->
    request h' = request h /\ exists m, holds_ads h' (ms ++ [m]) /\ round_ad (request h) (i, mkRound c true r) m;
  log_keeps c l ok h b l' h' ms : fillLogItem c l ok h = Val (b, l', h') -> holds_ads h ms -> request h' = request h /\ holds_ads h' ms;
  verdict_keeps ok cs h ms : holds_ads h ms -> request (filter_verdict ok cs h) = request h /\ holds_ads (filter_verdict ok cs h) ms;
  match_writes r h r' h' ms : match_bid r h = Val (r', h') -> holds_ads h ms -> ms <> [] -> written (request h) ms r r';
  reject_writes r h r' h' : reject_bid r h = Val (r', h') -> holds_ads h [] -> written (request h) [] r r';
}.

Section answer.
Context `{UrlNames, MapOrder, Base64, CryptoPP, OpenSSL, BoostBase64, Aes}.
Context `{AdxConst, PriceMemory, TaskConst, UserIds, Avro, LogConst}.
Context {BH : BiddingHandler} {HA : HandlerAnswers BH}.

Lemma doLog_resp t s s' : doLog t s = RVal tt s' -> resp s' = resp s.
Proof.
  unfold doLog, record_traffic. rewrite !run_gets. destruct (match logger t with Some i => _ | None => _ end) as [i ls].
  rewrite bind_run. unfold lift. destruct (push _ _ _ _ _ _ _) as [ls'| |]; [|done..]. rewrite bind_run. cbn [put_logs].
  unfold add_traffic. repeat case_match; by intros [= <-].
Qed.

Lemma conclude_ads be c ok r i h h' s s' ms :
  conclude be c ok r i h s = RVal h' s' -> holds_ads h ms ->
  request h' = request h /\ resp s' = resp s
  /\ if ok then exists m, holds_ads h' (ms ++ [m]) /\ round_ad (request h) (i, mkRound c true r) m else holds_ads h' ms.
Proof.
  unfold conclude. intros E Hw. rewrite bind_run in E.
  assert (forall h1 ms1, holds_ads h1 ms1 ->
    (l ← gets log; '(should, l, h0) ← lift (fillLogItem c (set_ad (set_mid (pl_mId (res_place r)) (adInfo l)) l) ok h1);
     put_log l;; (if (should : bool) then doLog (bid_task be) else mret tt);; mret h0) s = RVal h' s' ->
    request h' = request h1 /\ holds_ads h' ms1 /\ resp s' = resp s) as Hlog.
  { intros h1 ms1 Hm. rewrite run_gets, bind_run. unfold lift.
    destruct (fillLogItem _ _ _ _) as [[[sh l] h0]| |] eqn:Ef; [|done..].
    destruct (log_keeps _ _ _ _ _ _ _ ms1 Ef Hm) as [K1 K2]. rewrite bind_run. cbn [put_log].
    rewrite bind_run. destruct sh; [|by intros [= <- <-]].
    destruct (doLog _ _) as [[] s2| |] eqn:Ed; [|done..]. apply doLog_resp in Ed. intros [= <- <-]. by rewrite Ed. }
  unfold lift in E. destruct ok.
  - destruct (buildBidResult c r i h) as [h1| |] eqn:Eb; [|done..]. destruct (build_adds _ _ _ _ _ ms Eb Hw) as (Q & m & Hm & Ha).
    destruct (Hlog h1 _ Hm E) as (R1 & R2 & R3). split; [congruence|]. split; [done|]. by exists m.
  - destruct (Hlog h _ Hw E) as (R1 & R2 & R3). done.
Qed.

Lemma concluded_ads be rs i h h' s s' ms :
  concluded be rs i h s = RVal h' s' -> holds_ads h ms ->
  request h' = request h /\ resp s' = resp s
  /\ exists new, holds_ads h' (ms ++ new) /\ Forall2 (round_ad (request h)) (winners i rs) new.
Proof.
  revert i h s ms. induction rs as [|r rs IH]; intros i h s ms E Hw; cbn [concluded winners] in *.
  - injection E as <- <-. split; [done|]. split; [done|]. exists []. by rewrite app_nil_r.
  - rewrite bind_run in E. destruct (conclude _ _ _ _ _ _ _) as [h1 s1| |] eqn:Ec; [|done..].
    destruct (conclude_ads be _ _ _ _ _ _ _ _ _ Ec Hw) as (R1 & R2 & R3). destruct (rd_ok r) eqn:Eok.
    + destruct R3 as (m & Hw1 & Ha). destruct (IH _ _ _ _ E Hw1) as (Q1 & Q2 & new & Hn & Hf).
      rewrite R1 in Q1, Hf. split; [done|]. split; [congruence|]. exists (m :: new). rewrite <- app_assoc in Hn. split; [done|].
      constructor; [|done]. assert (mkRound (left_as r) true (rd_result r) = r) as <- by (destruct r; cbn in *; by subst). done.
    + destruct (IH _ _ _ _ E R3) as (Q1 & Q2 & new & Hn & Hf). rewrite R1 in Q1, Hf.
      split; [done|]. split; [congruence|]. by exists new.
Qed.

(** The end of a request. *)
Lemma finished_ads (ok : bool) h h' ms s s' :
  holds_ads h ms -> (ok = false <-> ms = []) ->
  (r ← gets resp; '(r, h) ← lift (if ok then match_bid r h else reject_bid r h);
   put_resp r;; put_needLog false;; mret (Some h)) s = RVal h' s' ->
  written (request h) ms (resp s) (resp s') /\ needLog s' = false.
Proof.
  intros Hw Hok E. rewrite run_gets, bind_run in E. unfold lift in E.
  destruct (if ok then match_bid (resp s) h else reject_bid (resp s) h) as [[r' h1]| |] eqn:Em; [|done..].
  injection E as _ <-. split; [|done]. cbn. destruct ok.
  - eapply match_writes; [done..|]. intros ->. by destruct Hok as [_ Hok]; specialize (Hok eq_refl).
  - destruct Hok as [Hok _]. rewrite (Hok eq_refl) in *. by eapply reject_writes.
Qed.

(** A request that is answered was filtered. *)
Lemma answered_filtered be h0 h' s s' :
  isPost (bid_task be) = true -> bid_customLogic be (Some h0) s = RVal h' s' -> exists h1 o, filter_conditions h0 = Val (h1, o).
Proof.
  intros Hpost E. unfold bid_customLogic in E. rewrite Hpost, bind_run in E. unfold lift in E.
  destruct (filter_conditions h0) as [[h1 o]| |]; [|done..]. by exists h1, o.
Qed.

(** The answer to a request: one message with an ad for each round that found one, in the order of
    the rounds; the rounds are those of the conditions, and there are none when the handler refuses
    the request. *)
Lemma auction_answer be h0 h1 (o : option (list AdSelectCondition)) h' s s' :
  isPost (bid_task be) = true -> filter_conditions h0 = Val (h1, o) -> holds_ads h1 [] -> (forall c, address_known be c) ->
  bid_customLogic be (Some h0) s = RVal h' s' ->
  exists rs ms, match o with Some cs => rounds be [] cs rs | None => rs = [] end
    /\ Forall2 (round_ad (request h1)) (winners 0 rs) ms
    /\ written (request h1) ms (resp s) (resp s') /\ needLog s' = false.
Proof.
  intros Hpost Ef Hw Hadr E. unfold bid_customLogic in E. rewrite Hpost, (run_lift _ _ _ _ Ef) in E.
  destruct o as [cs|].
  - destruct (rounds_exist be cs []) as [rs Hrs]; [by apply Forall_forall|].
    rewrite bind_run, bind_run, (bid_loop_rounds be cs rs 0 [] false h1 s Hrs), bind_run in E.
    destruct (concluded be rs 0 h1 s) as [h2 s2| |] eqn:Ec; [|done..].
    destruct (concluded_ads be rs 0 h1 h2 s s2 [] Ec Hw) as (Q1 & Q2 & new & Hn & Hf).
    destruct (verdict_keeps (existsb rd_ok rs) (map left_as rs) h2 new Hn) as [V1 V2].
    destruct (finished_ads (existsb rd_ok rs) (filter_verdict (existsb rd_ok rs) (map left_as rs) h2) h' new s2 s') as [A1 A2]; [done| |exact E|].
    + rewrite <- (winners_nil 0 rs). split; intros Ew; rewrite Ew in Hf; [by apply Forall2_nil_inv_l in Hf|by apply Forall2_nil_inv_r in Hf].
    + exists rs, new. rewrite V1, Q1, Q2 in A1. done.
  - destruct (finished_ads false h1 h' [] s s') as [A1 A2]; [done|done|exact E|]. by exists [], [].
Qed.
End answer.

(** ** What the instances of the exchanges share *)

(** Importing it brings the interfaces as well. *)
Module HandlerInstance.
#[export] Existing Instances literal_names literal_names_laws literal_names_literals list_order list_order_laws base64_reference base64_reference_laws
  toy_crypto toy_users toy_const toy_adx toy_aes toy_boost toy_memory
  LogConcrete.log_const map_store map_devices day ShowInstance.show_const ShowInstance.one_creative BrowserInstance.browser_codes.
#[export] Instance no_avro : Avro := { avro_encode _ := [] }.
#[export] Instance no_snippets : Snippets := { SNIPPET_IFRAME _ _ _ _ _ _ := []; SNIPPET_IFRAME_SUPPORT_CM _ _ _ _ _ _ := []; SNIPPET_SCRIPT _ _ _ _ _ _ _ _ := [] }.
#[export] Instance ua_const : UaConst := {
  os_id _ := 1; brand_id _ := 1;
  device_id d := match d with
    | SOLUTION_DEVICE_IPAD => 1 | SOLUTION_DEVICE_IPHONE => 2 | SOLUTION_DEVICE_ANDROID => 3 | SOLUTION_DEVICE_ANDROIDPAD => 4
    | SOLUTION_DEVICE_WINDOWSPHONE => 5 | SOLUTION_DEVICE_OTHER => 6
    end }.
#[export] Instance net_const : NetConst := { network_id _ := 1; provider_id _ := 1 }.
#[export] Instance mt_common : MtCommon := { stoi_safe s := match stoi s with Val n => n | _ => 0 end }.

Definition the_env : handler_env :=
  mkHandlerEnv (fun _ => Val (str "0086-110000-110100")) 5 (fun i => mkClock (1000 + i) 2000 1476779974 0 [] []) 
    (mkUrls (str "https://s.cn/s") (str "http://s.cn/s") (str "https://c.cn/c") (str "http://c.cn/c"))
    true ∅ Answered (str "<%s>").
Definition found (c : AdSelectCondition) : bool * SelectResult :=
  (true, mkResult (mkSolution (if decide (7 ∈ bannedSolutions c) then 8 else 7) 8 3 []) (mkBanner 10326 12 (str "{}") 1 300 250 [] [])
           (mkPlace 6636 (str "x") 1 3 4 0 20) 2 77 100 90 one (S754_zero false) (str "1.0")).
Definition the_bids : bid_env :=
  mkBidEnv (mkTaskEnv [] true [] [] (str "1.2.3.4") [] 0 (0, 0) None [] false SEND_OK true 0%nat) found
    (fun _ => Val 86) (str "101") (fun _ => Val 3).
Definition base0 : base :=
  mkBase false ad0 (mkExtra 0 0 [] ∅ [] [] (mkDevice 0 0 0 0 []) [] one []) (mkInfo (mkKV [] [] ∅ false) mapping0 false false false) [].
Definition the_state : task_state := mkState ∅ log0 (mkResponse 200 [] ∅ [] [] false) true log_state0 [] [].
End HandlerInstance.
