(* ===== verification/BaiduBid.v ===== *)
(** * BaiduBid: the handler of Baidu (protocol/baidu/baidu_bidding_handler.cpp, protocol/baidu/baidu_bidding_handler.h)

    A request holds several slots.  The first tells who the client is; the others take the client
    from it.  A round that found an ad adds it to the response with its price, its creative and the
    urls that count its click and its impression.

    The generated classes of the messages are the parameter [BaiduProto]; the records below are the
    fields that the handler reads and writes.  A field that is not set reads as its default, which
    the records hold; where the handler asks whether a field is set it is an [option]. *)
From Stdlib Require Import SpecFloat.
From S2P Require Import SizeMap TypeTable.
From S2P Require Import Prelude CString UrlCodec UrlParams Cypher UrlHelper Rijndael RijndaelProofs SohuPrice Template.
From S2P Require Import LogPusher Double PriceDecode Pricing Http QueryTask ClickTask CookieMapping TraceTask BidUrl UserClient AdSelect ShowTask.
From S2P Require Import BidBase BidReport BidTask BidAnswer.

(** ** Messages *)

Record AdSlot := mkSlot {
  ad_block_key : Z; sequence_id : Z; slot_width : Z; slot_height : Z; minimum_cpm : option Z; allowed_non_nativead : bool;
  native_image : Z * Z; native_logo : Z * Z; secure : bool;
}.
Record MobileApp := mkApp { app_id : option bytes; app_bundle_id : bytes; app_category : option Z }.
(** The type and the text of an id. *)
Record Mobile := mkMobile {
  mb_platform : Z; mb_device_type : Z; carrier_id : Z; wireless_network_type : option Z; mobile_app : option MobileApp;
  for_advertising_id : list (Z * bytes); mobile_id : list (Z * bytes);
}.
Record BidRequest := mkRequest {
  req_id : bytes; req_ip : bytes; req_user_agent : bytes; baidu_id_list : list bytes; user_geo_info : option (list (double * double));
  req_referer : option bytes; site_category : option Z; mobile : option Mobile; adslot : list AdSlot; is_test : bool; is_ping : bool;
}.

Record NativeImage := mkImage { img_url : bytes; img_width : Z; img_height : Z }.
Record NativeAd := mkNative { native_title : option bytes; logo_icon : option NativeImage; native_images : list NativeImage }.
Record BidAd := mkBidAd {
  max_cpm : Z; advertiser_id : Z; creative_id : Z; ad_height : Z; ad_width : Z; ad_sequence_id : Z; ad_category : Z; ad_type : Z;
  html_snippet : option bytes; landing_page : bytes; target_url : list bytes; monitor_urls : list bytes; native_ad : option NativeAd;
}.
Record BidResponse := mkBidResponse { response_id : option bytes; ads : list BidAd }.
Definition response0 : BidResponse := mkBidResponse None [].

Class BaiduProto := {
  parse_request : bytes -> bool * BidRequest;          (* ParseFromString of a cleared message *)
  write_response : BidResponse -> option bytes;        (* SerializeToString *)
  debug_mobile : Mobile -> bytes;                      (* DebugString *)
}.

Record baidu := mkBaidu { bd_base : base; bidRequest : BidRequest; bidResponse : BidResponse }.
Definition on_base (f : base -> base) (h : baidu) : baidu := mkBaidu (f (bd_base h)) (bidRequest h) (bidResponse h).

Definition AD_BD_CLICK_MACRO : bytes := str "%%CLICK_URL_0%%".
Definition AD_BD_PRICE_MACRO : bytes := str "%%PRICE%%".
Definition AD_COOKIEMAPPING_BAIDU : bytes := str "http://cm.pos.baidu.com/pixel".

Section baidu.
Context `{UrlNames, MapOrder, Base64, CryptoPP, UserIds, Snippets, CmConst, RecordStore, DeviceOrder}.
Context `{AdxConst, ShowConst, UaConst, NetConst, MtCommon, Json, BaiduProto}.
Context (e : handler_env) (sizes_ : AdSizeMap) (types : type_state).

(** ** The client *)

Definition getDevicebyPlat (os_type device_type : Z) : device_name :=
  if os_type =? 1 then
    if device_type =? 1 then SOLUTION_DEVICE_IPHONE else if device_type =? 2 then SOLUTION_DEVICE_IPAD else SOLUTION_DEVICE_OTHER
  else if os_type =? 2 then
    if device_type =? 1 then SOLUTION_DEVICE_ANDROID else if device_type =? 2 then SOLUTION_DEVICE_ANDROIDPAD else SOLUTION_DEVICE_OTHER
  else if os_type =? 3 then SOLUTION_DEVICE_WINDOWSPHONE
  else SOLUTION_DEVICE_OTHER.

Definition getMobileNet (net_type : Z) : network_name :=
  if net_type =? 1 then SOLUTION_NETWORK_WIFI else if net_type =? 2 then SOLUTION_NETWORK_2G
  else if net_type =? 3 then SOLUTION_NETWORK_3G else if net_type =? 4 then SOLUTION_NETWORK_4G else SOLUTION_NETWORK_OTHER.

Definition getIDFA_AND (t : Z * bytes) (d : device_ids) : device_ids :=
  if fst t =? 4 then mkIds [] (imei d) (snd t) (mac d)
  else if fst t =? 5 then mkIds (snd t) (imei d) [] (mac d)
  else mkIds [] (imei d) [] (mac d).

Definition getMAC_IMEI (t : Z * bytes) (d : device_ids) : device_ids :=
  if fst t =? 1 then mkIds (idfa d) (snd t) (androidId d) []
  else if fst t =? 2 then mkIds (idfa d) [] (androidId d) (snd t)
  else mkIds (idfa d) [] (androidId d) [].

(** ** The request *)

Definition baidu_parseRequestData (data : bytes) (h : baidu) : outcome (bool * baidu) :=
  let '(ok, r) := parse_request data in Val (ok, mkBaidu (bd_base h) r response0).

(** The sizes and the type of a slot: [width] and [height] are those of the last size. *)
Definition slot_sizes (r : BidRequest) (s : AdSlot) : Z * list (Z * Z) :=
  let app := match mobile r with Some m => bool_decide (is_Some (mobile_app m)) | None => false end in
  if negb (allowed_non_nativead s) then (BANNER_TYPE_PRIMITIVE, SizeMap.get sizes_ (native_image s) MATERIAL_TYPE_PIC)
  else if app then (BANNER_TYPE_PRIMITIVE, SizeMap.get sizes_ (slot_width s, slot_height s) MATERIAL_TYPE_PIC)
  else (0, [(slot_width s, slot_height s)]).

(** What the condition of a slot holds before its client. *)
Definition slot_place (r : BidRequest) (s : AdSlot) : cond_place :=
  let '(type, szs) := slot_sizes r s in
  let '(w, h) := default (0, 0) (last szs) in
  mkCondPlace (to_string (s64 (ad_block_key s))) 0 (adx_id ADX_BAIDU) (default 0 (minimum_cpm s)) w h type
    (match site_category r with Some c => getContentType types (adx_id ADX_BAIDU) (to_string c) | None => 0 end) 0 [] [] (Some szs) 99.

(** The client of a request: what its place becomes, the client, and the key of its user. *)
Definition mobile_client (r : BidRequest) (m : Mobile) (geo : double * double) (p : cond_place) (c : BidCookieMappingInfo)
    : cond_place * cond_client * BidCookieMappingInfo :=
  let dev := device_id (getDevicebyPlat (mb_platform m) (mb_device_type m)) in
  let dev := if dev =? device_id SOLUTION_DEVICE_OTHER then getMobileTypeFromUA (req_user_agent r) else dev in
  let net := match wireless_network_type m with Some n => network_id (getMobileNet n) | None => 0 end in
  let client ids := mkClient ids dev SOLUTION_FLOWTYPE_MOBILE 0 net (s32 (carrier_id m)) [] [] geo None [] in
  match mobile_app m with
  | Some app =>
    let pid := match app_id app with Some _ => app_bundle_id app | None => cond_adxpid p end in
    let content := match app_category app with
                   | Some a => getContentType types (adx_id ADX_BAIDU_MOBILE) (to_string a)
                   | None => AdSelect.mttyContentType p
                   end in
    let ids := mkIds [] [] [] [] in
    let ids := match for_advertising_id m with t :: _ => getIDFA_AND t ids | [] => ids end in
    let ids := match mobile_id m with t :: _ => getMAC_IMEI t ids | [] => ids end in
    let ids := upper_ids ids in
    (set_place_adx (adx_id ADX_BAIDU_MOBILE) pid content p, client ids, cookieMappingKeyMobile (md5_ids ids) ids 0 [] c)
  | None =>
    (set_place_adx (adx_id ADX_BAIDU_MOBILE) (cond_adxpid p) (AdSelect.mttyContentType p) p, client (mkIds [] [] [] []),
     cookieMappingKeyPC (adx_id ADX_BAIDU_MOBILE) (default [] (head (baidu_id_list r))) c)
  end.

Definition browser_client (r : BidRequest) (geo : double * double) (p : cond_place) (c : BidCookieMappingInfo)
    : cond_place * cond_client * BidCookieMappingInfo :=
  let cookie := default [] (head (baidu_id_list r)) in
  let dev := getMobileTypeFromUA (req_user_agent r) in
  let ids := mkIds [] [] [] [] in
  if negb (dev =? device_id SOLUTION_DEVICE_OTHER) then
    (set_place_adx (adx_id ADX_BAIDU_MOBILE) (cond_adxpid p) (AdSelect.mttyContentType p) p,
     mkClient ids dev SOLUTION_FLOWTYPE_MOBILE 0 0 0 [] [] geo None [], cookieMappingKeyPC (adx_id ADX_BAIDU_MOBILE) cookie c)
  else
    (p, mkClient ids dev SOLUTION_FLOWTYPE_PC (getOSTypeFromUA (req_user_agent r)) 0 0 [] [] geo None [],
     cookieMappingKeyPC (adx_id ADX_BAIDU) cookie c).

Definition condition_of (r : BidRequest) (p : cond_place) (d : cond_client) (user : bytes) : AdSelectCondition :=
  mkCondition p d (req_ip r) user 0 [] None [] false.

Definition first_condition (r : BidRequest) (s : AdSlot) (h : base) : AdSelectCondition * base :=
  let geo := match user_geo_info r with Some (g :: _) => g | _ => (S754_zero false, S754_zero false) end in
  let p := slot_place r s in
  let '(p, d, c) := match mobile r with
                    | Some m => mobile_client r m geo p (cmInfo h)
                    | None => browser_client r geo p (cmInfo h)
                    end in
  let '(h, user) := query_user (disabledCookieMapping e) (mapping_store e) (mapping_answer e) [] (set_cm c h) in
  (condition_of r p d user, h).

(** The other slots. *)
Definition other_condition (r : BidRequest) (first : AdSelectCondition) (s : AdSlot) : AdSelectCondition :=
  let f := of_client first in let fp := at_place first in
  condition_of r (set_place_adx (cond_adxid fp) (cond_adxpid fp) (AdSelect.mttyContentType fp) (slot_place r s))
    (mkClient (mkIds (idfa (cond_ids f)) (imei (cond_ids f)) (androidId (cond_ids f)) []) (cond_mobileDevice f) (cond_flowType f)
       (cond_pcOS f) (mobileNetwork f) 0 [] [] (cond_geo f) None []) [].

Definition baidu_filter_conditions (h : baidu) : outcome (baidu * option (list AdSelectCondition)) :=
  let r := bidRequest h in
  if is_ping r || is_test r then Val (on_base bidFailedReturn h, None)
  else match adslot r with
       | [] => Val (h, Some [])
       | s :: ss =>
         let '(c, b) := first_condition r s (bd_base h) in
         Val (mkBaidu b r (bidResponse h), Some (c :: map (other_condition r c) ss))
       end.

Definition baidu_filter_verdict (ok : bool) (cs : list AdSelectCondition) (h : baidu) : baidu := on_base (set_accepted ok) h.

(** ** The response *)

(** [snprintf(html, 4096, "< a herf=%s /> %s", ...)] *)
Definition baidu_generateHtmlSnippet (cookieMappingUrl : bytes) : outcome bytes :=
  printed 4096 (str "< a herf=" ++ AD_BD_CLICK_MACRO ++ str " /> " ++ c_str cookieMappingUrl).

Definition quote : bytes := [34].
Definition baiduHtmlSnippet (cookieMappingUrl : bytes) : outcome bytes :=
  baidu_generateHtmlSnippet
    (if bool_decide (cookieMappingUrl = []) then []
     else str "<img width=" ++ quote ++ str "0" ++ quote ++ str " height=" ++ quote ++ str "0" ++ quote ++ str " src=" ++ quote
          ++ cookieMappingUrl ++ quote ++ str "/>").

(** The url that reports the impression. *)
Definition baidu_monitor (isIOS : bool) (k : round_clock) (h : base) : outcome (base * bytes) := report_at e isIOS AD_BD_PRICE_MACRO k h.

(** The url that counts the click, with the kind of a mobile impression or without. *)
Definition baidu_click (isIOS mobile : bool) (landing : bytes) (h : base) : outcome (base * bytes) :=
  '(h, url) ← click_para h [] landing empty_helper;
  text ← ciphered_at (getClickBaseUrl (urlConfig e) isIOS) (if mobile then UrlHelper.add (url_name URL_IMP_OF) (str "2") url else url);
  Val (h, text).

Definition with_scheme (secure : bool) (u : bytes) : bytes :=
  snd (if secure then url_replace u (str "http://") (str "https://") else url_replace u (str "https://") (str "http://")).

(** The icon is there even when it is empty. *)
Definition native_of (s : AdSlot) (b : Banner) (mtls : json) : outcome NativeAd :=
  type ← lexical_int (get_text (str "p2") mtls);
  let img_total := if type =? 3 then 3%nat else if type <? 3 then 1%nat else 0%nat in
  let '(w, h) := native_image s in
  let '(w, h) := if (w =? 0) && (h =? 0) then SizeMap.rget sizes_ (width b, height b) else (w, h) in
  let images := map (fun i => mkImage (with_scheme (secure s) (get_text (str "p" ++ to_string (6 + Z.of_nat i)) mtls)) w h)
                  (seq 0 img_total) in
  let logo_url := get_text (str "p15") mtls in
  Val (if bool_decide (logo_url = []) then mkNative None (Some (mkImage [] 0 0)) images
       else mkNative (Some (get_text (str "p0") mtls))
              (Some (mkImage (with_scheme (secure s) logo_url) (fst (native_logo s)) (snd (native_logo s)))) images).

(** The creative of a mobile page. *)
Definition mobile_json : AdSelectCondition -> SelectResult -> AdInfo -> bytes -> json -> json := page_json AD_BD_CLICK_MACRO.

(** The ad of a round, given the slot, and what its creative adds. *)
Definition ad_of (s : AdSlot) (r : SelectResult) (snippet : option bytes) (landing : bytes) (targets monitors : list bytes)
    (native : option NativeAd) : BidAd :=
  let b := res_banner r in
  mkBidAd (Z.max (res_bidPrice r) (default 0 (minimum_cpm s))) (u64 (s32 (sol_advId (res_solution r)))) (bId b) (height b) (width b)
    (sequence_id s) (stoi_safe (extractRealValue (adxIndustryType b) (adx_id ADX_BAIDU))) (bannerType b) snippet landing targets monitors native.

(** The three kinds of creatives: native, of a browser, of a mobile page. *)
Definition build_ad (k : round_clock) (s : AdSlot) (c : AdSelectCondition) (r : SelectResult) (cookieMappingUrl : bytes) (ad : json)
    (h : base) : outcome (base * BidAd) :=
  let isIOS := is_ios c in
  mtls ← as_array (get_member (str "mtls") ad);
  '(first, _) ← head_of mtls;
  if cond_bannerType (at_place c) =? BANNER_TYPE_PRIMITIVE then
    let landing := get_text (str "p9") first in
    '(h, click) ← baidu_click isIOS true landing h;
    native ← native_of s (res_banner r) first;
    '(h, monitor) ← baidu_monitor isIOS k h;
    Val (h, ad_of s r None landing [click] [monitor] (Some native))
  else
    let landing := get_text (str "p1") first in
    '(h, click) ← baidu_click isIOS false landing h;
    if cond_flowType (of_client c) =? SOLUTION_FLOWTYPE_PC then
      snippet ← baiduHtmlSnippet cookieMappingUrl;
      '(h, monitor) ← baidu_monitor isIOS k h;
      Val (h, ad_of s r (Some snippet) landing [click] [monitor] None)
    else
      '(h, click2) ← baidu_click isIOS true landing h;
      text ← format (creative_template e) [json_print (mobile_json c r (base_ad h) click2 ad)];
      '(h, monitor) ← baidu_monitor isIOS k h;
      Val (h, ad_of s r (Some (printed_c 4096 text)) landing [click] [monitor] None).

Definition baidu_buildBidResult (c : AdSelectCondition) (r : SelectResult) (seq : Z) (h : baidu) : outcome baidu :=
  let req := bidRequest h in
  let resp := match response_id (bidResponse h) with Some _ => bidResponse h | None => mkBidResponse (Some (req_id req)) [] end in
  s ← rd (adslot req) seq;
  b ← fillAdInfo (area_code e) (uniqueIdSeq e) (clock e seq) c r (req_id req) (bd_base h);
  let '(cmUrl, b) := redo_mapping (uniqueIdSeq e) (clock e seq) (adx_id ADX_BAIDU) AD_COOKIEMAPPING_BAIDU b in
  ad ← bannerJson2HttpsIOS (is_ios c) (banner_json (res_banner r)) (bannerType (res_banner r) =? BANNER_TYPE_PRIMITIVE);
  '(b, ad) ← build_ad (clock e seq) s c r cmUrl ad b;
  Val (mkBaidu b req (mkBidResponse (response_id resp) (ads resp ++ [ad]))).

(** ** The log *)

Definition baidu_fillSpecificLog (r : BidRequest) (c : AdSelectCondition) (l : LogItem) (isAccepted : bool) (h : base)
    : outcome (bool * LogItem * base) :=
  let f := flow l in
  let dev := match mobile r with Some m => if isAccepted then debug_mobile m else deviceInfo f | None => deviceInfo f end in
  Val (true, mkLog (timeStamp l) (logType l) (reqStatus l) (reqMethod l) (cond_ip c) (default [] (req_referer r)) (userId l)
               (req_user_agent r) (geoInfo l) (adInfo l) (clickx l) (clicky l) (deviceID l) (traceId l) (traceInfo l)
               (mkFlow (dealIds f) (keyWords f) (mediaType f) (contentTypes f) (log_device f) dev), h).

Definition baidu_fillLogItem (c : AdSelectCondition) (l : LogItem) (isAccepted : bool) (h : baidu) : outcome (bool * LogItem * baidu) :=
  '(b, l, hb) ← BidBase.fillLogItem (baidu_fillSpecificLog (bidRequest h)) c l isAccepted (bd_base h);
  Val (b, l, mkBaidu hb (bidRequest h) (bidResponse h)).

(** ** The answer *)

Definition baidu_reject (r : HttpResponse) (h : baidu) : outcome (HttpResponse * baidu) :=
  let resp := mkBidResponse (Some (req_id (bidRequest h))) [] in
  let h := mkBaidu (bd_base h) (bidRequest h) resp in
  Val (match write_response resp with Some t => (set_body t (status 200 [] r), h) | None => (r, h) end).

Definition baidu_match (r : HttpResponse) (h : baidu) : outcome (HttpResponse * baidu) :=
  match write_response (bidResponse h) with
  | Some t => Val (set_body t (status 200 [] r), h)
  | None => baidu_reject r h
  end.

Definition baidu_handler : BiddingHandler := {|
  handler := baidu; parseRequestData := baidu_parseRequestData; filter_conditions := baidu_filter_conditions;
  filter_verdict := baidu_filter_verdict; buildBidResult := baidu_buildBidResult; BidTask.fillLogItem := baidu_fillLogItem;
  match_bid := baidu_match; reject_bid := baidu_reject |}.
End baidu.

(** ** Properties *)

(** *** The ad of a round *)

Section round.
Context `{Names : UrlNames} `{!UrlNamesLaws Names} `{!UrlLiterals Names} `{MapOrderLaws} `{Base64Laws}.
Context `{CryptoPP} `{Aes} `{UserIds} `{TaskConst} `{Snippets, CmConst, RecordStore, DeviceOrder}.
Context `{AdxConst, ShowConst, UaConst, NetConst, MtCommon, Json, BaiduProto}.
Context (e : handler_env) (sizes_ : AdSizeMap) (types : type_state).

Lemma baidu_click_kept isIOS mobile landing h h' text : baidu_click e isIOS mobile landing h = Val (h', text) -> same_urls h h'.
Proof.
  unfold baidu_click. intros E. bind_in E x E1. destruct x as [h1 url]. bind_in E t E2. injection E as <- <-. by eapply click_para_kept.
Qed.

Lemma baidu_monitor_kept isIOS k h h' text :
  baidu_monitor e isIOS k h = Val (h', text) ->
  same_urls h h' /\ exists t u, text = getShowBaseUrl (urlConfig e) isIOS ++ str "?" ++ t
    /\ cipherParam (monitor_url (info_of h') (secs k) (str "3") AD_BD_PRICE_MACRO) = Val (t, u).
Proof. intros E. apply report_at_kept in E as (Hs & t & -> & u & Ht). split; [done|]. by exists t, u. Qed.

(** What the ad of a round holds, whatever its creative is. *)
Record ad_for (s : AdSlot) (r : SelectResult) (ad : BidAd) : Prop := {
  af_seq : ad_sequence_id ad = sequence_id s;
  af_floor : default 0 (minimum_cpm s) <= max_cpm ad /\ res_bidPrice r <= max_cpm ad;
  af_exact : max_cpm ad = default 0 (minimum_cpm s) \/ max_cpm ad = res_bidPrice r;
  af_creative : creative_id ad = bId (res_banner r) /\ ad_width ad = width (res_banner r) /\ ad_height ad = height (res_banner r);
  af_click : length (target_url ad) = 1%nat;
}.

Lemma ad_of_for s r snippet landing t monitors native : ad_for s r (ad_of s r snippet landing [t] monitors native).
Proof. constructor; cbn; [done|lia|lia|done|done]. Qed.

Lemma build_ad_spec k s c r cm js h h' ad :
  build_ad e sizes_ k s c r cm js h = Val (h', ad) ->
  ad_for s r ad /\ exists h1 text, monitor_urls ad = [text] /\ same_urls h h1 /\ baidu_monitor e (is_ios c) k h1 = Val (h', text).
Proof.
  unfold build_ad. intros E. bind_in E mtls E1. bind_in E x E2. destruct x as [first rest].
  destruct (_ =? BANNER_TYPE_PRIMITIVE).
  - bind_in E x E3. destruct x as [h1 click]. bind_in E native E4. bind_in E x E5. destruct x as [h2 text]. injection E as <- <-.
    split; [apply ad_of_for|]. exists h1, text. split; [done|]. split; [by eapply baidu_click_kept|done].
  - bind_in E x E3. destruct x as [h1 click]. destruct (_ =? SOLUTION_FLOWTYPE_PC).
    + bind_in E html E4. bind_in E x E5. destruct x as [h2 text]. injection E as <- <-.
      split; [apply ad_of_for|]. exists h1, text. split; [done|]. split; [by eapply baidu_click_kept|done].
    + bind_in E x E4. destruct x as [h2 click2]. bind_in E t E5. bind_in E x E6. destruct x as [h3 text]. injection E as <- <-.
      split; [apply ad_of_for|]. exists h2, text. split; [done|]. split; [|done].
      eapply same_urls_trans; by eapply baidu_click_kept.
Qed.

(** A round that found an ad: one ad is added, and its urls are made of what the selection found. *)
Lemma baidu_build_spec c r i h h' :
  baidu_buildBidResult e sizes_ c r i h = Val h' ->
  bidRequest h' = bidRequest h
  /\ response_id (bidResponse h') = Some (default (req_id (bidRequest h)) (response_id (bidResponse h)))
  /\ exists s ad area imp t u, rd (adslot (bidRequest h)) i = Val s /\ ad_for s r ad
       /\ ads (bidResponse h') = (match response_id (bidResponse h) with Some _ => ads (bidResponse h) | None => [] end) ++ [ad]
       /\ area_code e (c_str (cond_ip c)) = Val area
       /\ base_ad (bd_base h') = bid_ad_info c r (req_id (bidRequest h)) area imp (base_ad (bd_base h))
       /\ monitor_urls ad = [getShowBaseUrl (urlConfig e) (is_ios c) ++ str "?" ++ t]
       /\ cipherParam (monitor_url (info_of (bd_base h')) (secs (clock e i)) (str "3") AD_BD_PRICE_MACRO) = Val (t, u).
Proof.
  unfold baidu_buildBidResult. intros E. bind_in E s E1. bind_in E b E2.
  destruct (redo_mapping _ _ _ _ b) as [cm b1] eqn:E3. bind_in E js E4. bind_in E x E5. destruct x as [b2 ad]. injection E as <-.
  cbn [bidRequest bidResponse bd_base response_id ads].
  split; [done|]. split; [by destruct (response_id (bidResponse h)) eqn:Er|].
  destruct (build_ad_spec _ _ _ _ _ _ _ _ _ E5) as (Hf & h1 & text & Hm & Hs & Hmon).
  destruct (baidu_monitor_kept _ _ _ _ _ Hmon) as (Hs2 & t & u & -> & Hc).
  unfold fillAdInfo in E2. bind_in E2 area Ea. bind_in E2 imp Ei. bind_in E2 dev Ed. injection E2 as <-.
  exists s, ad, area, imp, t, u. split; [done|]. split; [done|]. split; [by destruct (response_id (bidResponse h))|]. split; [done|].
  split; [|done]. destruct Hs as [Ha _], Hs2 as [Ha2 _]. rewrite Ha2, Ha.
  unfold redo_mapping in E3. destruct (redoCookieMapping _ _ _ _ _ _) as [[? ?] ?]. by injection E3 as _ <-.
Qed.

End round.

(** C8: On Baidu, a bid and its impression are logged with the same ad.  A round that found an ad
    adds one ad to the response, for the slot of the round, with the creative that was found and a
    price that is the larger of its bid and the floor of the slot; the ad has one url for the click
    and one for the impression.  When the exchange has put its price in place of the macro of that
    url, the impression is logged with the ids and the area that the bid was logged with, and finds
    the price. *)
Theorem baidu_impression `{Names : UrlNames} `{!UrlNamesLaws Names} `{!UrlLiterals Names} `{MapOrderLaws} `{Base64Laws}
    `{CryptoPP} `{Aes} `{UserIds} `{TaskConst} `{Snippets, CmConst, RecordStore, DeviceOrder}
    `{AdxConst, ShowConst, UaConst, NetConst, MtCommon, Json, BaiduProto}
    (e : handler_env) sizes_ c r i h h' price (l0 l : LogItem) x y z :
  baidu_buildBidResult e sizes_ c r i h = Val h' ->
  reportable (info_of (bd_base h')) (secs (clock e i)) AD_BD_PRICE_MACRO price (x, y, z) -> adInfo l = ad0 ->
  exists s ad pre post lb,
    rd (adslot (bidRequest h)) i = Val s /\ ad_for s r ad /\ last (ads (bidResponse h')) = Some ad
    /\ monitor_urls ad = [getShowBaseUrl (urlConfig e) (is_ios c) ++ str "?" ++ pre ++ AD_BD_PRICE_MACRO ++ post]
    /\ baidu_fillLogItem c l0 true h' = Val (true, lb, h')
    /\ reports (pre ++ price ++ post) l (adInfo lb) (geoInfo lb) price.
Proof.
  intros Hb Hr Hl0.
  destruct (baidu_build_spec e sizes_ c r i h h' Hb) as (_ & _ & s & ad & area & imp & t & u & Hrd & Hf & Ha & Harea & Hba & Hmon & Ht).
  destruct (monitor_reports _ _ _ _ _ _ _ l t u Hr Hl0 Ht) as (pre & post & -> & _ & m & ls & Hm & Hls & Hsame & Hgeo & Hp).
  change (bid_ad (info_of (bd_base h'))) with (base_ad (bd_base h')) in Hsame. rewrite Hba in Hsame.
  destruct (fillLogItem_won (baidu_fillSpecificLog (bidRequest h')) c l0 (bd_base h') x y z) as (l' & El & Hla & Hlg); [apply Hr|].
  assert (exists lb, baidu_fillLogItem c l0 true h' = Val (true, lb, h') /\ adInfo lb = adInfo l' /\ geoInfo lb = geoInfo l') as (lb & Elb & Hlb & Hgb).
  { unfold baidu_fillLogItem. rewrite El. cbn [mbind outcome_bind baidu_fillSpecificLog].
    assert (mkBaidu (bd_base h') (bidRequest h') (bidResponse h') = h') as -> by (by destruct h'). by eexists. }
  exists s, ad, pre, post, lb.
  split; [done|]. split; [done|]. split; [by rewrite Ha, last_snoc|]. split; [done|]. split; [done|].
  exists m, ls. split; [done|]. split; [done|]. split; [rewrite Hlb, Hla, Hba; by apply won_same|]. split; [congruence|done].
Qed.

(** *** The answer to a request *)

Section answer.
Context `{Names : UrlNames} `{!UrlNamesLaws Names} `{!UrlLiterals Names} `{MapOrderLaws} `{Base64Laws}.
Context `{CryptoPP} `{Aes} `{UserIds} `{TaskConst} `{Snippets, CmConst, RecordStore, DeviceOrder}.
Context `{AdxConst, ShowConst, UaConst, NetConst, MtCommon, Json, BaiduProto}.
Context (e : handler_env) (sizes_ : AdSizeMap) (types : type_state) (Hwr : forall r, is_Some (write_response r)).

(** The response after the ads [as_] were added. *)
Definition response_with (h : baidu) (as_ : list BidAd) : Prop :=
  bidResponse h = match as_ with [] => response0 | _ => mkBidResponse (Some (req_id (bidRequest h))) as_ end.

Definition ad_of_round (slots : list AdSlot) (w : Z * round) (ad : BidAd) : Prop :=
  exists s, rd slots (fst w) = Val s /\ ad_for s (rd_result (snd w)) ad.

Definition baidu_written (r : BidRequest) (as_ : list BidAd) (resp resp' : HttpResponse) : Prop :=
  exists t, write_response (mkBidResponse (Some (req_id r)) as_) = Some t /\ resp' = set_body t (status 200 [] resp).

#[refine] Instance baidu_answers : HandlerAnswers (baidu_handler e sizes_ types) := {|
  request (h : @handler (baidu_handler e sizes_ types)) := bidRequest h; holds_ads := response_with;
  round_ad r := ad_of_round (adslot r); written := baidu_written |}.
Proof.
  - intros c r i h h' as_ Eb Hw.
    destruct (baidu_build_spec e sizes_ c r i h h' Eb) as (Q1 & Q2 & sl & ad & _ & _ & _ & _ & Hrd & Hf & Ha & _).
    split; [done|]. exists ad. split; [|by exists sl]. unfold response_with in *. rewrite Q1.
    destruct (bidResponse h') as [id as1]. cbn [response_id ads] in *. rewrite !Hw in *. rewrite Q2, Ha. by destruct as_.
  - intros c l ok h b l' h' as_ E Hw. cbn in E. unfold baidu_fillLogItem in E. bind_in E x E1. destruct x as [[b1 l1] hb].
    by injection E as <- <- <-.
  - done.
  - intros r h r' h' as_ E Hw Hne. cbn in E. unfold baidu_match in E. unfold response_with in Hw. rewrite Hw in E.
    destruct as_ as [|a as_]; [done|]. destruct (Hwr (mkBidResponse (Some (req_id (bidRequest h))) (a :: as_))) as [t Et].
    rewrite Et in E. injection E as <- <-. by exists t.
  - intros r h r' h' E Hw. cbn in E. unfold baidu_reject in E.
    destruct (Hwr (mkBidResponse (Some (req_id (bidRequest h))) [])) as [t Et]. rewrite Et in E. injection E as <- <-. by exists t.
Defined.
End answer.

(** C9: The answer to a request of Baidu.  When the auction of its slots ends, the answer is one
    message, with the id of the request.  It holds one ad for each slot an ad was found for, in
    the order of the slots, and nothing else: each names its slot and its creative, and pays at
    least the floor of its slot.  When no ad was found, or the request is a test, it holds no ad. *)
Theorem baidu_answer `{Names : UrlNames} `{!UrlNamesLaws Names} `{!UrlLiterals Names} `{MapOrderLaws} `{Base64Laws}
    `{CryptoPP} `{Aes} `{UserIds} `{TaskConst} `{Snippets, CmConst, RecordStore, DeviceOrder}
    `{AdxConst, ShowConst, UaConst, NetConst, MtCommon, Json, BaiduProto} `{OpenSSL, BoostBase64, PriceMemory, Avro, LogConst}
    (e : handler_env) sizes_ types be data (h h0 : baidu) h' s s' (ok : bool) :
  let bd := baidu_handler e sizes_ types in
  isPost (bid_task be) = true -> baidu_parseRequestData data h = Val (ok, h0) ->
  (forall c, address_known be c) ->
  (forall r, is_Some (write_response r)) ->
  bid_customLogic be (Some h0) s = RVal h' s' ->
  exists rs as_ t, Forall2 (ad_of_round (adslot (bidRequest h0))) (winners 0 rs) as_
    /\ (is_ping (bidRequest h0) || is_test (bidRequest h0) = true -> rs = [])
    /\ (is_ping (bidRequest h0) || is_test (bidRequest h0) = false ->
          exists h1 cs, baidu_filter_conditions e sizes_ types h0 = Val (h1, Some cs) /\ length cs = length (adslot (bidRequest h0))
            /\ rounds be [] cs rs)
    /\ write_response (mkBidResponse (Some (req_id (bidRequest h0))) as_) = Some t
    /\ resp s' = set_body t (status 200 [] (resp s)) /\ needLog s' = false.
Proof.
  intros bd Hpost Hp Hadr Hwr E.
  assert (response_with h0 []) as Hw by (unfold baidu_parseRequestData in Hp; destruct (parse_request data); by injection Hp as _ <-).
  assert (exists h1 o, baidu_filter_conditions e sizes_ types h0 = Val (h1, o) /\ bidRequest h1 = bidRequest h0 /\ bidResponse h1 = bidResponse h0
    /\ (if is_ping (bidRequest h0) || is_test (bidRequest h0) then o = None
        else exists cs, o = Some cs /\ length cs = length (adslot (bidRequest h0)))) as (h1 & o & Ef & Hq & Hr & Ho).
  { unfold baidu_filter_conditions. destruct (_ || _); [by do 2 eexists|].
    destruct (adslot (bidRequest h0)) as [|sl sls]; [do 2 eexists; split; [done|]; by split_and!; [..|exists []]|].
    destruct (first_condition _ _ _ _ _) as [c b]. do 2 eexists. split; [done|]. split; [done|]. split; [done|].
    eexists. split; [done|]. cbn. by rewrite length_map. }
  assert (response_with h1 []) as Hw1 by (unfold response_with in *; by rewrite Hr).
  destruct (auction_answer (BH := bd) (HA := baidu_answers e sizes_ types Hwr) be h0 h1 o h' s s' Hpost Ef Hw1 Hadr E) as (rs & as_ & Hrs & Hf & (t & Ht & Hresp) & Hlog).
  cbn [request round_ad baidu_answers] in Hf, Ht. rewrite Hq in Hf, Ht. exists rs, as_, t. split; [done|].
  split; [|split]; [| |done]; intros Et; rewrite Et in Ho; [by subst|]. destruct Ho as (cs & -> & Hl). by exists h1, cs.
Qed.

(** *** Limits *)

(** A native creative without a type ends the request with an exception. *)
Lemma native_without_type sizes_ s b mtls : get_text (str "p2") mtls = [] -> native_of sizes_ s b mtls = Exc BadCast.
Proof. intros E. unfold native_of. by rewrite E. Qed.

(** The slots after the first are asked for with the place of the first and without its user. *)
Lemma other_slots `{AdxConst, ShowConst} sizes_ types r first s :
  cond_adxpid (at_place (other_condition sizes_ types r first s)) = cond_adxpid (at_place first)
  /\ cond_mtUserId (other_condition sizes_ types r first s) = [] /\ mac (cond_ids (of_client (other_condition sizes_ types r first s))) = [].
Proof. unfold other_condition, slot_place. destruct (slot_sizes _ _ _) as [t szs]. by destruct (default _ _). Qed.

(** The url of the mapping image has no question mark before its parameters. *)
Lemma mapping_url_no_query `{RecordStore, CmConst, UserIds, DeviceOrder} seq rand now adx c :
  needReMapping c = true -> isAdxCookie (queryKV c) = true ->
  fst (fst (redoCookieMapping seq rand now adx AD_COOKIEMAPPING_BAIDU c))
  = str "http://cm.pos.baidu.com/pixel&u=" ++ uid_cipher (new_user seq rand now) ++ str "&x=" ++ to_string adx.
Proof. intros E1 E2. unfold redoCookieMapping. by rewrite E1, E2. Qed.

(** ** Instances *)

Module BaiduInstance.
#[local] Existing Instance toy_openssl.
Import HandlerInstance.

(** A request with two slots, and a printer of the sequence ids and prices of a response. *)
Definition two_slots : BidRequest :=
  mkRequest (str "q1") (str "1.2.3.4") (str "Mozilla/5.0 (X11; Linux)") [str "b77"] None None None None
    [mkSlot 91 1 300 250 (Some 40) true (0, 0) (0, 0) false; mkSlot 92 2 300 250 (Some 500) true (0, 0) (0, 0) false] false false.
#[local] Instance one_request : BaiduProto := {
  parse_request _ := (true, two_slots);
  write_response r := Some (flat_map (fun a => to_string (ad_sequence_id a) ++ str "=" ++ to_string (max_cpm a) ++ str ";") (ads r));
  debug_mobile _ := [];
}.

Definition types0 : type_state := type_state0.
Definition parsed0 : baidu := mkBaidu base0 two_slots response0.
Definition after_first : baidu :=
  match baidu_buildBidResult the_env AdSizeMap_new condition0 (snd (found condition0)) 0 parsed0 with Val h => h | _ => parsed0 end.

#[local] Instance bd : BiddingHandler := baidu_handler the_env AdSizeMap_new types0.
Definition parsed_handler : handler := parsed0.

Example two_slots_answer :
  match bid_customLogic the_bids (Some parsed_handler) the_state with RVal _ s => body (resp s) | _ => [] end
  = str "1=100;2=500;".
Proof. by vm_compute. Qed.

Definition finished : task_state := match bid_customLogic the_bids (Some parsed_handler) the_state with RVal _ s => s | _ => the_state end.
Definition done_handler : option handler := match bid_customLogic the_bids (Some parsed_handler) the_state with RVal h _ => h | _ => None end.

Lemma baidu_answer_witness :
  exists rs as_ t, Forall2 (ad_of_round (adslot two_slots)) (winners 0 rs) as_
    /\ write_response (mkBidResponse (Some (str "q1")) as_) = Some t
    /\ resp finished = set_body t (status 200 [] (resp the_state)) /\ needLog finished = false.
Proof.
  destruct (baidu_answer the_env AdSizeMap_new types0 the_bids [] parsed0 parsed0 done_handler the_state finished true)
    as (rs & as_ & t & A1 & _ & _ & A2 & A3 & A4).
  - reflexivity.
  - reflexivity.
  - intros c. split; by eexists.
  - intros r. by eexists.
  - by vm_compute.
  - exists rs, as_, t. split; [exact A1|]. split; [exact A2|]. split; [exact A3|exact A4].
Defined.

Abbreviation first_bid := (info_of (bd_base after_first)).
Definition a_price : bytes := str "WgcHpAAA".

Lemma first_bid_cipherable : cipherable (monitor_url first_bid 1476779974 (str "3") a_price).
Proof.
  constructor.
  - by_decide.
  - repeat constructor; vm_compute; congruence.
  - by_decide.
  - vm_compute. discriminate.
  - vm_compute. lia.
  - intros []; discriminate.
Qed.

Lemma first_bid_reportable : reportable first_bid 1476779974 AD_BD_PRICE_MACRO a_price (86, 110000, 110100).
Proof.
  constructor.
  - exact first_bid_cipherable.
  - by apply Nat.ltb_lt.
  - by vm_compute.
  - by_decide.
  - discriminate.
  - constructor; [by_decide|by_decide|split; vm_compute; discriminate].
  - by_decide.
  - vm_compute. lia.
  - by vm_compute.
Qed.

Lemma baidu_impression_witness :
  exists s ad pre post lb,
    rd (adslot two_slots) 0 = Val s /\ ad_for s (snd (found condition0)) ad /\ last (ads (bidResponse after_first)) = Some ad
    /\ monitor_urls ad = [str "http://s.cn/s" ++ str "?" ++ pre ++ AD_BD_PRICE_MACRO ++ post]
    /\ baidu_fillLogItem condition0 log0 true after_first = Val (true, lb, after_first)
    /\ reports (pre ++ a_price ++ post) show_log (adInfo lb) (geoInfo lb) a_price.
Proof.
  destruct (baidu_impression the_env AdSizeMap_new condition0 (snd (found condition0)) 0 parsed0 after_first a_price log0 show_log
           86 110000 110100) as (s & ad & pre & post & lb & A1 & A2 & A3 & A4 & A5 & A6).
  - by vm_compute.
  - exact first_bid_reportable.
  - reflexivity.
  - exists s, ad, pre, post, lb. split; [exact A1|]. split; [exact A2|]. split; [exact A3|]. split; [exact A4|]. split; [exact A5|exact A6].
Defined.
End BaiduInstance.
