(* ===== verification/TanxBid.v ===== *)
(** * TanxBid: the handler of Tanx (protocol/tanx/tanx_bidding_handler.cpp, protocol/tanx/tanx_bidding_handler.h)

    A request is for one place, the first of its list.  The client is a mobile app, whose ids are
    encrypted, a mobile page or a browser.  A round that found an ad adds it to the response with
    its price and its creative: a native ad of an app, a video, or a snippet of a page.  The url that
    reports an impression is the feedback address, and for a video part of its description.

    The generated classes of the messages are the parameter [TanxProto]; the records below are the
    fields that the handler reads and writes.  A field that is not set reads as its default, which
    the records hold; where the handler asks whether a field is set it is an [option]. *)
From Stdlib Require Import SpecFloat.
From S2P Require Import SizeMap TypeTable.
From S2P Require Import Prelude CString UrlCodec UrlParams Cypher UrlHelper Rijndael RijndaelProofs SohuPrice Template.
From S2P Require Import LogPusher Double PriceDecode Pricing Http QueryTask ClickTask CookieMapping TraceTask BidUrl UserClient AdSelect ShowTask.
From S2P Require Import BidBase BidReport BidTask BidAnswer TanxDevice.

(** ** Messages *)

Record AdzInfo := mkAdz {
  adz_id : Z; adz_pid : bytes; adz_size : bytes; view_type : list Z; min_cpm_price : option Z; allowed_creative_level : option Z;
}.
Record Device := mkTanxDevice {
  platform : bytes; os : bytes; model : option bytes; network : option Z; operator_ : Z; longitude : bytes; latitude : bytes;
  dev_idfa : option bytes; dev_imei : option bytes; dev_android_id : option bytes; dev_mac : option bytes;
}.
Definition device0 : Device := mkTanxDevice [] [] None None 0 [] [] None None None None.
(** The creative of an area. *)
Record AreaCreative := mkArea { required_fields : list Z; action_fields : list Z }.
Record NativeAdTemplate := mkTemplate { template_id : bytes; areas : list AreaCreative }.
Record Mobile := mkMobile {
  is_app : option bool; package_name : option bytes; mobile_device : option Device; app_categories : list Z;
  native_ad_template : list NativeAdTemplate;
}.
Record BidRequest := mkRequest {
  version : Z; bid : bytes; tid : option bytes; req_ip : bytes; req_user_agent : bytes; req_url : option bytes;
  content_categories : list Z; is_ping : Z; adzinfo : list AdzInfo; mobile : option Mobile;
}.

Record Creative := mkCreative {
  img_url : bytes; img_size : bytes; title : bytes; click_url : bytes; destination : bytes; cr_creative_id : bytes;
  attr : list (bytes * bytes);
}.
Record MobileCreative := mkMobileCreative { mc_version : Z; mc_bid : bytes; creatives : list Creative; native_template_id : bytes }.
Record Ads := mkAds {
  adzinfo_id : Z; max_cpm_price : Z; ad_bid_count_idx : Z; html_snippet : option bytes; click_through_url : list bytes;
  category : list Z; creative_type : list Z; destination_url : list bytes; creative_id : bytes; feedback_address : option bytes;
  video_snippet : option bytes; mobile_creative : option MobileCreative; advertiser_ids : list Z;
}.
Record BidResponse := mkBidResponse { resp_version : option Z; resp_bid : option bytes; ads : list Ads }.
Definition response0 : BidResponse := mkBidResponse None None [].

Class TanxProto := {
  parse_request : bytes -> bool * BidRequest;          (* ParseFromString of a cleared message *)
  write_response : BidResponse -> option bytes;        (* SerializeToString *)
  debug_device : Device -> bytes;                      (* DebugString *)
}.

(** [feedbackUrl] is the text in its buffer. *)
Record tanx := mkTanx { tx_base : base; bidRequest : BidRequest; bidResponse : BidResponse; feedbackUrl : bytes }.
Definition on_base (f : base -> base) (h : tanx) : tanx := mkTanx (f (tx_base h)) (bidRequest h) (bidResponse h) (feedbackUrl h).

Definition AD_TX_CLICK_MACRO : bytes := str "%%CLICK_URL_PRE_ENC%%".
Definition AD_TX_CLICK_UNENC_MACRO : bytes := str "%%CLICK_URL_PRE_UNENC%%".
Definition AD_TX_PRICE_MACRO : bytes := str "%%SETTLE_PRICE%%".
Definition TANX_COOKIEMAPPING_URL : bytes := str "http://cms.tanx.com/t.gif?tanx_nid=113168313&tanx_cm".
Definition videoViewTypes : list Z := [11; 12; 15; 106; 107].

Section tanx.
Context `{UrlNames, MapOrder, Base64, CryptoPP, UserIds, Snippets, CmConst, RecordStore, DeviceOrder}.
Context `{AdxConst, ShowConst, UaConst, BrowserConst, NetConst, MtCommon, Json, OpenSSL, TanxProto}.
Context (e : handler_env) (sizes_ : AdSizeMap) (types : type_state) (linearVast nonLinearVast : TemplateEngine).

(** ** The client *)

Definition getDeviceType (deviceInfo : bytes) : device_name :=
  if same_letters deviceInfo "iphone" then SOLUTION_DEVICE_IPHONE
  else if same_letters deviceInfo "android" then SOLUTION_DEVICE_ANDROID
  else if same_letters deviceInfo "ipad" then SOLUTION_DEVICE_IPAD
  else SOLUTION_DEVICE_OTHER.

Definition getDeviceTypeFromOs (os : bytes) : device_name :=
  if same_letters os "ios" then SOLUTION_DEVICE_IPHONE
  else if same_letters os "android" then SOLUTION_DEVICE_ANDROID
  else SOLUTION_DEVICE_OTHER.

Definition getOSTypeFromOs (os : bytes) : os_name :=
  if same_letters os "ios" then SOLUTION_OS_IOS
  else if same_letters os "android" then SOLUTION_OS_ANDROID
  else SOLUTION_OS_OTHER.

(** ** The request *)

Definition tanx_parseRequestData (data : bytes) (h : tanx) : outcome (bool * tanx) :=
  let '(ok, r) := parse_request data in Val (ok, mkTanx (tx_base h) r response0 (feedbackUrl h)).

Definition tanx_tid (r : BidRequest) : bytes := default [] (tid r).

Definition is_native (a : AdzInfo) : bool := existsb (fun v => (104 <=? v) && (v <=? 111)) (map s32 (view_type a)).
Definition is_video (a : AdzInfo) : bool := existsb (fun v => bool_decide (v ∈ videoViewTypes)) (map s32 (view_type a)).

(** The content type of the first category. *)
Definition content_of (cs : list Z) (d : Z) : Z :=
  match cs with c :: _ => getContentType types (adx_id ADX_TANX) (to_string c) | [] => d end.

(** What the condition holds before its client. *)
Definition adz_place (r : BidRequest) (a : AdzInfo) : cond_place :=
  let '(w, h) := extractSize (adz_size a) in
  mkCondPlace (adz_pid a) 0 (adx_id ADX_TANX) (s32 (default 0 (min_cpm_price a))) w h (if is_video a then BANNER_TYPE_VIDEO else 0)
    (content_of (content_categories r) 0) 0 [] [] (Some [(w, h)]) (s32 (default 99 (allowed_creative_level a))).

(** A native place of an app is asked for with the sizes of native creatives. *)
Definition native_place (a : AdzInfo) (p : cond_place) : cond_place :=
  if is_native a && negb (is_video a) then
    let szs := SizeMap.get sizes_ (cond_width p, cond_height p) MATERIAL_TYPE_PIC in
    let '(w, h) := default (cond_width p, cond_height p) (last szs) in
    mkCondPlace (cond_adxpid p) (cond_mttyPid p) (cond_adxid p) (cond_basePrice p) w h BANNER_TYPE_PRIMITIVE (mttyContentType p)
      (cond_mediaType p) (cond_dealId p) (keywords p) (Some szs) (requiredCreativeLevel p)
  else p.

(** An id of the device, decoded. *)
Definition decoded_id (o : option bytes) : outcome bytes :=
  match o with None => Val [] | Some s => t ← tanxDeviceId s; Val (upper t) end.

Definition device_ids_of (d : Device) : outcome device_ids :=
  idfa ← decoded_id (dev_idfa d);
  imei ← decoded_id (dev_imei d);
  androidId ← decoded_id (dev_android_id d);
  mac ← decoded_id (dev_mac d);
  Val (mkIds idfa imei androidId mac).

Definition mobile_kind (r : BidRequest) (d : Device) : Z :=
  let k := device_id (getDeviceType (platform d)) in
  if k =? device_id SOLUTION_DEVICE_OTHER then
    let k := device_id (getDeviceTypeFromOs (os d)) in
    if k =? device_id SOLUTION_DEVICE_OTHER then getMobileTypeFromUA (req_user_agent r) else k
  else k.

(** The client of a mobile request: what its place becomes, the client, and the key of its user. *)
Definition mobile_client (r : BidRequest) (a : AdzInfo) (m : Mobile) (p : cond_place) (c : BidCookieMappingInfo)
    : outcome (cond_place * cond_client * BidCookieMappingInfo) :=
  let d := default device0 (mobile_device m) in
  let client ids :=
    mkClient ids (mobile_kind r d) SOLUTION_FLOWTYPE_MOBILE
      (match os d with [] => getOSTypeFromUA (req_user_agent r) | _ => os_id (getOSTypeFromOs (os d)) end)
      (match network d with Some n => network_id (getNetWork (s32 n)) | None => 0 end)
      (provider_id (getNetworkProvider (operator_ d))) [] (default [] (model d))
      (safe_stod (longitude d), safe_stod (latitude d)) (Some (getDeviceBrandFromUA (req_user_agent r))) [] in
  let adx := adx_id ADX_TANX_MOBILE in
  let p := set_place_adx adx (cond_adxpid p) (mttyContentType p) p in
  if default false (is_app m) then
    let p := native_place a p in
    let p := set_place_adx adx (default (cond_adxpid p) (package_name m)) (content_of (app_categories m) (mttyContentType p)) p in
    ids ← device_ids_of d;
    Val (p, client ids, cookieMappingKeyMobile (md5_ids ids) ids adx (tanx_tid r) c)
  else Val (p, client (mkIds [] [] [] []), cookieMappingKeyPC adx (tanx_tid r) c).

Definition browser_client (r : BidRequest) (p : cond_place) (c : BidCookieMappingInfo)
    : outcome (cond_place * cond_client * BidCookieMappingInfo) :=
  browser ← getBrowserTypeFromUA (req_user_agent r);
  Val (p, mkClient (mkIds [] [] [] []) (getMobileTypeFromUA (req_user_agent r)) SOLUTION_FLOWTYPE_PC (getOSTypeFromUA (req_user_agent r))
            0 0 [] [] (S754_zero false, S754_zero false) None browser,
       cookieMappingKeyPC (adx_id ADX_TANX) (tanx_tid r) c).

Definition tanx_condition (r : BidRequest) (a : AdzInfo) (h : base) : outcome (AdSelectCondition * base) :=
  '(p, d, c) ← (match mobile r with
                | Some m => mobile_client r a m (adz_place r a) (cmInfo h)
                | None => browser_client r (adz_place r a) (cmInfo h)
                end);
  let '(h, user) := query_user (disabledCookieMapping e) (mapping_store e) (mapping_answer e) [] (set_cm c h) in
  Val (mkCondition p d (req_ip r) user 0 [] None [] false, h).

Definition tanx_filter_conditions (h : tanx) : outcome (tanx * option (list AdSelectCondition)) :=
  let r := bidRequest h in
  if negb (is_ping r =? 0) then Val (on_base bidFailedReturn h, None)
  else match adzinfo r with
       | [] => Val (on_base bidFailedReturn h, None)
       | a :: _ =>
         '(c, b) ← tanx_condition r a (tx_base h);
         Val (mkTanx b r (bidResponse h) (feedbackUrl h), Some [c])
       end.

Definition tanx_filter_verdict (ok : bool) (cs : list AdSelectCondition) (h : tanx) : tanx :=
  on_base (if ok then set_accepted true else bidFailedReturn) h.
(** ** The response *)

Definition is_pc (c : AdSelectCondition) : bool := cond_flowType (of_client c) =? SOLUTION_FLOWTYPE_PC.

Definition tanxHtmlSnippet (r : BidRequest) (k : round_clock) (cookieMappingUrl : bytes) (useHttps : bool) (h : base)
    : outcome (base * bytes * bytes) :=
  a ← rd (adzinfo r) 0;
  let '(width, height) := extractSize (adz_size a) in
  generate_cm_snippet e AD_TX_PRICE_MACRO AD_TX_CLICK_MACRO k width height (cm_image cookieMappingUrl) useHttps h.

Definition tanx_prepareVast (width height : Z) (mtls : json) (tvm cm : bytes) (linear : bool) : outcome bytes :=
  let duration := number (get_or (str "p17") (str "15") mtls) in
  let pm := foldl (fun m '(k, v) => insert_new (str k) v m) (∅ : ParamMap)
    [ ("title", get_text (str "p0") mtls); ("impressionUrl", tvm); ("duration", durationStr duration); ("clickThrough", cm) ]%string in
  if linear then bindFast linearVast pm
  else
    let image := get_text (str "p6") mtls in
    let creativeType := if contains image (str ".png") then str "image/png" else str "image/jpeg" in
    bindFast nonLinearVast
      (foldl (fun m '(k, v) => insert_new (str k) v m) pm
         [ ("width", to_string width); ("height", to_string height); ("image", image); ("creativeType", creativeType) ]%string).

(** The template of a native ad and the attributes it requires: the first that does not ask for a
    download the creative does not support, or the last. *)
Fixpoint choose_template (supportDownload : bool) (words : bytes) (ts : list NativeAdTemplate) : outcome (bytes * list (bytes * bytes)) :=
  match ts with
  | [] => Val ([], [])
  | t :: rest =>
    a ← rd (areas t) 0;
    let download := match action_fields a with f :: _ => f =? 1 | [] => false end in
    if (negb supportDownload && download) && negb (bool_decide (rest = [])) then choose_template supportDownload words rest
    else Val (template_id t, flat_map (fun f => if f =? 2 then [(str "ad_words", words)] else []) (required_fields a))
  end.

(** The ad of a round: what every creative has, and what its own kind adds. *)
Definition tanx_ad (a : AdzInfo) (r : SelectResult) (landing through : bytes) (snippet feedback video : option bytes)
    (native : option MobileCreative) : Ads :=
  let b := res_banner r in
  mkAds (adz_id a) (u32 (s32 (res_bidPrice r))) 0 snippet [through] [stoi_safe (extractRealValue (adxIndustryType b) (adx_id ADX_TANX))] [2]
    [landing] (to_string (bId b)) feedback video native [u32 (stoi_safe (extractRealValue (adxAdvId b) (adx_id ADX_TANX)))].

(** A native ad of a mobile client. *)
Definition build_native (k : round_clock) (q : BidRequest) (a : AdzInfo) (r : SelectResult) (isIOS : bool) (first : json) (h : base)
    : outcome (base * Ads * bytes) :=
  let landing := get_text (str "p9") first in
  '(h, click) ← click_at e isIOS landing h;
  let ios := get_text (str "p10") first in
  let android := get_text (str "p11") first in
  let supportDownload := negb (bool_decide (ios = [])) || negb (bool_decide (android = [])) in
  let words := get_text (str "p0") first in
  '(tmp, required) ← choose_template supportDownload words (from_option native_ad_template [] (mobile q));
  let download := if supportDownload
                  then [(str "download_url", if isIOS then ios else android); (str "download_type", if isIOS then str "4" else str "2")]
                  else [] in
  let creative := mkCreative (get_text (str "p6") first) (adz_size a) words click landing (to_string (bId (res_banner r))) (required ++ download) in
  '(h, fb) ← feedback e isIOS AD_TX_PRICE_MACRO k h;
  Val (h, tanx_ad a r landing click None (Some fb) None (Some (mkMobileCreative (version q) (bid q) [creative] tmp)), fb).

(** A video: the report of the impression is in its description. *)
Definition build_video (k : round_clock) (a : AdzInfo) (r : SelectResult) (isIOS : bool) (first : json) (h : base)
    : outcome (base * Ads) :=
  let landing := get_text (str "p1") first in
  '(h, click) ← click_at e isIOS landing h;
  let '(h, url) := show_para k h empty_helper in
  impressionUrl ← ciphered_at (getShowBaseUrl (urlConfig e) isIOS) (reporting AD_TX_PRICE_MACRO url);
  let linear := negb (existsb (fun v => (v =? 12) || (v =? 107)) (map s32 (view_type a))) in
  vast ← tanx_prepareVast (width (res_banner r)) (height (res_banner r)) first impressionUrl click linear;
  Val (h, tanx_ad a r landing landing None None (Some vast) None).

(** A snippet for a browser or for a mobile page. *)
Definition build_page (k : round_clock) (q : BidRequest) (a : AdzInfo) (c : AdSelectCondition) (r : SelectResult) (cookieMappingUrl : bytes)
    (ad first : json) (h : base) : outcome (base * Ads * bytes) :=
  let isIOS := is_ios c in
  let landing := get_text (str "p1") first in
  if is_pc c then
    '(h, fb, html) ← tanxHtmlSnippet q k cookieMappingUrl isIOS h;
    Val (h, tanx_ad a r landing landing (Some html) (Some fb) None None, fb)
  else
    '(h, click) ← click_at e isIOS landing h;
    text ← format (creative_template e) [json_print (page_json AD_TX_CLICK_UNENC_MACRO c r (base_ad h) click ad)];
    '(h, fb) ← feedback e isIOS AD_TX_PRICE_MACRO k h;
    Val (h, tanx_ad a r landing landing (Some (printed_c 4096 text)) (Some fb) None None, fb).

Definition is_native_ad (c : AdSelectCondition) (r : SelectResult) : bool :=
  (cond_flowType (of_client c) =? SOLUTION_FLOWTYPE_MOBILE) && (bannerType (res_banner r) =? BANNER_TYPE_PRIMITIVE).
Definition is_video_ad (c : AdSelectCondition) (r : SelectResult) : bool :=
  negb (is_native_ad c r) && (bannerType (res_banner r) =? BANNER_TYPE_VIDEO).

(** The base, the ad and what is left in [feedbackUrl]. *)
Definition build_ad (k : round_clock) (q : BidRequest) (a : AdzInfo) (c : AdSelectCondition) (r : SelectResult) (cookieMappingUrl : bytes)
    (ad : json) (fb : bytes) (h : base) : outcome (base * Ads * bytes) :=
  mtls ← as_array (get_member (str "mtls") ad);
  '(first, _) ← head_of mtls;
  if is_native_ad c r then build_native k q a r (is_ios c) first h
  else if bannerType (res_banner r) =? BANNER_TYPE_VIDEO then '(h, ad) ← build_video k a r (is_ios c) first h; Val (h, ad, fb)
  else build_page k q a c r cookieMappingUrl ad first h.

Definition tanx_buildBidResult (c : AdSelectCondition) (r : SelectResult) (seq : Z) (h : tanx) : outcome tanx :=
  let q := bidRequest h in
  let resp := match resp_bid (bidResponse h) with
              | Some _ => bidResponse h
              | None => mkBidResponse (Some (version q)) (Some (bid q)) []
              end in
  a ← rd (adzinfo q) seq;
  b ← fillAdInfo (area_code e) (uniqueIdSeq e) (clock e seq) c r (tanx_tid q) (tx_base h);
  let '(cmUrl, b) := redo_mapping (uniqueIdSeq e) (clock e seq) (adx_id ADX_TANX) TANX_COOKIEMAPPING_URL b in
  js ← bannerJson2HttpsIOS (is_ios c) (banner_json (res_banner r)) (bannerType (res_banner r) =? BANNER_TYPE_PRIMITIVE);
  '(b, ad, fb) ← build_ad (clock e seq) q a c r cmUrl js (feedbackUrl h) b;
  Val (mkTanx b q (mkBidResponse (resp_version resp) (resp_bid resp) (ads resp ++ [ad])) fb).

(** ** The log *)

Definition tanx_fillSpecificLog (q : BidRequest) (c : AdSelectCondition) (l : LogItem) (isAccepted : bool) (h : base)
    : outcome (bool * LogItem * base) :=
  exchange_log (adx_id ADX_TANX_MOBILE) (req_ip q) (default [] (req_url q)) (req_user_agent q)
    (if isAccepted then debug_device <$> (mobile q ≫= mobile_device) else None) l h.

Definition tanx_fillLogItem (c : AdSelectCondition) (l : LogItem) (isAccepted : bool) (h : tanx) : outcome (bool * LogItem * tanx) :=
  '(b, l, hb) ← BidBase.fillLogItem (tanx_fillSpecificLog (bidRequest h)) c l isAccepted (tx_base h);
  Val (b, l, mkTanx hb (bidRequest h) (bidResponse h) (feedbackUrl h)).

(** ** The answer *)

Definition tanx_reject (r : HttpResponse) (h : tanx) : outcome (HttpResponse * tanx) :=
  let q := bidRequest h in
  let resp := mkBidResponse (Some (version q)) (Some (bid q)) [] in
  let h := mkTanx (tx_base h) q resp (feedbackUrl h) in
  Val (match write_response resp with Some t => (octets t r, h) | None => (r, h) end).

Definition tanx_match (r : HttpResponse) (h : tanx) : outcome (HttpResponse * tanx) :=
  match write_response (bidResponse h) with
  | Some t => Val (octets t r, h)
  | None => tanx_reject r h
  end.

Definition tanx_handler : BiddingHandler := {|
  handler := tanx; parseRequestData := tanx_parseRequestData; filter_conditions := tanx_filter_conditions;
  filter_verdict := tanx_filter_verdict; buildBidResult := tanx_buildBidResult; BidTask.fillLogItem := tanx_fillLogItem;
  match_bid := tanx_match; reject_bid := tanx_reject |}.
End tanx.

(** ** Properties *)

Section round.
Context `{Names : UrlNames} `{!UrlNamesLaws Names} `{!UrlLiterals Names} `{MapOrderLaws} `{Base64Laws}.
Context `{CryptoPP} `{Aes} `{UserIds} `{TaskConst} `{Snippets, CmConst, RecordStore, DeviceOrder}.
Context `{AdxConst, ShowConst, UaConst, BrowserConst, NetConst, MtCommon, Json, OpenSSL, TanxProto}.
Context (e : handler_env) (sizes_ : AdSizeMap) (types : type_state) (linearVast nonLinearVast : TemplateEngine).

(** What the ad of a round holds, whatever its creative is. *)
Record tanx_ad_for (a : AdzInfo) (r : SelectResult) (ad : Ads) : Prop := {
  tf_place : adzinfo_id ad = adz_id a;
  tf_price : max_cpm_price ad = u32 (res_bidPrice r);
  tf_creative : creative_id ad = to_string (bId (res_banner r));
  tf_urls : length (click_through_url ad) = 1%nat /\ length (destination_url ad) = 1%nat;
}.

Lemma tanx_ad_for_ad a r landing through snippet fb video native : tanx_ad_for a r (tanx_ad a r landing through snippet fb video native).
Proof. constructor; cbn; [done|by apply uwrap_swrap|done|done]. Qed.

Lemma tanx_snippet_kept q k cm https h h' fb html :
  tanxHtmlSnippet e q k cm https h = Val (h', fb, html) ->
  same_urls h h' /\ exists t, fb = feedback_text e https t /\ report_of AD_TX_PRICE_MACRO k h' t.
Proof.
  unfold tanxHtmlSnippet. intros E. bind_in E a E1. destruct (extractSize _) as [w x]. by eapply cm_snippet_kept.
Qed.

(** Where the report of an impression is: the feedback address, or the description of the video. *)
Definition reported_by (c : AdSelectCondition) (r : SelectResult) (ad : Ads) (t : bytes) : Prop :=
  if is_video_ad c r then
    exists first click linear vast, video_snippet ad = Some vast
      /\ tanx_prepareVast linearVast nonLinearVast (width (res_banner r)) (height (res_banner r)) first
           (getShowBaseUrl (urlConfig e) (is_ios c) ++ str "?" ++ t) click linear = Val vast
  else feedback_address ad = Some (feedback_text e (is_ios c) t).

Lemma tanx_build_ad_spec k q a c r cm js fb h h' ad fb' :
  build_ad e linearVast nonLinearVast k q a c r cm js fb h = Val (h', ad, fb') ->
  tanx_ad_for a r ad /\ same_urls h h' /\ exists t, report_of AD_TX_PRICE_MACRO k h' t /\ reported_by c r ad t.
Proof.
  unfold build_ad, reported_by, is_video_ad. intros E. bind_in E mtls E1. bind_in E x E2. destruct x as [first rest].
  destruct (is_native_ad c r); cbn [negb andb].
  - unfold build_native in E. bind_in E x E3. destruct x as [h1 click]. bind_in E x E4. destruct x as [tmp req].
    bind_in E x E5. destruct x as [h2 f]. injection E as <- <- <-. apply feedback_kept in E5 as (Hs & t & -> & Ht).
    split; [apply tanx_ad_for_ad|]. split; [eapply same_urls_trans; [by eapply click_at_kept|done]|]. by exists t.
  - destruct (_ =? BANNER_TYPE_VIDEO).
    + bind_in E x E3. destruct x as [h1 ad1]. injection E as <- <- <-. unfold build_video in E3. bind_in E3 x E4. destruct x as [h2 click].
      destruct (show_para k h2 empty_helper) as [h3 url] eqn:Es. apply (reporting_monitor AD_TX_PRICE_MACRO) in Es as [Hs Hu].
      bind_in E3 imp E5. bind_in E3 vast E6. injection E3 as <- <-. unfold ciphered_at in E5. bind_in E5 y E7. destruct y as [t u].
      injection E5 as <-. split; [apply tanx_ad_for_ad|]. split; [eapply same_urls_trans; [by eapply click_at_kept|done]|].
      exists t. split; [exists u; by rewrite <- Hu|]. by eexists _, _, _, _.
    + unfold build_page in E. destruct (is_pc c).
      * bind_in E x E3. destruct x as [[h1 f] html]. injection E as <- <- <-. apply tanx_snippet_kept in E3 as (Hs & t & -> & Ht).
        split; [apply tanx_ad_for_ad|]. split; [done|]. by exists t.
      * bind_in E x E3. destruct x as [h1 click]. bind_in E y E4. bind_in E x E5. destruct x as [h2 f]. injection E as <- <- <-.
        apply feedback_kept in E5 as (Hs & t & -> & Ht).
        split; [apply tanx_ad_for_ad|]. split; [eapply same_urls_trans; [by eapply click_at_kept|done]|]. by exists t.
Qed.

(** A round that found an ad: one ad is added, and its urls are made of what the selection found. *)
Lemma tanx_build_spec c r i h h' :
  tanx_buildBidResult e linearVast nonLinearVast c r i h = Val h' ->
  let q := bidRequest h in let old := match resp_bid (bidResponse h) with Some _ => bidResponse h | None => mkBidResponse (Some (version q)) (Some (bid q)) [] end in
  bidRequest h' = q
  /\ exists a ad area imp t, rd (adzinfo q) i = Val a /\ tanx_ad_for a r ad
       /\ bidResponse h' = mkBidResponse (resp_version old) (resp_bid old) (ads old ++ [ad])
       /\ base_ad (tx_base h') = bid_ad_info c r (tanx_tid q) area imp (base_ad (tx_base h))
       /\ report_of AD_TX_PRICE_MACRO (clock e i) (tx_base h') t /\ reported_by c r ad t.
Proof.
  unfold tanx_buildBidResult. intros E. bind_in E a E1. bind_in E b E2.
  destruct (redo_mapping _ _ _ _ b) as [cm b1] eqn:E3. bind_in E js E4. bind_in E x E5. destruct x as [[b2 ad] fb]. injection E as <-.
  split; [done|]. destruct (tanx_build_ad_spec _ _ _ _ _ _ _ _ _ _ _ _ E5) as (Hf & [Hs _] & t & Ht & Hr).
  unfold fillAdInfo in E2. bind_in E2 area Ea. bind_in E2 imp Ei. bind_in E2 dev Ed. injection E2 as <-.
  exists a, ad, area, imp, t. split; [done|]. split; [done|]. split; [done|]. split; [|done]. cbn [tx_base]. rewrite Hs.
  unfold redo_mapping in E3. destruct (redoCookieMapping _ _ _ _ _ _) as [[? ?] ?]. by injection E3 as _ <-.
Qed.

(** A condition whose place is that of the request. *)
Definition asked_for (q : BidRequest) (c : AdSelectCondition) : Prop :=
  exists a b c0 b', tanx_condition e sizes_ types q a b = Val (c0, b') /\ at_place c = at_place c0.

Lemma mobile_asked_for q c : asked_for q c -> is_Some (mobile q) -> cond_adxid (at_place c) = adx_id ADX_TANX_MOBILE.
Proof.
  intros (a & b & c0 & b' & E & ->) [m Em]. unfold tanx_condition in E. rewrite Em in E. bind_in E x E1. destruct x as [[p d] cm].
  destruct (query_user _ _ _ _ _) as [h' user]. injection E as <- <-. cbn [at_place]. unfold mobile_client in E1.
  destruct (default false (is_app m)).
  - bind_in E1 ids E2. by injection E1 as <- _ _.
  - by injection E1 as <- _ _.
Qed.

End round.

(** C10: On Tanx, a bid and its impression are logged with the same ad.  A round that found an ad adds
    one ad to the response, for the place of the round, with the creative and the price that were
    found; the url of its impression is the feedback address, or, for a video, the impression url of
    its description.  When the exchange has put its price in place of the macro of that url, the
    impression is logged with the ids and the area that the bid was logged with, and finds the price. *)
Theorem tanx_impression `{Names : UrlNames} `{!UrlNamesLaws Names} `{!UrlLiterals Names} `{MapOrderLaws} `{Base64Laws}
    `{CryptoPP} `{Aes} `{UserIds} `{TaskConst} `{Snippets, CmConst, RecordStore, DeviceOrder}
    `{AdxConst, ShowConst, UaConst, BrowserConst, NetConst, MtCommon, Json, OpenSSL, TanxProto}
    (e : handler_env) sizes_ types lin non c r i h h' price (l0 l : LogItem) x y z :
  let b := info_of (tx_base h') in let tm := secs (clock e i) in let url := getShowBaseUrl (urlConfig e) (is_ios c) in
  tanx_buildBidResult e lin non c r i h = Val h' -> asked_for e sizes_ types (bidRequest h) c ->
  reportable b tm AD_TX_PRICE_MACRO price (x, y, z) -> adInfo l = ad0 ->
  no_nul (url ++ str "?" ++ cipher_text (monitor_url b tm (str "3") AD_TX_PRICE_MACRO)) ->
  (length (url ++ str "?" ++ cipher_text (monitor_url b tm (str "3") AD_TX_PRICE_MACRO)) < 2048)%nat ->
  exists a ad pre post lb,
    rd (adzinfo (bidRequest h)) i = Val a /\ tanx_ad_for a r ad /\ last (ads (bidResponse h')) = Some ad
    /\ (if is_video_ad c r then
          exists first click linear vast, video_snippet ad = Some vast
            /\ tanx_prepareVast lin non (width (res_banner r)) (height (res_banner r)) first
                 (url ++ str "?" ++ pre ++ AD_TX_PRICE_MACRO ++ post) click linear = Val vast
        else feedback_address ad = Some (url ++ str "?" ++ pre ++ AD_TX_PRICE_MACRO ++ post))
    /\ tanx_fillLogItem c l0 true h' = Val (true, lb, h')
    /\ reports (pre ++ price ++ post) l (adInfo lb) (geoInfo lb) price.
Proof.
  intros b tm url Hb Hc Hr Hl0 Hn Hlen.
  destruct (tanx_build_spec e lin non c r i h h' Hb) as (Hq & a & ad & area & imp & t & Hrd & Hf & Ha & Hba & (u & Ht) & Hrep).
  destruct (monitor_reports _ _ _ _ _ _ _ l t u Hr Hl0 Ht) as (pre & post & Et & Ec & m & ls & Hm & Hls & Hsame & Hgeo & Hp).
  change (bid_ad b) with (base_ad (tx_base h')) in Hsame. rewrite Hba in Hsame.
  destruct (exchange_log_won (adx_id ADX_TANX_MOBILE) (fun _ => req_ip (bidRequest h')) (default [] (req_url (bidRequest h'))) (req_user_agent (bidRequest h'))
    (debug_device <$> (mobile (bidRequest h') ≫= mobile_device)) c l0 (tx_base h') x y z) as (lb & Elb & Hlb & Hgb); [apply Hr|by rewrite Hba| |].
  { rewrite Hq. intros Hd. apply (mobile_asked_for e sizes_ types (bidRequest h) c Hc). by destruct (mobile (bidRequest h)); [|destruct Hd]. }
  exists a, ad, pre, post, lb. split; [done|]. split; [done|]. split; [by rewrite Ha; cbn [ads]; rewrite last_snoc|].
  rewrite <- Et. split; [|split; [unfold tanx_fillLogItem; unfold tanx_fillSpecificLog; rewrite Elb; cbn [mbind outcome_bind]; by destruct h'|]].
  - unfold reported_by in Hrep. destruct (is_video_ad c r); [exact Hrep|]. rewrite Hrep. f_equal. rewrite Ec. by apply feedback_text_fits.
  - exists m, ls. split; [done|]. split; [done|]. split; [rewrite Hlb, Hba; by apply won_same|]. split; [congruence|done].
Qed.

(** *** The answer to a request *)

Section answer.
Context `{Names : UrlNames} `{!UrlNamesLaws Names} `{!UrlLiterals Names} `{MapOrderLaws} `{Base64Laws}.
Context `{CryptoPP} `{Aes} `{UserIds} `{TaskConst} `{Snippets, CmConst, RecordStore, DeviceOrder}.
Context `{AdxConst, ShowConst, UaConst, BrowserConst, NetConst, MtCommon, Json, OpenSSL, TanxProto}.
Context (e : handler_env) (sizes_ : AdSizeMap) (types : type_state) (lin non : TemplateEngine) (Hwr : forall r, is_Some (write_response r)).

(** The response after the ads [as_] were added. *)
Definition tanx_response (q : BidRequest) (as_ : list Ads) : BidResponse := mkBidResponse (Some (version q)) (Some (bid q)) as_.
Definition tanx_holds (h : tanx) (as_ : list Ads) : Prop :=
  bidResponse h = match as_ with [] => response0 | _ => tanx_response (bidRequest h) as_ end.

Definition tanx_ad_of_round (places : list AdzInfo) (w : Z * round) (ad : Ads) : Prop :=
  exists a, rd places (fst w) = Val a /\ tanx_ad_for a (rd_result (snd w)) ad.

Definition tanx_written (q : BidRequest) (as_ : list Ads) (resp resp' : HttpResponse) : Prop :=
  exists t, write_response (tanx_response q as_) = Some t /\ resp' = octets t resp.

#[refine] Instance tanx_answers : HandlerAnswers (tanx_handler e sizes_ types lin non) := {|
  request (h : @handler (tanx_handler e sizes_ types lin non)) := bidRequest h; holds_ads := tanx_holds;
  round_ad q := tanx_ad_of_round (adzinfo q); written := tanx_written |}.
Proof.
  - intros c r i h h' as_ Eb Hw.
    destruct (tanx_build_spec e lin non c r i h h' Eb) as (Q1 & a & ad & _ & _ & _ & Hrd & Hf & Ha & _).
    split; [done|]. exists ad. split; [|by exists a]. unfold tanx_holds in *. rewrite Q1, Ha, Hw. by destruct as_.
  - intros c l ok h b l' h' as_ E Hw. cbn in E. unfold tanx_fillLogItem in E. bind_in E x E1. destruct x as [[b1 l1] hb].
    by injection E as <- <- <-.
  - done.
  - intros r h r' h' as_ E Hw Hne. cbn in E. unfold tanx_match in E. unfold tanx_holds in Hw. rewrite Hw in E.
    destruct as_ as [|a as_]; [done|]. destruct (Hwr (tanx_response (bidRequest h) (a :: as_))) as [t Et].
    rewrite Et in E. injection E as <- <-. by exists t.
  - intros r h r' h' E Hw. cbn in E. unfold tanx_reject in E.
    destruct (Hwr (tanx_response (bidRequest h) [])) as [t Et]. unfold tanx_response in Et. rewrite Et in E.
    injection E as <- <-. by exists t.
Defined.
End answer.

(** C11: The answer to a request of Tanx.  A ping, and a request without a place, is answered with the
    version and the id of the request and no ad.  Any other request is asked for once, with the
    condition of its first place; the answer holds the version and the id of the request, and the ad
    that was found, which names the place and the creative and pays the price that was bid, or no ad
    when none was found. *)
Theorem tanx_answer `{Names : UrlNames} `{!UrlNamesLaws Names} `{!UrlLiterals Names} `{MapOrderLaws} `{Base64Laws}
    `{CryptoPP} `{Aes} `{UserIds} `{TaskConst} `{Snippets, CmConst, RecordStore, DeviceOrder}
    `{AdxConst, ShowConst, UaConst, BrowserConst, NetConst, MtCommon, Json, OpenSSL, TanxProto} `{BoostBase64, PriceMemory, Avro, LogConst}
    (e : handler_env) sizes_ types lin non be data (h h0 : tanx) h' s s' (ok : bool) :
  let tx := tanx_handler e sizes_ types lin non in let q := bidRequest h0 in
  isPost (bid_task be) = true -> tanx_parseRequestData data h = Val (ok, h0) ->
  (forall c, address_known be c) ->
  (forall r, is_Some (write_response r)) ->
  bid_customLogic be (Some h0) s = RVal h' s' ->
  exists rs as_ t, Forall2 (tanx_ad_of_round (adzinfo q)) (winners 0 rs) as_
    /\ (is_ping q <> 0 \/ adzinfo q = [] -> rs = [])
    /\ (is_ping q = 0 -> forall a, head (adzinfo q) = Some a ->
          exists c b r, tanx_condition e sizes_ types q a (tx_base h0) = Val (c, b) /\ rs = [r] /\ is_round be [] c r)
    /\ write_response (tanx_response q as_) = Some t
    /\ resp s' = octets t (resp s) /\ needLog s' = false.
Proof.
  intros tx q Hpost Hp Hadr Hwr E.
  assert (tanx_holds h0 []) as Hw by (unfold tanx_parseRequestData in Hp; destruct (parse_request data); by injection Hp as _ <-).
  assert (exists h1 o, tanx_filter_conditions e sizes_ types h0 = Val (h1, o) /\ bidRequest h1 = q /\ bidResponse h1 = bidResponse h0
    /\ (is_ping q <> 0 \/ adzinfo q = [] -> o = None)
    /\ (is_ping q = 0 -> forall a, head (adzinfo q) = Some a ->
          exists c b, tanx_condition e sizes_ types q a (tx_base h0) = Val (c, b) /\ o = Some [c])) as (h1 & o & Ef & Hq & Hr & Hno & Ho).
  { destruct (answered_filtered (BH := tx) be h0 h' s s' Hpost E) as (h1 & o & Ef). exists h1, o. split; [done|].
    cbn in Ef. unfold tanx_filter_conditions in Ef. fold q in Ef. destruct (Z.eqb_spec (is_ping q) 0) as [Ep|Ep]; cbn [negb] in Ef; [|by injection Ef as <- <-].
    destruct (adzinfo q) as [|a as_] eqn:Ea; [by injection Ef as <- <-|]. bind_in Ef x Ec. destruct x as [c b]. injection Ef as <- <-.
    split; [done|]. split; [done|]. split; [by intros [?|?]|]. intros _ a' [= <-]. by exists c, b. }
  assert (tanx_holds h1 []) as Hw1 by (unfold tanx_holds in *; by rewrite Hr).
  destruct (auction_answer (BH := tx) (HA := tanx_answers e sizes_ types lin non Hwr) be h0 h1 o h' s s' Hpost Ef Hw1 Hadr E)
    as (rs & as_ & Hrs & Hf & (t & Ht & Hresp) & Hlog).
  cbn [request round_ad tanx_answers] in Hf, Ht. rewrite Hq in Hf, Ht. exists rs, as_, t. split; [done|].
  split; [intros Hn; apply Hno in Hn; by subst o|]. split; [|done]. intros Hp0 a Ha. destruct (Ho Hp0 a Ha) as (c & b & Ec & ->).
  destruct rs as [|r [|r2 rs]]; cbn [rounds] in Hrs; [done| |by destruct Hrs as [_ []]]. exists c, b, r. by destruct Hrs as [Hr1 _].
Qed.

(** *** The client of an app *)

(** What Tanx sends for an id of a device, if it has one. *)
Definition sent_id `{OpenSSL} (o : option bytes) (id : bytes) : Prop :=
  match o with
  | None => id = []
  | Some s => Forall is_byte id /\ no_nul id /\ (length id <= 46)%nat /\ s = b64_enc (device_message id (device_sig id))
  end.

Lemma decoded_id_sent `{OpenSSLLaws} o id : sent_id o id -> decoded_id o = Val (upper id).
Proof.
  destruct o as [s|]; cbn [sent_id decoded_id]; [|by intros ->]. intros (Hb & Hn & Hl & ->).
  destruct (MD5_size ([1; Z.of_nat (length id)] ++ id ++ device_key)) as [Ml Mb].
  rewrite tanx_device_id; [|done..|by apply Forall_take|unfold device_sig; rewrite length_take, Ml; done].
  by rewrite bool_decide_eq_true_2.
Qed.

(** C12: The device of an app on Tanx is known by its own ids.  The condition of a request of an app
    whose ids Tanx has encrypted holds the ids in capital letters and the mobile exchange, the
    package of the app as its place if the request names it, and the user that is mapped to the
    digests of the ids or to the id of Tanx. *)
Theorem tanx_app_identified `{UrlNames, MapOrder, Base64, CryptoPP, UserIds, CmConst, RecordStore, DeviceOrder}
    `{AdxConst, ShowConst, UaConst, BrowserConst, NetConst, Json} `{OpenSSLLaws}
    (e : handler_env) sizes_ types q a m d b (ids : device_ids) :
  mobile q = Some m -> is_app m = Some true -> mobile_device m = Some d ->
  sent_id (dev_idfa d) (idfa ids) -> sent_id (dev_imei d) (imei ids) -> sent_id (dev_android_id d) (androidId ids) ->
  sent_id (dev_mac d) (mac ids) ->
  exists c b', tanx_condition e sizes_ types q a b = Val (c, b')
    /\ cond_ids (of_client c) = upper_ids ids
    /\ cond_adxid (at_place c) = adx_id ADX_TANX_MOBILE /\ cond_adxpid (at_place c) = default (adz_pid a) (package_name m)
    /\ cond_flowType (of_client c) = SOLUTION_FLOWTYPE_MOBILE
    /\ (cmInfo b', cond_mtUserId c)
       = queryCookieMapping (disabledCookieMapping e) (mapping_store e) (mapping_answer e) []
           (cookieMappingKeyMobile (md5_ids (upper_ids ids)) (upper_ids ids) (adx_id ADX_TANX_MOBILE) (tanx_tid q) (cmInfo b)).
Proof.
  intros Hm Happ Hd S1 S2 S3 S4.
  assert (device_ids_of d = Val (upper_ids ids)) as Ei.
  { unfold device_ids_of. rewrite (decoded_id_sent _ _ S1), (decoded_id_sent _ _ S2), (decoded_id_sent _ _ S3), (decoded_id_sent _ _ S4). done. }
  unfold tanx_condition, mobile_client. rewrite Hm, Happ, Hd. cbn [default from_option].
  change (Datatypes.id true) with true. change (Datatypes.id d) with d. cbv iota. rewrite Ei. cbn [mbind outcome_bind].
  unfold query_user. cbn [cmInfo set_cm]. destruct (queryCookieMapping _ _ _ _ _) as [c1 u] eqn:Eq. do 2 eexists. split; [done|].
  cbn [of_client cond_ids at_place cond_flowType cond_mtUserId cmInfo set_cm set_place_adx cond_adxid cond_adxpid].
  split; [done|]. split; [done|]. split; [|done]. destruct (package_name m); [done|]. cbn [default from_option].
  unfold native_place, adz_place. destruct (extractSize _), (is_native a && negb (is_video a)); [|done]. by destruct (default _ _).
Qed.

(** *** Limits *)

(** A template without an area is read all the same. *)
Lemma template_without_area s words t ts : areas t = [] -> choose_template s words (t :: ts) = Undef.
Proof. intros Ea. cbn [choose_template]. by rewrite Ea. Qed.

(** The video of a response is not reported by the feedback address. *)
Lemma video_without_feedback `{UrlNames, MapOrder, Base64, CryptoPP, UserIds, CmConst, RecordStore, DeviceOrder, AdxConst, MtCommon}
    e lin non k a r isIOS first h h' ad : build_video e lin non k a r isIOS first h = Val (h', ad) -> feedback_address ad = None.
Proof.
  unfold build_video. intros E. bind_in E x E1. destruct x as [h1 click]. destruct (show_para _ _ _) as [h2 url].
  bind_in E imp E2. bind_in E vast E3. by injection E as _ <-.
Qed.

(** ** Instances *)

Module TanxInstance.
#[local] Existing Instance DeviceInstance.rfc_openssl.
#[local] Existing Instance DeviceInstance.rfc_openssl_laws.
Import HandlerInstance.

(** A place of a browser, and the same place in an app whose device sends its imei. *)
Definition a_place : AdzInfo := mkAdz 31 (str "mm_1_2_3") (str "300x250") [1] (Some 40) None.
Definition a_device : Device :=
  mkTanxDevice (str "Android") (str "android") (Some (str "M1")) (Some 1) 2 (str "116.4") (str "39.9") None
    (Some (b64_enc (device_message DeviceInstance.an_imei (device_sig DeviceInstance.an_imei)))) None None.
Definition an_app : Mobile := mkMobile (Some true) (Some (str "com.app")) (Some a_device) [] [].
Definition page_request : BidRequest :=
  mkRequest 3 (str "q9") (Some (str "t77")) (str "1.2.3.4") (str "Mozilla/5.0 (X11; Linux)") None [] 0 [a_place] None.
Definition app_request : BidRequest :=
  mkRequest 3 (str "q9") (Some (str "t77")) (str "1.2.3.4") (str "Mozilla/5.0 (X11; Linux)") None [] 0 [a_place] (Some an_app).

#[local] Instance one_request : TanxProto := {
  parse_request _ := (true, page_request);
  write_response r := Some (flat_map (fun a => to_string (adzinfo_id a) ++ str "=" ++ to_string (max_cpm_price a) ++ str ";") (ads r));
  debug_device _ := [];
}.

Definition no_vast : TemplateEngine := te1.
Definition types0 : type_state := type_state0.
Definition parsed0 : tanx := mkTanx base0 page_request response0 [].
#[local] Instance tx : BiddingHandler := tanx_handler the_env AdSizeMap_new types0 no_vast no_vast.
Definition parsed_handler : handler := parsed0.

Example page_answer :
  match bid_customLogic the_bids (Some parsed_handler) the_state with RVal _ s => body (resp s) | _ => [] end = str "31=100;".
Proof. by vm_compute. Qed.

Definition finished : task_state := match bid_customLogic the_bids (Some parsed_handler) the_state with RVal _ s => s | _ => the_state end.
Definition done_handler : option handler := match bid_customLogic the_bids (Some parsed_handler) the_state with RVal h _ => h | _ => None end.

Lemma tanx_answer_witness :
  exists rs as_ t, Forall2 (tanx_ad_of_round [a_place]) (winners 0 rs) as_
    /\ write_response (tanx_response page_request as_) = Some t
    /\ resp finished = octets t (resp the_state) /\ needLog finished = false.
Proof.
  destruct (tanx_answer the_env AdSizeMap_new types0 no_vast no_vast the_bids [] parsed0 parsed0 done_handler the_state finished true)
    as (rs & as_ & t & A1 & _ & _ & A2 & A3 & A4).
  - reflexivity.
  - reflexivity.
  - intros c. split; by eexists.
  - intros r. by eexists.
  - by vm_compute.
  - exists rs, as_, t. split; [exact A1|]. split; [exact A2|]. split; [exact A3|exact A4].
Defined.

Definition asked0 : AdSelectCondition :=
  match tanx_condition the_env AdSizeMap_new types0 page_request a_place base0 with Val (c, _) => c | _ => condition0 end.
Definition after_first : tanx :=
  match tanx_buildBidResult the_env no_vast no_vast asked0 (snd (found asked0)) 0 parsed0 with Val h => h | _ => parsed0 end.
Abbreviation first_bid := (info_of (tx_base after_first)).
Definition a_price : bytes := str "AbCdEfGh".

Lemma tanx_bid_cipherable : cipherable (monitor_url first_bid 1476779974 (str "3") a_price).
Proof.
  constructor.
  - by_decide.
  - repeat constructor; vm_compute; congruence.
  - by_decide.
  - vm_compute. discriminate.
  - vm_compute. lia.
  - intros []; discriminate.
Qed.

Lemma tanx_bid_reportable : reportable first_bid 1476779974 AD_TX_PRICE_MACRO a_price (86, 110000, 110100).
Proof.
  constructor.
  - exact tanx_bid_cipherable.
  - by apply Nat.ltb_lt.
  - by vm_compute.
  - by_decide.
  - discriminate.
  - constructor; [by_decide|by_decide|split; vm_compute; discriminate].
  - by_decide.
  - vm_compute. lia.
  - by vm_compute.
Qed.

Lemma tanx_impression_witness :
  exists a ad pre post lb,
    rd [a_place] 0 = Val a /\ tanx_ad_for a (snd (found asked0)) ad /\ last (ads (bidResponse after_first)) = Some ad
    /\ feedback_address ad = Some (str "http://s.cn/s" ++ str "?" ++ pre ++ AD_TX_PRICE_MACRO ++ post)
    /\ tanx_fillLogItem asked0 log0 true after_first = Val (true, lb, after_first)
    /\ reports (pre ++ a_price ++ post) show_log (adInfo lb) (geoInfo lb) a_price.
Proof.
  destruct (tanx_impression the_env AdSizeMap_new types0 no_vast no_vast asked0 (snd (found asked0)) 0 parsed0 after_first a_price log0 show_log
           86 110000 110100) as (a & ad & pre & post & lb & A1 & A2 & A3 & A4 & A5 & A6).
  - by vm_compute.
  - exists a_place, base0, asked0. eexists. split; [by vm_compute|reflexivity].
  - exact tanx_bid_reportable.
  - reflexivity.
  - by_decide.
  - by apply Nat.ltb_lt.
  - exists a, ad, pre, post, lb. split; [exact A1|]. split; [exact A2|]. split; [exact A3|]. split; [exact A4|]. split; [exact A5|exact A6].
Defined.

Lemma tanx_app_identified_witness :
  exists c b', tanx_condition the_env AdSizeMap_new types0 app_request a_place base0 = Val (c, b')
    /\ cond_ids (of_client c) = mkIds [] DeviceInstance.an_imei [] []
    /\ cond_adxid (at_place c) = adx_id ADX_TANX_MOBILE /\ cond_adxpid (at_place c) = str "com.app".
Proof.
  destruct (tanx_app_identified the_env AdSizeMap_new types0 app_request a_place an_app a_device base0 (mkIds [] DeviceInstance.an_imei [] []))
    as (c & b' & A1 & A2 & A3 & A4 & _).
  - reflexivity.
  - reflexivity.
  - reflexivity.
  - reflexivity.
  - split; [by_decide|]. split; [by_decide|]. split; [by apply Nat.leb_le|reflexivity].
  - reflexivity.
  - reflexivity.
  - exists c, b'. split; [exact A1|]. split; [rewrite A2; by vm_compute|]. split; [exact A3|exact A4].
Defined.
End TanxInstance.
