(* ===== verification/MaxBid.v ===== *)
(** * MaxBid: the handler of 360 (protocol/360/360max_bidding_handler.cpp, protocol/360/360max_bidding_handler.h)

    A request is for one place, the first of its list, of a mobile app, a mobile page or a browser;
    the place may be native and may name deals.  A round that found an ad adds it to the response
    with its price, in millionths, and its creative: a native ad, or a snippet of a page.  The url
    that reports an impression is the notice url of a page and the track of a native ad.

    The generated classes of the messages are the parameter [MaxProto]; the records below are the
    fields that the handler reads and writes, with their defaults.  The flow type that the handler
    also writes to the place of the condition is read by nothing and left out. *)
From Stdlib Require Import SpecFloat.
From S2P Require Import SizeMap TypeTable.
From S2P Require Import Prelude CString UrlCodec UrlParams Cypher UrlHelper Rijndael RijndaelProofs SohuPrice Template.
From S2P Require Import LogPusher Double PriceDecode Pricing Http QueryTask ClickTask CookieMapping TraceTask BidUrl UserClient AdSelect ShowTask.
From S2P Require Import BidBase BidReport BidTask BidAnswer.

(** ** Messages *)

Record MaxNative := mkMaxNative { landing_type : list Z; template_ids : list Z }.
Record MaxSlot := mkMaxSlot {
  slot_id : Z; slot_pid : bytes; slot_w : Z; slot_h : Z; slot_min_cpm : option Z; slot_native : option MaxNative; deals : list Z;
}.
Record MaxDevice := mkMaxDevice {
  md_model : bytes; md_os : bytes; md_network : option Z; md_carrier : Z; md_longitude : bytes; md_latitude : bytes;
  md_idfa : option bytes; md_imei : option bytes; md_android_id : option bytes; md_mac : option bytes;
}.
Definition max_device0 : MaxDevice := mkMaxDevice [] [] None 0 [] [] None None None None.
Record MaxMobile := mkMaxMobile { mm_is_app : option bool; mm_device : option MaxDevice; mm_app_category : list Z }.
Record MaxRequest := mkMaxRequest {
  mx_bid : bytes; mv_user_id : option bytes; mx_ip : bytes; mx_user_agent : bytes; mx_url : option bytes; mx_is_https : bool;
  content_category : list Z; adslots : list MaxSlot; mx_mobile : option MaxMobile;
}.

Record MaxCreative := mkMaxCreative {
  mc_title : bytes; mc_sub_title : bytes; mc_description : bytes; mc_button : bytes; mc_image : bytes; mc_image_size : Z * Z;
  mc_logo : bytes; mc_click : bytes; mc_landing_type : Z;
}.
Record MaxNativeAd := mkMaxNativeAd {
  na_price : Z; na_creative : MaxCreative; na_template : Z; na_app_name : option bytes; impression_tracks : list bytes;
  na_category : list Z; na_advertiser : bytes; na_creative_id : bytes; na_deal : option Z;
}.
Record MaxAd := mkMaxAd {
  ma_slot : Z; ma_price : Z; ma_html : option bytes; native_ads : list MaxNativeAd; ma_category : list Z; ma_type : list Z;
  ma_destination : list bytes; ma_advertiser : bytes; ma_creative : bytes; ma_size : Z * Z; nurl : option bytes;
}.
Record MaxResponse := mkMaxResponse { mr_bid : option bytes; max_ads : list MaxAd }.
Definition max_response0 : MaxResponse := mkMaxResponse None [].

Class MaxProto := {
  max_parse : bytes -> bool * MaxRequest;            (* ParseFromString of a cleared message *)
  max_write : MaxResponse -> option bytes;           (* SerializeToString *)
  debug_max : MaxDevice -> bytes;                    (* DebugString *)
}.

(** [feedbackUrl] is the text in its buffer. *)
Record max360 := mkMax { mx_base : base; mx_request : MaxRequest; mx_response : MaxResponse; mx_feedbackUrl : bytes }.
Definition max_on_base (f : base -> base) (h : max360) : max360 := mkMax (f (mx_base h)) (mx_request h) (mx_response h) (mx_feedbackUrl h).

Definition AD_MAX_CLICK_MACRO : bytes := str "%%CLICK_URL_ESC%%".
Definition AD_MAX_CLICK_UNENC_MACRO : bytes := str "%%CLICK_URL_UNESC%%".
Definition AD_MAX_PRICE_MACRO : bytes := str "%%WIN_PRICE%%".
Definition MAX_COOKIEMAPPING_URL : bytes := str "http://cm.mediav.com/s?mvdid=134".
(** The UTF-8 texts of a button: "click to enter" and the name of the company. *)
Definition button_enter : bytes := [0xE7; 0x82; 0xB9; 0xE5; 0x87; 0xBB; 0xE8; 0xBF; 0x9B; 0xE5; 0x85; 0xA5].
Definition button_company : bytes := [0xE9; 0xBA; 0xA6; 0xE7; 0x94; 0xB0; 0xE7; 0xA7; 0x91; 0xE6; 0x8A; 0x80].

(** Prices are sent in millionths. *)
Definition price_unit : Z := 10000.

Section max.
Context `{UrlNames, MapOrder, Base64, CryptoPP, UserIds, Snippets, CmConst, RecordStore, DeviceOrder}.
Context `{AdxConst, ShowConst, UaConst, BrowserConst, NetConst, MtCommon, Json, MaxProto}.
Context (e : handler_env) (sizes_ : AdSizeMap) (types : type_state).

(** ** The client *)

Definition getDeviceTypeByOS (os : bytes) : device_name :=
  if contains os (str "ios") then SOLUTION_DEVICE_IPHONE
  else if contains os (str "android") then SOLUTION_DEVICE_ANDROID
  else SOLUTION_DEVICE_OTHER.

Definition getDeviceOs (os : bytes) : os_name :=
  if contains os (str "ios") then SOLUTION_OS_IOS
  else if contains os (str "android") then SOLUTION_OS_ANDROID
  else SOLUTION_OS_OTHER.

(** ** The request *)

Definition max_parseRequestData (data : bytes) (h : max360) : outcome (bool * max360) :=
  let '(ok, r) := max_parse data in Val (ok, mkMax (mx_base h) r max_response0 (mx_feedbackUrl h)).

Definition max_user (q : MaxRequest) : bytes := default [] (mv_user_id q).

(** The list of deals, between commas. *)
Definition deal_list (ds : list Z) : bytes := match ds with [] => [] | _ => str "," ++ flat_map (fun d => to_string d ++ str ",") ds end.

(** The sizes and the type of a place: [width] and [height] are those of the last size. *)
Definition max_sizes (s : MaxSlot) : Z * list (Z * Z) :=
  match slot_native s with
  | Some _ => (BANNER_TYPE_PRIMITIVE, SizeMap.get sizes_ (slot_w s, slot_h s) MATERIAL_TYPE_PIC)
  | None => (0, [(slot_w s, slot_h s)])
  end.

(** What the condition holds before its client. *)
Definition max_place (q : MaxRequest) (s : MaxSlot) : cond_place :=
  let '(type, szs) := max_sizes s in
  let '(w, h) := default (0, 0) (last szs) in
  mkCondPlace (slot_pid s) 0 (adx_id ADX_360_MAX_PC) (default 0 (slot_min_cpm s) / price_unit) w h type
    (match content_category q with c :: _ => getContentType types (adx_id ADX_360_MAX_PC) (to_string c) | [] => 0 end) 0
    (deal_list (deals s)) [] (Some szs) 99.

Definition upper_opt (o : option bytes) : bytes := from_option upper [] o.

(** The client of a mobile request: what its place becomes, the client, and the key of its user.  The
    category of an app is looked up under Tanx. *)
Definition max_mobile_client (q : MaxRequest) (m : MaxMobile) (p : cond_place) (c : BidCookieMappingInfo)
    : cond_place * cond_client * BidCookieMappingInfo :=
  let d := default max_device0 (mm_device m) in
  let adx := adx_id ADX_360_MAX_MOBILE in
  let client ids :=
    mkClient ids (device_id (getDeviceTypeByOS (md_os d))) SOLUTION_FLOWTYPE_MOBILE (os_id (getDeviceOs (md_os d)))
      (match md_network d with Some n => network_id (getNetWork (s32 n)) | None => 0 end)
      (provider_id (getNetworkProvider (md_carrier d))) [] (md_model d)
      (safe_stod (md_longitude d), safe_stod (md_latitude d)) (Some (getDeviceBrandFromUA (mx_user_agent q))) [] in
  if default false (mm_is_app m) then
    let content := match mm_app_category m with
                   | a :: _ => getContentType types (adx_id ADX_TANX) (to_string a)
                   | [] => mttyContentType p
                   end in
    let ids := mkIds (upper_opt (md_idfa d)) (upper_opt (md_imei d)) (upper_opt (md_android_id d)) (upper_opt (md_mac d)) in
    (set_place_adx adx (cond_adxpid p) content p, client ids, cookieMappingKeyMobile (md5_ids ids) ids adx (max_user q) c)
  else (set_place_adx adx (cond_adxpid p) (mttyContentType p) p, client (mkIds [] [] [] []), cookieMappingKeyPC adx (max_user q) c).

Definition max_browser_client (q : MaxRequest) (p : cond_place) (c : BidCookieMappingInfo)
    : outcome (cond_place * cond_client * BidCookieMappingInfo) :=
  browser ← getBrowserTypeFromUA (mx_user_agent q);
  Val (p, mkClient (mkIds [] [] [] []) 0 SOLUTION_FLOWTYPE_PC (getOSTypeFromUA (mx_user_agent q))
            0 0 [] [] (S754_zero false, S754_zero false) None browser,
       cookieMappingKeyPC (adx_id ADX_360_MAX_PC) (max_user q) c).

Definition max_condition (q : MaxRequest) (s : MaxSlot) (h : base) : outcome (AdSelectCondition * base) :=
  '(p, d, c) ← (match mx_mobile q with
                | Some m => Val (max_mobile_client q m (max_place q s) (cmInfo h))
                | None => max_browser_client q (max_place q s) (cmInfo h)
                end);
  let '(h, user) := query_user (disabledCookieMapping e) (mapping_store e) (mapping_answer e) [] (set_cm c h) in
  Val (mkCondition p d (mx_ip q) user 0 [] None [] false, h).

Definition max_filter_conditions (h : max360) : outcome (max360 * option (list AdSelectCondition)) :=
  let q := mx_request h in
  match adslots q with
  | [] => Val (max_on_base bidFailedReturn h, None)
  | s :: _ =>
    '(c, b) ← max_condition q s (mx_base h);
    Val (mkMax b q (mx_response h) (mx_feedbackUrl h), Some [c])
  end.

Definition max_filter_verdict (ok : bool) (cs : list AdSelectCondition) (h : max360) : max360 :=
  max_on_base (if ok then set_accepted true else bidFailedReturn) h.

(** ** The response *)

(** [(int)result.bidPrice * 10000], which is not defined outside the range of [int]. *)
Definition max_cpm_price (r : SelectResult) : outcome Z :=
  let p := s32 (res_bidPrice r) * price_unit in check ((INT_MIN <=? p) && (p <=? INT_MAX));; Val p.

Definition max_advertiser (r : SelectResult) : Z :=
  let i := stoi_safe (extractRealValue (adxAdvId (res_banner r)) (adx_id ADX_360_MAX_PC)) in
  if i =? 0 then s32 (sol_advId (res_solution r)) else i.
Definition max_industry (r : SelectResult) : Z := stoi_safe (extractRealValue (adxIndustryType (res_banner r)) (adx_id ADX_360_MAX_PC)).

Definition max_https (q : MaxRequest) (c : AdSelectCondition) : bool := is_ios c || mx_is_https q.

Definition juxiaoHtmlSnippet (q : MaxRequest) (k : round_clock) (cookieMappingUrl : bytes) (useHttps : bool) (h : base)
    : outcome (base * bytes * bytes) :=
  s ← rd (adslots q) 0;
  generate_cm_snippet e AD_MAX_PRICE_MACRO AD_MAX_CLICK_MACRO k (slot_w s) (slot_h s) (cm_image cookieMappingUrl) useHttps h.

(** The template: the first that is 1, or the last. *)
Fixpoint max_template (t : Z) (ts : list Z) : Z :=
  match ts with [] => t | t :: ts => if t =? 1 then t else max_template t ts end.

(** The landing type: downloads are passed over when there is nothing to download. *)
Fixpoint max_landing (download : bool) (t : Z) (ts : list Z) : Z :=
  match ts with
  | [] => t
  | x :: ts => if x =? 1 then (if download then 1 else max_landing download t ts) else max_landing download x ts
  end.

(** The url that reports an impression of a native ad, which carries the deal of the solution. *)
Definition has_deal (c : AdSelectCondition) (r : SelectResult) : bool :=
  negb (bool_decide (cond_dealId (at_place c) = [])) && negb (bool_decide (sol_dDealId (res_solution r) = str "0")).
Definition max_track (c : AdSelectCondition) (r : SelectResult) (https : bool) (k : round_clock) (h : base)
    : outcome (base * option Z * bytes) :=
  let '(h, url) := show_para k h empty_helper in
  let url := reporting AD_MAX_PRICE_MACRO url in
  let deal := sol_dDealId (res_solution r) in
  '(id, url) ← (if has_deal c r then i ← stoi deal; Val (Some i, UrlHelper.add (url_name URL_DEAL_ID) deal url) else Val (None, url));
  text ← ciphered_at (getShowBaseUrl (urlConfig e) https) url;
  Val (h, id, text).

Definition max_ad (s : MaxSlot) (r : SelectResult) (price : Z) (html : option bytes) (native : list MaxNativeAd) (landing : bytes)
    (size : Z * Z) (notice : option bytes) : MaxAd :=
  mkMaxAd (slot_id s) (u32 price) html native [max_industry r] [1] [landing] (to_string (max_advertiser r)) (to_string (bId (res_banner r)))
    size notice.

Definition max_build_native (k : round_clock) (s : MaxSlot) (c : AdSelectCondition) (r : SelectResult) (price : Z) (https : bool) (first : json)
    (h : base) : outcome (base * MaxAd) :=
  let get n := get_text (str n) first in
  let native := default (mkMaxNative [] []) (slot_native s) in
  let template := max_template 1 (template_ids native) in
  let landing := get "p9"%string in
  let size := SizeMap.rget sizes_ (width (res_banner r), height (res_banner r)) in
  let button := if template =? 1 then button_enter else match get "p18"%string with [] => button_company | n => n end in
  let download := if is_ios c then get "p10"%string else get "p11"%string in
  '(h, link) ← click_at e https (match download with [] => landing | _ => download end) h;
  let creative := mkMaxCreative (get "p0"%string) (get "p1"%string) (get "p5"%string) button (get "p6"%string) size (get "p15"%string)
                    (AD_MAX_CLICK_UNENC_MACRO ++ urlEncode link)
                    (max_landing (negb (bool_decide (download = []))) 0 (landing_type native)) in
  '(h, deal, track) ← max_track c r https k h;
  let ad := mkMaxNativeAd (u32 price) creative template (match download with [] => None | _ => Some (get "p0"%string) end) [track]
              [max_industry r] (to_string (max_advertiser r)) (to_string (bId (res_banner r))) deal in
  Val (h, max_ad s r price None [ad] landing size None).

Definition max_build_page (k : round_clock) (q : MaxRequest) (s : MaxSlot) (c : AdSelectCondition) (r : SelectResult) (price : Z)
    (cookieMappingUrl : bytes) (https : bool) (ad first : json) (fb : bytes) (h : base) : outcome (base * MaxAd * bytes) :=
  let landing := get_text (str "p1") first in
  let size := (width (res_banner r), height (res_banner r)) in
  if cond_flowType (of_client c) =? SOLUTION_FLOWTYPE_PC then
    '(h, fb, html) ← juxiaoHtmlSnippet q k cookieMappingUrl https h;
    Val (h, max_ad s r price (Some html) [] landing size (Some fb), fb)
  else
    '(h, click) ← click_at e https landing h;
    let page := set_member (str "rs") (JBool true) (page_json AD_MAX_CLICK_UNENC_MACRO c r (base_ad h) click ad) in
    text ← format (creative_template e) [json_print page];
    '(h, notice) ← report_at e https AD_MAX_PRICE_MACRO k h;
    Val (h, max_ad s r price (Some (printed_c 4096 text)) [] landing size (Some notice), fb).

Definition max_build_ad (k : round_clock) (q : MaxRequest) (s : MaxSlot) (c : AdSelectCondition) (r : SelectResult) (price : Z)
    (cookieMappingUrl : bytes) (ad : json) (fb : bytes) (h : base) : outcome (base * MaxAd * bytes) :=
  mtls ← as_array (get_member (str "mtls") ad);
  if bannerType (res_banner r) =? BANNER_TYPE_PRIMITIVE then
    '(first, _) ← head_of mtls;
    '(h, ad) ← max_build_native k s c r price (max_https q c) first h; Val (h, ad, fb)
  else
    '(first, _) ← head_of mtls;
    max_build_page k q s c r price cookieMappingUrl (max_https q c) ad first fb h.

Definition max_buildBidResult (c : AdSelectCondition) (r : SelectResult) (seq : Z) (h : max360) : outcome max360 :=
  let q := mx_request h in
  let resp := match mr_bid (mx_response h) with Some _ => mx_response h | None => mkMaxResponse (Some (mx_bid q)) [] end in
  s ← rd (adslots q) seq;
  price ← max_cpm_price r;
  b ← fillAdInfo (area_code e) (uniqueIdSeq e) (clock e seq) c r (max_user q) (mx_base h);
  let '(cmUrl, b) := redo_mapping (uniqueIdSeq e) (clock e seq) (adx_id ADX_360_MAX_PC) MAX_COOKIEMAPPING_URL b in
  js ← bannerJson2HttpsIOS (max_https q c) (banner_json (res_banner r)) (bannerType (res_banner r) =? BANNER_TYPE_PRIMITIVE);
  '(b, ad, fb) ← max_build_ad (clock e seq) q s c r price cmUrl js (mx_feedbackUrl h) b;
  Val (mkMax b q (mkMaxResponse (mr_bid resp) (max_ads resp ++ [ad])) fb).

(** ** The log *)

Definition max_fillSpecificLog (q : MaxRequest) (c : AdSelectCondition) (l : LogItem) (isAccepted : bool) (h : base)
    : outcome (bool * LogItem * base) :=
  exchange_log (adx_id ADX_360_MAX_MOBILE) (mx_ip q) (default [] (mx_url q)) (mx_user_agent q)
    (if isAccepted then debug_max <$> (mx_mobile q ≫= mm_device) else None) l h.

Definition max_fillLogItem (c : AdSelectCondition) (l : LogItem) (isAccepted : bool) (h : max360) : outcome (bool * LogItem * max360) :=
  '(b, l, hb) ← BidBase.fillLogItem (max_fillSpecificLog (mx_request h)) c l isAccepted (mx_base h);
  Val (b, l, mkMax hb (mx_request h) (mx_response h) (mx_feedbackUrl h)).

(** ** The answer *)

Definition max_reject (r : HttpResponse) (h : max360) : outcome (HttpResponse * max360) :=
  let q := mx_request h in
  let resp := mkMaxResponse (Some (mx_bid q)) [] in
  let h := mkMax (mx_base h) q resp (mx_feedbackUrl h) in
  Val (match max_write resp with Some t => (octets t r, h) | None => (r, h) end).

Definition max_match (r : HttpResponse) (h : max360) : outcome (HttpResponse * max360) :=
  match max_write (mx_response h) with
  | Some t => Val (octets t r, h)
  | None => max_reject r h
  end.

Definition max_handler : BiddingHandler := {|
  handler := max360; parseRequestData := max_parseRequestData; filter_conditions := max_filter_conditions;
  filter_verdict := max_filter_verdict; buildBidResult := max_buildBidResult; BidTask.fillLogItem := max_fillLogItem;
  match_bid := max_match; reject_bid := max_reject |}.
End max.


(** ** Properties *)

Section round.
Context `{Names : UrlNames} `{!UrlNamesLaws Names} `{!UrlLiterals Names} `{MapOrderLaws} `{Base64Laws}.
Context `{CryptoPP} `{Aes} `{UserIds} `{TaskConst} `{Snippets, CmConst, RecordStore, DeviceOrder}.
Context `{AdxConst, ShowConst, UaConst, BrowserConst, NetConst, MtCommon, Json, MaxProto}.
Context (e : handler_env) (sizes_ : AdSizeMap) (types : type_state).

(** What a native ad repeats of its round. *)
Record max_native_of (r : SelectResult) (n : MaxNativeAd) : Prop := {
  nf_price : na_price n = u32 (s32 (res_bidPrice r) * price_unit);
  nf_creative : na_creative_id n = to_string (bId (res_banner r));
  nf_advertiser : na_advertiser n = to_string (max_advertiser r);
}.

(** What the ad of a round holds, whatever its creative is. *)
Record max_ad_for (s : MaxSlot) (r : SelectResult) (ad : MaxAd) : Prop := {
  mf_slot : ma_slot ad = slot_id s;
  mf_price : ma_price ad = u32 (s32 (res_bidPrice r) * price_unit);
  mf_range : INT_MIN <= s32 (res_bidPrice r) * price_unit <= INT_MAX;
  mf_creative : ma_creative ad = to_string (bId (res_banner r));
  mf_advertiser : ma_advertiser ad = to_string (max_advertiser r);
  mf_native : Forall (max_native_of r) (native_ads ad);
  mf_shown : is_Some (ma_html ad) <-> native_ads ad = [];
}.

Lemma max_cpm_price_spec r p :
  max_cpm_price r = Val p -> p = s32 (res_bidPrice r) * price_unit /\ INT_MIN <= p <= INT_MAX.
Proof.
  unfold max_cpm_price. intros E. bind_in E u E1. injection E as <-. split; [done|].
  unfold check in E1. destruct (_ && _) eqn:Eb; [|done]. apply andb_prop in Eb as [?%Z.leb_le ?%Z.leb_le]. lia.
Qed.

(** Where the report of an impression is: the track of a native ad, or the notice url of a page. *)
Definition max_reported_by (c : AdSelectCondition) (r : SelectResult) (https : bool) (ad : MaxAd) (t : bytes) : Prop :=
  let url := getShowBaseUrl (urlConfig e) https ++ str "?" ++ t in
  if bannerType (res_banner r) =? BANNER_TYPE_PRIMITIVE then exists n, native_ads ad = [n] /\ impression_tracks n = [url] /\ nurl ad = None
  else nurl ad = Some (if cond_flowType (of_client c) =? SOLUTION_FLOWTYPE_PC then feedback_text e https t else url).

(** The report of an ad with a deal carries the deal as well, and is not the one below. *)
Definition no_native_deal (c : AdSelectCondition) (r : SelectResult) : Prop :=
  bannerType (res_banner r) = BANNER_TYPE_PRIMITIVE -> has_deal c r = false.

Lemma max_track_kept c r https k h h' deal track :
  max_track e c r https k h = Val (h', deal, track) ->
  same_urls h h'
  /\ (has_deal c r = false ->
        exists t, track = getShowBaseUrl (urlConfig e) https ++ str "?" ++ t /\ report_of AD_MAX_PRICE_MACRO k h' t).
Proof.
  unfold max_track. destruct (show_para k h empty_helper) as [h1 url] eqn:Es.
  apply (reporting_monitor AD_MAX_PRICE_MACRO) in Es as [Hs Hu]. intros E. bind_in E x E1. destruct x as [id u].
  bind_in E text E2. injection E as <- <- <-. split; [done|]. intros Hd. rewrite Hd in E1. injection E1 as <- <-.
  unfold ciphered_at in E2. bind_in E2 y E3. destruct y as [t w]. injection E2 as <-.
  exists t. split; [done|]. exists w. by rewrite <- Hu.
Qed.

Lemma max_build_ad_spec k q s c r price cm js fb h h' ad fb' :
  max_cpm_price r = Val price -> max_build_ad e sizes_ k q s c r price cm js fb h = Val (h', ad, fb') ->
  max_ad_for s r ad /\ same_urls h h'
  /\ (no_native_deal c r -> exists t, report_of AD_MAX_PRICE_MACRO k h' t /\ max_reported_by c r (max_https q c) ad t).
Proof.
  unfold max_build_ad, no_native_deal, max_reported_by. intros [-> Hp]%max_cpm_price_spec E. bind_in E mtls E1.
  destruct (Z.eqb_spec (bannerType (res_banner r)) BANNER_TYPE_PRIMITIVE) as [Eb|Eb].
  - bind_in E x E2. destruct x as [first rest]. bind_in E x E3. destruct x as [h1 ad1]. injection E as <- <- <-.
    unfold max_build_native in E3. bind_in E3 x E4. destruct x as [h2 link]. apply click_at_kept in E4.
    bind_in E3 x E5. destruct x as [[h3 deal] track]. apply max_track_kept in E5 as [Hs Ht]. injection E3 as <- <-.
    split; [|split; [by eapply same_urls_trans|]].
    + constructor; [done..| |]; cbn [max_ad native_ads ma_html]; [by repeat constructor|by split; [intros []|]].
    + intros Hd. destruct (Ht (Hd Eb)) as (t & -> & Hr). exists t. split; [done|]. by eexists.
  - bind_in E x E2. destruct x as [first rest]. unfold max_build_page in E. destruct (cond_flowType _ =? _).
    + bind_in E x E3. destruct x as [[h1 f] html]. injection E as <- <- <-.
      unfold juxiaoHtmlSnippet in E3. bind_in E3 s0 E4. apply cm_snippet_kept in E3 as (Hs & t & -> & Ht).
      split; [constructor; [done..| |]; cbn; [done|by split; [|eexists]]|]. split; [done|]. intros _. by exists t.
    + bind_in E x E3. destruct x as [h1 click]. apply click_at_kept in E3. bind_in E y E4. bind_in E x E5. destruct x as [h2 notice].
      injection E as <- <- <-. apply report_at_kept in E5 as (Hs & t & -> & Ht).
      split; [constructor; [done..| |]; cbn; [done|by split; [|eexists]]|]. split; [by eapply same_urls_trans|]. intros _. by exists t.
Qed.

(** A round that found an ad: one ad is added, and its urls are made of what the selection found. *)
Lemma max_build_spec c r i h h' :
  max_buildBidResult e sizes_ c r i h = Val h' ->
  let q := mx_request h in
  let old := match mr_bid (mx_response h) with Some _ => mx_response h | None => mkMaxResponse (Some (mx_bid q)) [] end in
  mx_request h' = q
  /\ exists s ad area imp, rd (adslots q) i = Val s /\ max_ad_for s r ad
       /\ mx_response h' = mkMaxResponse (mr_bid old) (max_ads old ++ [ad])
       /\ base_ad (mx_base h') = bid_ad_info c r (max_user q) area imp (base_ad (mx_base h))
       /\ (no_native_deal c r ->
              exists t, report_of AD_MAX_PRICE_MACRO (clock e i) (mx_base h') t /\ max_reported_by c r (max_https q c) ad t).
Proof.
  unfold max_buildBidResult. intros E. bind_in E s E1. bind_in E price Ep. bind_in E b E2.
  destruct (redo_mapping _ _ _ _ b) as [cm b1] eqn:E3. bind_in E js E4. bind_in E x E5. destruct x as [[b2 ad] fb]. injection E as <-.
  split; [done|]. destruct (max_build_ad_spec _ _ _ _ _ _ _ _ _ _ _ _ _ Ep E5) as (Hf & [Hs _] & Hr).
  unfold fillAdInfo in E2. bind_in E2 area Ea. bind_in E2 imp Ei. bind_in E2 dev Ed. injection E2 as <-.
  exists s, ad, area, imp. split; [done|]. split; [done|]. split; [done|]. split; [|done]. cbn [mx_base]. rewrite Hs.
  unfold redo_mapping in E3. destruct (redoCookieMapping _ _ _ _ _ _) as [[? ?] ?]. by injection E3 as _ <-.
Qed.

(** A condition whose place is that of the request. *)
Definition max_asked_for (q : MaxRequest) (c : AdSelectCondition) : Prop :=
  exists s b c0 b', max_condition e sizes_ types q s b = Val (c0, b') /\ at_place c = at_place c0.

Lemma max_mobile_asked q c : max_asked_for q c -> is_Some (mx_mobile q) -> cond_adxid (at_place c) = adx_id ADX_360_MAX_MOBILE.
Proof.
  intros (s & b & c0 & b' & E & ->) [m Em]. unfold max_condition in E. rewrite Em in E. bind_in E x E1. destruct x as [[p d] cm].
  destruct (query_user _ _ _ _ _) as [h' user]. injection E as <- <-. cbn [at_place]. unfold max_mobile_client in E1.
  destruct (default false (mm_is_app m)); by injection E1 as <- _ _.
Qed.
End round.

(** C13: On 360, a bid and its impression are logged with the same ad.  A round that found an ad adds one
    ad to the response, for the slot of the round, with the creative that was found; the url of its
    impression is the notice url of a page, or the track of a native ad that has no deal.  When the
    exchange has put its price in place of the macro of that url, the impression is logged with the
    ids and the area that the bid was logged with, and finds the price. *)
Theorem max_impression `{Names : UrlNames} `{!UrlNamesLaws Names} `{!UrlLiterals Names} `{MapOrderLaws} `{Base64Laws}
    `{CryptoPP} `{Aes} `{UserIds} `{TaskConst} `{Snippets, CmConst, RecordStore, DeviceOrder}
    `{AdxConst, ShowConst, UaConst, BrowserConst, NetConst, MtCommon, Json, MaxProto}
    (e : handler_env) sizes_ types c r i h h' price (l0 l : LogItem) x y z :
  let b := info_of (mx_base h') in let tm := secs (clock e i) in let url := getShowBaseUrl (urlConfig e) (max_https (mx_request h) c) in
  max_buildBidResult e sizes_ c r i h = Val h' -> max_asked_for e sizes_ types (mx_request h) c -> no_native_deal c r ->
  reportable b tm AD_MAX_PRICE_MACRO price (x, y, z) -> adInfo l = ad0 ->
  no_nul (url ++ str "?" ++ cipher_text (monitor_url b tm (str "3") AD_MAX_PRICE_MACRO)) ->
  (length (url ++ str "?" ++ cipher_text (monitor_url b tm (str "3") AD_MAX_PRICE_MACRO)) < 2048)%nat ->
  exists s ad pre post lb,
    rd (adslots (mx_request h)) i = Val s /\ max_ad_for s r ad /\ last (max_ads (mx_response h')) = Some ad
    /\ (if bannerType (res_banner r) =? BANNER_TYPE_PRIMITIVE then
          exists n, native_ads ad = [n] /\ impression_tracks n = [url ++ str "?" ++ pre ++ AD_MAX_PRICE_MACRO ++ post] /\ nurl ad = None
        else nurl ad = Some (url ++ str "?" ++ pre ++ AD_MAX_PRICE_MACRO ++ post))
    /\ max_fillLogItem c l0 true h' = Val (true, lb, h')
    /\ reports (pre ++ price ++ post) l (adInfo lb) (geoInfo lb) price.
Proof.
  intros b tm url Hb Hc Hd Hr Hl0 Hn Hlen.
  destruct (max_build_spec e sizes_ c r i h h' Hb) as (Hq & s & ad & area & imp & Hrd & Hf & Ha & Hba & Hrep).
  destruct (Hrep Hd) as (t & (u & Ht) & Hby).
  destruct (monitor_reports _ _ _ _ _ _ _ l t u Hr Hl0 Ht) as (pre & post & Et & Ec & m & ls & Hm & Hls & Hsame & Hgeo & Hp).
  change (bid_ad b) with (base_ad (mx_base h')) in Hsame. rewrite Hba in Hsame.
  destruct (exchange_log_won (adx_id ADX_360_MAX_MOBILE) (fun _ => mx_ip (mx_request h')) (default [] (mx_url (mx_request h'))) (mx_user_agent (mx_request h'))
    (debug_max <$> (mx_mobile (mx_request h') ≫= mm_device)) c l0 (mx_base h') x y z) as (lb & Elb & Hlb & Hgb); [apply Hr|by rewrite Hba| |].
  { rewrite Hq. intros Hs. apply (max_mobile_asked e sizes_ types (mx_request h) c Hc). by destruct (mx_mobile (mx_request h)); [|destruct Hs]. }
  exists s, ad, pre, post, lb. split; [done|]. split; [done|]. split; [by rewrite Ha; cbn [max_ads]; rewrite last_snoc|].
  rewrite <- Et. split; [|split; [unfold max_fillLogItem, max_fillSpecificLog; rewrite Elb; cbn [mbind outcome_bind]; by destruct h'|]].
  - unfold max_reported_by in Hby. destruct (bannerType _ =? _); [exact Hby|]. rewrite Hby. f_equal.
    destruct (cond_flowType _ =? _); [|done]. rewrite Ec. by apply feedback_text_fits.
  - exists m, ls. split; [done|]. split; [done|]. split; [rewrite Hlb, Hba; by apply won_same|]. split; [congruence|done].
Qed.

(** *** The answer to a request *)

Section answer.
Context `{Names : UrlNames} `{!UrlNamesLaws Names} `{!UrlLiterals Names} `{MapOrderLaws} `{Base64Laws}.
Context `{CryptoPP} `{Aes} `{UserIds} `{TaskConst} `{Snippets, CmConst, RecordStore, DeviceOrder}.
Context `{AdxConst, ShowConst, UaConst, BrowserConst, NetConst, MtCommon, Json, MaxProto}.
Context (e : handler_env) (sizes_ : AdSizeMap) (types : type_state) (Hwr : forall r, is_Some (max_write r)).

(** The response after the ads [as_] were added. *)
Definition max_response (q : MaxRequest) (as_ : list MaxAd) : MaxResponse := mkMaxResponse (Some (mx_bid q)) as_.
Definition max_holds (h : max360) (as_ : list MaxAd) : Prop :=
  mx_response h = match as_ with [] => max_response0 | _ => max_response (mx_request h) as_ end.

Definition max_ad_of_round (slots : list MaxSlot) (w : Z * round) (ad : MaxAd) : Prop :=
  exists s, rd slots (fst w) = Val s /\ max_ad_for s (rd_result (snd w)) ad.

Definition max_written (q : MaxRequest) (as_ : list MaxAd) (resp resp' : HttpResponse) : Prop :=
  exists t, max_write (max_response q as_) = Some t /\ resp' = octets t resp.

#[refine] Instance max_answers : HandlerAnswers (max_handler e sizes_ types) := {|
  request (h : @handler (max_handler e sizes_ types)) := mx_request h; holds_ads := max_holds;
  round_ad q := max_ad_of_round (adslots q); written := max_written |}.
Proof.
  - intros c r i h h' as_ Eb Hw.
    destruct (max_build_spec e sizes_ c r i h h' Eb) as (Q1 & s & ad & _ & _ & Hrd & Hf & Ha & _).
    split; [done|]. exists ad. split; [|by exists s]. unfold max_holds in *. rewrite Q1, Ha, Hw. by destruct as_.
  - intros c l ok h b l' h' as_ E Hw. cbn in E. unfold max_fillLogItem in E. bind_in E x E1. destruct x as [[b1 l1] hb].
    by injection E as <- <- <-.
  - done.
  - intros r h r' h' as_ E Hw Hne. cbn in E. unfold max_match in E. unfold max_holds in Hw. rewrite Hw in E.
    destruct as_ as [|a as_]; [done|]. destruct (Hwr (max_response (mx_request h) (a :: as_))) as [t Et].
    rewrite Et in E. injection E as <- <-. by exists t.
  - intros r h r' h' E Hw. cbn in E. unfold max_reject in E.
    destruct (Hwr (max_response (mx_request h) [])) as [t Et]. unfold max_response in Et. rewrite Et in E.
    injection E as <- <-. by exists t.
Defined.
End answer.

(** C14: The answer to a request of 360.  A request without a slot is answered with its id and no ad.  Any
    other request is asked for once, with the condition of its first slot; the answer holds the id of
    the request, and the ad that was found, which names the slot, the creative and its advertiser and
    pays the price that was bid, or no ad when none was found. *)
Theorem max_answer `{Names : UrlNames} `{!UrlNamesLaws Names} `{!UrlLiterals Names} `{MapOrderLaws} `{Base64Laws}
    `{CryptoPP} `{Aes} `{UserIds} `{TaskConst} `{Snippets, CmConst, RecordStore, DeviceOrder}
    `{AdxConst, ShowConst, UaConst, BrowserConst, NetConst, MtCommon, Json, OpenSSL, MaxProto} `{BoostBase64, PriceMemory, Avro, LogConst}
    (e : handler_env) sizes_ types be data (h h0 : max360) h' st st' (ok : bool) :
  let mx := max_handler e sizes_ types in let q := mx_request h0 in
  isPost (bid_task be) = true -> max_parseRequestData data h = Val (ok, h0) ->
  (forall c, address_known be c) ->
  (forall r, is_Some (max_write r)) ->
  bid_customLogic be (Some h0) st = RVal h' st' ->
  exists rs as_ t, Forall2 (max_ad_of_round (adslots q)) (winners 0 rs) as_
    /\ (adslots q = [] -> rs = [])
    /\ (forall s, head (adslots q) = Some s ->
          exists c b r, max_condition e sizes_ types q s (mx_base h0) = Val (c, b) /\ rs = [r] /\ is_round be [] c r)
    /\ max_write (max_response q as_) = Some t
    /\ resp st' = octets t (resp st) /\ needLog st' = false.
Proof.
  intros mx q Hpost Hp Hadr Hwr E.
  assert (max_holds h0 []) as Hw by (unfold max_parseRequestData in Hp; destruct (max_parse data); by injection Hp as _ <-).
  assert (exists h1 o, max_filter_conditions e sizes_ types h0 = Val (h1, o) /\ mx_request h1 = q /\ mx_response h1 = mx_response h0
    /\ (adslots q = [] -> o = None)
    /\ (forall s, head (adslots q) = Some s ->
          exists c b, max_condition e sizes_ types q s (mx_base h0) = Val (c, b) /\ o = Some [c])) as (h1 & o & Ef & Hq & Hr & Hno & Ho).
  { destruct (answered_filtered (BH := mx) be h0 h' st st' Hpost E) as (h1 & o & Ef). exists h1, o. split; [done|].
    cbn in Ef. unfold max_filter_conditions in Ef. fold q in Ef.
    destruct (adslots q) as [|s ss] eqn:Ea; [by injection Ef as <- <-|]. bind_in Ef x Ec. destruct x as [c b]. injection Ef as <- <-.
    split; [done|]. split; [done|]. split; [done|]. intros s' [= <-]. by exists c, b. }
  assert (max_holds h1 []) as Hw1 by (unfold max_holds in *; by rewrite Hr).
  destruct (auction_answer (BH := mx) (HA := max_answers e sizes_ types Hwr) be h0 h1 o h' st st' Hpost Ef Hw1 Hadr E)
    as (rs & as_ & Hrs & Hf & (t & Ht & Hresp) & Hlog).
  cbn [request round_ad max_answers] in Hf, Ht. rewrite Hq in Hf, Ht. exists rs, as_, t. split; [done|].
  split; [intros Hn; apply Hno in Hn; by subst o|]. split; [|done]. intros s Hs. destruct (Ho s Hs) as (c & b & Ec & ->).
  destruct rs as [|r [|r2 rs]]; cbn [rounds] in Hrs; [done| |by destruct Hrs as [_ []]]. exists c, b, r. by destruct Hrs as [Hr1 _].
Qed.

(** *** Prices *)

(** C15: The price of a bid on 360.  A bid of [p] cents, at or above the floor that the condition was asked
    for with, is sent as [10000 p] millionths without wrapping, up to the last price that an [int]
    can hold; above it the price is not defined.  The floor of the slot is rounded down to cents, so
    that the price that is sent is above the floor less one cent, and at or above it when the floor
    is a number of cents. *)
Theorem max_price `{UrlNames, MapOrder, Base64, CryptoPP, UserIds, CmConst, RecordStore, DeviceOrder}
    `{AdxConst, ShowConst, UaConst, BrowserConst, NetConst, MtCommon, Json}
    (e : handler_env) sizes_ types q s b c b' (r : SelectResult) :
  max_condition e sizes_ types q s b = Val (c, b') ->
  0 <= default 0 (slot_min_cpm s) < 2 ^ 32 -> cond_basePrice (at_place c) <= res_bidPrice r <= INT_MAX ->
  let floor := default 0 (slot_min_cpm s) in
  (res_bidPrice r <= 214748 ->
     exists p, max_cpm_price r = Val p /\ u32 p = 10000 * res_bidPrice r /\ floor - 10000 < u32 p /\ (floor mod 10000 = 0 -> floor <= u32 p))
  /\ (214748 < res_bidPrice r -> max_cpm_price r = Undef).
Proof.
  intros E Hm Hb floor.
  assert (cond_basePrice (at_place c) = floor / 10000) as Ef.
  { unfold max_condition in E. bind_in E x E1. destruct x as [[p d] cm]. destruct (query_user _ _ _ _ _) as [h1 user]. injection E as <- <-. cbn [at_place].
    assert (cond_basePrice p = cond_basePrice (max_place sizes_ types q s)) as ->.
    { destruct (mx_mobile q) as [m|]; [|unfold max_browser_client in E1; bind_in E1 br E2; by injection E1 as <- _ _].
      unfold max_mobile_client in E1. destruct (default false (mm_is_app m)); by injection E1 as <- _ _. }
    unfold max_place. destruct (max_sizes sizes_ s) as [ty szs], (default (0, 0) (last szs)) as [w h2]. done. }
  assert (s32 (res_bidPrice r) = res_bidPrice r) as Es by (apply swrap_small; [lia|]; unfold INT_MAX in Hb; pose proof (Z.div_pos floor 10000); lia).
  pose proof (Z.div_mod floor 10000 ltac:(lia)) as Hdm. pose proof (Z.mod_pos_bound floor 10000 ltac:(lia)) as Hmb.
  pose proof (Z.div_pos floor 10000 ltac:(lia) ltac:(lia)) as Hdp.
  unfold max_cpm_price, price_unit. rewrite Es. unfold INT_MIN, INT_MAX. split; intros Hp.
  - exists (res_bidPrice r * 10000). rewrite (uwrap_small 32 (res_bidPrice r * 10000)) by lia.
    split; [|lia]. rewrite (proj2 (Z.leb_le _ _)), (proj2 (Z.leb_le _ _)) by lia. done.
  - rewrite (proj2 (Z.leb_gt (res_bidPrice r * 10000) _)) by lia. by rewrite andb_false_r.
Qed.

(** *** Limits *)

(** A native ad with a deal is not built when the deal of the solution is not a number. *)
Lemma deal_not_a_number `{UrlNames, MapOrder, Base64, CryptoPP, UserIds, CmConst, RecordStore, DeviceOrder} e c r https k h x :
  has_deal c r = true -> stoi (sol_dDealId (res_solution r)) = Exc x -> max_track e c r https k h = Exc x.
Proof. intros Hd Hs. unfold max_track. destruct (show_para k h empty_helper) as [h1 url]. by rewrite Hd, Hs. Qed.

(** The category of an app is read under the categories of Tanx. *)
Lemma app_category_of_tanx `{UrlNames, CryptoPP, CmConst, RecordStore, DeviceOrder, AdxConst, ShowConst, UaConst, NetConst} types q m p c a :
  mm_is_app m = Some true -> head (mm_app_category m) = Some a ->
  mttyContentType (max_mobile_client types q m p c).1.1 = getContentType types (adx_id ADX_TANX) (to_string a).
Proof. intros Hi Ha. unfold max_mobile_client. rewrite Hi. destruct (mm_app_category m); [done|]. by injection Ha as ->. Qed.

(** ** Instances *)

Module MaxInstance.
#[local] Existing Instance toy_openssl.
Import HandlerInstance.

(** A page of a browser, with a slot whose floor is half a cent above ninety-nine cents. *)
Definition a_slot : MaxSlot := mkMaxSlot 41 (str "p41") 300 250 (Some 995000) None [].
Definition a_request : MaxRequest :=
  mkMaxRequest (str "b9") (Some (str "u77")) (str "1.2.3.4") (str "Mozilla/5.0 (X11; Linux)") None false [] [a_slot] None.

#[local] Instance max_messages : MaxProto := {
  max_parse _ := (true, a_request);
  max_write r := Some (flat_map (fun a => to_string (ma_slot a) ++ str "=" ++ to_string (ma_price a) ++ str ";") (max_ads r));
  debug_max _ := [];
}.

Definition max_types : type_state := type_state0.
Definition max_parsed : max360 := mkMax base0 a_request max_response0 [].
#[local] Instance mx : BiddingHandler := max_handler the_env AdSizeMap_new max_types.
Definition max_parsed_handler : handler := max_parsed.

Example max_page_answer :
  match bid_customLogic the_bids (Some max_parsed_handler) the_state with RVal _ s => body (resp s) | _ => [] end = str "41=1000000;".
Proof. by vm_compute. Qed.

Definition max_finished : task_state :=
  match bid_customLogic the_bids (Some max_parsed_handler) the_state with RVal _ s => s | _ => the_state end.
Definition max_done : option handler := match bid_customLogic the_bids (Some max_parsed_handler) the_state with RVal h _ => h | _ => None end.

Lemma max_answer_witness :
  exists rs as_ t, Forall2 (max_ad_of_round [a_slot]) (winners 0 rs) as_
    /\ max_write (max_response a_request as_) = Some t
    /\ resp max_finished = octets t (resp the_state) /\ needLog max_finished = false.
Proof.
  destruct (max_answer the_env AdSizeMap_new max_types the_bids [] max_parsed max_parsed max_done the_state max_finished true)
    as (rs & as_ & t & A1 & _ & _ & A2 & A3 & A4).
  - reflexivity.
  - reflexivity.
  - intros c. split; by eexists.
  - intros r. by eexists.
  - by vm_compute.
  - exists rs, as_, t. split; [exact A1|]. split; [exact A2|]. split; [exact A3|exact A4].
Defined.

Definition max_asked : AdSelectCondition :=
  match max_condition the_env AdSizeMap_new max_types a_request a_slot base0 with Val (c, _) => c | _ => condition0 end.
Definition max_after : max360 :=
  match max_buildBidResult the_env AdSizeMap_new max_asked (snd (found max_asked)) 0 max_parsed with Val h => h | _ => max_parsed end.
Abbreviation max_first_bid := (info_of (mx_base max_after)).
Definition max_win_price : bytes := str "AbCdEfGh".

Lemma max_bid_cipherable : cipherable (monitor_url max_first_bid 1476779974 (str "3") max_win_price).
Proof.
  constructor.
  - by_decide.
  - repeat constructor; vm_compute; congruence.
  - by_decide.
  - vm_compute. discriminate.
  - vm_compute. lia.
  - intros []; discriminate.
Qed.

Lemma max_bid_reportable : reportable max_first_bid 1476779974 AD_MAX_PRICE_MACRO max_win_price (86, 110000, 110100).
Proof.
  constructor.
  - exact max_bid_cipherable.
  - by apply Nat.ltb_lt.
  - by vm_compute.
  - by_decide.
  - discriminate.
  - constructor; [by_decide|by_decide|split; vm_compute; discriminate].
  - by_decide.
  - vm_compute. lia.
  - by vm_compute.
Qed.

Lemma max_impression_witness :
  exists s ad pre post lb,
    rd [a_slot] 0 = Val s /\ max_ad_for s (snd (found max_asked)) ad /\ last (max_ads (mx_response max_after)) = Some ad
    /\ nurl ad = Some (str "http://s.cn/s" ++ str "?" ++ pre ++ AD_MAX_PRICE_MACRO ++ post)
    /\ max_fillLogItem max_asked log0 true max_after = Val (true, lb, max_after)
    /\ reports (pre ++ max_win_price ++ post) show_log (adInfo lb) (geoInfo lb) max_win_price.
Proof.
  destruct (max_impression the_env AdSizeMap_new max_types max_asked (snd (found max_asked)) 0 max_parsed max_after max_win_price log0 show_log
           86 110000 110100) as (s & ad & pre & post & lb & A1 & A2 & A3 & A4 & A5 & A6).
  - by vm_compute.
  - exists a_slot, base0, max_asked. eexists. split; [by vm_compute|reflexivity].
  - intros _. by vm_compute.
  - exact max_bid_reportable.
  - reflexivity.
  - by_decide.
  - by apply Nat.ltb_lt.
  - exists s, ad, pre, post, lb. split; [exact A1|]. split; [exact A2|]. split; [exact A3|]. split; [exact A4|]. split; [exact A5|exact A6].
Defined.

Definition at_cents (p : Z) : SelectResult :=
  let r := snd (found max_asked) in
  mkResult (res_solution r) (res_banner r) (res_place r) (res_ppid r) (res_orderId r) p (res_feePrice r) (spend r) (final_rate r) (cost_detail r).

Lemma max_price_witness : exists p, max_cpm_price (at_cents 99) = Val p /\ u32 p = 990000 /\ 995000 - 10000 < u32 p.
Proof.
  destruct (max_price the_env AdSizeMap_new max_types a_request a_slot base0 max_asked
              match max_condition the_env AdSizeMap_new max_types a_request a_slot base0 with Val (_, b) => b | _ => base0 end (at_cents 99)) as [A _].
  - by vm_compute.
  - cbn. lia.
  - vm_compute. split; discriminate.
  - destruct A as (p & A1 & A2 & A3 & _); [cbn; lia|]. exists p. split; [exact A1|]. split; [exact A2|exact A3].
Defined.

(** A bid at the floor of the condition is below the floor of its slot. *)
Example below_the_floor :
  cond_basePrice (at_place max_asked) = 99 /\ max_cpm_price (at_cents 99) = Val 990000 /\ slot_min_cpm a_slot = Some 995000.
Proof. by vm_compute. Qed.
End MaxInstance.
