(* ===== verification/SohuBid.v ===== *)
(** * SohuBid: the handler of Sohu (protocol/sohu/sohu_bidding_handler.cpp, protocol/sohu/sohu_bidding_handler.h)

    A request is for one place, the first of its list, of an app, a mobile page or a browser.  Sohu
    keeps the urls of a creative itself; a bid holds the material and the parameters that Sohu puts
    into the url of an impression and of a click.

    The generated classes of the messages are the parameter [SohuProto]; the records below are the
    fields that the handler reads and writes.  The user of a message is his [suid], which is empty
    when there is no user. *)
From Stdlib Require Import SpecFloat.
From S2P Require Import SizeMap.
From S2P Require Import Prelude CString UrlCodec UrlParams Cypher UrlHelper Rijndael RijndaelProofs SohuPrice.
From S2P Require Import LogPusher Double PriceDecode Pricing Http QueryTask ClickTask CookieMapping TraceTask BidUrl UserClient AdSelect ShowTask.
From S2P Require Import BidBase BidReport BidTask BidAnswer.

(** ** Messages *)

Record SohuImpression := mkSohuImpression {
  si_pid : bytes; si_bidfloor : option Z; si_banner : option (Z * Z); si_video : option (Z * Z);
  isPreferredDeals : option bool; campaignId : bytes;
}.
Record SohuDevice := mkSohuDevice {
  sd_type : bytes; sd_ip : option bytes; sd_ua : bytes; sd_carrier : bytes; netType : bytes; mobileType : bytes;
  sd_imei : option bytes; sd_mac : option bytes; sd_idfa : option bytes; sd_androidID : option bytes;
}.
Record SohuRequest := mkSohuRequest {
  sq_version : Z; bidid : bytes; isTest : Z; site_page : option bytes; sq_device : option SohuDevice; suid : bytes;
  sq_impressions : list SohuImpression;
}.

Record SohuBidMsg := mkSohuBidMsg { sb_price : Z; adurl : bytes; clickPara : bytes; displayPara : bytes }.
Record SohuSeat := mkSohuSeat { seat_idx : Z; seat_bid : SohuBidMsg }.
Record SohuResponse := mkSohuResponse { sr_version : option Z; sr_bidid : option bytes; seatbid : list SohuSeat }.
Definition sohu_response0 : SohuResponse := mkSohuResponse None None [].

Class SohuProto := {
  sohu_parse : bytes -> bool * SohuRequest;          (* ParseFromString of a cleared message *)
  sohu_write : SohuResponse -> option bytes;         (* SerializeToString *)
  debug_sohu : SohuDevice -> bytes;                  (* DebugString *)
}.

Record sohu := mkSohu { so_base : base; so_request : SohuRequest; so_response : SohuResponse }.
Definition sohu_on_base (f : base -> base) (h : sohu) : sohu := mkSohu (f (so_base h)) (so_request h) (so_response h).

Definition SOHU_PRICE_MACRO : bytes := str "%%WINPRICE%%".
Definition SOHU_COOKIEMAPPING_URL : bytes := str "http://t.go.sohu.com/cm.gif?ver=1&mid=10123".

(** ** The client *)

Definition getSohuDeviceType (m : bytes) : device_name :=
  if same_letters m "iPhone" then SOLUTION_DEVICE_IPHONE
  else if same_letters m "AndroidPhone" then SOLUTION_DEVICE_ANDROID
  else if same_letters m "iPad" then SOLUTION_DEVICE_IPAD
  else if same_letters m "AndroidPad" then SOLUTION_DEVICE_ANDROIDPAD
  else SOLUTION_DEVICE_OTHER.

Definition getSohuNeworkType (n : bytes) : network_name :=
  if same_letters n "WIFI" then SOLUTION_NETWORK_WIFI
  else if same_letters n "4G" then SOLUTION_NETWORK_4G
  else if same_letters n "3G" then SOLUTION_NETWORK_3G
  else if same_letters n "2G" then SOLUTION_NETWORK_2G
  else SOLUTION_NETWORK_OTHER.

Definition sohu_getNetworkCarrier (c : bytes) : provider_name :=
  if same_letters c "China Mobile" then SOLUTION_NETWORK_PROVIDER_CHINAMOBILE
  else if same_letters c "China Telecom" then SOLUTION_NETWORK_PROVIDER_CHINATELECOM
  else if same_letters c "UNICOM" then SOLUTION_NETWORK_PROVIDER_CHINAUNICOM
  else SOLUTION_NETWORK_PROVIDER_ALL.

Section sohu.
Context `{UrlNames, MapOrder, Base64, CryptoPP, UserIds, CmConst, RecordStore, DeviceOrder}.
Context `{AdxConst, ShowConst, UaConst, NetConst, Json, SohuProto}.
Context (e : handler_env) (sizes_ : AdSizeMap).

(** ** The request *)

Definition sohu_parseRequestData (data : bytes) (h : sohu) : outcome (bool * sohu) :=
  let '(ok, r) := sohu_parse data in Val (ok, mkSohu (so_base h) r sohu_response0).

(** The exchange, the client and the key of its user. *)
Definition sohu_device_client (d : SohuDevice) (user : bytes) (c : BidCookieMappingInfo) : adx_name * cond_client * BidCookieMappingInfo :=
  let ua := getMobileTypeFromUA (sd_ua d) in
  let client ids dev flow net provider :=
    mkClient ids dev flow (getOSTypeFromUA (sd_ua d)) net provider [] [] (S754_zero false, S754_zero false)
      (Some (getDeviceBrandFromUA (sd_ua d))) [] in
  let own := device_id (getSohuDeviceType (mobileType d)) in
  let net := network_id (getSohuNeworkType (netType d)) in
  let mobile := adx_id ADX_SOHU_MOBILE in
  if same_letters (sd_type d) "Mobile" then
    let text := from_option upper [] in
    let ids := mkIds (text (sd_idfa d)) (text (sd_imei d)) (text (sd_androidID d)) (text (sd_mac d)) in
    (ADX_SOHU_MOBILE, client ids own SOLUTION_FLOWTYPE_MOBILE net (provider_id (sohu_getNetworkCarrier (sd_carrier d))),
     cookieMappingKeyMobile (md5_ids ids) ids mobile user c)
  else if same_letters (sd_type d) "Wap" then
    (ADX_SOHU_MOBILE, client (mkIds [] [] [] []) (if ua =? device_id SOLUTION_DEVICE_OTHER then own else ua) SOLUTION_FLOWTYPE_MOBILE net 0,
     cookieMappingKeyPC mobile user c)
  else
    (ADX_SOHU_PC, client (mkIds [] [] [] (default [] (sd_mac d))) ua SOLUTION_FLOWTYPE_PC 0 0,
     cookieMappingKeyPC (adx_id ADX_SOHU_PC) user c).

Definition sohu_client (q : SohuRequest) (c : BidCookieMappingInfo) : adx_name * cond_client * BidCookieMappingInfo :=
  match sq_device q with
  | Some d => sohu_device_client d (suid q) c
  | None => (ADX_SOHU_PC, client0, cookieMappingKeyPC (adx_id ADX_SOHU_PC) (suid q) c)
  end.

(** The size and the type of a place of the flow. *)
Definition sohu_format (i : SohuImpression) (flow : Z) : Z * Z * Z :=
  match si_banner i, si_video i with
  | Some (w, h), _ => (s32 w, s32 h, if flow =? SOLUTION_FLOWTYPE_PC then BANNER_TYPE_PIC else BANNER_TYPE_MOBILE)
  | None, Some (w, h) => (s32 w, s32 h, BANNER_TYPE_VIDEO)
  | None, None => (0, 0, 0)
  end.

Definition sohu_place (i : SohuImpression) (adx : adx_name) (flow : Z) : cond_place :=
  let '(w, h, type) := sohu_format i flow in
  let szs := if flow =? SOLUTION_FLOWTYPE_MOBILE then SizeMap.get sizes_ (w, h) MATERIAL_TYPE_PIC else [] in
  let '(w, h) := default (w, h) (last szs) in
  mkCondPlace (si_pid i) 0 (adx_id adx) (s32 (default 0 (si_bidfloor i))) w h type 0 0
    (if default false (isPreferredDeals i) then str "," ++ campaignId i ++ str "," else []) [] (Some szs) 99.

Definition sohu_condition (q : SohuRequest) (i : SohuImpression) (h : base) : AdSelectCondition * base :=
  let '(adx, d, c) := sohu_client q (cmInfo h) in
  let '(h, user) := query_user (disabledCookieMapping e) (mapping_store e) (mapping_answer e) [] (set_cm c h) in
  (mkCondition (sohu_place i adx (cond_flowType d)) d (default [] (sq_device q ≫= sd_ip)) user 0 [] None [] false, h).

Definition sohu_filter_conditions (h : sohu) : outcome (sohu * option (list AdSelectCondition)) :=
  let q := so_request h in
  if negb (isTest q =? 0) then Val (sohu_on_base bidFailedReturn h, None)
  else match sq_impressions q with
       | [] => Val (sohu_on_base bidFailedReturn h, None)
       | i :: _ => let '(c, b) := sohu_condition q i (so_base h) in Val (mkSohu b q (so_response h), Some [c])
       end.

Definition sohu_filter_verdict (ok : bool) (cs : list AdSelectCondition) (h : sohu) : sohu :=
  sohu_on_base (if ok then set_accepted true else bidFailedReturn) h.

(** ** The response *)

(** The parameters of an impression: the macro is a parameter like the others. *)
Definition sohu_display (c : AdSelectCondition) (i : SohuImpression) (url : URLHelper) : URLHelper :=
  let url := UrlHelper.add (url_name URL_EXCHANGE_PRICE) SOHU_PRICE_MACRO (UrlHelper.add (url_name URL_IMP_OF) (str "3") url) in
  if bool_decide (cond_dealId (at_place c) = []) then url else UrlHelper.add (url_name URL_DEAL_ID) (campaignId i) url.
Definition sohu_click (c : AdSelectCondition) (i : SohuImpression) (url : URLHelper) : URLHelper :=
  if bool_decide (cond_dealId (at_place c) = []) then url else UrlHelper.add (url_name URL_DEAL_ID) (campaignId i) url.

(** The material and the landing page of a creative. *)
Definition sohu_material (r : SelectResult) (first : json) : bytes * bytes :=
  if bannerType (res_banner r) =? BANNER_TYPE_PRIMITIVE then (get_text (str "p6") first, get_text (str "p9") first)
  else (get_text (str "p0") first, get_text (str "p1") first).

Definition sohu_build_bid (k : round_clock) (i : SohuImpression) (c : AdSelectCondition) (r : SelectResult) (first : json) (h : base)
    : outcome (base * SohuBidMsg) :=
  let '(material, landing) := sohu_material r first in
  let '(h, show) := show_para k h empty_helper in
  '(h, click) ← click_para h [] landing empty_helper;
  '(display, _) ← cipherParam (sohu_display c i show);
  '(click, _) ← cipherParam (sohu_click c i click);
  Val (h, mkSohuBidMsg (u32 (s32 (res_bidPrice r))) material click display).

Definition sohu_buildBidResult (c : AdSelectCondition) (r : SelectResult) (seq : Z) (h : sohu) : outcome sohu :=
  let q := so_request h in
  let resp := match sr_bidid (so_response h) with
              | Some _ => so_response h
              | None => mkSohuResponse (Some (sq_version q)) (Some (bidid q)) []
              end in
  i ← rd (sq_impressions q) seq;
  b ← fillAdInfo (area_code e) (uniqueIdSeq e) (clock e seq) c r (suid q) (so_base h);
  js ← bannerJson2HttpsIOS (is_ios c) (banner_json (res_banner r)) (bannerType (res_banner r) =? BANNER_TYPE_PRIMITIVE);
  mtls ← as_array (get_member (str "mtls") js);
  '(first, _) ← head_of mtls;
  '(b, bid) ← sohu_build_bid (clock e seq) i c r first b;
  let '(_, b) := redo_mapping (uniqueIdSeq e) (clock e seq) (cond_adxid (at_place c)) SOHU_COOKIEMAPPING_URL b in
  Val (mkSohu b q (mkSohuResponse (sr_version resp) (sr_bidid resp) (seatbid resp ++ [mkSohuSeat (u32 seq) bid]))).

(** ** The log *)

Definition sohu_fillSpecificLog (q : SohuRequest) (c : AdSelectCondition) (l : LogItem) (isAccepted : bool) (h : base)
    : outcome (bool * LogItem * base) :=
  exchange_log (adx_id ADX_SOHU_MOBILE) (cond_ip c) (default [] (site_page q)) (from_option sd_ua [] (sq_device q))
    (if isAccepted then d ← sq_device q; if bool_decide (sd_type d = str "PC") then None else Some (debug_sohu d) else None) l h.

Definition sohu_fillLogItem (c : AdSelectCondition) (l : LogItem) (isAccepted : bool) (h : sohu) : outcome (bool * LogItem * sohu) :=
  '(b, l, hb) ← BidBase.fillLogItem (sohu_fillSpecificLog (so_request h)) c l isAccepted (so_base h);
  Val (b, l, mkSohu hb (so_request h) (so_response h)).

(** ** The answer *)

Definition sohu_reject (r : HttpResponse) (h : sohu) : outcome (HttpResponse * sohu) :=
  let q := so_request h in
  let resp := mkSohuResponse (Some (sq_version q)) (Some (bidid q)) [] in
  let h := mkSohu (so_base h) q resp in
  Val (match sohu_write resp with Some t => (x_protobuf t r, h) | None => (r, h) end).

Definition sohu_match (r : HttpResponse) (h : sohu) : outcome (HttpResponse * sohu) :=
  match sohu_write (so_response h) with
  | Some t => Val (x_protobuf t r, h)
  | None => sohu_reject r h
  end.

Definition sohu_handler : BiddingHandler := {|
  handler := sohu; parseRequestData := sohu_parseRequestData; filter_conditions := sohu_filter_conditions;
  filter_verdict := sohu_filter_verdict; buildBidResult := sohu_buildBidResult; BidTask.fillLogItem := sohu_fillLogItem;
  match_bid := sohu_match; reject_bid := sohu_reject |}.
End sohu.

(** ** Properties *)

Section round.
Context `{Names : UrlNames} `{!UrlNamesLaws Names} `{!UrlLiterals Names} `{MapOrderLaws} `{Base64Laws}.
Context `{CryptoPP} `{Aes} `{UserIds} `{TaskConst} `{CmConst, RecordStore, DeviceOrder}.
Context `{AdxConst, ShowConst, UaConst, NetConst, Json, SohuProto}.
Context (e : handler_env) (sizes_ : AdSizeMap).

(** What the bid of a round holds. *)
Record sohu_bid_for (n : Z) (r : SelectResult) (seat : SohuSeat) : Prop := {
  sf_idx : seat_idx seat = u32 n;
  sf_price : sb_price (seat_bid seat) = u32 (res_bidPrice r);
}.

(** The parameters that are added to those of a show url. *)
Definition sohu_fields (c : AdSelectCondition) (i : SohuImpression) : list (url_key * bytes) :=
  [(URL_IMP_OF, str "3"); (URL_EXCHANGE_PRICE, SOHU_PRICE_MACRO)]
  ++ (if bool_decide (cond_dealId (at_place c) = []) then [] else [(URL_DEAL_ID, campaignId i)]).

Lemma sohu_display_overlaid c i b tm : sohu_display c i (show_url b tm) = overlaid_url b tm (sohu_fields c i).
Proof. unfold sohu_display, overlaid_url, sohu_fields, add_params. by destruct (bool_decide _). Qed.

Lemma sohu_fields_ok c i : NoDup (sohu_fields c i).*1 /\ (sohu_fields c i).*1 ⊆ overlay.
Proof. unfold sohu_fields. destruct (bool_decide _); split; by_decide. Qed.

Lemma sohu_found_price c i price : found_price (sohu_fields c i) price = SOHU_PRICE_MACRO.
Proof. unfold found_price, sohu_fields. by destruct (bool_decide _). Qed.

Lemma sohu_build_bid_spec k n i c r first h h' bid :
  sohu_build_bid k i c r first h = Val (h', bid) ->
  sohu_bid_for n r (mkSohuSeat (u32 n) bid) /\ same_urls h h' /\ base_ad (at_show k h) = base_ad h
  /\ exists u, cipherParam (overlaid_url (info_of (at_show k h)) (secs k) (sohu_fields c i)) = Val (displayPara bid, u).
Proof.
  unfold sohu_build_bid, at_show. destruct (sohu_material r first) as [material landing].
  destruct (show_para k h empty_helper) as [h1 show] eqn:Es. apply show_para_kept in Es as [Hs ->]. intros E.
  bind_in E x E1. destruct x as [h2 click]. bind_in E x E2. destruct x as [display u]. bind_in E x E3. destruct x as [cl u2].
  injection E as <- <-. split; [constructor; [done|by apply uwrap_swrap]|].
  split; [eapply same_urls_trans; [exact Hs|by eapply click_para_kept]|]. split; [apply Hs|].
  exists u. by rewrite <- sohu_display_overlaid.
Qed.

(** A round that found an ad: one seat is added, and its parameters are made of what the selection found. *)
Lemma sohu_build_spec c r n h h' :
  sohu_buildBidResult e c r n h = Val h' ->
  let q := so_request h in
  let old := match sr_bidid (so_response h) with
             | Some _ => so_response h | None => mkSohuResponse (Some (sq_version q)) (Some (bidid q)) []
             end in
  so_request h' = q
  /\ exists i seat b0 area imp u, rd (sq_impressions q) n = Val i /\ sohu_bid_for n r seat
       /\ fillAdInfo (area_code e) (uniqueIdSeq e) (clock e n) c r (suid q) (so_base h) = Val b0
       /\ so_response h' = mkSohuResponse (sr_version old) (sr_bidid old) (seatbid old ++ [seat])
       /\ base_ad b0 = bid_ad_info c r (suid q) area imp (base_ad (so_base h))
       /\ base_ad (at_show (clock e n) b0) = base_ad b0 /\ base_ad (so_base h') = base_ad b0
       /\ cipherParam (overlaid_url (info_of (at_show (clock e n) b0)) (secs (clock e n)) (sohu_fields c i))
          = Val (displayPara (seat_bid seat), u).
Proof.
  unfold sohu_buildBidResult. intros E. bind_in E i E1. bind_in E b E2. bind_in E js E3. bind_in E mtls E4. bind_in E x E5.
  destruct x as [first rest]. bind_in E x E6. destruct x as [b1 bid]. destruct (redo_mapping _ _ _ _ b1) as [cm b2] eqn:E7. injection E as <-.
  split; [done|]. destruct (sohu_build_bid_spec _ n _ _ _ _ _ _ _ E6) as (Hf & [Hs _] & Hat & u & Hu). pose proof E2 as Eb.
  unfold fillAdInfo in E2. bind_in E2 area Ea. bind_in E2 imp Ei. bind_in E2 dev Ed. injection E2 as Eb0.
  exists i, (mkSohuSeat (u32 n) bid), b, area, imp, u. split; [done|]. split; [done|]. split; [done|]. split; [done|].
  split; [by rewrite <- Eb0|]. split; [done|]. split; [|done]. cbn [so_base].
  unfold redo_mapping in E7. destruct (redoCookieMapping _ _ _ _ _ _) as [[? ?] ?]. by injection E7 as _ <-.
Qed.

(** A condition whose place is that of the request. *)
Definition sohu_asked_for (q : SohuRequest) (c : AdSelectCondition) : Prop :=
  exists i b, at_place c = at_place (sohu_condition e sizes_ q i b).1.

(** The type of the device is one of the three that Sohu documents. *)
Definition device_typed (q : SohuRequest) : Prop :=
  forall d, sq_device q = Some d ->
    sd_type d = str "PC" \/ same_letters (sd_type d) "Mobile" = true \/ same_letters (sd_type d) "Wap" = true.

Lemma sohu_mobile_asked q c d :
  sohu_asked_for q c -> device_typed q -> sq_device q = Some d -> sd_type d <> str "PC" ->
  cond_adxid (at_place c) = adx_id ADX_SOHU_MOBILE.
Proof.
  intros (i & b & ->) Ht Ed Hpc. unfold sohu_condition, sohu_client. rewrite Ed. unfold sohu_device_client.
  assert (forall adx flow, cond_adxid (sohu_place sizes_ i adx flow) = adx_id adx) as Hp.
  { intros. unfold sohu_place. destruct (sohu_format i flow) as [[w h] t]. by destruct (default _ _). }
  destruct (Ht d Ed) as [?|[Hm|Hm]]; [done|rewrite Hm|rewrite Hm; destruct (same_letters (sd_type d) "Mobile")];
    destruct (query_user _ _ _ _ _); apply Hp.
Qed.
End round.

(** C16: On Sohu, the impression of a bid is logged with the ad of the bid, and never with its price.  A
    round that found an ad adds one seat to the response, for the place of the round and at the price
    that was bid.  The impression whose query holds the parameters of the seat is logged with the ids
    and the area that the bid was logged with; but the macro of the price is a parameter under the
    cipher, where the exchange cannot replace it, so the price that the impression finds is the text
    of the macro, whatever price Sohu appends to the query. *)
Theorem sohu_impression `{Names : UrlNames} `{!UrlNamesLaws Names} `{!UrlLiterals Names} `{MapOrderLaws} `{Base64Laws}
    `{CryptoPP} `{Aes} `{UserIds} `{TaskConst} `{CmConst, RecordStore, DeviceOrder}
    `{AdxConst, ShowConst, UaConst, NetConst, Json, SohuProto}
    (e : handler_env) sizes_ c r n h h' b0 price (l0 l : LogItem) x y z :
  let q := so_request h in let b := info_of (at_show (clock e n) b0) in let tm := secs (clock e n) in
  fillAdInfo (area_code e) (uniqueIdSeq e) (clock e n) c r (suid q) (so_base h) = Val b0 ->
  sohu_buildBidResult e c r n h = Val h' -> sohu_asked_for e sizes_ q c -> device_typed q ->
  (forall i, rd (sq_impressions q) n = Val i ->
     overlay_ok b tm (sohu_fields c i) (x, y, z) /\ price_ok (overlaid_url b tm (sohu_fields c i)) price) ->
  (length SOHU_PRICE_MACRO <= URL_LONG_INPUT_PARAMETER)%nat -> adInfo l = ad0 ->
  exists i seat lb,
    rd (sq_impressions q) n = Val i /\ sohu_bid_for n r seat /\ last (seatbid (so_response h')) = Some seat
    /\ sohu_fillLogItem c l0 true h' = Val (true, lb, h')
    /\ reports (displayPara (seat_bid seat) ++ price_tail price) l (adInfo lb) (geoInfo lb) SOHU_PRICE_MACRO.
Proof.
  intros q b tm Eb0 Hb Hc Hd Hok Hlen Hl0.
  destruct (sohu_build_spec e c r n h h' Hb) as (Hq & i & seat & b0' & area & imp & u & Hrd & Hf & Eb0' & Ha & Hba & Hat & Hfin & Hu).
  fold q in Eb0'. rewrite Eb0 in Eb0'. injection Eb0' as <-. destruct (Hok i Hrd) as [Ho Hp].
  destruct (exchange_log_won (adx_id ADX_SOHU_MOBILE) cond_ip (default [] (site_page (so_request h'))) (from_option sd_ua [] (sq_device (so_request h')))
    (d ← sq_device (so_request h'); if bool_decide (sd_type d = str "PC") then None else Some (debug_sohu d)) c l0 (so_base h') x y z)
    as (lb & Elb & Hlb & Hgb).
  { rewrite Hfin, <- Hat. apply Ho. }
  { by rewrite Hfin, Hba. }
  { rewrite Hq. intros Hs. destruct (sq_device (so_request h)) as [d|] eqn:Ed; [|by destruct Hs]. cbn [mbind option_bind] in Hs.
    case_bool_decide as Hpc; [by destruct Hs|]. by apply (sohu_mobile_asked e sizes_ q c d). }
  exists i, seat, lb. split; [done|]. split; [done|]. split; [by rewrite Ha; cbn [seatbid]; rewrite last_snoc|].
  split; [unfold sohu_fillLogItem, sohu_fillSpecificLog; rewrite Elb; cbn [mbind outcome_bind]; by destruct h'|].
  assert (displayPara (seat_bid seat) = cipher_text (overlaid_url b tm (sohu_fields c i))) as ->.
  { fold b tm in Hu. rewrite cipherParam_ok in Hu by apply Ho. by injection Hu as <- _. }
  destruct (overlaid_reports b tm (sohu_fields c i) (x, y, z) Ho price l x y z eq_refl Hp) as (m & ls & Hm & Hls & Hsame & Hgeo & Hpr);
    [by rewrite sohu_found_price|done|].
  rewrite sohu_found_price in Hpr. change (bid_ad b) with (base_ad (at_show (clock e n) b0)) in Hsame. rewrite Hat, Hba in Hsame.
  exists m, ls. split; [done|]. split; [done|]. split; [rewrite Hlb, Hfin, Hba; by apply won_same|]. split; [congruence|done].
Qed.

(** *** The answer to a request *)

Section answer.
Context `{Names : UrlNames} `{!UrlNamesLaws Names} `{!UrlLiterals Names} `{MapOrderLaws} `{Base64Laws}.
Context `{CryptoPP} `{Aes} `{UserIds} `{TaskConst} `{CmConst, RecordStore, DeviceOrder}.
Context `{AdxConst, ShowConst, UaConst, NetConst, Json, SohuProto}.
Context (e : handler_env) (sizes_ : AdSizeMap) (Hwr : forall r, is_Some (sohu_write r)).

(** The response after the seats [ss] were added. *)
Definition sohu_response (q : SohuRequest) (ss : list SohuSeat) : SohuResponse := mkSohuResponse (Some (sq_version q)) (Some (bidid q)) ss.
Definition sohu_holds (h : sohu) (ss : list SohuSeat) : Prop :=
  so_response h = match ss with [] => sohu_response0 | _ => sohu_response (so_request h) ss end.

Definition sohu_seat_of_round (w : Z * round) (seat : SohuSeat) : Prop := sohu_bid_for (fst w) (rd_result (snd w)) seat.

Definition sohu_written (q : SohuRequest) (ss : list SohuSeat) (resp resp' : HttpResponse) : Prop :=
  exists t, sohu_write (sohu_response q ss) = Some t /\ resp' = x_protobuf t resp.

#[refine] Instance sohu_answers : HandlerAnswers (sohu_handler e sizes_) := {|
  request (h : @handler (sohu_handler e sizes_)) := so_request h; holds_ads := sohu_holds;
  round_ad q := sohu_seat_of_round; written := sohu_written |}.
Proof.
  - intros c r i h h' ss Eb Hw.
    destruct (sohu_build_spec e c r i h h' Eb) as (Q1 & im & seat & _ & _ & _ & _ & _ & Hf & _ & Ha & _).
    split; [done|]. exists seat. split; [|done]. unfold sohu_holds in *. rewrite Q1, Ha, Hw. by destruct ss.
  - intros c l ok h b l' h' ss E Hw. cbn in E. unfold sohu_fillLogItem in E. bind_in E x E1. destruct x as [[b1 l1] hb].
    by injection E as <- <- <-.
  - done.
  - intros r h r' h' ss E Hw Hne. cbn in E. unfold sohu_match in E. unfold sohu_holds in Hw. rewrite Hw in E.
    destruct ss as [|s ss]; [done|]. destruct (Hwr (sohu_response (so_request h) (s :: ss))) as [t Et].
    rewrite Et in E. injection E as <- <-. by exists t.
  - intros r h r' h' E Hw. cbn in E. unfold sohu_reject in E.
    destruct (Hwr (sohu_response (so_request h) [])) as [t Et]. unfold sohu_response in Et. rewrite Et in E.
    injection E as <- <-. by exists t.
Defined.
End answer.

(** The answer to a request of Sohu.  A test, and a request without a place, is answered with the
    version and the id of the request and no seat.  Any other request is asked for once, with the
    condition of its first place; the answer holds the seat of the ad that was found, which pays the
    price that was bid, or none. *)
Theorem sohu_answer `{Names : UrlNames} `{!UrlNamesLaws Names} `{!UrlLiterals Names} `{MapOrderLaws} `{Base64Laws}
    `{CryptoPP} `{Aes} `{UserIds} `{TaskConst} `{CmConst, RecordStore, DeviceOrder}
    `{AdxConst, ShowConst, UaConst, NetConst, Json, OpenSSL, SohuProto} `{BoostBase64, PriceMemory, Avro, LogConst}
    (e : handler_env) sizes_ be data (h h0 : sohu) h' st st' (ok : bool) :
  let so := sohu_handler e sizes_ in let q := so_request h0 in
  isPost (bid_task be) = true -> sohu_parseRequestData data h = Val (ok, h0) ->
  (forall c, address_known be c) ->
  (forall r, is_Some (sohu_write r)) ->
  bid_customLogic be (Some h0) st = RVal h' st' ->
  exists rs ss t, Forall2 sohu_seat_of_round (winners 0 rs) ss
    /\ (isTest q <> 0 \/ sq_impressions q = [] -> rs = [])
    /\ (isTest q = 0 -> forall i, head (sq_impressions q) = Some i ->
          exists r, rs = [r] /\ is_round be [] (sohu_condition e sizes_ q i (so_base h0)).1 r)
    /\ sohu_write (sohu_response q ss) = Some t
    /\ resp st' = x_protobuf t (resp st) /\ needLog st' = false.
Proof.
  intros so q Hpost Hp Hadr Hwr E.
  assert (sohu_holds h0 []) as Hw by (unfold sohu_parseRequestData in Hp; destruct (sohu_parse data); by injection Hp as _ <-).
  assert (exists h1 o, sohu_filter_conditions e sizes_ h0 = Val (h1, o) /\ so_request h1 = q /\ so_response h1 = so_response h0
    /\ (isTest q <> 0 \/ sq_impressions q = [] -> o = None)
    /\ (isTest q = 0 -> forall i, head (sq_impressions q) = Some i -> o = Some [(sohu_condition e sizes_ q i (so_base h0)).1]))
    as (h1 & o & Ef & Hq & Hr & Hno & Ho).
  { unfold sohu_filter_conditions. fold q. destruct (Z.eqb_spec (isTest q) 0) as [Et|Et]; cbn [negb]; [|by do 2 eexists].
    destruct (sq_impressions q) as [|i is_]; [by do 2 eexists|].
    destruct (sohu_condition e sizes_ q i (so_base h0)) as [c b] eqn:Ec. do 2 eexists. split; [done|]. split; [done|]. split; [done|].
    split; [by intros [?|?]|]. intros _ i' [= <-]. by rewrite Ec. }
  assert (sohu_holds h1 []) as Hw1 by (unfold sohu_holds in *; by rewrite Hr).
  destruct (auction_answer (BH := so) (HA := sohu_answers e sizes_ Hwr) be h0 h1 o h' st st' Hpost Ef Hw1 Hadr E)
    as (rs & ss & Hrs & Hf & (t & Ht & Hresp) & Hlog).
  cbn [request round_ad sohu_answers] in Hf, Ht. rewrite Hq in Ht. exists rs, ss, t. split; [done|].
  split; [intros Hn; apply Hno in Hn; by subst o|]. split; [|done]. intros Ht0 i Hi. rewrite (Ho Ht0 i Hi) in Hrs.
  destruct rs as [|r [|r2 rs]]; cbn [rounds] in Hrs; [done| |by destruct Hrs as [_ []]]. exists r. by destruct Hrs as [Hr1 _].
Qed.

(** *** Limits *)

(** A device of a type that Sohu does not document, as one written in small letters, bids as a browser
    and is logged as a mobile device. *)
Lemma untyped_device_logged `{UrlNames, CryptoPP, CmConst, RecordStore, DeviceOrder, AdxConst, ShowConst, UaConst, NetConst, SohuProto}
    q d user cm c l b :
  sq_device q = Some d -> sd_type d <> str "PC" -> same_letters (sd_type d) "Mobile" = false -> same_letters (sd_type d) "Wap" = false ->
  (sohu_device_client d user cm).1.1 = ADX_SOHU_PC
  /\ exists l' b', sohu_fillSpecificLog q c l true b = Val (true, l', b') /\ adxid (adInfo l') = adx_id ADX_SOHU_MOBILE.
Proof.
  intros Ed Hpc Hm Hw. unfold sohu_device_client, sohu_fillSpecificLog. rewrite Ed, Hm, Hw. split; [done|].
  cbn [mbind option_bind]. rewrite bool_decide_eq_false_2 by done. by do 2 eexists.
Qed.

(** ** Instances *)

Module SohuInstance.
#[local] Existing Instance toy_openssl.
Import HandlerInstance.

(** A page of a browser, and the price that Sohu appends. *)
Definition sohu_imp : SohuImpression := mkSohuImpression (str "90001") (Some 40) (Some (300, 250)) None None [].
Definition sohu_pc : SohuDevice :=
  mkSohuDevice (str "PC") (Some (str "1.2.3.4")) (str "Mozilla/5.0 (X11; Linux)") [] [] [] None None None None.
Definition sohu_page : SohuRequest := mkSohuRequest 3 (str "q9") 0 None (Some sohu_pc) (str "u77") [sohu_imp].
Definition sohu_sent_price : bytes := str "AbCdEfGh".

#[local] Instance sohu_messages : SohuProto := {
  sohu_parse _ := (true, sohu_page);
  sohu_write r := Some (flat_map (fun s => to_string (seat_idx s) ++ str "=" ++ to_string (sb_price (seat_bid s)) ++ str ";") (seatbid r));
  debug_sohu _ := [];
}.

Definition sohu_parsed : sohu := mkSohu base0 sohu_page sohu_response0.
#[local] Instance so : BiddingHandler := sohu_handler the_env AdSizeMap_new.
Definition sohu_parsed_handler : handler := sohu_parsed.

Example sohu_page_answer :
  match bid_customLogic the_bids (Some sohu_parsed_handler) the_state with RVal _ s => body (resp s) | _ => [] end = str "0=100;".
Proof. by vm_compute. Qed.

Definition sohu_finished : task_state :=
  match bid_customLogic the_bids (Some sohu_parsed_handler) the_state with RVal _ s => s | _ => the_state end.
Definition sohu_done : option handler := match bid_customLogic the_bids (Some sohu_parsed_handler) the_state with RVal h _ => h | _ => None end.

Lemma sohu_answer_witness :
  exists rs ss t, Forall2 sohu_seat_of_round (winners 0 rs) ss
    /\ sohu_write (sohu_response sohu_page ss) = Some t
    /\ resp sohu_finished = x_protobuf t (resp the_state) /\ needLog sohu_finished = false.
Proof.
  destruct (sohu_answer the_env AdSizeMap_new the_bids [] sohu_parsed sohu_parsed sohu_done the_state sohu_finished true)
    as (rs & ss & t & A1 & _ & _ & A2 & A3 & A4).
  - reflexivity.
  - reflexivity.
  - intros c. split; by eexists.
  - intros r. by eexists.
  - by vm_compute.
  - exists rs, ss, t. split; [exact A1|]. split; [exact A2|]. split; [exact A3|exact A4].
Defined.

Definition sohu_asked : AdSelectCondition := (sohu_condition the_env AdSizeMap_new sohu_page sohu_imp base0).1.
Definition sohu_found : SelectResult := snd (found sohu_asked).
Definition sohu_after : sohu := match sohu_buildBidResult the_env sohu_asked sohu_found 0 sohu_parsed with Val h => h | _ => sohu_parsed end.
Definition sohu_filled : base :=
  match fillAdInfo (area_code the_env) 5 (clock the_env 0) sohu_asked sohu_found (str "u77") base0 with Val b => b | _ => base0 end.
Abbreviation sohu_info := (info_of (at_show (clock the_env 0) sohu_filled)).
Abbreviation sohu_extra := (sohu_fields sohu_asked sohu_imp).

Lemma sohu_cipherable : cipherable (overlaid_url sohu_info 1476779974 sohu_extra).
Proof.
  constructor.
  - by_decide.
  - repeat constructor; vm_compute; congruence.
  - by_decide.
  - vm_compute. discriminate.
  - vm_compute. lia.
  - intros []; discriminate.
Qed.

Lemma sohu_overlay_ok : overlay_ok sohu_info 1476779974 sohu_extra (86, 110000, 110100).
Proof.
  destruct (sohu_fields_ok sohu_asked sohu_imp) as [F1 F2]. constructor; [exact F1|exact F2|exact sohu_cipherable|discriminate| |by_decide|by vm_compute].
  constructor; [by_decide|by_decide|split; vm_compute; discriminate].
Qed.

Lemma sohu_price_ok : price_ok (overlaid_url sohu_info 1476779974 sohu_extra) (Some sohu_sent_price).
Proof.
  split; [split; [by_decide|]; split; [by_decide|vm_compute; lia]|].
  intros p E. injection E as <-. split; [vm_compute; discriminate|]. constructor; cbn [fst snd]; (discriminate || by_decide).
Qed.

Lemma sohu_impression_witness :
  exists i seat lb,
    rd [sohu_imp] 0 = Val i /\ sohu_bid_for 0 sohu_found seat /\ last (seatbid (so_response sohu_after)) = Some seat
    /\ sohu_fillLogItem sohu_asked log0 true sohu_after = Val (true, lb, sohu_after)
    /\ reports (displayPara (seat_bid seat) ++ price_tail (Some sohu_sent_price)) show_log (adInfo lb) (geoInfo lb) SOHU_PRICE_MACRO.
Proof.
  apply (sohu_impression the_env AdSizeMap_new sohu_asked sohu_found 0 sohu_parsed sohu_after sohu_filled (Some sohu_sent_price) log0 show_log
           86 110000 110100).
  - by vm_compute.
  - by vm_compute.
  - by exists sohu_imp, base0.
  - intros d [= <-]. by left.
  - intros i [= <-]. split; [exact sohu_overlay_ok|exact sohu_price_ok].
  - vm_compute. lia.
  - reflexivity.
Defined.

(** A user that is mapped for the first time is not in the parameters of his bid. *)
Definition unmapped : sohu :=
  mkSohu (mkBase false ad0 (mkExtra 0 0 [] ∅ [] [] (mkDevice 0 0 0 0 []) [] one []) (mkInfo (mkKV [] [] ∅ false) mapping0 true false false) [])
    sohu_page sohu_response0.
Example new_user_not_carried :
  field URL_MTTY_UID (show_fields sohu_info 1476779974) = []
  /\ match sohu_buildBidResult the_env sohu_asked sohu_found 0 unmapped with
     | Val h => um_userId (userMapping (cmInfo (so_base h))) <> []
                /\ map (fun s => displayPara (seat_bid s)) (seatbid (so_response h))
                   = map (fun s => displayPara (seat_bid s)) (seatbid (so_response sohu_after))
     | _ => False
     end.
Proof. vm_compute. split; [done|]. split; [discriminate|done]. Qed.
End SohuInstance.
