(* ===== verification/GdtBid.v ===== *)
(** * GdtBid: the handler of Tencent (protocol/tencent_gdt/gdt_bidding_handler.cpp, protocol/tencent_gdt/gdt_bidding_handler.h)

    A request is for one place, the first of its list, which names the formats it takes; the sizes of
    the formats that are known are asked for.  Tencent keeps the urls of a creative itself; a bid
    holds the creative and the parameters that Tencent puts into the url of an impression, to which
    it adds the price, and of a click.

    The generated classes of the messages are the parameter [GdtProto]; the records below are the
    fields that the handler reads and writes, with the enumerations of the messages.  The user of a
    message is his id, which is empty when there is no user.  The area that the handler writes to
    the condition is replaced by the bid task before the search, with the same lookup, and left out. *)
From Stdlib Require Import SpecFloat.
From S2P Require Import SizeMap.
From S2P Require Import Prelude CString UrlCodec UrlParams Cypher UrlHelper Rijndael RijndaelProofs SohuPrice.
From S2P Require Import LogPusher Double PriceDecode Pricing Http QueryTask ClickTask CookieMapping TraceTask BidUrl UserClient AdSelect ShowTask.
From S2P Require Import BidBase BidReport BidTask BidAnswer.

(** ** Messages *)

Inductive gdt_device_type : Set := kDeviceTypeUnknown | kDeviceTypePC | kDeviceTypeMobile | kDeviceTypePad.
Inductive gdt_carrier : Set := kCarrierUnknown | kCarrierChinaMobile | kCarrierChinaUnicom | kCarrierChinaTelecom.
Inductive gdt_connection : Set := kConnTypeUnknown | kConnTypeWifi | kConnType2G | kConnType3G | kConnType4G.
Inductive gdt_os : Set := kOSUnknown | kOSIOS | kOSAndroid | kOSWindows | kOSSymbian | kOSJava.

Record GdtImpression := mkGdtImpression { gi_id : bytes; placement_id : option Z; creative_specs : list Z; bid_floor : option Z }.
Record GdtDevice := mkGdtDevice {
  gd_id : bytes; device_type : gdt_device_type; gd_os : option gdt_os; gd_user_agent : bytes; gd_carrier : gdt_carrier;
  connection_type : gdt_connection; brand_and_model : bytes;
}.
Record GdtRequest := mkGdtRequest {
  gq_id : bytes; gq_is_ping : bool; is_test : bool; gq_impressions : list GdtImpression; gq_device : option GdtDevice; gq_ip : bytes;
  gq_user : bytes; gq_geo : option (Z * Z) (* longitude, latitude *); gq_app : option (option bytes) (* its bundle *);
}.

Record GdtBidMsg := mkGdtBidMsg { gb_creative : bytes; bid_price : Z; impression_param : bytes; click_param : bytes }.
Record GdtSeat := mkGdtSeat { seat_impression : bytes; gseat_bid : GdtBidMsg }.
Record GdtResponse := mkGdtResponse { request_id : option bytes; seat_bids : list GdtSeat }.
Definition gdt_response0 : GdtResponse := mkGdtResponse None [].

Class GdtProto := {
  gdt_parse : bytes -> bool * GdtRequest;            (* ParseFromString of a cleared message *)
  gdt_write : GdtResponse -> option bytes;           (* SerializeToString *)
  debug_gdt : GdtDevice -> bytes;                    (* DebugString *)
}.

Record gdt := mkGdt { gd_base : base; gd_request : GdtRequest; gd_response : GdtResponse }.
Definition gdt_on_base (f : base -> base) (h : gdt) : gdt := mkGdt (f (gd_base h)) (gd_request h) (gd_response h).

(** ** The client *)

Definition getGdtOsType (os : gdt_os) : os_name :=
  match os with kOSWindows => SOLUTION_OS_WINDOWS | kOSAndroid => SOLUTION_OS_ANDROID | kOSIOS => SOLUTION_OS_IOS | _ => SOLUTION_OS_OTHER end.
Definition getGdtMobileDeviceType (os : gdt_os) : device_name :=
  match os with
  | kOSWindows => SOLUTION_DEVICE_WINDOWSPHONE | kOSAndroid => SOLUTION_DEVICE_ANDROID | kOSIOS => SOLUTION_DEVICE_IPHONE
  | _ => SOLUTION_DEVICE_OTHER
  end.
Definition getGdtNetWork (c : gdt_connection) : network_name :=
  match c with
  | kConnTypeWifi => SOLUTION_NETWORK_WIFI | kConnType2G => SOLUTION_NETWORK_2G | kConnType3G => SOLUTION_NETWORK_3G
  | kConnType4G => SOLUTION_NETWORK_4G | kConnTypeUnknown => SOLUTION_NETWORK_ALL
  end.
Definition gdt_getNetworkCarrier (c : gdt_carrier) : provider_name :=
  match c with
  | kCarrierChinaMobile => SOLUTION_NETWORK_PROVIDER_CHINAMOBILE | kCarrierChinaTelecom => SOLUTION_NETWORK_PROVIDER_CHINATELECOM
  | kCarrierChinaUnicom => SOLUTION_NETWORK_PROVIDER_CHINAUNICOM | kCarrierUnknown => SOLUTION_NETWORK_PROVIDER_ALL
  end.

Section gdt.
Context `{UrlNames, MapOrder, Base64, CryptoPP, UserIds, CmConst, RecordStore, DeviceOrder}.
Context `{AdxConst, ShowConst, UaConst, BrowserConst, NetConst, Json, GdtProto}.
Context (e : handler_env) (sizes_ : AdSizeMap).

(** ** The formats *)

Record GdtAdplace := mkGdtAdplace { ga_width : Z; ga_height : Z; ga_flowType : Z }.

(** [std::map::insert] keeps what is there. *)
Definition gdt_add (m : gmap Z GdtAdplace) (a : Z * GdtAdplace) : gmap Z GdtAdplace :=
  match m !! a.1 with Some _ => m | None => <[a.1 := a.2]> m end.

Definition gdtAdplaceMap : gmap Z GdtAdplace :=
  let mobile k w h := (k, mkGdtAdplace w h SOLUTION_FLOWTYPE_MOBILE) in
  let pc k w h := (k, mkGdtAdplace w h SOLUTION_FLOWTYPE_PC) in
  foldl gdt_add ∅
    [ mobile 133 582 166; mobile 134 114 114; mobile 79 640 960; mobile 80 320 480; mobile 119 480 720; mobile 120 640 1136;
      mobile 124 720 1280; mobile 125 1080 1920; mobile 142 750 1334; pc 96 140 425; pc 99 200 162; pc 23 198 100; pc 12 198 40;
      pc 2 160 210; mobile 207 640 1136; mobile 208 640 960; mobile 212 320 480; mobile 147 1200 800; mobile 148 1280 720;
      mobile 149 1200 627; mobile 150 800 1200; mobile 58 300 250; mobile 59 600 500; mobile 70 72 72; mobile 113 640 960;
      mobile 114 320 480; mobile 10 640 100; mobile 28 240 38; mobile 31 480 75; mobile 35 320 50; mobile 69 72 72;
      mobile 65 1000 560; mobile 184 240 180; mobile 210 640 288 ].

(** The sizes of the formats of a place, and the flow of the last one that is known. *)
Fixpoint gdt_formats (specs : list Z) (szs : list (Z * Z)) (flow : Z) : list (Z * Z) * Z :=
  match specs with
  | [] => (szs, flow)
  | s :: specs =>
    match gdtAdplaceMap !! s with
    | Some a => gdt_formats specs (szs ++ SizeMap.get sizes_ (ga_width a, ga_height a) MATERIAL_TYPE_PIC) (ga_flowType a)
    | None => gdt_formats specs szs flow
    end
  end.

(** ** The request *)

Definition gdt_parseRequestData (data : bytes) (h : gdt) : outcome (bool * gdt) :=
  let '(ok, r) := gdt_parse data in Val (ok, mkGdt (gd_base h) r gdt_response0).

Definition gdt_degrees (z : Z) : double := ddiv (double_of_Z z) (double_of_Z 1000000).
Definition gdt_geo (q : GdtRequest) : double * double :=
  match gq_geo q with Some (lon, lat) => (gdt_degrees lon, gdt_degrees lat) | None => (S754_zero false, S754_zero false) end.

(** The exchange and the client of a device, for a place of the flow. *)
Definition gdt_device_client (q : GdtRequest) (d : GdtDevice) (flow : Z) : outcome (adx_name * cond_client) :=
  let os := default kOSUnknown (gd_os d) in
  let pcOS := match gd_os d with Some os => os_id (getGdtOsType os) | None => os_id SOLUTION_OS_OTHER end in
  let id := upper (gd_id d) in
  let net := network_id (getGdtNetWork (connection_type d)) in
  let client ids dev flow pcOS provider brand browser :=
    mkClient ids dev flow pcOS net provider [] (brand_and_model d) (gdt_geo q) brand browser in
  let mobile dev ios provider brand :=
    Val (ADX_GDT_MOBILE, client (if ios : bool then mkIds id [] [] [] else mkIds [] id [] []) dev SOLUTION_FLOWTYPE_MOBILE pcOS provider brand []) in
  match device_type d with
  | kDeviceTypePC =>
    browser ← getBrowserTypeFromUA (gd_user_agent d);
    Val (ADX_TENCENT_GDT,
         client (mkIds [] [] [] id) 0 flow (if pcOS =? os_id SOLUTION_OS_OTHER then getOSTypeFromUA (gd_user_agent d) else pcOS) 0 None browser)
  | kDeviceTypeMobile =>
    let dev := device_id (getGdtMobileDeviceType os) in
    mobile dev (dev =? device_id SOLUTION_DEVICE_IPHONE) (provider_id (gdt_getNetworkCarrier (gd_carrier d)))
      (Some (getDeviceBrandFromUA (gd_user_agent d)))
  | kDeviceTypePad =>
    let dev := device_id (match os with kOSIOS => SOLUTION_DEVICE_IPAD | _ => SOLUTION_DEVICE_ANDROIDPAD end) in
    mobile dev (dev =? device_id SOLUTION_DEVICE_IPAD) 0 None
  | kDeviceTypeUnknown =>
    Val (ADX_TENCENT_GDT, client (mkIds [] [] [] []) (device_id SOLUTION_DEVICE_OTHER) flow (os_id SOLUTION_OS_OTHER) 0 None [])
  end.

(** The client and its user; without a device the mapping is that of the request before. *)
Definition gdt_client (q : GdtRequest) (flow : Z) (h : base) : outcome (adx_name * cond_client * base * bytes) :=
  match gq_device q with
  | Some d =>
    '(adx, client) ← gdt_device_client q d flow;
    let ids := cond_ids client in
    let '(h, user) := query_user (disabledCookieMapping e) (mapping_store e) (mapping_answer e) []
                        (set_cm (cookieMappingKeyMobile ids ids (adx_id adx) (gq_user q) (cmInfo h)) h) in
    Val (adx, client, h, user)
  | None => Val (ADX_TENCENT_GDT, mkClient (mkIds [] [] [] []) 0 flow 0 0 0 [] [] (gdt_geo q) None [], h, [])
  end.

(** The id of the place: [queryCondition.adxpid == ...] is a comparison. *)
Definition gdt_adxpid (q : GdtRequest) (i : GdtImpression) (flow : Z) : bytes :=
  match gq_app q with
  | Some bundle => if flow =? SOLUTION_FLOWTYPE_MOBILE then default [] bundle else from_option to_string [] (placement_id i)
  | None => from_option to_string [] (placement_id i)
  end.

Definition gdt_condition (q : GdtRequest) (i : GdtImpression) (szs : list (Z * Z)) (flow : Z) (h : base)
    : outcome (AdSelectCondition * base) :=
  '(adx, client, h, user) ← gdt_client q flow h;
  let flow := cond_flowType client in
  let adx := if flow =? SOLUTION_FLOWTYPE_MOBILE then ADX_GDT_MOBILE else adx in
  let '(w, v) := default (0, 0) (last szs) in
  Val (mkCondition (mkCondPlace (gdt_adxpid q i flow) 0 (adx_id adx) (default 0 (bid_floor i)) w v 0 0 0 [] [] (Some szs) 99)
         client (gq_ip q) user 0 [] None [] false, h).

Definition gdt_filter_conditions (h : gdt) : outcome (gdt * option (list AdSelectCondition)) :=
  let q := gd_request h in
  if gq_is_ping q || is_test q then Val (gdt_on_base bidFailedReturn h, None)
  else
    i ← rd (gq_impressions q) 0;
    let '(szs, flow) := gdt_formats (creative_specs i) [] 0 in
    match szs with
    | [] => Val (gdt_on_base bidFailedReturn h, None)
    | _ => '(c, b) ← gdt_condition q i szs flow (gd_base h); Val (mkGdt b q (gd_response h), Some [c])
    end.

Definition gdt_filter_verdict (ok : bool) (cs : list AdSelectCondition) (h : gdt) : gdt :=
  gdt_on_base (if ok then set_accepted true else bidFailedReturn) h.

(** ** The response *)

Definition gdt_landing (r : SelectResult) (first : json) : bytes :=
  let landing := get_text (str (if bannerType (res_banner r) =? BANNER_TYPE_PRIMITIVE then "p9" else "p1")) first in
  (url_replace landing (str "{{click}}") []).2.

Definition gdt_display (c : AdSelectCondition) (url : URLHelper) : URLHelper :=
  UrlHelper.add (url_name URL_IP) (cond_ip c) (UrlHelper.add (url_name URL_IMP_OF) (str "3") url).

Definition gdt_build_bid (k : round_clock) (c : AdSelectCondition) (r : SelectResult) (first : json) (h : base)
    : outcome (base * GdtBidMsg) :=
  let '(h, show) := show_para k h empty_helper in
  '(display, _) ← cipherParam (gdt_display c show);
  '(h, click) ← click_para h [] (gdt_landing r first) empty_helper;
  '(click, _) ← cipherParam (UrlHelper.add (url_name URL_IP) (cond_ip c) click);
  Val (h, mkGdtBidMsg (to_string (bId (res_banner r))) (s32 (res_bidPrice r)) display click).

Definition gdt_buildBidResult (c : AdSelectCondition) (r : SelectResult) (seq : Z) (h : gdt) : outcome gdt :=
  let q := gd_request h in
  let resp := match request_id (gd_response h) with Some _ => gd_response h | None => mkGdtResponse (Some (gq_id q)) [] end in
  let '(_, b) := redo_mapping (uniqueIdSeq e) (clock e seq) (adx_id ADX_GDT_MOBILE) [] (gd_base h) in
  i ← rd (gq_impressions q) seq;
  b ← fillAdInfo (area_code e) (uniqueIdSeq e) (clock e seq) c r (gq_user q) b;
  js ← bannerJson2HttpsIOS (is_ios c) (banner_json (res_banner r)) (bannerType (res_banner r) =? BANNER_TYPE_PRIMITIVE);
  mtls ← as_array (get_member (str "mtls") js);
  '(first, _) ← head_of mtls;
  '(b, bid) ← gdt_build_bid (clock e seq) c r first b;
  let '(_, b) := redo_mapping (uniqueIdSeq e) (clock e seq) (cond_adxid (at_place c)) [] b in
  Val (mkGdt b q (mkGdtResponse (request_id resp) (seat_bids resp ++ [mkGdtSeat (gi_id i) bid]))).

(** ** The log *)

Definition gdt_fillSpecificLog (q : GdtRequest) (c : AdSelectCondition) (l : LogItem) (isAccepted : bool) (h : base)
    : outcome (bool * LogItem * base) :=
  let f := flow l in
  let info := match gq_device q with Some d => if isAccepted then debug_gdt d else deviceInfo f | None => deviceInfo f end in
  Val (true, mkLog (timeStamp l) (logType l) (reqStatus l) (reqMethod l) (cond_ip c) (referer l) (userId l) (userAgent l) (geoInfo l) (adInfo l)
               (clickx l) (clicky l) (deviceID l) (traceId l) (traceInfo l)
               (mkFlow (dealIds f) (keyWords f) (mediaType f) (contentTypes f) (log_device f) info), h).

Definition gdt_fillLogItem (c : AdSelectCondition) (l : LogItem) (isAccepted : bool) (h : gdt) : outcome (bool * LogItem * gdt) :=
  '(b, l, hb) ← BidBase.fillLogItem (gdt_fillSpecificLog (gd_request h)) c l isAccepted (gd_base h);
  Val (b, l, mkGdt hb (gd_request h) (gd_response h)).

(** ** The answer *)

Definition gdt_reject (r : HttpResponse) (h : gdt) : outcome (HttpResponse * gdt) :=
  let q := gd_request h in
  let resp := mkGdtResponse (Some (gq_id q)) [] in
  let h := mkGdt (gd_base h) q resp in
  Val (match gdt_write resp with Some t => (x_protobuf t r, h) | None => (r, h) end).

Definition gdt_match (r : HttpResponse) (h : gdt) : outcome (HttpResponse * gdt) :=
  match gdt_write (gd_response h) with
  | Some t => Val (x_protobuf t r, h)
  | None => gdt_reject r h
  end.

Definition gdt_handler : BiddingHandler := {|
  handler := gdt; parseRequestData := gdt_parseRequestData; filter_conditions := gdt_filter_conditions;
  filter_verdict := gdt_filter_verdict; buildBidResult := gdt_buildBidResult; BidTask.fillLogItem := gdt_fillLogItem;
  match_bid := gdt_match; reject_bid := gdt_reject |}.
End gdt.

(** ** Properties *)

Section round.
Context `{Names : UrlNames} `{!UrlNamesLaws Names} `{!UrlLiterals Names} `{MapOrderLaws} `{Base64Laws}.
Context `{CryptoPP} `{Aes} `{UserIds} `{TaskConst} `{CmConst, RecordStore, DeviceOrder}.
Context `{AdxConst, ShowConst, UaConst, BrowserConst, NetConst, Json, GdtProto}.
Context (e : handler_env) (sizes_ : AdSizeMap).

(** What the bid of a round holds. *)
Record gdt_bid_for (i : GdtImpression) (r : SelectResult) (seat : GdtSeat) : Prop := {
  gf_impression : seat_impression seat = gi_id i;
  gf_price : bid_price (gseat_bid seat) = s32 (res_bidPrice r);
  gf_creative : gb_creative (gseat_bid seat) = to_string (bId (res_banner r));
}.

(** The parameters that are added to those of a show url. *)
Definition gdt_fields (c : AdSelectCondition) : list (url_key * bytes) := [(URL_IMP_OF, str "3"); (URL_IP, cond_ip c)].

Lemma gdt_fields_ok c : NoDup (gdt_fields c).*1 /\ (gdt_fields c).*1 ⊆ overlay.
Proof. split; by_decide. Qed.

Lemma gdt_build_bid_spec k i c r first h h' bid :
  gdt_build_bid k c r first h = Val (h', bid) ->
  gdt_bid_for i r (mkGdtSeat (gi_id i) bid) /\ same_urls h h' /\ base_ad (at_show k h) = base_ad h
  /\ exists u, cipherParam (overlaid_url (info_of (at_show k h)) (secs k) (gdt_fields c)) = Val (impression_param bid, u).
Proof.
  unfold gdt_build_bid, at_show.
  destruct (show_para k h empty_helper) as [h1 show] eqn:Es. apply show_para_kept in Es as [Hs ->]. intros E.
  bind_in E x E1. destruct x as [display u]. bind_in E x E2. destruct x as [h2 click]. bind_in E x E3. destruct x as [cl u2].
  injection E as <- <-. split; [done|].
  split; [eapply same_urls_trans; [exact Hs|by eapply click_para_kept]|]. split; [apply Hs|]. by exists u.
Qed.

(** The base of a round when its ad is filled in: the user is mapped before. *)
Definition gdt_filled (c : AdSelectCondition) (r : SelectResult) (n : Z) (h : gdt) : outcome base :=
  fillAdInfo (area_code e) (uniqueIdSeq e) (clock e n) c r (gq_user (gd_request h))
    (redo_mapping (uniqueIdSeq e) (clock e n) (adx_id ADX_GDT_MOBILE) [] (gd_base h)).2.

Lemma redo_keeps_ad u k adx url h : base_ad (redo_mapping u k adx url h).2 = base_ad h.
Proof. unfold redo_mapping. by destruct (redoCookieMapping _ _ _ _ _ _) as [[? ?] ?]. Qed.

(** A round that found an ad: one seat is added, and its parameters are made of what the selection found. *)
Lemma gdt_build_spec c r n h h' :
  gdt_buildBidResult e c r n h = Val h' ->
  let q := gd_request h in
  let old := match request_id (gd_response h) with Some _ => gd_response h | None => mkGdtResponse (Some (gq_id q)) [] end in
  gd_request h' = q
  /\ exists i seat b0 area imp u, rd (gq_impressions q) n = Val i /\ gdt_bid_for i r seat
       /\ gdt_filled c r n h = Val b0
       /\ gd_response h' = mkGdtResponse (request_id old) (seat_bids old ++ [seat])
       /\ base_ad b0 = bid_ad_info c r (gq_user q) area imp (base_ad (gd_base h))
       /\ base_ad (at_show (clock e n) b0) = base_ad b0 /\ base_ad (gd_base h') = base_ad b0
       /\ cipherParam (overlaid_url (info_of (at_show (clock e n) b0)) (secs (clock e n)) (gdt_fields c))
          = Val (impression_param (gseat_bid seat), u).
Proof.
  unfold gdt_buildBidResult, gdt_filled. rewrite (surjective_pairing (redo_mapping _ _ (adx_id ADX_GDT_MOBILE) _ _)). intros E.
  bind_in E i E1. bind_in E b E2. bind_in E js E3. bind_in E mtls E4. bind_in E x E5.
  destruct x as [first rest]. bind_in E x E6. destruct x as [b1 bid].
  rewrite (surjective_pairing (redo_mapping _ _ (cond_adxid _) _ _)) in E. injection E as <-.
  split; [done|]. destruct (gdt_build_bid_spec _ i _ _ _ _ _ _ E6) as (Hf & [Hs _] & Hat & u & Hu). pose proof E2 as Eb.
  unfold fillAdInfo in E2. bind_in E2 area Ea. bind_in E2 imp Ei. bind_in E2 dev Ed. injection E2 as Eb0.
  exists i, (mkGdtSeat (gi_id i) bid), b, area, imp, u. split; [done|]. split; [done|]. split; [done|]. split; [done|].
  split; [rewrite <- Eb0; cbn; by rewrite redo_keeps_ad|]. split; [done|]. split; [|done]. cbn [gd_base]. by rewrite redo_keeps_ad.
Qed.

Lemma gdt_log_won c l h x y z :
  extractAreaInfo (areaId (base_ad (gd_base h))) = Val (x, y, z) ->
  exists lb, gdt_fillLogItem c l true h = Val (true, lb, h)
    /\ adInfo lb = won_ad c (base_ad (gd_base h)) (adInfo l) /\ geoInfo lb = mkGeo x y z.
Proof.
  intros Hx. unfold gdt_fillLogItem.
  destruct (fillLogItem_won (gdt_fillSpecificLog (gd_request h)) c l (gd_base h) x y z Hx) as (l' & -> & Ha & Hg).
  unfold gdt_fillSpecificLog. cbn [mbind outcome_bind]. eexists. split; [by destruct h|]. done.
Qed.
End round.

(** What Tencent passes on of a parameter: gdt.proto cuts [impression_param] and [click_param] after 200 bytes. *)
Definition passed_on (param : bytes) : bytes := take 200 param.

(** C17: On Tencent, a bid and its impression are logged with the same ad.  A round that found an ad adds
    one seat to the response, for the place of the round, with the creative and the price that were
    found.  Tencent puts the first 200 bytes of the parameters of the seat in the query of the
    impression, and appends the price.  When the parameters are not longer than that, the impression
    is logged with the ids and the area that the bid was logged with, finds the price, and is counted
    for the address of the user, not for that of the request, on both exchanges of Tencent. *)
Theorem gdt_impression `{Names : UrlNames} `{!UrlNamesLaws Names} `{!UrlLiterals Names} `{MapOrderLaws} `{Base64Laws}
    `{CryptoPP} `{Aes} `{UserIds} `{TaskConst} `{CmConst, RecordStore, DeviceOrder}
    `{AdxConst, ShowConst, UaConst, BrowserConst, NetConst, Json, GdtProto}
    (e : handler_env) c r n h h' b0 price (l0 l : LogItem) x y z :
  let q := gd_request h in let b := info_of (at_show (clock e n) b0) in let tm := secs (clock e n) in
  gdt_filled e c r n h = Val b0 -> gdt_buildBidResult e c r n h = Val h' ->
  overlay_ok b tm (gdt_fields c) (x, y, z) -> price_ok (overlaid_url b tm (gdt_fields c)) (Some price) ->
  (length price <= URL_LONG_INPUT_PARAMETER)%nat ->
  cond_ip c <> [] -> (length (cond_ip c) <= URL_LONG_INPUT_PARAMETER)%nat -> adInfo l = ad0 ->
  (length (cipher_text (overlaid_url b tm (gdt_fields c))) <= 200)%nat ->
  exists i seat lb m,
    rd (gq_impressions q) n = Val i /\ gdt_bid_for i r seat /\ last (seat_bids (gd_response h')) = Some seat
    /\ gdt_fillLogItem c l0 true h' = Val (true, lb, h')
    /\ reports (passed_on (impression_param (gseat_bid seat)) ++ price_tail (Some price)) l (adInfo lb) (geoInfo lb) price
    /\ query_params SHOW (passed_on (impression_param (gseat_bid seat)) ++ price_tail (Some price)) = Val m
    /\ forall adx ip, adx = adx_id ADX_TENCENT_GDT \/ adx = adx_id ADX_GDT_MOBILE ->
         countedUserIp adx ip (filterParamMapSafe m) = cond_ip c.
Proof.
  intros q b tm Eb0 Hb Ho Hp Hl Hip Hipl Hl0 H200.
  destruct (gdt_build_spec e c r n h h' Hb) as (Hq & i & seat & b0' & area & imp & u & Hrd & Hf & Eb0' & Ha & Hba & Hat & Hfin & Hu).
  rewrite Eb0 in Eb0'. injection Eb0' as <-.
  destruct (gdt_log_won c l0 h' x y z) as (lb & Elb & Hlb & Hgb); [rewrite Hfin, <- Hat; apply Ho|].
  assert (impression_param (gseat_bid seat) = cipher_text (overlaid_url b tm (gdt_fields c))) as Hd.
  { fold b tm in Hu. rewrite cipherParam_ok in Hu by apply Ho. by injection Hu as <- _. }
  exists i, seat, lb, (overlaid_params b tm (gdt_fields c) (Some price)). split; [done|]. split; [done|].
  split; [by rewrite Ha; cbn [seat_bids]; rewrite last_snoc|]. split; [done|]. unfold passed_on. rewrite !Hd, !take_ge by done. split; [|split; [by eapply overlaid_query|]].
  - destruct (overlaid_reports b tm (gdt_fields c) (x, y, z) Ho (Some price) l x y z eq_refl Hp) as (m & ls & Hm & Hls & Hsame & Hgeo & Hpr); [done|done|].
    change (bid_ad b) with (base_ad (at_show (clock e n) b0)) in Hsame. rewrite Hat, Hba in Hsame.
    exists m, ls. split; [done|]. split; [done|]. split; [rewrite Hlb, Hfin, Hba; by apply won_same|]. split; [congruence|done].
  - intros adx ip Hadx. unfold countedUserIp.
    assert (adx_is adx [ADX_TENCENT_GDT; ADX_GDT_MOBILE] = true) as ->
      by (cbn [adx_is existsb]; rewrite !orb_true_iff, !Z.eqb_eq; naive_solver).
    erewrite filter_short; [done| |exact Hipl]. unfold overlaid_params. cbn [field gdt_fields list_find].
    change (field URL_EXCHANGE_PRICE (gdt_fields c)) with (@nil Z). cbv iota.
    rewrite lookup_insert_ne by (intros E; by apply (inj url_name) in E).
    rewrite (overlaid_lookup b tm (gdt_fields c) _ Ho URL_IP PARAM_STRING) by typed_tac.
    change (normal PARAM_STRING (cond_ip c) = Some (cond_ip c)). by destruct (cond_ip c).
Qed.

(** *** The answer to a request *)

Section answer.
Context `{Names : UrlNames} `{!UrlNamesLaws Names} `{!UrlLiterals Names} `{MapOrderLaws} `{Base64Laws}.
Context `{CryptoPP} `{Aes} `{UserIds} `{TaskConst} `{CmConst, RecordStore, DeviceOrder}.
Context `{AdxConst, ShowConst, UaConst, BrowserConst, NetConst, Json, GdtProto}.
Context (e : handler_env) (sizes_ : AdSizeMap) (Hwr : forall r, is_Some (gdt_write r)).

(** The response after the seats [ss] were added. *)
Definition gdt_response (q : GdtRequest) (ss : list GdtSeat) : GdtResponse := mkGdtResponse (Some (gq_id q)) ss.
Definition gdt_holds (h : gdt) (ss : list GdtSeat) : Prop :=
  gd_response h = match ss with [] => gdt_response0 | _ => gdt_response (gd_request h) ss end.

Definition gdt_seat_of_round (places : list GdtImpression) (w : Z * round) (seat : GdtSeat) : Prop :=
  exists i, rd places (fst w) = Val i /\ gdt_bid_for i (rd_result (snd w)) seat.

Definition gdt_written (q : GdtRequest) (ss : list GdtSeat) (resp resp' : HttpResponse) : Prop :=
  exists t, gdt_write (gdt_response q ss) = Some t /\ resp' = x_protobuf t resp.

#[refine] Instance gdt_answers : HandlerAnswers (gdt_handler e sizes_) := {|
  request (h : @handler (gdt_handler e sizes_)) := gd_request h; holds_ads := gdt_holds;
  round_ad q := gdt_seat_of_round (gq_impressions q); written := gdt_written |}.
Proof.
  - intros c r n h h' ss Eb Hw.
    destruct (gdt_build_spec e c r n h h' Eb) as (Q1 & i & seat & _ & _ & _ & _ & Hrd & Hf & _ & Ha & _).
    split; [done|]. exists seat. split; [|by exists i]. unfold gdt_holds in *. rewrite Q1, Ha, Hw. by destruct ss.
  - intros c l ok h b l' h' ss E Hw. cbn in E. unfold gdt_fillLogItem in E. bind_in E x E1. destruct x as [[b1 l1] hb].
    by injection E as <- <- <-.
  - done.
  - intros r h r' h' ss E Hw Hne. cbn in E. unfold gdt_match in E. unfold gdt_holds in Hw. rewrite Hw in E.
    destruct ss as [|s ss]; [done|]. destruct (Hwr (gdt_response (gd_request h) (s :: ss))) as [t Et].
    rewrite Et in E. injection E as <- <-. by exists t.
  - intros r h r' h' E Hw. cbn in E. unfold gdt_reject in E.
    destruct (Hwr (gdt_response (gd_request h) [])) as [t Et]. unfold gdt_response in Et. rewrite Et in E.
    injection E as <- <-. by exists t.
Defined.
End answer.

(** The answer to a request of Tencent.  A ping, a test, and a request for a place whose formats are
    not known, is answered with the id of the request and no seat.  Any other request is asked for
    once, with the condition of its first place and the sizes of its formats; the answer holds the
    seat of the ad that was found, with its creative and the price that was bid, or none. *)
Theorem gdt_answer `{Names : UrlNames} `{!UrlNamesLaws Names} `{!UrlLiterals Names} `{MapOrderLaws} `{Base64Laws}
    `{CryptoPP} `{Aes} `{UserIds} `{TaskConst} `{CmConst, RecordStore, DeviceOrder}
    `{AdxConst, ShowConst, UaConst, BrowserConst, NetConst, Json, OpenSSL, GdtProto} `{BoostBase64, PriceMemory, Avro, LogConst}
    (e : handler_env) sizes_ be data (h h0 : gdt) h' st st' (ok : bool) :
  let gh := gdt_handler e sizes_ in let q := gd_request h0 in
  isPost (bid_task be) = true -> gdt_parseRequestData data h = Val (ok, h0) ->
  (forall c, address_known be c) ->
  (forall r, is_Some (gdt_write r)) ->
  bid_customLogic be (Some h0) st = RVal h' st' ->
  exists rs ss t, Forall2 (gdt_seat_of_round (gq_impressions q)) (winners 0 rs) ss
    /\ (gq_is_ping q || is_test q = true -> rs = [])
    /\ (gq_is_ping q || is_test q = false ->
          exists i, head (gq_impressions q) = Some i
            /\ let '(szs, flow) := gdt_formats sizes_ (creative_specs i) [] 0 in
               match szs with
               | [] => rs = []
               | _ => exists c b r, gdt_condition e q i szs flow (gd_base h0) = Val (c, b) /\ rs = [r] /\ is_round be [] c r
               end)
    /\ gdt_write (gdt_response q ss) = Some t
    /\ resp st' = x_protobuf t (resp st) /\ needLog st' = false.
Proof.
  intros gh q Hpost Hp Hadr Hwr E.
  assert (gdt_holds h0 []) as Hw by (unfold gdt_parseRequestData in Hp; destruct (gdt_parse data); by injection Hp as _ <-).
  assert (exists h1 o, gdt_filter_conditions e sizes_ h0 = Val (h1, o) /\ gd_request h1 = q /\ gd_response h1 = gd_response h0
    /\ (gq_is_ping q || is_test q = true -> o = None)
    /\ (gq_is_ping q || is_test q = false ->
          exists i, head (gq_impressions q) = Some i
            /\ let '(szs, flow) := gdt_formats sizes_ (creative_specs i) [] 0 in
               match szs with
               | [] => o = None
               | _ => exists c b, gdt_condition e q i szs flow (gd_base h0) = Val (c, b) /\ o = Some [c]
               end)) as (h1 & o & Ef & Hq & Hr & Hno & Ho).
  { destruct (answered_filtered (BH := gh) be h0 h' st st' Hpost E) as (h1 & o & Ef). exists h1, o. split; [done|].
    cbn in Ef. unfold gdt_filter_conditions in Ef. fold q in Ef.
    destruct (gq_is_ping q || is_test q); [by injection Ef as <- <-|]. bind_in Ef i Ei.
    assert (head (gq_impressions q) = Some i) as Hh by (by destruct (gq_impressions q); [|injection Ei as ->]).
    destruct (gdt_formats sizes_ (creative_specs i) [] 0) as [szs flow] eqn:Es.
    destruct szs as [|sz szs].
    - injection Ef as <- <-. split; [done|]. split; [done|]. split; [done|]. intros _. exists i. by rewrite Es.
    - bind_in Ef x Ec. destruct x as [c b]. injection Ef as <- <-. split; [done|]. split; [done|]. split; [done|].
      intros _. exists i. split; [done|]. rewrite Es. by exists c, b. }
  assert (gdt_holds h1 []) as Hw1 by (unfold gdt_holds in *; by rewrite Hr).
  destruct (auction_answer (BH := gh) (HA := gdt_answers e sizes_ Hwr) be h0 h1 o h' st st' Hpost Ef Hw1 Hadr E)
    as (rs & ss & Hrs & Hf & (t & Ht & Hresp) & Hlog).
  cbn [request round_ad gdt_answers] in Hf, Ht. rewrite Hq in Hf, Ht. exists rs, ss, t. split; [done|].
  split; [intros Hn; apply Hno in Hn; by subst o|]. split; [|done]. intros Hn. destruct (Ho Hn) as (i & Hi & Hc). exists i. split; [done|].
  destruct (gdt_formats sizes_ (creative_specs i) [] 0) as [[|sz szs] flow]; [by subst o|]. destruct Hc as (c & b & Ec & ->).
  destruct rs as [|r [|r2 rs]]; cbn [rounds] in Hrs; [done| |by destruct Hrs as [_ []]]. exists c, b, r. by destruct Hrs as [Hr1 _].
Qed.

(** *** Limits *)

(** The first place is read without asking whether there is one. *)
Lemma gdt_no_place `{UrlNames, MapOrder, Base64, CryptoPP, UserIds, CmConst, RecordStore, DeviceOrder}
    `{AdxConst, ShowConst, UaConst, BrowserConst, NetConst, Json} e sizes_ (h : gdt) :
  gq_is_ping (gd_request h) || is_test (gd_request h) = false -> gq_impressions (gd_request h) = [] ->
  gdt_filter_conditions e sizes_ h = Undef.
Proof. intros Hp Hi. unfold gdt_filter_conditions. by rewrite Hp, Hi. Qed.

(** A request without a device keeps the user of the request before it: the log item of the round, and
    the urls, name him. *)
Lemma gdt_stale_user `{UrlNames, MapOrder, Base64, CryptoPP, UserIds, CmConst, RecordStore, DeviceOrder}
    `{AdxConst, ShowConst, UaConst, BrowserConst, NetConst, Json} e q i szs flow b c b' :
  gq_device q = None -> gdt_condition e q i szs flow b = Val (c, b') -> cmInfo b' = cmInfo b /\ cond_mtUserId c = [].
Proof.
  intros Hd E. unfold gdt_condition, gdt_client in E. rewrite Hd in E. cbn [mbind outcome_bind] in E.
  destruct (default (0, 0) (last szs)) as [w v]. by injection E as <- <-.
Qed.

(** The place of an app without a bundle has no id, even when the request names it. *)
Lemma gdt_place_not_named `{ShowConst} q i : gq_app q = Some None -> gdt_adxpid q i SOLUTION_FLOWTYPE_MOBILE = [].
Proof. intros Ha. unfold gdt_adxpid. by rewrite Ha, Z.eqb_refl. Qed.

(** ** Instances *)

Module GdtInstance.
#[local] Existing Instance toy_openssl.
Import HandlerInstance.

(** A page of a browser with one known format, and the price that Tencent appends. *)
Definition gdt_imp : GdtImpression := mkGdtImpression (str "i1") (Some 77) [1; 2] (Some 40).
Definition gdt_pc : GdtDevice := mkGdtDevice (str "aa") kDeviceTypePC None (str "Mozilla/5.0 (X11; Linux)") kCarrierUnknown kConnTypeUnknown [].
Definition gdt_page : GdtRequest := mkGdtRequest (str "q9") false false [gdt_imp] (Some gdt_pc) (str "1.2.3.4") (str "u77") None None.
Definition gdt_sent_price : bytes := str "AbCdEfGh".

#[local] Instance gdt_messages : GdtProto := {
  gdt_parse _ := (true, gdt_page);
  gdt_write r := Some (flat_map (fun s => seat_impression s ++ str "=" ++ to_string (bid_price (gseat_bid s)) ++ str ";") (seat_bids r));
  debug_gdt _ := [];
}.

Definition gdt_parsed : gdt := mkGdt base0 gdt_page gdt_response0.
#[local] Instance gh : BiddingHandler := gdt_handler the_env AdSizeMap_new.
Definition gdt_parsed_handler : handler := gdt_parsed.

Example gdt_page_answer :
  match bid_customLogic the_bids (Some gdt_parsed_handler) the_state with RVal _ s => body (resp s) | _ => [] end = str "i1=100;".
Proof. by vm_compute. Qed.

Definition gdt_finished : task_state :=
  match bid_customLogic the_bids (Some gdt_parsed_handler) the_state with RVal _ s => s | _ => the_state end.
Definition gdt_done : option handler := match bid_customLogic the_bids (Some gdt_parsed_handler) the_state with RVal h _ => h | _ => None end.

Lemma gdt_answer_witness :
  exists rs ss t, Forall2 (gdt_seat_of_round [gdt_imp]) (winners 0 rs) ss
    /\ gdt_write (gdt_response gdt_page ss) = Some t
    /\ resp gdt_finished = x_protobuf t (resp the_state) /\ needLog gdt_finished = false.
Proof.
  destruct (gdt_answer the_env AdSizeMap_new the_bids [] gdt_parsed gdt_parsed gdt_done the_state gdt_finished true)
    as (rs & ss & t & A1 & _ & _ & A2 & A3 & A4).
  - reflexivity.
  - reflexivity.
  - intros c. split; by eexists.
  - intros r. by eexists.
  - by vm_compute.
  - exists rs, ss, t. split; [exact A1|]. split; [exact A2|]. split; [exact A3|exact A4].
Defined.

Definition gdt_asked : AdSelectCondition :=
  match gdt_condition the_env gdt_page gdt_imp [(160, 210)] 2 base0 with Val (c, _) => c | _ => condition0 end.
Definition gdt_found : SelectResult := snd (found gdt_asked).
Definition gdt_after : gdt := match gdt_buildBidResult the_env gdt_asked gdt_found 0 gdt_parsed with Val h => h | _ => gdt_parsed end.
Definition gdt_base0 : base := match gdt_filled the_env gdt_asked gdt_found 0 gdt_parsed with Val b => b | _ => base0 end.
Abbreviation gdt_info := (info_of (at_show (clock the_env 0) gdt_base0)).
Abbreviation gdt_extra := (gdt_fields gdt_asked).

Lemma gdt_cipherable : cipherable (overlaid_url gdt_info 1476779974 gdt_extra).
Proof.
  constructor.
  - by_decide.
  - repeat constructor; vm_compute; congruence.
  - by_decide.
  - vm_compute. discriminate.
  - vm_compute. lia.
  - intros []; discriminate.
Qed.

Lemma gdt_overlay_ok : overlay_ok gdt_info 1476779974 gdt_extra (86, 110000, 110100).
Proof.
  destruct (gdt_fields_ok gdt_asked) as [F1 F2]. constructor; [exact F1|exact F2|exact gdt_cipherable|discriminate| |by_decide|by vm_compute].
  constructor; [by_decide|by_decide|split; vm_compute; discriminate].
Qed.

Lemma gdt_price_ok : price_ok (overlaid_url gdt_info 1476779974 gdt_extra) (Some gdt_sent_price).
Proof.
  split; [split; [by_decide|]; split; [by_decide|vm_compute; lia]|].
  intros p E. injection E as <-. split; [vm_compute; discriminate|]. constructor; cbn [fst snd]; (discriminate || by_decide).
Qed.

Lemma gdt_impression_witness :
  exists i seat lb m,
    rd [gdt_imp] 0 = Val i /\ gdt_bid_for i gdt_found seat /\ last (seat_bids (gd_response gdt_after)) = Some seat
    /\ gdt_fillLogItem gdt_asked log0 true gdt_after = Val (true, lb, gdt_after)
    /\ reports (passed_on (impression_param (gseat_bid seat)) ++ price_tail (Some gdt_sent_price)) show_log (adInfo lb) (geoInfo lb) gdt_sent_price
    /\ query_params SHOW (passed_on (impression_param (gseat_bid seat)) ++ price_tail (Some gdt_sent_price)) = Val m
    /\ forall adx ip, adx = adx_id ADX_TENCENT_GDT \/ adx = adx_id ADX_GDT_MOBILE ->
         countedUserIp adx ip (filterParamMapSafe m) = str "1.2.3.4".
Proof.
  apply (gdt_impression the_env gdt_asked gdt_found 0 gdt_parsed gdt_after gdt_base0 gdt_sent_price log0 show_log 86 110000 110100).
  - by vm_compute.
  - by vm_compute.
  - exact gdt_overlay_ok.
  - exact gdt_price_ok.
  - vm_compute. lia.
  - vm_compute. discriminate.
  - vm_compute. lia.
  - reflexivity.
  - apply Nat.leb_le. by vm_compute.
Defined.

(** The parameters of a phone, whose id is a digest, are longer than the 200 bytes that Tencent passes on. *)
Definition gdt_phone : GdtDevice :=
  mkGdtDevice (str "9e107d9d372bb6826bd81d3542a419d6") kDeviceTypeMobile (Some kOSIOS) [] kCarrierChinaMobile kConnTypeWifi [].
Definition gdt_app_request : GdtRequest :=
  mkGdtRequest (str "q9") false false [gdt_imp] (Some gdt_phone) (str "1.2.3.4") (str "u77") None (Some (Some (str "com.tencent.news"))).
Definition gdt_app_asked : AdSelectCondition :=
  match gdt_condition the_env gdt_app_request gdt_imp [(160, 210)] 2 base0 with Val (c, _) => c | _ => condition0 end.
Example param_too_long :
  match gdt_buildBidResult the_env gdt_app_asked (snd (found gdt_app_asked)) 0 (mkGdt base0 gdt_app_request gdt_response0) with
  | Val h => map (fun s => 200 <? Z.of_nat (length (impression_param (gseat_bid s)))) (seat_bids (gd_response h)) = [true]
  | _ => False
  end.
Proof. by vm_compute. Qed.
End GdtInstance.
